(* ===== verification/_CoqProject ===== *)
-Q . S2P
Prelude.v
Effects.v
Crc.v
Lightmodbus.v
ModbusSlave.v
ModbusSlaveSafety.v
ModbusPdu.v
ModbusRefinement.v
ModbusMaster.v
ModbusMasterTheory.v
ModbusLink.v
ModbusProperties.v
Alloc.v
Buffer.v
Vector.v
SinglyLinkedList.v
DoublyLinkedList.v
CString.v
MqttCodec.v
MqttDecoder.v
MqttCodecTheory.v
MqttDecoderTheory.v
MqttMessage.v
OptionHandler.v
MqttClient.v
MqttClientTheory.v
MqttProperties.v
RetryLogic.v
RetryControl.v
RetryControlProperties.v
IotHubClient.v
Sqlite.v
SqliteProperties.v
IotHubFrame.v
IotHubTheory.v
IotHubSetup.v
IotHubProperties.v
Json.v
Utils.v
Printf.v
ClockText.v
IoteaClient.v
IoteaFrame.v
IoteaTheory.v
IoteaProperties.v
Dlt698.v
Dlt698Spec.v
Dlt698Theory.v
Dlt698Properties.v
ProtocolManager.v
Driver.v
Registry.v
ChannelModel.v
SerialIo.v
SerialIoTheory.v
ChannelTheory.v
IotModbus.v
IotDlt698.v
IotMain.v
SerialIoProperties.v
IotStart.v
IotRun.v
PollTheory.v
IotStartTheory.v
IotChannelTheory.v
IotBindTheory.v
IotAgentTheory.v
IotRunTheory.v
PollProperties.v
IotModbusTheory.v
IotModbusProperties.v
IotDlt698Theory.v
IotDlt698Properties.v
IotDriverLaws.v
IotStartProperties.v
IotRunProperties.v
