(* ===== verification/Prelude.v ===== *)
(** * The IoT edge agent: a verified model

    The agent reads devices on serial lines (Modbus RTU slaves and DL/T 698.45
    electricity meters) and publishes their readings to an MQTT broker.  This
    development models its code as executable functions and proves what the
    parts promise to each other.  This file is the prelude: the vocabulary and
    the lemmas shared by all others.

    ** The program and its model

    The broker tells the agent its channels and the models of its devices
    ([iotea_client.c]); for each channel the agent opens a port and for each model
    it makes a manager ([iot_main.c], [channel_model.c]).  A channel with a manager
    has a sending thread ([iot_main.c]), which asks the
    protocol manager ([protocol_manager.c]) for the next request and hands it the
    bytes that come back.  The manager walks the data descriptions that a protocol
    driver ([modbus.c] or [dlt_698.c]) has built from the JSON models of the
    devices; the driver uses a protocol library ([liblightmodbus] or [libdlt698])
    and turns responses into JSON texts, which the thread passes on to be
    published.  The broker is reached through [iothub_client] on top of [umqtt];
    lists and buffers come from [c-utility].

    - Libraries: [Prelude] (integers at their width, memory as lists of bytes),
      [Effects] (the monad [ST] of computations with a state that may be
      undefined, with its [wp] rules), [Crc] (the algebra of the two checksums),
      [CString], [Printf], [Json].
    - [src/liblightmodbus]: [Lightmodbus] ([src/lightmodbus.c], [parser.h]),
      [ModbusSlave] ([src/slave.c], [src/slave/*.c]), [ModbusMaster]
      ([src/master.c], [src/master/*.c]).  [ModbusPdu] is the protocol as a
      specification: requests, replies, their effect.  [ModbusSlaveSafety] and
      [ModbusRefinement] relate the slave to it, [ModbusMasterTheory] the master;
      in [ModbusLink] the interface [Server] joins the two and several slaves
      share a line.
    - [src/c-utility]: [SinglyLinkedList] ([src/singlylinkedlist.c]),
      [DoublyLinkedList] ([src/doublylinkedlist.c]), [Alloc] (the allocator),
      [Buffer] ([src/buffer.c]), [Vector] ([src/vector.c]), [OptionHandler]
      ([src/optionhandler.c]; what its functions promise is the class [OptionLaws]).
    - [src/umqtt]: [MqttCodec] and [MqttDecoder] ([src/mqtt_codec.c]),
      [MqttMessage] ([src/mqtt_message.c]), [MqttClient] ([src/mqtt_client.c]).
      [MqttCodecTheory] gives the packets their layout, [MqttDecoderTheory] takes
      streams apart, [MqttClientTheory] has the packets of a broker and their
      meaning.
    - [src/iothub_client]: [RetryLogic] (when it may connect) and [IotHubClient]
      (the rest of [src/iothub_mqtt_client.c]); its state is the context of the
      callbacks of [MqttClient].  [IotHubTheory] has the specification of its
      publications and the refinement, [IotHubSetup] the creation and series of
      operations; [IotHubFrame] shows that the application changes through its own
      callbacks only.  [Sqlite] is [src/iothub_client_persistence_sqlite.c],
      the storage of unsent messages, over the operations of the SQLite library.
      [RetryControl] is [src/iothub_client_retry_control.c], which the hub client
      does not call.
    - [src/libdlt698]: [Dlt698] ([src/dlt698_master.c]), [Utils] (the byte
      reversals); [Dlt698Spec] is the grammar of data, frames and responses.
    - [src/iot_edge_agent]: [ClockText] (the texts of times of
      [src/utils.c]), [ProtocolManager] ([src/protocol_manager.c]), [Driver]
      (the effects of a driver), [IotModbus] ([src/modbus.c]), [IotDlt698]
      ([src/dlt_698.c]), [IotMain] (the sending thread of [src/iot_main.c]),
      [ChannelModel] ([src/channel_model.c], on the lists of structures of
      [Registry]), [IotStart] (the rest of [src/iot_main.c]: the two parsers of the
      broker's messages, the maps of channels and managers, the iterations of the
      threads as steps of the process), [SerialIo] ([src/serial_io.c], the ports on
      serial lines; [SerialIoTheory] relates a port to a list).  [ChannelTheory] has the meaning of the
      description of a channel; [IotStartTheory] what the process owns and the interface
      [DriverLaws] of a driver, [IotDriverLaws] its instances, [IotChannelTheory] and
      [IotBindTheory] the two messages, [IotAgentTheory] any sequence of messages and
      iterations.
      [IoteaClient] is [src/iotea_client.c], the application of a hub client:
      [IoteaTheory] has the meaning of addresses and of the broker's messages,
      [IoteaFrame] what no message can do.
      [IotRun] puts the program together ([main] and [iotea_client_run]): the edge
      client with the parsers of the agent, the main loop, the threads between its
      rounds; [IotRunTheory] relates it to the steps of the agent.

    ** Conventions

    A definition has the name of the C function, structure, field or constant it
    translates.  An integer is a [Z] in the range of its type; where the C code
    wraps around, [u8], [u16], [u32] or [mod] say so.  A structure is a record, an
    enumeration an inductive type or the constants of its values.  A block of
    memory is the list of its bytes (or words); reading and writing it outside of
    its bounds, following a NULL or dangling pointer, and other undefined
    behaviour is [None].  A theorem that a function returns therefore also shows
    that its run is defined; only what no run can do, as in [IotHubFrame], is said of
    the runs that are defined.  A handle that has one owner is the structure itself
    ([option], for NULL); structures that are shared through pointers (list items,
    data descriptions) live in an explicit store.  What the outside decides is an
    oracle in the state: allocations and the content of new blocks, clocks, the
    transport.  Logging has no counterpart.

    Loops have the fuel of a bound that the theorems show to be enough: the loops
    of [singlylinkedlist.c] one more than the number of allocated items, the walks
    along the queues of the hub client one more than the number of entries,
    [dwDlt698DataLen] the number of bytes before it, [encode_length] and
    [decode_length] five and the four stored bytes, digits of a number its binary
    logarithm, the sending thread and the calls of [mqtt_client_dowork] the list of
    their iterations.

    ** What is proved

    - The Modbus library ([ModbusProperties]): the slave is memory safe, refines
      the specification and keeps what is write protected; the master's builders
      and parser are correct on all arguments and all frames; a transaction of the
      two delivers the data; frames with an error burst of at most 16 bits are
      dropped; on a line of several devices only the addressed one answers.
    - Linked lists ([SinglyLinkedList]): every operation refines the one on lists
      and leaves the rest of the heap alone.
    - The DL/T 698.45 library ([Dlt698Properties]): data items of any type are
      measured, requests are built, responses reported, damaged responses dropped,
      readings printed; where the length field and the printing go wrong.
    - Manager and thread ([PollProperties]): the circle of descriptions; when a
      run of the thread is undefined; responses are attributed to the request sent
      last; requests keep their interval; at most five go unanswered, and a silent
      device stops its thread.
    - The Modbus driver ([IotModbusProperties]) and the meter driver
      ([IotDlt698Properties]): models become descriptions, responses become the
      published texts; a thread with Modbus devices never goes wrong after its
      first request and publishes the values of the slaves' registers.
    - MQTT ([MqttProperties]): the packets built, the memory safety of the decoder
      and its one exception, the client as a refinement of the meaning of the
      broker's packets, the transfer of a message between two clients, and the
      detection of a silent broker.
    - The hub client ([IotHubProperties]): from its creation on every series of
      operations does what a specification with pending publications says, within
      the memory it accounts for; callbacks are called once; attempts to connect
      back off; when an error of the MQTT client is undefined behaviour, and how a
      late CONNACK leaves a dangling transport.
    - The storage of messages ([SqliteProperties]): a session answers as a list of
      messages with different identifiers, and what was stored is read back byte for
      byte; a topic that was read has no end, and is read past it by the hub client.
    - The edge client ([IoteaProperties]): the addresses it understands, its
      answers to any sequence of messages, and the limit of the requests it
      repeats, whatever the broker and the network do.
    - The agent ([IotStartProperties]): what a message with channels or with models
      does, with the blocks in use; the process stays well formed in any order of
      messages and iterations; how one unknown port makes it refuse everything, and
      how binding a model again goes wrong.
    - The serial port ([SerialIoProperties]): from creation to destruction it is a line
      configured as asked for that keeps the order of the texts; its rounds of work are
      the [xio_dowork] of the threads; where it repeats, loses or overruns.
    - The program ([IotRunProperties]): a connected client starts to poll with two
      requests; what a thread reads is published on the topic of its device; whatever
      the outside does, the process of the agent only makes its own steps, and at the
      end nothing of it is left.  [program_published] runs the whole program on a
      concrete site, from the command line to the published reading.
    - The retry control ([RetryControlProperties]): its answers are the schedule of its
      policy, and options survive being saved ([Vector] and [OptionHandler] relate
      their structures to lists).

    ** Parameters and hypotheses

    The text of a JSON value, the text of a floating-point reading, [localtime],
    the modulus of the tick counter, the width of [size_t] ([Arch]) and the
    callbacks of the application are parameters.  The theorems about threads
    suppose what their [Class]es or records say of the driver (for example
    [sound] in [PollTheory], [DriverLaws] in [IotStartTheory]); the drivers' files
    prove it of the drivers.  [SqliteLaws] is what SQLite promises of the statements of
    the storage, on a device without errors; a library in memory satisfies it.  The manager is one of two drivers over the same types
    of models and global variables; the examples run it with the Modbus driver.  A
    message to the agent is supposed to be [decent]: numbers are numbers, texts fit
    their arrays, no two channels have the same model; what happens otherwise is
    said among the findings.  Ports and threads answer from an oracle, and an
    iteration of a thread is atomic; in [IotRun] iterations and rounds of the main loop
    come in any order.  The agent and the client have separate oracles for their
    allocations there.  Arithmetic in [double] is that of [SpecFloat], and [RAND_MAX]
    is a parameter.

    ** Not modelled

    The socket and TLS adapters below MQTT, the analysis of the command
    line by [getopt_long] and the handler of SIGINT (their results are inputs of
    [main]), the SQLite library ([Sqlite] is a client of it), [parson]
    (the parser), the rest of [c-utility] (maps, adapters of the operating system,
    strings, HTTP, TLS), the printing aids of [liblightmodbus] ([addons/examine.c]),
    tracing in [umqtt], tests and samples. *)
From Stdlib Require Export ZArith Lia Bool.
From stdpp Require Export base option numbers list_numbers list.

#[global] Open Scope Z_scope.

(** ** Machine integers: values in [Z], wrap-around written out. *)

Definition u8 (z : Z) : Z := z mod 256.
Definition u16 (z : Z) : Z := z mod 65536.
Definition u32 (z : Z) : Z := z mod 4294967296.

Definition is_u8 (z : Z) : Prop := 0 <= z < 256.
Definition is_u16 (z : Z) : Prop := 0 <= z < 65536.

Definition bytes (l : list Z) : Prop := Forall is_u8 l.
Definition words (l : list Z) : Prop := Forall is_u16 l.

#[export] Instance is_u8_dec z : Decision (is_u8 z).
Proof. unfold is_u8. apply _. Defined.
#[export] Instance is_u16_dec z : Decision (is_u16 z).
Proof. unfold is_u16. apply _. Defined.
#[export] Instance bytes_dec l : Decision (bytes l).
Proof. unfold bytes. apply _. Defined.
#[export] Instance words_dec l : Decision (words l).
Proof. unfold words. apply _. Defined.

(** The two bytes of a 16-bit word, most or least significant first. *)
Definition be16 (w : Z) : list Z := [w / 256; w mod 256].
Definition le16 (w : Z) : list Z := [w mod 256; w / 256].

(** ** Byte memory. [None] is undefined behaviour: an access out of bounds. *)

Definition rd16 (f : list Z) (o : nat) : option Z :=
  lo ← f !! o; hi ← f !! S o; Some (lo + 256 * hi).

Definition st8 (f : list Z) (o : nat) (v : Z) : option (list Z) :=
  if (o <? length f)%nat then Some (<[o := u8 v]> f) else None.

Definition st16 (f : list Z) (o : nat) (v : Z) : option (list Z) :=
  f1 ← st8 f o v; st8 f1 (S o) (v / 256).

(** [calloc n]: a zeroed block, or [None] (the NULL pointer) on failure. *)
Definition calloc (ok : bool) (n : Z) : option (list Z) :=
  if ok then Some (replicate (Z.to_nat n) 0) else None.

(** [memcpy(dst, src, n)]. *)
Definition memcpy (dst src : list Z) (n : nat) : option (list Z) :=
  if (n <=? length dst)%nat && (n <=? length src)%nat
  then Some (take n src ++ drop n dst) else None.

(** [for (i = i0; n iterations; i++) body], the body may hit undefined
    behaviour ([None]) or return early ([Some (inl r)]). *)
Fixpoint cloop {S R : Type} (n i : nat) (body : nat → S → option (R + S)) (s : S)
    : option (R + S) :=
  match n with
  | O => Some (inr s)
  | S n' =>
      match body i s with
      | Some (inr s') => cloop n' (i + 1)%nat body s'
      | o => o
      end
  end.

(** The same without early returns. *)
Fixpoint cfor {S : Type} (n i : nat) (body : nat → S → option S) (s : S) : option S :=
  match n with
  | O => Some s
  | S n' => s' ← body i s; cfor n' (i + 1)%nat body s'
  end.

#[global] Arguments u8 : simpl never.
#[global] Arguments u16 : simpl never.
#[global] Arguments u32 : simpl never.
#[global] Arguments be16 : simpl never.
#[global] Arguments le16 : simpl never.
#[global] Arguments rd16 : simpl never.
#[global] Arguments st8 : simpl never.
#[global] Arguments st16 : simpl never.
#[global] Arguments calloc : simpl never.
#[global] Arguments memcpy : simpl never.

(** ** Lemmas *)

(** [lia] over quotients and remainders, with the range predicates unfolded. *)
Ltac ulia :=
  unfold is_u8, is_u16, u8, u16, u32 in *; Z.to_euclidean_division_equations; lia.

Lemma u8_range z : is_u8 (u8 z).
Proof. ulia. Qed.

Lemma u16_range z : is_u16 (u16 z).
Proof. ulia. Qed.

Lemma u8_id z : is_u8 z → u8 z = z.
Proof. ulia. Qed.

Lemma u16_id z : is_u16 z → u16 z = z.
Proof. ulia. Qed.

Lemma is_u8_u16 z : is_u8 z → is_u16 z.
Proof. unfold is_u8, is_u16. lia. Qed.

(** Evaluates [Z.to_nat] on literals. *)
Ltac znat :=
  repeat match goal with
  | |- context [Z.to_nat (Z.pos ?p)] =>
      let n := eval vm_compute in (Z.to_nat (Z.pos p)) in
      change (Z.to_nat (Z.pos p)) with n
  end.

(** Removes the truncations that change nothing. *)
Ltac norm8 :=
  repeat match goal with
  | |- context [u8 ?x] => rewrite (u8_id x) by (first [assumption | ulia])
  end.

(** Closes [bytes l] for an explicit list. *)
Ltac solve_bytes :=
  unfold bytes, be16, le16 in *; cbn [app];
  repeat first [apply Forall_nil_2 | apply Forall_app_2 | apply Forall_cons_2];
  first [assumption | ulia].

Lemma be16_bytes w : is_u16 w → bytes (be16 w).
Proof. intros. solve_bytes. Qed.

Lemma length_be16 w : length (be16 w) = 2%nat.
Proof. reflexivity. Qed.

Lemma length_le16 w : length (le16 w) = 2%nat.
Proof. reflexivity. Qed.

Lemma le16_bytes w : is_u16 w → bytes (le16 w).
Proof. intros. solve_bytes. Qed.

Lemma le16_u8 w : is_u16 w → le16 w = [u8 w; u8 (w / 256)].
Proof. intros. unfold le16. by rewrite (u8_id (w / 256)) by ulia. Qed.

Lemma bytes_app l k : bytes (l ++ k) ↔ bytes l ∧ bytes k.
Proof. apply Forall_app. Qed.

Lemma bytes_lookup l i x : bytes l → l !! i = Some x → is_u8 x.
Proof. apply Forall_lookup_1. Qed.

Lemma words_lookup l i x : words l → l !! i = Some x → is_u16 x.
Proof. apply Forall_lookup_1. Qed.

Lemma bytes_insert l i x : bytes l → is_u8 x → bytes (<[i := x]> l).
Proof. intros. by apply Forall_insert. Qed.

Lemma bytes_zeroes n : bytes (replicate n 0).
Proof. apply Forall_replicate. unfold is_u8. lia. Qed.

Lemma bytes_take n l : bytes l → bytes (take n l).
Proof. apply Forall_take. Qed.

Lemma bytes_drop n l : bytes l → bytes (drop n l).
Proof. apply Forall_drop. Qed.

Create HintDb cmem.
#[export] Hint Resolve u8_range u16_range is_u8_u16 be16_bytes le16_bytes
  bytes_insert bytes_zeroes bytes_take bytes_drop : cmem.

(** *** Stores and loads *)

(** Sequencing after a success; as a rewrite rule, so that the conversion
    checker never compares the two sides of the bind. *)
Lemma bind_ret {A B} (x : A) (f : A → option B) : (Some x ≫= f) = f x.
Proof. reflexivity. Qed.

Lemma fmap_ret {A B} (x : A) (f : A → B) : f <$> Some x = Some (f x).
Proof. reflexivity. Qed.

Lemma st8_Some f o v : (o < length f)%nat → st8 f o v = Some (<[o := u8 v]> f).
Proof. intros H. unfold st8. by rewrite (proj2 (Nat.ltb_lt _ _) H). Qed.

Lemma st8_length f o v f' : st8 f o v = Some f' → length f' = length f.
Proof.
  unfold st8. destruct (_ <? _)%nat; [|done]. intros [= <-].
  apply length_insert.
Qed.

Lemma st8_bytes f o v f' : bytes f → st8 f o v = Some f' → bytes f'.
Proof.
  unfold st8. destruct (_ <? _)%nat; [|done]. intros ? [= <-]. auto with cmem.
Qed.

Lemma st16_Some f o v :
  (S o < length f)%nat →
  st16 f o v = Some (<[S o := u8 (v / 256)]> (<[o := u8 v]> f)).
Proof.
  intros H. unfold st16. rewrite st8_Some by lia. simpl.
  apply st8_Some. rewrite length_insert. lia.
Qed.

Lemma st16_length f o v f' : st16 f o v = Some f' → length f' = length f.
Proof.
  unfold st16. destruct (st8 f o v) as [f1|] eqn:E; [|done]. simpl. intros H.
  apply st8_length in E. apply st8_length in H. congruence.
Qed.

Lemma rd16_Some f o :
  (S o < length f)%nat → ∃ lo hi, f !! o = Some lo ∧ f !! S o = Some hi ∧
    rd16 f o = Some (lo + 256 * hi).
Proof.
  intros H. destruct (lookup_lt_is_Some_2 f o) as [lo Hlo]; [lia|].
  destruct (lookup_lt_is_Some_2 f (S o)) as [hi Hhi]; [lia|].
  exists lo, hi. unfold rd16. by rewrite Hlo, Hhi.
Qed.

Lemma rd16_u16 f o w : bytes f → rd16 f o = Some w → is_u16 w.
Proof.
  intros Hb. unfold rd16.
  destruct (f !! o) as [lo|] eqn:E1; [|done].
  destruct (f !! S o) as [hi|] eqn:E2; [|done]. simpl. intros [= <-].
  apply (bytes_lookup _ _ _ Hb) in E1, E2. unfold is_u8, is_u16 in *. lia.
Qed.

Lemma st16_app p r w x y :
  st16 (p ++ x :: y :: r) (length p) w = Some (p ++ u8 w :: u8 (w / 256) :: r).
Proof.
  rewrite st16_Some by (rewrite length_app; simpl; lia).
  rewrite insert_app_r_alt by lia. rewrite Nat.sub_diag, insert_app_r_alt by lia.
  by replace (S (length p) - length p)%nat with 1%nat by lia.
Qed.

(** *** Bitwise facts *)

Lemma testbit_above a n i : 0 <= a < 2 ^ n → 0 <= n <= i → Z.testbit a i = false.
Proof.
  intros Ha Hi. destruct (decide (a = 0)) as [->|Hne]; [apply Z.bits_0|].
  apply Z.bits_above_log2; [lia|].
  apply Z.log2_lt_pow2; [lia|].
  apply Z.lt_le_trans with (2 ^ n); [lia|]. apply Z.pow_le_mono_r; lia.
Qed.

Lemma below_pow2 a n :
  0 <= n → 0 <= a → (∀ i, n <= i → Z.testbit a i = false) → a < 2 ^ n.
Proof.
  intros Hn Ha H. assert (a = a mod 2 ^ n) as ->; [|apply Z.mod_pos_bound; lia].
  apply Z.bits_inj'. intros i Hi. rewrite Z.testbit_mod_pow2 by lia.
  destruct (Z.ltb_spec i n); [done|]. by rewrite H by lia.
Qed.

Lemma lxor_bound a b n :
  0 <= n → 0 <= a < 2 ^ n → 0 <= b < 2 ^ n → 0 <= Z.lxor a b < 2 ^ n.
Proof.
  intros Hn Ha Hb. assert (0 <= Z.lxor a b) by (apply Z.lxor_nonneg; lia).
  split; [done|]. apply below_pow2; [lia..|]. intros i Hi.
  by rewrite Z.lxor_spec, (testbit_above a n), (testbit_above b n) by lia.
Qed.

Lemma lxor_cancel_r a b c : Z.lxor a c = Z.lxor b c → a = b.
Proof.
  intros E. apply (f_equal (λ x, Z.lxor x c)) in E.
  by rewrite !Z.lxor_assoc, Z.lxor_nilpotent, !Z.lxor_0_r in E.
Qed.

Lemma lor_bound a b n :
  0 <= n → 0 <= a < 2 ^ n → 0 <= b < 2 ^ n → 0 <= Z.lor a b < 2 ^ n.
Proof.
  intros Hn Ha Hb. assert (0 <= Z.lor a b) by (apply Z.lor_nonneg; lia).
  split; [done|]. apply below_pow2; [lia..|]. intros i Hi.
  by rewrite Z.lor_spec, (testbit_above a n), (testbit_above b n) by lia.
Qed.

Lemma land_bound a b n : 0 <= n → 0 <= a < 2 ^ n → 0 <= Z.land a b < 2 ^ n.
Proof.
  intros Hn Ha. assert (0 <= Z.land a b) by (apply Z.land_nonneg; lia).
  split; [done|]. apply below_pow2; [lia..|]. intros i Hi.
  by rewrite Z.land_spec, (testbit_above a n) by lia.
Qed.

Lemma lor_disjoint a b n :
  0 <= n → 0 <= b < 2 ^ n → Z.lor (a * 2 ^ n) b = a * 2 ^ n + b.
Proof.
  intros Hn Hb. symmetry. rewrite <- Z.shiftl_mul_pow2 by done.
  rewrite <- Z.add_lor_land.
  enough (Z.land (Z.shiftl a n) b = 0) as -> by lia. apply Z.bits_inj'. intros i Hi.
  rewrite Z.land_spec, Z.bits_0, Z.shiftl_spec by done.
  destruct (Z.lt_ge_cases i n).
  - by rewrite Z.testbit_neg_r by lia.
  - rewrite (testbit_above b n) by lia. apply andb_false_r.
Qed.

(** A boolean property of bytes is checked on its 256 values. *)
Lemma u8_check (P : Z → bool) :
  forallb P (seqZ 0 256) = true → ∀ b, is_u8 b → P b = true.
Proof.
  intros H b Hb. rewrite forallb_forall in H. apply H.
  apply list_elem_of_In, elem_of_seqZ. unfold is_u8 in Hb. lia.
Qed.

Lemma shiftr3_div z : Z.shiftr z 3 = z / 8.
Proof. by rewrite Z.shiftr_div_pow2. Qed.

(** *** Loops *)

(** A loop whose body, under the invariant [I], never returns early. *)
Lemma cloop_total {S R : Type} (I : nat → S → Prop) n i (body : nat → S → option (R + S)) s :
  (∀ j t, (i <= j < i + n)%nat → I j t →
     ∃ t', body j t = Some (inr t') ∧ I (j + 1)%nat t') →
  I i s →
  ∃ t, cloop n i body s = Some (inr t) ∧ I (i + n)%nat t.
Proof.
  revert i s. induction n as [|n IH]; intros i s Hb Hi; simpl.
  { exists s. by rewrite Nat.add_0_r. }
  destruct (Hb i s ltac:(lia) Hi) as (s' & -> & Hs').
  replace (i + Datatypes.S n)%nat with (i + 1 + n)%nat by lia.
  apply IH; [|done]. intros j t Hj. apply Hb. lia.
Qed.

(** *** Overwriting a slice *)

(** [l] with the elements from [i] on replaced by [vs]. *)
Definition splice {A} (i : nat) (vs l : list A) : list A :=
  take i l ++ vs ++ drop (i + length vs) l.

Section splice.
Context {A : Type}.
Implicit Types (l vs : list A).

Lemma splice_nil i l : splice i [] l = l.
Proof. unfold splice. simpl. by rewrite Nat.add_0_r, take_drop. Qed.

Lemma splice_cons i v vs l :
  (i < length l)%nat → splice (i + 1) vs (<[i := v]> l) = splice i (v :: vs) l.
Proof.
  intros Hi. unfold splice. rewrite Nat.add_1_r.
  rewrite (take_S_r _ _ v) by (by apply list_lookup_insert_eq).
  rewrite take_insert_ge, drop_insert_lt by lia.
  rewrite <- app_assoc. cbn [length app]. by rewrite Nat.add_succ_r.
Qed.

Lemma length_splice i vs l :
  (i + length vs <= length l)%nat → length (splice i vs l) = length l.
Proof. intros. unfold splice. rewrite !length_app, length_take, length_drop. lia. Qed.

Lemma lookup_splice_out i vs l j :
  (i + length vs <= length l)%nat → (j < i ∨ i + length vs <= j)%nat →
  splice i vs l !! j = l !! j.
Proof.
  intros Hl [Hj|Hj]; unfold splice.
  - rewrite lookup_app_l by (rewrite length_take; lia). by rewrite lookup_take_lt.
  - rewrite lookup_app_r by (rewrite length_take; lia). rewrite length_take.
    rewrite lookup_app_r by lia. rewrite lookup_drop. f_equal. lia.
Qed.

Lemma lookup_splice_in i vs l j :
  (i <= length l)%nat → (j < length vs)%nat → splice i vs l !! (i + j)%nat = vs !! j.
Proof.
  intros Hl Hj. unfold splice. rewrite lookup_app_r by (rewrite length_take; lia).
  rewrite length_take, lookup_app_l by lia. f_equal. lia.
Qed.

Lemma Forall_splice (P : A → Prop) i vs l :
  Forall P vs → Forall P l → Forall P (splice i vs l).
Proof.
  intros. unfold splice. apply Forall_app_2; [by apply Forall_take|].
  apply Forall_app_2; [done|]. by apply Forall_drop.
Qed.
End splice.
