(* ===== verification/Effects.v ===== *)
(** * Effects: computations with a state that may go wrong.

    [ST S A] is a computation that reads and changes a state [S] and returns an
    [A]; [None] is undefined behaviour.  [wp d Q s] says that [d] is defined in
    the state [s] and ends with [Q]; [keeps R d] that the states before and after
    [d] are related by [R] whenever it is defined: it is used for what no run can
    change, next to theorems that runs are defined.  The protocol drivers ([Driver.v]) and the MQTT library
    ([Alloc.v], [MqttClient.v]) are written in this monad. *)
From S2P Require Import Prelude.

Definition ST (S A : Type) : Type := S → option (A * S).

#[export] Instance st_ret S : MRet (ST S) := λ A x s, Some (x, s).
#[export] Instance st_bind S : MBind (ST S) := λ A B f d s, '(x, s) ← d s; f x s.

(** Undefined behaviour, or the result of a pure computation. *)
Definition lift {S A} (o : option A) : ST S A := λ s, x ← o; Some (x, s).

Definition wp {S A} (d : ST S A) (Q : A → S → Prop) (s : S) : Prop :=
  ∃ x s', d s = Some (x, s') ∧ Q x s'.

Section wp.
Context {S : Type}.
Implicit Types s : S.

Lemma st_bind_eq {A B} (d : ST S A) (f : A → ST S B) s :
  (d ≫= f) s = ('(x, s) ← d s; f x s).
Proof. reflexivity. Qed.

Lemma wp_ret {A} (x : A) (Q : A → S → Prop) s : Q x s → wp (mret x) Q s.
Proof. intros H. by exists x, s. Qed.

Lemma wp_bind {A B} (d : ST S A) (f : A → ST S B) Q s :
  wp d (λ x s, wp (f x) Q s) s → wp (d ≫= f) Q s.
Proof.
  intros (x & s1 & E & y & s2 & E2 & H). exists y, s2. split; [|done].
  by rewrite st_bind_eq, E.
Qed.

Lemma wp_mono {A} (d : ST S A) (Q Q' : A → S → Prop) s :
  wp d Q s → (∀ x s, Q x s → Q' x s) → wp d Q' s.
Proof. intros (x & s' & E & H) HQ. exists x, s'. auto. Qed.

Lemma wp_lift {A} (o : option A) x (Q : A → S → Prop) s :
  o = Some x → Q x s → wp (lift o) Q s.
Proof. intros -> H. by exists x, s. Qed.

Lemma wp_st_eq {A} (d d' : ST S A) (Q : A → S → Prop) s :
  (∀ s, d' s = d s) → wp d Q s → wp d' Q s.
Proof. intros E (x & s' & Ed & H). exists x, s'. by rewrite E. Qed.

(** A pure continuation after a bind. *)
Lemma st_lift_bind {A B} (o : option A) (f : A → ST S B) s :
  (lift o ≫= f) s = (x ← o; f x s).
Proof. unfold mbind, st_bind, lift. by destruct o. Qed.
End wp.

(** ** What no run changes *)

(** [d] never leaves [R], and a result satisfies [Q]. *)
Definition keeps {S A} (R : S → S → Prop) (d : ST S A) (Q : A → Prop) : Prop :=
  ∀ s x s', d s = Some (x, s') → R s s' ∧ Q x.

Section keeps.
Context {S : Type} (R : S → S → Prop) `{!PreOrder R}.

Lemma keeps_ret {A} (x : A) (Q : A → Prop) : Q x → keeps R (mret x) Q.
Proof. intros Hx s y s' [= <- <-]. by split. Qed.

Lemma keeps_lift {A} (o : option A) (Q : A → Prop) : (∀ x, o = Some x → Q x) → keeps R (lift o) Q.
Proof. intros Ho s y s'. unfold lift. destruct o; [|done]. intros [= <- <-]. split; [done|auto]. Qed.

Lemma keeps_then {A B} (d : ST S A) (f : A → ST S B) P Q :
  keeps R d P → (∀ x, P x → keeps R (f x) Q) → keeps R (d ≫= f) Q.
Proof.
  intros Hd Hf s y s'. rewrite st_bind_eq. destruct (d s) as [[x s1]|] eqn:E; [|done]. cbn.
  destruct (Hd _ _ _ E) as [H1 Hx]. intros E2. destruct (Hf x Hx _ _ _ E2). split; [by etrans|done].
Qed.

Lemma keeps_weaken {A} (d : ST S A) (P Q : A → Prop) : keeps R d P → (∀ x, P x → Q x) → keeps R d Q.
Proof. intros Hd HQ s x s' E. destruct (Hd _ _ _ E). auto. Qed.
End keeps.

(** Relations on the states that imply each other. *)
Lemma keeps_incl {S A} (R R' : S → S → Prop) (d : ST S A) Q :
  (∀ s s', R s s' → R' s s') → keeps R d Q → keeps R' d Q.
Proof. intros Hi Hd s x s' E. destruct (Hd _ _ _ E). auto. Qed.
