(* ===== verification/Crc.v ===== *)
(** * Crc: the algebra of the reflected 16-bit checksums.

    Both serial protocols protect their frames with a linear feedback shift
    register that shifts towards the least significant bit: the CRC of Modbus
    ([lightmodbus.c]) and the FCS of DL/T 698.45 ([dlt698_master.c]).  The
    theory is developed once, for any polynomial whose top bit is set. *)
From S2P Require Import Prelude.

(** The bits of a byte string in transmission order, least significant first. *)
Definition byte_bits (b : Z) : list bool :=
  map (λ i, Z.testbit b (Z.of_nat i)) (seq 0 8).

Definition frame_bits (l : list Z) : list bool := l ≫= byte_bits.

(** A burst: the bit strings differ inside a window of at most 16 bits. *)
Definition burst16 (f g : list Z) : Prop :=
  ∃ pre w1 w2 suf,
    frame_bits f = pre ++ w1 ++ suf ∧ frame_bits g = pre ++ w2 ++ suf ∧
    length w1 = length w2 ∧ (length w1 <= 16)%nat ∧ w1 ≠ w2.

(** One step of the register, and the register fed with a byte and with a string. *)
Definition lfsr (poly c : Z) : Z :=
  Z.lxor (Z.shiftr c 1) (if Z.odd c then poly else 0).

Definition lfsr_byte (poly c b : Z) : Z := Nat.iter 8 (lfsr poly) (Z.lxor c b).

Definition lfsr_bytes (poly c : Z) (l : list Z) : Z := foldl (lfsr_byte poly) c l.

(** The value of a bit string. *)
Fixpoint bits_val (bs : list bool) : Z :=
  match bs with [] => 0 | b :: bs => Z.b2z b + 2 * bits_val bs end.

Lemma bits_val_bound bs : 0 <= bits_val bs < 2 ^ Z.of_nat (length bs).
Proof.
  induction bs as [|b bs IH]; [done|]. cbn [bits_val length].
  rewrite Nat2Z.inj_succ, Z.pow_succ_r by lia. destruct b; simpl Z.b2z; lia.
Qed.

Lemma bits_val_inj bs1 bs2 :
  length bs1 = length bs2 → bits_val bs1 = bits_val bs2 → bs1 = bs2.
Proof.
  revert bs2. induction bs1 as [|b1 bs1 IH]; intros [|b2 bs2]; try done.
  cbn [bits_val length]. intros [= Hl] E.
  destruct b1, b2; cbn [Z.b2z] in E; try lia; f_equal; apply IH; lia.
Qed.

Lemma byte_bits_val b : is_u8 b → bits_val (byte_bits b) = b.
Proof.
  intros Hb. apply Z.eqb_eq.
  apply (u8_check (λ b, bits_val (byte_bits b) =? b)); [vm_compute; done|done].
Qed.

Lemma byte_bits_val2 lo hi :
  is_u8 lo → is_u8 hi → bits_val (byte_bits lo ++ byte_bits hi) = lo + 256 * hi.
Proof.
  intros Hlo Hhi. rewrite <- (byte_bits_val lo Hlo) at 2.
  rewrite <- (byte_bits_val hi Hhi) at 2. cbn [byte_bits map seq app bits_val]. lia.
Qed.

Section lfsr_theory.
Context (poly : Z) (Hpoly : 32768 <= poly < 65536).

Lemma lfsr_lxor a b : lfsr poly (Z.lxor a b) = Z.lxor (lfsr poly a) (lfsr poly b).
Proof using.
  unfold lfsr. rewrite Z.shiftr_lxor.
  rewrite <- (Z.bit0_odd (Z.lxor a b)), Z.lxor_spec, !Z.bit0_odd.
  apply Z.bits_inj'. intros i _. rewrite !Z.lxor_spec.
  destruct (Z.odd a), (Z.odd b); cbn [xorb]; rewrite ?Z.bits_0;
    destruct (Z.testbit (Z.shiftr a 1) i), (Z.testbit (Z.shiftr b 1) i),
      (Z.testbit poly i); done.
Qed.

Lemma lfsr_u16 c : is_u16 c → is_u16 (lfsr poly c).
Proof using Hpoly.
  intros Hc. unfold lfsr. apply (lxor_bound _ _ 16); [lia| |].
  - rewrite Z.shiftr_div_pow2 by lia. change (2 ^ 1) with 2. ulia.
  - destruct (Z.odd c); lia.
Qed.

Lemma lfsr_zero c : is_u16 c → lfsr poly c = 0 → c = 0.
Proof using Hpoly.
  intros Hc. unfold lfsr. rewrite Z.lxor_eq_0_iff.
  rewrite Z.shiftr_div_pow2 by lia. change (2 ^ 1) with 2.
  pose proof (Zmod_odd c). destruct (Z.odd c); ulia.
Qed.

Lemma lfsr_inj a b : is_u16 a → is_u16 b → lfsr poly a = lfsr poly b → a = b.
Proof using Hpoly.
  intros Ha Hb E. apply Z.lxor_eq. apply lfsr_zero.
  - by apply (lxor_bound _ _ 16).
  - by rewrite lfsr_lxor, E, Z.lxor_nilpotent.
Qed.

Lemma lfsr_double x : lfsr poly (2 * x) = x.
Proof using.
  unfold lfsr. rewrite Z.odd_mul. cbn [Z.odd andb].
  rewrite Z.lxor_0_r, Z.shiftr_div_pow2 by lia. change (2 ^ 1) with 2. ulia.
Qed.

Lemma lfsr_iter_lxor n a b :
  Nat.iter n (lfsr poly) (Z.lxor a b) =
  Z.lxor (Nat.iter n (lfsr poly) a) (Nat.iter n (lfsr poly) b).
Proof using. induction n as [|n IH]; [done|]. simpl. by rewrite IH, lfsr_lxor. Qed.

Lemma lfsr_iter_u16 n c : is_u16 c → is_u16 (Nat.iter n (lfsr poly) c).
Proof using Hpoly. intros. induction n; simpl; [done|]. by apply lfsr_u16. Qed.

Lemma lfsr_iter_inj n a b :
  is_u16 a → is_u16 b → Nat.iter n (lfsr poly) a = Nat.iter n (lfsr poly) b → a = b.
Proof using Hpoly.
  intros Ha Hb. induction n as [|n IH]; simpl; [done|]. intros E.
  apply IH, lfsr_inj; [by apply lfsr_iter_u16..|done].
Qed.

(** A whole byte in the upper half comes out unchanged. *)
Lemma lfsr_iter_shift x : Nat.iter 8 (lfsr poly) (256 * x) = x.
Proof using.
  replace (256 * x) with (2 * (2 * (2 * (2 * (2 * (2 * (2 * (2 * x)))))))) by lia.
  cbn [Nat.iter nat_rect]. by rewrite !lfsr_double.
Qed.

(** *** The bit-serial form *)

Definition lfsr_bits (c : Z) (bs : list bool) : Z :=
  foldl (λ c b, lfsr poly (Z.lxor c (Z.b2z b))) c bs.

Lemma lfsr_bits_iter c bs :
  lfsr_bits c bs = Nat.iter (length bs) (lfsr poly) (Z.lxor c (bits_val bs)).
Proof using.
  revert c. induction bs as [|b bs IH]; intros c.
  { simpl. by rewrite Z.lxor_0_r. }
  change (lfsr_bits c (b :: bs)) with (lfsr_bits (lfsr poly (Z.lxor c (Z.b2z b))) bs).
  cbn [length bits_val]. rewrite IH, Nat.iter_succ_r. f_equal.
  assert (Z.b2z b + 2 * bits_val bs = Z.lxor (Z.b2z b) (2 * bits_val bs)) as ->.
  { rewrite Z.add_nocarry_lxor; [done|]. apply Z.bits_inj'. intros i Hi.
    rewrite Z.land_spec, Z.bits_0. destruct (decide (i = 0)) as [->|].
    - by rewrite Z.testbit_even_0, andb_false_r.
    - destruct b; cbn [Z.b2z]; [|by rewrite Z.bits_0].
      change 1 with (2 ^ 0). by rewrite Z.pow2_bits_false. }
  by rewrite <- Z.lxor_assoc, (lfsr_lxor (Z.lxor c _)), lfsr_double.
Qed.

Lemma lfsr_bits_app c b1 b2 : lfsr_bits c (b1 ++ b2) = lfsr_bits (lfsr_bits c b1) b2.
Proof using. apply foldl_app. Qed.

Lemma lfsr_bits_u16 c bs : is_u16 c → is_u16 (lfsr_bits c bs).
Proof using Hpoly.
  revert c. induction bs as [|b bs IH]; intros c Hc; [done|]. apply IH.
  apply lfsr_u16, (lxor_bound _ _ 16); [lia|done|]. destruct b; simpl; lia.
Qed.

Lemma lfsr_bits_inj bs a b :
  is_u16 a → is_u16 b → lfsr_bits a bs = lfsr_bits b bs → a = b.
Proof using Hpoly.
  rewrite !lfsr_bits_iter, !lfsr_iter_lxor. intros Ha Hb E.
  apply (lfsr_iter_inj (length bs)); [done..|]. by apply lxor_cancel_r in E.
Qed.

(** Two different windows of at most 16 bits lead to different states. *)
Lemma lfsr_bits_window c w1 w2 :
  is_u16 c → length w1 = length w2 → (length w1 <= 16)%nat → w1 ≠ w2 →
  lfsr_bits c w1 ≠ lfsr_bits c w2.
Proof using Hpoly.
  intros Hc Hl H16 Hne E. rewrite !lfsr_bits_iter, <- Hl in E.
  assert (∀ w : list bool, (length w <= 16)%nat → is_u16 (bits_val w)) as Hb.
  { intros w Hw. pose proof (bits_val_bound w).
    assert (2 ^ Z.of_nat (length w) <= 2 ^ 16) by (apply Z.pow_le_mono_r; lia).
    unfold is_u16. lia. }
  apply lfsr_iter_inj in E; [|apply (lxor_bound _ _ 16); [lia|done|apply Hb; lia]..].
  apply Hne, bits_val_inj; [done|].
  by rewrite !(Z.lxor_comm c) in E; apply lxor_cancel_r in E.
Qed.

(** *** Byte strings *)

Lemma lfsr_byte_bits c b : is_u8 b → lfsr_byte poly c b = lfsr_bits c (byte_bits b).
Proof using. intros Hb. by rewrite lfsr_bits_iter, byte_bits_val by done. Qed.

Lemma lfsr_bytes_bits c l : bytes l → lfsr_bytes poly c l = lfsr_bits c (frame_bits l).
Proof using.
  intros Hl. revert c. induction Hl as [|b l Hb Hl IH]; intros c; [done|].
  unfold lfsr_bytes. cbn [foldl]. unfold frame_bits. rewrite bind_cons, lfsr_bits_app.
  rewrite <- lfsr_byte_bits by done. apply IH.
Qed.

Lemma lfsr_bytes_app c l1 l2 :
  lfsr_bytes poly c (l1 ++ l2) = lfsr_bytes poly (lfsr_bytes poly c l1) l2.
Proof using. apply foldl_app. Qed.

Lemma lfsr_bytes_u16 c l : is_u16 c → bytes l → is_u16 (lfsr_bytes poly c l).
Proof using Hpoly. intros. rewrite lfsr_bytes_bits by done. by apply lfsr_bits_u16. Qed.

(** Appending a 16-bit word is feeding the register with it. *)
Lemma lfsr_bytes_word c p lo hi :
  is_u8 lo → is_u8 hi →
  lfsr_bytes poly c (p ++ [lo; hi]) =
  Nat.iter 16 (lfsr poly) (Z.lxor (lfsr_bytes poly c p) (lo + 256 * hi)).
Proof using.
  intros Hlo Hhi. rewrite lfsr_bytes_app. set (d := lfsr_bytes poly c p).
  unfold lfsr_bytes. cbn [foldl].
  by rewrite !lfsr_byte_bits, <- lfsr_bits_app, lfsr_bits_iter, byte_bits_val2.
Qed.

(** The register vanishes exactly when the word is the register's contents. *)
Lemma lfsr_residue c p lo hi :
  is_u16 c → bytes p → is_u8 lo → is_u8 hi →
  lfsr_bytes poly c (p ++ [lo; hi]) = 0 ↔ lo + 256 * hi = lfsr_bytes poly c p.
Proof using Hpoly.
  intros Hc Hp Hlo Hhi. rewrite lfsr_bytes_word by done.
  pose proof (lfsr_bytes_u16 c p Hc Hp) as Hd.
  assert (is_u16 (lo + 256 * hi)) as Hw by ulia.
  assert (Nat.iter 16 (lfsr poly) 0 = 0) as H0 by done. split; intros E.
  - rewrite <- H0 in E. apply lfsr_iter_inj in E; [|by apply (lxor_bound _ _ 16)|done].
    symmetry. by apply Z.lxor_eq.
  - by rewrite E, Z.lxor_nilpotent, H0.
Qed.

(** With a complemented checksum the register ends in a constant. *)
Lemma lfsr_residue_complement c p lo hi :
  is_u16 c → bytes p → is_u8 lo → is_u8 hi →
  lo + 256 * hi = Z.lxor (lfsr_bytes poly c p) 0xFFFF →
  lfsr_bytes poly c (p ++ [lo; hi]) = Nat.iter 16 (lfsr poly) 0xFFFF.
Proof using.
  intros Hc Hp Hlo Hhi E. rewrite lfsr_bytes_word, E by done.
  by rewrite <- Z.lxor_assoc, Z.lxor_nilpotent, Z.lxor_0_l.
Qed.

Lemma lfsr_burst c f g :
  is_u16 c → bytes f → bytes g → burst16 f g →
  lfsr_bytes poly c f ≠ lfsr_bytes poly c g.
Proof using Hpoly.
  intros Hc Hf Hg (pre & w1 & w2 & suf & Ef & Eg & Hl & H16 & Hne).
  rewrite !lfsr_bytes_bits, Ef, Eg, !lfsr_bits_app by done. intros E.
  assert (is_u16 (lfsr_bits c pre)) by (by apply lfsr_bits_u16).
  apply lfsr_bits_inj in E; [|by apply lfsr_bits_u16..].
  by apply lfsr_bits_window in E.
Qed.
End lfsr_theory.
