(* ===== verification/Lightmodbus.v ===== *)
(** * Lightmodbus: the core of liblightmodbus.

    [liblightmodbus/src/lightmodbus.c] (bit masks and the CRC), the enumerations
    and inline helpers of [include/lightmodbus/lightmodbus.h] and the packed
    frame layouts of the union in [include/lightmodbus/parser.h].
    The configuration is that of [include/lightmodbus/libconf.h]: a
    little-endian target, dynamic memory, no register callbacks.

    Module [Parser] has the frame layouts, Section [frame_crc] relates the CRC
    to the algebra of [Crc], Section [mask_theory] has the get/set laws of the
    bit masks, [word_theory] and [pack_theory] the byte order and the packing
    of registers and coils. *)
From S2P Require Import Prelude.
From S2P Require Import Crc.

(** ** Enumerations ([lightmodbus.h]) *)

Inductive ModbusError :=
  | MODBUS_ERROR_OK
  | MODBUS_ERROR_EXCEPTION
  | MODBUS_ERROR_ALLOC
  | MODBUS_ERROR_OTHER
  | MODBUS_ERROR_NULLPTR
  | MODBUS_ERROR_PARSE
  | MODBUS_ERROR_BUILD.

Inductive ModbusFrameError :=
  | MODBUS_FERROR_OK
  | MODBUS_FERROR_CRC
  | MODBUS_FERROR_LENGTH
  | MODBUS_FERROR_COUNT
  | MODBUS_FERROR_VALUE
  | MODBUS_FERROR_RANGE
  | MODBUS_FERROR_NOSRC
  | MODBUS_FERROR_NOREAD
  | MODBUS_FERROR_NOWRITE
  | MODBUS_FERROR_NOFUN
  | MODBUS_FERROR_BADFUN
  | MODBUS_FERROR_NULLFUN
  | MODBUS_FERROR_MISM_FUN
  | MODBUS_FERROR_MISM_ADDR
  | MODBUS_FERROR_MISM_INDEX
  | MODBUS_FERROR_MISM_COUNT
  | MODBUS_FERROR_MISM_VALUE
  | MODBUS_FERROR_MISM_MASK
  | MODBUS_FERROR_BROADCAST.

Inductive ModbusExceptionCode :=
  | MODBUS_EXCEP_ILLEGAL_FUNCTION
  | MODBUS_EXCEP_ILLEGAL_ADDRESS
  | MODBUS_EXCEP_ILLEGAL_VALUE
  | MODBUS_EXCEP_SLAVE_FAILURE
  | MODBUS_EXCEP_ACK
  | MODBUS_EXCEP_NACK.

Definition exception_code (c : ModbusExceptionCode) : Z :=
  match c with
  | MODBUS_EXCEP_ILLEGAL_FUNCTION => 1
  | MODBUS_EXCEP_ILLEGAL_ADDRESS => 2
  | MODBUS_EXCEP_ILLEGAL_VALUE => 3
  | MODBUS_EXCEP_SLAVE_FAILURE => 4
  | MODBUS_EXCEP_ACK => 5
  | MODBUS_EXCEP_NACK => 7
  end.

Inductive ModbusDataType :=
  | MODBUS_HOLDING_REGISTER
  | MODBUS_INPUT_REGISTER
  | MODBUS_COIL
  | MODBUS_DISCRETE_INPUT.

#[export] Instance ModbusError_eq_dec : EqDecision ModbusError.
Proof. solve_decision. Defined.
#[export] Instance ModbusFrameError_eq_dec : EqDecision ModbusFrameError.
Proof. solve_decision. Defined.
#[export] Instance ModbusExceptionCode_eq_dec : EqDecision ModbusExceptionCode.
Proof. solve_decision. Defined.
#[export] Instance ModbusDataType_eq_dec : EqDecision ModbusDataType.
Proof. solve_decision. Defined.

(** ** Frame layouts ([parser.h]): byte offsets of the packed structs *)

Module Parser.
Definition base_address := 0%nat.
Definition base_function := 1%nat.
Definition exception_code_at := 2%nat.
Definition exception_crc := 3%nat.
Definition request0102_index := 2%nat.
Definition request0102_count := 4%nat.
Definition request0102_crc := 6%nat.
Definition response0102_length := 2%nat.
Definition response0102_values := 3%nat.
Definition request0304_index := 2%nat.
Definition request0304_count := 4%nat.
Definition request0304_crc := 6%nat.
Definition response0304_length := 2%nat.
Definition response0304_values := 3%nat.
Definition request05_index := 2%nat.
Definition request05_value := 4%nat.
Definition request05_crc := 6%nat.
Definition response05_index := 2%nat.
Definition response05_value := 4%nat.
Definition response05_crc := 6%nat.
Definition request06_index := 2%nat.
Definition request06_value := 4%nat.
Definition request06_crc := 6%nat.
Definition response06_index := 2%nat.
Definition response06_value := 4%nat.
Definition response06_crc := 6%nat.
Definition request15_index := 2%nat.
Definition request15_count := 4%nat.
Definition request15_length := 6%nat.
Definition request15_values := 7%nat.
Definition response15_index := 2%nat.
Definition response15_count := 4%nat.
Definition response15_crc := 6%nat.
Definition request16_index := 2%nat.
Definition request16_count := 4%nat.
Definition request16_length := 6%nat.
Definition request16_values := 7%nat.
Definition response16_index := 2%nat.
Definition response16_count := 4%nat.
Definition response16_crc := 6%nat.
Definition request22_index := 2%nat.
Definition request22_andmask := 4%nat.
Definition request22_ormask := 6%nat.
Definition request22_crc := 8%nat.
Definition response22_index := 2%nat.
Definition response22_andmask := 4%nat.
Definition response22_ormask := 6%nat.
Definition response22_crc := 8%nat.
End Parser.

(** The [struct { uint8_t *frame; uint8_t length; }] of the masters and slaves. *)
Record Frame := mkFrame { frame : option (list Z); length_ : Z }.

(** ** Operations *)

(** [static inline uint16_t modbusBitsToBytes( uint16_t n )] *)
Definition modbusBitsToBytes (n : Z) : Z :=
  if n =? 0 then 0 else u16 (1 + Z.shiftr (n - 1) 3).

Definition modbusSwapEndian (data : Z) : Z :=
  u16 (Z.lor (Z.shiftl data 8) (Z.shiftr data 8)).

(** The target is little-endian: the bytes are swapped. *)
Definition modbusMatchEndian (data : Z) : Z := modbusSwapEndian data.

(** A NULL mask and a bit beyond [maskLength] both read as 255. *)
Definition modbusMaskRead (mask : option (list Z)) (maskLength bit : Z) : option Z :=
  match mask with
  | None => Some 255
  | Some m =>
      if maskLength <=? Z.shiftr bit 3 then Some 255
      else
        b ← m !! Z.to_nat (Z.shiftr bit 3);
        Some (Z.shiftr (Z.land b (Z.shiftl 1 (bit mod 8))) (bit mod 8))
  end.

(** Returns the result code and the mask after the write. *)
Definition modbusMaskWrite (mask : option (list Z)) (maskLength bit value : Z)
    : option (Z * option (list Z)) :=
  match mask with
  | None => Some (255, None)
  | Some m =>
      if maskLength <=? Z.shiftr bit 3 then Some (255, Some m)
      else
        b ← m !! Z.to_nat (Z.shiftr bit 3);
        let b' := if negb (value =? 0)
                  then Z.lor b (Z.shiftl 1 (bit mod 8))
                  else Z.land b (Z.lnot (Z.shiftl 1 (bit mod 8))) in
        m' ← st8 m (Z.to_nat (Z.shiftr bit 3)) b';
        Some (0, Some m')
  end.

(** The inner loop of [modbusCRC]: one bit, then one byte. *)
Definition crc_bit (crc : Z) : Z :=
  if negb (Z.land crc 0x0001 =? 0)
  then Z.lxor (Z.shiftr crc 1) 0xA001
  else Z.shiftr crc 1.

Definition crc_byte (crc b : Z) : Z := Nat.iter 8 crc_bit (Z.lxor crc b).

(** The outer loop; it reads past the buffer ([None]) when the buffer is
    shorter than [n]. *)
Fixpoint crc_loop (n : nat) (data : list Z) (crc : Z) : option Z :=
  match n, data with
  | O, _ => Some crc
  | S n', b :: data' => crc_loop n' data' (crc_byte crc b)
  | S _, [] => None
  end.

Definition modbusCRC (data : option (list Z)) (length : Z) : option Z :=
  match data with
  | None => Some 0
  | Some d => crc_loop (Z.to_nat length) d 0xFFFF
  end.

(** ** Specifications *)

(** The CRC of a whole byte string, and a payload with its CRC appended. *)
Definition crc_of (l : list Z) : Z := foldl crc_byte 0xFFFF l.

Definition with_crc (l : list Z) : list Z := l ++ le16 (crc_of l).

(** Bit [i] of a packed bit array. *)
Definition mask_bit (m : list Z) (i : Z) : bool :=
  Z.testbit (default 0 (m !! Z.to_nat (i / 8))) (i mod 8).

Example crc_check_value :
  modbusCRC (Some [0x31;0x32;0x33;0x34;0x35;0x36;0x37;0x38;0x39]) 9 = Some 0x4B37.
Proof. vm_compute. reflexivity. Qed.

#[global] Arguments modbusCRC : simpl never.
#[global] Arguments crc_of : simpl never.
#[global] Arguments with_crc : simpl never.
#[global] Arguments modbusMatchEndian : simpl never.
#[global] Arguments modbusBitsToBytes : simpl never.
#[global] Arguments modbusMaskRead : simpl never.
#[global] Arguments modbusMaskWrite : simpl never.

(** ** Theory of the CRC: an instance of [Crc] *)

Section frame_crc.
Lemma crc_bit_lfsr c : crc_bit c = lfsr 0xA001 c.
Proof.
  unfold crc_bit, lfsr. change 1 with (Z.ones 1). rewrite Z.land_ones by lia.
  change (2 ^ 1) with 2. rewrite Zmod_odd.
  destruct (Z.odd c); simpl; [done|]. by rewrite Z.lxor_0_r.
Qed.

Lemma crc_byte_lfsr c b : crc_byte c b = lfsr_byte 0xA001 c b.
Proof. unfold crc_byte, lfsr_byte. cbn [Nat.iter nat_rect]. by rewrite !crc_bit_lfsr. Qed.

Lemma crc_of_lfsr l : crc_of l = lfsr_bytes 0xA001 0xFFFF l.
Proof.
  unfold crc_of, lfsr_bytes. generalize 0xFFFF.
  induction l as [|b l IH]; intros c; [done|]. cbn [foldl]. by rewrite IH, crc_byte_lfsr.
Qed.

Lemma crc_of_u16 l : bytes l → is_u16 (crc_of l).
Proof. intros. rewrite crc_of_lfsr. by apply lfsr_bytes_u16. Qed.

Lemma with_crc_bytes l : bytes l → bytes (with_crc l).
Proof.
  intros. apply bytes_app. split; [done|]. by apply le16_bytes, crc_of_u16.
Qed.

Lemma crc_loop_spec n d c :
  crc_loop n d c =
  if (n <=? length d)%nat then Some (foldl crc_byte c (take n d)) else None.
Proof.
  revert d c. induction n as [|n IH]; intros [|b d] c; try done.
  cbn [crc_loop length take foldl]. rewrite IH. done.
Qed.

Lemma modbusCRC_spec d n :
  (Z.to_nat n <= length d)%nat →
  modbusCRC (Some d) n = Some (crc_of (take (Z.to_nat n) d)).
Proof.
  intros H. unfold modbusCRC. rewrite crc_loop_spec.
  by rewrite (proj2 (Nat.leb_le _ _) H).
Qed.

(** The CRC of a string followed by two bytes vanishes exactly when the two
    bytes are the CRC of the string, least significant first. *)
Lemma crc_residue p lo hi :
  bytes p → is_u8 lo → is_u8 hi →
  crc_of (p ++ [lo; hi]) = 0 ↔ lo + 256 * hi = crc_of p.
Proof. intros. rewrite !crc_of_lfsr. by apply lfsr_residue. Qed.

Lemma crc_of_burst f g :
  bytes f → bytes g → burst16 f g → crc_of f ≠ crc_of g.
Proof. intros. rewrite !crc_of_lfsr. by apply lfsr_burst. Qed.
End frame_crc.

(** ** Theory of the bit masks *)

Section mask_theory.
Lemma land_shift_bit b k : 0 <= k →
  Z.shiftr (Z.land b (Z.shiftl 1 k)) k = Z.b2z (Z.testbit b k).
Proof.
  intros Hk. apply Z.bits_inj'. intros i Hi.
  rewrite Z.shiftr_spec, Z.land_spec, Z.shiftl_1_l, Z.pow2_bits_eqb by lia.
  destruct (Z.eqb_spec k (i + k)) as [E|E].
  - assert (i = 0) as -> by lia. rewrite Z.add_0_l, andb_true_r. by destruct (Z.testbit b k).
  - rewrite andb_false_r. symmetry. apply (testbit_above _ 1); [destruct (Z.testbit b k); simpl; lia|lia].
Qed.

Lemma mask_range_nat (m : list Z) n bit :
  0 <= bit → bit / 8 < n <= Z.of_nat (length m) → (Z.to_nat (bit / 8) < length m)%nat.
Proof. intros. assert (0 <= bit / 8) by ulia. lia. Qed.

Lemma modbusMaskRead_spec m n bit :
  0 <= bit → bit / 8 < n <= Z.of_nat (length m) →
  modbusMaskRead (Some m) n bit = Some (Z.b2z (mask_bit m bit)).
Proof.
  intros H0 H. unfold modbusMaskRead, mask_bit. rewrite shiftr3_div.
  rewrite (proj2 (Z.leb_gt _ _) (proj1 H)).
  destruct (lookup_lt_is_Some_2 m (Z.to_nat (bit / 8))) as [b Eb];
    [by eapply mask_range_nat|].
  rewrite Eb. simpl. rewrite land_shift_bit; [done|ulia].
Qed.

Lemma modbusMaskRead_out m maskLength bit :
  maskLength <= bit / 8 → modbusMaskRead m maskLength bit = Some 255.
Proof.
  intros H. unfold modbusMaskRead. rewrite shiftr3_div.
  rewrite (proj2 (Z.leb_le _ _) H). by destruct m.
Qed.

(** Inside its memory, a mask read never fails. *)
Lemma modbusMaskRead_safe m maskLength bit :
  0 <= bit → (∀ l, m = Some l → maskLength <= Z.of_nat (length l)) →
  ∃ v, modbusMaskRead m maskLength bit = Some v.
Proof.
  intros H0 Hm. destruct m as [l|]; [|by eexists]. specialize (Hm l eq_refl).
  destruct (Z.lt_ge_cases (bit / 8) maskLength).
  - rewrite modbusMaskRead_spec by done. eauto.
  - rewrite modbusMaskRead_out by done. eauto.
Qed.

Lemma land_lnot_bit b k j : 0 <= k → 0 <= j →
  Z.testbit (Z.land b (Z.lnot (Z.shiftl 1 k))) j =
  if j =? k then false else Z.testbit b j.
Proof.
  intros. rewrite Z.land_spec, Z.lnot_spec, Z.shiftl_1_l, Z.pow2_bits_eqb by lia.
  rewrite (Z.eqb_sym k j). destruct (j =? k); simpl;
    [apply andb_false_r|apply andb_true_r].
Qed.

Lemma lor_bit b k j : 0 <= k → 0 <= j →
  Z.testbit (Z.lor b (Z.shiftl 1 k)) j = if j =? k then true else Z.testbit b j.
Proof.
  intros. rewrite Z.lor_spec, Z.shiftl_1_l, Z.pow2_bits_eqb by lia.
  rewrite (Z.eqb_sym k j). destruct (j =? k); simpl;
    [apply orb_true_r|apply orb_false_r].
Qed.

Lemma testbit_u8 b j : 0 <= j < 8 → Z.testbit (u8 b) j = Z.testbit b j.
Proof. intros. unfold u8. change 256 with (2 ^ 8). rewrite Z.mod_pow2_bits_low by lia. done. Qed.

Lemma modbusMaskWrite_spec m n bit value :
  bytes m → 0 <= bit → bit / 8 < n <= Z.of_nat (length m) →
  ∃ m', modbusMaskWrite (Some m) n bit value = Some (0, Some m') ∧
    (∃ b, is_u8 b ∧ m' = <[Z.to_nat (bit / 8) := b]> m) ∧
    ∀ j, 0 <= j → mask_bit m' j =
      if j =? bit then negb (value =? 0) else mask_bit m j.
Proof.
  intros Hm H0 H. unfold modbusMaskWrite. rewrite shiftr3_div.
  rewrite (proj2 (Z.leb_gt _ _) (proj1 H)).
  pose proof (mask_range_nat _ _ _ H0 H) as Hn.
  destruct (lookup_lt_is_Some_2 m (Z.to_nat (bit / 8))) as [b Eb]; [done|].
  rewrite Eb. simpl. rewrite st8_Some by done. simpl. eexists. split; [done|].
  split; [eauto with cmem|]. intros j Hj. unfold mask_bit.
  destruct (decide (j / 8 = bit / 8)) as [E|E].
  - rewrite E, list_lookup_insert_eq, Eb by done. simpl.
    rewrite testbit_u8 by ulia.
    assert ((j mod 8 =? bit mod 8) = (j =? bit)) as <-.
    { destruct (Z.eqb_spec (j mod 8) (bit mod 8)), (Z.eqb_spec j bit); try done; ulia. }
    destruct (value =? 0); simpl; [rewrite land_lnot_bit|rewrite lor_bit]; try done; ulia.
  - assert (0 <= j / 8 ∧ 0 <= bit / 8) by ulia.
    rewrite list_lookup_insert_ne by lia.
    destruct (Z.eqb_spec j bit) as [->|]; [lia|done].
Qed.
End mask_theory.

(** ** Completing a frame *)

Lemma finish_frame {A} (k : list Z → option A) p :
  bytes p →
  (crc ← modbusCRC (Some (p ++ [0; 0])) (Z.of_nat (length p));
   f ← st16 (p ++ [0; 0]) (length p) crc; k f) = k (with_crc p).
Proof.
  intros Hp. rewrite modbusCRC_spec, bind_ret, Nat2Z.id, take_app_length
    by (rewrite length_app; simpl; lia).
  rewrite st16_Some, bind_ret by (rewrite length_app; simpl; lia).
  rewrite insert_app_r_alt by lia. rewrite Nat.sub_diag.
  rewrite insert_app_r_alt by lia.
  replace (S (length p) - length p)%nat with 1%nat by lia.
  cbn [insert list_insert]. unfold with_crc.
  by rewrite le16_u8 by (by apply crc_of_u16).
Qed.

(** ** Words and counts *)

Section word_theory.
Lemma modbusSwapEndian_spec w :
  is_u16 w → modbusSwapEndian w = 256 * (w mod 256) + w / 256.
Proof.
  intros Hw. unfold modbusSwapEndian.
  rewrite Z.shiftl_mul_pow2, Z.shiftr_div_pow2 by lia.
  rewrite lor_disjoint by (change (2 ^ 8) with 256; ulia).
  change (2 ^ 8) with 256. ulia.
Qed.

Lemma modbusMatchEndian_u16 w : is_u16 w → is_u16 (modbusMatchEndian w).
Proof.
  intros Hw. unfold modbusMatchEndian. rewrite modbusSwapEndian_spec by done. ulia.
Qed.

Lemma modbusMatchEndian_involutive w :
  is_u16 w → modbusMatchEndian (modbusMatchEndian w) = w.
Proof.
  intros Hw. pose proof (modbusMatchEndian_u16 w Hw).
  unfold modbusMatchEndian in *. rewrite (modbusSwapEndian_spec (modbusSwapEndian w)) by done.
  rewrite modbusSwapEndian_spec by done. ulia.
Qed.

(** A word in network order is a swapped word in host order. *)
Lemma le16_swap w : is_u16 w → le16 (modbusMatchEndian w) = be16 w.
Proof.
  intros Hw. unfold modbusMatchEndian, le16, be16.
  rewrite modbusSwapEndian_spec by done. f_equal; [|f_equal]; ulia.
Qed.

Lemma modbusBitsToBytes_spec n :
  is_u16 n → modbusBitsToBytes n = (n + 7) / 8.
Proof.
  intros Hn. unfold modbusBitsToBytes. rewrite shiftr3_div.
  destruct (Z.eqb_spec n 0) as [->|]; [done|]. rewrite u16_id; ulia.
Qed.
End word_theory.

#[export] Hint Resolve modbusMatchEndian_u16 crc_of_u16 with_crc_bytes : cmem.

(** ** Packing bits *)

(** The packed form of a list of bits, least significant first, padded with 0. *)
Definition pack_bits (bs : list bool) : list Z :=
  (λ k, bits_val (take 8 (drop (8 * k) bs))) <$>
    seq 0 (Z.to_nat (modbusBitsToBytes (Z.of_nat (length bs)))).

Section pack_theory.
Lemma bits_val_testbit bs j : Z.testbit (bits_val bs) (Z.of_nat j) = default false (bs !! j).
Proof.
  revert j. induction bs as [|b bs IH]; intros j; [by rewrite Z.bits_0|].
  cbn [bits_val]. rewrite Z.add_comm. destruct j as [|j].
  - apply Z.testbit_0_r.
  - rewrite Nat2Z.inj_succ, Z.testbit_succ_r by lia. apply IH.
Qed.

Lemma length_pack_bits bs :
  length (pack_bits bs) = Z.to_nat (modbusBitsToBytes (Z.of_nat (length bs))).
Proof. unfold pack_bits. by rewrite length_fmap, length_seq. Qed.

Lemma pack_bits_bytes bs : bytes (pack_bits bs).
Proof.
  unfold bytes, pack_bits. apply Forall_fmap, Forall_forall. intros k _.
  cbn beta. unfold compose. pose proof (bits_val_bound (take 8 (drop (8 * k) bs))) as H.
  assert (2 ^ Z.of_nat (length (take 8 (drop (8 * k) bs))) <= 2 ^ 8).
  { apply Z.pow_le_mono_r; [lia|]. rewrite length_take. lia. }
  change (2 ^ 8) with 256 in *. unfold is_u8. lia.
Qed.

Lemma pack_bits_bit bs j :
  is_u16 (Z.of_nat (length bs)) → 0 <= j →
  mask_bit (pack_bits bs) j = default false (bs !! Z.to_nat j).
Proof.
  intros Hl Hj. unfold mask_bit.
  pose proof (modbusBitsToBytes_spec _ Hl) as Hb.
  assert (0 <= j / 8 ∧ j = 8 * (j / 8) + j mod 8 ∧ 0 <= j mod 8 < 8) as (Hq & Hj8 & Hr) by ulia.
  destruct (decide (j / 8 < modbusBitsToBytes (Z.of_nat (length bs)))) as [Hin|Hout].
  - unfold pack_bits. rewrite list_lookup_fmap, lookup_seq_lt by lia. cbn [fmap option_fmap option_map default from_option id].
    replace (j mod 8) with (Z.of_nat (Z.to_nat (j mod 8))) by lia.
    rewrite bits_val_testbit, lookup_take_lt, lookup_drop by lia. do 2 f_equal. lia.
  - rewrite lookup_ge_None_2 by (rewrite length_pack_bits; lia).
    rewrite (lookup_ge_None_2 bs) by ulia. apply Z.bits_0.
Qed.

(** Byte strings of the same length with the same bits are equal. *)
Lemma mask_ext m1 m2 :
  bytes m1 → bytes m2 → length m1 = length m2 →
  (∀ j, 0 <= j < 8 * Z.of_nat (length m1) → mask_bit m1 j = mask_bit m2 j) → m1 = m2.
Proof.
  intros H1 H2 Hl Hb. apply list_eq_same_length with (length m1); [done..|].
  intros i b1 b2 Hi E1 E2.
  pose proof (bytes_lookup _ _ _ H1 E1). pose proof (bytes_lookup _ _ _ H2 E2).
  apply Z.bits_inj'. intros k Hk. destruct (decide (k < 8)).
  - specialize (Hb (8 * Z.of_nat i + k) ltac:(lia)). unfold mask_bit in Hb.
    replace ((8 * Z.of_nat i + k) / 8) with (Z.of_nat i) in Hb by ulia.
    replace ((8 * Z.of_nat i + k) mod 8) with k in Hb by ulia.
    by rewrite Nat2Z.id, E1, E2 in Hb.
  - by rewrite (testbit_above b1 8), (testbit_above b2 8) by (unfold is_u8 in *; lia).
Qed.

Lemma mask_bit_app_l m1 m2 j :
  0 <= j < 8 * Z.of_nat (length m1) → mask_bit (m1 ++ m2) j = mask_bit m1 j.
Proof. intros Hj. unfold mask_bit. by rewrite lookup_app_l by ulia. Qed.

Lemma mask_bit_zeroes n j : mask_bit (replicate n 0) j = false.
Proof.
  unfold mask_bit. destruct (replicate n 0 !! _) as [b|] eqn:E; [|apply Z.bits_0].
  apply lookup_replicate in E as [-> _]. apply Z.bits_0.
Qed.

Lemma bit_in_range j n :
  is_u16 n → 0 <= j < n → j / 8 < modbusBitsToBytes n.
Proof. intros Hn Hj. rewrite modbusBitsToBytes_spec by done. ulia. Qed.

Lemma modbusBitsToBytes_u16 n : is_u16 n → is_u16 (modbusBitsToBytes n).
Proof. intros Hn. rewrite modbusBitsToBytes_spec by done. ulia. Qed.
End pack_theory.

#[export] Hint Resolve pack_bits_bytes modbusBitsToBytes_u16 : cmem.

(** The [n] bytes whose bit [j] is [f j]. *)
Definition tabulate_bits (n : nat) (f : Z → bool) : list Z :=
  (λ k, bits_val ((λ i, f (8 * Z.of_nat k + Z.of_nat i)) <$> seq 0 8)) <$> seq 0 n.

Section tabulate_theory.
Lemma length_tabulate_bits n f : length (tabulate_bits n f) = n.
Proof. unfold tabulate_bits. by rewrite length_fmap, length_seq. Qed.

Lemma tabulate_bits_bytes n f : bytes (tabulate_bits n f).
Proof.
  unfold bytes, tabulate_bits. apply Forall_fmap, Forall_forall. intros k _.
  unfold compose.
  pose proof (bits_val_bound ((λ i, f (8 * Z.of_nat k + Z.of_nat i)) <$> seq 0 8)) as H.
  rewrite length_fmap, length_seq in H. exact H.
Qed.

Lemma tabulate_bits_bit n f j :
  0 <= j < 8 * Z.of_nat n → mask_bit (tabulate_bits n f) j = f j.
Proof.
  intros Hj. unfold mask_bit, tabulate_bits.
  rewrite list_lookup_fmap, lookup_seq_lt by ulia.
  cbn [fmap option_fmap option_map default from_option id].
  replace (j mod 8) with (Z.of_nat (Z.to_nat (j mod 8))) by ulia.
  rewrite bits_val_testbit, list_lookup_fmap, lookup_seq_lt by ulia.
  cbn [fmap option_fmap option_map default from_option id]. f_equal. ulia.
Qed.

(** Characterisation of a byte string by its length and bits. *)
Lemma tabulate_bits_eq m f :
  bytes m → (∀ j, 0 <= j < 8 * Z.of_nat (length m) → mask_bit m j = f j) →
  m = tabulate_bits (length m) f.
Proof.
  intros Hm Hf. apply mask_ext; [done|apply tabulate_bits_bytes|by rewrite length_tabulate_bits|].
  intros j Hj. by rewrite tabulate_bits_bit, Hf.
Qed.
End tabulate_theory.
