(* ===== verification/ModbusSlave.v ===== *)
(** * ModbusSlave: the slave side of liblightmodbus.

    [src/slave.c] (dispatch, exceptions, initialisation), [src/slave/sregs.c]
    and [src/slave/scoils.c] (one handler per Modbus function), on the
    structure [ModbusSlave] of [include/lightmodbus/slave.h].

    A handler is a function of the slave structure and of the bytes of the
    request ([parser], the union the C code casts the frame to); it returns the
    [ModbusError] and the updated structure, or [None] when the C code would
    access memory outside of a block.  Structures passed by reference are
    passed and returned by value, so the NULL tests on [status] and [parser]
    have no counterpart; NULL data pointers are [None].  [alloc] says whether
    the [calloc] of the call succeeds (each call of [modbusParseRequest]
    performs at most one). *)
From S2P Require Import Prelude.
From S2P Require Import Lightmodbus.

(** ** The slave structure ([slave.h]) *)

(** The register and coil arrays with their counts and write-protection masks. *)
Record SlaveData := mkData {
  registers : option (list Z);
  inputRegisters : option (list Z);
  registerMask : option (list Z);
  registerMaskLength : Z;
  registerCount : Z;
  inputRegisterCount : Z;
  coils : option (list Z);
  discreteInputs : option (list Z);
  coilMask : option (list Z);
  coilMaskLength : Z;
  coilCount : Z;
  discreteInputCount : Z;
}.

Record ModbusSlave := mkSlave {
  address : Z;
  data : SlaveData;
  lastException : ModbusExceptionCode;
  parseError : ModbusFrameError;
  response : Frame;
  request : Frame;
}.

(** Field updates: [status->field = v]. *)
Definition set_registers (v : option (list Z)) (d : SlaveData) : SlaveData :=
  mkData v (inputRegisters d) (registerMask d) (registerMaskLength d)
    (registerCount d) (inputRegisterCount d) (coils d) (discreteInputs d)
    (coilMask d) (coilMaskLength d) (coilCount d) (discreteInputCount d).
Definition set_coils (v : option (list Z)) (d : SlaveData) : SlaveData :=
  mkData (registers d) (inputRegisters d) (registerMask d) (registerMaskLength d)
    (registerCount d) (inputRegisterCount d) v (discreteInputs d)
    (coilMask d) (coilMaskLength d) (coilCount d) (discreteInputCount d).
Definition set_data (v : SlaveData) (s : ModbusSlave) : ModbusSlave :=
  mkSlave (address s) v (lastException s) (parseError s) (response s) (request s).
Definition set_lastException (v : ModbusExceptionCode) (s : ModbusSlave) : ModbusSlave :=
  mkSlave (address s) (data s) v (parseError s) (response s) (request s).
Definition set_parseError (v : ModbusFrameError) (s : ModbusSlave) : ModbusSlave :=
  mkSlave (address s) (data s) (lastException s) v (response s) (request s).
Definition set_response (f : option (list Z)) (n : Z) (s : ModbusSlave) : ModbusSlave :=
  mkSlave (address s) (data s) (lastException s) (parseError s) (mkFrame f n) (request s).
Definition set_request (f : option (list Z)) (n : Z) (s : ModbusSlave) : ModbusSlave :=
  mkSlave (address s) (data s) (lastException s) (parseError s) (response s) (mkFrame f n).
Definition set_response_frame (f : option (list Z)) (s : ModbusSlave) : ModbusSlave :=
  set_response f (length_ (response s)) s.
Definition set_response_length (n : Z) (s : ModbusSlave) : ModbusSlave :=
  set_response (frame (response s)) n s.

Definition Outcome : Type := option (ModbusError * ModbusSlave).

(** ** Exceptions ([slave.c], [slave.h]) *)

Definition modbusBuildException (alloc : bool) (status : ModbusSlave) (function : Z)
    (code : ModbusExceptionCode) : Outcome :=
  let status := set_lastException code status in
  broadcast ← match frame (request status) with
              | Some f => a ← f !! Parser.base_address; Some (a =? 0)
              | None => Some false
              end;
  if broadcast : bool then Some (MODBUS_ERROR_OK, set_response_length 0 status)
  else
    match calloc alloc 5 with
    | None => Some (MODBUS_ERROR_ALLOC, set_response_frame None status)
    | Some f =>
        f ← st8 f Parser.base_address (address status);
        f ← st8 f Parser.base_function (Z.lor (Z.shiftl 1 7) function);
        f ← st8 f Parser.exception_code_at (exception_code code);
        crc ← modbusCRC (Some f) 3;
        f ← st16 f Parser.exception_crc crc;
        Some (MODBUS_ERROR_EXCEPTION, set_response (Some f) 5 status)
    end.

Definition modbusBuildExceptionErr (alloc : bool) (status : ModbusSlave) (function : Z)
    (code : ModbusExceptionCode) (parseError : ModbusFrameError) : Outcome :=
  let status := set_parseError parseError status in
  '(err, status) ← modbusBuildException alloc status function code;
  if decide (err = MODBUS_ERROR_OK) then Some (MODBUS_ERROR_PARSE, status)
  else Some (err, status).

(** [for ( i = 0; i < count; i++ ) if ( modbusMaskRead( mask, len, index + i ) == 1 ) ...]:
    whether one of the [n] bits from [i] on is protected. *)
Fixpoint mask_protects (mask : option (list Z)) (maskLength index : Z) (n i : nat)
    : option bool :=
  match n with
  | O => Some false
  | S n' =>
      v ← modbusMaskRead mask maskLength (u16 (index + Z.of_nat i));
      if v =? 1 then Some true else mask_protects mask maskLength index n' (i + 1)
  end.

(** ** Register functions ([sregs.c]) *)

Section sregs.
Context (alloc : bool).

Definition modbusParseRequest0304 (status : ModbusSlave) (parser : list Z) : Outcome :=
  fn ← parser !! Parser.base_function;
  if negb (fn =? 3) && negb (fn =? 4)
  then Some (MODBUS_ERROR_PARSE, set_parseError MODBUS_FERROR_BADFUN status)
  else
  addr ← parser !! Parser.base_address;
  if addr =? 0
  then Some (MODBUS_ERROR_PARSE, set_parseError MODBUS_FERROR_BROADCAST status)
  else
  if negb (length_ (request status) =? 8)
  then modbusBuildExceptionErr alloc status fn MODBUS_EXCEP_ILLEGAL_VALUE MODBUS_FERROR_LENGTH
  else
  index ← modbusMatchEndian <$> rd16 parser Parser.request0304_index;
  count ← modbusMatchEndian <$> rd16 parser Parser.request0304_count;
  if (count =? 0) || (125 <? count)
  then modbusBuildExceptionErr alloc status fn MODBUS_EXCEP_ILLEGAL_VALUE MODBUS_FERROR_COUNT
  else
  match (if fn =? 3 then registers (data status) else inputRegisters (data status)) with
  | None => modbusBuildExceptionErr alloc status fn MODBUS_EXCEP_ILLEGAL_ADDRESS MODBUS_FERROR_NOSRC
  | Some regs =>
      let available := if fn =? 3 then registerCount (data status)
                       else inputRegisterCount (data status) in
      if (available <=? index) || (available <? u32 (index + count))
      then modbusBuildExceptionErr alloc status fn MODBUS_EXCEP_ILLEGAL_ADDRESS MODBUS_FERROR_RANGE
      else
      let frameLength := u8 (5 + Z.shiftl count 1) in
      match calloc alloc frameLength with
      | None => Some (MODBUS_ERROR_ALLOC, set_response_frame None status)
      | Some builder =>
          builder ← st8 builder Parser.base_address (address status);
          builder ← st8 builder Parser.base_function fn;
          builder ← st8 builder Parser.response0304_length (Z.shiftl count 1);
          builder ← cfor (Z.to_nat count) 0 (λ i builder,
                      v ← regs !! (Z.to_nat index + i)%nat;
                      st16 builder (Parser.response0304_values + 2 * i) (modbusMatchEndian v))
                    builder;
          crc ← modbusCRC (Some builder) (u16 (frameLength - 2));
          builder ← st16 builder (Parser.response0304_values + 2 * Z.to_nat count) crc;
          Some (MODBUS_ERROR_OK,
                set_parseError MODBUS_FERROR_OK
                  (set_response (Some builder) frameLength status))
      end
  end.

Definition modbusParseRequest06 (status : ModbusSlave) (parser : list Z) : Outcome :=
  if negb (length_ (request status) =? 8)
  then modbusBuildExceptionErr alloc status 6 MODBUS_EXCEP_ILLEGAL_VALUE MODBUS_FERROR_LENGTH
  else
  raw_index ← rd16 parser Parser.request06_index;
  raw_value ← rd16 parser Parser.request06_value;
  let index := modbusMatchEndian raw_index in
  let value := modbusMatchEndian raw_value in
  match registers (data status) with
  | None => modbusBuildExceptionErr alloc status 6 MODBUS_EXCEP_ILLEGAL_ADDRESS MODBUS_FERROR_RANGE
  | Some regs =>
      if registerCount (data status) <=? index
      then modbusBuildExceptionErr alloc status 6 MODBUS_EXCEP_ILLEGAL_ADDRESS MODBUS_FERROR_RANGE
      else
      protected ← modbusMaskRead (registerMask (data status))
                    (registerMaskLength (data status)) index;
      if protected =? 1
      then modbusBuildExceptionErr alloc status 6 MODBUS_EXCEP_SLAVE_FAILURE MODBUS_FERROR_NOWRITE
      else
      match calloc alloc 8 with
      | None => Some (MODBUS_ERROR_ALLOC, set_response_frame None status)
      | Some builder =>
          _ ← regs !! Z.to_nat index;
          let status := set_response_frame (Some builder)
            (set_data (set_registers (Some (<[Z.to_nat index := value]> regs)) (data status))
               status) in
          addr ← parser !! Parser.base_address;
          if addr =? 0 then Some (MODBUS_ERROR_OK, set_parseError MODBUS_FERROR_OK status)
          else
          fn ← parser !! Parser.base_function;
          builder ← st8 builder Parser.base_address (address status);
          builder ← st8 builder Parser.base_function fn;
          builder ← st16 builder Parser.response06_index raw_index;
          builder ← st16 builder Parser.response06_value raw_value;
          crc ← modbusCRC (Some builder) 6;
          builder ← st16 builder Parser.response06_crc crc;
          Some (MODBUS_ERROR_OK,
                set_parseError MODBUS_FERROR_OK (set_response (Some builder) 8 status))
      end
  end.

Definition modbusParseRequest16 (status : ModbusSlave) (parser : list Z) : Outcome :=
  if negb (7 <=? length_ (request status))
  then modbusBuildExceptionErr alloc status 16 MODBUS_EXCEP_ILLEGAL_VALUE MODBUS_FERROR_LENGTH
  else
  len ← parser !! Parser.request16_length;
  if negb (length_ (request status) =? u8 (9 + len))
  then modbusBuildExceptionErr alloc status 16 MODBUS_EXCEP_ILLEGAL_VALUE MODBUS_FERROR_LENGTH
  else
  raw_index ← rd16 parser Parser.request16_index;
  raw_count ← rd16 parser Parser.request16_count;
  let index := modbusMatchEndian raw_index in
  let count := modbusMatchEndian raw_count in
  if (len =? 0) || (count =? 0) || negb (count =? Z.shiftr len 1) || (123 <? count)
  then modbusBuildExceptionErr alloc status 16 MODBUS_EXCEP_ILLEGAL_VALUE MODBUS_FERROR_COUNT
  else
  match registers (data status) with
  | None => modbusBuildExceptionErr alloc status 16 MODBUS_EXCEP_ILLEGAL_ADDRESS MODBUS_FERROR_NOSRC
  | Some regs =>
      if (registerCount (data status) <=? index)
         || (registerCount (data status) <? u32 (index + count))
      then modbusBuildExceptionErr alloc status 16 MODBUS_EXCEP_ILLEGAL_ADDRESS MODBUS_FERROR_RANGE
      else
      protected ← mask_protects (registerMask (data status))
                    (registerMaskLength (data status)) index (Z.to_nat count) 0;
      if protected : bool
      then modbusBuildExceptionErr alloc status 16 MODBUS_EXCEP_SLAVE_FAILURE MODBUS_FERROR_NOWRITE
      else
      match calloc alloc 8 with
      | None => Some (MODBUS_ERROR_ALLOC, set_response_frame None status)
      | Some builder =>
          regs ← cfor (Z.to_nat count) 0 (λ i regs,
                   v ← rd16 parser (Parser.request16_values + 2 * i);
                   _ ← regs !! (Z.to_nat index + i)%nat;
                   Some (<[(Z.to_nat index + i)%nat := modbusMatchEndian v]> regs))
                 regs;
          let status := set_response_frame (Some builder)
            (set_data (set_registers (Some regs) (data status)) status) in
          addr ← parser !! Parser.base_address;
          if addr =? 0 then Some (MODBUS_ERROR_OK, set_parseError MODBUS_FERROR_OK status)
          else
          fn ← parser !! Parser.base_function;
          builder ← st8 builder Parser.base_address (address status);
          builder ← st8 builder Parser.base_function fn;
          builder ← st16 builder Parser.response16_index raw_index;
          builder ← st16 builder Parser.response16_count raw_count;
          crc ← modbusCRC (Some builder) 6;
          builder ← st16 builder Parser.response16_crc crc;
          Some (MODBUS_ERROR_OK,
                set_parseError MODBUS_FERROR_OK (set_response (Some builder) 8 status))
      end
  end.

Definition modbusParseRequest22 (status : ModbusSlave) (parser : list Z) : Outcome :=
  if negb (length_ (request status) =? 10)
  then modbusBuildExceptionErr alloc status 22 MODBUS_EXCEP_ILLEGAL_VALUE MODBUS_FERROR_LENGTH
  else
  raw_index ← rd16 parser Parser.request22_index;
  raw_andmask ← rd16 parser Parser.request22_andmask;
  raw_ormask ← rd16 parser Parser.request22_ormask;
  let index := modbusMatchEndian raw_index in
  let andmask := modbusMatchEndian raw_andmask in
  let ormask := modbusMatchEndian raw_ormask in
  match registers (data status) with
  | None => modbusBuildExceptionErr alloc status 22 MODBUS_EXCEP_ILLEGAL_ADDRESS MODBUS_FERROR_NOSRC
  | Some regs =>
      if registerCount (data status) <=? index
      then modbusBuildExceptionErr alloc status 22 MODBUS_EXCEP_ILLEGAL_ADDRESS MODBUS_FERROR_RANGE
      else
      protected ← modbusMaskRead (registerMask (data status))
                    (registerMaskLength (data status)) index;
      if protected =? 1
      then modbusBuildExceptionErr alloc status 22 MODBUS_EXCEP_SLAVE_FAILURE MODBUS_FERROR_NOWRITE
      else
      match calloc alloc 10 with
      | None => Some (MODBUS_ERROR_ALLOC, set_response_frame None status)
      | Some builder =>
          value ← regs !! Z.to_nat index;
          let value := u16 (Z.lor (Z.land value andmask)
                                  (Z.land ormask (Z.lnot andmask))) in
          let status := set_response_frame (Some builder)
            (set_data (set_registers (Some (<[Z.to_nat index := value]> regs)) (data status))
               status) in
          addr ← parser !! Parser.base_address;
          if addr =? 0 then Some (MODBUS_ERROR_OK, set_parseError MODBUS_FERROR_OK status)
          else
          fn ← parser !! Parser.base_function;
          builder ← st8 builder Parser.base_address (address status);
          builder ← st8 builder Parser.base_function fn;
          builder ← st16 builder Parser.response22_index raw_index;
          builder ← st16 builder Parser.response22_andmask raw_andmask;
          builder ← st16 builder Parser.response22_ormask raw_ormask;
          crc ← modbusCRC (Some builder) 8;
          builder ← st16 builder Parser.response22_crc crc;
          Some (MODBUS_ERROR_OK,
                set_parseError MODBUS_FERROR_OK (set_response (Some builder) 10 status))
      end
  end.
End sregs.

(** ** Coil functions ([scoils.c]) *)

(** [modbusMaskWrite] on the array that starts at offset [o] of a block. *)
Definition modbusMaskWrite_at (block : list Z) (o : nat) (maskLength bit value : Z)
    : option (Z * list Z) :=
  '(rc, m) ← modbusMaskWrite (Some (drop o block)) maskLength bit value;
  Some (rc, take o block ++ default [] m).

Section scoils.
Context (alloc : bool).

Definition modbusParseRequest0102 (status : ModbusSlave) (parser : list Z) : Outcome :=
  fn ← parser !! Parser.base_function;
  if negb (fn =? 1) && negb (fn =? 2)
  then Some (MODBUS_ERROR_PARSE, set_parseError MODBUS_FERROR_BADFUN status)
  else
  addr ← parser !! Parser.base_address;
  if addr =? 0
  then Some (MODBUS_ERROR_PARSE, set_parseError MODBUS_FERROR_BROADCAST status)
  else
  if negb (length_ (request status) =? 8)
  then modbusBuildExceptionErr alloc status fn MODBUS_EXCEP_ILLEGAL_VALUE MODBUS_FERROR_LENGTH
  else
  index ← modbusMatchEndian <$> rd16 parser Parser.request0102_index;
  count ← modbusMatchEndian <$> rd16 parser Parser.request0102_count;
  if (count =? 0) || (2000 <? count)
  then modbusBuildExceptionErr alloc status fn MODBUS_EXCEP_ILLEGAL_VALUE MODBUS_FERROR_COUNT
  else
  let source := if fn =? 1 then coils (data status) else discreteInputs (data status) in
  let available := if fn =? 1 then coilCount (data status)
                   else discreteInputCount (data status) in
  match source with
  | None => modbusBuildExceptionErr alloc status fn MODBUS_EXCEP_ILLEGAL_ADDRESS MODBUS_FERROR_NOSRC
  | Some _ =>
      if (available <=? index) || (available <? u32 (index + count))
      then modbusBuildExceptionErr alloc status fn MODBUS_EXCEP_ILLEGAL_ADDRESS MODBUS_FERROR_RANGE
      else
      let frameLength := u8 (5 + modbusBitsToBytes count) in
      match calloc alloc frameLength with
      | None => Some (MODBUS_ERROR_ALLOC, set_response_frame None status)
      | Some builder =>
          builder ← st8 builder Parser.base_address (address status);
          builder ← st8 builder Parser.base_function fn;
          builder ← st8 builder Parser.response0102_length (modbusBitsToBytes count);
          r ← cloop (Z.to_nat count) 0 (λ i builder,
                coil ← modbusMaskRead source (modbusBitsToBytes available)
                         (u16 (Z.of_nat i + index));
                if coil =? 255 then Some (inl builder)
                else
                len ← builder !! Parser.response0102_length;
                '(rc, builder) ← modbusMaskWrite_at builder Parser.response0102_values
                                   len (Z.of_nat i) coil;
                if rc =? 255 then Some (inl builder) else Some (inr builder))
              builder;
          match r with
          | inl builder => Some (MODBUS_ERROR_OTHER, set_response_frame (Some builder) status)
          | inr builder =>
              crc ← modbusCRC (Some builder) (u16 (frameLength - 2));
              builder ← st16 builder (Z.to_nat (frameLength - 2)) crc;
              Some (MODBUS_ERROR_OK, set_response (Some builder) frameLength status)
          end
      end
  end.

Definition modbusParseRequest05 (status : ModbusSlave) (parser : list Z) : Outcome :=
  if negb (length_ (request status) =? 8)
  then modbusBuildExceptionErr alloc status 5 MODBUS_EXCEP_ILLEGAL_VALUE MODBUS_FERROR_LENGTH
  else
  raw_index ← rd16 parser Parser.request05_index;
  raw_value ← rd16 parser Parser.request05_value;
  let index := modbusMatchEndian raw_index in
  let value := modbusMatchEndian raw_value in
  if negb (value =? 0x0000) && negb (value =? 0xFF00)
  then modbusBuildExceptionErr alloc status 5 MODBUS_EXCEP_ILLEGAL_VALUE MODBUS_FERROR_VALUE
  else
  match coils (data status) with
  | None => modbusBuildExceptionErr alloc status 5 MODBUS_EXCEP_ILLEGAL_ADDRESS MODBUS_FERROR_NOSRC
  | Some _ =>
      if coilCount (data status) <=? index
      then modbusBuildExceptionErr alloc status 5 MODBUS_EXCEP_ILLEGAL_ADDRESS MODBUS_FERROR_RANGE
      else
      protected ← modbusMaskRead (coilMask (data status)) (coilMaskLength (data status)) index;
      if protected =? 1
      then modbusBuildExceptionErr alloc status 5 MODBUS_EXCEP_SLAVE_FAILURE MODBUS_FERROR_NOWRITE
      else
      match calloc alloc 8 with
      | None => Some (MODBUS_ERROR_ALLOC, set_response_frame None status)
      | Some builder =>
          let status := set_response_frame (Some builder) status in
          '(rc, coils') ← modbusMaskWrite (coils (data status))
                            (modbusBitsToBytes (coilCount (data status))) index
                            (Z.b2z (value =? 0xFF00));
          let status := set_data (set_coils coils' (data status)) status in
          if rc =? 255 then Some (MODBUS_ERROR_OTHER, status)
          else
          addr ← parser !! Parser.base_address;
          if addr =? 0 then Some (MODBUS_ERROR_OK, set_parseError MODBUS_FERROR_OK status)
          else
          fn ← parser !! Parser.base_function;
          builder ← st8 builder Parser.base_address (address status);
          builder ← st8 builder Parser.base_function fn;
          builder ← st16 builder Parser.response05_index raw_index;
          builder ← st16 builder Parser.response05_value raw_value;
          crc ← modbusCRC (Some builder) 6;
          builder ← st16 builder Parser.response05_crc crc;
          Some (MODBUS_ERROR_OK,
                set_parseError MODBUS_FERROR_OK (set_response (Some builder) 8 status))
      end
  end.

Definition modbusParseRequest15 (status : ModbusSlave) (parser : list Z) : Outcome :=
  if negb (7 <=? length_ (request status))
  then modbusBuildExceptionErr alloc status 15 MODBUS_EXCEP_ILLEGAL_VALUE MODBUS_FERROR_LENGTH
  else
  len ← parser !! Parser.request15_length;
  if negb (length_ (request status) =? u8 (9 + len))
  then modbusBuildExceptionErr alloc status 15 MODBUS_EXCEP_ILLEGAL_VALUE MODBUS_FERROR_LENGTH
  else
  raw_index ← rd16 parser Parser.request15_index;
  raw_count ← rd16 parser Parser.request15_count;
  let index := modbusMatchEndian raw_index in
  let count := modbusMatchEndian raw_count in
  if (len =? 0) || (count =? 0) || negb (modbusBitsToBytes count =? len) || (1968 <? count)
  then modbusBuildExceptionErr alloc status 15 MODBUS_EXCEP_ILLEGAL_VALUE MODBUS_FERROR_COUNT
  else
  match coils (data status) with
  | None => modbusBuildExceptionErr alloc status 15 MODBUS_EXCEP_ILLEGAL_ADDRESS MODBUS_FERROR_NOSRC
  | Some _ =>
      if (coilCount (data status) <=? index)
         || (coilCount (data status) <? u32 (index + count))
      then modbusBuildExceptionErr alloc status 15 MODBUS_EXCEP_ILLEGAL_ADDRESS MODBUS_FERROR_RANGE
      else
      protected ← mask_protects (coilMask (data status)) (coilMaskLength (data status))
                    index (Z.to_nat count) 0;
      if protected : bool
      then modbusBuildExceptionErr alloc status 15 MODBUS_EXCEP_SLAVE_FAILURE MODBUS_FERROR_NOWRITE
      else
      match calloc alloc 8 with
      | None => Some (MODBUS_ERROR_ALLOC, set_response_frame None status)
      | Some builder =>
          let status := set_response_frame (Some builder) status in
          r ← cloop (Z.to_nat count) 0 (λ i coils,
                coil ← modbusMaskRead (Some (drop Parser.request15_values parser)) len
                         (Z.of_nat i);
                if coil =? 255 then Some (inl coils)
                else
                '(rc, coils) ← modbusMaskWrite coils
                                 (modbusBitsToBytes (coilCount (data status)))
                                 (u16 (index + Z.of_nat i)) coil;
                if rc =? 255 then Some (inl coils) else Some (inr coils))
              (coils (data status));
          match r with
          | inl coils' =>
              Some (MODBUS_ERROR_OTHER, set_data (set_coils coils' (data status)) status)
          | inr coils' =>
              let status := set_data (set_coils coils' (data status)) status in
              addr ← parser !! Parser.base_address;
              if addr =? 0
              then Some (MODBUS_ERROR_OK, set_parseError MODBUS_FERROR_OK status)
              else
              fn ← parser !! Parser.base_function;
              builder ← st8 builder Parser.base_address (address status);
              builder ← st8 builder Parser.base_function fn;
              builder ← st16 builder Parser.response15_index raw_index;
              builder ← st16 builder Parser.response15_count raw_count;
              crc ← modbusCRC (Some builder) 6;
              builder ← st16 builder Parser.response15_crc crc;
              Some (MODBUS_ERROR_OK,
                    set_parseError MODBUS_FERROR_OK (set_response (Some builder) 8 status))
          end
      end
  end.
End scoils.

(** ** Dispatch, initialisation and clean-up ([slave.c]) *)

(** A user function; [None] stands for the NULL handler.  [userFunctions] is
    the array of the [userFunctionCount] entries, [] when the pointer is NULL. *)
Definition UserFunction : Type :=
  Z * option (ModbusSlave → list Z → Outcome).

(** The search of the first entry registered for [fn]. *)
Fixpoint find_user_function (fs : list UserFunction) (fn : Z)
    : option (option (ModbusSlave → list Z → Outcome)) :=
  match fs with
  | [] => None
  | (f, handler) :: fs => if f =? fn then Some handler else find_user_function fs fn
  end.

Definition modbusParseRequest (alloc : bool) (userFunctions : list UserFunction)
    (status : ModbusSlave) : Outcome :=
  let status := set_response None 0 status in
  let status := set_parseError MODBUS_FERROR_OK status in
  match frame (request status) with
  | None => Some (MODBUS_ERROR_PARSE, set_parseError MODBUS_FERROR_LENGTH status)
  | Some parser =>
      if length_ (request status) <? 4
      then Some (MODBUS_ERROR_PARSE, set_parseError MODBUS_FERROR_LENGTH status)
      else
      crc ← rd16 parser (Z.to_nat (length_ (request status) - 2));
      expected ← modbusCRC (Some parser) (u16 (length_ (request status) - 2));
      if negb (crc =? expected)
      then Some (MODBUS_ERROR_PARSE, set_parseError MODBUS_FERROR_CRC status)
      else
      addr ← parser !! Parser.base_address;
      if negb (addr =? address status) && negb (addr =? 0)
      then Some (MODBUS_ERROR_OK, status)
      else
      fn ← parser !! Parser.base_function;
      match find_user_function userFunctions fn with
      | Some (Some handler) => handler status parser
      | Some None =>
          modbusBuildExceptionErr alloc status fn MODBUS_EXCEP_ILLEGAL_FUNCTION
            MODBUS_FERROR_NULLFUN
      | None =>
          match fn with
          | 1 | 2 => modbusParseRequest0102 alloc status parser
          | 3 | 4 => modbusParseRequest0304 alloc status parser
          | 5 => modbusParseRequest05 alloc status parser
          | 6 => modbusParseRequest06 alloc status parser
          | 15 => modbusParseRequest15 alloc status parser
          | 16 => modbusParseRequest16 alloc status parser
          | 22 => modbusParseRequest22 alloc status parser
          | _ =>
              modbusBuildExceptionErr alloc status fn MODBUS_EXCEP_ILLEGAL_FUNCTION
                MODBUS_FERROR_NOFUN
          end
      end
  end.

(** An array that is NULL or empty: both the pointer and the count are reset. *)
Definition checked_array (count : Z) (array : option (list Z)) : Z * option (list Z) :=
  match array with
  | Some l => if count =? 0 then (0, None) else (count, Some l)
  | None => (0, None)
  end.

Definition modbusSlaveInit (status : ModbusSlave) : ModbusError * ModbusSlave :=
  let status := set_request None 0 status in
  let status := set_response None 0 status in
  if address status =? 0 then (MODBUS_ERROR_OTHER, status)
  else
  let d := data status in
  let '(registerCount', registers') := checked_array (registerCount d) (registers d) in
  let '(inputRegisterCount', inputRegisters') :=
    checked_array (inputRegisterCount d) (inputRegisters d) in
  let '(coilCount', coils') := checked_array (coilCount d) (coils d) in
  let '(discreteInputCount', discreteInputs') :=
    checked_array (discreteInputCount d) (discreteInputs d) in
  (MODBUS_ERROR_OK,
   set_data (mkData registers' inputRegisters' (registerMask d) (registerMaskLength d)
               registerCount' inputRegisterCount' coils' discreteInputs'
               (coilMask d) (coilMaskLength d) coilCount' discreteInputCount') status).

Definition modbusSlaveEnd (status : ModbusSlave) : ModbusError * ModbusSlave :=
  (MODBUS_ERROR_OK, set_response_frame None status).
