(* ===== verification/ModbusSlaveSafety.v ===== *)
(** * ModbusSlaveSafety: memory safety and invariants of the slave.

    The well-formedness of a slave ([wf_slave]), what every handler
    guarantees ([answered]: no undefined behaviour, configuration and request
    untouched, write protection respected, errors leave the data alone, the
    reply is empty or a frame with a correct CRC from this slave, broadcasts
    are not answered), proved handler by handler and for [modbusParseRequest]. *)
From S2P Require Import Prelude.
From S2P Require Import Lightmodbus.
From S2P Require Import ModbusSlave.

(** ** Well-formedness *)

(** An array of [count] words or of [count] packed bits, or NULL. *)
Definition words_ok (count : Z) (a : option (list Z)) : Prop :=
  is_u16 count ∧ ∀ l, a = Some l → words l ∧ count <= Z.of_nat (length l).
Definition bits_ok (count : Z) (a : option (list Z)) : Prop :=
  is_u16 count ∧ ∀ l, a = Some l → bytes l ∧ modbusBitsToBytes count <= Z.of_nat (length l).
Definition mask_ok (len : Z) (a : option (list Z)) : Prop :=
  is_u16 len ∧ ∀ l, a = Some l → bytes l ∧ len <= Z.of_nat (length l).

Record wf_data (d : SlaveData) : Prop := {
  wf_registers : words_ok (registerCount d) (registers d);
  wf_inputRegisters : words_ok (inputRegisterCount d) (inputRegisters d);
  wf_registerMask : mask_ok (registerMaskLength d) (registerMask d);
  wf_coils : bits_ok (coilCount d) (coils d);
  wf_discreteInputs : bits_ok (discreteInputCount d) (discreteInputs d);
  wf_coilMask : mask_ok (coilMaskLength d) (coilMask d);
}.

(** A frame buffer holds at least the bytes its length announces. *)
Definition wf_frame (r : Frame) : Prop :=
  is_u8 (length_ r) ∧ ∀ f, frame r = Some f → bytes f ∧ length_ r <= Z.of_nat (length f).

Record wf_slave (s : ModbusSlave) : Prop := {
  wf_address : is_u8 (address s);
  wf_slave_data : wf_data (data s);
  wf_slave_request : wf_frame (request s);
}.

(** ** What a handler guarantees *)

(** Register [i] and coil [i] are write protected. *)
Definition register_protected (d : SlaveData) (i : Z) : Prop :=
  modbusMaskRead (registerMask d) (registerMaskLength d) i = Some 1.
Definition coil_protected (d : SlaveData) (i : Z) : Prop :=
  modbusMaskRead (coilMask d) (coilMaskLength d) i = Some 1.

#[export] Instance register_protected_dec d i : Decision (register_protected d i).
Proof. unfold register_protected. apply _. Defined.
#[export] Instance coil_protected_dec d i : Decision (coil_protected d i).
Proof. unfold coil_protected. apply _. Defined.

(** Only the contents of the holding registers and of the coils may change,
    not those that are protected. *)
Record data_step (d d' : SlaveData) : Prop := {
  step_shape : d' = set_registers (registers d') (set_coils (coils d') d);
  step_wf : wf_data d';
  step_null : (registers d' = None ↔ registers d = None) ∧ (coils d' = None ↔ coils d = None);
  step_registers : ∀ l l' i, registers d = Some l → registers d' = Some l' →
    is_u16 i → register_protected d i → l' !! Z.to_nat i = l !! Z.to_nat i;
  step_coils : ∀ l l' i, coils d = Some l → coils d' = Some l' →
    is_u16 i → coil_protected d i → mask_bit l' i = mask_bit l i;
}.

(** The reply is empty, or a frame of this slave with a correct CRC. *)
Definition reply_ok (s : ModbusSlave) : Prop :=
  length_ (response s) = 0 ∨
  ∃ p, frame (response s) = Some (with_crc p) ∧ bytes p ∧ head p = Some (address s) ∧
       length_ (response s) = Z.of_nat (length p) + 2 ∧ is_u8 (length_ (response s)).

Definition broadcast (s : ModbusSlave) : Prop :=
  ∃ f, frame (request s) = Some f ∧ f !! 0%nat = Some 0.

Record answered (s : ModbusSlave) (e : ModbusError) (s' : ModbusSlave) : Prop := {
  ans_address : address s' = address s;
  ans_request : request s' = request s;
  ans_data : data_step (data s) (data s');
  ans_error : e ≠ MODBUS_ERROR_OK → data s' = data s;
  ans_reply : reply_ok s';
  ans_broadcast : broadcast s → length_ (response s') = 0;
}.

Definition returns (o : Outcome) (P : ModbusError → ModbusSlave → Prop) : Prop :=
  ∃ e s', o = Some (e, s') ∧ P e s'.

(** ** Fixed-size replies *)

Ltac parser_offsets := unfold
  Parser.base_address, Parser.base_function, Parser.exception_code_at, Parser.exception_crc,
  Parser.request0102_index, Parser.request0102_count, Parser.request0102_crc,
  Parser.response0102_length, Parser.response0102_values,
  Parser.request0304_index, Parser.request0304_count, Parser.request0304_crc,
  Parser.response0304_length, Parser.response0304_values,
  Parser.request05_index, Parser.request05_value, Parser.request05_crc,
  Parser.response05_index, Parser.response05_value, Parser.response05_crc,
  Parser.request06_index, Parser.request06_value, Parser.request06_crc,
  Parser.response06_index, Parser.response06_value, Parser.response06_crc,
  Parser.request15_index, Parser.request15_count, Parser.request15_length,
  Parser.request15_values, Parser.response15_index, Parser.response15_count,
  Parser.response15_crc, Parser.request16_index, Parser.request16_count,
  Parser.request16_length, Parser.request16_values, Parser.response16_index,
  Parser.response16_count, Parser.response16_crc,
  Parser.request22_index, Parser.request22_andmask, Parser.request22_ormask,
  Parser.request22_crc, Parser.response22_index, Parser.response22_andmask,
  Parser.response22_ormask, Parser.response22_crc in *.

(** Runs a sequence of stores into a block of known size. *)
Ltac stores :=
  cbn [replicate];
  repeat (first
    [ rewrite st8_Some by (cbn; lia)
    | rewrite st16_Some by (cbn; lia)
    | rewrite modbusCRC_spec by (cbn; lia) ];
    rewrite ?bind_ret; znat; cbn [insert list_insert take]).

Section replies.
Lemma exception_frame {A} (k : list Z → option A) a fn c :
  is_u8 a → is_u8 fn → is_u8 c →
  (f ← st8 (replicate 5 0) 0 a; f ← st8 f 1 (Z.lor (Z.shiftl 1 7) fn); f ← st8 f 2 c;
   crc ← modbusCRC (Some f) 3; f ← st16 f 3 crc; k f) =
  k (with_crc [a; Z.lor 128 fn; c]).
Proof.
  intros Ha Hfn Hc. change (Z.shiftl 1 7) with 128.
  assert (is_u8 (Z.lor 128 fn)) by (apply (lor_bound _ _ 8); unfold is_u8 in *; lia).
  assert (is_u16 (crc_of [a; Z.lor 128 fn; c])).
  { apply crc_of_u16. solve_bytes. }
  stores. unfold with_crc. rewrite le16_u8 by done.
  rewrite (u8_id a), (u8_id (Z.lor 128 fn)), (u8_id c) by done. reflexivity.
Qed.

Lemma reply10_frame {A} (k : list Z → option A) a fn w1 w2 w3 :
  is_u8 a → is_u8 fn → is_u16 w1 → is_u16 w2 → is_u16 w3 →
  (f ← st8 (replicate 10 0) 0 a; f ← st8 f 1 fn; f ← st16 f 2 w1; f ← st16 f 4 w2;
   f ← st16 f 6 w3; crc ← modbusCRC (Some f) 8; f ← st16 f 8 crc; k f) =
  k (with_crc (a :: fn :: le16 w1 ++ le16 w2 ++ le16 w3)).
Proof.
  intros Ha Hfn Hw1 Hw2 Hw3.
  assert (is_u16 (crc_of (a :: fn :: le16 w1 ++ le16 w2 ++ le16 w3))).
  { apply crc_of_u16. solve_bytes. }
  rewrite !le16_u8 in * by done.
  stores. unfold with_crc. rewrite le16_u8, (u8_id a), (u8_id fn) by done. reflexivity.
Qed.

Lemma reply8_frame {A} (k : list Z → option A) a fn w1 w2 :
  is_u8 a → is_u8 fn → is_u16 w1 → is_u16 w2 →
  (f ← st8 (replicate 8 0) 0 a; f ← st8 f 1 fn; f ← st16 f 2 w1; f ← st16 f 4 w2;
   crc ← modbusCRC (Some f) 6; f ← st16 f 6 crc; k f) =
  k (with_crc (a :: fn :: le16 w1 ++ le16 w2)).
Proof.
  intros Ha Hfn Hw1 Hw2.
  assert (is_u16 (crc_of (a :: fn :: le16 w1 ++ le16 w2))).
  { apply crc_of_u16. solve_bytes. }
  rewrite !le16_u8 in * by done.
  stores. unfold with_crc. rewrite le16_u8, (u8_id a), (u8_id fn) by done. reflexivity.
Qed.

End replies.

(** ** Exceptions *)

(** Whether the request was sent to all slaves. *)
Definition broadcastb (s : ModbusSlave) : bool :=
  match frame (request s) with Some (a :: _) => a =? 0 | _ => false end.

(** What [modbusBuildExceptionErr] leaves. *)
Definition exception_outcome (alloc : bool) (s : ModbusSlave) (fn : Z)
    (code : ModbusExceptionCode) (ferr : ModbusFrameError) : ModbusError * ModbusSlave :=
  let s := set_lastException code (set_parseError ferr s) in
  if broadcastb s then (MODBUS_ERROR_PARSE, set_response_length 0 s)
  else if alloc then
    (MODBUS_ERROR_EXCEPTION,
     set_response (Some (with_crc [address s; Z.lor 128 fn; exception_code code])) 5 s)
  else (MODBUS_ERROR_ALLOC, set_response_frame None s).

Lemma exception_code_u8 c : is_u8 (exception_code c).
Proof. destruct c; unfold is_u8; simpl; lia. Qed.

Lemma modbusBuildExceptionErr_spec alloc s fn code ferr :
  is_u8 (address s) → is_u8 fn → frame (request s) ≠ Some [] →
  modbusBuildExceptionErr alloc s fn code ferr =
  Some (exception_outcome alloc s fn code ferr).
Proof.
  intros Ha Hfn Hne.
  assert (match frame (request s) with
          | Some f => a ← f !! 0%nat; Some (a =? 0) | None => Some false end
          = Some (broadcastb s)) as Hb.
  { unfold broadcastb. by destruct (frame (request s)) as [[|]|]. }
  unfold modbusBuildExceptionErr, modbusBuildException, exception_outcome. parser_offsets.
  cbn [set_lastException set_parseError request address]. rewrite Hb, bind_ret.
  change (broadcastb (set_lastException code (set_parseError ferr s))) with (broadcastb s).
  destruct (broadcastb s); [done|]. unfold calloc. znat.
  destruct alloc; [|done]. rewrite exception_frame; [done..|apply exception_code_u8].
Qed.

(** ** Steps that change nothing *)

Lemma data_step_refl d : wf_data d → data_step d d.
Proof.
  intros H. split; try done; [by destruct d| |]; intros l l' i Hl Hl' _ _; congruence.
Qed.

Lemma answered_silent s e s' :
  wf_slave s → address s' = address s → request s' = request s → data s' = data s →
  length_ (response s') = 0 → answered s e s'.
Proof.
  intros Hwf Ha Hr Hd Hl. split; try done; [|by left].
  rewrite Hd. by apply data_step_refl, Hwf.
Qed.

Lemma broadcastb_spec s : broadcast s ↔ broadcastb s = true.
Proof.
  unfold broadcast, broadcastb. split.
  - intros ([|a f] & -> & E); [done|]. simpl in E. injection E as ->. done.
  - destruct (frame (request s)) as [[|a f]|]; try done. intros E%Z.eqb_eq. subst. eauto.
Qed.

Lemma answered_reply s p s' :
  address s' = address s → request s' = request s → data_step (data s) (data s') →
  bytes p → head p = Some (address s) → Z.of_nat (length p) + 2 < 256 →
  response s' = mkFrame (Some (with_crc p)) (Z.of_nat (length p) + 2) →
  broadcastb s = false → answered s MODBUS_ERROR_OK s'.
Proof.
  intros Ha Hr Hd Hp Hh Hl Hs Hb. split; try done.
  - right. exists p. rewrite Hs, Ha. cbn. repeat split; try done; lia.
  - rewrite broadcastb_spec. congruence.
Qed.

Lemma answered_done s s' :
  address s' = address s → request s' = request s → data_step (data s) (data s') →
  length_ (response s') = 0 → answered s MODBUS_ERROR_OK s'.
Proof. intros Ha Hr Hd Hl. split; try done. by left. Qed.

Lemma exception_answered alloc s fn code ferr :
  wf_slave s → length_ (response s) = 0 → is_u8 fn → frame (request s) ≠ Some [] →
  returns (modbusBuildExceptionErr alloc s fn code ferr) (answered s).
Proof.
  intros Hwf Hl Hfn Hne. pose proof (wf_address s Hwf) as Ha.
  unfold returns. rewrite modbusBuildExceptionErr_spec by done.
  unfold exception_outcome. cbn zeta.
  change (broadcastb (set_lastException code (set_parseError ferr s))) with (broadcastb s).
  destruct (broadcastb s) eqn:Hb; [do 2 eexists; split; [done|by apply answered_silent]|].
  destruct alloc; do 2 eexists; (split; [done|]); [|by apply answered_silent].
  split; try done; [by apply data_step_refl, Hwf| |].
  - right. eexists. split; [done|].
    assert (is_u8 (Z.lor 128 fn)) by (apply (lor_bound _ _ 8); unfold is_u8 in *; lia).
    pose proof (exception_code_u8 code). cbn [address set_lastException set_parseError].
    split; [solve_bytes|]. by repeat split.
  - rewrite broadcastb_spec. congruence.
Qed.

(** ** Writing registers *)

Lemma data_step_registers d l l' :
  wf_data d → registers d = Some l → words l' → length l' = length l →
  (∀ i, is_u16 i → register_protected d i → l' !! Z.to_nat i = l !! Z.to_nat i) →
  data_step d (set_registers (Some l') d).
Proof.
  intros Hwf Hl Hw Hlen Hp. destruct Hwf as [[? Hr] ? ? ? ? ?].
  split; try done.
  - split; try done. split; [done|]. intros ? [= <-].
    destruct (Hr l Hl). by rewrite Hlen.
  - cbn. split; [|done]. rewrite Hl. by split.
  - cbn. intros l0 l0' i E1 [= <-] ??. rewrite Hl in E1. injection E1 as <-. auto.
  - cbn. intros l0 l0' i E1 E2 _ _. congruence.
Qed.

(** Case analysis on the tests of a handler. *)
Ltac test :=
  match goal with
  | |- returns (if ?c then _ else _) _ => destruct c eqn:?
  | |- returns (match ?a with Some _ => _ | None => _ end) _ => destruct a eqn:?
  end.

Lemma mask_read mask len i :
  mask_ok len mask → is_u16 i → ∃ v, modbusMaskRead mask len i = Some v.
Proof.
  intros [_ Hm] Hi. apply modbusMaskRead_safe; [ulia|]. intros l El. apply (Hm l El).
Qed.

(** The protection test of the multiple-write functions: [false] exactly when
    no bit of the range is protected. *)
Lemma mask_protects_spec mask len index n i :
  mask_ok len mask → 0 <= index → index + Z.of_nat i + Z.of_nat n <= 65536 →
  ∃ b, mask_protects mask len index n i = Some b ∧
    (b = false ↔ ∀ j, (i <= j < i + n)%nat →
                   modbusMaskRead mask len (index + Z.of_nat j) ≠ Some 1).
Proof.
  intros Hm Hi. revert i. induction n as [|n IH]; intros i Hn.
  { exists false. split; [done|]. split; [lia|done]. }
  simpl. rewrite u16_id by (unfold is_u16; lia).
  destruct (mask_read mask len (index + Z.of_nat i) Hm) as [v Hv]; [unfold is_u16; lia|].
  rewrite Hv, bind_ret. destruct (Z.eqb_spec v 1) as [->|Hne].
  - exists true. split; [done|]. split; [done|]. intros H. by destruct (H i); [lia|].
  - destruct (IH (i + 1)%nat) as (b & -> & Hb); [lia|]. exists b. split; [done|].
    rewrite Hb. split; intros H j Hj.
    + destruct (decide (j = i)) as [->|]; [congruence|]. apply H. lia.
    + apply H. lia.
Qed.

(** The loop that copies the words of the request into the registers. *)
Lemma write_words_loop parser o index n i ws regs :
  length ws = n → (index + i + n <= length regs)%nat →
  (∀ j w, ws !! j = Some w → rd16 parser (o + 2 * (i + j)) = Some w) →
  cfor n i (λ i regs, v ← rd16 parser (o + 2 * i);
                      _ ← regs !! (index + i)%nat;
                      Some (<[(index + i)%nat := modbusMatchEndian v]> regs)) regs
  = Some (splice (index + i) (modbusMatchEndian <$> ws) regs).
Proof.
  revert i ws regs. induction n as [|n IH]; intros i ws regs Hl Hr Hw.
  { apply nil_length_inv in Hl as ->. cbn [fmap list_fmap]. by rewrite splice_nil. }
  destruct ws as [|w ws]; [done|]. injection Hl as Hl. cbn [cfor].
  pose proof (Hw 0%nat w eq_refl) as Hw0. rewrite Nat.add_0_r in Hw0.
  rewrite Hw0, bind_ret.
  destruct (lookup_lt_is_Some_2 regs (index + i)) as [old ->]; [lia|]. rewrite !bind_ret.
  rewrite IH with (ws := ws); [|done|rewrite length_insert; lia|].
  - cbn [fmap list_fmap]. rewrite Nat.add_assoc, splice_cons by lia. done.
  - intros j w' Hj. rewrite <- Nat.add_assoc. by apply (Hw (S j)).
Qed.

(** The loop that copies words into a frame from offset [o] on. *)
Lemma read_words_loop o regs index n i pre :
  words regs → (index + i + n <= length regs)%nat → length pre = (o + 2 * i)%nat →
  cfor n i (λ i builder, v ← regs !! (index + i)%nat;
                         st16 builder (o + 2 * i) (modbusMatchEndian v))
    (pre ++ replicate (2 * n + 2) 0)
  = Some (pre ++ (take n (drop (index + i) regs) ≫= be16) ++ [0; 0]).
Proof.
  intros Hw. revert i pre. induction n as [|n IH]; intros i pre Hr Hp; [done|].
  cbn [cfor]. destruct (lookup_lt_is_Some_2 regs (index + i)) as [v Hv]; [lia|].
  pose proof (words_lookup _ _ _ Hw Hv) as Hu. rewrite Hv, bind_ret.
  replace (2 * S n + 2)%nat with (S (S (2 * n + 2))) by lia. cbn [replicate].
  rewrite <- Hp, st16_app, bind_ret.
  rewrite (drop_S _ v) by done. cbn [take]. rewrite bind_cons.
  change (u8 ?a :: u8 ?b :: ?r) with ([u8 a; u8 b] ++ r).
  rewrite <- le16_u8 by auto with cmem. rewrite le16_swap, app_assoc by done.
  rewrite IH; [|lia|rewrite length_app, Hp; simpl; lia].
  rewrite <- !app_assoc, Nat.add_1_r, <- Nat.add_succ_r. done.
Qed.

Lemma bytes_be16_list l : words l → bytes (l ≫= be16).
Proof.
  induction 1 as [|w l Hw Hl IH]; [by constructor|]. rewrite bind_cons.
  apply bytes_app. split; [by apply be16_bytes|done].
Qed.

Lemma length_be16_list l : length (l ≫= be16) = (2 * length l)%nat.
Proof. induction l as [|w l IH]; [done|]. rewrite bind_cons, length_app, IH. simpl. lia. Qed.

Lemma header3 {A} (k : list Z → option A) m a b c :
  (f ← st8 (replicate (3 + m) 0) 0 a; f ← st8 f 1 b; f ← st8 f 2 c; k f)
  = k ([u8 a; u8 b; u8 c] ++ replicate m 0).
Proof. cbn [replicate Nat.add]. by stores. Qed.

(** The read functions answer with the frame [p] that follows the header. *)
Lemma finish_frame_at {A} (k : list Z → option A) p n o :
  bytes p → n = Z.of_nat (length p) → o = length p → is_u16 n →
  (crc ← modbusCRC (Some (p ++ [0; 0])) (u16 n);
   f ← st16 (p ++ [0; 0]) o crc; k f) = k (with_crc p).
Proof. intros Hp -> -> Hn. rewrite u16_id by done. by apply finish_frame. Qed.

(** ** Writing and reading coils *)

Lemma data_step_coils d l l' :
  wf_data d → coils d = Some l → bytes l' → length l' = length l →
  (∀ i, is_u16 i → coil_protected d i → mask_bit l' i = mask_bit l i) →
  data_step d (set_coils (Some l') d).
Proof.
  intros Hwf Hl Hw Hlen Hp. destruct Hwf as [? ? ? [? Hr] ? ?].
  split; try done.
  - split; try done. split; [done|]. intros ? [= <-].
    destruct (Hr l Hl). by rewrite Hlen.
  - cbn. split; [done|]. rewrite Hl. by split.
  - cbn. intros l0 l0' i E1 E2 _ _. congruence.
  - cbn. intros l0 l0' i E1 [= <-] ??. rewrite Hl in E1. injection E1 as <-. auto.
Qed.

Lemma b2z_not_255 b : (Z.b2z b =? 255) = false.
Proof. by destruct b. Qed.

Lemma b2z_nonzero b : negb (Z.b2z b =? 0) = b.
Proof. by destruct b. Qed.

(** One iteration of the loop that builds the reply: bit [i] of the values. *)
Lemma write_reply_bit hdr m n i b :
  length hdr = 3%nat → bytes m → Z.of_nat (length m) = n → 0 <= i → i / 8 < n →
  ∃ m', modbusMaskWrite_at (hdr ++ m ++ [0; 0]) 3 n i (Z.b2z b) = Some (0, hdr ++ m' ++ [0; 0]) ∧
    length m' = length m ∧ bytes m' ∧
    ∀ j, 0 <= j < 8 * n → mask_bit m' j = if j =? i then b else mask_bit m j.
Proof.
  intros Hh Hm Hn Hi Hin. unfold modbusMaskWrite_at.
  rewrite drop_app_length', take_app_length' by done.
  destruct (modbusMaskWrite_spec (m ++ [0; 0]) n i (Z.b2z b))
    as (m2 & -> & (v & Hv & ->) & Hbit); [|done|rewrite length_app; simpl; lia|].
  { apply bytes_app. split; [done|solve_bytes]. }
  assert (0 <= i / 8) by ulia.
  rewrite bind_ret. cbn [default from_option id].
  rewrite insert_app_l in Hbit |- * by lia.
  eexists. split; [done|]. rewrite length_insert. split; [done|].
  split; [auto with cmem|]. intros j Hj. specialize (Hbit j ltac:(lia)).
  rewrite !mask_bit_app_l in Hbit by (rewrite ?length_insert; lia).
  by rewrite Hbit, b2z_nonzero.
Qed.

Lemma read_coils_loop src available index n hdr :
  bytes src → is_u16 available → modbusBitsToBytes available <= Z.of_nat (length src) →
  0 <= index → index + Z.of_nat n <= available →
  length hdr = 3%nat → hdr !! 2%nat = Some (modbusBitsToBytes (Z.of_nat n)) →
  cloop n 0 (λ i builder,
      coil ← modbusMaskRead (Some src) (modbusBitsToBytes available)
               (u16 (Z.of_nat i + index));
      if coil =? 255 then Some (inl builder)
      else
      len ← builder !! 2%nat;
      '(rc, builder) ← modbusMaskWrite_at builder 3 len (Z.of_nat i) coil;
      if rc =? 255 then Some (inl builder) else Some (inr builder))
    (hdr ++ replicate (Z.to_nat (modbusBitsToBytes (Z.of_nat n))) 0 ++ [0; 0])
  = Some (inr (hdr ++ pack_bits ((λ i, mask_bit src (index + Z.of_nat i)) <$> seq 0 n)
                   ++ [0; 0])).
Proof.
  intros Hs Ha Hl Hi Hn Hh Hh2.
  assert (is_u16 (Z.of_nat n)) as Hu by ulia.
  set (N := modbusBitsToBytes (Z.of_nat n)) in *.
  assert (is_u16 N) as HN by (by apply modbusBitsToBytes_u16).
  match goal with |- cloop n 0 ?body ?b0 = _ =>
    destruct (cloop_total
      (λ i b, ∃ m, b = hdr ++ m ++ [0; 0] ∧ length m = Z.to_nat N ∧ bytes m ∧
        ∀ j, 0 <= j < 8 * N →
          mask_bit m j = if j <? Z.of_nat i then mask_bit src (index + j) else false)
      n 0 body b0) as (b & -> & m & -> & Hm & Hb & Hbits)
  end.
  - intros i b Hin (m & -> & Hm & Hb & Hbits).
    rewrite u16_id, modbusMaskRead_spec, bind_ret, b2z_not_255 by
      (try (split; [apply bit_in_range|]); done || ulia).
    rewrite lookup_app_l, Hh2, bind_ret by lia.
    destruct (write_reply_bit hdr m N (Z.of_nat i) (mask_bit src (Z.of_nat i + index)))
      as (m' & -> & Hm' & Hb' & Hbits'); [done..|ulia|ulia|apply bit_in_range; [done|lia]|].
    rewrite bind_ret. eexists. split; [done|]. exists m'. rewrite Hm'.
    do 3 (split; [done|]). intros j Hj. rewrite Hbits', Hbits by done.
    destruct (Z.eqb_spec j (Z.of_nat i)), (Z.ltb_spec j (Z.of_nat (i + 1))),
      (Z.ltb_spec j (Z.of_nat i)); try lia; try done. f_equal. lia.
  - eexists. split; [done|]. rewrite length_replicate. split; [done|].
    split; [apply bytes_zeroes|]. intros j Hj. rewrite mask_bit_zeroes.
    by destruct (Z.ltb_spec j (Z.of_nat 0)); [lia|].
  - do 5 f_equal. apply mask_ext; [done|apply pack_bits_bytes|..].
    + by rewrite Hm, length_pack_bits, length_fmap, length_seq.
    + intros j Hj. unfold is_u16 in HN. rewrite Hbits by lia. rewrite Nat.add_0_l.
      rewrite pack_bits_bit by (rewrite ?length_fmap, ?length_seq; lia || done).
      rewrite list_lookup_fmap. destruct (Z.ltb_spec j (Z.of_nat n)).
      * rewrite lookup_seq_lt by lia. cbn. do 2 f_equal. lia.
      * by rewrite lookup_seq_ge by lia.
Qed.

(** The loop that copies the bits of the request into the coils. *)
Lemma write_coils_loop values len cs count index n :
  bytes cs → is_u16 count → modbusBitsToBytes count <= Z.of_nat (length cs) →
  0 <= index → index + Z.of_nat n <= count →
  modbusBitsToBytes (Z.of_nat n) = len → len <= Z.of_nat (length values) →
  ∃ cs', cloop n 0 (λ i coils,
      coil ← modbusMaskRead (Some values) len (Z.of_nat i);
      if coil =? 255 then Some (inl coils)
      else
      '(rc, coils) ← modbusMaskWrite coils (modbusBitsToBytes count)
                       (u16 (index + Z.of_nat i)) coil;
      if rc =? 255 then Some (inl coils) else Some (inr coils)) (Some cs)
    = Some (inr (Some cs')) ∧
    length cs' = length cs ∧ bytes cs' ∧
    ∀ j, 0 <= j → mask_bit cs' j =
      if (index <=? j) && (j <? index + Z.of_nat n) then mask_bit values (j - index)
      else mask_bit cs j.
Proof.
  intros Hcs Hc Hl Hi Hn Hlen Hv.
  assert (is_u16 (Z.of_nat n)) as Hu by ulia.
  match goal with |- ∃ _, cloop n 0 ?body ?b0 = _ ∧ _ =>
    destruct (cloop_total
      (λ i b, ∃ m, b = Some m ∧ length m = length cs ∧ bytes m ∧
        ∀ j, 0 <= j → mask_bit m j =
          if (index <=? j) && (j <? index + Z.of_nat i) then mask_bit values (j - index)
          else mask_bit cs j)
      n 0 body b0) as (b & -> & m & -> & Hm & Hb & Hbits)
  end.
  - intros i b Hin (m & -> & Hm & Hb & Hbits).
    rewrite modbusMaskRead_spec, bind_ret, b2z_not_255; [|lia|].
    2: { split; [rewrite <- Hlen; apply bit_in_range; [done|lia]|done]. }
    rewrite u16_id by ulia.
    destruct (modbusMaskWrite_spec m (modbusBitsToBytes count) (index + Z.of_nat i)
      (Z.b2z (mask_bit values (Z.of_nat i)))) as (m' & -> & (v & Hv' & Em') & Hbits');
      [done|lia|split; [apply bit_in_range; [done|lia]|lia]|].
    rewrite bind_ret. eexists. split; [done|]. exists m'.
    split; [done|]. split; [by rewrite Em', length_insert|].
    split; [rewrite Em'; auto with cmem|].
    intros j Hj. rewrite Hbits', Hbits, b2z_nonzero by done.
    destruct (Z.eqb_spec j (index + Z.of_nat i)),
      (Z.leb_spec index j), (Z.ltb_spec j (index + Z.of_nat (i + 1))),
      (Z.ltb_spec j (index + Z.of_nat i)); simpl; try done; try lia; f_equal; lia.
  - exists cs. do 3 (split; [done|]). intros j Hj.
    destruct (Z.leb_spec index j), (Z.ltb_spec j (index + Z.of_nat 0)); try done. lia.
  - exists m. do 3 (split; [done|]). apply Hbits.
Qed.

Section handlers.
Context (alloc : bool) (s : ModbusSlave) (parser : list Z).
Context (Hwf : wf_slave s) (Hreq : frame (request s) = Some parser).
Context (Hlen : 4 <= length_ (request s)) (Hresp : response s = mkFrame None 0).

Lemma parser_bytes : bytes parser.
Proof. destruct (wf_slave_request s Hwf) as [_ H]. by apply (H parser). Qed.

Lemma parser_length : length_ (request s) <= Z.of_nat (length parser).
Proof. destruct (wf_slave_request s Hwf) as [_ H]. by apply (H parser). Qed.

Lemma request_not_empty : frame (request s) ≠ Some [].
Proof.
  rewrite Hreq. intros [= E]. pose proof parser_length as H. rewrite E in H.
  simpl in H. lia.
Qed.

(** Loads inside the announced length succeed. *)
Lemma load8 o : Z.of_nat o < length_ (request s) → ∃ b, parser !! o = Some b ∧ is_u8 b.
Proof.
  intros Ho. pose proof parser_length.
  destruct (lookup_lt_is_Some_2 parser o) as [b Hb]; [lia|].
  exists b. split; [done|]. by apply (bytes_lookup _ _ _ parser_bytes Hb).
Qed.

Lemma load16 o :
  Z.of_nat o + 1 < length_ (request s) → ∃ w, rd16 parser o = Some w ∧ is_u16 w.
Proof.
  intros Ho. pose proof parser_length.
  destruct (rd16_Some parser o) as (lo & hi & _ & _ & E); [lia|].
  eexists. split; [done|]. by apply (rd16_u16 _ _ _ parser_bytes E).
Qed.

Lemma broadcastb_addr a : parser !! 0%nat = Some a → broadcastb s = (a =? 0).
Proof. unfold broadcastb. rewrite Hreq. by destruct parser; intros [= ->]. Qed.

Lemma refuse fn code ferr :
  is_u8 fn → returns (modbusBuildExceptionErr alloc s fn code ferr) (answered s).
Proof.
  intros. apply exception_answered; [done| |done|apply request_not_empty].
  by rewrite Hresp.
Qed.

Lemma alloc_failed :
  returns (Some (MODBUS_ERROR_ALLOC, set_response_frame None s)) (answered s).
Proof.
  do 2 eexists. split; [done|]. apply answered_silent; try done. cbn. by rewrite Hresp.
Qed.

Lemma parse_failed e ferr : returns (Some (e, set_parseError ferr s)) (answered s).
Proof.
  do 2 eexists. split; [done|]. apply answered_silent; try done. cbn. by rewrite Hresp.
Qed.

(** After the registers were written: silence for a broadcast, else an echo
    of the first bytes of the request. *)
Lemma write_done d' builder (reply : Outcome) :
  data_step (data s) d' →
  (∀ a fn, is_u8 a → is_u8 fn → parser !! 0%nat = Some a → parser !! 1%nat = Some fn →
     a ≠ 0 → ∃ p, reply = Some (MODBUS_ERROR_OK,
       set_parseError MODBUS_FERROR_OK
         (set_response (Some (with_crc p)) (Z.of_nat (length p) + 2) (set_data d' s))) ∧
       bytes p ∧ head p = Some (address s) ∧ Z.of_nat (length p) + 2 < 256) →
  returns
    (addr ← parser !! 0%nat;
     if addr =? 0
     then Some (MODBUS_ERROR_OK,
                set_parseError MODBUS_FERROR_OK
                  (set_response_frame (Some builder) (set_data d' s)))
     else reply)
    (answered s).
Proof.
  intros Hd Hreply.
  destruct (load8 0) as (a & Ea & Ha); [lia|]. rewrite Ea, bind_ret.
  destruct (load8 1) as (fn & Efn & Hfn); [lia|]. test.
  - do 2 eexists. split; [done|]. apply answered_done; try done. cbn. by rewrite Hresp.
  - destruct (Hreply a fn) as (p & -> & Hp & Hh & Hl); try done; [lia|].
    do 2 eexists. split; [done|]. apply (answered_reply _ p); try done.
    by rewrite (broadcastb_addr a).
Qed.

Lemma register_write regs i v :
  registers (data s) = Some regs → is_u16 v → is_u16 i → ¬ register_protected (data s) i →
  data_step (data s) (set_registers (Some (<[Z.to_nat i := v]> regs)) (data s)).
Proof.
  intros Hregs Hv Hi Hp. pose proof (wf_slave_data s Hwf) as Hd.
  destruct (wf_registers _ Hd) as [_ Hr]. destruct (Hr _ Hregs) as [Hw Hc].
  apply (data_step_registers _ regs); try done.
  - by apply Forall_insert.
  - apply length_insert.
  - intros j Hj Hpj. apply list_lookup_insert_ne. intros E.
    assert (i = j) as -> by (unfold is_u16 in *; lia). done.
Qed.

Lemma register_lookup regs i :
  registers (data s) = Some regs → is_u16 i → i < registerCount (data s) →
  ∃ v, regs !! Z.to_nat i = Some v ∧ is_u16 v.
Proof.
  intros Hregs Hi Hc. pose proof (wf_slave_data s Hwf) as Hd.
  destruct (wf_registers _ Hd) as [_ Hr]. destruct (Hr _ Hregs) as [Hw Hl].
  destruct (lookup_lt_is_Some_2 regs (Z.to_nat i)) as [v Hv]; [unfold is_u16 in *; lia|].
  exists v. split; [done|]. by apply (words_lookup _ _ _ Hw Hv).
Qed.

Lemma modbusParseRequest06_answered :
  returns (modbusParseRequest06 alloc s parser) (answered s).
Proof.
  unfold modbusParseRequest06. parser_offsets.
  test; [apply refuse; ulia|].
  destruct (load16 2) as (wi & -> & Hwi); [lia|]. rewrite bind_ret.
  destruct (load16 4) as (wv & -> & Hwv); [lia|]. rewrite bind_ret.
  pose proof (modbusMatchEndian_u16 _ Hwi) as Hi.
  pose proof (modbusMatchEndian_u16 _ Hwv) as Hv.
  cbn zeta. test; [rename l into regs, Heqo into Hregs|apply refuse; ulia].
  test; [apply refuse; ulia|].
  edestruct (mask_read (registerMask (data s))) as [pr Hpr]; [apply Hwf|exact Hi|].
  rewrite Hpr, bind_ret. test; [apply refuse; ulia|].
  unfold calloc. destruct alloc; [|apply alloc_failed].
  destruct (register_lookup _ _ Hregs Hi) as (old & -> & _); [lia|]. rewrite bind_ret.
  apply write_done.
  - apply register_write; try done. unfold register_protected. rewrite Hpr. intros [= ->]. done.
  - intros a fn Ha Hfn _ -> Hne. rewrite bind_ret. znat.
    rewrite reply8_frame by (done || apply Hwf).
    exists (address s :: fn :: le16 wi ++ le16 wv). split; [reflexivity|].
    pose proof (wf_address s Hwf). split; [solve_bytes|done].
Qed.

Lemma modbusParseRequest22_answered :
  returns (modbusParseRequest22 alloc s parser) (answered s).
Proof.
  unfold modbusParseRequest22. parser_offsets.
  test; [apply refuse; ulia|].
  destruct (load16 2) as (wi & -> & Hwi); [lia|]. rewrite bind_ret.
  destruct (load16 4) as (wa & -> & Hwa); [lia|]. rewrite bind_ret.
  destruct (load16 6) as (wo & -> & Hwo); [lia|]. rewrite bind_ret.
  pose proof (modbusMatchEndian_u16 _ Hwi) as Hi.
  cbn zeta. test; [rename l into regs, Heqo into Hregs|apply refuse; ulia].
  test; [apply refuse; ulia|].
  edestruct (mask_read (registerMask (data s))) as [pr Hpr]; [apply Hwf|exact Hi|].
  rewrite Hpr, bind_ret. test; [apply refuse; ulia|].
  unfold calloc. destruct alloc; [|apply alloc_failed].
  destruct (register_lookup _ _ Hregs Hi) as (old & -> & _); [lia|]. rewrite bind_ret.
  apply write_done.
  - apply register_write; try done; [apply u16_range|].
    unfold register_protected. rewrite Hpr. intros [= ->]. done.
  - intros a fn Ha Hfn _ -> Hne. rewrite bind_ret. znat.
    rewrite reply10_frame by (done || apply Hwf).
    exists (address s :: fn :: le16 wi ++ le16 wa ++ le16 wo). split; [reflexivity|].
    pose proof (wf_address s Hwf). split; [solve_bytes|done].
Qed.

(** The words of the request from offset [o] on. *)
Lemma request_words o n :
  Z.of_nat o + 2 * Z.of_nat n <= length_ (request s) →
  ∃ ws, length ws = n ∧ words ws ∧
    ∀ j w, ws !! j = Some w → rd16 parser (o + 2 * (0 + j)) = Some w.
Proof.
  induction n as [|n IH]; intros Ho.
  { exists []. split; [done|]. split; [by constructor|]. done. }
  destruct IH as (ws & Hl & Hw & Hr); [lia|].
  destruct (load16 (o + 2 * n)) as (w & Ew & Hu); [lia|].
  exists (ws ++ [w]). rewrite length_app. split; [simpl; lia|].
  split; [apply Forall_app_2; [done|by constructor]|].
  intros j w' Hj. apply lookup_app_Some in Hj as [Hj|[Hge Hj]]; [by apply Hr|].
  apply list_lookup_singleton_Some in Hj as [Hj <-].
  replace (o + 2 * (0 + j))%nat with (o + 2 * n)%nat by lia. done.
Qed.

Lemma modbusParseRequest16_answered :
  returns (modbusParseRequest16 alloc s parser) (answered s).
Proof.
  unfold modbusParseRequest16. parser_offsets.
  test; [apply refuse; ulia|].
  destruct (load8 6) as (len & -> & Hl); [lia|]. rewrite bind_ret.
  test; [apply refuse; ulia|].
  destruct (load16 2) as (wi & -> & Hwi); [lia|]. rewrite bind_ret.
  destruct (load16 4) as (wc & -> & Hwc); [lia|]. rewrite bind_ret.
  pose proof (modbusMatchEndian_u16 _ Hwi) as Hi.
  pose proof (modbusMatchEndian_u16 _ Hwc) as Hc.
  cbn zeta. set (index := modbusMatchEndian wi) in *. set (count := modbusMatchEndian wc) in *.
  test; [apply refuse; ulia|].
  test; [rename l into regs, Heqo into Hregs|apply refuse; ulia].
  test; [apply refuse; ulia|].
  pose proof (wf_slave_data s Hwf) as Hd.
  destruct (wf_registers _ Hd) as [Hn Hr]. destruct (Hr _ Hregs) as [Hw Hlr].
  rewrite Z.shiftr_div_pow2 in Heqb1 by lia. change (2 ^ 1) with 2 in Heqb1.
  assert (count <= 123 ∧ 2 * count <= len ∧ index + count <= registerCount (data s)
          ∧ 9 + len = length_ (request s)) as (Hc123 & Hlen2 & Hrange & Hfl) by ulia.
  destruct (mask_protects_spec (registerMask (data s)) (registerMaskLength (data s)) index
    (Z.to_nat count) 0) as (b & -> & Hb); [apply Hwf|ulia|ulia|].
  rewrite bind_ret. destruct b; [apply refuse; ulia|].
  unfold calloc. destruct alloc; [|apply alloc_failed].
  destruct (request_words 7 (Z.to_nat count)) as (ws & Hws & Hwws & Hload); [ulia|].
  rewrite (write_words_loop _ _ _ _ _ ws); [|done|ulia|done]. rewrite bind_ret.
  apply write_done.
  - apply (data_step_registers _ regs); try done.
    + apply Forall_splice; [|done]. apply Forall_fmap. apply (Forall_impl is_u16); [done|].
      intros w. apply modbusMatchEndian_u16.
    + apply length_splice. rewrite length_fmap. ulia.
    + intros i Hi16 Hp. apply lookup_splice_out; rewrite length_fmap; [ulia|].
      destruct (decide (i < index ∨ index + count <= i)); [ulia|]. exfalso.
      apply (proj1 Hb eq_refl (Z.to_nat (i - index))); [ulia|].
      rewrite Z2Nat.id by lia. replace (index + (i - index)) with i by lia. done.
  - intros a fn Ha Hfn _ -> Hne. rewrite bind_ret. znat.
    rewrite reply8_frame by (done || apply Hwf).
    exists (address s :: fn :: le16 wi ++ le16 wc). split; [reflexivity|].
    pose proof (wf_address s Hwf). split; [solve_bytes|done].
Qed.

(** Answering with the data frame [p]. *)
Lemma read_done p ferr :
  bytes p → head p = Some (address s) → Z.of_nat (length p) + 2 < 256 →
  broadcastb s = false →
  returns (Some (MODBUS_ERROR_OK,
    set_parseError ferr (set_response (Some (with_crc p)) (Z.of_nat (length p) + 2) s)))
    (answered s).
Proof.
  intros Hp Hh Hl Hb. do 2 eexists. split; [done|].
  apply (answered_reply _ p); try done. apply data_step_refl, Hwf.
Qed.

Lemma modbusParseRequest0304_answered :
  returns (modbusParseRequest0304 alloc s parser) (answered s).
Proof.
  unfold modbusParseRequest0304. parser_offsets.
  destruct (load8 1) as (fn & -> & Hfn); [lia|]. rewrite bind_ret.
  test; [apply parse_failed|].
  destruct (load8 0) as (a & Ea & Ha); [lia|]. rewrite Ea, bind_ret.
  test; [apply parse_failed|].
  test; [by apply refuse|].
  destruct (load16 2) as (wi & -> & Hwi); [lia|]. rewrite fmap_ret, bind_ret.
  destruct (load16 4) as (wc & -> & Hwc); [lia|]. rewrite fmap_ret, bind_ret.
  pose proof (modbusMatchEndian_u16 _ Hwi) as Hi.
  pose proof (modbusMatchEndian_u16 _ Hwc) as Hc.
  cbn zeta. set (index := modbusMatchEndian wi) in *. set (count := modbusMatchEndian wc) in *.
  test; [by apply refuse|].
  assert (words_ok (if fn =? 3 then registerCount (data s) else inputRegisterCount (data s))
    (if fn =? 3 then registers (data s) else inputRegisters (data s))) as [Hn Hr].
  { pose proof (wf_slave_data s Hwf) as Hd. destruct (fn =? 3); apply Hd. }
  set (available := if fn =? 3 then _ else inputRegisterCount (data s)) in *.
  test; [rename l into regs, Heqo into Hregs|by apply refuse].
  destruct (Hr regs eq_refl) as [Hw Hlr].
  test; [by apply refuse|].
  assert (0 < count <= 125 ∧ index + count <= available) as [Hc125 Hrange] by ulia.
  rewrite Z.shiftl_mul_pow2 by lia. change (2 ^ 1) with 2.
  unfold calloc. destruct alloc; [|apply alloc_failed].
  rewrite (u8_id (5 + count * 2)) by ulia.
  replace (Z.to_nat (5 + count * 2)) with (3 + (2 * Z.to_nat count + 2))%nat by ulia.
  rewrite header3, !u8_id by (done || ulia || apply Hwf).
  rewrite read_words_loop, bind_ret by (done || ulia).
  rewrite Nat.add_0_r, app_assoc. set (p := _ ++ (_ ≫= be16)).
  assert (length p = (3 + 2 * Z.to_nat count)%nat) as Hlp.
  { unfold p. rewrite length_app, length_be16_list, length_take, length_drop. simpl. ulia. }
  assert (bytes p).
  { pose proof (wf_address s Hwf). apply bytes_app. split; [solve_bytes|].
    by apply bytes_be16_list, Forall_take, Forall_drop. }
  rewrite finish_frame_at by (done || ulia).
  replace (5 + count * 2) with (Z.of_nat (length p) + 2) by ulia.
  apply read_done; try done; [ulia|]. by rewrite (broadcastb_addr a).
Qed.

Lemma modbusParseRequest0102_answered :
  returns (modbusParseRequest0102 alloc s parser) (answered s).
Proof.
  unfold modbusParseRequest0102. parser_offsets.
  destruct (load8 1) as (fn & -> & Hfn); [lia|]. rewrite bind_ret.
  test; [apply parse_failed|].
  destruct (load8 0) as (a & Ea & Ha); [lia|]. rewrite Ea, bind_ret.
  test; [apply parse_failed|]. test; [by apply refuse|].
  destruct (load16 2) as (wi & -> & Hwi); [lia|]. rewrite fmap_ret, bind_ret.
  destruct (load16 4) as (wc & -> & Hwc); [lia|]. rewrite fmap_ret, bind_ret.
  pose proof (modbusMatchEndian_u16 _ Hwi) as Hi.
  pose proof (modbusMatchEndian_u16 _ Hwc) as Hc.
  cbn zeta. set (index := modbusMatchEndian wi) in *. set (count := modbusMatchEndian wc) in *.
  test; [by apply refuse|].
  assert (bits_ok (if fn =? 1 then coilCount (data s) else discreteInputCount (data s))
    (if fn =? 1 then coils (data s) else discreteInputs (data s))) as [Hn Hr].
  { pose proof (wf_slave_data s Hwf) as Hd. destruct (fn =? 1); apply Hd. }
  set (available := if fn =? 1 then _ else discreteInputCount (data s)) in *.
  destruct (if fn =? 1 then coils (data s) else discreteInputs (data s)) as [src|];
    [|by apply refuse].
  destruct (Hr src eq_refl) as [Hw Hlr].
  test; [by apply refuse|].
  assert (0 < count <= 2000 ∧ index + count <= available) as [Hc2000 Hrange] by ulia.
  unfold calloc. destruct alloc; [|apply alloc_failed].
  pose proof (modbusBitsToBytes_spec count Hc) as HN.
  rewrite (u8_id (5 + _)) by ulia.
  replace (Z.to_nat (5 + modbusBitsToBytes count))
    with (3 + (Z.to_nat (modbusBitsToBytes count) + 2))%nat by ulia.
  rewrite header3, !u8_id by (done || ulia || apply Hwf).
  rewrite replicate_add. change (replicate 2 0) with [0; 0].
  rewrite <- (Z2Nat.id count) in * by lia. set (n := Z.to_nat count) in *.
  rewrite Nat2Z.id.
  rewrite read_coils_loop, bind_ret by (done || ulia).
  rewrite app_assoc. set (p := [address s; fn; _] ++ _).
  assert (length p = (3 + Z.to_nat (modbusBitsToBytes (Z.of_nat n)))%nat) as Hlp.
  { unfold p. rewrite length_app, length_pack_bits, length_fmap, length_seq. done. }
  assert (bytes p).
  { pose proof (wf_address s Hwf). apply bytes_app. split; [solve_bytes|auto with cmem]. }
  rewrite finish_frame_at by (done || ulia).
  replace (5 + modbusBitsToBytes (Z.of_nat n)) with (Z.of_nat (length p) + 2) by ulia.
  do 2 eexists. split; [done|]. apply (answered_reply _ p); try done; [|ulia|].
  - apply data_step_refl, Hwf.
  - by rewrite (broadcastb_addr a).
Qed.

Lemma coil_write l l' :
  coils (data s) = Some l → bytes l' → length l' = length l →
  (∀ i, is_u16 i → coil_protected (data s) i → mask_bit l' i = mask_bit l i) →
  data_step (data s) (set_coils (Some l') (data s)).
Proof. intros. apply (data_step_coils _ l); try done. apply Hwf. Qed.

Lemma modbusParseRequest05_answered :
  returns (modbusParseRequest05 alloc s parser) (answered s).
Proof.
  unfold modbusParseRequest05. parser_offsets.
  test; [apply refuse; ulia|].
  destruct (load16 2) as (wi & -> & Hwi); [lia|]. rewrite bind_ret.
  destruct (load16 4) as (wv & -> & Hwv); [lia|]. rewrite bind_ret.
  pose proof (modbusMatchEndian_u16 _ Hwi) as Hi.
  cbn zeta. set (index := modbusMatchEndian wi) in *. set (value := modbusMatchEndian wv) in *.
  test; [apply refuse; ulia|].
  test; [rename l into cs, Heqo into Hcs|apply refuse; ulia].
  test; [apply refuse; ulia|].
  edestruct (mask_read (coilMask (data s))) as [pr Hpr]; [apply Hwf|exact Hi|].
  rewrite Hpr, bind_ret. test; [apply refuse; ulia|].
  unfold calloc. destruct alloc; [|apply alloc_failed].
  pose proof (wf_slave_data s Hwf) as Hd.
  destruct (wf_coils _ Hd) as [Hn Hr]. destruct (Hr _ Hcs) as [Hb Hl].
  cbn [data set_response_frame set_response]. rewrite Hcs.
  destruct (modbusMaskWrite_spec cs (modbusBitsToBytes (coilCount (data s))) index
    (Z.b2z (value =? 65280))) as (cs' & -> & (v & Hv & Ecs) & Hbits); [done|ulia| |].
  { split; [apply bit_in_range; [done|ulia]|done]. }
  rewrite bind_ret. cbn [Z.eqb].
  apply (write_done (set_coils (Some cs') (data s))).
  - apply (coil_write cs); [done|rewrite Ecs; auto with cmem|by rewrite Ecs, length_insert|].
    intros i Hi16 Hp. rewrite Hbits by ulia.
    destruct (Z.eqb_spec i index) as [->|]; [|done].
    unfold coil_protected in Hp. rewrite Hpr in Hp. injection Hp as ->. done.
  - intros a fn Ha Hfn _ -> Hne. rewrite bind_ret. znat.
    cbn [address set_data set_response].
    rewrite reply8_frame by (done || apply Hwf).
    exists (address s :: fn :: le16 wi ++ le16 wv). split; [reflexivity|].
    pose proof (wf_address s Hwf). split; [solve_bytes|done].
Qed.

Lemma modbusParseRequest15_answered :
  returns (modbusParseRequest15 alloc s parser) (answered s).
Proof.
  unfold modbusParseRequest15. parser_offsets.
  test; [apply refuse; ulia|].
  destruct (load8 6) as (len & -> & Hl); [lia|]. rewrite bind_ret.
  test; [apply refuse; ulia|].
  destruct (load16 2) as (wi & -> & Hwi); [lia|]. rewrite bind_ret.
  destruct (load16 4) as (wc & -> & Hwc); [lia|]. rewrite bind_ret.
  pose proof (modbusMatchEndian_u16 _ Hwi) as Hi.
  pose proof (modbusMatchEndian_u16 _ Hwc) as Hc.
  cbn zeta. set (index := modbusMatchEndian wi) in *. set (count := modbusMatchEndian wc) in *.
  test; [apply refuse; ulia|].
  test; [rename l into cs, Heqo into Hcs|apply refuse; ulia].
  test; [apply refuse; ulia|].
  pose proof (wf_slave_data s Hwf) as Hd.
  destruct (wf_coils _ Hd) as [Hn Hr]. destruct (Hr _ Hcs) as [Hb Hlc].
  pose proof (modbusBitsToBytes_spec count Hc) as HN.
  assert (0 < count <= 1968 ∧ modbusBitsToBytes count = len
          ∧ index + count <= coilCount (data s) ∧ 9 + len = length_ (request s))
    as (Hc1968 & Hlen2 & Hrange & Hfl) by ulia.
  destruct (mask_protects_spec (coilMask (data s)) (coilMaskLength (data s)) index
    (Z.to_nat count) 0) as (b & -> & Hpb); [apply Hwf|ulia|ulia|].
  rewrite bind_ret. destruct b; [apply refuse; ulia|].
  unfold calloc. destruct alloc; [|apply alloc_failed].
  cbn [data set_response_frame set_response]. rewrite Hcs.
  pose proof parser_length.
  destruct (write_coils_loop (drop 7 parser) len cs (coilCount (data s)) index
    (Z.to_nat count)) as (cs' & -> & Hl' & Hb' & Hbits);
    try done; [ulia|ulia|by rewrite Z2Nat.id by ulia|rewrite length_drop; lia|].
  rewrite bind_ret.
  apply (write_done (set_coils (Some cs') (data s))).
  - apply (coil_write cs); try done. intros i Hi16 Hp. rewrite Hbits by ulia.
    destruct (Z.leb_spec index i), (Z.ltb_spec i (index + Z.of_nat (Z.to_nat count)));
      try done. exfalso.
    apply (proj1 Hpb eq_refl (Z.to_nat (i - index))); [lia|].
    rewrite Z2Nat.id by lia. replace (index + (i - index)) with i by lia. done.
  - intros a fn Ha Hfn _ -> Hne. rewrite bind_ret. znat.
    cbn [address set_data set_response].
    rewrite reply8_frame by (done || apply Hwf).
    exists (address s :: fn :: le16 wi ++ le16 wc). split; [reflexivity|].
    pose proof (wf_address s Hwf). split; [solve_bytes|done].
Qed.
End handlers.

(** ** Dispatch *)

(** A user function is expected to behave like the built-in handlers. *)
Definition user_functions_ok (fs : list UserFunction) : Prop :=
  ∀ fn handler, find_user_function fs fn = Some (Some handler) →
  ∀ s parser, wf_slave s → frame (request s) = Some parser →
    4 <= length_ (request s) → response s = mkFrame None 0 →
    returns (handler s parser) (answered s).

(** The structure as the handlers see it: the old response is dropped. *)
Definition begin (s : ModbusSlave) : ModbusSlave :=
  set_parseError MODBUS_FERROR_OK (set_response None 0 s).

Lemma begin_wf s : wf_slave s → wf_slave (begin s).
Proof. by intros []. Qed.

Lemma answered_begin s e s' : answered (begin s) e s' → answered s e s'.
Proof. by intros []. Qed.

Lemma returns_impl o (P Q : ModbusError → ModbusSlave → Prop) :
  returns o P → (∀ e s', P e s' → Q e s') → returns o Q.
Proof. intros (e & s1 & Ho & HP) Himp. exists e, s1. auto. Qed.

(** The built-in dispatch, as a case analysis on the function code. *)
Lemma dispatch_cases {A} (fn : Z) (P : A → Prop) (a b c d e f g h : A) :
  ((fn = 1 ∨ fn = 2) → P a) → ((fn = 3 ∨ fn = 4) → P b) → (fn = 5 → P c) → (fn = 6 → P d) →
  (fn = 15 → P e) → (fn = 16 → P f) → (fn = 22 → P g) → P h →
  P (match fn with
     | 1 | 2 => a | 3 | 4 => b | 5 => c | 6 => d | 15 => e | 16 => f | 22 => g | _ => h
     end).
Proof.
  intros. destruct fn as [|p|p]; [done| |done].
  repeat match goal with |- context [match ?q with _ => _ end] => is_var q; destruct q end;
    auto.
Qed.

Lemma modbusParseRequest_answered alloc fs s :
  wf_slave s → user_functions_ok fs →
  returns (modbusParseRequest alloc fs s) (answered s).
Proof.
  intros Hwf Hfs. eapply returns_impl; [|apply answered_begin].
  unfold modbusParseRequest. fold (begin s). pose proof (begin_wf s Hwf) as Hwf0.
  assert (response (begin s) = mkFrame None 0) as Hresp by done.
  change (request (set_response None 0 s)) with (request (begin s)).
  cbv zeta. fold (begin s). set (s0 := begin s) in *. clearbody s0. clear Hwf.
  destruct (frame (request s0)) as [parser|] eqn:Hreq; [|by apply parse_failed].
  test; [by apply parse_failed|]. rename Heqb into Hlen. apply Z.ltb_ge in Hlen.
  pose proof (parser_length s0 parser Hwf0 Hreq) as Hpl.
  destruct (wf_slave_request _ Hwf0) as [Hu8 _].
  destruct (load16 s0 parser Hwf0 Hreq (Z.to_nat (length_ (request s0) - 2)))
    as (crc & -> & _); [lia|]. rewrite bind_ret.
  rewrite modbusCRC_spec, bind_ret by (rewrite u16_id; ulia).
  test; [by apply parse_failed|].
  destruct (load8 s0 parser Hwf0 Hreq 0) as (a & Ea & _); [lia|].
  destruct (load8 s0 parser Hwf0 Hreq 1) as (fn & Efn & Hfn); [lia|].
  parser_offsets. rewrite Ea, bind_ret. test.
  { do 2 eexists. split; [done|]. apply answered_silent; try done. by rewrite Hresp. }
  rewrite Efn, bind_ret.
  destruct (find_user_function fs fn) as [[handler|]|] eqn:Ef.
  - by apply (Hfs fn).
  - by apply (refuse alloc s0 parser).
  - apply (dispatch_cases fn (λ o, returns o (answered s0))); intros.
    + by apply modbusParseRequest0102_answered.
    + by apply modbusParseRequest0304_answered.
    + by apply modbusParseRequest05_answered.
    + by apply modbusParseRequest06_answered.
    + by apply modbusParseRequest15_answered.
    + by apply modbusParseRequest16_answered.
    + by apply modbusParseRequest22_answered.
    + by apply (refuse alloc s0 parser).
Qed.
