(* ===== verification/ModbusPdu.v ===== *)
(** * ModbusPdu: the Modbus requests, independent of their frames.

    The abstract side of the protocol that [ModbusSlave] and [ModbusMaster]
    implement: the requests, their frames on the wire, the reply each deserves
    ([serve]) and the state a slave is left in ([deliver]).  The numeric limits
    are those of the handlers of [sregs.c] and [scoils.c]. *)
From S2P Require Import Prelude.
From S2P Require Import Lightmodbus.
From S2P Require Import ModbusSlave.
From S2P Require Import ModbusSlaveSafety.

(** ** Requests and their frames *)

Inductive Request :=
  | ReadCoils (discrete : bool) (index count : Z)
  | ReadRegisters (input : bool) (index count : Z)
  | WriteCoil (index : Z) (on : bool)
  | WriteRegister (index value : Z)
  | WriteCoils (index : Z) (bits : list bool)
  | WriteRegisters (index : Z) (values : list Z)
  | MaskWrite (index andmask ormask : Z).

Definition function_code (r : Request) : Z :=
  match r with
  | ReadCoils discrete _ _ => if discrete then 2 else 1
  | ReadRegisters input _ _ => if input then 4 else 3
  | WriteCoil _ _ => 5
  | WriteRegister _ _ => 6
  | WriteCoils _ _ => 15
  | WriteRegisters _ _ => 16
  | MaskWrite _ _ _ => 22
  end.

Definition coil_word (on : bool) : Z := if on then 0xFF00 else 0.

Definition request_body (r : Request) : list Z :=
  match r with
  | ReadCoils _ i n | ReadRegisters _ i n => be16 i ++ be16 n
  | WriteCoil i on => be16 i ++ be16 (coil_word on)
  | WriteRegister i v => be16 i ++ be16 v
  | WriteCoils i bits =>
      be16 i ++ be16 (Z.of_nat (length bits)) ++
      [modbusBitsToBytes (Z.of_nat (length bits))] ++ pack_bits bits
  | WriteRegisters i vs =>
      be16 i ++ be16 (Z.of_nat (length vs)) ++ [2 * Z.of_nat (length vs)] ++ (vs ≫= be16)
  | MaskWrite i a o => be16 i ++ be16 a ++ be16 o
  end.

Definition encode_request (addr : Z) (r : Request) : list Z :=
  with_crc (addr :: function_code r :: request_body r).

(** The fields fit their width; the multiple writes fit a frame. *)
Definition wf_request (r : Request) : Prop :=
  match r with
  | ReadCoils _ i n | ReadRegisters _ i n => is_u16 i ∧ is_u16 n
  | WriteCoil i _ => is_u16 i
  | WriteRegister i v => is_u16 i ∧ is_u16 v
  | WriteCoils i bits => is_u16 i ∧ (0 < length bits <= 1968)%nat
  | WriteRegisters i vs => is_u16 i ∧ (0 < length vs <= 123)%nat ∧ words vs
  | MaskWrite i a o => is_u16 i ∧ is_u16 a ∧ is_u16 o
  end.

Definition is_read (r : Request) : bool :=
  match r with ReadCoils _ _ _ | ReadRegisters _ _ _ => true | _ => false end.

(** ** What a slave does *)

Inductive Answer :=
  | Accepted (body : list Z) (d : SlaveData)
  | Refused (code : ModbusExceptionCode) (ferr : ModbusFrameError).

(** Whether register (coil) [i] may not be written. *)
Definition register_locked (d : SlaveData) (i : Z) : bool :=
  bool_decide (register_protected d i).
Definition coil_locked (d : SlaveData) (i : Z) : bool :=
  bool_decide (coil_protected d i).

Definition any_locked (locked : Z → bool) (i : Z) (n : nat) : bool :=
  existsb (λ j, locked (i + Z.of_nat j)) (seq 0 n).

(** The coil memory with bits [i ...] replaced by [bits]. *)
Definition write_bits (i : Z) (bits : list bool) (cs : list Z) : list Z :=
  tabulate_bits (length cs) (λ j,
    if (i <=? j) && (j <? i + Z.of_nat (length bits))
    then default false (bits !! Z.to_nat (j - i)) else mask_bit cs j).

Definition serve (d : SlaveData) (r : Request) : Answer :=
  match r with
  | ReadCoils discrete i n =>
      if (n =? 0) || (2000 <? n) then Refused MODBUS_EXCEP_ILLEGAL_VALUE MODBUS_FERROR_COUNT
      else match (if discrete then discreteInputs d else coils d) with
      | None => Refused MODBUS_EXCEP_ILLEGAL_ADDRESS MODBUS_FERROR_NOSRC
      | Some src =>
          if (if discrete then discreteInputCount d else coilCount d) <? i + n
          then Refused MODBUS_EXCEP_ILLEGAL_ADDRESS MODBUS_FERROR_RANGE
          else Accepted (modbusBitsToBytes n ::
                 pack_bits ((λ j, mask_bit src (i + Z.of_nat j)) <$> seq 0 (Z.to_nat n))) d
      end
  | ReadRegisters input i n =>
      if (n =? 0) || (125 <? n) then Refused MODBUS_EXCEP_ILLEGAL_VALUE MODBUS_FERROR_COUNT
      else match (if input then inputRegisters d else registers d) with
      | None => Refused MODBUS_EXCEP_ILLEGAL_ADDRESS MODBUS_FERROR_NOSRC
      | Some regs =>
          if (if input then inputRegisterCount d else registerCount d) <? i + n
          then Refused MODBUS_EXCEP_ILLEGAL_ADDRESS MODBUS_FERROR_RANGE
          else Accepted (2 * n :: (take (Z.to_nat n) (drop (Z.to_nat i) regs) ≫= be16)) d
      end
  | WriteCoil i on =>
      match coils d with
      | None => Refused MODBUS_EXCEP_ILLEGAL_ADDRESS MODBUS_FERROR_NOSRC
      | Some cs =>
          if coilCount d <=? i then Refused MODBUS_EXCEP_ILLEGAL_ADDRESS MODBUS_FERROR_RANGE
          else if coil_locked d i then Refused MODBUS_EXCEP_SLAVE_FAILURE MODBUS_FERROR_NOWRITE
          else Accepted (be16 i ++ be16 (coil_word on))
                 (set_coils (Some (write_bits i [on] cs)) d)
      end
  | WriteRegister i v =>
      match registers d with
      | None => Refused MODBUS_EXCEP_ILLEGAL_ADDRESS MODBUS_FERROR_RANGE
      | Some regs =>
          if registerCount d <=? i then Refused MODBUS_EXCEP_ILLEGAL_ADDRESS MODBUS_FERROR_RANGE
          else if register_locked d i
          then Refused MODBUS_EXCEP_SLAVE_FAILURE MODBUS_FERROR_NOWRITE
          else Accepted (be16 i ++ be16 v) (set_registers (Some (<[Z.to_nat i := v]> regs)) d)
      end
  | WriteCoils i bits =>
      match coils d with
      | None => Refused MODBUS_EXCEP_ILLEGAL_ADDRESS MODBUS_FERROR_NOSRC
      | Some cs =>
          if coilCount d <? i + Z.of_nat (length bits)
          then Refused MODBUS_EXCEP_ILLEGAL_ADDRESS MODBUS_FERROR_RANGE
          else if any_locked (coil_locked d) i (length bits)
          then Refused MODBUS_EXCEP_SLAVE_FAILURE MODBUS_FERROR_NOWRITE
          else Accepted (be16 i ++ be16 (Z.of_nat (length bits)))
                 (set_coils (Some (write_bits i bits cs)) d)
      end
  | WriteRegisters i vs =>
      match registers d with
      | None => Refused MODBUS_EXCEP_ILLEGAL_ADDRESS MODBUS_FERROR_NOSRC
      | Some regs =>
          if registerCount d <? i + Z.of_nat (length vs)
          then Refused MODBUS_EXCEP_ILLEGAL_ADDRESS MODBUS_FERROR_RANGE
          else if any_locked (register_locked d) i (length vs)
          then Refused MODBUS_EXCEP_SLAVE_FAILURE MODBUS_FERROR_NOWRITE
          else Accepted (be16 i ++ be16 (Z.of_nat (length vs)))
                 (set_registers (Some (splice (Z.to_nat i) vs regs)) d)
      end
  | MaskWrite i a o =>
      match registers d with
      | None => Refused MODBUS_EXCEP_ILLEGAL_ADDRESS MODBUS_FERROR_NOSRC
      | Some regs =>
          if registerCount d <=? i then Refused MODBUS_EXCEP_ILLEGAL_ADDRESS MODBUS_FERROR_RANGE
          else if register_locked d i
          then Refused MODBUS_EXCEP_SLAVE_FAILURE MODBUS_FERROR_NOWRITE
          else
            let v := default 0 (regs !! Z.to_nat i) in
            Accepted (be16 i ++ be16 a ++ be16 o)
              (set_registers (Some (<[Z.to_nat i :=
                 Z.lor (Z.land v a) (Z.ldiff o a)]> regs)) d)
      end
  end.

(** How the answer to a request sent to [addr] is delivered: the new data, and
    the exception or reply frame unless all slaves were addressed. *)
Definition conclude (alloc : bool) (s : ModbusSlave) (addr fn : Z) (a : Answer)
    : ModbusError * ModbusSlave :=
  match a with
  | Refused code ferr => exception_outcome alloc s fn code ferr
  | Accepted body d =>
      if negb alloc then (MODBUS_ERROR_ALLOC, set_response_frame None s)
      else if addr =? 0 then
        (MODBUS_ERROR_OK, set_response (Some (replicate (length body + 4) 0)) 0 (set_data d s))
      else
        (MODBUS_ERROR_OK,
         set_response (Some (with_crc (address s :: fn :: body)))
           (Z.of_nat (length body) + 4) (set_data d s))
  end.

(** The state of the slave [s] after the request [r], sent to [addr]. *)
Definition deliver (alloc : bool) (s : ModbusSlave) (addr : Z) (r : Request)
    : ModbusError * ModbusSlave :=
  let s := begin s in
  if is_read r && (addr =? 0)
  then (MODBUS_ERROR_PARSE, set_parseError MODBUS_FERROR_BROADCAST s)
  else conclude alloc s addr (function_code r) (serve (data s) r).
