(* ===== verification/ModbusRefinement.v ===== *)
(** * ModbusRefinement: the slave implements the abstract requests.

    Each handler of [sregs.c] and [scoils.c], run on the frame of a request,
    computes exactly [deliver]: the state and the reply frame that [ModbusPdu]
    specifies; [modbusParseRequest] therefore refines [serve]. *)
From S2P Require Import Prelude.
From S2P Require Import Lightmodbus.
From S2P Require Import ModbusSlave.
From S2P Require Import ModbusSlaveSafety.
From S2P Require Import ModbusPdu.

(** Loading a big-endian word gives the word in host order. *)
Lemma rd16_be16 pre w suf :
  is_u16 w → rd16 (pre ++ be16 w ++ suf) (length pre) = Some (modbusMatchEndian w).
Proof.
  intros Hw. unfold rd16.
  rewrite (lookup_app_r pre _ (length pre)), Nat.sub_diag by lia.
  rewrite (lookup_app_r pre _ (S (length pre))) by lia.
  replace (S (length pre) - length pre)%nat with 1%nat by lia.
  unfold modbusMatchEndian. rewrite modbusSwapEndian_spec by done.
  simpl. f_equal. lia.
Qed.

Lemma request_body_bytes r : wf_request r → bytes (request_body r).
Proof.
  destruct r as [? i n|? i n|i on|i v|i bits|i vs|i a o]; cbn [request_body wf_request].
  - intros [??]. solve_bytes.
  - intros [??]. solve_bytes.
  - intros ?. destruct on; cbn [coil_word]; solve_bytes.
  - intros [??]. solve_bytes.
  - intros [? ?].
    assert (is_u16 (Z.of_nat (length bits))) as Hl by (unfold is_u16; lia).
    pose proof (modbusBitsToBytes_spec _ Hl).
    repeat (apply bytes_app; split); auto with cmem. solve_bytes.
  - intros (? & ? & ?).
    repeat (apply bytes_app; split); [by apply be16_bytes|apply be16_bytes; unfold is_u16; lia| |].
    + solve_bytes.
    + by apply bytes_be16_list.
  - intros (? & ? & ?). solve_bytes.
Qed.

Lemma function_code_u8 r : is_u8 (function_code r).
Proof. unfold is_u8. destruct r as [[]|[]| | | | |]; simpl; lia. Qed.

Lemma length_with_crc p : length (with_crc p) = (length p + 2)%nat.
Proof. unfold with_crc. rewrite length_app. done. Qed.

Section refinement.
Context (alloc : bool) (s : ModbusSlave) (addr : Z).
Context (Hwf : wf_slave s) (Hresp : response s = mkFrame None 0).
Context (Hperr : parseError s = MODBUS_FERROR_OK) (Haddr : is_u8 addr).

(** The request in the slave structure is the frame of [r]. *)
Definition holds_request (r : Request) : Prop :=
  request s = mkFrame (Some (encode_request addr r))
                      (Z.of_nat (length (encode_request addr r))).

Lemma refuse_spec r fn code ferr :
  holds_request r → is_u8 fn →
  modbusBuildExceptionErr alloc s fn code ferr =
  Some (conclude alloc s addr fn (Refused code ferr)).
Proof.
  intros Hr Hfn. apply modbusBuildExceptionErr_spec; [apply Hwf|done|].
  rewrite Hr. cbn. unfold encode_request, with_crc. done.
Qed.

Lemma request_length r :
  holds_request r → length_ (request s) = Z.of_nat (length (request_body r)) + 4.
Proof.
  intros ->. cbn [length_]. unfold encode_request. rewrite length_with_crc. simpl. lia.
Qed.

(** The address and the function code of the frame. *)
Lemma parser_addr r : encode_request addr r !! 0%nat = Some addr.
Proof. done. Qed.

Lemma parser_function r : encode_request addr r !! 1%nat = Some (function_code r).
Proof. done. Qed.

(** A big-endian field of the body. *)
Lemma parser_word r o pre w suf :
  request_body r = pre ++ be16 w ++ suf → o = (2 + length pre)%nat → is_u16 w →
  rd16 (encode_request addr r) o = Some (modbusMatchEndian w).
Proof.
  intros Hb -> Hw. unfold encode_request, with_crc. rewrite Hb.
  set (c := crc_of _). clearbody c.
  change (addr :: function_code r :: pre ++ be16 w ++ suf)
    with ((addr :: function_code r :: pre) ++ be16 w ++ suf).
  rewrite <- !app_assoc.
  by apply (rd16_be16 (addr :: function_code r :: pre)).
Qed.

Lemma parseError_ok f n d :
  set_parseError MODBUS_FERROR_OK (set_response f n (set_data d s)) =
  set_response f n (set_data d s).
Proof. unfold set_parseError, set_response, set_data. cbn. by rewrite Hperr. Qed.

(** The end of a write: silence for a broadcast, else an 8-byte echo. *)
Lemma echo8_spec d fn w1 w2 :
  is_u8 fn → is_u16 w1 → is_u16 w2 → alloc = true →
  (if addr =? 0
   then Some (MODBUS_ERROR_OK,
     set_parseError MODBUS_FERROR_OK (set_response_frame (Some (replicate 8 0)) (set_data d s)))
   else
     f ← st8 (replicate 8 0) 0 (address s); f ← st8 f 1 fn;
     f ← st16 f 2 (modbusMatchEndian w1); f ← st16 f 4 (modbusMatchEndian w2);
     crc ← modbusCRC (Some f) 6; f ← st16 f 6 crc;
     Some (MODBUS_ERROR_OK, set_parseError MODBUS_FERROR_OK
       (set_response (Some f) 8 (set_response_frame (Some (replicate 8 0)) (set_data d s)))))
  = Some (conclude alloc s addr fn (Accepted (be16 w1 ++ be16 w2) d)).
Proof.
  intros Hfn H1 H2 ->. unfold conclude. cbn [negb].
  destruct (addr =? 0).
  - unfold set_response_frame. cbn [response set_data]. rewrite Hresp. cbn [length_].
    by rewrite parseError_ok.
  - rewrite reply8_frame by (done || apply Hwf || auto with cmem).
    rewrite !le16_swap by done. unfold set_response_frame.
    change (set_response ?f ?n (set_response _ _ ?x)) with (set_response f n x).
    by rewrite parseError_ok.
Qed.

Lemma register_index regs i :
  registers (data s) = Some regs → is_u16 i → i < registerCount (data s) →
  ∃ v, regs !! Z.to_nat i = Some v ∧ is_u16 v.
Proof. apply register_lookup. done. Qed.

(** The protection test of a single write. *)
Lemma locked_spec mask len i :
  mask_ok len mask → is_u16 i →
  ∃ v, modbusMaskRead mask len i = Some v ∧
    (v =? 1) = bool_decide (modbusMaskRead mask len i = Some 1).
Proof.
  intros Hm Hi. destruct (mask_read _ _ i Hm Hi) as [v Hv]. exists v. split; [done|].
  rewrite Hv. destruct (Z.eqb_spec v 1) as [->|Hne]; symmetry.
  - by apply bool_decide_eq_true.
  - apply bool_decide_eq_false. congruence.
Qed.

(** The same for a 10-byte echo. *)
Lemma echo10_spec d fn w1 w2 w3 :
  is_u8 fn → is_u16 w1 → is_u16 w2 → is_u16 w3 → alloc = true →
  (if addr =? 0
   then Some (MODBUS_ERROR_OK,
     set_parseError MODBUS_FERROR_OK (set_response_frame (Some (replicate 10 0)) (set_data d s)))
   else
     f ← st8 (replicate 10 0) 0 (address s); f ← st8 f 1 fn;
     f ← st16 f 2 (modbusMatchEndian w1); f ← st16 f 4 (modbusMatchEndian w2);
     f ← st16 f 6 (modbusMatchEndian w3);
     crc ← modbusCRC (Some f) 8; f ← st16 f 8 crc;
     Some (MODBUS_ERROR_OK, set_parseError MODBUS_FERROR_OK
       (set_response (Some f) 10 (set_response_frame (Some (replicate 10 0)) (set_data d s)))))
  = Some (conclude alloc s addr fn (Accepted (be16 w1 ++ be16 w2 ++ be16 w3) d)).
Proof.
  intros Hfn H1 H2 H3 ->. unfold conclude. cbn [negb].
  destruct (addr =? 0).
  - unfold set_response_frame. cbn [response set_data]. rewrite Hresp. cbn [length_].
    by rewrite parseError_ok.
  - rewrite reply10_frame by (done || apply Hwf || auto with cmem).
    rewrite !le16_swap by done. unfold set_response_frame.
    change (set_response ?f ?n (set_response _ _ ?x)) with (set_response f n x).
    by rewrite parseError_ok.
Qed.

(** The protection test of a multiple write. *)
Lemma any_locked_spec mask len i n :
  mask_ok len mask → 0 <= i → i + Z.of_nat n <= 65536 →
  mask_protects mask len i n 0 =
  Some (any_locked (λ j, bool_decide (modbusMaskRead mask len j = Some 1)) i n).
Proof.
  intros Hm Hi Hn.
  destruct (mask_protects_spec mask len i n 0 Hm Hi) as (b & -> & Hb); [lia|].
  f_equal. unfold any_locked. destruct (existsb _ _) eqn:E.
  - apply existsb_exists in E as (j & Hj%in_seq & Hl%bool_decide_eq_true).
    destruct b; [done|]. exfalso. apply (proj1 Hb eq_refl j); [lia|done].
  - apply Hb. intros j Hj Hl. rewrite <- not_true_iff_false in E. apply E.
    apply existsb_exists. exists j. rewrite in_seq. split; [lia|].
    by apply bool_decide_eq_true.
Qed.

Lemma modbusParseRequest06_spec i v :
  let r := WriteRegister i v in
  holds_request r → wf_request r →
  modbusParseRequest06 alloc s (encode_request addr r) =
  Some (conclude alloc s addr 6 (serve (data s) r)).
Proof.
  intros r Hr [Hi Hv]. unfold modbusParseRequest06. parser_offsets.
  rewrite (request_length _ Hr). cbn [request_body r be16 app length Z.of_nat Z.add Z.eqb negb].
  rewrite (parser_word r 2 [] i (be16 v)), bind_ret by done.
  rewrite (parser_word r 4 (be16 i) v []), bind_ret by done.
  cbn zeta. rewrite !modbusMatchEndian_involutive by done. cbn [serve r].
  destruct (registers (data s)) as [regs|] eqn:Hregs; [|by apply (refuse_spec r)].
  destruct (Z.leb_spec (registerCount (data s)) i); [by apply (refuse_spec r)|].
  destruct (locked_spec (registerMask (data s)) (registerMaskLength (data s)) i)
    as (p & Hp & Hlock); [apply Hwf|done|].
  rewrite Hp, bind_ret, Hlock. fold (register_protected (data s) i).
  change (bool_decide _) with (register_locked (data s) i).
  destruct (register_locked (data s) i); [by apply (refuse_spec r)|].
  unfold calloc. destruct alloc eqn:Ealloc; [|done].
  destruct (register_index regs i) as (old & -> & _); [done..|]. rewrite bind_ret.
  rewrite parser_addr, bind_ret, parser_function, bind_ret.
  rewrite <- Ealloc. by apply echo8_spec.
Qed.

Lemma modbusParseRequest22_spec i a o :
  let r := MaskWrite i a o in
  holds_request r → wf_request r →
  modbusParseRequest22 alloc s (encode_request addr r) =
  Some (conclude alloc s addr 22 (serve (data s) r)).
Proof.
  intros r Hr (Hi & Ha & Ho). unfold modbusParseRequest22. parser_offsets.
  rewrite (request_length _ Hr). cbn [request_body r be16 app length Z.of_nat Z.add Z.eqb negb].
  rewrite (parser_word r 2 [] i (be16 a ++ be16 o)), bind_ret by done.
  rewrite (parser_word r 4 (be16 i) a (be16 o)), bind_ret by done.
  rewrite (parser_word r 6 (be16 i ++ be16 a) o []), bind_ret by done.
  cbn zeta. rewrite !modbusMatchEndian_involutive by done. cbn [serve r].
  destruct (registers (data s)) as [regs|] eqn:Hregs; [|by apply (refuse_spec r)].
  destruct (Z.leb_spec (registerCount (data s)) i); [by apply (refuse_spec r)|].
  destruct (locked_spec (registerMask (data s)) (registerMaskLength (data s)) i)
    as (p & Hp & Hlock); [apply Hwf|done|].
  rewrite Hp, bind_ret, Hlock. fold (register_protected (data s) i).
  change (bool_decide _) with (register_locked (data s) i).
  destruct (register_locked (data s) i); [by apply (refuse_spec r)|].
  unfold calloc. destruct alloc eqn:Ealloc; [|done].
  destruct (register_index regs i) as (v & Hv & Hvu); [done..|]. rewrite Hv, bind_ret.
  rewrite parser_addr, bind_ret, parser_function, bind_ret.
  rewrite <- Ealloc, <- Z.ldiff_land. cbn [default from_option id].
  rewrite u16_id; [by apply echo10_spec|].
  apply (lor_bound _ _ 16); [lia|..|rewrite Z.ldiff_land]; by apply land_bound.
Qed.

Lemma modbusParseRequest16_spec i vs :
  let r := WriteRegisters i vs in
  holds_request r → wf_request r →
  modbusParseRequest16 alloc s (encode_request addr r) =
  Some (conclude alloc s addr 16 (serve (data s) r)).
Proof.
  intros r Hr (Hi & Hn & Hvs). unfold modbusParseRequest16. parser_offsets.
  set (n := Z.of_nat (length vs)). assert (is_u16 n) as Hnu by (unfold n, is_u16; lia).
  assert (length_ (request s) = 9 + 2 * n) as ->.
  { rewrite (request_length _ Hr). cbn [request_body r].
    rewrite !length_app, length_be16_list. simpl. lia. }
  rewrite (proj2 (Z.leb_le 7 _)) by lia. cbn [negb].
  assert (encode_request addr r !! 6%nat = Some (2 * n)) as -> by done.
  rewrite bind_ret, u8_id by (unfold is_u8; lia). rewrite Z.eqb_refl. cbn [negb].
  rewrite (parser_word r 2 [] i (be16 n ++ [2 * n] ++ (vs ≫= be16))), bind_ret by done.
  rewrite (parser_word r 4 (be16 i) n ([2 * n] ++ (vs ≫= be16))), bind_ret by done.
  cbn zeta. rewrite !modbusMatchEndian_involutive by done. cbn [serve r].
  replace (Z.shiftr (2 * n) 1) with n by (rewrite Z.shiftr_div_pow2 by lia; ulia).
  rewrite Z.eqb_refl. do 2 (rewrite (proj2 (Z.eqb_neq _ 0)) by lia).
  rewrite (proj2 (Z.ltb_ge 123 n)) by lia. cbn [negb orb].
  destruct (registers (data s)) as [regs|] eqn:Hregs; [|by apply (refuse_spec r)].
  fold n. replace (u32 (i + n)) with (i + n) by ulia.
  destruct (Z.ltb_spec (registerCount (data s)) (i + n)).
  { rewrite orb_true_r. by apply (refuse_spec r). }
  rewrite (proj2 (Z.leb_gt _ i)) by lia. cbn [orb]. unfold n. rewrite Nat2Z.id.
  destruct (wf_registers _ (wf_slave_data s Hwf)) as [Hc Hw].
  destruct (Hw regs Hregs) as [Hwords Hlr].
  rewrite any_locked_spec, bind_ret by (apply Hwf || ulia).
  change (λ j, bool_decide (modbusMaskRead _ _ j = _)) with (register_locked (data s)).
  destruct (any_locked _ i (length vs)); [by apply (refuse_spec r)|].
  unfold calloc. destruct alloc eqn:Ealloc; [|done].
  rewrite (write_words_loop _ _ _ _ _ (modbusMatchEndian <$> vs));
    [|apply length_fmap|ulia|]; cycle 1.
  { intros j w Hj. apply list_lookup_fmap_Some in Hj as (v & -> & Hj).
    apply (parser_word r _ (be16 i ++ be16 n ++ [2 * n] ++ (take j vs ≫= be16)) v
             (drop (S j) vs ≫= be16)).
    - cbn [request_body r]. fold n. rewrite <- !app_assoc. do 3 f_equal.
      rewrite <- (take_drop_middle vs j v) at 1 by done.
      by rewrite bind_app, bind_cons, app_assoc.
    - rewrite !length_app, length_be16_list, length_take. apply lookup_lt_Some in Hj.
      simpl. lia.
    - by apply (words_lookup _ _ _ Hvs Hj). }
  rewrite bind_ret, Nat.add_0_r, <- list_fmap_compose.
  rewrite (list_fmap_ext _ id), list_fmap_id.
  2: { intros ? v Hv. apply modbusMatchEndian_involutive, (words_lookup _ _ _ Hvs Hv). }
  rewrite parser_addr, bind_ret, parser_function, bind_ret.
  rewrite <- Ealloc. by apply echo8_spec.
Qed.

(** The end of a read: the frame with the payload [body]. *)
Lemma payload_spec fn body :
  is_u8 fn → addr ≠ 0 → bytes body →
  set_response (Some (with_crc (address s :: fn :: body))) (Z.of_nat (length body) + 4) s =
  snd (conclude true s addr fn (Accepted body (data s))).
Proof.
  intros ? Ha%Z.eqb_neq ?. unfold conclude. rewrite Ha. by destruct s.
Qed.

Lemma modbusParseRequest0304_spec input i n :
  let r := ReadRegisters input i n in
  holds_request r → wf_request r → addr ≠ 0 →
  modbusParseRequest0304 alloc s (encode_request addr r) =
  Some (conclude alloc s addr (function_code r) (serve (data s) r)).
Proof.
  intros r Hr [Hi Hn] Hne. unfold modbusParseRequest0304. parser_offsets.
  rewrite parser_function, bind_ret, parser_addr, bind_ret.
  pose proof (function_code_u8 r) as Hfn.
  assert (negb (function_code r =? 3) && negb (function_code r =? 4) = false) as ->
    by (by destruct input).
  rewrite (proj2 (Z.eqb_neq addr 0)) by done.
  assert (length_ (request s) = 8) as -> by (by rewrite (request_length _ Hr)).
  cbn [Z.eqb negb].
  rewrite (parser_word r 2 [] i (be16 n)), fmap_ret, bind_ret by done.
  rewrite (parser_word r 4 (be16 i) n []), fmap_ret, bind_ret by done.
  rewrite !modbusMatchEndian_involutive by done. cbn zeta. cbn [serve r].
  destruct ((n =? 0) || (125 <? n)) eqn:Hcount; [by apply (refuse_spec r)|].
  assert (0 < n <= 125) as Hn125 by ulia.
  assert ((function_code r =? 3) = negb input) as Hsel by (by destruct input).
  rewrite Hsel. fold r.
  replace (if negb input then registers (data s) else inputRegisters (data s))
    with (if input then inputRegisters (data s) else registers (data s)) by (by destruct input).
  replace (if negb input then registerCount (data s) else inputRegisterCount (data s))
    with (if input then inputRegisterCount (data s) else registerCount (data s))
    by (by destruct input).
  assert (words_ok (if input then inputRegisterCount (data s) else registerCount (data s))
    (if input then inputRegisters (data s) else registers (data s))) as [Hc Hw].
  { pose proof (wf_slave_data s Hwf) as Hd. destruct input; apply Hd. }
  set (available := if input then _ else registerCount (data s)) in *.
  destruct (if input then inputRegisters (data s) else registers (data s)) as [regs|];
    [|by apply (refuse_spec r)].
  destruct (Hw regs eq_refl) as [Hwords Hlr].
  replace (u32 (i + n)) with (i + n) by ulia.
  destruct (Z.ltb_spec available (i + n)).
  { rewrite orb_true_r. by apply (refuse_spec r). }
  rewrite (proj2 (Z.leb_gt _ i)) by lia. cbn [orb].
  rewrite Z.shiftl_mul_pow2 by lia. change (2 ^ 1) with 2. rewrite (Z.mul_comm n 2).
  rewrite (u8_id (5 + 2 * n)) by ulia.
  unfold calloc. destruct alloc; [|done].
  replace (Z.to_nat (5 + 2 * n)) with (3 + (2 * Z.to_nat n + 2))%nat by ulia.
  rewrite header3, !u8_id by (done || ulia || apply Hwf).
  rewrite read_words_loop, bind_ret by (done || ulia).
  rewrite Nat.add_0_r, app_assoc. set (ws := take _ _).
  assert (length ws = Z.to_nat n) as Hlw.
  { unfold ws. rewrite length_take, length_drop. ulia. }
  assert (bytes (ws ≫= be16)) by (by apply bytes_be16_list, Forall_take, Forall_drop).
  rewrite finish_frame_at.
  - f_equal. unfold set_parseError. rewrite <- Hperr.
    replace (5 + 2 * n) with (Z.of_nat (length (2 * n :: (ws ≫= be16))) + 4)
      by (cbn [length]; rewrite length_be16_list; ulia).
    rewrite (surjective_pairing (conclude _ _ _ _ _)), <- payload_spec; try done.
    + unfold conclude. rewrite (proj2 (Z.eqb_neq addr 0)) by done. by destruct s.
    + constructor; [ulia|done].
  - pose proof (wf_address s Hwf). apply bytes_app. split; [solve_bytes|done].
  - rewrite length_app, length_be16_list, Hlw. cbn [length]. ulia.
  - rewrite length_app, length_be16_list, Hlw. cbn [length]. ulia.
  - ulia.
Qed.

Lemma modbusParseRequest0102_spec discrete i n :
  let r := ReadCoils discrete i n in
  holds_request r → wf_request r → addr ≠ 0 →
  modbusParseRequest0102 alloc s (encode_request addr r) =
  Some (conclude alloc s addr (function_code r) (serve (data s) r)).
Proof.
  intros r Hr [Hi Hn] Hne. unfold modbusParseRequest0102. parser_offsets.
  rewrite parser_function, bind_ret, parser_addr, bind_ret.
  pose proof (function_code_u8 r) as Hfn.
  assert (negb (function_code r =? 1) && negb (function_code r =? 2) = false) as ->
    by (by destruct discrete).
  rewrite (proj2 (Z.eqb_neq addr 0)) by done.
  assert (length_ (request s) = 8) as -> by (by rewrite (request_length _ Hr)).
  cbn [Z.eqb negb].
  rewrite (parser_word r 2 [] i (be16 n)), fmap_ret, bind_ret by done.
  rewrite (parser_word r 4 (be16 i) n []), fmap_ret, bind_ret by done.
  rewrite !modbusMatchEndian_involutive by done. cbn zeta. cbn [serve r].
  destruct ((n =? 0) || (2000 <? n)) eqn:Hcount; [by apply (refuse_spec r)|].
  assert (0 < n <= 2000) as Hn2000 by ulia.
  assert ((function_code r =? 1) = negb discrete) as Hsel by (by destruct discrete).
  rewrite Hsel. fold r.
  replace (if negb discrete then coils (data s) else discreteInputs (data s))
    with (if discrete then discreteInputs (data s) else coils (data s)) by (by destruct discrete).
  replace (if negb discrete then coilCount (data s) else discreteInputCount (data s))
    with (if discrete then discreteInputCount (data s) else coilCount (data s))
    by (by destruct discrete).
  assert (bits_ok (if discrete then discreteInputCount (data s) else coilCount (data s))
    (if discrete then discreteInputs (data s) else coils (data s))) as [Hc Hw].
  { pose proof (wf_slave_data s Hwf) as Hd. destruct discrete; apply Hd. }
  set (available := if discrete then _ else coilCount (data s)) in *.
  destruct (if discrete then discreteInputs (data s) else coils (data s)) as [src|];
    [|by apply (refuse_spec r)].
  destruct (Hw src eq_refl) as [Hsrc Hls].
  replace (u32 (i + n)) with (i + n) by ulia.
  destruct (Z.ltb_spec available (i + n)).
  { rewrite orb_true_r. by apply (refuse_spec r). }
  rewrite (proj2 (Z.leb_gt _ i)) by lia. cbn [orb].
  pose proof (modbusBitsToBytes_spec n Hn) as HN.
  rewrite (u8_id (5 + _)) by ulia.
  unfold calloc. destruct alloc; [|done].
  replace (Z.to_nat (5 + modbusBitsToBytes n))
    with (3 + (Z.to_nat (modbusBitsToBytes n) + 2))%nat by ulia.
  rewrite header3, !u8_id by (done || ulia || apply Hwf).
  rewrite replicate_add. change (replicate 2 0) with [0; 0].
  rewrite <- (Z2Nat.id n) in * by lia. set (m := Z.to_nat n) in *. rewrite Nat2Z.id.
  rewrite read_coils_loop, bind_ret by (done || ulia).
  set (values := pack_bits _). change (mask_bit src) with (mask_bit src) in values.
  assert (length values = Z.to_nat (modbusBitsToBytes (Z.of_nat m))) as Hlv.
  { unfold values. by rewrite length_pack_bits, length_fmap, length_seq. }
  rewrite app_assoc, finish_frame_at.
  - f_equal. 
    replace (5 + modbusBitsToBytes (Z.of_nat m))
      with (Z.of_nat (length (modbusBitsToBytes (Z.of_nat m) :: values)) + 4)
      by (cbn [length]; rewrite Hlv; ulia).
    rewrite (surjective_pairing (conclude _ _ _ _ _)), <- payload_spec; try done.
    + unfold conclude. rewrite (proj2 (Z.eqb_neq addr 0)) by done. done.
    + constructor; [ulia|apply pack_bits_bytes].
  - pose proof (wf_address s Hwf). apply bytes_app.
    split; [solve_bytes|apply pack_bits_bytes].
  - rewrite length_app, Hlv. cbn [length]. ulia.
  - rewrite length_app, Hlv. cbn [length]. ulia.
  - ulia.
Qed.

(** The coil memory after a write, from its length and its bits. *)
Lemma write_bits_eq i bits cs cs' :
  bytes cs' → length cs' = length cs → 
  (∀ j, 0 <= j < 8 * Z.of_nat (length cs) → mask_bit cs' j =
     if (i <=? j) && (j <? i + Z.of_nat (length bits))
     then default false (bits !! Z.to_nat (j - i)) else mask_bit cs j) →
  cs' = write_bits i bits cs.
Proof.
  intros Hb Hl Hbits. unfold write_bits. rewrite <- Hl in *. by apply tabulate_bits_eq.
Qed.

Lemma modbusParseRequest05_spec i on :
  let r := WriteCoil i on in
  holds_request r → wf_request r →
  modbusParseRequest05 alloc s (encode_request addr r) =
  Some (conclude alloc s addr 5 (serve (data s) r)).
Proof.
  intros r Hr Hi. change (is_u16 i) in Hi. unfold modbusParseRequest05. parser_offsets.
  assert (length_ (request s) = 8) as -> by (by rewrite (request_length _ Hr)).
  cbn [Z.eqb negb].
  assert (is_u16 (coil_word on)) as Hv by (destruct on; done).
  rewrite (parser_word r 2 [] i (be16 (coil_word on))), bind_ret by done.
  rewrite (parser_word r 4 (be16 i) (coil_word on) []), bind_ret by done.
  cbn zeta. rewrite !modbusMatchEndian_involutive by done. cbn [serve r].
  assert (negb (coil_word on =? 0) && negb (coil_word on =? 0xFF00) = false) as ->
    by (by destruct on).
  destruct (coils (data s)) as [cs|] eqn:Hcs; [|by apply (refuse_spec r)].
  destruct (Z.leb_spec (coilCount (data s)) i); [by apply (refuse_spec r)|].
  destruct (locked_spec (coilMask (data s)) (coilMaskLength (data s)) i)
    as (p & Hp & Hlock); [apply Hwf|done|].
  rewrite Hp, bind_ret, Hlock. fold (coil_protected (data s) i).
  change (bool_decide _) with (coil_locked (data s) i).
  destruct (coil_locked (data s) i); [by apply (refuse_spec r)|].
  unfold calloc. destruct alloc eqn:Ealloc; [|done].
  destruct (wf_coils _ (wf_slave_data s Hwf)) as [Hn Hb]. destruct (Hb cs Hcs) as [Hbytes Hl].
  cbn [data set_response_frame set_response]. rewrite Hcs.
  destruct (modbusMaskWrite_spec cs (modbusBitsToBytes (coilCount (data s))) i
    (Z.b2z (coil_word on =? 65280))) as (cs' & -> & (v & Hv' & Ecs) & Hbits); [done|ulia| |].
  { split; [apply bit_in_range; [done|ulia]|done]. }
  rewrite bind_ret. cbn [Z.eqb].
  rewrite (write_bits_eq i [on] cs cs'); cycle 1.
  { rewrite Ecs. by apply bytes_insert. }
  { by rewrite Ecs, length_insert. }
  { intros j Hj. rewrite Hbits, b2z_nonzero by lia.
    change (Z.of_nat (length [on])) with 1. destruct (Z.eqb_spec j i) as [->|Hne].
    - rewrite Z.leb_refl, (proj2 (Z.ltb_lt i _)), Z.sub_diag by lia. by destruct on.
    - destruct (Z.leb_spec i j), (Z.ltb_spec j (i + 1)); try done; lia. }
  rewrite parser_addr, bind_ret, parser_function, bind_ret.
  rewrite <- Ealloc. by apply echo8_spec.
Qed.

(** The bits of the request follow its seventh byte. *)
Lemma request_bits i bits j :
  is_u16 (Z.of_nat (length bits)) → 0 <= j < Z.of_nat (length bits) →
  mask_bit (drop 7 (encode_request addr (WriteCoils i bits))) j =
  default false (bits !! Z.to_nat j).
Proof.
  intros Hl Hj. set (tl := le16 (crc_of (addr :: 15 :: request_body (WriteCoils i bits)))).
  change (drop 7 _) with (pack_bits bits ++ tl).
  pose proof (modbusBitsToBytes_spec _ Hl).
  rewrite mask_bit_app_l by (rewrite length_pack_bits; ulia).
  by apply pack_bits_bit; [|lia].
Qed.

Lemma modbusParseRequest15_spec i bits :
  let r := WriteCoils i bits in
  holds_request r → wf_request r →
  modbusParseRequest15 alloc s (encode_request addr r) =
  Some (conclude alloc s addr 15 (serve (data s) r)).
Proof.
  intros r Hr (Hi & Hn). unfold modbusParseRequest15. parser_offsets.
  set (n := Z.of_nat (length bits)). assert (is_u16 n) as Hnu by (unfold n, is_u16; lia).
  assert (1 <= n <= 1968) as Hn1968 by lia.
  pose proof (modbusBitsToBytes_spec n Hnu) as HN. set (N := modbusBitsToBytes n) in *.
  assert (length_ (request s) = 9 + N) as ->.
  { rewrite (request_length _ Hr). cbn [request_body r].
    rewrite !length_app, length_pack_bits. fold n N. unfold be16. cbn [length]. ulia. }
  rewrite (proj2 (Z.leb_le 7 _)) by ulia. cbn [negb].
  assert (encode_request addr r !! 6%nat = Some N) as -> by done.
  rewrite bind_ret, u8_id by ulia. rewrite Z.eqb_refl. cbn [negb].
  rewrite (parser_word r 2 [] i (be16 n ++ [N] ++ pack_bits bits)), bind_ret by done.
  rewrite (parser_word r 4 (be16 i) n ([N] ++ pack_bits bits)), bind_ret by done.
  cbn zeta. rewrite !modbusMatchEndian_involutive by done. cbn [serve r].
  fold N. rewrite Z.eqb_refl. do 2 (rewrite (proj2 (Z.eqb_neq _ 0)) by ulia).
  rewrite (proj2 (Z.ltb_ge 1968 n)) by lia. cbn [negb orb].
  destruct (coils (data s)) as [cs|] eqn:Hcs; [|by apply (refuse_spec r)].
  fold n. replace (u32 (i + n)) with (i + n) by ulia.
  destruct (Z.ltb_spec (coilCount (data s)) (i + n)).
  { rewrite orb_true_r. by apply (refuse_spec r). }
  rewrite (proj2 (Z.leb_gt _ i)) by lia. cbn [orb].
  replace (Z.to_nat n) with (length bits) by lia.
  destruct (wf_coils _ (wf_slave_data s Hwf)) as [Hc Hb]. destruct (Hb cs Hcs) as [Hbytes Hl].
  rewrite any_locked_spec, bind_ret by (apply Hwf || ulia).
  change (λ j, bool_decide (modbusMaskRead _ _ j = _)) with (coil_locked (data s)).
  destruct (any_locked _ i (length bits)); [by apply (refuse_spec r)|].
  unfold calloc. destruct alloc eqn:Ealloc; [|done].
  cbn [data set_response_frame set_response]. rewrite Hcs.
  destruct (write_coils_loop (drop 7 (encode_request addr r)) N cs (coilCount (data s)) i
    (length bits)) as (cs' & -> & Hl' & Hb' & Hbits); try done; [ulia| |].
  { change (drop 7 _) with (pack_bits bits ++ le16 (crc_of (addr :: 15 :: request_body r))).
    rewrite length_app, length_pack_bits. fold n N. ulia. }
  rewrite bind_ret, (write_bits_eq i bits cs cs'); [|done|done|]; cycle 1.
  { intros j Hj. rewrite Hbits by lia.
    destruct (Z.leb_spec i j), (Z.ltb_spec j (i + Z.of_nat (length bits))); try done.
    apply request_bits; [done|lia]. }
  rewrite parser_addr, bind_ret, parser_function, bind_ret.
  rewrite <- Ealloc. by apply echo8_spec.
Qed.
End refinement.

(** ** The whole slave *)

Lemma encode_request_bytes addr r :
  is_u8 addr → wf_request r → bytes (addr :: function_code r :: request_body r).
Proof.
  intros. constructor; [done|]. constructor; [apply function_code_u8|].
  by apply request_body_bytes.
Qed.

(** The frame of a request passes the CRC test of the slave. *)
Lemma with_crc_accepted p n :
  bytes p → n = Z.of_nat (length (with_crc p)) → n < 65536 →
  rd16 (with_crc p) (Z.to_nat (n - 2)) = Some (crc_of p) ∧
  modbusCRC (Some (with_crc p)) (u16 (n - 2)) = Some (crc_of p).
Proof.
  intros Hp -> Hn. rewrite length_with_crc in *.
  replace (Z.of_nat (length p + 2) - 2) with (Z.of_nat (length p)) by lia.
  rewrite u16_id, Nat2Z.id by (unfold is_u16; lia). unfold with_crc. split.
  - unfold rd16. rewrite !lookup_app_r by lia.
    rewrite Nat.sub_diag, Nat.sub_succ_l, Nat.sub_diag by done.
    unfold le16. cbn [lookup list_lookup]. rewrite !bind_ret. f_equal.
    pose proof (crc_of_u16 p Hp). ulia.
  - rewrite modbusCRC_spec by (rewrite length_app; lia).
    by rewrite Nat2Z.id, take_app_length.
Qed.

(** A frame with a correct CRC for another slave is dropped. *)
Lemma modbusParseRequest_other alloc fs s p :
  bytes p → (2 <= length p <= 253)%nat →
  request s = mkFrame (Some (with_crc p)) (Z.of_nat (length (with_crc p))) →
  (∀ a, p !! 0%nat = Some a → a ≠ address s ∧ a ≠ 0) →
  modbusParseRequest alloc fs s = Some (MODBUS_ERROR_OK, begin s).
Proof.
  intros Hp Hl Hreq Ha. unfold modbusParseRequest. cbv zeta. fold (begin s).
  change (request (set_response None 0 s)) with (request s).
  change (request (begin s)) with (request s).
  change (address (begin s)) with (address s).
  destruct (with_crc_accepted p (Z.of_nat (length (with_crc p)))) as [Hrd Hcrc];
    [done|done|rewrite length_with_crc; lia|].
  assert (length_ (request s) = Z.of_nat (length (with_crc p))) as -> by (by rewrite Hreq).
  assert (frame (request s) = Some (with_crc p)) as -> by (by rewrite Hreq).
  rewrite (proj2 (Z.ltb_ge _ 4)) by (rewrite length_with_crc; lia).
  rewrite Hrd, bind_ret, Hcrc, bind_ret, Z.eqb_refl. cbn [negb]. parser_offsets.
  destruct p as [|a p]; [simpl in Hl; lia|]. destruct (Ha a eq_refl) as [H1%Z.eqb_neq H2%Z.eqb_neq].
  change (with_crc (a :: p) !! 0%nat) with (Some a). rewrite bind_ret.
  by rewrite H1, H2.
Qed.

Lemma modbusParseRequest_deliver alloc fs s addr r :
  wf_slave s → wf_request r → addr = address s ∨ addr = 0 →
  holds_request s addr r → find_user_function fs (function_code r) = None →
  modbusParseRequest alloc fs s = Some (deliver alloc s addr r).
Proof.
  intros Hwf Hr Haddr Hreq Hfs.
  assert (is_u8 addr) as Hu by (destruct Haddr as [->| ->]; [apply Hwf|done]).
  unfold modbusParseRequest, deliver. cbv zeta. fold (begin s).
  change (request (set_response None 0 s)) with (request s).
  change (request (begin s)) with (request s).
  change (address (begin s)) with (address s).
  assert (holds_request (begin s) addr r) as Hreq' by exact Hreq.
  pose proof (request_length _ _ _ Hreq) as Hlen.
  destruct (wf_slave_request s Hwf) as [Hl8 _].
  assert (length_ (request s) = Z.of_nat (length (encode_request addr r))) as El
    by (by rewrite Hreq).
  assert (frame (request s) = Some (encode_request addr r)) as -> by (by rewrite Hreq).
  rewrite El in Hlen, Hl8 |- *.
  destruct (with_crc_accepted (addr :: function_code r :: request_body r)
    (Z.of_nat (length (encode_request addr r)))) as [Hrd Hcrc];
    [by apply encode_request_bytes|done|ulia|].
rewrite Hlen at 1. rewrite (proj2 (Z.ltb_ge _ 4)) by lia.
  fold (encode_request addr r) in Hrd, Hcrc.
  rewrite Hrd, bind_ret, Hcrc, bind_ret, Z.eqb_refl. cbn [negb]. parser_offsets.
  rewrite parser_addr, bind_ret, parser_function, bind_ret, Hfs.
  assert (negb (addr =? address s) && negb (addr =? 0) = false) as ->.
  { destruct Haddr as [->| ->]; [by rewrite Z.eqb_refl|by rewrite andb_false_r]. }
  pose proof (begin_wf s Hwf) as Hwf0.
  destruct (is_read r && (addr =? 0)) eqn:Hread.
  { apply andb_true_iff in Hread as [? ->%Z.eqb_eq]. by destruct r as [[]|[]| | | | |]. }
  assert (is_read r = true → addr ≠ 0) as Hne.
  { intros E. rewrite E in Hread. by apply Z.eqb_neq. }
  destruct r as [[]|[]| | | | |]; cbn [function_code];
    first [ by apply modbusParseRequest0102_spec; auto
          | by apply modbusParseRequest0304_spec; auto
          | by apply modbusParseRequest05_spec
          | by apply modbusParseRequest06_spec
          | by apply modbusParseRequest15_spec
          | by apply modbusParseRequest16_spec
          | by apply modbusParseRequest22_spec ].
Qed.
