(* ===== verification/ModbusMaster.v ===== *)
(** * ModbusMaster: the master side of liblightmodbus.

    [src/master.c] (dispatch of responses, exceptions, initialisation),
    [src/master/mbregs.c] and [mbcoils.c] (building requests), [mpregs.c] and
    [mpcoils.c] (parsing responses), on the structure [ModbusMaster] of
    [include/lightmodbus/master.h].  The conventions are those of [ModbusSlave]:
    a result and the updated structure, or [None] for an access out of bounds;
    [alloc] tells whether the [calloc] of the call succeeds.

    The [data.coils] and [data.regs] pointers always designate the same block,
    which is kept as its bytes in [buffer]: register [i] is the little-endian
    word at byte [2 i]. *)
From S2P Require Import Prelude.
From S2P Require Import Lightmodbus.

Module Master.
(** ** The master structure ([master.h]) *)

Record MasterData := mkData {
  data_address : Z;
  data_index : Z;
  data_count : Z;
  data_length : Z;
  data_type : option ModbusDataType;   (** [None] is the value 0 *)
  data_function : Z;
  buffer : option (list Z);
}.

(** [code] is the byte of the frame, not necessarily an enumerator. *)
Record Exception := mkException { ex_address : Z; ex_function : Z; ex_code : Z }.

Record ModbusMaster := mkMaster {
  predictedResponseLength : Z;
  request : Frame;
  response : Frame;
  data : MasterData;
  exception : Exception;
  parseError : ModbusFrameError;
  buildError : ModbusFrameError;
}.

Definition set_predicted (v : Z) (m : ModbusMaster) : ModbusMaster :=
  mkMaster v (request m) (response m) (data m) (exception m) (parseError m) (buildError m).
Definition set_request (f : option (list Z)) (n : Z) (m : ModbusMaster) : ModbusMaster :=
  mkMaster (predictedResponseLength m) (mkFrame f n) (response m) (data m) (exception m)
    (parseError m) (buildError m).
Definition set_request_frame (f : option (list Z)) (m : ModbusMaster) : ModbusMaster :=
  set_request f (length_ (request m)) m.
Definition set_request_length (n : Z) (m : ModbusMaster) : ModbusMaster :=
  set_request (frame (request m)) n m.
Definition set_response (f : option (list Z)) (n : Z) (m : ModbusMaster) : ModbusMaster :=
  mkMaster (predictedResponseLength m) (request m) (mkFrame f n) (data m) (exception m)
    (parseError m) (buildError m).
Definition set_data (d : MasterData) (m : ModbusMaster) : ModbusMaster :=
  mkMaster (predictedResponseLength m) (request m) (response m) d (exception m)
    (parseError m) (buildError m).
Definition set_exception (x : Exception) (m : ModbusMaster) : ModbusMaster :=
  mkMaster (predictedResponseLength m) (request m) (response m) (data m) x
    (parseError m) (buildError m).
Definition set_parseError (e : ModbusFrameError) (m : ModbusMaster) : ModbusMaster :=
  mkMaster (predictedResponseLength m) (request m) (response m) (data m) (exception m)
    e (buildError m).
Definition set_buildError (e : ModbusFrameError) (m : ModbusMaster) : ModbusMaster :=
  mkMaster (predictedResponseLength m) (request m) (response m) (data m) (exception m)
    (parseError m) e.

Definition Outcome : Type := option (ModbusError * ModbusMaster).

Definition build_failed (e : ModbusFrameError) (m : ModbusMaster) : Outcome :=
  Some (MODBUS_ERROR_BUILD, set_buildError e m).
Definition parse_failed (e : ModbusFrameError) (m : ModbusMaster) : Outcome :=
  Some (MODBUS_ERROR_PARSE, set_parseError e m).

(** [status->request.length = 0; status->predictedResponseLength = 0;] *)
Definition reset_request (m : ModbusMaster) : ModbusMaster :=
  set_predicted 0 (set_request_length 0 m).

(** The end of every builder. *)
Definition built (builder : list Z) (frameLength predicted : Z) (m : ModbusMaster) : Outcome :=
  Some (MODBUS_ERROR_OK,
        set_buildError MODBUS_FERROR_OK
          (set_predicted predicted (set_request (Some builder) frameLength m))).

(** ** Building requests ([mbregs.c], [mbcoils.c]) *)

Section build.
Context (alloc : bool).

Definition modbusBuildRequest0304 (status : ModbusMaster)
    (function address index count : Z) : Outcome :=
  let frameLength := 8 in
  if negb (function =? 3) && negb (function =? 4)
  then build_failed MODBUS_FERROR_BADFUN status
  else
  if address =? 0 then build_failed MODBUS_FERROR_BROADCAST status
  else
  let status := reset_request status in
  if (count =? 0) || (125 <? count) then build_failed MODBUS_FERROR_COUNT status
  else
  match calloc alloc frameLength with
  | None => Some (MODBUS_ERROR_ALLOC, set_request_frame None status)
  | Some builder =>
      builder ← st8 builder Parser.base_address address;
      builder ← st8 builder Parser.base_function function;
      builder ← st16 builder Parser.request0304_index (modbusMatchEndian index);
      builder ← st16 builder Parser.request0304_count (modbusMatchEndian count);
      crc ← modbusCRC (Some builder) (frameLength - 2);
      builder ← st16 builder Parser.request0304_crc crc;
      built builder frameLength (u8 (4 + 1 + Z.shiftl count 1)) status
  end.

Definition modbusBuildRequest06 (status : ModbusMaster) (address index value : Z)
    : Outcome :=
  let frameLength := 8 in
  let status := reset_request status in
  match calloc alloc frameLength with
  | None => Some (MODBUS_ERROR_ALLOC, set_request_frame None status)
  | Some builder =>
      builder ← st8 builder Parser.base_address address;
      builder ← st8 builder Parser.base_function 6;
      builder ← st16 builder Parser.request06_index (modbusMatchEndian index);
      builder ← st16 builder Parser.request06_value (modbusMatchEndian value);
      crc ← modbusCRC (Some builder) (frameLength - 2);
      builder ← st16 builder Parser.request06_crc crc;
      built builder frameLength
        (if negb (address =? 0) then 8 else predictedResponseLength status) status
  end.

Definition modbusBuildRequest16 (status : ModbusMaster) (address index count : Z)
    (values : option (list Z)) : Outcome :=
  let frameLength := u8 (9 + Z.shiftl count 1) in
  match values with
  | None => Some (MODBUS_ERROR_NULLPTR, status)
  | Some values =>
      let status := reset_request status in
      if (count =? 0) || (123 <? count) then build_failed MODBUS_FERROR_COUNT status
      else
      match calloc alloc frameLength with
      | None => Some (MODBUS_ERROR_ALLOC, set_request_frame None status)
      | Some builder =>
          builder ← st8 builder Parser.base_address address;
          builder ← st8 builder Parser.base_function 16;
          builder ← st16 builder Parser.request16_index (modbusMatchEndian index);
          builder ← st16 builder Parser.request16_count (modbusMatchEndian count);
          builder ← st8 builder Parser.request16_length (Z.shiftl count 1);
          builder ← cfor (Z.to_nat count) 0 (λ i builder,
                      v ← values !! i;
                      st16 builder (Parser.request16_values + 2 * i) (modbusMatchEndian v))
                    builder;
          crc ← modbusCRC (Some builder) (frameLength - 2);
          builder ← st16 builder (Parser.request16_values + 2 * Z.to_nat count) crc;
          built builder frameLength
            (if negb (address =? 0) then 4 + 4 else predictedResponseLength status) status
      end
  end.

Definition modbusBuildRequest22 (status : ModbusMaster)
    (address index andmask ormask : Z) : Outcome :=
  let frameLength := 10 in
  let status := reset_request status in
  match calloc alloc frameLength with
  | None => Some (MODBUS_ERROR_ALLOC, set_request_frame None status)
  | Some builder =>
      builder ← st8 builder Parser.base_address address;
      builder ← st8 builder Parser.base_function 22;
      builder ← st16 builder Parser.request22_index (modbusMatchEndian index);
      builder ← st16 builder Parser.request22_andmask (modbusMatchEndian andmask);
      builder ← st16 builder Parser.request22_ormask (modbusMatchEndian ormask);
      crc ← modbusCRC (Some builder) (frameLength - 2);
      builder ← st16 builder Parser.request22_crc crc;
      built builder frameLength
        (if negb (address =? 0) then 10 else predictedResponseLength status) status
  end.

Definition modbusBuildRequest0102 (status : ModbusMaster)
    (function address index count : Z) : Outcome :=
  let frameLength := 8 in
  if negb (function =? 1) && negb (function =? 2)
  then build_failed MODBUS_FERROR_BADFUN status
  else
  if address =? 0 then build_failed MODBUS_FERROR_BROADCAST status
  else
  let status := reset_request status in
  if (count =? 0) || (2000 <? count) then build_failed MODBUS_FERROR_COUNT status
  else
  match calloc alloc frameLength with
  | None => Some (MODBUS_ERROR_ALLOC, set_request_frame None status)
  | Some builder =>
      builder ← st8 builder Parser.base_address address;
      builder ← st8 builder Parser.base_function function;
      builder ← st16 builder Parser.request0102_index (modbusMatchEndian index);
      builder ← st16 builder Parser.request0102_count (modbusMatchEndian count);
      crc ← modbusCRC (Some builder) (frameLength - 2);
      builder ← st16 builder Parser.request0102_crc crc;
      built builder frameLength (u8 (4 + 1 + modbusBitsToBytes count)) status
  end.

Definition modbusBuildRequest05 (status : ModbusMaster) (address index value : Z)
    : Outcome :=
  let frameLength := 8 in
  let status := reset_request status in
  match calloc alloc frameLength with
  | None => Some (MODBUS_ERROR_ALLOC, set_request_frame None status)
  | Some builder =>
      let value := if negb (value =? 0) then 0xFF00 else 0x0000 in
      builder ← st8 builder Parser.base_address address;
      builder ← st8 builder Parser.base_function 5;
      builder ← st16 builder Parser.request05_index (modbusMatchEndian index);
      builder ← st16 builder Parser.request05_value (modbusMatchEndian value);
      crc ← modbusCRC (Some builder) (frameLength - 2);
      builder ← st16 builder Parser.request05_crc crc;
      built builder frameLength
        (if negb (address =? 0) then 8 else predictedResponseLength status) status
  end.

Definition modbusBuildRequest15 (status : ModbusMaster) (address index count : Z)
    (values : option (list Z)) : Outcome :=
  let frameLength := u8 (9 + modbusBitsToBytes count) in
  match values with
  | None => Some (MODBUS_ERROR_NULLPTR, status)
  | Some values =>
      let status := reset_request status in
      if (count =? 0) || (1968 <? count) then build_failed MODBUS_FERROR_COUNT status
      else
      match calloc alloc frameLength with
      | None => Some (MODBUS_ERROR_ALLOC, set_request_frame None status)
      | Some builder =>
          builder ← st8 builder Parser.base_address address;
          builder ← st8 builder Parser.base_function 15;
          builder ← st16 builder Parser.request15_index (modbusMatchEndian index);
          builder ← st16 builder Parser.request15_count (modbusMatchEndian count);
          builder ← st8 builder Parser.request15_length (modbusBitsToBytes count);
          length ← builder !! Parser.request15_length;
          builder ← cfor (Z.to_nat length) 0 (λ i builder,
                      v ← values !! i;
                      st8 builder (Parser.request15_values + i) v)
                    builder;
          crc ← modbusCRC (Some builder) (frameLength - 2);
          builder ← st16 builder (Z.to_nat (frameLength - 2)) crc;
          built builder frameLength
            (if negb (address =? 0) then 4 + 4 else predictedResponseLength status) status
      end
  end.
End build.

(** The inline wrappers of [mbregs.h] and [mbcoils.h]. *)
Definition modbusBuildRequest01 alloc status address index count : Outcome :=
  modbusBuildRequest0102 alloc status 1 address index count.
Definition modbusBuildRequest02 alloc status address index count : Outcome :=
  modbusBuildRequest0102 alloc status 2 address index count.
Definition modbusBuildRequest03 alloc status address index count : Outcome :=
  modbusBuildRequest0304 alloc status 3 address index count.
Definition modbusBuildRequest04 alloc status address index count : Outcome :=
  modbusBuildRequest0304 alloc status 4 address index count.

(** ** Parsing responses ([mpregs.c], [mpcoils.c]) *)

Section parse.
Context (alloc : bool).

Definition modbusParseResponse0304 (status : ModbusMaster) (parser requestParser : list Z)
    : Outcome :=
  fn ← parser !! Parser.base_function;
  if negb (fn =? 3) && negb (fn =? 4) then parse_failed MODBUS_FERROR_BADFUN status
  else
  len ← parser !! Parser.response0304_length;
  if negb (length_ (response status) =? 5 + len) || negb (length_ (request status) =? 8)
  then parse_failed MODBUS_FERROR_LENGTH status
  else
  count ← modbusMatchEndian <$> rd16 requestParser Parser.request0304_count;
  addr ← parser !! Parser.base_address;
  if addr =? 0 then parse_failed MODBUS_FERROR_BROADCAST status
  else
  raddr ← requestParser !! Parser.base_address;
  if negb (addr =? raddr) then parse_failed MODBUS_FERROR_MISM_ADDR status
  else
  rfn ← requestParser !! Parser.base_function;
  if negb (fn =? rfn) then parse_failed MODBUS_FERROR_MISM_FUN status
  else
  if (len =? 0) || negb (len =? Z.shiftl count 1) || (250 <? len)
  then parse_failed MODBUS_FERROR_LENGTH status
  else
  match calloc alloc (Z.shiftr len 1 * 2) with
  | None => Some (MODBUS_ERROR_ALLOC, status)
  | Some buf =>
      buf ← cfor (Z.to_nat count) 0 (λ i buf,
              v ← rd16 parser (Parser.response0304_values + 2 * i);
              st16 buf (2 * i) (modbusMatchEndian v)) buf;
      index ← modbusMatchEndian <$> rd16 requestParser Parser.request0304_index;
      Some (MODBUS_ERROR_OK, set_parseError MODBUS_FERROR_OK
        (set_data (mkData addr index count len
           (Some (if fn =? 3 then MODBUS_HOLDING_REGISTER else MODBUS_INPUT_REGISTER))
           fn (Some buf)) status))
  end.

Definition modbusParseResponse06 (status : ModbusMaster) (parser requestParser : list Z)
    : Outcome :=
  if negb (length_ (response status) =? 8) || negb (length_ (request status) =? 8)
  then parse_failed MODBUS_FERROR_LENGTH status
  else
  addr ← parser !! Parser.base_address;
  if addr =? 0 then parse_failed MODBUS_FERROR_BROADCAST status
  else
  raddr ← requestParser !! Parser.base_address;
  if negb (addr =? raddr) then parse_failed MODBUS_FERROR_MISM_ADDR status
  else
  fn ← parser !! Parser.base_function;
  rfn ← requestParser !! Parser.base_function;
  if negb (fn =? rfn) then parse_failed MODBUS_FERROR_MISM_FUN status
  else
  index ← rd16 parser Parser.response06_index;
  rindex ← rd16 requestParser Parser.request06_index;
  if negb (index =? rindex) then parse_failed MODBUS_FERROR_MISM_INDEX status
  else
  value ← rd16 parser Parser.response06_value;
  rvalue ← rd16 requestParser Parser.request06_value;
  if negb (value =? rvalue) then parse_failed MODBUS_FERROR_MISM_VALUE status
  else
  match calloc alloc (1 * 2) with
  | None => Some (MODBUS_ERROR_ALLOC, status)
  | Some buf =>
      buf ← st16 buf 0 (modbusMatchEndian value);
      Some (MODBUS_ERROR_OK, set_parseError MODBUS_FERROR_OK
        (set_data (mkData addr (modbusMatchEndian index) 1 2
           (Some MODBUS_HOLDING_REGISTER) 6 (Some buf)) status))
  end.

Definition modbusParseResponse16 (status : ModbusMaster) (parser requestParser : list Z)
    : Outcome :=
  if length_ (request status) <? 7 then parse_failed MODBUS_FERROR_LENGTH status
  else
  rlen ← requestParser !! Parser.request16_length;
  if negb (length_ (request status) =? 9 + rlen) || negb (length_ (response status) =? 8)
  then parse_failed MODBUS_FERROR_LENGTH status
  else
  addr ← parser !! Parser.base_address;
  if addr =? 0 then parse_failed MODBUS_FERROR_BROADCAST status
  else
  raddr ← requestParser !! Parser.base_address;
  if negb (addr =? raddr) then parse_failed MODBUS_FERROR_MISM_ADDR status
  else
  fn ← parser !! Parser.base_function;
  rfn ← requestParser !! Parser.base_function;
  if negb (fn =? rfn) then parse_failed MODBUS_FERROR_MISM_FUN status
  else
  index ← rd16 parser Parser.response16_index;
  rindex ← rd16 requestParser Parser.request16_index;
  if negb (index =? rindex) then parse_failed MODBUS_FERROR_MISM_INDEX status
  else
  raw_count ← rd16 parser Parser.response16_count;
  rcount ← rd16 requestParser Parser.request16_count;
  if negb (raw_count =? rcount) then parse_failed MODBUS_FERROR_MISM_COUNT status
  else
  let count := modbusMatchEndian raw_count in
  if 123 <? count then parse_failed MODBUS_FERROR_COUNT status
  else
  Some (MODBUS_ERROR_OK, set_parseError MODBUS_FERROR_OK
    (set_data (mkData addr (modbusMatchEndian index) count 0
       (Some MODBUS_HOLDING_REGISTER) 16 (buffer (data status))) status)).

Definition modbusParseResponse22 (status : ModbusMaster) (parser requestParser : list Z)
    : Outcome :=
  if negb (length_ (response status) =? 10) || negb (length_ (request status) =? 10)
  then parse_failed MODBUS_FERROR_LENGTH status
  else
  addr ← parser !! Parser.base_address;
  if addr =? 0 then parse_failed MODBUS_FERROR_BROADCAST status
  else
  raddr ← requestParser !! Parser.base_address;
  if negb (addr =? raddr) then parse_failed MODBUS_FERROR_MISM_ADDR status
  else
  fn ← parser !! Parser.base_function;
  rfn ← requestParser !! Parser.base_function;
  if negb (fn =? rfn) then parse_failed MODBUS_FERROR_MISM_FUN status
  else
  index ← rd16 parser Parser.response22_index;
  rindex ← rd16 requestParser Parser.request22_index;
  if negb (index =? rindex) then parse_failed MODBUS_FERROR_MISM_INDEX status
  else
  andmask ← rd16 parser Parser.response22_andmask;
  randmask ← rd16 requestParser Parser.request22_andmask;
  ormask ← rd16 parser Parser.response22_ormask;
  rormask ← rd16 requestParser Parser.request22_ormask;
  if negb (andmask =? randmask) || negb (ormask =? rormask)
  then parse_failed MODBUS_FERROR_MISM_MASK status
  else
  Some (MODBUS_ERROR_OK, set_parseError MODBUS_FERROR_OK
    (set_data (mkData addr (modbusMatchEndian index) 1 0
       (Some MODBUS_HOLDING_REGISTER) 22 (buffer (data status))) status)).

Definition modbusParseResponse0102 (status : ModbusMaster) (parser requestParser : list Z)
    : Outcome :=
  fn ← parser !! Parser.base_function;
  if negb (fn =? 1) && negb (fn =? 2) then parse_failed MODBUS_FERROR_BADFUN status
  else
  len ← parser !! Parser.response0102_length;
  if negb (length_ (response status) =? 5 + len) || negb (length_ (request status) =? 8)
  then parse_failed MODBUS_FERROR_LENGTH status
  else
  count ← modbusMatchEndian <$> rd16 requestParser Parser.request0102_count;
  addr ← parser !! Parser.base_address;
  if addr =? 0 then parse_failed MODBUS_FERROR_BROADCAST status
  else
  raddr ← requestParser !! Parser.base_address;
  if negb (addr =? raddr) then parse_failed MODBUS_FERROR_MISM_ADDR status
  else
  rfn ← requestParser !! Parser.base_function;
  if negb (fn =? rfn) then parse_failed MODBUS_FERROR_MISM_FUN status
  else
  if (len =? 0) || (250 <? len) || negb (len =? modbusBitsToBytes count)
  then parse_failed MODBUS_FERROR_LENGTH status
  else
  match calloc alloc (modbusBitsToBytes count) with
  | None => Some (MODBUS_ERROR_ALLOC, status)
  | Some buf =>
      buf ← memcpy buf (drop Parser.response0102_values parser) (Z.to_nat len);
      index ← modbusMatchEndian <$> rd16 requestParser Parser.request0102_index;
      Some (MODBUS_ERROR_OK, set_parseError MODBUS_FERROR_OK
        (set_data (mkData addr index count len
           (Some (if fn =? 1 then MODBUS_COIL else MODBUS_DISCRETE_INPUT))
           fn (Some buf)) status))
  end.

Definition modbusParseResponse05 (status : ModbusMaster) (parser requestParser : list Z)
    : Outcome :=
  if negb (length_ (response status) =? 8) || negb (length_ (request status) =? 8)
  then parse_failed MODBUS_FERROR_LENGTH status
  else
  addr ← parser !! Parser.base_address;
  if addr =? 0 then parse_failed MODBUS_FERROR_BROADCAST status
  else
  raddr ← requestParser !! Parser.base_address;
  if negb (addr =? raddr) then parse_failed MODBUS_FERROR_MISM_ADDR status
  else
  fn ← parser !! Parser.base_function;
  rfn ← requestParser !! Parser.base_function;
  if negb (fn =? rfn) then parse_failed MODBUS_FERROR_MISM_FUN status
  else
  index ← rd16 parser Parser.response05_index;
  rindex ← rd16 requestParser Parser.request05_index;
  if negb (index =? rindex) then parse_failed MODBUS_FERROR_MISM_INDEX status
  else
  value ← rd16 parser Parser.response05_value;
  rvalue ← rd16 requestParser Parser.request05_value;
  if negb (value =? rvalue) then parse_failed MODBUS_FERROR_MISM_VALUE status
  else
  match calloc alloc 1 with
  | None => Some (MODBUS_ERROR_ALLOC, status)
  | Some buf =>
      buf ← st8 buf 0 (Z.b2z (negb (value =? 0)));
      Some (MODBUS_ERROR_OK, set_parseError MODBUS_FERROR_OK
        (set_data (mkData addr (modbusMatchEndian rindex) 1 1
           (Some MODBUS_COIL) 5 (Some buf)) status))
  end.

Definition modbusParseResponse15 (status : ModbusMaster) (parser requestParser : list Z)
    : Outcome :=
  if length_ (request status) <? 7 then parse_failed MODBUS_FERROR_LENGTH status
  else
  rlen ← requestParser !! Parser.request15_length;
  if negb (length_ (request status) =? 9 + rlen) || negb (length_ (response status) =? 8)
  then parse_failed MODBUS_FERROR_LENGTH status
  else
  addr ← parser !! Parser.base_address;
  if addr =? 0 then parse_failed MODBUS_FERROR_BROADCAST status
  else
  raddr ← requestParser !! Parser.base_address;
  if negb (addr =? raddr) then parse_failed MODBUS_FERROR_MISM_ADDR status
  else
  fn ← parser !! Parser.base_function;
  rfn ← requestParser !! Parser.base_function;
  if negb (fn =? rfn) then parse_failed MODBUS_FERROR_MISM_FUN status
  else
  index ← rd16 parser Parser.response15_index;
  rindex ← rd16 requestParser Parser.request15_index;
  if negb (index =? rindex) then parse_failed MODBUS_FERROR_MISM_INDEX status
  else
  raw_count ← rd16 parser Parser.response15_count;
  rcount ← rd16 requestParser Parser.request15_count;
  if negb (raw_count =? rcount) then parse_failed MODBUS_FERROR_MISM_COUNT status
  else
  let count := modbusMatchEndian raw_count in
  if 1968 <? count then parse_failed MODBUS_FERROR_COUNT status
  else
  Some (MODBUS_ERROR_OK, set_parseError MODBUS_FERROR_OK
    (set_data (mkData addr (modbusMatchEndian index) count 0
       (Some MODBUS_COIL) 15 (buffer (data status))) status)).
End parse.

(** ** Dispatch, initialisation and clean-up ([master.c]) *)

Definition modbusParseException (status : ModbusMaster) (parser : list Z) : Outcome :=
  addr ← parser !! Parser.base_address;
  fn ← parser !! Parser.base_function;
  code ← parser !! Parser.exception_code_at;
  Some (MODBUS_ERROR_EXCEPTION, set_exception (mkException addr fn code) status).

Definition no_data : MasterData := mkData 0 0 0 0 None 0 None.

(** The switch of [modbusParseResponse] on the function code. *)
Definition dispatch_response (alloc : bool) (status : ModbusMaster)
    (parser requestParser : list Z) : Outcome :=
  fn ← parser !! Parser.base_function;
  if negb (Z.land fn 128 =? 0) && (length_ (response status) =? 5)
  then modbusParseException status parser
  else
  match fn with
  | 1 | 2 => modbusParseResponse0102 alloc status parser requestParser
  | 3 | 4 => modbusParseResponse0304 alloc status parser requestParser
  | 5 => modbusParseResponse05 alloc status parser requestParser
  | 6 => modbusParseResponse06 alloc status parser requestParser
  | 15 => modbusParseResponse15 status parser requestParser
  | 16 => modbusParseResponse16 status parser requestParser
  | 22 => modbusParseResponse22 status parser requestParser
  | _ => parse_failed MODBUS_FERROR_NOFUN status
  end.

Definition modbusParseResponse (alloc : bool) (status : ModbusMaster) : Outcome :=
  let status := set_exception (mkException 0 0 0) status in
  let status := set_data no_data status in
  if (length_ (response status) <? 4) || (length_ (request status) <? 4)
  then parse_failed MODBUS_FERROR_LENGTH status
  else
  match frame (response status), frame (request status) with
  | Some parser, Some requestParser =>
      crcresp ← rd16 parser (Z.to_nat (length_ (response status) - 2));
      crcreq ← rd16 requestParser (Z.to_nat (length_ (request status) - 2));
      expresp ← modbusCRC (Some parser) (length_ (response status) - 2);
      expreq ← modbusCRC (Some requestParser) (length_ (request status) - 2);
      if negb (crcresp =? expresp) || negb (crcreq =? expreq)
      then parse_failed MODBUS_FERROR_CRC status
      else
      dispatch_response alloc (set_parseError MODBUS_FERROR_OK status) parser requestParser
  | _, _ => parse_failed MODBUS_FERROR_LENGTH status
  end.

Definition modbusMasterInit (status : ModbusMaster) : ModbusError * ModbusMaster :=
  let status := set_request None 0 status in
  let status := set_response None 0 status in
  let status := set_data (mkData 0 0 0 0 None (data_function (data status)) None) status in
  (MODBUS_ERROR_OK, set_exception (mkException 0 0 0) status).

Definition modbusMasterEnd (status : ModbusMaster) : ModbusError * ModbusMaster :=
  let status := set_request_frame None status in
  let d := data status in
  (MODBUS_ERROR_OK,
   set_data (mkData (data_address d) (data_index d) (data_count d) (data_length d)
               (data_type d) (data_function d) None) status).

End Master.
