(* ===== verification/ModbusMasterTheory.v ===== *)
(** * ModbusMasterTheory: requests built and responses accepted by the master.

    [build_request] runs the builder of a request; it yields exactly the frame
    of [ModbusPdu] or the documented error.  [reply_data] relates the payload of
    a reply to the [data] structure, and [modbusParseResponse] fills it in from
    any frame that carries such a payload. *)
From S2P Require Import Prelude.
From S2P Require Import Lightmodbus.
From S2P Require Import ModbusSlave.
From S2P Require Import ModbusSlaveSafety.
From S2P Require Import ModbusPdu.
From S2P Require Import ModbusRefinement.
From S2P Require Import ModbusMaster.

(** ** Building *)

Definition build_request (alloc : bool) (m : Master.ModbusMaster) (addr : Z) (r : Request)
    : Master.Outcome :=
  match r with
  | ReadCoils discrete i n =>
      if discrete then Master.modbusBuildRequest02 alloc m addr i n
      else Master.modbusBuildRequest01 alloc m addr i n
  | ReadRegisters input i n =>
      if input then Master.modbusBuildRequest04 alloc m addr i n
      else Master.modbusBuildRequest03 alloc m addr i n
  | WriteCoil i on => Master.modbusBuildRequest05 alloc m addr i (Z.b2z on)
  | WriteRegister i v => Master.modbusBuildRequest06 alloc m addr i v
  | WriteCoils i bits =>
      Master.modbusBuildRequest15 alloc m addr i (Z.of_nat (length bits)) (Some (pack_bits bits))
  | WriteRegisters i vs =>
      Master.modbusBuildRequest16 alloc m addr i (Z.of_nat (length vs)) (Some vs)
  | MaskWrite i a o => Master.modbusBuildRequest22 alloc m addr i a o
  end.

(** The arguments have the C types of the builders. *)
Definition typed_request (r : Request) : Prop :=
  match r with
  | ReadCoils _ i n | ReadRegisters _ i n => is_u16 i ∧ is_u16 n
  | WriteCoil i _ => is_u16 i
  | WriteRegister i v => is_u16 i ∧ is_u16 v
  | WriteCoils i bits => is_u16 i ∧ is_u16 (Z.of_nat (length bits))
  | WriteRegisters i vs => is_u16 i ∧ is_u16 (Z.of_nat (length vs)) ∧ words vs
  | MaskWrite i a o => is_u16 i ∧ is_u16 a ∧ is_u16 o
  end.

(** The number of items is within the limits of the protocol. *)
Definition count_ok (r : Request) : bool :=
  match r with
  | ReadCoils _ _ n => (1 <=? n) && (n <=? 2000)
  | ReadRegisters _ _ n => (1 <=? n) && (n <=? 125)
  | WriteCoils _ bits => (1 <=? Z.of_nat (length bits)) && (Z.of_nat (length bits) <=? 1968)
  | WriteRegisters _ vs => (1 <=? Z.of_nat (length vs)) && (Z.of_nat (length vs) <=? 123)
  | WriteCoil _ _ | WriteRegister _ _ | MaskWrite _ _ _ => true
  end.

(** The length of the reply to a request that succeeds. *)
Definition reply_length (r : Request) : Z :=
  match r with
  | ReadCoils _ _ n => 5 + modbusBitsToBytes n
  | ReadRegisters _ _ n => 5 + 2 * n
  | MaskWrite _ _ _ => 10
  | _ => 8
  end.

Definition build_outcome (alloc : bool) (m : Master.ModbusMaster) (addr : Z) (r : Request)
    : ModbusError * Master.ModbusMaster :=
  if is_read r && (addr =? 0)
  then (MODBUS_ERROR_BUILD, Master.set_buildError MODBUS_FERROR_BROADCAST m)
  else
  let m := Master.reset_request m in
  if negb (count_ok r)
  then (MODBUS_ERROR_BUILD, Master.set_buildError MODBUS_FERROR_COUNT m)
  else if negb alloc then (MODBUS_ERROR_ALLOC, Master.set_request_frame None m)
  else
    (MODBUS_ERROR_OK,
     Master.set_buildError MODBUS_FERROR_OK
       (Master.set_predicted (if addr =? 0 then 0 else reply_length r)
          (Master.set_request (Some (encode_request addr r))
             (Z.of_nat (length (encode_request addr r))) m))).

Lemma typed_wf r : typed_request r → count_ok r = true → wf_request r.
Proof.
  destruct r as [? i n|? i n|i on|i v|i bits|i vs|i a o]; cbn [typed_request count_ok wf_request];
    try done; rewrite andb_true_iff, !Z.leb_le; intuition lia.
Qed.

Lemma wf_typed r : wf_request r → typed_request r.
Proof.
  destruct r as [? i n|? i n|i on|i v|i bits|i vs|i a o]; cbn [typed_request wf_request];
    try done; unfold is_u16; intuition lia.
Qed.

Section builders.
Lemma header7 {A} (k : list Z → option A) m a b w1 w2 c :
  is_u8 a → is_u8 b → is_u16 w1 → is_u16 w2 →
  (f ← st8 (replicate (7 + m) 0) 0 a; f ← st8 f 1 b;
   f ← st16 f 2 (modbusMatchEndian w1); f ← st16 f 4 (modbusMatchEndian w2);
   f ← st8 f 6 c; k f)
  = k ((a :: b :: be16 w1 ++ be16 w2 ++ [u8 c]) ++ replicate m 0).
Proof.
  intros Ha Hb H1 H2. cbn [replicate Nat.add]. stores.
  rewrite <- !le16_swap, !le16_u8 by auto with cmem.
  by rewrite (u8_id a), (u8_id b) by done.
Qed.

Lemma copy_bytes_loop o values n i pre :
  bytes values → (i + n <= length values)%nat → length pre = (o + i)%nat →
  cfor n i (λ i builder, v ← values !! i; st8 builder (o + i) v)
    (pre ++ replicate (n + 2) 0)
  = Some (pre ++ take n (drop i values) ++ [0; 0]).
Proof.
  intros Hb. revert i pre. induction n as [|n IH]; intros i pre Hl Hp; [done|].
  cbn [cfor]. destruct (lookup_lt_is_Some_2 values i) as [v Hv]; [lia|].
  rewrite Hv, bind_ret, st8_Some, bind_ret
    by (rewrite length_app, length_replicate; lia).
  rewrite u8_id by (by apply (bytes_lookup _ _ _ Hb Hv)).
  rewrite insert_app_r_alt, <- Hp, Nat.sub_diag by lia. cbn [Nat.add replicate insert list_insert].
  rewrite (cons_middle v pre), app_assoc.
  rewrite IH; [|lia|rewrite length_app; simpl; lia].
  rewrite (drop_S _ v i) by done. cbn [take]. rewrite <- app_assoc, Nat.add_1_r. done.
Qed.

Lemma length_frame8 a fn w1 w2 : length (with_crc (a :: fn :: be16 w1 ++ be16 w2)) = 8%nat.
Proof. done. Qed.

(** Eight-byte requests. *)
Lemma build8 {A} (k : list Z → option A) a fn w1 w2 :
  is_u8 a → is_u8 fn → is_u16 w1 → is_u16 w2 →
  (f ← st8 (replicate 8 0) 0 a; f ← st8 f 1 fn; f ← st16 f 2 (modbusMatchEndian w1);
   f ← st16 f 4 (modbusMatchEndian w2);
   crc ← modbusCRC (Some f) (8 - 2); f ← st16 f 6 crc; k f) =
  k (with_crc (a :: fn :: be16 w1 ++ be16 w2)).
Proof.
  intros. change (8 - 2) with 6. rewrite reply8_frame by auto with cmem.
  by rewrite !le16_swap.
Qed.
End builders.

Section build_requests.
Context (alloc : bool) (m : Master.ModbusMaster) (addr : Z) (Haddr : is_u8 addr).

(** What every successful builder leaves. *)
Lemma built_spec r predicted len :
  len = Z.of_nat (length (encode_request addr r)) →
  predicted = (if addr =? 0 then 0 else reply_length r) →
  count_ok r = true → is_read r && (addr =? 0) = false → alloc = true →
  Master.built (encode_request addr r) len predicted (Master.reset_request m)
  = Some (build_outcome alloc m addr r).
Proof. intros -> -> Hc Hr ->. unfold build_outcome. by rewrite Hr, Hc. Qed.

Lemma count_test n k : is_u16 n → ((n =? 0) || (k <? n)) = negb ((1 <=? n) && (n <=? k)).
Proof.
  intros Hn. destruct (Z.eqb_spec n 0), (Z.ltb_spec k n), (Z.leb_spec 1 n), (Z.leb_spec n k);
    try done; unfold is_u16 in *; lia.
Qed.

Lemma build_read_coils discrete i n :
  typed_request (ReadCoils discrete i n) →
  Master.modbusBuildRequest0102 alloc m (function_code (ReadCoils discrete i n)) addr i n =
  Some (build_outcome alloc m addr (ReadCoils discrete i n)).
Proof.
  intros [Hi Hn]. pose proof (function_code_u8 (ReadCoils discrete i n)) as Hfn.
  unfold Master.modbusBuildRequest0102. parser_offsets. cbv zeta.
  set (r := ReadCoils discrete i n) in *.
  assert (negb (function_code r =? 1) && negb (function_code r =? 2) = false) as ->
    by (by destruct discrete).
  destruct (addr =? 0) eqn:Ha; [unfold build_outcome; by rewrite Ha|].
  rewrite count_test by done. destruct (negb _) eqn:Hc.
  { unfold build_outcome. rewrite Ha. cbn [andb is_read r count_ok]. by rewrite Hc. }
  apply negb_false_iff in Hc. unfold calloc. destruct alloc eqn:Ealloc.
  2: { unfold build_outcome. rewrite Ha. cbn [andb is_read r count_ok]. by rewrite Hc. }
  znat. rewrite build8, <- Ealloc by done. apply built_spec; try done.
  rewrite Ha. cbn [reply_length r]. pose proof (modbusBitsToBytes_spec n Hn).
  rewrite u8_id by ulia. lia.
Qed.

Lemma build_read_registers input i n :
  typed_request (ReadRegisters input i n) →
  Master.modbusBuildRequest0304 alloc m (function_code (ReadRegisters input i n)) addr i n =
  Some (build_outcome alloc m addr (ReadRegisters input i n)).
Proof.
  intros [Hi Hn]. pose proof (function_code_u8 (ReadRegisters input i n)) as Hfn.
  unfold Master.modbusBuildRequest0304. parser_offsets. cbv zeta.
  set (r := ReadRegisters input i n) in *.
  assert (negb (function_code r =? 3) && negb (function_code r =? 4) = false) as ->
    by (by destruct input).
  destruct (addr =? 0) eqn:Ha; [unfold build_outcome; by rewrite Ha|].
  rewrite count_test by done. destruct (negb _) eqn:Hc.
  { unfold build_outcome. rewrite Ha. cbn [andb is_read r count_ok]. by rewrite Hc. }
  apply negb_false_iff in Hc. unfold calloc. destruct alloc eqn:Ealloc.
  2: { unfold build_outcome. rewrite Ha. cbn [andb is_read r count_ok]. by rewrite Hc. }
  znat. rewrite build8, <- Ealloc by done. apply built_spec; try done.
  rewrite Ha. cbn [reply_length r]. rewrite Z.shiftl_mul_pow2 by lia.
  change (2 ^ 1) with 2. rewrite u8_id by ulia. lia.
Qed.

Lemma not_broadcast (x y : Z) : (if negb (addr =? 0) then x else y) = if addr =? 0 then y else x.
Proof. by destruct (addr =? 0). Qed.

Lemma build_write_coil i on :
  is_u16 i →
  Master.modbusBuildRequest05 alloc m addr i (Z.b2z on) =
  Some (build_outcome alloc m addr (WriteCoil i on)).
Proof.
  intros Hi. unfold Master.modbusBuildRequest05. parser_offsets. cbv zeta.
  unfold calloc. destruct alloc eqn:Ealloc; [|done]. znat.
  replace (if negb (Z.b2z on =? 0) then 0xFF00 else 0) with (coil_word on) by (by destruct on).
  rewrite build8, <- Ealloc by (done || by destruct on).
  rewrite not_broadcast. by apply (built_spec (WriteCoil i on)).
Qed.

Lemma build_write_register i v :
  is_u16 i → is_u16 v →
  Master.modbusBuildRequest06 alloc m addr i v =
  Some (build_outcome alloc m addr (WriteRegister i v)).
Proof.
  intros Hi Hv. unfold Master.modbusBuildRequest06. parser_offsets. cbv zeta.
  unfold calloc. destruct alloc eqn:Ealloc; [|done]. znat.
  rewrite build8, <- Ealloc, not_broadcast by done. by apply (built_spec (WriteRegister i v)).
Qed.

Lemma build_mask_write i a o :
  is_u16 i → is_u16 a → is_u16 o →
  Master.modbusBuildRequest22 alloc m addr i a o =
  Some (build_outcome alloc m addr (MaskWrite i a o)).
Proof.
  intros Hi Ha Ho. unfold Master.modbusBuildRequest22. parser_offsets. cbv zeta.
  unfold calloc. destruct alloc eqn:Ealloc; [|done]. znat.
  change (10 - 2) with 8. rewrite reply10_frame by (done || auto with cmem).
  rewrite !le16_swap, <- Ealloc, not_broadcast by done.
  by apply (built_spec (MaskWrite i a o)).
Qed.

Lemma build_write_coils i bits :
  is_u16 i → is_u16 (Z.of_nat (length bits)) →
  Master.modbusBuildRequest15 alloc m addr i (Z.of_nat (length bits)) (Some (pack_bits bits)) =
  Some (build_outcome alloc m addr (WriteCoils i bits)).
Proof.
  intros Hi Hn. set (r := WriteCoils i bits). unfold Master.modbusBuildRequest15.
  parser_offsets. cbv zeta. rewrite count_test by done.
  pose proof (length_pack_bits bits) as Hlp.
  set (n := Z.of_nat (length bits)) in *. pose proof (modbusBitsToBytes_spec n Hn) as HN.
  set (N := modbusBitsToBytes n) in *.
  destruct (negb _) eqn:Hc.
  { unfold build_outcome. cbn [andb is_read r count_ok]. fold n. by rewrite Hc. }
  apply negb_false_iff in Hc. assert (1 <= n <= 1968) as Hr by ulia.
  unfold calloc. destruct alloc eqn:Ealloc.
  2: { unfold build_outcome. cbn [andb is_read r count_ok]. fold n. by rewrite Hc. }
  rewrite (u8_id (9 + N)) by ulia.
  replace (Z.to_nat (9 + N)) with (7 + (Z.to_nat N + 2))%nat by ulia.
  rewrite header7, u8_id by (done || ulia).
  assert (((addr :: 15 :: be16 i ++ be16 n ++ [N]) ++ replicate (Z.to_nat N + 2) 0)
    !! 6%nat = Some N) as -> by done.
  rewrite bind_ret, copy_bytes_loop, bind_ret by (auto with cmem || by rewrite Hlp).
  rewrite drop_0, firstn_all2, app_assoc by (by rewrite Hlp).
  set (p := _ ++ pack_bits bits).
  assert (p = addr :: 15 :: request_body r) as Hp.
  { unfold p. cbn [request_body r app]. by rewrite <- !app_assoc. }
  assert (length p = (7 + Z.to_nat N)%nat) as Hl by (unfold p; by rewrite length_app, Hlp).
  replace (9 + N - 2) with (Z.of_nat (length p)) by ulia. rewrite Nat2Z.id, finish_frame.
  2: { rewrite Hp. apply (encode_request_bytes addr r); [done|]. split; [done|lia]. }
  rewrite <- Ealloc, not_broadcast, Hp. apply (built_spec r); try done.
  unfold encode_request. cbn [function_code r]. rewrite length_with_crc, <- Hp. ulia.
Qed.

Lemma build_write_registers i vs :
  is_u16 i → is_u16 (Z.of_nat (length vs)) → words vs →
  Master.modbusBuildRequest16 alloc m addr i (Z.of_nat (length vs)) (Some vs) =
  Some (build_outcome alloc m addr (WriteRegisters i vs)).
Proof.
  intros Hi Hn Hvs. set (r := WriteRegisters i vs). unfold Master.modbusBuildRequest16.
  parser_offsets. cbv zeta. rewrite count_test by done.
  set (n := Z.of_nat (length vs)) in *. destruct (negb _) eqn:Hc.
  { unfold build_outcome. cbn [andb is_read r count_ok]. fold n. by rewrite Hc. }
  apply negb_false_iff in Hc. assert (1 <= n <= 123) as Hr by ulia.
  unfold calloc. destruct alloc eqn:Ealloc.
  2: { unfold build_outcome. cbn [andb is_read r count_ok]. fold n. by rewrite Hc. }
  rewrite Z.shiftl_mul_pow2 by lia. change (2 ^ 1) with 2. rewrite (Z.mul_comm n 2).
  rewrite (u8_id (9 + 2 * n)) by ulia.
  replace (Z.to_nat (9 + 2 * n)) with (7 + (2 * length vs + 2))%nat by lia.
  rewrite header7, u8_id by (done || ulia).
  unfold n at 4. rewrite Nat2Z.id.
  rewrite (read_words_loop 7 vs 0 (length vs) 0), bind_ret by (done || lia).
  rewrite drop_0, firstn_all2, app_assoc by done.
  set (p := _ ++ (vs ≫= be16)).
  assert (p = addr :: 16 :: request_body r) as Hp.
  { unfold p. cbn [request_body r app]. by rewrite <- !app_assoc. }
  assert (length p = (7 + 2 * length vs)%nat) as Hl
    by (unfold p; by rewrite length_app, length_be16_list).
  replace (9 + 2 * n - 2) with (Z.of_nat (length p)) by lia.
  replace (7 + 2 * Z.to_nat n)%nat with (length p) by lia. rewrite finish_frame.
  2: { rewrite Hp. apply (encode_request_bytes addr r); [done|]. split; [done|]. split; [lia|done]. }
  rewrite <- Ealloc, not_broadcast, Hp. apply (built_spec r); try done.
  unfold encode_request. cbn [function_code r]. rewrite length_with_crc, <- Hp. lia.
Qed.

Lemma build_request_outcome r :
  typed_request r → build_request alloc m addr r = Some (build_outcome alloc m addr r).
Proof.
  destruct r as [d i n|d i n|i on|i v|i bits|i vs|i a o]; cbn [typed_request]; intros Ht.
  - destruct d; [exact (build_read_coils true i n Ht)|exact (build_read_coils false i n Ht)].
  - destruct d; [exact (build_read_registers true i n Ht)|exact (build_read_registers false i n Ht)].
  - by apply build_write_coil.
  - destruct Ht as [??]. by apply build_write_register.
  - destruct Ht as [??]. by apply build_write_coils.
  - destruct Ht as (? & ? & ?). by apply build_write_registers.
  - destruct Ht as (? & ? & ?). by apply build_mask_write.
Qed.
End build_requests.

(** ** Accepting replies *)

(** The payload of the reply to a request sent to [addr], and the [data]
    structure the master extracts from it. *)
Inductive reply_data (addr : Z) : Request → list Z → Master.MasterData → Prop :=
  | reply_coils discrete i n bits :
      length bits = Z.to_nat n → 1 <= n <= 2000 →
      reply_data addr (ReadCoils discrete i n) (modbusBitsToBytes n :: pack_bits bits)
        (Master.mkData addr i n (modbusBitsToBytes n)
           (Some (if discrete then MODBUS_DISCRETE_INPUT else MODBUS_COIL))
           (function_code (ReadCoils discrete i n)) (Some (pack_bits bits)))
  | reply_registers input i n vs :
      length vs = Z.to_nat n → 1 <= n <= 125 → words vs →
      reply_data addr (ReadRegisters input i n) (2 * n :: (vs ≫= be16))
        (Master.mkData addr i n (2 * n)
           (Some (if input then MODBUS_INPUT_REGISTER else MODBUS_HOLDING_REGISTER))
           (function_code (ReadRegisters input i n)) (Some (vs ≫= le16)))
  | reply_coil i on :
      reply_data addr (WriteCoil i on) (be16 i ++ be16 (coil_word on))
        (Master.mkData addr i 1 1 (Some MODBUS_COIL) 5 (Some [Z.b2z on]))
  | reply_register i v :
      reply_data addr (WriteRegister i v) (be16 i ++ be16 v)
        (Master.mkData addr i 1 2 (Some MODBUS_HOLDING_REGISTER) 6 (Some (le16 v)))
  | reply_write_coils i bits :
      reply_data addr (WriteCoils i bits) (be16 i ++ be16 (Z.of_nat (length bits)))
        (Master.mkData addr i (Z.of_nat (length bits)) 0 (Some MODBUS_COIL) 15 None)
  | reply_write_registers i vs :
      reply_data addr (WriteRegisters i vs) (be16 i ++ be16 (Z.of_nat (length vs)))
        (Master.mkData addr i (Z.of_nat (length vs)) 0 (Some MODBUS_HOLDING_REGISTER) 16 None)
  | reply_mask_write i a o :
      reply_data addr (MaskWrite i a o) (be16 i ++ be16 a ++ be16 o)
        (Master.mkData addr i 1 0 (Some MODBUS_HOLDING_REGISTER) 22 None).

Lemma frame_word p o pre w suf :
  p = pre ++ be16 w ++ suf → o = length pre → is_u16 w →
  rd16 (with_crc p) o = Some (modbusMatchEndian w).
Proof.
  intros -> -> Hw. unfold with_crc. set (c := crc_of _). clearbody c.
  rewrite <- !app_assoc. by apply rd16_be16.
Qed.

(** The loop that copies the registers of a reply into the data buffer. *)
Lemma copy_words_loop parser o vs n i pre :
  words vs → length vs = n → length pre = (2 * i)%nat →
  (∀ j w, vs !! j = Some w → rd16 parser (o + 2 * (i + j)) = Some (modbusMatchEndian w)) →
  cfor n i (λ i buf, v ← rd16 parser (o + 2 * i); st16 buf (2 * i) (modbusMatchEndian v))
    (pre ++ replicate (2 * n) 0)
  = Some (pre ++ (vs ≫= le16)).
Proof.
  intros Hw. revert n i pre. induction Hw as [|v vs Hv Hw IH]; intros n i pre Hl Hp Hr.
  { by destruct n. }
  destruct n as [|n]; [done|]. injection Hl as Hl. cbn [cfor].
  pose proof (Hr 0%nat v eq_refl) as H0. rewrite Nat.add_0_r in H0. rewrite H0, bind_ret.
  rewrite modbusMatchEndian_involutive by done.
  replace (2 * S n)%nat with (S (S (2 * n))) by lia. cbn [replicate].
  rewrite <- Hp, st16_app, bind_ret, bind_cons.
  change (u8 ?a :: u8 ?b :: ?r) with ([u8 a; u8 b] ++ r).
  rewrite <- le16_u8, app_assoc by done.
  rewrite IH; [by rewrite <- app_assoc|done|rewrite length_app, Hp; simpl; lia|].
  intros j w Hj. rewrite <- Nat.add_assoc. by apply (Hr (S j)).
Qed.

(** The first two bytes of a frame. *)
Lemma frame_address a l : with_crc (a :: l) !! 0%nat = Some a.
Proof. done. Qed.
Lemma frame_function a b l : with_crc (a :: b :: l) !! 1%nat = Some b.
Proof. done. Qed.
Lemma frame_third a b c l : with_crc (a :: b :: c :: l) !! 2%nat = Some c.
Proof. done. Qed.

(** The comparisons of the two headers succeed. *)
Ltac same_header :=
  repeat first
    [ rewrite frame_address | rewrite frame_function | rewrite frame_third
    | rewrite bind_ret | rewrite fmap_ret | rewrite Z.eqb_refl ]; cbn [negb orb andb].

Section accept.
Context (addr : Z) (s : Master.ModbusMaster).
Context (Haddr : is_u8 addr) (Hne : (addr =? 0) = false).
Context (Hbuf : Master.buffer (Master.data s) = None).

Definition lengths (n k : Z) : Prop :=
  length_ (Master.response s) = n ∧ length_ (Master.request s) = k.

Definition accepted (d : Master.MasterData) : Master.Outcome :=
  Some (MODBUS_ERROR_OK, Master.set_parseError MODBUS_FERROR_OK (Master.set_data d s)).

Lemma accept05 i on :
  lengths 8 8 → is_u16 i →
  let f := with_crc (addr :: 5 :: be16 i ++ be16 (coil_word on)) in
  Master.modbusParseResponse05 true s f f =
  accepted (Master.mkData addr i 1 1 (Some MODBUS_COIL) 5 (Some [Z.b2z on])).
Proof.
  intros [Hl1 Hl2] Hi f. unfold Master.modbusParseResponse05. parser_offsets.
  rewrite Hl1, Hl2. cbn [Z.eqb Pos.eqb negb orb]. subst f. same_header. rewrite Hne. same_header.
  assert (is_u16 (coil_word on)) by (by destruct on).
  rewrite (frame_word _ 2 [addr; 5] i (be16 (coil_word on))) by done. same_header.
  rewrite (frame_word _ 4 ([addr; 5] ++ be16 i) (coil_word on) []) by done. same_header.
  rewrite modbusMatchEndian_involutive by done. unfold calloc. znat.
  rewrite st8_Some, bind_ret by (simpl; lia). by destruct on.
Qed.

Lemma accept06 i v :
  lengths 8 8 → is_u16 i → is_u16 v →
  let f := with_crc (addr :: 6 :: be16 i ++ be16 v) in
  Master.modbusParseResponse06 true s f f =
  accepted (Master.mkData addr i 1 2 (Some MODBUS_HOLDING_REGISTER) 6 (Some (le16 v))).
Proof.
  intros [Hl1 Hl2] Hi Hv f. unfold Master.modbusParseResponse06. parser_offsets.
  rewrite Hl1, Hl2. cbn [Z.eqb Pos.eqb negb orb]. subst f. same_header. rewrite Hne. same_header.
  rewrite (frame_word _ 2 [addr; 6] i (be16 v)) by done. same_header.
  rewrite (frame_word _ 4 ([addr; 6] ++ be16 i) v []) by done. same_header.
  rewrite !modbusMatchEndian_involutive by done. unfold calloc.
  change (Z.to_nat (1 * 2)) with 2%nat.
  rewrite st16_Some, bind_ret by (simpl; lia). by rewrite le16_u8 by done.
Qed.

Lemma accept22 i a o :
  lengths 10 10 → is_u16 i → is_u16 a → is_u16 o →
  let f := with_crc (addr :: 22 :: be16 i ++ be16 a ++ be16 o) in
  Master.modbusParseResponse22 s f f =
  accepted (Master.mkData addr i 1 0 (Some MODBUS_HOLDING_REGISTER) 22 None).
Proof.
  intros [Hl1 Hl2] Hi Ha Ho f. unfold Master.modbusParseResponse22. parser_offsets.
  rewrite Hl1, Hl2. cbn [Z.eqb Pos.eqb negb orb]. subst f. same_header. rewrite Hne. same_header.
  rewrite (frame_word _ 2 [addr; 22] i (be16 a ++ be16 o)) by done. same_header.
  rewrite (frame_word _ 4 ([addr; 22] ++ be16 i) a (be16 o)) by done. same_header.
  rewrite (frame_word _ 6 ([addr; 22] ++ be16 i ++ be16 a) o []) by done. same_header.
  by rewrite modbusMatchEndian_involutive, Hbuf by done.
Qed.

(** The replies to the multiple writes repeat the index and the count. *)
Lemma accept15 i n vs :
  lengths 8 (9 + modbusBitsToBytes n) → is_u16 i → 1 <= n <= 1968 →
  Master.modbusParseResponse15 s (with_crc (addr :: 15 :: be16 i ++ be16 n))
    (with_crc (addr :: 15 :: be16 i ++ be16 n ++ [modbusBitsToBytes n] ++ vs)) =
  accepted (Master.mkData addr i n 0 (Some MODBUS_COIL) 15 None).
Proof.
  intros [Hl1 Hl2] Hi Hn. unfold Master.modbusParseResponse15. parser_offsets.
  assert (is_u16 n) as Hu by ulia. pose proof (modbusBitsToBytes_spec n Hu).
  rewrite Hl1, Hl2. rewrite (proj2 (Z.ltb_ge _ 7)) by ulia.
  assert (with_crc (addr :: 15 :: be16 i ++ be16 n ++ [modbusBitsToBytes n] ++ vs)
    !! 6%nat = Some (modbusBitsToBytes n)) as -> by done.
  same_header. rewrite Hne. same_header.
  rewrite (frame_word (addr :: 15 :: be16 i ++ be16 n) 2 [addr; 15] i (be16 n)) by done.
  rewrite (frame_word (addr :: 15 :: be16 i ++ be16 n ++ [modbusBitsToBytes n] ++ vs)
    2 [addr; 15] i (be16 n ++ [modbusBitsToBytes n] ++ vs)) by done.
  same_header. rewrite (frame_word (addr :: 15 :: be16 i ++ be16 n) 4 ([addr; 15] ++ be16 i) n []) by done.
  rewrite (frame_word (addr :: 15 :: be16 i ++ be16 n ++ [modbusBitsToBytes n] ++ vs)
    4 ([addr; 15] ++ be16 i) n ([modbusBitsToBytes n] ++ vs)) by done.
  same_header. rewrite !modbusMatchEndian_involutive by done.
  rewrite (proj2 (Z.ltb_ge _ n)) by lia. by rewrite Hbuf.
Qed.

Lemma accept16 i n vs :
  lengths 8 (9 + 2 * n) → is_u16 i → 1 <= n <= 123 →
  Master.modbusParseResponse16 s (with_crc (addr :: 16 :: be16 i ++ be16 n))
    (with_crc (addr :: 16 :: be16 i ++ be16 n ++ [2 * n] ++ vs)) =
  accepted (Master.mkData addr i n 0 (Some MODBUS_HOLDING_REGISTER) 16 None).
Proof.
  intros [Hl1 Hl2] Hi Hn. unfold Master.modbusParseResponse16. parser_offsets.
  assert (is_u16 n) as Hu by ulia.
  rewrite Hl1, Hl2. rewrite (proj2 (Z.ltb_ge _ 7)) by ulia.
  assert (with_crc (addr :: 16 :: be16 i ++ be16 n ++ [2 * n] ++ vs)
    !! 6%nat = Some (2 * n)) as -> by done.
  same_header. rewrite Hne. same_header.
  rewrite (frame_word (addr :: 16 :: be16 i ++ be16 n) 2 [addr; 16] i (be16 n)) by done.
  rewrite (frame_word (addr :: 16 :: be16 i ++ be16 n ++ [2 * n] ++ vs)
    2 [addr; 16] i (be16 n ++ [2 * n] ++ vs)) by done.
  same_header. rewrite (frame_word (addr :: 16 :: be16 i ++ be16 n) 4 ([addr; 16] ++ be16 i) n []) by done.
  rewrite (frame_word (addr :: 16 :: be16 i ++ be16 n ++ [2 * n] ++ vs)
    4 ([addr; 16] ++ be16 i) n ([2 * n] ++ vs)) by done.
  same_header. rewrite !modbusMatchEndian_involutive by done.
  rewrite (proj2 (Z.ltb_ge _ n)) by lia. by rewrite Hbuf.
Qed.

Lemma accept0102 (discrete : bool) i n bits :
  let fn := if discrete then 2 else 1 in
  lengths (5 + modbusBitsToBytes n) 8 → is_u16 i → 1 <= n <= 2000 →
  length bits = Z.to_nat n →
  Master.modbusParseResponse0102 true s
    (with_crc (addr :: fn :: modbusBitsToBytes n :: pack_bits bits))
    (with_crc (addr :: fn :: be16 i ++ be16 n)) =
  accepted (Master.mkData addr i n (modbusBitsToBytes n)
    (Some (if discrete then MODBUS_DISCRETE_INPUT else MODBUS_COIL)) fn
    (Some (pack_bits bits))).
Proof.
  intros fn [Hl1 Hl2] Hi Hn Hlen. unfold Master.modbusParseResponse0102. parser_offsets.
  assert (is_u16 n) as Hu by ulia. pose proof (modbusBitsToBytes_spec n Hu) as HN.
  assert (length (pack_bits bits) = Z.to_nat (modbusBitsToBytes n)) as Hlp.
  { rewrite length_pack_bits. do 2 f_equal. ulia. }
  rewrite !frame_function, bind_ret.
  assert (negb (fn =? 1) && negb (fn =? 2) = false) as -> by (by destruct discrete).
  rewrite Hl1, Hl2. same_header.
  rewrite (frame_word _ 4 ([addr; fn] ++ be16 i) n []) by done. same_header.
  rewrite modbusMatchEndian_involutive, Hne by done. same_header.
  rewrite (proj2 (Z.eqb_neq _ 0)), (proj2 (Z.ltb_ge 250 _)) by ulia. cbn [orb].
  unfold calloc. 
  assert (memcpy (replicate (Z.to_nat (modbusBitsToBytes n)) 0)
    (drop 3 (with_crc (addr :: fn :: modbusBitsToBytes n :: pack_bits bits)))
    (Z.to_nat (modbusBitsToBytes n)) = Some (pack_bits bits)) as ->.
  { set (tl := le16 (crc_of (addr :: fn :: modbusBitsToBytes n :: pack_bits bits))).
    change (drop 3 _) with (pack_bits bits ++ tl). unfold memcpy.
    rewrite length_app, length_replicate, Hlp.
    rewrite Nat.leb_refl, (proj2 (Nat.leb_le _ _)) by lia. cbn [andb].
    rewrite take_app_length', drop_ge, app_nil_r by (rewrite ?length_replicate; lia). done. }
  rewrite bind_ret, (frame_word _ 2 [addr; fn] i (be16 n)) by done. same_header.
  rewrite modbusMatchEndian_involutive by done. by destruct discrete.
Qed.

Lemma accept0304 (input : bool) i n vs :
  let fn := if input then 4 else 3 in
  lengths (5 + 2 * n) 8 → is_u16 i → 1 <= n <= 125 →
  length vs = Z.to_nat n → words vs →
  Master.modbusParseResponse0304 true s
    (with_crc (addr :: fn :: 2 * n :: (vs ≫= be16)))
    (with_crc (addr :: fn :: be16 i ++ be16 n)) =
  accepted (Master.mkData addr i n (2 * n)
    (Some (if input then MODBUS_INPUT_REGISTER else MODBUS_HOLDING_REGISTER)) fn
    (Some (vs ≫= le16))).
Proof.
  intros fn [Hl1 Hl2] Hi Hn Hlen Hvs. unfold Master.modbusParseResponse0304. parser_offsets.
  assert (is_u16 n) as Hu by ulia.
  rewrite !frame_function, bind_ret.
  assert (negb (fn =? 3) && negb (fn =? 4) = false) as -> by (by destruct input).
  rewrite Hl1, Hl2. same_header.
  rewrite (frame_word _ 4 ([addr; fn] ++ be16 i) n []) by done. same_header.
  rewrite modbusMatchEndian_involutive, Hne by done. same_header.
  rewrite (proj2 (Z.eqb_neq _ 0)), (proj2 (Z.ltb_ge 250 _)) by ulia.
  rewrite Z.shiftr_div_pow2 by lia. change (2 ^ 1) with 2. cbn [negb orb]. unfold calloc.
  replace (Z.to_nat (2 * n / 2 * 2)) with (2 * Z.to_nat n)%nat by ulia.
  rewrite (copy_words_loop _ 3 vs (Z.to_nat n) 0 []), bind_ret; try done; cycle 1.
  { intros j w Hj. apply (frame_word _ _ ([addr; fn; 2 * n] ++ (take j vs ≫= be16)) w
      (drop (S j) vs ≫= be16)).
    - rewrite <- (take_drop_middle vs j w) at 1 by done.
      by rewrite bind_app, bind_cons, <- app_assoc.
    - rewrite length_app, length_be16_list, length_take. apply lookup_lt_Some in Hj.
      cbn [length]. lia.
    - by apply (words_lookup _ _ _ Hvs Hj). }
  rewrite (frame_word _ 2 [addr; fn] i (be16 n)) by done. same_header.
  rewrite modbusMatchEndian_involutive by done. by destruct input.
Qed.
End accept.

(** The structure as the response handlers see it. *)
Definition enter (m : Master.ModbusMaster) : Master.ModbusMaster :=
  Master.set_parseError MODBUS_FERROR_OK
    (Master.set_data Master.no_data (Master.set_exception (Master.mkException 0 0 0) m)).

(** A frame as it lies in a master or slave structure. *)
Definition whole (f : list Z) : Frame := mkFrame (Some f) (Z.of_nat (length f)).

Lemma modbusParseResponse_enter alloc m p q :
  bytes p → bytes q → (2 <= length p <= 253)%nat → (2 <= length q <= 253)%nat →
  Master.response m = whole (with_crc p) → Master.request m = whole (with_crc q) →
  Master.modbusParseResponse alloc m =
  Master.dispatch_response alloc (enter m) (with_crc p) (with_crc q).
Proof.
  intros Hp Hq Hlp Hlq Hresp Hreq. unfold Master.modbusParseResponse. cbv zeta.
  set (m1 := Master.set_data _ _).
  change (Master.response m1) with (Master.response m).
  change (Master.request m1) with (Master.request m).
  rewrite Hresp, Hreq. cbn [whole frame length_].
  assert (∀ l, bytes l → (length l <= 253)%nat →
    rd16 (with_crc l) (Z.to_nat (Z.of_nat (length (with_crc l)) - 2)) = Some (crc_of l) ∧
    modbusCRC (Some (with_crc l)) (Z.of_nat (length (with_crc l)) - 2) = Some (crc_of l)) as Hcrc.
  { intros l Hl Hn. rewrite <- (u16_id (Z.of_nat (length (with_crc l)) - 2)) at 2.
    - apply with_crc_accepted; [done|done|]. rewrite length_with_crc. lia.
    - rewrite length_with_crc. unfold is_u16. lia. }
  destruct (Hcrc p) as [Hp1 Hp2]; [done|lia|]. destruct (Hcrc q) as [Hq1 Hq2]; [done|lia|].
  rewrite Hp1, bind_ret, Hq1, bind_ret, Hp2, bind_ret, Hq2, bind_ret, !Z.eqb_refl.
  rewrite !length_with_crc, !(proj2 (Z.ltb_ge _ 4)) by lia. done.
Qed.

Lemma reply_data_bytes addr r body d :
  wf_request r → reply_data addr r body d → bytes body ∧ (1 <= length body <= 251)%nat.
Proof.
  intros Hwf Hreply. revert Hwf.
  destruct Hreply as [? i n bits Hl Hn|? i n vs Hl Hn Hvs|i on|i v|i bits|i vs|i a o];
    cbn [wf_request].
  - intros [? Hu]. pose proof (modbusBitsToBytes_spec n Hu) as HN. split.
    + constructor; [ulia|apply pack_bits_bytes].
    + cbn [length]. rewrite length_pack_bits, Hl, Z2Nat.id by lia. ulia.
  - intros [??]. split.
    + constructor; [ulia|by apply bytes_be16_list].
    + cbn [length]. rewrite length_be16_list. lia.
  - intros ?. split; [destruct on; cbn [coil_word]; solve_bytes|rewrite !length_app, !length_be16; lia].
  - intros [??]. split; [solve_bytes|rewrite !length_app, !length_be16; lia].
  - intros [??]. split; [solve_bytes|rewrite !length_app, !length_be16; lia].
  - intros (?&?&?). split; [solve_bytes|rewrite !length_app, !length_be16; lia].
  - intros (?&?&?). split; [solve_bytes|rewrite !length_app, !length_be16; lia].
Qed.

Lemma request_body_length r : wf_request r → (4 <= length (request_body r) <= 251)%nat.
Proof.
  destruct r as [? i n|? i n|i on|i v|i bits|i vs|i a o]; cbn [wf_request request_body];
    intros Hwf; rewrite !length_app, !length_be16; try lia.
  - destruct Hwf as [? Hn]. assert (is_u16 (Z.of_nat (length bits))) as Hu by (unfold is_u16; lia).
    pose proof (modbusBitsToBytes_spec _ Hu).
    rewrite length_pack_bits. cbn [length]. ulia.
  - rewrite length_be16_list. cbn [length]. lia.
Qed.

Lemma modbusParseResponse_accepts m addr r body d :
  is_u8 addr → addr ≠ 0 → wf_request r → reply_data addr r body d →
  Master.request m = whole (encode_request addr r) →
  Master.response m = whole (with_crc (addr :: function_code r :: body)) →
  Master.modbusParseResponse true m =
  Some (MODBUS_ERROR_OK, Master.set_data d (enter m)).
Proof.
  intros Haddr Hne%Z.eqb_neq Hwf Hreply Hreq Hresp.
  destruct (reply_data_bytes _ _ _ _ Hwf Hreply) as [Hbody Hlbody].
  pose proof (request_body_length r Hwf) as Hlq.
  rewrite (modbusParseResponse_enter true m (addr :: function_code r :: body)
    (addr :: function_code r :: request_body r)); try done; [| | |cbn [length]; lia..].
  2: { constructor; [done|]. constructor; [apply function_code_u8|done]. }
  2: { by apply encode_request_bytes. }
  assert (length_ (Master.response (enter m)) = Z.of_nat (length body) + 4) as Hl1.
  { change (Master.response (enter m)) with (Master.response m). rewrite Hresp. cbn [whole length_].
    rewrite length_with_crc. cbn [length]. lia. }
  assert (length_ (Master.request (enter m)) = Z.of_nat (length (request_body r)) + 4) as Hl2.
  { change (Master.request (enter m)) with (Master.request m). rewrite Hreq. cbn [whole length_].
    unfold encode_request. rewrite length_with_crc. cbn [length]. lia. }
  assert (Master.buffer (Master.data (enter m)) = None) as Hbuf by done.
  change (Some _) with (accepted (enter m) d).
  set (s := enter m) in *. clearbody s. clear Hreq Hresp.
  unfold Master.dispatch_response. parser_offsets. rewrite frame_function, bind_ret.
  assert (Z.land (function_code r) 128 = 0) as -> by (by destruct r as [[]|[]| | | | |]).
  cbn [Z.eqb negb andb].
  destruct Hreply as [disc i n bits Hl Hn|input i n vs Hl Hn Hvs|i on|i v|i bits|i vs|i a o];
    cbn [wf_request] in Hwf.
  - destruct Hwf as [? Hu]. pose proof (modbusBitsToBytes_spec n Hu).
    assert (lengths s (5 + modbusBitsToBytes n) 8).
    { split; [rewrite Hl1|by rewrite Hl2]. cbn [length].
      rewrite length_pack_bits, Hl, Z2Nat.id by lia. ulia. }
    destruct disc; [apply (accept0102 addr s) with (discrete := true)
      |apply (accept0102 addr s) with (discrete := false)]; done.
  - destruct Hwf as [? Hu].
    assert (lengths s (5 + 2 * n) 8).
    { split; [rewrite Hl1|by rewrite Hl2]. cbn [length]. rewrite length_be16_list. lia. }
    destruct input; [apply (accept0304 addr s) with (input := true)
      |apply (accept0304 addr s) with (input := false)]; done.
  - by apply (accept05 addr s).
  - destruct Hwf. by apply (accept06 addr s).
  - destruct Hwf as [? Hb]. apply (accept15 addr s); try done; [|lia].
    assert (is_u16 (Z.of_nat (length bits))) as Hu by (unfold is_u16; lia).
    pose proof (modbusBitsToBytes_spec _ Hu).
    split; [by rewrite Hl1|rewrite Hl2]. cbn [request_body].
    rewrite !length_app, !length_be16, length_pack_bits. cbn [length]. ulia.
  - destruct Hwf as (? & Hb & ?). apply (accept16 addr s); try done; [|lia].
    split; [by rewrite Hl1|rewrite Hl2]. cbn [request_body].
    rewrite !length_app, !length_be16, length_be16_list. cbn [length]. lia.
  - destruct Hwf as (? & ? & ?). by apply (accept22 addr s).
Qed.

(** An exception frame is recorded whoever sent it. *)
Lemma modbusParseResponse_exception alloc m addr fn code q :
  is_u8 addr → is_u8 fn → is_u8 code → bytes q → (2 <= length q <= 253)%nat →
  Master.request m = whole (with_crc q) →
  Master.response m = whole (with_crc [addr; Z.lor 128 fn; code]) →
  Master.modbusParseResponse alloc m =
  Some (MODBUS_ERROR_EXCEPTION,
        Master.set_exception (Master.mkException addr (Z.lor 128 fn) code) (enter m)).
Proof.
  intros Ha Hfn Hc Hq Hlq Hreq Hresp.
  assert (is_u8 (Z.lor 128 fn)) as Hf by (apply (lor_bound _ _ 8); unfold is_u8 in *; lia).
  rewrite (modbusParseResponse_enter alloc m [addr; Z.lor 128 fn; code] q);
    try done; [|solve_bytes|simpl; lia].
  unfold Master.dispatch_response. parser_offsets. rewrite frame_function, bind_ret.
  change (Master.response (enter m)) with (Master.response m). rewrite Hresp.
  assert ((Z.land (Z.lor 128 fn) 128 =? 0) = false) as ->; [|done].
  apply Z.eqb_neq. intros E. apply (f_equal (λ x, Z.testbit x 7)) in E.
  rewrite Z.land_spec, Z.lor_spec, Z.bits_0 in E. done.
Qed.

(** ** Safety of the response handlers *)

(** A frame of a master: at least the announced bytes. *)
Record wf_master (m : Master.ModbusMaster) : Prop := {
  wf_master_request : wf_frame (Master.request m);
  wf_master_response : wf_frame (Master.response m);
}.

(** The data structure filled from an accepted response [p] to the request [q]. *)
Record matching (p q : list Z) (d : Master.MasterData) : Prop := {
  match_address : p !! 0%nat = Some (Master.data_address d) ∧ q !! 0%nat = p !! 0%nat;
  match_not_broadcast : Master.data_address d ≠ 0;
  match_function : p !! 1%nat = Some (Master.data_function d) ∧ q !! 1%nat = p !! 1%nat;
  match_index : modbusMatchEndian <$> rd16 q 2 = Some (Master.data_index d);
  match_buffer : match Master.buffer d with
                 | None => Master.data_length d = 0
                 | Some b => bytes b ∧ Z.of_nat (length b) = Master.data_length d
                 end;
}.

Definition responds (p q : list Z) (s : Master.ModbusMaster) (o : Master.Outcome) : Prop :=
  ∃ e s', o = Some (e, s') ∧
    Master.request s' = Master.request s ∧ Master.response s' = Master.response s ∧
    (e = MODBUS_ERROR_OK → matching p q (Master.data s')) ∧
    (e ≠ MODBUS_ERROR_OK → Master.data s' = Master.data s).

Section responses.
Context (alloc : bool) (s : Master.ModbusMaster) (p q : list Z).
Context (Hwf : wf_master s) (Hdata : Master.data s = Master.no_data).
Context (Hp : frame (Master.response s) = Some p) (Hq : frame (Master.request s) = Some q).
Context (Hlp : 4 <= length_ (Master.response s)) (Hlq : 4 <= length_ (Master.request s)).

Lemma response_load8 o :
  Z.of_nat o < length_ (Master.response s) → ∃ b, p !! o = Some b ∧ is_u8 b.
Proof.
  intros Ho. destruct (wf_master_response s Hwf) as [_ H]. destruct (H p Hp) as [Hb Hl].
  destruct (lookup_lt_is_Some_2 p o) as [b E]; [lia|].
  exists b. split; [done|]. by apply (bytes_lookup _ _ _ Hb E).
Qed.

Lemma request_load8 o :
  Z.of_nat o < length_ (Master.request s) → ∃ b, q !! o = Some b ∧ is_u8 b.
Proof.
  intros Ho. destruct (wf_master_request s Hwf) as [_ H]. destruct (H q Hq) as [Hb Hl].
  destruct (lookup_lt_is_Some_2 q o) as [b E]; [lia|].
  exists b. split; [done|]. by apply (bytes_lookup _ _ _ Hb E).
Qed.

Lemma response_load16 o :
  Z.of_nat o + 1 < length_ (Master.response s) → ∃ w, rd16 p o = Some w ∧ is_u16 w.
Proof.
  intros Ho. destruct (wf_master_response s Hwf) as [_ H]. destruct (H p Hp) as [Hb Hl].
  destruct (rd16_Some p o) as (lo & hi & _ & _ & E); [lia|].
  eexists. split; [done|]. by apply (rd16_u16 _ _ _ Hb E).
Qed.

Lemma request_load16 o :
  Z.of_nat o + 1 < length_ (Master.request s) → ∃ w, rd16 q o = Some w ∧ is_u16 w.
Proof.
  intros Ho. destruct (wf_master_request s Hwf) as [_ H]. destruct (H q Hq) as [Hb Hl].
  destruct (rd16_Some q o) as (lo & hi & _ & _ & E); [lia|].
  eexists. split; [done|]. by apply (rd16_u16 _ _ _ Hb E).
Qed.

Lemma parse_failed_responds e : responds p q s (Master.parse_failed e s).
Proof. do 2 eexists. by do 4 (split; [done|]). Qed.

Lemma alloc_failed_responds : responds p q s (Some (MODBUS_ERROR_ALLOC, s)).
Proof. do 2 eexists. by do 4 (split; [done|]). Qed.

Lemma accepted_responds d : matching p q d → responds p q s (accepted s d).
Proof. do 2 eexists. by do 4 (split; [done|]). Qed.

(** Any copy of registers out of the response stays inside both blocks. *)
Lemma copy_words_total n i buf :
  bytes buf → length buf = (2 * (i + n))%nat →
  3 + 2 * Z.of_nat (i + n) <= length_ (Master.response s) →
  ∃ buf', cfor n i (λ i buf, v ← rd16 p (3 + 2 * i); st16 buf (2 * i) (modbusMatchEndian v))
            buf = Some buf' ∧ bytes buf' ∧ length buf' = length buf.
Proof.
  revert i buf. induction n as [|n IH]; intros i buf Hb Hl Hr; [by exists buf|]. cbn [cfor].
  destruct (response_load16 (3 + 2 * i)) as (w & -> & Hw); [lia|].
  rewrite bind_ret, st16_Some, bind_ret by lia.
  edestruct (IH (i + 1)%nat) as (buf' & -> & Hb' & Hl'); [| | |exists buf'].
  - apply bytes_insert; [apply bytes_insert; [done|]|]; auto with cmem.
  - rewrite !length_insert. lia.
  - lia.
  - split; [done|]. split; [done|]. by rewrite Hl', !length_insert.
Qed.
End responses.

(** One test or one load of a handler. *)
Ltac handler_step :=
  match goal with
  | |- responds _ _ _ (if ?c then _ else _) =>
      destruct c eqn:?; [apply parse_failed_responds|]
  | H : frame (Master.response ?s) = Some ?p |- responds ?p _ _ (?p !! ?o ≫= _) =>
      let b := fresh "b" in let E := fresh "E" in
      destruct (response_load8 s p ltac:(assumption) ltac:(assumption) o ltac:(lia)) as (b & E & ?);
      rewrite E, ?bind_ret
  | H : frame (Master.request ?s) = Some ?q |- responds _ ?q _ (?q !! ?o ≫= _) =>
      let b := fresh "b" in let E := fresh "E" in
      destruct (request_load8 s q ltac:(assumption) ltac:(assumption) o ltac:(lia)) as (b & E & ?);
      rewrite E, ?bind_ret
  | H : frame (Master.response ?s) = Some ?p |- responds ?p _ _ (rd16 ?p ?o ≫= _) =>
      let b := fresh "w" in let E := fresh "E" in
      destruct (response_load16 s p ltac:(assumption) ltac:(assumption) o ltac:(lia)) as (b & E & ?);
      rewrite E, ?bind_ret
  | H : frame (Master.request ?s) = Some ?q |- responds _ ?q _ (rd16 ?q ?o ≫= _) =>
      let b := fresh "w" in let E := fresh "E" in
      destruct (request_load16 s q ltac:(assumption) ltac:(assumption) o ltac:(lia)) as (b & E & ?);
      rewrite E, ?bind_ret
  end.

Section responses_safe.
Context (alloc : bool) (s : Master.ModbusMaster) (p q : list Z).
Context (Hwf : wf_master s) (Hdata : Master.data s = Master.no_data).
Context (Hp : frame (Master.response s) = Some p) (Hq : frame (Master.request s) = Some q).
Context (Hlp : 4 <= length_ (Master.response s)) (Hlq : 4 <= length_ (Master.request s)).

(** Turns the comparisons that held into equations. *)
Ltac equations :=
  repeat match goal with
  | H : negb (?x =? ?y) = false |- _ => apply negb_false_iff, Z.eqb_eq in H
  | H : (?x =? ?y) = false |- _ => apply Z.eqb_neq in H
  end; subst.

(** The fields of the filled structure, the data block apart. *)
Ltac fields :=
  equations; apply accepted_responds; split; cbn [Master.data_address Master.data_function
    Master.data_index Master.data_length Master.buffer];
  [ split; congruence | done | split; congruence
  | match goal with H : rd16 q 2 = _ |- _ => by rewrite H end | ].

Lemma responds06 :
  p !! 1%nat = Some 6 → responds p q s (Master.modbusParseResponse06 alloc s p q).
Proof.
  intros Hfn. unfold Master.modbusParseResponse06. parser_offsets.
  repeat handler_step. unfold calloc. destruct alloc; [|apply alloc_failed_responds].
  change (Z.to_nat (1 * 2)) with 2%nat. rewrite st16_Some, bind_ret by (simpl; lia).
  fields. split; [solve_bytes|done].
Qed.

Lemma responds05 :
  p !! 1%nat = Some 5 → responds p q s (Master.modbusParseResponse05 alloc s p q).
Proof.
  intros Hfn. unfold Master.modbusParseResponse05. parser_offsets.
  repeat handler_step. unfold calloc. destruct alloc; [|apply alloc_failed_responds].
  change (Z.to_nat 1) with 1%nat. rewrite st8_Some, bind_ret by (simpl; lia).
  fields. split; [solve_bytes|done].
Qed.

Lemma responds15 :
  p !! 1%nat = Some 15 → responds p q s (Master.modbusParseResponse15 s p q).
Proof.
  intros Hfn. unfold Master.modbusParseResponse15. parser_offsets.
  repeat handler_step. fields. by rewrite Hdata.
Qed.

Lemma responds16 :
  p !! 1%nat = Some 16 → responds p q s (Master.modbusParseResponse16 s p q).
Proof.
  intros Hfn. unfold Master.modbusParseResponse16. parser_offsets.
  repeat handler_step. fields. by rewrite Hdata.
Qed.

Lemma responds22 :
  p !! 1%nat = Some 22 → responds p q s (Master.modbusParseResponse22 s p q).
Proof.
  intros Hfn. unfold Master.modbusParseResponse22. parser_offsets.
  repeat handler_step. fields. by rewrite Hdata.
Qed.

Lemma responds0102 : responds p q s (Master.modbusParseResponse0102 alloc s p q).
Proof.
  unfold Master.modbusParseResponse0102. parser_offsets.
  do 4 handler_step.
  destruct (request_load16 s q Hwf Hq 4 ltac:(lia)) as (wc & -> & Hwc). rewrite fmap_ret, bind_ret.
  repeat handler_step. unfold calloc. destruct alloc; [|apply alloc_failed_responds].
  destruct (wf_master_response s Hwf) as [_ Hr]. destruct (Hr p Hp) as [Hb Hl].
  unfold memcpy. rewrite length_replicate, length_drop.
  rewrite !(proj2 (Nat.leb_le _ _)) by lia. cbn [andb]. rewrite bind_ret.
  destruct (request_load16 s q Hwf Hq 2 ltac:(lia)) as (wi & Ei & Hwi).
  rewrite Ei, fmap_ret, bind_ret. fields. split.
  - apply bytes_app. split; [by apply bytes_take, bytes_drop|apply bytes_drop, bytes_zeroes].
  - rewrite length_app, length_take, !length_drop, length_replicate.
    unfold is_u8 in *. lia.
Qed.

Lemma responds0304 : responds p q s (Master.modbusParseResponse0304 alloc s p q).
Proof.
  unfold Master.modbusParseResponse0304. parser_offsets.
  do 4 handler_step.
  destruct (request_load16 s q Hwf Hq 4 ltac:(lia)) as (wc & -> & Hwc). rewrite fmap_ret, bind_ret.
  repeat handler_step. unfold calloc. destruct alloc; [|apply alloc_failed_responds].
  pose proof (modbusMatchEndian_u16 wc Hwc).
  set (count := modbusMatchEndian wc) in *. rewrite Z.shiftr_div_pow2 by lia.
  assert (b0 = 2 * count) as -> by (rewrite Z.shiftl_mul_pow2 in * by lia; lia).
  change (2 ^ 1) with 2.
  destruct (copy_words_total s p Hwf Hp (Z.to_nat count) 0
    (replicate (Z.to_nat (2 * count / 2 * 2)) 0)) as (buf & -> & Hb & Hl).
  { apply bytes_zeroes. }
  { rewrite length_replicate. ulia. }
  { ulia. }
  rewrite bind_ret.
  destruct (request_load16 s q Hwf Hq 2 ltac:(lia)) as (wi & Ei & Hwi).
  rewrite Ei, fmap_ret, bind_ret. fields. split; [done|].
  rewrite Hl, length_replicate. ulia.
Qed.

Lemma dispatch_responds : responds p q s (Master.dispatch_response alloc s p q).
Proof.
  unfold Master.dispatch_response. parser_offsets.
  destruct (response_load8 s p Hwf Hp 1 ltac:(lia)) as (fn & E & Hfn). rewrite E, bind_ret.
  destruct (_ && _) eqn:Hex.
  - unfold Master.modbusParseException. parser_offsets.
    repeat handler_step. do 2 eexists. by do 4 (split; [done|]).
  - apply dispatch_cases; try (intros ->).
    + intros _. apply responds0102.
    + intros _. apply responds0304.
    + by apply responds05.
    + by apply responds06.
    + by apply responds15.
    + by apply responds16.
    + by apply responds22.
    + apply parse_failed_responds.
Qed.
End responses_safe.

(** What [modbusParseResponse] guarantees for any two frames. *)
Record parsed (m : Master.ModbusMaster) (e : ModbusError) (m' : Master.ModbusMaster) : Prop := {
  parsed_request : Master.request m' = Master.request m;
  parsed_response : Master.response m' = Master.response m;
  parsed_error : e ≠ MODBUS_ERROR_OK → Master.data m' = Master.no_data;
  parsed_ok : e = MODBUS_ERROR_OK → ∃ p q,
    frame (Master.response m) = Some p ∧ frame (Master.request m) = Some q ∧
    matching p q (Master.data m');
}.

Lemma modbusParseResponse_parsed alloc m :
  wf_master m → ∃ e m', Master.modbusParseResponse alloc m = Some (e, m') ∧ parsed m e m'.
Proof.
  intros Hwf. unfold Master.modbusParseResponse. cbv zeta.
  set (m0 := Master.set_data _ _).
  change (Master.response m0) with (Master.response m).
  change (Master.request m0) with (Master.request m).
  assert (∀ e, ∃ e' m', Master.parse_failed e m0 = Some (e', m') ∧ parsed m e' m') as Hfail.
  { intros e. do 2 eexists. split; [done|]. by split. }
  match goal with |- context [if ?c then _ else _] => destruct c eqn:Hlen end; [apply Hfail|].
  destruct (frame (Master.response m)) as [p|] eqn:Hp; [|apply Hfail].
  destruct (frame (Master.request m)) as [q|] eqn:Hq; [|apply Hfail].
  assert (4 <= length_ (Master.response m) ∧ 4 <= length_ (Master.request m)) as [Hlp Hlq] by lia.
  destruct (response_load16 m p Hwf Hp (Z.to_nat (length_ (Master.response m) - 2)))
    as (c1 & -> & _); [lia|].
  destruct (request_load16 m q Hwf Hq (Z.to_nat (length_ (Master.request m) - 2)))
    as (c2 & -> & _); [lia|].
  destruct (wf_master_response m Hwf) as [_ Hr]. destruct (Hr p Hp) as [_ Hpl].
  destruct (wf_master_request m Hwf) as [_ Hs]. destruct (Hs q Hq) as [_ Hql].
  rewrite !bind_ret, !modbusCRC_spec, !bind_ret by lia.
  match goal with |- context [if ?c then _ else _] => destruct c end; [apply Hfail|].
  assert (wf_master (enter m)) as Hwf' by (by destruct Hwf).
  destruct (dispatch_responds alloc (enter m) p q Hwf' eq_refl Hp Hq Hlp Hlq)
    as (e & m' & E & H1 & H2 & H3 & H4).
  exists e, m'. split; [exact E|]. split; try done.
  intros He. exists p, q. auto.
Qed.

(** ** Whatever is accepted as the reply to a read of registers *)

(** Follows the branch of a handler that succeeds. *)
Ltac succeeding :=
  repeat match goal with
  | |- (if ?c then _ else _) = _ → _ => destruct c eqn:?; [discriminate|]
  | |- match calloc ?a ?k with Some _ => _ | None => _ end = _ → _ => destruct (calloc a k); [|discriminate]
  | |- Some _ ≫= _ = _ → _ => rewrite bind_ret
  | |- ?o ≫= _ = _ → _ => destruct o; [|discriminate]
  end.

Lemma accepted0304 alloc s p q n m' :
  modbusMatchEndian <$> rd16 q 4 = Some n → 0 <= n →
  Master.modbusParseResponse0304 alloc s p q = Some (MODBUS_ERROR_OK, m') →
  is_Some (Master.data_type (Master.data m')) ∧ is_Some (Master.buffer (Master.data m')) ∧
  Master.data_length (Master.data m') = 2 * n.
Proof.
  intros Hn Hpos. unfold Master.modbusParseResponse0304. parser_offsets. rewrite Hn.
  succeeding.
  intros [= <-]. cbn. split; [done|]. split; [done|].
  repeat match goal with H : _ || _ = false |- _ => apply orb_false_iff in H as [? ?] end.
  rewrite Z.shiftl_mul_pow2 in * by lia. lia.
Qed.

(** The data of an accepted reply to a read of [n] registers: a register type and
    a buffer with as many words as were asked for. *)
Lemma parsed_registers alloc m m' addr input i n :
  wf_master m → is_u8 addr → is_u16 i → is_u16 n →
  frame (Master.request m) = Some (encode_request addr (ReadRegisters input i n)) →
  Master.modbusParseResponse alloc m = Some (MODBUS_ERROR_OK, m') →
  is_Some (Master.data_type (Master.data m')) ∧
  ∃ b, Master.buffer (Master.data m') = Some b ∧ bytes b ∧ Z.of_nat (length b) = 2 * n.
Proof.
  intros Hwf Ha Hi Hn Hreq E.
  destruct (modbusParseResponse_parsed alloc m Hwf) as (e & m1 & E1 & Hparsed).
  rewrite E in E1. injection E1 as <- <-.
  destruct (parsed_ok _ _ _ Hparsed eq_refl) as (p & q & Hp & Hq & [_ _ [Hf Hqf] _ Hbuf]).
  rewrite Hreq in Hq. injection Hq as <-. unfold encode_request in Hqf. rewrite frame_function in Hqf.
  symmetry in Hqf.
  revert E. unfold Master.modbusParseResponse. cbv zeta.
  set (m0 := Master.set_data _ _).
  change (Master.response m0) with (Master.response m). change (Master.request m0) with (Master.request m).
  rewrite Hp, Hreq.
  succeeding.
  unfold Master.dispatch_response. parser_offsets. rewrite Hqf, bind_ret.
  assert ((Z.land (function_code (ReadRegisters input i n)) 128 =? 0) = true) as -> by by destruct input.
  cbn [negb andb]. intros E.
  assert (∃ s, Master.modbusParseResponse0304 alloc s p (encode_request addr (ReadRegisters input i n)) =
    Some (MODBUS_ERROR_OK, m')) as [s E0].
  { eexists. destruct input; exact E. }
  set (fn := function_code (ReadRegisters input i n)) in *.
  assert (modbusMatchEndian <$> rd16 (encode_request addr (ReadRegisters input i n)) 4 = Some n) as Hcount.
  { unfold encode_request. rewrite (frame_word _ 4 ([addr; fn] ++ be16 i) n []) by done.
    by rewrite fmap_ret, modbusMatchEndian_involutive. }
  destruct (accepted0304 _ _ _ _ _ _ Hcount ltac:(unfold is_u16 in *; lia) E0) as (Ht & [b Eb] & El).
  split; [done|]. exists b. rewrite Eb in Hbuf. destruct Hbuf as [? ?]. split_and!; [done|done|lia].
Qed.
