(* ===== verification/ModbusLink.v ===== *)
(** * ModbusLink: masters and slaves on one line.

    [Server] is what a Modbus slave promises to the masters: it consumes frames
    and answers them as [ModbusPdu.serve] says.  The library's slave is an
    instance.  A master's transaction ([transact]) and a multi-drop bus
    ([bus_receive]) are studied against the interface. *)
From S2P Require Import Prelude.
From S2P Require Import Lightmodbus.
From S2P Require Import ModbusSlave.
From S2P Require Import ModbusSlaveSafety.
From S2P Require Import ModbusPdu.
From S2P Require Import ModbusRefinement.
From S2P Require Import ModbusMaster.
From S2P Require Import ModbusMasterTheory.

(** ** The interface *)

(** The data after a request, and the reply frame. *)
Definition effect (d : SlaveData) (r : Request) : SlaveData :=
  match serve d r with Accepted _ d' => d' | Refused _ _ => d end.

Definition reply_frame (addr : Z) (d : SlaveData) (r : Request) : list Z :=
  match serve d r with
  | Accepted body _ => with_crc (addr :: function_code r :: body)
  | Refused code _ => with_crc [addr; Z.lor 128 (function_code r); exception_code code]
  end.

(** [receive s f] is the reply to the frame [f], [None] for silence, and the
    next state. *)
Class Server (S : Type) := {
  server_address : S → Z;
  server_data : S → SlaveData;
  server_ok : S → Prop;
  receive : S → list Z → option (option (list Z) * S);
}.

Class ServerLaws (S : Type) `{Server S} := {
  server_ok_data s : server_ok s → wf_data (server_data s);
  server_ok_address s : server_ok s → is_u8 (server_address s) ∧ server_address s ≠ 0;
  receive_own s r :
    server_ok s → wf_request r →
    ∃ s', receive s (encode_request (server_address s) r)
            = Some (Some (reply_frame (server_address s) (server_data s) r), s') ∧
      server_ok s' ∧ server_address s' = server_address s ∧
      server_data s' = effect (server_data s) r;
  receive_broadcast s r :
    server_ok s → wf_request r →
    ∃ s', receive s (encode_request 0 r) = Some (None, s') ∧
      server_ok s' ∧ server_address s' = server_address s ∧
      server_data s' = effect (server_data s) r;
  receive_other s addr r :
    server_ok s → wf_request r → is_u8 addr → addr ≠ server_address s → addr ≠ 0 →
    ∃ s', receive s (encode_request addr r) = Some (None, s') ∧
      server_ok s' ∧ server_address s' = server_address s ∧
      server_data s' = server_data s;
}.

(** ** The slave of the library is a server *)

Definition slave_receive (s : ModbusSlave) (f : list Z) : option (option (list Z) * ModbusSlave) :=
  '(_, s) ← modbusParseRequest true [] (set_request (Some f) (Z.of_nat (length f)) s);
  Some (if length_ (response s) =? 0 then None else frame (response s), s).

Record slave_ok (s : ModbusSlave) : Prop := {
  slave_ok_data : wf_data (data s);
  slave_ok_address : is_u8 (address s) ∧ address s ≠ 0;
}.

#[export] Instance slave_server : Server ModbusSlave := {
  server_address := address;
  server_data := data;
  server_ok := slave_ok;
  receive := slave_receive;
}.

Section slave_laws.
Context (s : ModbusSlave) (r : Request).
Context (Hok : slave_ok s) (Hr : wf_request r).

Lemma loaded_wf f :
  bytes f → (length f <= 255)%nat →
  wf_slave (set_request (Some f) (Z.of_nat (length f)) s).
Proof.
  intros Hf Hl. destruct Hok as [Hd [Ha _]]. split; [done|done|].
  split; [unfold is_u8; cbn; lia|]. intros f' [= <-]. cbn. split; [done|lia].
Qed.

Lemma encode_request_wf addr :
  is_u8 addr → bytes (encode_request addr r) ∧ (8 <= length (encode_request addr r) <= 255)%nat.
Proof.
  intros Ha. pose proof (request_body_length r Hr) as Hl. split.
  - by apply with_crc_bytes, encode_request_bytes.
  - unfold encode_request. rewrite length_with_crc. cbn [length]. lia.
Qed.

Lemma slave_receive_deliver addr :
  is_u8 addr → addr = address s ∨ addr = 0 →
  slave_receive s (encode_request addr r) =
  let s' := snd (deliver true (set_request (Some (encode_request addr r))
                   (Z.of_nat (length (encode_request addr r))) s) addr r) in
  Some (if length_ (response s') =? 0 then None else frame (response s'), s').
Proof.
  intros Hu Haddr. destruct (encode_request_wf addr Hu) as [Hb Hl].
  unfold slave_receive. rewrite (modbusParseRequest_deliver true [] _ addr r); [|..|done]; try done.
  - rewrite bind_ret. by destruct (deliver _ _ _ _).
  - by apply loaded_wf; [|lia].
Qed.

Lemma deliver_data addr s0 :
  data s0 = data s → data (snd (deliver true s0 addr r)) = effect (data s) r.
Proof.
  intros Hd. unfold deliver, effect, conclude.
  change (data (begin s0)) with (data s0). rewrite Hd.
  destruct (is_read r && (addr =? 0)) eqn:Hread.
  - apply andb_true_iff in Hread as [Hread _]. 
    destruct r as [d i n|d i n| | | | |]; try done; cbn [serve snd].
    all: destruct (_ || _); [done|]; destruct (if d then _ else _); [|done];
      by destruct (_ <? _).
  - destruct (serve (data s) r) as [body d'|code ferr].
    + cbn [negb]. by destruct (addr =? 0).
    + unfold exception_outcome. by destruct (broadcastb _).
Qed.

(** The slave stays well formed; nothing answers a broadcast. *)
Lemma slave_receive_wf f :
  bytes f → (length f <= 255)%nat →
  ∃ e s', modbusParseRequest true [] (set_request (Some f) (Z.of_nat (length f)) s)
            = Some (e, s') ∧ slave_ok s' ∧ address s' = address s ∧
    (e ≠ MODBUS_ERROR_OK → data s' = data s) ∧
    (f !! 0%nat = Some 0 → length_ (response s') = 0).
Proof.
  intros Hf Hl.
  destruct (modbusParseRequest_answered true [] _ (loaded_wf f Hf Hl))
    as (e & s' & E & [Haddr' _ Hdata' Herr' _ Hbc']).
  { intros fn handler; done. }
  exists e, s'. split; [done|]. split; [|split; [done|]]; [|split].
  - split; [apply Hdata'|]. rewrite Haddr'. apply Hok.
  - intros He. by rewrite Herr'.
  - intros H0. apply Hbc'. by exists f.
Qed.

Lemma deliver_reply addr s0 :
  addr ≠ 0 → address s0 = addr → data s0 = data s →
  frame (request s0) = Some (encode_request addr r) →
  response (snd (deliver true s0 addr r)) =
  mkFrame (Some (reply_frame addr (data s) r))
    (Z.of_nat (length (reply_frame addr (data s) r))).
Proof.
  intros Hne%Z.eqb_neq Ha Hd Hreq. unfold deliver, reply_frame, conclude.
  change (data (begin s0)) with (data s0). rewrite Hd, Hne, andb_false_r.
  destruct (serve (data s) r) as [body d'|code ferr].
  - cbn [negb snd response set_response]. rewrite length_with_crc.
    change (address (begin s0)) with (address s0). rewrite Ha. do 2 f_equal. cbn [length]. lia.
  - unfold exception_outcome.
    change (broadcastb _) with (broadcastb s0). unfold broadcastb. rewrite Hreq.
    cbn [encode_request with_crc app]. unfold encode_request, with_crc. cbn [app].
    rewrite Hne. cbn [snd response set_response].
    change (address _) with (address s0). by rewrite Ha.
Qed.

Lemma slave_receive_own :
  ∃ s', slave_receive s (encode_request (address s) r)
          = Some (Some (reply_frame (address s) (data s) r), s') ∧
    slave_ok s' ∧ address s' = address s ∧ data s' = effect (data s) r.
Proof.
  destruct Hok as [Hd [Ha Hne]]. destruct (encode_request_wf (address s) Ha) as [Hb Hl].
  destruct (slave_receive_wf (encode_request (address s) r)) as (e & s' & E & Hok' & Ha' & _);
    [done|lia|].
  pose proof (slave_receive_deliver (address s) Ha (or_introl eq_refl)) as Hdel.
  set (s0 := set_request _ _ s) in *.
  assert (modbusParseRequest true [] s0 = Some (deliver true s0 (address s) r)) as Edel.
  { apply modbusParseRequest_deliver; try done; [apply loaded_wf; [done|lia]|by left]. }
  rewrite E in Edel. injection Edel as Edel. apply (f_equal snd) in Edel. cbn [snd] in Edel.
  rewrite <- Edel in Hdel. exists s'.
  assert (response s' = mkFrame (Some (reply_frame (address s) (data s) r))
    (Z.of_nat (length (reply_frame (address s) (data s) r)))) as Hresp.
  { rewrite Edel. by apply deliver_reply. }
  split; [|split; [done|split; [done|]]].
  - rewrite Hdel. cbv zeta. rewrite Hresp. cbn [length_ frame].
    rewrite (proj2 (Z.eqb_neq _ 0)); [done|]. unfold reply_frame.
    destruct (serve _ _); rewrite length_with_crc; lia.
  - rewrite Edel. by apply deliver_data.
Qed.

Lemma slave_receive_broadcast :
  ∃ s', slave_receive s (encode_request 0 r) = Some (None, s') ∧
    slave_ok s' ∧ address s' = address s ∧ data s' = effect (data s) r.
Proof.
  destruct (encode_request_wf 0) as [Hb Hl]; [done|].
  destruct (slave_receive_wf (encode_request 0 r)) as (e & s' & E & Hok' & Ha' & _ & Hsil);
    [done|lia|].
  set (s0 := set_request _ _ s) in *.
  assert (modbusParseRequest true [] s0 = Some (deliver true s0 0 r)) as Edel.
  { apply modbusParseRequest_deliver; try done; [apply loaded_wf; [done|lia]|by right]. }
  exists s'. split; [|split; [done|split; [done|]]].
  - unfold slave_receive. fold s0. rewrite E, bind_ret. by rewrite Hsil.
  - rewrite E in Edel. injection Edel as Edel. apply (f_equal snd) in Edel.
    cbn [snd] in Edel. rewrite Edel. by apply deliver_data.
Qed.

(** A frame for somebody else is ignored, whatever it carries. *)
Lemma slave_receive_other addr :
  is_u8 addr → addr ≠ address s → addr ≠ 0 →
  ∃ s', slave_receive s (encode_request addr r) = Some (None, s') ∧
    slave_ok s' ∧ address s' = address s ∧ data s' = data s.
Proof.
  intros Hu Hne H0. destruct (encode_request_wf addr Hu) as [Hb Hl].
  unfold slave_receive.
  rewrite (modbusParseRequest_other _ _ _ (addr :: function_code r :: request_body r)).
  - rewrite bind_ret. eexists. split; [done|]. split; [|done]. by destruct Hok.
  - by apply encode_request_bytes.
  - unfold encode_request in Hl. rewrite length_with_crc in Hl. lia.
  - done.
  - by intros a [= <-].
Qed.
End slave_laws.

#[export] Instance slave_server_laws : ServerLaws ModbusSlave.
Proof.
  split.
  - by intros s [].
  - by intros s [].
  - apply slave_receive_own.
  - apply slave_receive_broadcast.
  - intros s addr r Hok Hr. by apply (slave_receive_other s r Hok Hr).
Qed.

(** ** A transaction of the master *)

(** Follows the branch of [serve] that accepts. *)
Ltac accepting :=
  repeat match goal with
  | |- (if ?c then _ else _) = _ → _ => destruct c eqn:?; [discriminate|]
  | |- match ?a with Some _ => _ | None => _ end = _ → _ => destruct a eqn:?; [|discriminate]
  end; intros [= <- <-].

(** An accepted request has a reply the master understands, of the length it
    predicts. *)
Lemma serve_reply addr d r body d' :
  wf_data d → wf_request r → serve d r = Accepted body d' →
  Z.of_nat (length body) + 4 = reply_length r ∧ ∃ md, reply_data addr r body md.
Proof.
  intros Hd Hwf. destruct r as [disc i n|input i n|i on|i v|i bits|i vs|i a o];
    cbn [serve wf_request reply_length] in *.
  - destruct Hwf as [Hi Hn]. accepting.
    assert (1 <= n <= 2000) by ulia. pose proof (modbusBitsToBytes_spec n Hn).
    set (bits := _ <$> seq 0 _). assert (length bits = Z.to_nat n) as Hl.
    { unfold bits. by rewrite length_fmap, length_seq. }
    split; [|eexists; by constructor].
    cbn [length]. rewrite length_pack_bits, Hl, Z2Nat.id by lia. ulia.
  - assert (words_ok (if input then inputRegisterCount d else registerCount d)
      (if input then inputRegisters d else registers d)) as [_ Hw].
    { destruct input; apply Hd. }
    destruct Hwf as [Hi Hn]. accepting. destruct (Hw l eq_refl) as [Hwords Hl].
    assert (1 <= n <= 125) by ulia. set (vs := take _ _).
    assert (length vs = Z.to_nat n) as Hlv.
    { unfold vs. rewrite length_take, length_drop. ulia. }
    split.
    + cbn [length]. rewrite length_be16_list. lia.
    + eexists. constructor; [done|done|]. by apply Forall_take, Forall_drop.
  - accepting. split; [done|]. eexists. constructor.
  - accepting. split; [done|]. eexists. constructor.
  - accepting. split; [done|]. eexists. constructor.
  - accepting. split; [done|]. eexists. constructor.
  - accepting. split; [done|]. eexists. constructor.
Qed.

Section link.
Context {S : Type} `{ServerLaws S}.
Implicit Types (m : Master.ModbusMaster) (s : S).

(** Build the request, let the server receive it, parse the reply; silence
    leaves the master waiting (MODBUS_ERROR_OK, no data). *)
Definition transact m s (addr : Z) (r : Request)
    : option (ModbusError * Master.ModbusMaster * S) :=
  '(e, m) ← build_request true m addr r;
  if decide (e = MODBUS_ERROR_OK) then
    f ← frame (Master.request m);
    '(reply, s) ← receive s f;
    match reply with
    | None => Some (MODBUS_ERROR_OK, m, s)
    | Some g =>
        '(e, m) ← Master.modbusParseResponse true
                    (Master.set_response (Some g) (Z.of_nat (length g)) m);
        Some (e, m, s)
    end
  else Some (e, m, s).

Lemma transact_outcome m s r :
  server_ok s → typed_request r → count_ok r = true →
  let addr := server_address s in
  ∃ e m' s', transact m s addr r = Some (e, m', s') ∧
    server_ok s' ∧ server_address s' = addr ∧
    server_data s' = effect (server_data s) r ∧
    match serve (server_data s) r with
    | Accepted body _ =>
        e = MODBUS_ERROR_OK ∧ reply_data addr r body (Master.data m') ∧
        Master.predictedResponseLength m' =
          Z.of_nat (length (reply_frame addr (server_data s) r))
    | Refused code _ =>
        e = MODBUS_ERROR_EXCEPTION ∧ Master.data m' = Master.no_data ∧
        Master.exception m' =
          Master.mkException addr (Z.lor 128 (function_code r)) (exception_code code)
    end.
Proof.
  intros Hok Ht Hc addr. pose proof (typed_wf r Ht Hc) as Hwf.
  destruct (server_ok_address s Hok) as [Ha Hne]. fold addr in Ha, Hne.
  destruct (receive_own s r Hok Hwf) as (s' & Hrecv & Hok' & Ha' & Hd'). fold addr in Hrecv.
  pose proof (server_ok_data s Hok) as Hdata.
  unfold transact. rewrite build_request_outcome by done. unfold build_outcome.
  rewrite (proj2 (Z.eqb_neq addr 0) Hne), andb_false_r, Hc. cbn [negb]. rewrite bind_ret.
  rewrite decide_True by done. cbn [Master.request Master.set_buildError Master.set_predicted
    Master.set_request frame]. rewrite bind_ret, Hrecv, bind_ret.
  set (m1 := Master.set_response _ _ _).
  assert (Master.request m1 = whole (encode_request addr r)) as Hreq by done.
  assert (Master.response m1 = whole (reply_frame addr (server_data s) r)) as Hresp by done.
  assert (Master.predictedResponseLength m1 = reply_length r) as Hpred by done.
  clearbody m1. unfold reply_frame in Hresp |- *.
  destruct (serve (server_data s) r) as [body d'|code ferr] eqn:Hserve.
  - destruct (serve_reply addr _ _ _ _ Hdata Hwf Hserve) as [Hl [md Hmd]].
    rewrite (modbusParseResponse_accepts m1 addr r body md), bind_ret by done.
    do 3 eexists. split; [done|]. do 4 (split; [done|]). split; [done|].
    change (Master.predictedResponseLength _) with (Master.predictedResponseLength m1).
    rewrite Hpred, length_with_crc. cbn [length]. lia.
  - rewrite (modbusParseResponse_exception _ m1 addr (function_code r) (exception_code code)
      (addr :: function_code r :: request_body r)), bind_ret; try done.
    + do 3 eexists. split; [done|]. by do 3 (split; [done|]).
    + apply function_code_u8.
    + apply exception_code_u8.
    + by apply encode_request_bytes.
    + pose proof (request_body_length r Hwf). cbn [length]. lia.
Qed.

(** ** A multi-drop line *)

(** Every server on the line sees the frame; the replies they put on it. *)
Fixpoint bus_receive (bus : list S) (f : list Z) : option (list (list Z) * list S) :=
  match bus with
  | [] => Some ([], [])
  | s :: bus =>
      '(reply, s) ← receive s f;
      '(replies, bus) ← bus_receive bus f;
      Some (option_list reply ++ replies, s :: bus)
  end.

(** How a server takes a request sent to [addr]. *)
Definition reacts (addr : Z) (r : Request) (s s' : S) : Prop :=
  server_ok s' ∧ server_address s' = server_address s ∧
  server_data s' =
    if (addr =? 0) || (addr =? server_address s)
    then effect (server_data s) r else server_data s.

Lemma receive_reacts s addr r :
  server_ok s → wf_request r → is_u8 addr →
  ∃ s', receive s (encode_request addr r) =
      Some (if (addr =? server_address s) && negb (addr =? 0)
            then Some (reply_frame addr (server_data s) r) else None, s') ∧
    reacts addr r s s'.
Proof.
  intros Hok Hr Hu. unfold reacts.
  destruct (Z.eqb_spec addr 0) as [->|Hz]; cbn [orb negb].
  - rewrite andb_false_r. destruct (receive_broadcast s r) as (s' & E & ?); eauto.
  - destruct (Z.eqb_spec addr (server_address s)) as [->|Hne]; cbn [andb].
    + destruct (receive_own s r) as (s' & E & ?); eauto.
    + destruct (receive_other s addr r) as (s' & E & ?); eauto.
Qed.

Lemma bus_receive_reacts bus addr r :
  Forall server_ok bus → wf_request r → is_u8 addr →
  ∃ bus', bus_receive bus (encode_request addr r) =
      Some ((λ s, reply_frame addr (server_data s) r) <$>
              filter (λ s, server_address s = addr ∧ addr ≠ 0) bus, bus') ∧
    Forall2 (reacts addr r) bus bus'.
Proof.
  intros Hok Hr Hu. induction Hok as [|s bus Hs Hok IH]; [by exists []|].
  destruct IH as (bus' & E & Hbus). destruct (receive_reacts s addr r) as (s' & Es & Hs'); [done..|].
  exists (s' :: bus'). split; [|by constructor]. cbn [bus_receive].
  rewrite Es, bind_ret, E, bind_ret.
  destruct (Z.eqb_spec addr (server_address s)) as [He|Hne],
    (Z.eqb_spec addr 0) as [Hz|Hz]; cbn [andb negb];
    first [rewrite filter_cons_True by done | rewrite filter_cons_False by naive_solver]; done.
Qed.
End link.

#[global] Arguments transact {S _} m s addr r.
#[global] Arguments bus_receive {S _} bus f.
