(* ===== verification/ModbusProperties.v ===== *)
(** * ModbusProperties: the guarantees of the Modbus library.

    The theorems a user of liblightmodbus relies on, each with an instance on a
    concrete plant: a slave at address 17 with four holding registers (register
    2 is write protected), two input registers, ten coils (coil 0 is write
    protected) and four discrete inputs. *)
From S2P Require Import Prelude.
From S2P Require Import Crc.
From S2P Require Import Lightmodbus.
From S2P Require Import ModbusSlave.
From S2P Require Import ModbusSlaveSafety.
From S2P Require Import ModbusPdu.
From S2P Require Import ModbusRefinement.
From S2P Require Import ModbusMaster.
From S2P Require Import ModbusMasterTheory.
From S2P Require Import ModbusLink.

Definition plant_data : SlaveData :=
  mkData (Some [100; 200; 300; 400]) (Some [10; 20]) (Some [4]) 1 4 2
    (Some [0xA5; 0x01]) (Some [0x0F]) (Some [1]) 1 10 4.

Definition plant : ModbusSlave :=
  mkSlave 17 plant_data MODBUS_EXCEP_NACK MODBUS_FERROR_OK (mkFrame None 0) (mkFrame None 0).

Definition controller : Master.ModbusMaster :=
  Master.mkMaster 0 (mkFrame None 0) (mkFrame None 0) Master.no_data
    (Master.mkException 0 0 0) MODBUS_FERROR_OK MODBUS_FERROR_OK.

(** The plant with a request in its buffer. *)
Definition plant_asked (f : list Z) : ModbusSlave :=
  set_request (Some f) (Z.of_nat (length f)) plant.

Lemma plant_wf_data : wf_data plant_data.
Proof.
  split; (split; [done|]); intros l [= <-]; (split; [|vm_compute; discriminate || done]);
    repeat constructor; unfold is_u8, is_u16; lia.
Defined.

Lemma plant_ok : slave_ok plant.
Proof. split; [apply plant_wf_data|]. by vm_compute. Defined.

Lemma asked_wf f :
  bytes f → (length f <= 255)%nat → wf_slave (plant_asked f).
Proof. intros. by apply loaded_wf; [apply plant_ok|..]. Defined.

(** ** Memory safety and the effect of one request *)

Lemma answered_wf s e s' : wf_slave s → answered s e s' → wf_slave s'.
Proof.
  intros [Ha Hd Hr] [Ea Er Hs _ _ _]. split; [by rewrite Ea|apply Hs|by rewrite Er].
Qed.

(** C1: whatever bytes the request holds, [modbusParseRequest] never accesses
    memory out of bounds; the configuration, the counts, the masks and the
    request are untouched, a failed call leaves the data alone, the reply is
    empty or a frame of this slave with a correct CRC, and a broadcast gets none. *)
Theorem slave_safe alloc fs s :
  wf_slave s → user_functions_ok fs →
  ∃ e s', modbusParseRequest alloc fs s = Some (e, s') ∧ wf_slave s' ∧ answered s e s'.
Proof.
  intros Hwf Hfs. destruct (modbusParseRequest_answered alloc fs s Hwf Hfs) as (e & s' & E & H).
  exists e, s'. split; [done|]. split; [by eapply answered_wf|done].
Qed.

Lemma slave_safe_witness :
  wf_slave (plant_asked [17; 6; 0; 1; 0; 9; 27; 93]) ∧
  ∃ e s', modbusParseRequest true [] (plant_asked [17; 6; 0; 1; 0; 9; 27; 93]) = Some (e, s') ∧
    wf_slave s' ∧ answered (plant_asked [17; 6; 0; 1; 0; 9; 27; 93]) e s'.
Proof.
  assert (wf_slave (plant_asked [17; 6; 0; 1; 0; 9; 27; 93])) as Hwf.
  { apply asked_wf; [solve_bytes|simpl; lia]. }
  split; [done|]. apply (slave_safe true [] _ Hwf). by intros fn h.
Defined.

(** C2: on the frame of a request, for this slave or for all, the code does
    exactly what the specification [deliver]/[serve] says, for the eight
    functions and all their errors. *)
Theorem slave_refines_serve alloc fs s addr r :
  wf_slave s → wf_request r → addr = address s ∨ addr = 0 →
  request s = whole (encode_request addr r) → find_user_function fs (function_code r) = None →
  modbusParseRequest alloc fs s = Some (deliver alloc s addr r).
Proof. apply modbusParseRequest_deliver. Qed.

Lemma slave_refines_serve_witness :
  let r := WriteRegisters 0 [7; 65535] in
  let s := plant_asked (encode_request 17 r) in
  modbusParseRequest true [] s = Some (deliver true s 17 r) ∧
  registers (data (snd (deliver true s 17 r))) = Some [7; 65535; 300; 400].
Proof.
  intros r s. split; [|vm_compute; done].
  assert (wf_request r) as Hr.
  { split; [by vm_compute|]. split; [simpl; lia|]. repeat constructor; unfold is_u16; lia. }
  apply (slave_refines_serve true [] s 17 r); try done; [|by left].
  destruct (encode_request_wf r Hr 17) as [Hb Hl]; [done|]. apply asked_wf; [done|lia].
Defined.

(** ** Write protection, over any history *)

Lemma data_step_trans d1 d2 d3 : data_step d1 d2 → data_step d2 d3 → data_step d1 d3.
Proof.
  intros [Hs1 Hw1 [Hr1 Hc1] Hreg1 Hco1] [Hs2 Hw2 [Hr2 Hc2] Hreg2 Hco2].
  assert (∀ i, register_protected d1 i → register_protected d2 i) as Hp.
  { intros i. rewrite Hs1. done. }
  assert (∀ i, coil_protected d1 i → coil_protected d2 i) as Hq.
  { intros i. rewrite Hs1. done. }
  split; [|done|naive_solver| |].
  - rewrite Hs2 at 1. rewrite Hs1. done.
  - intros l l' i E1 E3 Hi Hi1. destruct (registers d2) as [l2|] eqn:E2; [|naive_solver].
    rewrite (Hreg2 l2 l' i) by auto. by apply Hreg1.
  - intros l l' i E1 E3 Hi Hi1. destruct (coils d2) as [l2|] eqn:E2; [|naive_solver].
    rewrite (Hco2 l2 l' i) by auto. by apply Hco1.
Qed.

(** The slave after any sequence of frames, well formed or garbage, with or
    without memory. *)
Inductive slave_run : ModbusSlave → ModbusSlave → Prop :=
  | run_stop s : slave_run s s
  | run_frame s f alloc e s1 s2 :
      bytes f → (length f <= 255)%nat →
      modbusParseRequest alloc [] (set_request (Some f) (Z.of_nat (length f)) s) = Some (e, s1) →
      slave_run s1 s2 → slave_run s s2.

(** C4: whatever frames a slave receives, the protected registers and coils keep
    their values, and the counts, masks, arrays and the address are kept too. *)
Theorem write_protection s s' :
  slave_ok s → slave_run s s' →
  slave_ok s' ∧ address s' = address s ∧ data_step (data s) (data s').
Proof.
  intros Hok Hrun. induction Hrun as [s|s f alloc e s1 s2 Hf Hl E _ IH].
  { destruct Hok as [Hd Ha]. split; [done|]. split; [done|]. by apply data_step_refl. }
  destruct (modbusParseRequest_answered alloc [] _ (loaded_wf s Hok f Hf Hl))
    as (e' & s1' & E' & Hans); [by intros fn h|].
  rewrite E in E'. injection E' as <- <-. destruct Hans as [Ha _ Hd _ _ _].
  change (address (set_request _ _ s)) with (address s) in Ha.
  change (data (set_request _ _ s)) with (data s) in Hd.
  assert (slave_ok s1) as Hok1.
  { split; [apply Hd|]. rewrite Ha. apply Hok. }
  destruct (IH Hok1) as (Hok2 & Ha2 & Hd2). split; [done|]. split; [congruence|].
  by eapply data_step_trans.
Qed.

Lemma write_protection_witness :
  ∃ s', slave_run plant s' ∧ registers (data s') = Some [9; 200; 300; 400] ∧
    data_step (data plant) (data s').
Proof.
  set (f1 := encode_request 17 (WriteRegister 2 5)). set (f2 := encode_request 0 (WriteRegister 0 9)).
  destruct (modbusParseRequest true [] (plant_asked f1)) as [[e1 s1]|] eqn:E1; [|by vm_compute in E1].
  destruct (modbusParseRequest true [] (set_request (Some f2) 8 s1)) as [[e2 s2]|] eqn:E2;
    [|vm_compute in E1; injection E1 as <- <-; by vm_compute in E2].
  assert (slave_run plant s2) as Hrun.
  { eapply (run_frame plant f1 true); [..|exact E1|];
      [apply (bool_decide_unpack _); by vm_compute|vm_compute; lia|].
    eapply (run_frame s1 f2 true); [..|exact E2|apply run_stop];
      [apply (bool_decide_unpack _); by vm_compute|vm_compute; lia]. }
  exists s2. split; [done|]. split; [|apply (write_protection plant s2 plant_ok Hrun)].
  vm_compute in E1. injection E1 as <- <-. vm_compute in E2. by injection E2 as <- <-.
Defined.

(** ** Corrupted frames *)

(** The CRC test of the receivers, on a frame with a non-zero residue. *)
Lemma crc_test_fails f :
  bytes f → (4 <= length f)%nat → Z.of_nat (length f) < 65536 → crc_of f ≠ 0 →
  ∃ c e, rd16 f (Z.to_nat (Z.of_nat (length f) - 2)) = Some c ∧
    modbusCRC (Some f) (Z.of_nat (length f) - 2) = Some e ∧ (c =? e) = false.
Proof.
  intros Hf Hl Hu Hne.
  replace (Z.to_nat (Z.of_nat (length f) - 2)) with (length f - 2)%nat by lia.
  set (p := take (length f - 2) f).
  destruct (rd16_Some f (length f - 2)) as (lo & hi & Elo & Ehi & ->); [lia|].
  do 2 eexists. split; [done|]. rewrite modbusCRC_spec by lia. split; [done|].
  replace (Z.to_nat (Z.of_nat (length f) - 2)) with (length f - 2)%nat by lia.
  apply Z.eqb_neq. intros E. apply Hne.
  assert (f = p ++ [lo; hi]) as Ef.
  { unfold p. rewrite <- (take_drop (length f - 2) f) at 1. f_equal.
    rewrite (drop_S _ lo) by done. rewrite (drop_S _ hi) by done.
    by rewrite drop_ge by lia. }
  rewrite Ef. apply crc_residue; [by apply bytes_take| | |exact E].
  - by apply (bytes_lookup _ _ _ Hf Elo).
  - by apply (bytes_lookup _ _ _ Hf Ehi).
Qed.

Lemma burst_residue p f :
  bytes p → bytes f → burst16 (with_crc p) f → crc_of f ≠ 0.
Proof.
  intros Hp Hf Hb E. apply (crc_of_burst (with_crc p) f); [auto with cmem|done|done|].
  rewrite E. pose proof (crc_of_u16 p Hp) as Hu. unfold with_crc, le16.
  apply crc_residue; [done|unfold is_u8, is_u16 in *; Z.to_euclidean_division_equations; lia..|].
  ulia.
Qed.

(** A frame that reached the slave with an error burst of at most 16 bits
    (in particular any single-byte or single-bit error) is dropped with
    MODBUS_FERROR_CRC: no data changes, nothing is answered. *)
Theorem corrupted_request_dropped alloc fs s p f :
  bytes p → bytes f → burst16 (with_crc p) f → (4 <= length f <= 255)%nat →
  request s = whole f →
  modbusParseRequest alloc fs s =
  Some (MODBUS_ERROR_PARSE, set_parseError MODBUS_FERROR_CRC (begin s)).
Proof.
  intros Hp Hf Hburst Hl Hreq.
  destruct (crc_test_fails f) as (c & e & E1 & E2 & E3);
    [done|lia|lia|by apply (burst_residue p)|].
  unfold modbusParseRequest. cbv zeta. fold (begin s).
  change (request (set_response None 0 s)) with (request s).
  change (request (begin s)) with (request s).
  rewrite Hreq. cbn [whole frame length_]. rewrite (proj2 (Z.ltb_ge _ 4)) by lia.
  rewrite u16_id by (unfold is_u16; lia).
  by rewrite E1, bind_ret, E2, bind_ret, E3.
Qed.

Lemma corrupted_request_dropped_witness :
  let p := [17; 6; 0; 1; 0; 9] in
  let f := [17; 6; 0; 1; 0; 8] ++ le16 (crc_of p) in
  burst16 (with_crc p) f ∧
  modbusParseRequest true [] (plant_asked f) =
  Some (MODBUS_ERROR_PARSE, set_parseError MODBUS_FERROR_CRC (begin (plant_asked f))).
Proof.
  intros p f. assert (burst16 (with_crc p) f) as Hb.
  { exists (frame_bits [17; 6; 0; 1; 0]), (byte_bits 9), (byte_bits 8), (frame_bits (le16 (crc_of p))).
    split; [by vm_compute|]. split; [by vm_compute|]. split; [done|]. split; [simpl; lia|done]. }
  split; [done|]. apply (corrupted_request_dropped true [] (plant_asked f) p f);
    [| |done|vm_compute; lia|done]; apply (bool_decide_unpack _); by vm_compute.
Defined.

(** The same for the master: a corrupted response is dropped with
    MODBUS_FERROR_CRC and leaves no data and no exception. *)
Theorem corrupted_response_dropped alloc m p q f :
  bytes p → bytes q → bytes f → burst16 (with_crc p) f → (4 <= length f <= 255)%nat →
  (2 <= length q <= 253)%nat →
  Master.response m = whole f → Master.request m = whole (with_crc q) →
  ∃ m', Master.modbusParseResponse alloc m = Some (MODBUS_ERROR_PARSE, m') ∧
    Master.parseError m' = MODBUS_FERROR_CRC ∧ Master.data m' = Master.no_data ∧
    Master.exception m' = Master.mkException 0 0 0.
Proof.
  intros Hp Hq Hf Hburst Hl Hlq Hresp Hreq.
  destruct (crc_test_fails f) as (c & e & E1 & E2 & E3);
    [done|lia|lia|by apply (burst_residue p)|].
  destruct (rd16_Some (with_crc q) (Z.to_nat (Z.of_nat (length (with_crc q)) - 2)))
    as (lo & hi & _ & _ & E4); [rewrite length_with_crc; lia|].
  unfold Master.modbusParseResponse. cbv zeta. set (m0 := Master.set_data _ _).
  change (Master.response m0) with (Master.response m).
  change (Master.request m0) with (Master.request m).
  rewrite Hreq, Hresp. cbn [whole frame length_].
  rewrite !(proj2 (Z.ltb_ge _ 4)) by (rewrite ?length_with_crc; lia). cbn [orb].
  rewrite E1, bind_ret, E4, bind_ret, E2, bind_ret.
  rewrite modbusCRC_spec, bind_ret by (rewrite length_with_crc; lia).
  rewrite E3. cbn [negb orb]. by eexists.
Qed.

Lemma corrupted_response_dropped_witness :
  let q := [17; 6; 0; 1; 0; 9] in
  let f := [17; 6; 0; 1; 0; 8] ++ le16 (crc_of q) in
  let m := Master.set_response (Some f) 8
             (Master.set_request (Some (with_crc q)) 8 controller) in
  ∃ m', Master.modbusParseResponse true m = Some (MODBUS_ERROR_PARSE, m') ∧
    Master.parseError m' = MODBUS_FERROR_CRC ∧ Master.data m' = Master.no_data ∧
    Master.exception m' = Master.mkException 0 0 0.
Proof.
  intros q f m. assert (burst16 (with_crc q) f) as Hb.
  { exists (frame_bits [17; 6; 0; 1; 0]), (byte_bits 9), (byte_bits 8), (frame_bits (le16 (crc_of q))).
    split; [by vm_compute|]. split; [by vm_compute|]. split; [done|]. split; [simpl; lia|done]. }
  apply (corrupted_response_dropped true m q q f);
    [| | |done|vm_compute; lia|vm_compute; lia|done|done];
    apply (bool_decide_unpack _); by vm_compute.
Defined.

(** ** Transactions between a master and a slave *)

Section transactions.
Context {S : Type} `{ServerLaws S}.

(** C3: between a master and any device that honours the [Server] interface,
    a transaction either delivers the data the device answered, with the reply
    length the master had predicted, or the exception the device raised; the
    device's data change as the request says. *)
Theorem transact_correct (m : Master.ModbusMaster) (s : S) r :
  server_ok s → typed_request r → count_ok r = true →
  ∃ e m' s', transact m s (server_address s) r = Some (e, m', s') ∧
    server_data s' = effect (server_data s) r ∧
    match serve (server_data s) r with
    | Accepted body _ =>
        e = MODBUS_ERROR_OK ∧ reply_data (server_address s) r body (Master.data m') ∧
        Master.predictedResponseLength m' =
          Z.of_nat (length (reply_frame (server_address s) (server_data s) r))
    | Refused code _ =>
        e = MODBUS_ERROR_EXCEPTION ∧ Master.data m' = Master.no_data ∧
        Master.exception m' = Master.mkException (server_address s)
          (Z.lor 128 (function_code r)) (exception_code code)
    end.
Proof.
  intros Hok Ht Hc. destruct (transact_outcome m s r Hok Ht Hc)
    as (e & m' & s' & E & _ & _ & Hd & Hout).
  by exists e, m', s'.
Qed.
End transactions.

Lemma transact_correct_witness :
  let r := ReadRegisters false 1 2 in
  ∃ e m' s', transact controller plant 17 r = Some (e, m', s') ∧
    server_data s' = effect plant_data r ∧ e = MODBUS_ERROR_OK ∧
    Master.buffer (Master.data m') = Some [200; 0; 44; 1].
Proof.
  intros r. destruct (transact_correct controller plant r) as (e & m' & s' & E & Hd & Hout);
    [apply plant_ok|by split|done|].
  exists e, m', s'. split; [exact E|]. split; [exact Hd|].
  vm_compute in E. injection E as <- <- <-. split; by vm_compute.
Defined.

(** ** Reading back what was written *)

Lemma be16_list_inj l k : words l → words k → l ≫= be16 = k ≫= be16 → l = k.
Proof.
  intros Hl. revert k. induction Hl as [|v l Hv Hl IH]; intros k Hk E.
  - destruct Hk as [|w k]; [done|]. rewrite bind_cons in E. discriminate E.
  - destruct Hk as [|w k Hw Hk]; [rewrite bind_cons in E; discriminate E|].
    rewrite !bind_cons in E. injection E as E1 E2 E3. f_equal; [ulia|by apply IH].
Qed.

Lemma write_bits_read i bits cs n :
  0 <= i → i + Z.of_nat (length bits) <= 8 * Z.of_nat (length cs) → n = length bits →
  (λ j, mask_bit (write_bits i bits cs) (i + Z.of_nat j)) <$> seq 0 n = bits.
Proof.
  intros Hi Hl ->. apply list_eq_same_length with (length bits);
    [done|by rewrite length_fmap, length_seq|].
  intros j x y Hj Ex Ey. rewrite list_lookup_fmap, lookup_seq_lt in Ex by done.
  cbn in Ex. injection Ex as <-. unfold write_bits.
  rewrite tabulate_bits_bit by lia.
  destruct (Z.leb_spec i (i + Z.of_nat j)), (Z.ltb_spec (i + Z.of_nat j) (i + Z.of_nat (length bits)));
    try lia. cbn [andb]. replace (Z.to_nat (i + Z.of_nat j - i)) with j by lia. by rewrite Ey.
Qed.

Lemma splice_read {A} i (vs l : list A) :
  (i + length vs <= length l)%nat → take (length vs) (drop i (splice i vs l)) = vs.
Proof.
  intros Hl. unfold splice. rewrite drop_app_length' by (rewrite length_take; lia).
  apply take_app_length.
Qed.

Section read_back.
Context {S : Type} `{ServerLaws S}.

(** A transaction that reports success was accepted. *)
Lemma transact_accepted (m m' : Master.ModbusMaster) (s s' : S) r :
  server_ok s → typed_request r → count_ok r = true →
  transact m s (server_address s) r = Some (MODBUS_ERROR_OK, m', s') →
  ∃ body d, serve (server_data s) r = Accepted body d ∧ server_data s' = d ∧
    server_ok s' ∧ server_address s' = server_address s ∧
    reply_data (server_address s) r body (Master.data m').
Proof.
  intros Hok Ht Hc E. destruct (transact_outcome m s r Hok Ht Hc)
    as (e & m1 & s1 & E1 & Hok1 & Ha1 & Hd1 & Hout).
  rewrite E in E1. injection E1 as <- <- <-. unfold effect in Hd1.
  destruct (serve (server_data s) r) as [body d|code ferr].
  - exists body, d. destruct Hout as (_ & Hout & _). done.
  - by destruct Hout.
Qed.

(** after a successful write of holding registers, reading them returns the
    values written. *)
Theorem write_then_read_registers (m m1 : Master.ModbusMaster) (s s1 : S) i vs :
  server_ok s → typed_request (WriteRegisters i vs) →
  count_ok (WriteRegisters i vs) = true →
  transact m s (server_address s) (WriteRegisters i vs) = Some (MODBUS_ERROR_OK, m1, s1) →
  ∃ m2 s2, transact m1 s1 (server_address s1) (ReadRegisters false i (Z.of_nat (length vs)))
             = Some (MODBUS_ERROR_OK, m2, s2) ∧
    Master.buffer (Master.data m2) = Some (vs ≫= le16) ∧ server_data s2 = server_data s1.
Proof.
  intros Hok Ht Hc E. cbn [count_ok] in Hc.
  destruct (transact_accepted m m1 s s1 _ Hok Ht Hc E) as (body & d & Hserve & Hd & Hok1 & _ & _).
  destruct Ht as (Hi & Hn & Hvs). set (n := Z.of_nat (length vs)) in *.
  destruct (transact_outcome m1 s1 (ReadRegisters false i n) Hok1)
    as (e & m2 & s2 & E2 & _ & _ & Hd2 & Hout); [by split|cbn [count_ok]; lia|].
  pose proof (server_ok_data s Hok) as Hwd.
  revert Hserve Hout Hd2. rewrite Hd. cbn [serve]. unfold effect. cbn [serve].
  accepting. fold n in Heqb. cbn [registers registerCount set_registers inputRegisters].
  assert (((n =? 0) || (125 <? n)) = false) as -> by lia.
  destruct (wf_registers _ Hwd) as [Hrc Hwr]. destruct (Hwr _ Heqo) as [Hwl Hll].
  rewrite Heqb. replace (Z.to_nat n) with (length vs) by lia.
  rewrite splice_read by (unfold is_u16 in *; lia).
  intros (-> & Hreply & _) Hd2. exists m2, s2. split; [done|]. split; [|exact Hd2].
  inversion Hreply. cbn [Master.buffer].
  match goal with E : _ ≫= be16 = _ |- _ => apply be16_list_inj in E; [by subst|done..] end.
Qed.

(** after a successful write of coils, reading them returns the bits written. *)
Theorem write_then_read_coils (m m1 : Master.ModbusMaster) (s s1 : S) i bits :
  server_ok s → typed_request (WriteCoils i bits) →
  count_ok (WriteCoils i bits) = true →
  transact m s (server_address s) (WriteCoils i bits) = Some (MODBUS_ERROR_OK, m1, s1) →
  ∃ m2 s2, transact m1 s1 (server_address s1) (ReadCoils false i (Z.of_nat (length bits)))
             = Some (MODBUS_ERROR_OK, m2, s2) ∧
    Master.buffer (Master.data m2) = Some (pack_bits bits) ∧ server_data s2 = server_data s1.
Proof.
  intros Hok Ht Hc E. cbn [count_ok] in Hc.
  destruct (transact_accepted m m1 s s1 _ Hok Ht Hc E) as (body & d & Hserve & Hd & Hok1 & _ & _).
  destruct Ht as (Hi & Hn). set (n := Z.of_nat (length bits)) in *.
  destruct (transact_outcome m1 s1 (ReadCoils false i n) Hok1)
    as (e & m2 & s2 & E2 & _ & _ & Hd2 & Hout); [by split|cbn [count_ok]; lia|].
  pose proof (server_ok_data s Hok) as Hwd.
  revert Hserve Hout Hd2. rewrite Hd. cbn [serve]. unfold effect. cbn [serve].
  accepting. fold n in Heqb. cbn [coils coilCount set_coils discreteInputs].
  assert (((n =? 0) || (2000 <? n)) = false) as -> by lia.
  destruct (wf_coils _ Hwd) as [Hcc Hwr]. destruct (Hwr _ Heqo) as [Hwl Hll].
  rewrite modbusBitsToBytes_spec in Hll by done.
  rewrite Heqb. rewrite write_bits_read by (unfold n; ulia).
  intros (-> & Hreply & _) Hd2. exists m2, s2. split; [done|]. split; [|exact Hd2].
  inversion Hreply as [disc i' n' bits' Hl' Hn' Ei En Ed| | | | | |]. by subst.
Qed.
End read_back.

Lemma write_then_read_registers_witness :
  ∃ m1 s1 m2 s2,
    transact controller plant 17 (WriteRegisters 0 [513; 65535])
      = Some (MODBUS_ERROR_OK, m1, s1) ∧
    transact m1 s1 17 (ReadRegisters false 0 2) = Some (MODBUS_ERROR_OK, m2, s2) ∧
    Master.buffer (Master.data m2) = Some [1; 2; 255; 255].
Proof.
  destruct (transact controller plant 17 (WriteRegisters 0 [513; 65535]))
    as [[[e1 m1] s1]|] eqn:E1; [|by vm_compute in E1].
  assert (e1 = MODBUS_ERROR_OK ∧ server_address s1 = 17) as [-> Ha]
    by (vm_compute in E1; by injection E1 as <- <- <-).
  assert (typed_request (WriteRegisters 0 [513; 65535])) as Ht.
  { unfold typed_request, words, is_u16. cbn [length].
    split; [lia|]. split; [lia|]. repeat constructor; lia. }
  destruct (@write_then_read_registers ModbusSlave slave_server slave_server_laws controller m1 plant s1 0 [513; 65535] plant_ok Ht
    eq_refl E1) as (m2 & s2 & E2 & Hb & _).
  exists m1, s1, m2, s2. split; [reflexivity|]. rewrite Ha in E2. split; [exact E2|exact Hb].
Defined.

Lemma write_then_read_coils_witness :
  ∃ m1 s1 m2 s2,
    transact controller plant 17 (WriteCoils 1 [true; true; false])
      = Some (MODBUS_ERROR_OK, m1, s1) ∧
    transact m1 s1 17 (ReadCoils false 1 3) = Some (MODBUS_ERROR_OK, m2, s2) ∧
    Master.buffer (Master.data m2) = Some [3].
Proof.
  destruct (transact controller plant 17 (WriteCoils 1 [true; true; false]))
    as [[[e1 m1] s1]|] eqn:E1; [|by vm_compute in E1].
  assert (e1 = MODBUS_ERROR_OK ∧ server_address s1 = 17) as [-> Ha]
    by (vm_compute in E1; by injection E1 as <- <- <-).
  assert (typed_request (WriteCoils 1 [true; true; false])) as Ht.
  { unfold typed_request, is_u16. cbn [length]. lia. }
  destruct (@write_then_read_coils ModbusSlave slave_server slave_server_laws controller m1 plant s1 1 [true; true; false] plant_ok Ht
    eq_refl E1) as (m2 & s2 & E2 & Hb & _).
  exists m1, s1, m2, s2. split; [reflexivity|]. rewrite Ha in E2. split; [exact E2|exact Hb].
Defined.

(** ** A line with several devices *)

Section lines.
Context {S : Type} `{ServerLaws S}.

(** On a line of devices with distinct addresses, a request to the device
    [k] is answered by that device alone and changes no other device's data. *)
Theorem bus_unicast (bus : list S) k (s : S) r :
  Forall server_ok bus → NoDup (server_address <$> bus) → bus !! k = Some s →
  wf_request r →
  ∃ bus', bus_receive bus (encode_request (server_address s) r)
      = Some ([reply_frame (server_address s) (server_data s) r], bus') ∧
    length bus' = length bus ∧
    ∀ j t, bus !! j = Some t → ∃ t', bus' !! j = Some t' ∧
      server_data t' = if decide (j = k) then effect (server_data s) r else server_data t.
Proof.
  intros Hok Hnd Hk Hr.
  assert (server_ok s) as Hs by (by eapply Forall_lookup_1 in Hk).
  destruct (server_ok_address s Hs) as [Hu Hne].
  destruct (bus_receive_reacts bus (server_address s) r Hok Hr Hu) as (bus' & E & Hall).
  exists bus'. rewrite E. split; [|split; [by symmetry; eapply Forall2_length|]].
  - do 2 f_equal. clear E Hall.
    assert (filter (λ t, server_address t = server_address s ∧ server_address s ≠ 0) bus = [s])
      as ->; [|done].
    apply list_elem_of_split_length in Hk as (l1 & l2 & -> & _).
    rewrite fmap_app, fmap_cons in Hnd. apply list.NoDup_app in Hnd as (_ & Hl1 & Hl2).
    apply list.NoDup_cons in Hl2 as [Hl2 _].
    assert (∀ l, server_address s ∉ server_address <$> l →
      filter (λ t, server_address t = server_address s ∧ server_address s ≠ 0) l = []) as Hnil.
    { intros l Hnotin. induction l as [|t l IH]; [done|]. rewrite fmap_cons, not_elem_of_cons in Hnotin.
      rewrite filter_cons_False; [apply IH; tauto|]. intros [? _]. by destruct Hnotin. }
    rewrite list.filter_app, filter_cons_True by done. rewrite !Hnil; [done|done|].
    intros Hin. apply (Hl1 _ Hin). by left.
  - intros j t Hj. destruct (Forall2_lookup_l _ _ _ _ _ Hall Hj) as (t' & Hj' & _ & _ & Hd).
    exists t'. split; [done|]. rewrite Hd, (proj2 (Z.eqb_neq _ 0)) by done. cbn [orb].
    destruct (decide (j = k)) as [->|Hjk].
    + assert (t = s) as -> by congruence. by rewrite Z.eqb_refl.
    + rewrite (proj2 (Z.eqb_neq _ _)); [done|]. intros Ea. apply Hjk.
      apply (list.NoDup_lookup (server_address <$> bus) j k (server_address t));
        [done|by rewrite list_lookup_fmap, Hj|by rewrite list_lookup_fmap, Hk, <- Ea].
Qed.

(** a broadcast reaches every device and none answers. *)
Theorem bus_broadcast (bus : list S) r :
  Forall server_ok bus → wf_request r →
  ∃ bus', bus_receive bus (encode_request 0 r) = Some ([], bus') ∧
    Forall2 (λ s s', server_data s' = effect (server_data s) r) bus bus'.
Proof.
  intros Hok Hr. destruct (bus_receive_reacts bus 0 r Hok Hr) as (bus' & E & Hall); [done|].
  exists bus'. rewrite E. split.
  - do 2 f_equal. clear. induction bus as [|s bus IH]; [done|].
    rewrite filter_cons_False by naive_solver. exact IH.
  - eapply list.Forall2_impl; [exact Hall|]. by intros s s' (_ & _ & Hd).
Qed.
End lines.

Definition plant2 : ModbusSlave :=
  mkSlave 18 plant_data MODBUS_EXCEP_NACK MODBUS_FERROR_OK (mkFrame None 0) (mkFrame None 0).

Lemma plant2_ok : slave_ok plant2.
Proof. split; [apply plant_wf_data|]. by vm_compute. Defined.

Lemma plants_ok : Forall slave_ok [plant; plant2].
Proof. constructor; [apply plant_ok|]. constructor; [apply plant2_ok|constructor]. Defined.

Lemma bus_unicast_witness :
  NoDup (server_address <$> [plant; plant2]) ∧
  ∃ bus', bus_receive [plant; plant2] (encode_request 18 (WriteRegister 0 5))
      = Some ([reply_frame 18 plant_data (WriteRegister 0 5)], bus') ∧
    length bus' = 2%nat.
Proof.
  assert (NoDup (server_address <$> [plant; plant2])) as Hnd
    by (apply (bool_decide_unpack _); by vm_compute).
  assert (wf_request (WriteRegister 0 5)) as Hr by (by vm_compute).
  split; [done|].
  destruct (@bus_unicast ModbusSlave slave_server slave_server_laws [plant; plant2] 1 plant2
    (WriteRegister 0 5)) as (bus' & E & Hl & _);
    [exact plants_ok|exact Hnd|reflexivity|exact Hr|].
  exists bus'. by split.
Defined.

Lemma bus_broadcast_witness :
  ∃ bus', bus_receive [plant; plant2] (encode_request 0 (WriteCoil 3 true)) = Some ([], bus').
Proof.
  destruct (@bus_broadcast ModbusSlave slave_server slave_server_laws [plant; plant2]
    (WriteCoil 3 true)) as (bus' & E & _);
    [exact plants_ok|by vm_compute|].
  by exists bus'.
Defined.

(** ** The master alone *)

(** C5: every builder, for any arguments of its C type: the frame of the request
    with the length of the reply to expect, or the documented error (broadcast
    of a read, number of items out of range, no memory). *)
Theorem build_request_correct alloc m addr r :
  is_u8 addr → typed_request r →
  build_request alloc m addr r = Some (build_outcome alloc m addr r).
Proof. intros Ha Ht. by apply build_request_outcome. Qed.

Lemma build_request_correct_witness :
  build_request true controller 17 (ReadCoils false 19 37) =
    Some (build_outcome true controller 17 (ReadCoils false 19 37)) ∧
  fst (build_outcome true controller 17 (ReadCoils false 19 2001)) = MODBUS_ERROR_BUILD ∧
  frame (Master.request (snd (build_outcome true controller 17 (ReadCoils false 19 37)))) =
    Some [17; 1; 0; 19; 0; 37; 14; 132].
Proof.
  split; [by apply build_request_correct|]. split; by vm_compute.
Defined.

(** C6: whatever the two frames hold, [modbusParseResponse] never accesses memory
    out of bounds; success means that address, function and index agree with
    the request and that the buffer has the announced length; after any error
    no data is left. *)
Theorem parse_response_safe alloc m :
  wf_master m →
  ∃ e m', Master.modbusParseResponse alloc m = Some (e, m') ∧ parsed m e m'.
Proof. apply modbusParseResponse_parsed. Qed.

Lemma parse_response_safe_witness :
  let m := Master.set_response (Some [17; 3; 2; 0; 7; 1; 2]) 7
             (Master.set_request (Some [17; 3; 0; 0; 0; 1; 3; 4]) 8 controller) in
  wf_master m ∧ ∃ e m', Master.modbusParseResponse true m = Some (e, m') ∧ parsed m e m'.
Proof.
  intros m. assert (wf_master m) as Hwf.
  { split; (split; [by vm_compute|]); intros f [= <-]; split; [solve_bytes|done|solve_bytes|done]. }
  split; [done|]. by apply (parse_response_safe true m).
Defined.

(** ** The CRC and the bit masks *)

(** The CRC over a string followed by two bytes vanishes exactly when these
    are the CRC of the string, low byte first: the check the receivers make is
    equivalent to a zero residue. *)
Theorem crc_zero_residue p lo hi :
  bytes p → is_u8 lo → is_u8 hi → 
  modbusCRC (Some (p ++ [lo; hi])) (Z.of_nat (length p + 2)) = Some 0 ↔
  modbusCRC (Some p) (Z.of_nat (length p)) = Some (lo + 256 * hi).
Proof.
  intros Hp Hlo Hhi. rewrite !modbusCRC_spec by (rewrite ?length_app; simpl; lia).
  rewrite !Nat2Z.id, take_ge, firstn_all by (rewrite length_app; simpl; lia).
  pose proof (crc_residue p lo hi Hp Hlo Hhi) as H.
  split; intros [= E]; f_equal; [symmetry|]; by apply H.
Qed.

Lemma crc_zero_residue_witness :
  modbusCRC (Some ([1; 4; 2; 255; 255] ++ [0xB8; 0x80])) 7 = Some 0.
Proof.
  apply (proj2 (crc_zero_residue [1; 4; 2; 255; 255] 0xB8 0x80 ltac:(solve_bytes)
    ltac:(done) ltac:(done))). by vm_compute.
Defined.

(** [modbusMaskWrite] sets the addressed bit and no other, as [modbusMaskRead]
    sees them; both answer 255 outside of the mask. *)
Theorem mask_write_read m n bit value i :
  bytes m → 0 <= bit → 0 <= i → n <= Z.of_nat (length m) →
  ∃ rc m', modbusMaskWrite (Some m) n bit value = Some (rc, Some m') ∧
    rc = (if n <=? bit / 8 then 255 else 0) ∧
    modbusMaskRead (Some m') n i =
      if (i =? bit) && (bit / 8 <? n) then Some (Z.b2z (negb (value =? 0)))
      else modbusMaskRead (Some m) n i.
Proof.
  intros Hm Hbit Hi Hn. destruct (Z.leb_spec n (bit / 8)) as [Hout|Hin].
  - exists 255, m. unfold modbusMaskWrite. rewrite shiftr3_div, (proj2 (Z.leb_le _ _)) by done.
    by rewrite (proj2 (Z.ltb_ge _ _)), andb_false_r by lia.
  - destruct (modbusMaskWrite_spec m n bit value) as (m' & E & (b & Hb & Em) & Hbits);
      [done|done|done|].
    exists 0, m'. rewrite (proj2 (Z.ltb_lt _ _)), andb_true_r by lia. do 2 (split; [done|]).
    destruct (Z.lt_ge_cases (i / 8) n) as [Hr|Hr].
    + rewrite !modbusMaskRead_spec by (rewrite ?Em, ?length_insert; done).
      rewrite Hbits by done. by destruct (i =? bit).
    + rewrite !modbusMaskRead_out by lia. destruct (Z.eqb_spec i bit) as [->|]; [lia|done].
Qed.

Lemma mask_write_read_witness :
  ∃ m', modbusMaskWrite (Some [0xF0; 1]) 2 9 1 = Some (0, Some m') ∧
    modbusMaskRead (Some m') 2 9 = Some 1.
Proof.
  destruct (mask_write_read [0xF0; 1] 2 9 1 9) as (rc & m' & E & -> & Hr);
    [solve_bytes|lia|lia|done|].
  exists m'. by split.
Defined.

(** ** Initialisation *)

(** The arrays a caller may hand over: each as long as its count, or NULL. *)
Definition sized (n : Z) (size : Z → Z) (a : option (list Z)) : Prop :=
  ∀ l, a = Some l → size n <= Z.of_nat (length l).

Record configured (d : SlaveData) : Prop := {
  conf_counts : is_u16 (registerCount d) ∧ is_u16 (inputRegisterCount d) ∧
    is_u16 (coilCount d) ∧ is_u16 (discreteInputCount d) ∧
    is_u16 (registerMaskLength d) ∧ is_u16 (coilMaskLength d);
  conf_sizes : sized (registerCount d) id (registers d) ∧
    sized (inputRegisterCount d) id (inputRegisters d) ∧
    sized (registerMaskLength d) id (registerMask d) ∧
    sized (coilCount d) modbusBitsToBytes (coils d) ∧
    sized (discreteInputCount d) modbusBitsToBytes (discreteInputs d) ∧
    sized (coilMaskLength d) id (coilMask d);
  conf_values : (∀ l, registers d = Some l → words l) ∧
    (∀ l, inputRegisters d = Some l → words l) ∧
    (∀ l, registerMask d = Some l → bytes l) ∧ (∀ l, coils d = Some l → bytes l) ∧
    (∀ l, discreteInputs d = Some l → bytes l) ∧ (∀ l, coilMask d = Some l → bytes l);
}.

(** [modbusSlaveInit] refuses address 0; otherwise the slave is well formed and
    ready, with no array of length 0 and no count without an array. *)
Theorem slave_init_ready s :
  is_u8 (address s) → configured (data s) →
  if decide (address s = 0) then
    modbusSlaveInit s = (MODBUS_ERROR_OTHER, set_response None 0 (set_request None 0 s))
  else ∃ s', modbusSlaveInit s = (MODBUS_ERROR_OK, s') ∧ wf_slave s' ∧ slave_ok s' ∧
    (registers (data s') = None ↔ registerCount (data s') = 0) ∧
    (inputRegisters (data s') = None ↔ inputRegisterCount (data s') = 0) ∧
    (coils (data s') = None ↔ coilCount (data s') = 0) ∧
    (discreteInputs (data s') = None ↔ discreteInputCount (data s') = 0).
Proof.
  intros Ha Hconf. unfold modbusSlaveInit. cbv zeta.
  change (address (set_response None 0 (set_request None 0 s))) with (address s).
  change (data (set_response None 0 (set_request None 0 s))) with (data s).
  destruct (decide (address s = 0)) as [->|Hne]; [done|].
  rewrite (proj2 (Z.eqb_neq _ 0)) by done.
  assert (∀ (P : list Z → Prop) size n a, is_u16 n → sized n size a →
    (∀ l, a = Some l → P l) →
    ∃ n' a', checked_array n a = (n', a') ∧ is_u16 n' ∧
      (∀ l, a' = Some l → P l ∧ size n' <= Z.of_nat (length l)) ∧ (a' = None ↔ n' = 0)) as Hchk.
  { intros P size n a Hn Hsz HP. unfold checked_array. destruct a as [l|].
    - destruct (Z.eqb_spec n 0) as [->|H0].
      + exists 0, None. split; [done|]. split; [done|]. by split.
      + exists n, (Some l). split; [done|]. split; [done|].
        split; [intros l' [= <-]; split; [by apply HP|by apply Hsz]|]. by split.
    - exists 0, None. split; [done|]. split; [done|]. by split. }
  destruct Hconf as [(H1 & H2 & H3 & H4 & H5 & H6) (S1 & S2 & S3 & S4 & S5 & S6)
    (V1 & V2 & V3 & V4 & V5 & V6)].
  destruct (Hchk words id _ _ H1 S1 V1) as (n1 & a1 & -> & N1 & A1 & Z1).
  destruct (Hchk words id _ _ H2 S2 V2) as (n2 & a2 & -> & N2 & A2 & Z2).
  destruct (Hchk bytes modbusBitsToBytes _ _ H3 S4 V4) as (n3 & a3 & -> & N3 & A3 & Z3).
  destruct (Hchk bytes modbusBitsToBytes _ _ H4 S5 V5) as (n4 & a4 & -> & N4 & A4 & Z4).
  eexists. split; [reflexivity|].
  match goal with |- wf_slave ?s' ∧ _ => assert (wf_data (data s')) as Hwf end.
  { split; cbn; split; auto; intros l E; split; auto; first [by apply S3|by apply S6]. }
  split; [|split; [by split|done]].
  split; [done|done|]. split; [done|]. intros f E. done.
Qed.

Lemma slave_init_ready_witness :
  ∃ s', modbusSlaveInit plant = (MODBUS_ERROR_OK, s') ∧ wf_slave s'.
Proof.
  assert (configured plant_data) as Hc.
  { destruct plant_wf_data as [[H1 R1] [H2 R2] [H3 R3] [H4 R4] [H5 R5] [H6 R6]].
    split; [done|..]; repeat split; intros l E;
      first [by apply R1|by apply R2|by apply R3|by apply R4|by apply R5|by apply R6]. }
  pose proof (slave_init_ready plant ltac:(by vm_compute) Hc) as H. cbn in H.
  destruct H as (s' & E & Hwf & _). by exists s'.
Defined.
