(* ===== verification/Alloc.v ===== *)
(** * Alloc: dynamic memory as an effect.

    A computation of type [Alloc A] may call [malloc], [realloc] and [free].  The
    results of the coming allocations, each with the content of the new block,
    are an oracle in the state, next to the number of blocks in use, which shows
    leaks.  [size_t] has the width of the machine, an instance of [Arch].

    Used by the buffers of c-utility ([Buffer.v]) and the MQTT library. *)
From S2P Require Import Prelude.
From S2P Require Import Effects.

(** The number of values of [size_t], and its width in bits. *)
Class Arch := { size_mod : Z; size_mod_wide : 4294967296 <= size_mod }.

Definition ilp32 : Arch := {| size_mod := 4294967296; size_mod_wide := Z.le_refl _ |}.

Lemma lp64_wide : 4294967296 <= 18446744073709551616.
Proof. lia. Qed.

Definition lp64 : Arch := {| size_mod := 18446744073709551616; size_mod_wide := lp64_wide |}.

(** Arithmetic of [size_t]. *)
Definition usz `{Arch} (n : nat) : nat := Z.to_nat (Z.of_nat n mod size_mod).

Lemma usz_id `{Arch} n : Z.of_nat n < size_mod → usz n = n.
Proof. intros. unfold usz. rewrite Z.mod_small by lia. lia. Qed.

(** The result of the library's functions: 0, or [__FAILURE__]. *)
Inductive status := OK | FAILURE.

#[export] Instance status_eq_dec : EqDecision status.
Proof. solve_decision. Defined.

(** [allocs]: what the next allocations do; [None] is a failure, otherwise the
    content gives each byte its value.  [live]: the number of blocks in use. *)
Record Heap := mkHeap { allocs : list (option (nat → Z)); live : Z }.

#[warnings="-notation-for-abbreviation"] Notation Alloc := (ST Heap).

(** [malloc(n)]; an exhausted oracle answers with zeroed blocks. *)
Definition malloc (n : nat) : Alloc (option (list Z)) := λ h,
  match allocs h with
  | [] => Some (Some (replicate n 0), mkHeap [] (live h + 1))
  | None :: cs => Some (None, mkHeap cs (live h))
  | Some c :: cs => Some (Some (c <$> seq 0 n), mkHeap cs (live h + 1))
  end.

Definition free (p : option (list Z)) : Alloc unit := λ h,
  Some (tt, mkHeap (allocs h) (live h - if p is Some _ then 1 else 0)).

(** [realloc(p, n)]: the old content is kept, as far as it fits. *)
Definition realloc (p : option (list Z)) (n : nat) : Alloc (option (list Z)) :=
  q ← malloc n;
  match q with
  | None => mret None
  | Some blk =>
      free p;; mret (Some (take n (default [] p) ++ drop (length (default [] p)) blk))
  end.

(** An allocation whose content does not matter (a structure). *)
Definition malloc_struct : Alloc bool := b ← malloc 0; mret (bool_decide (is_Some b)).
Definition free_struct : Alloc unit := free (Some []).

(** [memcpy(dst + off, src, n)].  With [n = 0] nothing is touched, as in every
    implementation of the C library, also when a pointer is NULL. *)
Definition copy_to (dst : option (list Z)) (off : nat) (src : option (list Z)) (n : nat)
    : option (option (list Z)) :=
  if (n =? 0)%nat then Some dst
  else
    d ← dst; s ← src;
    if (off + n <=? length d)%nat && (n <=? length s)%nat
    then Some (Some (splice off (take n s) d)) else None.

(** ** Reasoning *)

(** No allocation fails. *)
Definition plenty (h : Heap) : Prop := Forall is_Some (allocs h).

(** From [h] to [h'], [k] more blocks are in use. *)
Record used (k : Z) (h h' : Heap) : Prop := {
  used_live : live h' = live h + k;
  used_plenty : plenty h → plenty h' }.

Lemma used_refl h : used 0 h h.
Proof. split; [lia|done]. Qed.

Lemma used_trans j k n h h1 h2 : used j h h1 → used k h1 h2 → n = j + k → used n h h2.
Proof. intros [? ?] [? ?] ->. split; [lia|auto]. Qed.

Lemma wp_malloc n (Q : option (list Z) → Heap → Prop) h :
  (∀ blk h', length blk = n → used 1 h h' → Q (Some blk) h') →
  (∀ h', used 0 h h' → ¬ plenty h → Q None h') →
  wp (malloc n) Q h.
Proof.
  intros HS HN. destruct h as [[|[c|] cs] k]; do 2 eexists; (split; [reflexivity|]).
  - apply HS; [apply length_replicate|]. split; [done|]. intros _. constructor.
  - apply HS; [by rewrite length_fmap, length_seq|]. split; [done|]. by intros [_ ?]%Forall_cons.
  - apply HN.
    + split; [cbn; lia|]. by intros [_ ?]%Forall_cons.
    + by intros [[? [=]] _]%Forall_cons.
Qed.

Lemma wp_malloc_struct (Q : bool → Heap → Prop) h :
  (∀ h', used 1 h h' → Q true h') →
  (∀ h', used 0 h h' → ¬ plenty h → Q false h') →
  wp malloc_struct Q h.
Proof.
  intros HS HN. apply wp_bind, wp_malloc.
  - intros blk h' _ Hu. by apply wp_ret, HS.
  - intros h' Hu Hp. by apply wp_ret, HN.
Qed.

Lemma wp_free (p : option (list Z)) (Q : unit → Heap → Prop) h :
  (∀ h', used (if p is Some _ then -1 else 0) h h' → Q tt h') → wp (free p) Q h.
Proof.
  intros HQ. do 2 eexists. split; [reflexivity|]. apply HQ. split; [|done].
  destruct p; cbn; lia.
Qed.

Lemma wp_free_struct (Q : unit → Heap → Prop) h :
  (∀ h', used (-1) h h' → Q tt h') → wp free_struct Q h.
Proof. apply (wp_free (Some [])). Qed.

Lemma wp_realloc (p : option (list Z)) n (Q : option (list Z) → Heap → Prop) h :
  (∀ l' h', length l' = (n - length (default [] p))%nat →
     used (if p is Some _ then 0 else 1) h h' → Q (Some (take n (default [] p) ++ l')) h') →
  (∀ h', used 0 h h' → ¬ plenty h → Q None h') →
  wp (realloc p n) Q h.
Proof.
  intros HS HN. apply wp_bind, wp_malloc.
  - intros blk h1 Hl Hu. apply wp_bind, wp_free. intros h2 Hu2. apply wp_ret, HS.
    + by rewrite length_drop, Hl.
    + eapply used_trans; [done..|]. by destruct p.
  - intros h1 Hu Hp. apply wp_ret. auto.
Qed.

Lemma copy_to_spec d off s n :
  (off + n <= length d)%nat → (n <= length s)%nat →
  copy_to (Some d) off (Some s) n = Some (Some (splice off (take n s) d)).
Proof.
  intros H1 H2. unfold copy_to. destruct (Nat.eqb_spec n 0) as [->|].
  - by rewrite take_0, splice_nil.
  - rewrite !bind_ret, (proj2 (Nat.leb_le _ _)), (proj2 (Nat.leb_le _ _)) by done. done.
Qed.
