(* ===== verification/Buffer.v ===== *)
(** * Buffer: the byte buffers of c-utility.

    [src/c-utility/src/buffer.c].  A [BUFFER_HANDLE] is the structure it points
    to ([None] is NULL): each buffer has one owner in this program.  A function
    that changes a buffer returns it.  The out-parameters of [BUFFER_content] and
    [BUFFER_size] are part of the result. *)
From S2P Require Import Prelude.
From S2P Require Import Effects.
From S2P Require Import Alloc.

Record BUFFER := mkBuffer { buffer : option (list Z); size : nat }.
#[warnings="-notation-for-abbreviation"] Notation BUFFER_HANDLE := (option BUFFER).

Section buffer.
Context `{Arch}.

Definition BUFFER_new : Alloc BUFFER_HANDLE :=
  temp ← malloc_struct;
  mret (if (temp : bool) then Some (mkBuffer None 0) else None).

Definition BUFFER_safemalloc (b : BUFFER) (n : nat) : Alloc (status * BUFFER) :=
  p ← malloc (if (n =? 0)%nat then 1 else n)%nat;
  match p with
  | None => mret (FAILURE, mkBuffer None (size b))
  | Some _ => mret (OK, mkBuffer p n)
  end.

Definition BUFFER_create (source : option (list Z)) (n : nat) : Alloc BUFFER_HANDLE :=
  match source with
  | None => mret None
  | Some _ =>
      temp ← malloc_struct;
      if (temp : bool) then
        '(r, result) ← BUFFER_safemalloc (mkBuffer None 0) n;
        match r with
        | FAILURE => free_struct;; mret None
        | OK =>
            blk ← lift (copy_to (buffer result) 0 source n);
            mret (Some (mkBuffer blk (size result)))
        end
      else mret None
  end.

Definition BUFFER_delete (handle : BUFFER_HANDLE) : Alloc unit :=
  match handle with
  | None => mret tt
  | Some b => free (buffer b);; free_struct
  end.

Definition BUFFER_build (handle : BUFFER_HANDLE) (source : option (list Z)) (n : nat)
    : Alloc (status * BUFFER_HANDLE) :=
  match handle with
  | None => mret (FAILURE, handle)
  | Some b =>
      if (n =? 0)%nat then free (buffer b);; mret (OK, Some (mkBuffer None 0))
      else
        match source with
        | None => mret (FAILURE, handle)
        | Some _ =>
            newBuffer ← realloc (buffer b) n;
            match newBuffer with
            | None => mret (FAILURE, handle)
            | Some _ =>
                blk ← lift (copy_to newBuffer 0 source n);
                mret (OK, Some (mkBuffer blk n))
            end
        end
  end.

Definition BUFFER_append_build (handle : BUFFER_HANDLE) (source : option (list Z)) (n : nat)
    : Alloc (status * BUFFER_HANDLE) :=
  match handle, source with
  | Some b, Some _ =>
      if (n =? 0)%nat then mret (FAILURE, handle)
      else
        match buffer b with
        | None =>
            '(r, b) ← BUFFER_safemalloc b n;
            match r with
            | FAILURE => mret (FAILURE, Some b)
            | OK =>
                blk ← lift (copy_to (buffer b) 0 source n);
                mret (OK, Some (mkBuffer blk (size b)))
            end
        | Some _ =>
            temp ← realloc (buffer b) (usz (size b + n));
            match temp with
            | None => mret (FAILURE, handle)
            | Some _ =>
                blk ← lift (copy_to temp (size b) source n);
                mret (OK, Some (mkBuffer blk (usz (size b + n))))
            end
        end
  | _, _ => mret (FAILURE, handle)
  end.

Definition BUFFER_pre_build (handle : BUFFER_HANDLE) (n : nat)
    : Alloc (status * BUFFER_HANDLE) :=
  match handle with
  | None => mret (FAILURE, handle)
  | Some b =>
      if (n =? 0)%nat then mret (FAILURE, handle)
      else
        match buffer b with
        | Some _ => mret (FAILURE, handle)
        | None =>
            p ← malloc n;
            match p with
            | None => mret (FAILURE, Some (mkBuffer None (size b)))
            | Some _ => mret (OK, Some (mkBuffer p n))
            end
        end
  end.

Definition BUFFER_content (handle : BUFFER_HANDLE) : status * option (list Z) :=
  match handle with
  | None => (FAILURE, None)
  | Some b => (OK, buffer b)
  end.

Definition BUFFER_unbuild (handle : BUFFER_HANDLE) : Alloc (status * BUFFER_HANDLE) :=
  match handle with
  | None => mret (FAILURE, handle)
  | Some b =>
      match buffer b with
      | Some _ => free (buffer b);; mret (OK, Some (mkBuffer None 0))
      | None => mret (FAILURE, handle)
      end
  end.

Definition BUFFER_enlarge (handle : BUFFER_HANDLE) (enlargeSize : nat)
    : Alloc (status * BUFFER_HANDLE) :=
  match handle with
  | None => mret (FAILURE, handle)
  | Some b =>
      if (enlargeSize =? 0)%nat then mret (FAILURE, handle)
      else
        temp ← realloc (buffer b) (usz (size b + enlargeSize));
        match temp with
        | None => mret (FAILURE, handle)
        | Some _ => mret (OK, Some (mkBuffer temp (usz (size b + enlargeSize))))
        end
  end.

Definition BUFFER_shrink (handle : BUFFER_HANDLE) (decreaseSize : nat) (fromEnd : bool)
    : Alloc (status * BUFFER_HANDLE) :=
  match handle with
  | None => mret (FAILURE, handle)
  | Some b =>
      if (decreaseSize =? 0)%nat then mret (FAILURE, handle)
      else if (size b <? decreaseSize)%nat then mret (FAILURE, handle)
      else
        let alloc_size := (size b - decreaseSize)%nat in
        if (alloc_size =? 0)%nat then free (buffer b);; mret (OK, Some (mkBuffer None 0))
        else
          tmp ← malloc alloc_size;
          match tmp with
          | None => mret (FAILURE, handle)
          | Some _ =>
              let from := if fromEnd then 0%nat else decreaseSize in
              blk ← lift (copy_to tmp 0 (drop from <$> buffer b) alloc_size);
              free (buffer b);;
              mret (OK, Some (mkBuffer blk alloc_size))
          end
  end.

Definition BUFFER_size (handle : BUFFER_HANDLE) : status * nat :=
  match handle with
  | None => (FAILURE, 0%nat)
  | Some b => (OK, size b)
  end.

(** [same]: both arguments are the same handle. *)
Definition BUFFER_append (same : bool) (handle1 handle2 : BUFFER_HANDLE)
    : Alloc (status * BUFFER_HANDLE) :=
  match handle1, handle2 with
  | Some b1, Some b2 =>
      if same then mret (FAILURE, handle1)
      else
        match buffer b1, buffer b2 with
        | Some _, Some _ =>
            if (size b2 =? 0)%nat then mret (OK, handle1)
            else
              temp ← realloc (buffer b1) (usz (size b1 + size b2));
              match temp with
              | None => mret (FAILURE, handle1)
              | Some _ =>
                  blk ← lift (copy_to temp (size b1) (buffer b2) (size b2));
                  mret (OK, Some (mkBuffer blk (usz (size b1 + size b2))))
              end
        | _, _ => mret (FAILURE, handle1)
        end
  | _, _ => mret (FAILURE, handle1)
  end.

Definition BUFFER_prepend (same : bool) (handle1 handle2 : BUFFER_HANDLE)
    : Alloc (status * BUFFER_HANDLE) :=
  match handle1, handle2 with
  | Some b1, Some b2 =>
      if same then mret (FAILURE, handle1)
      else
        match buffer b1, buffer b2 with
        | Some _, Some _ =>
            if (size b2 =? 0)%nat then mret (OK, handle1)
            else
              temp ← malloc (usz (size b1 + size b2));
              match temp with
              | None => mret (FAILURE, handle1)
              | Some _ =>
                  temp ← lift (copy_to temp 0 (buffer b2) (size b2));
                  temp ← lift (copy_to temp (size b2) (buffer b1) (size b1));
                  free (buffer b1);;
                  mret (OK, Some (mkBuffer temp (usz (size b1 + size b2))))
              end
        | _, _ => mret (FAILURE, handle1)
        end
  | _, _ => mret (FAILURE, handle1)
  end.

Definition BUFFER_fill (handle : BUFFER_HANDLE) (fill_char : Z)
    : option (status * BUFFER_HANDLE) :=
  match handle with
  | None => Some (FAILURE, handle)
  | Some b =>
      blk ← cfor (size b) 0 (λ index blk, l ← blk; l ← st8 l index fill_char; Some (Some l))
              (buffer b);
      Some (OK, Some (mkBuffer blk (size b)))
  end.

Definition BUFFER_u_char (handle : BUFFER_HANDLE) : option (list Z) :=
  match handle with
  | None => None
  | Some b => if (size b =? 0)%nat then None else buffer b
  end.

Definition BUFFER_length (handle : BUFFER_HANDLE) : nat :=
  match handle with
  | None => 0%nat
  | Some b => size b
  end.

Definition BUFFER_clone (handle : BUFFER_HANDLE) : Alloc BUFFER_HANDLE :=
  match handle with
  | None => mret None
  | Some suppliedBuff =>
      temp ← malloc_struct;
      if (temp : bool) then
        '(r, b) ← BUFFER_safemalloc (mkBuffer None 0) (size suppliedBuff);
        match r with
        | FAILURE => mret None
        | OK =>
            blk ← lift (copy_to (buffer b) 0 (buffer suppliedBuff) (size suppliedBuff));
            mret (Some (mkBuffer blk (size suppliedBuff)))
        end
      else mret None
  end.
End buffer.

(** ** Reasoning *)

(** The buffer with the content [l]. *)
Definition buf (l : list Z) : BUFFER :=
  mkBuffer (match l with [] => None | _ => Some l end) (length l).

(** Number of memory blocks of [buf l]. *)
Definition blocks (l : list Z) : Z := match l with [] => 1 | _ => 2 end.

Section buffer_wp.
Context `{Arch}.
Implicit Types (l k : list Z) (h : Heap).

Lemma buf_u_char l : l ≠ [] → BUFFER_u_char (Some (buf l)) = Some l.
Proof. by destruct l. Qed.

Lemma blocks_cons l : l ≠ [] → blocks l = 2.
Proof. by destruct l. Qed.

Lemma buf_length l : BUFFER_length (Some (buf l)) = length l.
Proof. reflexivity. Qed.

Lemma wp_BUFFER_new (Q : BUFFER_HANDLE → Heap → Prop) h :
  (∀ h', used 1 h h' → Q (Some (buf [])) h') →
  (∀ h', used 0 h h' → ¬ plenty h → Q None h') →
  wp BUFFER_new Q h.
Proof.
  intros HS HN. apply wp_bind, wp_malloc_struct; intros; apply wp_ret; auto.
Qed.

Lemma wp_BUFFER_delete l (Q : unit → Heap → Prop) h :
  (∀ h', used (- blocks l) h h' → Q tt h') → wp (BUFFER_delete (Some (buf l))) Q h.
Proof.
  intros HQ. apply wp_bind, wp_free. intros h1 Hu1. apply wp_free_struct. intros h2 Hu2.
  apply HQ. eapply used_trans; [done..|]. by destruct l.
Qed.

Lemma wp_BUFFER_pre_build n (Q : status * BUFFER_HANDLE → Heap → Prop) h :
  n ≠ 0%nat →
  (∀ l h', length l = n → used 1 h h' → Q (OK, Some (buf l)) h') →
  (∀ h', used 0 h h' → ¬ plenty h → Q (FAILURE, Some (buf [])) h') →
  wp (BUFFER_pre_build (Some (buf [])) n) Q h.
Proof.
  intros Hn HS HN. unfold BUFFER_pre_build. rewrite (proj2 (Nat.eqb_neq _ _)) by done.
  cbn [buf buffer size length]. apply wp_bind, wp_malloc.
  - intros blk h' Hl Hu. apply wp_ret. replace (mkBuffer _ _) with (buf blk); [by apply HS|].
    unfold buf. rewrite Hl. by destruct blk; simplify_eq/=.
  - intros h' Hu Hp. apply wp_ret. by apply HN.
Qed.

Lemma wp_BUFFER_enlarge l n (Q : status * BUFFER_HANDLE → Heap → Prop) h :
  n ≠ 0%nat → Z.of_nat (length l + n) < size_mod →
  (∀ k h', length k = n → used (2 - blocks l) h h' → Q (OK, Some (buf (l ++ k))) h') →
  (∀ h', used 0 h h' → ¬ plenty h → Q (FAILURE, Some (buf l)) h') →
  wp (BUFFER_enlarge (Some (buf l)) n) Q h.
Proof.
  intros Hn Hm HS HN. unfold BUFFER_enlarge. rewrite (proj2 (Nat.eqb_neq _ _)) by done.
  cbn [size buffer buf]. rewrite usz_id by done. fold (buf l).
  assert (default [] (match l with [] => None | _ => Some l end) = l) as El by by destruct l.
  apply wp_bind, wp_realloc; rewrite ?El.
  - intros l' h' Hl' Hu. apply wp_ret. rewrite take_ge by lia.
    replace (mkBuffer _ _) with (buf (l ++ l')).
    { apply HS; [lia|]. by destruct l. }
    unfold buf. rewrite length_app, Hl'. f_equal; [|lia].
    destruct (l ++ l') eqn:E; [|done]. apply app_nil in E as [-> ->]. cbn in Hl'. lia.
  - intros h' Hu Hp. apply wp_ret. by apply HN.
Qed.

(** A block filled by two copies. *)
Lemma splice_twice l k d :
  length d = (length k + length l)%nat → splice (length k) l (splice 0 k d) = k ++ l.
Proof.
  intros Hd. unfold splice at 2. rewrite take_0. cbn [app Nat.add].
  unfold splice. rewrite take_app_length, (drop_ge (k ++ _)), app_nil_r; [done|].
  rewrite length_app, length_drop. lia.
Qed.

Lemma wp_BUFFER_prepend l k (Q : status * BUFFER_HANDLE → Heap → Prop) h :
  l ≠ [] → k ≠ [] → Z.of_nat (length l + length k) < size_mod →
  (∀ h', used 0 h h' → Q (OK, Some (buf (k ++ l))) h') →
  (∀ h', used 0 h h' → ¬ plenty h → Q (FAILURE, Some (buf l)) h') →
  wp (BUFFER_prepend false (Some (buf l)) (Some (buf k))) Q h.
Proof.
  intros Hl Hk Hm HS HN. unfold BUFFER_prepend.
  assert (∀ x, x ≠ [] → buf x = mkBuffer (Some x) (length x)) as Eb by by intros [].
  rewrite !Eb by done. cbn [buffer size].
  rewrite (proj2 (Nat.eqb_neq (length k) 0)) by by destruct k. rewrite usz_id by done.
  apply wp_bind, wp_malloc.
  - intros blk h1 Hblk Hu. eapply wp_bind, wp_lift; [apply copy_to_spec; lia|].
    eapply wp_bind, wp_lift; [apply copy_to_spec; rewrite ?length_splice; rewrite ?length_take; lia|].
    apply wp_bind, wp_free. intros h2 Hu2. apply wp_ret.
    rewrite !take_ge by done. replace (splice (length k) l _) with (k ++ l).
    + replace (mkBuffer _ _) with (buf (k ++ l)); [apply HS; by eapply used_trans|].
      rewrite Eb by by destruct k. by rewrite length_app, Nat.add_comm.
    + symmetry. apply splice_twice. lia.
  - intros h1 Hu Hp. apply wp_ret. rewrite <- Eb by done. by apply HN.
Qed.
End buffer_wp.
