(* ===== verification/Vector.v ===== *)
(** * Vector: the vectors of c-utility.

    [src/c-utility/src/vector.c].  A [VECTOR_HANDLE] is the structure it points to
    ([None] is NULL); a function that changes a vector returns it.  The storage holds
    elements of a type [E], each of [elementSize] bytes; a pointer to an element is its
    index.  [vec_is] relates a vector to the list of its elements. *)
From S2P Require Import Prelude.
From S2P Require Import Effects.
From S2P Require Import Alloc.

Record VECTOR (E : Type) := mkVector { storage : option (list E); count : nat; elementSize : nat }.
#[global] Arguments mkVector {E} _ _ _.
#[global] Arguments storage {E} _.
#[global] Arguments count {E} _.
#[global] Arguments elementSize {E} _.
#[warnings="-notation-for-abbreviation"] Notation VECTOR_HANDLE E := (option (VECTOR E)).

(** Allocations of which only the success matters; [had]: there is an old block. *)
Definition realloc_struct (had : bool) : Alloc bool :=
  temp ← malloc_struct;
  if (temp : bool) then (if had then free_struct else mret tt);; mret true else mret false.

Definition free_storage {E} (p : option (list E)) : Alloc unit :=
  match p with None => mret tt | Some _ => free_struct end.

Section vector.
Context `{Arch} {E : Type}.
Implicit Types v : VECTOR E.

Definition VECTOR_create (size : nat) : Alloc (VECTOR_HANDLE E) :=
  if (size =? 0)%nat then mret None
  else
    result ← malloc_struct;
    mret (if (result : bool) then Some (mkVector None 0 size) else None).

Definition VECTOR_destroy (handle : VECTOR_HANDLE E) : Alloc unit :=
  match handle with
  | None => mret tt
  | Some v => free_storage (storage v);; free_struct
  end.

(** The new vector, and the old one. *)
Definition VECTOR_move (handle : VECTOR_HANDLE E) : Alloc (VECTOR_HANDLE E * VECTOR_HANDLE E) :=
  match handle with
  | None => mret (None, None)
  | Some v =>
      result ← malloc_struct;
      mret (if (result : bool)
            then (Some (mkVector (storage v) (count v) (elementSize v)), Some (mkVector None 0 (elementSize v)))
            else (None, handle))
  end.

(** The copy is undefined when the size of the block has wrapped around. *)
Definition VECTOR_push_back (handle : VECTOR_HANDLE E) (elements : option (list E)) (numElements : nat)
    : Alloc (status * VECTOR_HANDLE E) :=
  match handle, elements with
  | Some v, Some es =>
      if (numElements =? 0)%nat then mret (FAILURE, handle)
      else
        let curSize := usz (elementSize v * count v) in
        let appendSize := usz (elementSize v * numElements) in
        temp ← realloc_struct (bool_decide (is_Some (storage v)));
        if (temp : bool) then
          lift (if (elementSize v * (count v + numElements) <=? usz (curSize + appendSize))%nat &&
                   (numElements <=? length es)%nat then Some tt else None);;
          mret (OK, Some (mkVector (Some (take (count v) (default [] (storage v)) ++ take numElements es))
                            (count v + numElements) (elementSize v)))
        else mret (FAILURE, handle)
  | _, _ => mret (FAILURE, handle)
  end.

(** [elements]: the distance in bytes from the storage, or NULL; nothing is removed
    unless it is an element with [numElements - 1] more behind it. *)
Definition VECTOR_erase (handle : VECTOR_HANDLE E) (elements : option Z) (numElements : nat)
    : Alloc (VECTOR_HANDLE E) :=
  match handle, elements with
  | Some v, Some diff =>
      if (numElements =? 0)%nat then mret handle
      else if diff <? 0 then mret handle
      else if negb (diff mod Z.of_nat (elementSize v) =? 0) then mret handle
      else
        let index := Z.to_nat (diff / Z.of_nat (elementSize v)) in
        if (count v <? index + numElements)%nat then mret handle
        else
          let left := (count v - numElements)%nat in
          if (left =? 0)%nat then
            free_storage (storage v);;
            mret (Some (mkVector None 0 (elementSize v)))
          else
            l ← lift (storage v);
            let moved := splice index (drop (index + numElements) (take (count v) l)) l in
            tmp ← realloc_struct true;
            mret (Some (mkVector (Some (if (tmp : bool) then take left moved else moved)) left (elementSize v)))
  | _, _ => mret handle
  end.

Definition VECTOR_clear (handle : VECTOR_HANDLE E) : Alloc (VECTOR_HANDLE E) :=
  match handle with
  | None => mret None
  | Some v => free_storage (storage v);; mret (Some (mkVector None 0 (elementSize v)))
  end.

Definition VECTOR_element (handle : VECTOR_HANDLE E) (index : nat) : option nat :=
  match handle with
  | None => None
  | Some v => if (count v <=? index)%nat then None else Some index
  end.

Definition VECTOR_front (handle : VECTOR_HANDLE E) : option nat :=
  match handle with
  | None => None
  | Some v => if (count v =? 0)%nat then None else Some 0%nat
  end.

Definition VECTOR_back (handle : VECTOR_HANDLE E) : option nat :=
  match handle with
  | None => None
  | Some v => if (count v =? 0)%nat then None else Some (count v - 1)%nat
  end.

(** The loop of [VECTOR_find_if] over the elements from [i] on; undefined outside of
    the storage. *)
Fixpoint find_from {V} (n i : nat) (l : list E) (pred : E → V → bool) (value : V) : option (option nat) :=
  match n with
  | O => Some None
  | S n => e ← l !! i; if pred e value then Some (Some i) else find_from n (S i) l pred value
  end.

Definition VECTOR_find_if {V} (handle : VECTOR_HANDLE E) (pred : option (E → V → bool)) (value : V) : option (option nat) :=
  match handle, pred with
  | Some v, Some pred => find_from (count v) 0 (default [] (storage v)) pred value
  | _, _ => Some None
  end.

Definition VECTOR_size (handle : VECTOR_HANDLE E) : nat :=
  match handle with None => 0 | Some v => count v end.

(** What is at a pointer to an element. *)
Definition element_at (handle : VECTOR_HANDLE E) (p : option nat) : option E :=
  v ← handle; i ← p; l ← storage v; l !! i.

(** ** Vectors and lists *)

(** [v] has the elements [l]. *)
Record vec_is v (l : list E) : Prop := {
  vec_count : count v = length l;
  vec_size : (0 < elementSize v)%nat;
  vec_storage : match storage v with None => l = [] | Some blk => l ≠ [] ∧ l `prefix_of` blk end }.

(** Blocks of a vector. *)
Definition vec_blocks (l : list E) : Z := if l is [] then 1 else 2.

Lemma wp_realloc_struct (had : bool) (Q : bool → Heap → Prop) h :
  (∀ h', used (if had then 0 else 1) h h' → Q true h') → (∀ h', used 0 h h' → ¬ plenty h → Q false h') →
  wp (realloc_struct had) Q h.
Proof.
  intros HS HN. apply wp_bind, wp_malloc_struct; intros h1 Hu1.
  - destruct had; apply wp_bind; [apply wp_free_struct; intros h2 Hu2|apply wp_ret]; apply wp_ret, HS; [|done].
    eapply used_trans; [exact Hu1|exact Hu2|done].
  - intros Hp. apply wp_ret. by apply HN.
Qed.

Lemma wp_VECTOR_create size (Q : VECTOR_HANDLE E → Heap → Prop) h :
  (0 < size)%nat →
  (∀ v h', vec_is v [] → elementSize v = size → used 1 h h' → Q (Some v) h') →
  (∀ h', used 0 h h' → ¬ plenty h → Q None h') → wp (VECTOR_create size) Q h.
Proof.
  intros Hs HS HN. unfold VECTOR_create. rewrite (proj2 (Nat.eqb_neq _ _)) by lia.
  apply wp_bind, wp_malloc_struct; intros h1 Hu1; [apply wp_ret, HS; [by split|done|done]|].
  intros Hp. by apply wp_ret, HN.
Qed.

Lemma wp_VECTOR_destroy v l (Q : unit → Heap → Prop) h :
  vec_is v l → (∀ h', used (- vec_blocks l) h h' → Q tt h') → wp (VECTOR_destroy (Some v)) Q h.
Proof.
  intros [_ _ Hs] HQ. apply wp_bind. unfold free_storage. destruct (storage v) as [blk|].
  - apply wp_free_struct. intros h1 Hu1. apply wp_free_struct. intros h2 Hu2. apply HQ.
    destruct Hs as [Hl _]. destruct l; [done|]. eapply used_trans; [exact Hu1|exact Hu2|done].
  - subst l. apply wp_ret, wp_free_struct. intros h1 Hu1. by apply HQ.
Qed.

(** The elements in front of the new ones stay. *)
Lemma wp_VECTOR_push_back v l es (Q : status * VECTOR_HANDLE E → Heap → Prop) h :
  vec_is v l → es ≠ [] → Z.of_nat (elementSize v * (length l + length es)) < size_mod →
  (∀ v' h', vec_is v' (l ++ es) → elementSize v' = elementSize v →
     used (vec_blocks (l ++ es) - vec_blocks l) h h' → Q (OK, Some v') h') →
  (∀ h', used 0 h h' → ¬ plenty h → Q (FAILURE, Some v) h') →
  wp (VECTOR_push_back (Some v) (Some es) (length es)) Q h.
Proof.
  intros [Hc He Hs] Hne Hsz HS HN. unfold VECTOR_push_back.
  rewrite (proj2 (Nat.eqb_neq _ _)) by by destruct es. rewrite Hc. apply wp_bind, wp_realloc_struct.
  - intros h1 Hu1. apply wp_bind. eapply wp_lift.
    { rewrite (usz_id (_ * length l)), (usz_id (_ * length es)), usz_id by nia.
      by rewrite (proj2 (Nat.leb_le _ _)), (proj2 (Nat.leb_le _ _)) by nia. }
    apply wp_ret, HS.
    + split; cbn [count elementSize storage].
      * by rewrite length_app.
      * done.
      * split; [by destruct l, es|]. rewrite firstn_all. destruct (storage v) as [blk|].
        -- destruct Hs as [_ [k ->]]. change (default [] (Some (l ++ k))) with (l ++ k). by rewrite take_app_length.
        -- by subst l.
    + done.
    + destruct (storage v); destruct l as [|x l]; cbn in Hs |- *; try done; [by destruct Hs|]. by destruct es.
  - intros h1 Hu1 Hp. by apply wp_ret, HN.
Qed.

Lemma element_spec v l i : vec_is v l → element_at (Some v) (VECTOR_element (Some v) i) = l !! i.
Proof.
  intros [Hc _ Hs]. unfold element_at, VECTOR_element. rewrite bind_ret, Hc. destruct (Nat.leb_spec (length l) i).
  - by rewrite lookup_ge_None_2.
  - rewrite bind_ret. destruct (storage v) as [blk|].
    + rewrite bind_ret. destruct Hs as [_ [k ->]]. by rewrite lookup_app_l.
    + subst l. cbn in *. lia.
Qed.

(** The first element with the property. *)
Lemma find_spec {V} v l (pred : E → V → bool) value :
  vec_is v l → VECTOR_find_if (Some v) (Some pred) value = Some (fst <$> list_find (λ e, pred e value = true) l).
Proof.
  intros [Hc _ Hs]. unfold VECTOR_find_if. rewrite Hc.
  assert (∃ blk, default [] (storage v) = l ++ blk) as [blk ->].
  { destruct (storage v) as [b|]; [destruct Hs as [_ [k ->]]; by exists k|]. subst. by exists []. }
  enough (∀ pre, find_from (length l) (length pre) (pre ++ l ++ blk) pred value =
    Some (fst <$> (prod_map (Nat.add (length pre)) id <$> list_find (λ e, pred e value = true) l))) as Hf.
  { specialize (Hf []). cbn [length app] in Hf. rewrite Hf. f_equal. destruct (list_find _ l) as [[i e]|]; done. }
  clear Hc Hs. induction l as [|e l IH]; intros pre; cbn [length find_from list_find]; [done|].
  rewrite <- (app_comm_cons l), list_lookup_middle by done. rewrite bind_ret. destruct (decide (pred e value = true)) as [->|Hp].
  - cbn. by rewrite Nat.add_0_r.
  - destruct (pred e value); [done|]. specialize (IH (pre ++ [e])). rewrite length_app, <- app_assoc in IH.
    cbn [length app] in IH. rewrite Nat.add_1_r in IH. rewrite IH. f_equal. destruct (list_find _ l) as [[i x]|]; [|done].
    cbn. f_equal. lia.
Qed.

(** Elements in the middle are taken out. *)
Lemma wp_VECTOR_erase v l1 es l2 (Q : VECTOR_HANDLE E → Heap → Prop) h :
  vec_is v (l1 ++ es ++ l2) → es ≠ [] →
  (∀ v' h', vec_is v' (l1 ++ l2) → elementSize v' = elementSize v →
     used (vec_blocks (l1 ++ l2) - vec_blocks (l1 ++ es ++ l2)) h h' → Q (Some v') h') →
  wp (VECTOR_erase (Some v) (Some (Z.of_nat (length l1 * elementSize v))) (length es)) Q h.
Proof.
  intros [Hc He Hs] Hne HQ. unfold VECTOR_erase. rewrite (proj2 (Nat.eqb_neq _ _)) by by destruct es.
  rewrite (proj2 (Z.ltb_ge _ _)) by lia. rewrite Nat2Z.inj_mul, Z.mod_mul, Z.div_mul, Nat2Z.id by lia.
  change (0 =? 0) with true. cbn [negb]. rewrite !length_app in Hc.
  rewrite (proj2 (Nat.ltb_ge _ _)) by lia.
  destruct (storage v) as [blk|] eqn:Es; cycle 1. { by destruct l1, es. }
  destruct Hs as [Hl [k ->]].
  destruct (Nat.eqb_spec (count v - length es) 0) as [E0|E0].
  - assert (l1 = [] ∧ l2 = []) as [-> ->].
    { destruct l1, l2; [done|..]; cbn in Hc; lia. }
    apply wp_bind, wp_free_struct. intros h1 Hu1. apply wp_ret, HQ; [by split|done|].
    rewrite app_nil_r. cbn [app]. by destruct es.
  - apply wp_bind. eapply wp_lift; [reflexivity|]. rewrite Hc.
    assert (splice (length l1) (drop (length l1 + length es) (take (length l1 + (length es + length l2))
      ((l1 ++ es ++ l2) ++ k))) ((l1 ++ es ++ l2) ++ k) = (l1 ++ l2) ++ drop (length l1 + length l2) ((l1 ++ es ++ l2) ++ k)) as ->.
    { replace (length l1 + (length es + length l2))%nat with (length (l1 ++ es ++ l2)) by (rewrite !length_app; lia).
      rewrite take_app_length.
      assert (drop (length l1 + length es) (l1 ++ es ++ l2) = l2) as ->.
      { rewrite app_assoc, <- length_app. apply drop_app_length. }
      unfold splice. rewrite <- !app_assoc, take_app_length. done. }
    apply wp_bind, wp_realloc_struct.
    + intros h1 Hu1. apply wp_ret, HQ; [|done|].
      * split; cbn [count elementSize storage]; [rewrite length_app; lia|done|]. split.
        { intros [-> ->]%app_eq_nil. cbn in Hc. lia. }
        replace (length l1 + (length es + length l2) - length es)%nat with (length (l1 ++ l2)) by (rewrite length_app; lia).
        by rewrite take_app_length.
      * replace (vec_blocks (l1 ++ l2) - vec_blocks (l1 ++ es ++ l2)) with 0; [done|].
        destruct l1, es, l2; cbn in Hc, E0 |- *; try done; lia.
    + intros h1 Hu1 _. apply wp_ret, HQ; [|done|].
      * split; cbn [count elementSize storage]; [rewrite length_app; lia|done|]. split.
        { intros [-> ->]%app_eq_nil. cbn in Hc. lia. }
        by eexists.
      * replace (vec_blocks (l1 ++ l2) - vec_blocks (l1 ++ es ++ l2)) with 0; [done|].
        destruct l1, es, l2; cbn in Hc, E0 |- *; try done; lia.
Qed.
End vector.
