(* ===== verification/SinglyLinkedList.v ===== *)
(** * SinglyLinkedList: the linked lists of c-utility.

    [src/c-utility/src/singlylinkedlist.c] on an explicit heap of list items.
    An operation returns [None] when the C code would follow a dangling pointer
    or run out of fuel; the fuel of the loops is one more than the number of
    allocated items, and the theorems show that this is enough.  The result of
    [malloc] is an argument ([None] is NULL): an address that is not in use.

    [is_list] relates the heap to the mathematical list of items; each operation
    refines the corresponding list function. *)
From S2P Require Import Prelude.
From stdpp Require Import gmap.

(** [LIST_ITEM_INSTANCE] and [LIST_INSTANCE]. *)
Record LIST_ITEM (V : Type) := mkItem { item : V; next : option positive }.
#[global] Arguments mkItem {V} _ _.
#[global] Arguments item {V} _.
#[global] Arguments next {V} _.
Record LIST_INSTANCE := mkList { head : option positive; tail : option positive }.
Notation heap V := (gmap positive (LIST_ITEM V)).

Section singlylinkedlist.
Context {V : Type}.
Implicit Types (h : heap V) (lst : LIST_INSTANCE) (a b p : positive).

Definition fuel h : nat := S (size h).

Definition singlylinkedlist_create (malloc_ok : bool) : option LIST_INSTANCE :=
  if malloc_ok then Some (mkList None None) else None.

Fixpoint destroy_loop (n : nat) h lst : option (heap V) :=
  match head lst with
  | None => Some h
  | Some current =>
      match n with
      | O => None
      | S n =>
          c ← h !! current;
          destroy_loop n (delete current h) (mkList (next c) (tail lst))
      end
  end.

Definition singlylinkedlist_destroy h (list : option LIST_INSTANCE) : option (heap V) :=
  match list with
  | None => Some h
  | Some lst => destroy_loop (fuel h) h lst
  end.

Definition singlylinkedlist_add (malloc : option positive) h
    (list : option LIST_INSTANCE) (x : option V)
    : option (heap V * option LIST_INSTANCE * option positive) :=
  match list, x with
  | Some lst, Some x =>
      match malloc with
      | None => Some (h, list, None)
      | Some result =>
          let h := <[result := mkItem x None]> h in
          match head lst with
          | None => Some (h, Some (mkList (Some result) (Some result)), Some result)
          | Some _ =>
              t ← tail lst;
              c ← h !! t;
              Some (<[t := mkItem (item c) (Some result)]> h,
                    Some (mkList (head lst) (Some result)), Some result)
          end
      end
  | _, _ => Some (h, list, None)
  end.

(** Unlinks [current], whose predecessor is [previous], and frees it. *)
Definition unlink h lst (previous : option positive) (current : positive) (c : LIST_ITEM V)
    : option (heap V * LIST_INSTANCE) :=
  '(h, lst) ← match previous with
              | Some p => pc ← h !! p;
                          Some (<[p := mkItem (item pc) (next c)]> h, lst)
              | None => Some (h, mkList (next c) (tail lst))
              end;
  let lst := if decide (tail lst = Some current) then mkList (head lst) previous else lst in
  Some (delete current h, lst).

Fixpoint remove_loop (n : nat) h lst (target : positive)
    (previous current : option positive) : option (heap V * LIST_INSTANCE * bool) :=
  match current with
  | None => Some (h, lst, false)
  | Some cur =>
      match n with
      | O => None
      | S n =>
          c ← h !! cur;
          if decide (cur = target) then
            '(h, lst) ← unlink h lst previous cur c; Some (h, lst, true)
          else remove_loop n h lst target (Some cur) (next c)
      end
  end.

(** The boolean says that the C function returned 0. *)
Definition singlylinkedlist_remove h (list : option LIST_INSTANCE) (target : option positive)
    : option (heap V * option LIST_INSTANCE * bool) :=
  match list, target with
  | Some lst, Some target =>
      '(h, lst, ok) ← remove_loop (fuel h) h lst target None (head lst);
      Some (h, Some lst, ok)
  | _, _ => Some (h, list, false)
  end.

Definition singlylinkedlist_get_head_item (list : option LIST_INSTANCE) : option positive :=
  lst ← list; head lst.

(** [None]: a dangling item; [Some None]: the NULL item. *)
Definition singlylinkedlist_get_next_item h (i : option positive) : option (option positive) :=
  match i with
  | None => Some None
  | Some a => c ← h !! a; Some (next c)
  end.

Definition singlylinkedlist_item_get_value h (i : option positive) : option (option V) :=
  match i with
  | None => Some None
  | Some a => c ← h !! a; Some (Some (item c))
  end.

Fixpoint find_loop (n : nat) h (matches : positive → V → bool) (current : option positive)
    : option (option positive) :=
  match current with
  | None => Some None
  | Some cur =>
      match n with
      | O => None
      | S n =>
          c ← h !! cur;
          if matches cur (item c) then Some (Some cur) else find_loop n h matches (next c)
      end
  end.

Definition singlylinkedlist_find h (list : option LIST_INSTANCE)
    (matches : option (positive → V → bool)) : option (option positive) :=
  match list, matches with
  | Some lst, Some f => find_loop (fuel h) h f (head lst)
  | _, _ => Some None
  end.

(** The condition returns whether to remove the item and whether to go on. *)
Fixpoint remove_if_loop (n : nat) h lst (cond : V → bool * bool)
    (previous current : option positive) : option (heap V * LIST_INSTANCE) :=
  match current with
  | None => Some (h, lst)
  | Some cur =>
      match n with
      | O => None
      | S n =>
          c ← h !! cur;
          let '(rm, continue) := cond (item c) in
          '(h, lst, previous) ←
            if rm : bool
            then '(h, lst) ← unlink h lst previous cur c; Some (h, lst, previous)
            else Some (h, lst, Some cur);
          if continue : bool then remove_if_loop n h lst cond previous (next c)
          else Some (h, lst)
      end
  end.

Definition singlylinkedlist_remove_if h (list : option LIST_INSTANCE)
    (cond : option (V → bool * bool)) : option (heap V * option LIST_INSTANCE * bool) :=
  match list, cond with
  | Some lst, Some f =>
      '(h, lst) ← remove_if_loop (fuel h) h lst f None (head lst);
      Some (h, Some lst, true)
  | _, _ => Some (h, list, false)
  end.

(** The action threads its context and says whether to go on. *)
Fixpoint foreach_loop {A} (n : nat) h (action : V → A → A * bool)
    (current : option positive) (ctx : A) : option A :=
  match current with
  | None => Some ctx
  | Some cur =>
      match n with
      | O => None
      | S n =>
          c ← h !! cur;
          let '(ctx, continue) := action (item c) ctx in
          if continue : bool then foreach_loop n h action (next c) ctx else Some ctx
      end
  end.

Definition singlylinkedlist_foreach {A} h (list : option LIST_INSTANCE)
    (action : option (V → A → A * bool)) (ctx : A) : option (A * bool) :=
  match list, action with
  | Some lst, Some f => ctx ← foreach_loop (fuel h) h f (head lst) ctx; Some (ctx, true)
  | _, _ => Some (ctx, false)
  end.
End singlylinkedlist.

(** ** The list in the heap *)

Section representation.
Context {V : Type}.
Implicit Types (h : heap V) (lst : LIST_INSTANCE) (l : list (positive * V)).

(** The items [l] linked from [p] to [q]. *)
Fixpoint lseg h (p q : option positive) l : Prop :=
  match l with
  | [] => p = q
  | (a, x) :: l => p = Some a ∧ ∃ nx, h !! a = Some (mkItem x nx) ∧ lseg h nx q l
  end.

Record is_list h lst l : Prop := {
  is_list_seg : lseg h (head lst) None l;
  is_list_tail : tail lst = fst <$> last l;
  is_list_nodup : NoDup l.*1;
}.

(** A traversal that has passed [passed] and has [rest] ahead. *)
Record cursor h lst (previous current : option positive) passed rest : Prop := {
  cursor_passed : lseg h (head lst) current passed;
  cursor_rest : lseg h current None rest;
  cursor_previous : previous = fst <$> last passed;
  cursor_tail : tail lst = fst <$> last (passed ++ rest);
  cursor_nodup : NoDup (passed ++ rest).*1;
}.

Lemma lseg_app h p q l1 l2 :
  lseg h p q (l1 ++ l2) ↔ ∃ m, lseg h p m l1 ∧ lseg h m q l2.
Proof.
  revert p. induction l1 as [|[a x] l1 IH]; intros p; simpl.
  - split; [by intros ?; exists p|]. by intros (m & -> & ?).
  - split.
    + intros (-> & nx & E & (m & H1 & H2)%IH). exists m. eauto 10.
    + intros (m & (-> & nx & E & H1) & H2). split; [done|]. exists nx.
      split; [done|]. apply IH. eauto.
Qed.

Lemma lseg_frame h h' p q l :
  (∀ b, b ∈ l.*1 → h' !! b = h !! b) → lseg h p q l → lseg h' p q l.
Proof.
  revert p. induction l as [|[a x] l IH]; intros p Hb; simpl; [done|].
  intros (-> & nx & E & Hl). split; [done|]. exists nx.
  split; [rewrite Hb; [done|by left]|]. apply IH; [|done].
  intros b Hin. apply Hb. by right.
Qed.

Lemma lseg_lookup h p q l a : lseg h p q l → a ∈ l.*1 → is_Some (h !! a).
Proof.
  revert p. induction l as [|[b x] l IH]; intros p; simpl.
  - intros _ Hin. by apply elem_of_nil in Hin.
  - intros (-> & nx & E & Hl) [->|Hin]%elem_of_cons; [eauto|]. by eapply IH.
Qed.

(** The fuel is enough: there are no more items than allocated blocks. *)
Lemma lseg_fuel h p q l : lseg h p q l → NoDup l.*1 → (length l < fuel h)%nat.
Proof.
  intros Hl Hnd. unfold fuel. rewrite <- (length_fmap fst l).
  rewrite <- (size_list_to_set (C:=gset positive)) by done.
  apply Nat.lt_succ_r.
  rewrite <- (size_dom (D:=gset positive) h). apply subseteq_size.
  intros a Ha%elem_of_list_to_set. apply elem_of_dom. by eapply lseg_lookup.
Qed.

Lemma is_list_cursor h lst l :
  is_list h lst l ↔ cursor h lst None (head lst) [] l.
Proof. split; intros []; by split. Qed.

Lemma cursor_done h lst previous passed :
  cursor h lst previous None passed [] → is_list h lst passed.
Proof. intros []. rewrite app_nil_r in *. by split. Qed.

(** Stopping anywhere, the list is what was passed and what is ahead. *)
Lemma cursor_stop h lst previous current passed rest :
  cursor h lst previous current passed rest → is_list h lst (passed ++ rest).
Proof. intros []. split; [|done|done]. apply lseg_app. eauto. Qed.

Lemma cursor_step h lst previous a x passed rest :
  cursor h lst previous (Some a) passed ((a, x) :: rest) →
  ∃ nx, h !! a = Some (mkItem x nx) ∧
    cursor h lst (Some a) nx (passed ++ [(a, x)]) rest.
Proof.
  intros [Hp (_ & nx & E & Hr) -> Ht Hn]. exists nx. split; [done|].
  split; try (by rewrite <- app_assoc); [|done|by rewrite last_snoc].
  apply lseg_app. exists (Some a). split; [done|]. simpl. eauto.
Qed.

Lemma cursor_current h lst previous current passed rest :
  cursor h lst previous current passed rest → current = fst <$> list.head rest.
Proof. intros [_ Hr _ _ _]. destruct rest as [|[a x] rest]; [done|]. by destruct Hr. Qed.

(** The new tail after the item [a] was taken out. *)
Lemma unlink_tail passed (a : positive) (x : V) rest t :
  NoDup (passed ++ (a, x) :: rest).*1 → t = fst <$> last (passed ++ (a, x) :: rest) →
  (if decide (t = Some a) then fst <$> last passed else t) = fst <$> last (passed ++ rest).
Proof.
  intros Hn ->. destruct rest as [|e rest _] using rev_ind.
  - rewrite last_snoc, app_nil_r. by rewrite decide_True.
  - rewrite app_comm_cons, !app_assoc, !last_snoc. cbn [fmap option_fmap option_map].
    rewrite decide_False; [done|]. intros [= E]. rewrite fmap_app in Hn.
    apply NoDup_app in Hn as (_ & _ & Hn). rewrite fmap_cons, fmap_app in Hn.
    apply NoDup_cons in Hn as [Hn _]. apply Hn, elem_of_app. right. simpl. rewrite E. by left.
Qed.

Lemma cursor_unlink h lst previous a x passed rest :
  cursor h lst previous (Some a) passed ((a, x) :: rest) →
  ∃ nx h' lst', h !! a = Some (mkItem x nx) ∧
    unlink h lst previous a (mkItem x nx) = Some (h', lst') ∧
    cursor h' lst' previous nx passed rest ∧ h' !! a = None ∧
    ∀ b, b ∉ (passed ++ (a, x) :: rest).*1 → h' !! b = h !! b.
Proof.
  intros [Hp (_ & nx & E & Hr) Hprev Ht Hn]. exists nx.
  pose proof (unlink_tail _ _ _ _ _ Hn Ht) as Htail.
  assert (NoDup (passed ++ rest).*1) as Hn'.
  { revert Hn. rewrite !fmap_app, fmap_cons. intros (? & Hd & [? ?]%NoDup_cons)%NoDup_app.
    apply NoDup_app. split; [done|]. split; [|done]. intros b Hb Hin. apply (Hd b Hb). by right. }
  assert (a ∉ passed.*1 ∧ a ∉ rest.*1 ∧ (∀ b, b ∈ passed.*1 → b ∉ rest.*1)) as (Hap & Har & Hpr).
  { revert Hn. rewrite fmap_app, fmap_cons. intros (? & Hd & [? ?]%NoDup_cons)%NoDup_app.
    split; [|split; [done|]].
    - intros Hin. apply (Hd a Hin). by left.
    - intros b Hb Hin. apply (Hd b Hb). by right. }
  unfold unlink. cbn [item next].
  destruct passed as [|[b y] passed _] using rev_ind.
  - simpl in Hp, Hprev. subst previous. rewrite bind_ret. cbn [tail head].
    do 2 eexists. split; [done|]. split; [done|]. split; [|split].
    + destruct (decide (tail lst = Some a)); (split; [done| |done|exact Htail|exact Hn']);
        (eapply lseg_frame; [|exact Hr]); intros b Hb; apply lookup_delete_ne; by intros <-.
    + apply lookup_delete_eq.
    + intros b Hb. apply lookup_delete_ne. intros <-. apply Hb. by left.
  - rewrite last_snoc in Hprev, Htail. cbn in Hprev, Htail. subst previous.
    apply lseg_app in Hp as (m & Hp & -> & m' & Eb & Em). simpl in Em. subst m'. cbn [mbind option_bind]. rewrite Eb.
    cbn [item mbind option_bind]. do 2 eexists. split; [done|]. split; [done|].
    rewrite fmap_app in Hap, Hpr. cbn in Hap, Hpr.
    assert (a ≠ b) as Hab by (intros <-; apply Hap, elem_of_app; right; by left).
    assert (b ∉ rest.*1) as Hbr by (apply Hpr, elem_of_app; right; by left).
    assert (b ∉ passed.*1) as Hbp.
    { revert Hn'. rewrite !fmap_app, <- app_assoc. intros (_ & Hd & _)%NoDup_app Hin.
      apply (Hd b Hin), elem_of_app. left. by left. }
    split; [|split].
    + split; [| |by rewrite last_snoc| |done].
      * assert (head (if decide (tail lst = Some a) then mkList (head lst) (Some b) else lst)
          = head lst) as -> by (by destruct (decide (tail lst = Some a))).
        apply lseg_app. exists (Some b). split; [|split; [done|]; exists nx; split; [|done]].
        -- eapply lseg_frame; [|exact Hp]. intros c Hc.
           rewrite lookup_delete_ne, lookup_insert_ne; [done|..]; intros <-; [done|].
           apply Hap, elem_of_app. by left.
        -- by rewrite lookup_delete_ne, lookup_insert_eq.
      * eapply lseg_frame; [|exact Hr]. intros c Hc.
        rewrite lookup_delete_ne, lookup_insert_ne; [done|..]; by intros <-.
      * rewrite <- Htail. by destruct (decide (tail lst = Some a)).
    + apply lookup_delete_eq.
    + intros c Hc. rewrite !fmap_app, fmap_cons in Hc. cbn in Hc.
      rewrite lookup_delete_ne, lookup_insert_ne; [done|..]; intros <-; apply Hc;
        rewrite !elem_of_app, elem_of_cons; [left; right; by left|by right; left].
Qed.
End representation.

(** ** The operations on the represented list *)

Section operations.
Context {V : Type}.
Implicit Types (h : heap V) (lst : LIST_INSTANCE) (l : list (positive * V)).

(** What [remove_if] leaves of the items it visits. *)
Fixpoint remove_if_items (cond : V → bool * bool) (l : list (positive * V))
    : list (positive * V) :=
  match l with
  | [] => []
  | e :: l =>
      (if fst (cond (snd e)) then [] else [e]) ++
      (if snd (cond (snd e)) then remove_if_items cond l else l)
  end.

(** The fold that stops when the action says so. *)
Fixpoint foreach_items {A} (action : V → A → A * bool) (l : list V) (ctx : A) : A :=
  match l with
  | [] => ctx
  | x :: l => let '(ctx, continue) := action x ctx in
              if continue : bool then foreach_items action l ctx else ctx
  end.

(** Only the items [l] of the heap may have changed. *)
Definition frame_of h h' l : Prop := ∀ b, b ∉ l.*1 → h' !! b = h !! b.

Lemma create_is_list h : is_list h (mkList None None) [].
Proof. split; [done|done|constructor]. Qed.

Lemma add_is_list h lst l a x :
  is_list h lst l → h !! a = None →
  ∃ h' lst', singlylinkedlist_add (Some a) h (Some lst) (Some x) = Some (h', Some lst', Some a) ∧
    is_list h' lst' (l ++ [(a, x)]) ∧ frame_of h h' (l ++ [(a, x)]).
Proof.
  intros [Hs Ht Hn] Ha. unfold singlylinkedlist_add.
  assert (a ∉ l.*1) as Hal.
  { intros Hin. eapply lseg_lookup in Hin as [? ?]; [|done]. congruence. }
  assert (NoDup (l ++ [(a, x)]).*1) as Hn'.
  { rewrite fmap_app. apply NoDup_app. split; [done|]. split; [|apply NoDup_singleton].
    intros b Hb ->%list_elem_of_singleton. done. }
  destruct l as [|[b y] l _] using rev_ind.
  - simpl in Hs. rewrite Hs. do 2 eexists. split; [done|]. split.
    + split; [|done|done]. simpl. split; [done|]. exists None. by rewrite lookup_insert_eq.
    + intros b Hb. apply lookup_insert_ne. intros <-. apply Hb. by left.
  - apply lseg_app in Hs as (m & Hs & -> & m' & Eb & Em). simpl in Em. subst m'.
    rewrite last_snoc in Ht. cbn in Ht. rewrite Ht.
    rewrite fmap_app, elem_of_app in Hal. cbn in Hal.
    assert (a ≠ b) as Hab by (intros <-; apply Hal; right; by left).
    assert (b ∉ l.*1) as Hbl.
    { rewrite fmap_app in Hn. apply NoDup_app in Hn as (_ & Hd & _). intros Hin.
      apply (Hd b Hin). by left. }
    assert (is_Some (head lst)) as [a0 Eh].
    { destruct l as [|[c z] l]; simpl in Hs; [by rewrite Hs|]. destruct Hs as [-> _]. eauto. }
    rewrite Eh. cbn [mbind option_bind]. rewrite lookup_insert_ne, Eb by done.
    cbn [mbind option_bind item].
    do 2 eexists. split; [done|]. split.
    + split; [|by rewrite last_snoc|done]. cbn [head]. rewrite <- app_assoc.
      apply lseg_app. exists (Some b). split.
      * rewrite <- Eh. eapply lseg_frame; [|exact Hs]. intros c Hc.
        rewrite !lookup_insert_ne; [done|..]; intros <-; [apply Hal; by left|done].
      * simpl. split; [done|]. exists (Some a). rewrite lookup_insert_eq. split; [done|].
        split; [done|]. exists None. by rewrite lookup_insert_ne, lookup_insert_eq.
    + intros c Hc. rewrite !fmap_app, !elem_of_app in Hc. cbn in Hc.
      rewrite !lookup_insert_ne; [done|..]; intros <-; apply Hc;
        [right; by left|left; right; by left].
Qed.

Lemma filter_absent (l : list (positive * V)) (a : positive) :
  a ∉ l.*1 → filter (λ e, e.1 ≠ a) l = l.
Proof.
  induction l as [|[b y] l IH]; intros Ha; [done|].
  rewrite fmap_cons, not_elem_of_cons in Ha. destruct Ha as [Hb Ha].
  rewrite filter_cons_True by (simpl in *; congruence). by rewrite IH.
Qed.

Lemma remove_loop_spec n h lst target previous current passed rest :
  cursor h lst previous current passed rest → (length rest < n)%nat →
  target ∉ passed.*1 →
  ∃ h' lst', remove_loop n h lst target previous current
      = Some (h', lst', bool_decide (target ∈ rest.*1)) ∧
    is_list h' lst' (passed ++ filter (λ e, e.1 ≠ target) rest) ∧
    (target ∈ rest.*1 → h' !! target = None) ∧ frame_of h h' (passed ++ rest).
Proof.
  revert previous current passed n.
  induction rest as [|[a x] rest IH]; intros previous current passed n Hc Hn Hp.
  { pose proof (cursor_current _ _ _ _ _ _ Hc) as ->. destruct n; simpl; exists h, lst.
    all: split; [done|]; split; [rewrite app_nil_r; by eapply cursor_done|].
    all: split; [intros Hin; by apply elem_of_nil in Hin|done]. }
  destruct n as [|n]; [simpl in Hn; lia|].
  pose proof (cursor_current _ _ _ _ _ _ Hc) as E. simpl in E. subst current.
  cbn [remove_loop]. destruct (decide (a = target)) as [->|Hne].
  - destruct (cursor_unlink _ _ _ _ _ _ _ Hc) as (nx & h' & lst' & Ea & Eu & Hc' & Hfree & Hfr).
    rewrite Ea. cbn [mbind option_bind]. cbn [item next] in *. rewrite Eu. cbn [mbind option_bind].
    exists h', lst'. split; [|split; [|split; [done|exact Hfr]]].
    + rewrite bool_decide_true; [done|by left].
    + rewrite filter_cons_False by naive_solver.
      rewrite filter_absent; [by eapply cursor_stop|]. destruct Hc as [_ _ _ _ Hnd].
      rewrite fmap_app, fmap_cons in Hnd. apply NoDup_app in Hnd as (_ & _ & Hnd).
      by apply NoDup_cons in Hnd as [Hnd _].
  - destruct (cursor_step _ _ _ _ _ _ _ Hc) as (nx & Ea & Hc').
    rewrite Ea. cbn [mbind option_bind next].
    destruct (IH _ _ _ n Hc') as (h' & lst' & E & Hl & Hfree & Hfr).
    { simpl in Hn. lia. }
    { rewrite fmap_app, elem_of_app. intros [?|Hin]; [done|].
      by apply list_elem_of_singleton in Hin. }
    exists h', lst'. split; [|split; [|split]].
    + rewrite E. do 2 f_equal. apply bool_decide_ext. rewrite fmap_cons, elem_of_cons. naive_solver.
    + rewrite filter_cons_True by done. by rewrite <- app_assoc in Hl.
    + intros [->|Hin]%elem_of_cons; [done|]. auto.
    + intros b Hb. apply Hfr. by rewrite <- app_assoc.
Qed.

(** Removing the head item. *)
Lemma remove_head_spec h lst (p : positive) (x : V) l :
  is_list h lst ((p, x) :: l) →
  ∃ h' lst', singlylinkedlist_remove h (Some lst) (Some p) = Some (h', Some lst', true) ∧
    is_list h' lst' l ∧ h' !! p = None ∧ frame_of h h' ((p, x) :: l).
Proof.
  intros Hl. destruct (Hl) as [Hs Ht Hn].
  destruct (remove_loop_spec (fuel h) h lst p None (head lst) [] ((p, x) :: l))
    as (h' & lst' & E & Hl' & Hfree & Hfr); [by apply is_list_cursor|by eapply lseg_fuel|apply not_elem_of_nil|].
  apply NoDup_cons in Hn as [Hp _]. exists h', lst'. unfold singlylinkedlist_remove.
  rewrite E. cbn [mbind option_bind]. rewrite bool_decide_true by by left.
  cbn [app] in Hl'. rewrite filter_cons_False, filter_absent in Hl' by (done || naive_solver).
  split; [done|]. split; [done|]. split; [apply Hfree; by left|done].
Qed.

Lemma find_loop_spec n h matches current l :
  lseg h current None l → (length l < n)%nat →
  find_loop n h matches current = Some (fst <$> find (λ e, matches e.1 e.2) l).
Proof.
  revert current n. induction l as [|[a x] l IH]; intros current n Hl Hn; simpl in Hl.
  { subst current. by destruct n. }
  destruct Hl as (-> & nx & E & Hl). destruct n as [|n]; [simpl in Hn; lia|].
  cbn [find_loop find fst snd]. rewrite E. cbn [mbind option_bind item next].
  destruct (matches a x); [done|]. apply IH; [done|]. simpl in Hn. lia.
Qed.

Lemma remove_if_loop_spec n h lst cond previous current passed rest :
  cursor h lst previous current passed rest → (length rest < n)%nat →
  ∃ h' lst', remove_if_loop n h lst cond previous current = Some (h', lst') ∧
    is_list h' lst' (passed ++ remove_if_items cond rest) ∧ frame_of h h' (passed ++ rest).
Proof.
  revert h lst previous current passed n.
  induction rest as [|[a x] rest IH]; intros h lst previous current passed n Hc Hn.
  { pose proof (cursor_current _ _ _ _ _ _ Hc) as ->. destruct n; simpl; exists h, lst.
    all: split; [done|]; split; [rewrite app_nil_r; by eapply cursor_done|done]. }
  destruct n as [|n]; [simpl in Hn; lia|]. simpl in Hn.
  pose proof (cursor_current _ _ _ _ _ _ Hc) as E. simpl in E. subst current.
  cbn [remove_if_loop remove_if_items fst snd].
  destruct (cursor_unlink _ _ _ _ _ _ _ Hc) as (nx & h' & lst' & Ea & Eu & Hc' & _ & Hfr).
  destruct (cursor_step _ _ _ _ _ _ _ Hc) as (nx' & Ea' & Hc'').
  assert (nx' = nx) as -> by congruence. rewrite Ea. cbn [mbind option_bind item next].
  destruct (cond x) as [[] continue]; cbn [fst snd app].
  - rewrite Eu. cbn [mbind option_bind]. destruct continue.
    + destruct (IH _ _ _ _ _ n Hc') as (h2 & lst2 & E2 & Hl2 & Hfr2); [lia|].
      exists h2, lst2. split; [done|]. split; [done|]. intros b Hb.
      rewrite Hfr2; [by apply Hfr|]. intros Hin. apply Hb. revert Hin.
      rewrite !fmap_app, !elem_of_app, fmap_cons, elem_of_cons. tauto.
    + exists h', lst'. split; [done|]. split; [by eapply cursor_stop|done].
  - cbn [mbind option_bind]. destruct continue.
    + destruct (IH _ _ _ _ _ n Hc'') as (h2 & lst2 & E2 & Hl2 & Hfr2); [lia|].
      exists h2, lst2. rewrite <- !app_assoc in *. done.
    + exists h, lst. split; [done|]. split; [by eapply cursor_stop|done].
Qed.

Lemma foreach_loop_spec {A} n h (action : V → A → A * bool) current l ctx :
  lseg h current None l → (length l < n)%nat →
  foreach_loop n h action current ctx = Some (foreach_items action (l.*2) ctx).
Proof.
  revert current n ctx. induction l as [|[a x] l IH]; intros current n ctx Hl Hn; simpl in Hl.
  { subst current. by destruct n. }
  destruct Hl as (-> & nx & E & Hl). destruct n as [|n]; [simpl in Hn; lia|].
  cbn [foreach_loop foreach_items fmap list_fmap snd]. rewrite E.
  cbn [mbind option_bind item next]. destruct (action x ctx) as [ctx' []]; [|done].
  apply IH; [done|]. simpl in Hn. lia.
Qed.

(** The clean-up never looks at the tail. *)
Lemma destroy_loop_tail n h p t t' :
  destroy_loop n h (mkList p t) = destroy_loop n h (mkList p t').
Proof.
  revert p h. induction n as [|n IH]; intros [a|] h; try done.
  cbn [destroy_loop head tail]. destruct (h !! a); [|done]. apply IH.
Qed.

Lemma destroy_loop_spec n h lst l :
  is_list h lst l → (length l < n)%nat →
  ∃ h', destroy_loop n h lst = Some h' ∧ (∀ b, b ∈ l.*1 → h' !! b = None) ∧ frame_of h h' l.
Proof.
  revert h lst n. induction l as [|[a x] l IH]; intros h lst n [Hs Ht Hnd] Hn; simpl in Hs.
  { exists h. destruct n; simpl; rewrite Hs; (split; [done|]);
      (split; [intros b Hb; by apply elem_of_nil in Hb|done]). }
  destruct Hs as (Hh & nx & Ea & Hs). destruct n as [|n]; [simpl in Hn; lia|].
  apply NoDup_cons in Hnd as [Hal Hnd]. cbn [destroy_loop]. rewrite Hh, Ea.
  cbn [mbind option_bind next].
  assert (lseg (delete a h) nx None l) as Hs'.
  { eapply lseg_frame; [|exact Hs]. intros b Hb. apply lookup_delete_ne. by intros <-. }
  assert (is_list (delete a h) (mkList nx (fst <$> last l)) l) as Hl' by (by split).
  destruct (IH _ _ n Hl') as (h' & E & Hfree & Hfr); [simpl in Hn; lia|].
  exists h'. rewrite (destroy_loop_tail _ _ _ _ (fst <$> last l)). split; [done|]. split.
  - intros b [->|Hb]%elem_of_cons; [|by apply Hfree].
    rewrite Hfr by done. apply lookup_delete_eq.
  - intros b Hb. rewrite fmap_cons, not_elem_of_cons in Hb. destruct Hb as [Hba Hbl].
    rewrite Hfr by done. by apply lookup_delete_ne.
Qed.
End operations.

(** ** The contract of the library *)

Section contract.
Context {V : Type}.
Implicit Types (h : heap V) (lst : LIST_INSTANCE) (l : list (positive * V)).

(** [singlylinkedlist_add] appends the item at the address [malloc] gave, or
    leaves everything alone when there is no memory; other blocks of the heap
    are not touched. *)
Theorem list_add_appends h lst l (malloc : option positive) x :
  is_list h lst l → (∀ a, malloc = Some a → h !! a = None) →
  ∃ h' lst', singlylinkedlist_add malloc h (Some lst) (Some x) = Some (h', Some lst', malloc) ∧
    let l' := l ++ (match malloc with Some a => [(a, x)] | None => [] end) in
    is_list h' lst' l' ∧ frame_of h h' l'.
Proof.
  intros Hl Hm. destruct malloc as [a|]; [by apply add_is_list; [|apply Hm]|].
  exists h, lst. rewrite app_nil_r. by split.
Qed.

(** [singlylinkedlist_remove] unlinks and frees the given item, reports
    whether it was in the list, and terminates without touching anything else. *)
Theorem list_remove_deletes h lst l target :
  is_list h lst l →
  ∃ h' lst', singlylinkedlist_remove h (Some lst) (Some target)
      = Some (h', Some lst', bool_decide (target ∈ l.*1)) ∧
    is_list h' lst' (filter (λ e, e.1 ≠ target) l) ∧
    (target ∈ l.*1 → h' !! target = None) ∧ frame_of h h' l.
Proof.
  intros Hl. destruct Hl as [Hs Ht Hn] eqn:E. clear E.
  destruct (remove_loop_spec (fuel h) h lst target None (head lst) [] l)
    as (h' & lst' & Eq & Hres); [by apply is_list_cursor|by eapply lseg_fuel|apply not_elem_of_nil|].
  exists h', lst'. unfold singlylinkedlist_remove. by rewrite Eq.
Qed.

(** [singlylinkedlist_remove_if] removes exactly the items its condition
    selects up to the point where the condition stops it. *)
Theorem list_remove_if_filters h lst l cond :
  is_list h lst l →
  ∃ h' lst', singlylinkedlist_remove_if h (Some lst) (Some cond) = Some (h', Some lst', true) ∧
    is_list h' lst' (remove_if_items cond l) ∧ frame_of h h' l.
Proof.
  intros Hl. destruct Hl as [Hs Ht Hn] eqn:E. clear E.
  destruct (remove_if_loop_spec (fuel h) h lst cond None (head lst) [] l)
    as (h' & lst' & Eq & Hres); [by apply is_list_cursor|by eapply lseg_fuel|].
  exists h', lst'. unfold singlylinkedlist_remove_if. by rewrite Eq.
Qed.

(** [singlylinkedlist_find] and [singlylinkedlist_foreach] visit the items in
    order, stop at the first match (when the action says so), and terminate. *)
Theorem list_traversals {A} h lst l matches (action : V → A → A * bool) ctx :
  is_list h lst l →
  singlylinkedlist_find h (Some lst) (Some matches)
    = Some (fst <$> find (λ e, matches e.1 e.2) l) ∧
  singlylinkedlist_foreach h (Some lst) (Some action) ctx
    = Some (foreach_items action (l.*2) ctx, true).
Proof.
  intros [Hs Ht Hn]. pose proof (lseg_fuel _ _ _ _ Hs Hn). split.
  - by apply find_loop_spec.
  - unfold singlylinkedlist_foreach. by rewrite (foreach_loop_spec _ _ _ _ l).
Qed.

(** [singlylinkedlist_destroy] frees every item of the list, once, and
    nothing else. *)
Theorem list_destroy_frees h lst l :
  is_list h lst l →
  ∃ h', singlylinkedlist_destroy h (Some lst) = Some h' ∧
    (∀ b, b ∈ l.*1 → h' !! b = None) ∧ frame_of h h' l.
Proof.
  intros Hl. destruct Hl as [Hs Ht Hn] eqn:E. clear E.
  apply destroy_loop_spec; [by split|by eapply lseg_fuel].
Qed.
End contract.

#[local] Open Scope Z_scope.

(** A list of two items, next to an unrelated block at address 9. *)
Definition sample_heap : heap Z :=
  <[4%positive := mkItem 10 (Some 6%positive)]>
    (<[6%positive := mkItem 20 None]> (<[9%positive := mkItem 99 None]> ∅)).
Definition sample_list : LIST_INSTANCE := mkList (Some 4%positive) (Some 6%positive).

Lemma sample_is_list : is_list sample_heap sample_list [(4%positive, 10); (6%positive, 20)].
Proof.
  split; [|done|by apply (bool_decide_unpack _); vm_compute].
  split; [done|]. exists (Some 6%positive). split; [done|]. split; [done|]. by exists None.
Defined.

Lemma list_add_appends_witness :
  ∃ h' lst', singlylinkedlist_add (Some 5%positive) sample_heap (Some sample_list) (Some 30)
      = Some (h', Some lst', Some 5%positive) ∧
    is_list h' lst' [(4%positive, 10); (6%positive, 20); (5%positive, 30)].
Proof.
  destruct (list_add_appends sample_heap sample_list _ (Some 5%positive) 30 sample_is_list)
    as (h' & lst' & E & Hl & _); [by intros a [= <-]|].
  by exists h', lst'.
Defined.

Lemma list_remove_deletes_witness :
  ∃ h' lst', singlylinkedlist_remove sample_heap (Some sample_list) (Some 6%positive)
      = Some (h', Some lst', true) ∧ is_list h' lst' [(4%positive, 10)].
Proof.
  destruct (list_remove_deletes sample_heap sample_list _ 6%positive sample_is_list)
    as (h' & lst' & E & Hl & _).
  by exists h', lst'.
Defined.

Lemma list_remove_if_filters_witness :
  ∃ h' lst', singlylinkedlist_remove_if sample_heap (Some sample_list)
      (Some (λ v, (v =? 10, true))) = Some (h', Some lst', true) ∧
    is_list h' lst' [(6%positive, 20)].
Proof.
  destruct (list_remove_if_filters sample_heap sample_list _ (λ v, (v =? 10, true)) sample_is_list)
    as (h' & lst' & E & Hl & _).
  by exists h', lst'.
Defined.

Lemma list_traversals_witness :
  singlylinkedlist_foreach sample_heap (Some sample_list)
    (Some (λ v acc, (acc + v, true))) 0 = Some (30, true).
Proof.
  apply (list_traversals sample_heap sample_list _ (λ _ _, false) (λ v acc, (acc + v, true)) 0
    sample_is_list).
Defined.

Lemma list_destroy_frees_witness :
  ∃ h', singlylinkedlist_destroy sample_heap (Some sample_list) = Some h' ∧
    h' !! 6%positive = None.
Proof.
  destruct (list_destroy_frees sample_heap sample_list _ sample_is_list) as (h' & E & Hf & _).
  exists h'. split; [done|]. apply Hf. right. by left.
Defined.
