(* ===== verification/DoublyLinkedList.v ===== *)
(** * DoublyLinkedList: the intrusive lists of c-utility.

    [src/c-utility/src/doublylinkedlist.c] on an explicit store of entries: an
    entry is part of a structure and is named by the structure's address.  An
    operation returns [None] when it would follow a NULL or dangling pointer.
    [dlist] relates the store to the list of the entries behind a head. *)
From S2P Require Import Prelude.
From stdpp Require Import gmap.

Record DLIST_ENTRY := mkEntry { Flink : option positive; Blink : option positive }.
#[warnings="-notation-for-abbreviation"] Notation entries := (gmap positive DLIST_ENTRY).
#[warnings="-notation-for-abbreviation"] Notation PDLIST_ENTRY := (option positive).

(** [p->Flink] and [p->Blink]. *)
Definition get_Flink (h : entries) (p : PDLIST_ENTRY) : option PDLIST_ENTRY :=
  p ← p; Flink <$> h !! p.
Definition get_Blink (h : entries) (p : PDLIST_ENTRY) : option PDLIST_ENTRY :=
  p ← p; Blink <$> h !! p.

(** [p->Flink = v] and [p->Blink = v]. *)
Definition set_Flink (p v : PDLIST_ENTRY) (h : entries) : option entries :=
  p ← p; e ← h !! p; Some (<[p := mkEntry v (Blink e)]> h).
Definition set_Blink (p v : PDLIST_ENTRY) (h : entries) : option entries :=
  p ← p; e ← h !! p; Some (<[p := mkEntry (Flink e) v]> h).

Section doublylinkedlist.
Implicit Types (h : entries) (ListHead Entry listHead entry : PDLIST_ENTRY).

Definition DList_InitializeListHead h ListHead : option entries :=
  h ← set_Blink ListHead ListHead h;
  set_Flink ListHead ListHead h.

Definition DList_IsListEmpty h ListHead : option bool :=
  f ← get_Flink h ListHead;
  Some (bool_decide (f = ListHead)).

Definition DList_RemoveEntryList h Entry : option (entries * bool) :=
  f ← get_Flink h Entry;
  b ← get_Blink h Entry;
  h ← set_Flink b f h;
  h ← set_Blink f b h;
  Some (h, bool_decide (f = b)).

Definition DList_RemoveHeadList h ListHead : option (entries * PDLIST_ENTRY) :=
  Entry ← get_Flink h ListHead;
  f ← get_Flink h Entry;
  h ← set_Flink ListHead f h;
  h ← set_Blink f ListHead h;
  Some (h, Entry).

Definition DList_InsertTailList h ListHead Entry : option entries :=
  b ← get_Blink h ListHead;
  h ← set_Flink Entry ListHead h;
  h ← set_Blink Entry b h;
  h ← set_Flink b Entry h;
  set_Blink ListHead Entry h.

Definition DList_AppendTailList h ListHead (ListToAppend : PDLIST_ENTRY) : option entries :=
  ListEnd ← get_Blink h ListHead;
  h ← set_Flink ListEnd ListToAppend h;
  b ← get_Blink h ListToAppend;
  h ← set_Blink ListHead b h;
  b ← get_Blink h ListToAppend;
  h ← set_Flink b ListHead h;
  set_Blink ListToAppend ListEnd h.

Definition DList_InsertHeadList h listHead entry : option entries :=
  h ← set_Blink entry listHead h;
  f ← get_Flink h listHead;
  h ← set_Flink entry f h;
  f ← get_Flink h listHead;
  h ← set_Blink f entry h;
  set_Flink listHead entry h.
End doublylinkedlist.

(** ** The list behind a head *)

(** The forward and the backward pointer of an entry. *)
Definition fl (h : entries) (p : positive) : option PDLIST_ENTRY := Flink <$> h !! p.
Definition bl (h : entries) (p : positive) : option PDLIST_ENTRY := Blink <$> h !! p.

Definition joined (h : entries) (p q : positive) : Prop :=
  fl h p = Some (Some q) ∧ bl h q = Some (Some p).

(** Each entry of the list is joined to the next one. *)
Fixpoint path (h : entries) (l : list positive) : Prop :=
  match l with
  | x :: (y :: _) as l => joined h x y ∧ path h l
  | _ => True
  end.

(** The entries behind [head], in order: a ring through the head. *)
Record dlist (h : entries) (head : positive) (l : list positive) : Prop := {
  dlist_nodup : NoDup (head :: l);
  dlist_ring : path h (head :: l ++ [head]) }.

Section theory.
Implicit Types (h : entries) (l : list positive) (p q x y : positive).

Lemma path_app h l1 x l2 : path h (l1 ++ x :: l2) ↔ path h (l1 ++ [x]) ∧ path h (x :: l2).
Proof.
  induction l1 as [|a [|b l1] IH]; cbn [app path]; [tauto|tauto|].
  cbn [app] in IH. rewrite IH. tauto.
Qed.

Lemma path_frame h h' l :
  (∀ x, x ∈ removelast l → fl h' x = fl h x) → (∀ x, x ∈ tail l → bl h' x = bl h x) →
  path h l → path h' l.
Proof.
  induction l as [|x [|y l] IH]; intros Hf Hb; [done..|]. intros [[H1 H2] Hp]. split.
  - split; [rewrite Hf; [done|left]|rewrite Hb; [done|left]].
  - apply IH; [intros z Hz; apply Hf; by right|intros z Hz; apply Hb|done].
    destruct l; [by apply elem_of_nil in Hz|by right].
Qed.

Lemma fl_insert h p q e : fl (<[p := e]> h) q = if decide (p = q) then Some (Flink e) else fl h q.
Proof. unfold fl. by rewrite lookup_insert; destruct (decide _). Qed.

Lemma bl_insert h p q e : bl (<[p := e]> h) q = if decide (p = q) then Some (Blink e) else bl h q.
Proof. unfold bl. by rewrite lookup_insert; destruct (decide _). Qed.

(** What a store does to the two pointers. *)
Lemma set_Flink_spec h p v :
  is_Some (h !! p) →
  ∃ h', set_Flink (Some p) v h = Some h' ∧ dom h' = dom h ∧
    (∀ q, fl h' q = if decide (p = q) then Some v else fl h q) ∧ (∀ q, bl h' q = bl h q) ∧
    (∀ q, q ≠ p → h' !! q = h !! q).
Proof.
  intros [e E]. eexists. cbn. rewrite E. split; [done|]. split; [apply dom_insert_lookup_L; eauto|].
  split; [intros q; by rewrite fl_insert|]. split; [|intros q Hq; by rewrite lookup_insert_ne].
  intros q. rewrite bl_insert. destruct (decide _) as [->|]; [|done]. unfold bl. by rewrite E.
Qed.

Lemma set_Blink_spec h p v :
  is_Some (h !! p) →
  ∃ h', set_Blink (Some p) v h = Some h' ∧ dom h' = dom h ∧
    (∀ q, fl h' q = fl h q) ∧ (∀ q, bl h' q = if decide (p = q) then Some v else bl h q) ∧
    (∀ q, q ≠ p → h' !! q = h !! q).
Proof.
  intros [e E]. eexists. cbn. rewrite E. split; [done|]. split; [apply dom_insert_lookup_L; eauto|].
  split; [|split; [intros q; by rewrite bl_insert|intros q Hq; by rewrite lookup_insert_ne]].
  intros q. rewrite fl_insert. destruct (decide _) as [->|]; [|done]. unfold fl. by rewrite E.
Qed.

Lemma fl_alloc h p v : fl h p = Some v → is_Some (h !! p).
Proof. unfold fl. destruct (h !! p); [eauto|done]. Qed.

Lemma bl_alloc h p v : bl h p = Some v → is_Some (h !! p).
Proof. unfold bl. destruct (h !! p); [eauto|done]. Qed.

Lemma alloc_dom h h' p : dom h' = dom h → is_Some (h !! p) → is_Some (h' !! p).
Proof. intros E. rewrite <- !elem_of_dom, E. done. Qed.

(** The last entry before the end of a list and the first behind its beginning. *)
Lemma split_last x l : ∃ xs b, x :: l = xs ++ [b].
Proof. destruct (exists_last (l := x :: l)) as (xs & b & E); [done|]. by exists xs, b. Qed.

Lemma split_first l x : ∃ f ys, l ++ [x] = f :: ys.
Proof. destruct l; by do 2 eexists. Qed.
End theory.

(** ** The contract of the operations *)

(** Entries other than those of [l] are not touched. *)
Definition kept (h h' : entries) (l : list positive) : Prop := ∀ q, q ∉ l → h' !! q = h !! q.

Section contract.
Implicit Types (h : entries) (l m : list positive) (head e q : positive).

Lemma path_links h xs x y ys : path h (xs ++ x :: y :: ys) → joined h x y.
Proof. intros Hp. apply path_app in Hp as [_ [Hj _]]. done. Qed.

Lemma dlist_alloc h head l q : dlist h head l → q ∈ head :: l → is_Some (h !! q).
Proof.
  intros [_ Hr] Hq. apply list_elem_of_split in Hq as (l1 & l2 & E).
  replace (head :: l ++ [head]) with ((head :: l) ++ [head]) in Hr by done. rewrite E in Hr.
  rewrite <- app_assoc in Hr. destruct (split_first l2 head) as (f & ys & E2).
  cbn [app] in Hr. rewrite E2 in Hr. destruct (path_links _ _ _ _ _ Hr) as [Hf _]. by eapply fl_alloc.
Qed.

(** The first entry behind the head and the last one, or the head itself. *)
Lemma dlist_first h head l : dlist h head l → fl h head = Some (Some (default head (list.head l))).
Proof. intros [_ Hr]. destruct l as [|x l]; by destruct Hr as [[Hf _] _]. Qed.

Lemma dlist_last h head l xs b : dlist h head l → head :: l = xs ++ [b] → bl h head = Some (Some b).
Proof.
  intros [_ Hr] E. replace (head :: l ++ [head]) with ((head :: l) ++ [head]) in Hr by done.
  rewrite E, <- app_assoc in Hr. by destruct (path_links _ _ _ _ _ Hr) as [_ Hb].
Qed.

Lemma initialize_dlist h p :
  is_Some (h !! p) →
  ∃ h', DList_InitializeListHead h (Some p) = Some h' ∧ dlist h' p [] ∧ kept h h' [p].
Proof.
  intros Hp. unfold DList_InitializeListHead.
  destruct (set_Blink_spec h p (Some p) Hp) as (h1 & -> & D1 & F1 & B1 & K1). rewrite bind_ret.
  destruct (set_Flink_spec h1 p (Some p)) as (h2 & -> & D2 & F2 & B2 & K2); [by eapply alloc_dom|].
  exists h2. split; [done|]. split.
  - split; [apply NoDup_singleton|]. repeat split; [by rewrite F2, decide_True|by rewrite B2, B1, decide_True].
  - intros q [Hq _]%not_elem_of_cons. by rewrite K2, K1.
Qed.

Lemma is_empty_dlist h head l :
  dlist h head l → DList_IsListEmpty h (Some head) = Some (bool_decide (l = [])).
Proof.
  intros Hl. unfold DList_IsListEmpty, get_Flink. pose proof (dlist_first _ _ _ Hl) as Hf.
  unfold fl in Hf. rewrite bind_ret, Hf, bind_ret. f_equal. apply bool_decide_ext.
  destruct l as [|x l]; cbn; [done|]. split; [|done]. intros [= ->].
  by destruct (NoDup_cons_1_1 _ _ (dlist_nodup _ _ _ Hl)); left.
Qed.

Lemma get_Flink_eq h p v : fl h p = Some v → get_Flink h (Some p) = Some v.
Proof. done. Qed.
Lemma get_Blink_eq h p v : bl h p = Some v → get_Blink h (Some p) = Some v.
Proof. done. Qed.

(** Around a position of the ring: the entries before and behind it. *)
Record around head l1 l2 (xs : list positive) (b f : positive) (ys : list positive) : Prop := {
  around_before : head :: l1 = xs ++ [b];
  around_behind : l2 ++ [head] = f :: ys }.

Lemma around_exists head l1 l2 : ∃ xs b f ys, around head l1 l2 xs b f ys.
Proof.
  destruct (split_last head l1) as (xs & b & E1). destruct (split_first l2 head) as (f & ys & E2).
  by exists xs, b, f, ys.
Qed.

Lemma around_ring h head l1 l2 m xs b f ys :
  around head l1 l2 xs b f ys → head :: (l1 ++ m ++ l2) ++ [head] = xs ++ b :: m ++ f :: ys.
Proof.
  intros [E1 E2]. rewrite app_comm_cons, app_comm_cons, E1, <- !app_assoc, E2. done.
Qed.

(** Two halves of a ring keep their joints when only the pointers between them,
    and those of entries outside of it, change. *)
Lemma halves_kept h h' head l1 l2 xs b f ys :
  around head l1 l2 xs b f ys → NoDup (head :: l1 ++ l2) →
  (∀ q, q ∈ head :: l1 ++ l2 → q ≠ b → fl h' q = fl h q) →
  (∀ q, q ∈ head :: l1 ++ l2 → q ≠ f → bl h' q = bl h q) →
  path h (xs ++ [b]) → path h (f :: ys) → path h' (xs ++ [b]) ∧ path h' (f :: ys).
Proof.
  intros [E1 E2] Hnd HF HB H1 H2. rewrite app_comm_cons in *. apply NoDup_app in Hnd as (Hnd1 & Hd & Hnd2).
  assert (b ∈ head :: l1) as Hb by (rewrite E1; apply elem_of_app; right; left).
  assert (f = head ∨ f ∈ l2) as Hf.
  { assert (f ∈ l2 ++ [head]) as [|?%list_elem_of_singleton]%elem_of_app by (rewrite E2; left); auto. }
  split.
  - eapply path_frame; [| |exact H1].
    + intros x Hx. rewrite removelast_last in Hx. apply HF.
      * rewrite E1. apply elem_of_app. left. apply elem_of_app. by left.
      * intros ->. rewrite E1 in Hnd1. apply NoDup_app in Hnd1 as (_ & Hd1 & _). apply (Hd1 _ Hx). left.
    + intros x Hx. assert (x ∈ l1) as Hxl.
      { destruct xs; [by apply elem_of_nil in Hx|]. injection E1 as -> E1. by rewrite E1. }
      apply HB; [apply elem_of_app; left; by right|]. intros ->. destruct Hf as [->|Hf].
      * by apply NoDup_cons in Hnd1 as [? _].
      * apply (Hd f); [by right|done].
  - eapply path_frame; [| |exact H2].
    + intros x Hx. rewrite <- E2, removelast_last in Hx. apply HF.
      * apply elem_of_app. by right.
      * intros ->. by apply (Hd b).
    + intros x Hx. assert (x ∈ l2 ++ [head]) as Hx2 by (rewrite E2; by right).
      apply HB.
      * apply elem_of_app. apply elem_of_app in Hx2 as [| ->%list_elem_of_singleton]; [by right|left; left].
      * intros ->. assert (NoDup (f :: ys)) as [? _]%NoDup_cons; [|done]. rewrite <- E2. apply NoDup_app.
        split_and!; [done| |apply NoDup_singleton]. intros y Hy ->%list_elem_of_singleton.
        apply (Hd head); [left|done].
Qed.

(** An entry that is linked in between [b] and [f]. *)
Lemma linked_in h h' head l1 l2 e xs b f ys :
  dlist h head (l1 ++ l2) → around head l1 l2 xs b f ys → e ∉ head :: l1 ++ l2 →
  (∀ q, q ≠ b → q ≠ e → fl h' q = fl h q) → (∀ q, q ≠ f → q ≠ e → bl h' q = bl h q) →
  joined h' b e → joined h' e f → dlist h' head (l1 ++ e :: l2).
Proof.
  intros [Hnd Hr] Ha Hn HF HB Hbe Hef. pose proof (around_ring h _ _ _ [] _ _ _ _ Ha) as E0.
  pose proof (around_ring h _ _ _ [e] _ _ _ _ Ha) as E. cbn [app] in E0, E. rewrite E0 in Hr.
  pose proof Hr as [H1 H2]%path_app. assert (path h (f :: ys)) as H3 by by destruct H2.
  destruct (halves_kept h h' _ _ _ _ _ _ _ Ha Hnd) as [H1' H3']; [| |done|done|].
  - intros q Hq Hqb. apply HF; [done|by intros ->].
  - intros q Hq Hqf. apply HB; [done|by intros ->].
  - split.
    + rewrite app_comm_cons in *. rewrite not_elem_of_app in Hn. destruct Hn as [Hn1 Hn2].
      apply NoDup_app in Hnd as (? & Hd & ?). apply NoDup_app. split; [done|]. split.
      * intros x Hx [->|Hx2]%elem_of_cons; [done|]. by apply (Hd x).
      * by apply NoDup_cons.
    + rewrite E. apply path_app. split; [done|].
      change (joined h' b e ∧ joined h' e f ∧ path h' (f :: ys)). auto.
Qed.

Lemma around_pointers h head l1 l2 xs b f ys :
  dlist h head (l1 ++ l2) → around head l1 l2 xs b f ys →
  joined h b f ∧ b ∈ head :: l1 ++ l2 ∧ f ∈ head :: l1 ++ l2.
Proof.
  intros [_ Hr] Ha. pose proof (around_ring h _ _ _ [] _ _ _ _ Ha) as E. cbn [app] in E. rewrite E in Hr.
  destruct Ha as [E1 E2]. split; [by eapply path_links|]. split.
  - rewrite app_comm_cons, E1. apply elem_of_app. left. apply elem_of_app. right. left.
  - assert (f ∈ l2 ++ [head]) as [| ->%list_elem_of_singleton]%elem_of_app by (rewrite E2; left); [|left].
    right. apply elem_of_app. by right.
Qed.

Lemma insert_tail_dlist h head l e :
  dlist h head l → is_Some (h !! e) → e ∉ head :: l →
  ∃ h', DList_InsertTailList h (Some head) (Some e) = Some h' ∧
    dlist h' head (l ++ [e]) ∧ kept h h' (e :: head :: l) ∧ dom h' = dom h.
Proof.
  intros Hl He Hn. destruct (around_exists head l []) as (xs & b & f & ys & Ha).
  pose proof Hl as Hl'. rewrite <- (app_nil_r l) in Hl'.
  destruct (around_pointers _ _ _ _ _ _ _ _ Hl' Ha) as ([_ Hb] & Hbin & _). rewrite app_nil_r in Hbin.
  assert (f = head) as -> by (destruct Ha as [_ E2]; by injection E2).
  assert (b ≠ e) as Hbe by by intros ->. assert (head ≠ e) as Hhe by (intros ->; apply Hn; left).
  unfold DList_InsertTailList. rewrite (get_Blink_eq _ _ _ Hb), bind_ret.
  destruct (set_Flink_spec h e (Some head) He) as (h1 & -> & D1 & F1 & B1 & K1). rewrite bind_ret.
  destruct (set_Blink_spec h1 e (Some b)) as (h2 & -> & D2 & F2 & B2 & K2); [by eapply alloc_dom|].
  rewrite bind_ret.
  destruct (set_Flink_spec h2 b (Some e)) as (h3 & -> & D3 & F3 & B3 & K3).
  { apply (alloc_dom h); [by rewrite D2, D1|]. by apply (dlist_alloc _ head l). }
  rewrite bind_ret.
  destruct (set_Blink_spec h3 head (Some e)) as (h4 & -> & D4 & F4 & B4 & K4).
  { apply (alloc_dom h); [by rewrite D3, D2, D1|]. apply (dlist_alloc _ head l); [done|left]. }
  exists h4. split; [done|]. split; [|split; [|by rewrite D4, D3, D2, D1]].
  - apply (linked_in h h4 head l [] e xs b head ys); [done|done|by rewrite app_nil_r|..].
    + intros q Hqb Hqe. by rewrite F4, F3, F2, F1, !decide_False.
    + intros q Hqh Hqe. by rewrite B4, B3, B2, B1, !decide_False.
    + split; [by rewrite F4, F3, decide_True|by rewrite B4, decide_False, B3, B2, decide_True by congruence].
    + split; [by rewrite F4, F3, F2, F1, decide_False, decide_True|by rewrite B4, decide_True].
  - intros q [Hqe Hq]%not_elem_of_cons. rewrite K4, K3, K2, K1; [done|done|done|..]; intros ->; apply Hq; [done|left].
Qed.

Lemma insert_head_dlist h head l e :
  dlist h head l → is_Some (h !! e) → e ∉ head :: l →
  ∃ h', DList_InsertHeadList h (Some head) (Some e) = Some h' ∧
    dlist h' head (e :: l) ∧ kept h h' (e :: head :: l) ∧ dom h' = dom h.
Proof.
  intros Hl He Hn. destruct (around_exists head [] l) as (xs & b & f & ys & Ha).
  destruct (around_pointers h head [] l _ _ _ _ Hl Ha) as ([Hf _] & _ & Hfin). cbn [app] in Hfin.
  assert (b = head) as -> by (destruct Ha as [E1 _]; destruct xs as [|? []]; by injection E1).
  assert (f ≠ e) as Hfe by by intros ->. assert (head ≠ e) as Hhe by (intros ->; apply Hn; left).
  unfold DList_InsertHeadList.
  destruct (set_Blink_spec h e (Some head) He) as (h1 & -> & D1 & F1 & B1 & K1). rewrite bind_ret.
  rewrite (get_Flink_eq h1 head (Some f)), bind_ret by by rewrite F1.
  destruct (set_Flink_spec h1 e (Some f)) as (h2 & -> & D2 & F2 & B2 & K2); [by eapply alloc_dom|].
  rewrite bind_ret, (get_Flink_eq h2 head (Some f)), bind_ret by (rewrite F2, decide_False by congruence; by rewrite F1).
  destruct (set_Blink_spec h2 f (Some e)) as (h3 & -> & D3 & F3 & B3 & K3).
  { apply (alloc_dom h); [by rewrite D2, D1|]. by apply (dlist_alloc _ head l). }
  rewrite bind_ret.
  destruct (set_Flink_spec h3 head (Some e)) as (h4 & -> & D4 & F4 & B4 & K4).
  { apply (alloc_dom h); [by rewrite D3, D2, D1|]. apply (dlist_alloc _ head l); [done|left]. }
  exists h4. split; [done|]. split; [|split; [|by rewrite D4, D3, D2, D1]].
  - apply (linked_in h h4 head [] l e xs head f ys); [done..| | | |].
    + intros q Hqb Hqe. by rewrite F4, F3, F2, F1, !decide_False.
    + intros q Hqh Hqe. by rewrite B4, B3, B2, B1, !decide_False.
    + split; [by rewrite F4, decide_True|by rewrite B4, B3, B2, B1, decide_False, decide_True].
    + split; [by rewrite F4, F3, F2, decide_False, decide_True|by rewrite B4, B3, decide_True].
  - intros q [Hqe Hq]%not_elem_of_cons. rewrite K4, K3, K2, K1; [done|done|done|..]; intros ->; apply Hq; [done|left].
Qed.

Lemma remove_dlist h head l1 e l2 :
  dlist h head (l1 ++ e :: l2) →
  ∃ h', DList_RemoveEntryList h (Some e) = Some (h', bool_decide (l1 ++ l2 = [])) ∧
    dlist h' head (l1 ++ l2) ∧ kept h h' (head :: l1 ++ l2) ∧ dom h' = dom h.
Proof.
  intros Hl. destruct (around_exists head l1 l2) as (xs & b & f & ys & Ha).
  pose proof (around_ring h _ _ _ [e] _ _ _ _ Ha) as E. cbn [app] in E.
  pose proof (dlist_ring _ _ _ Hl) as Hr. rewrite E in Hr.
  apply path_app in Hr as [Hp1 ([Hbe Heb] & [Hef Hfe] & Hp2)].
  assert (NoDup (head :: l1 ++ l2)) as Hnd.
  { pose proof (dlist_nodup _ _ _ Hl) as Hnd. rewrite app_comm_cons in *.
    apply NoDup_app in Hnd as (? & Hd & [? ?]%NoDup_cons). apply NoDup_app. split; [done|]. split; [|done].
    intros x Hx Hx2. apply (Hd x Hx). by right. }
  unfold DList_RemoveEntryList. rewrite (get_Flink_eq _ _ _ Hef), bind_ret, (get_Blink_eq _ _ _ Heb), bind_ret.
  destruct (set_Flink_spec h b (Some f)) as (h1 & -> & D1 & F1 & B1 & K1); [by eapply fl_alloc|].
  rewrite bind_ret.
  destruct (set_Blink_spec h1 f (Some b)) as (h2 & -> & D2 & F2 & B2 & K2).
  { apply (alloc_dom h); [by rewrite D1|]. by apply (bl_alloc _ _ _ Hfe). }
  rewrite bind_ret. exists h2.
  assert (dlist h2 head (l1 ++ l2)) as Hl2.
  { split; [done|]. pose proof (around_ring h _ _ _ [] _ _ _ _ Ha) as E0. cbn [app] in E0. rewrite E0.
    destruct (halves_kept h h2 _ _ _ _ _ _ _ Ha Hnd) as [H1 H2]; [| |done|done|].
    - intros q _ Hq. by rewrite F2, F1, decide_False.
    - intros q _ Hq. by rewrite B2, B1, decide_False.
    - apply path_app. split; [done|]. change (joined h2 b f ∧ path h2 (f :: ys)). split; [|done].
      split; [by rewrite F2, F1, decide_True|by rewrite B2, decide_True]. }
  destruct (around_pointers _ _ _ _ _ _ _ _ Hl2 Ha) as (_ & Hbin & Hfin).
  split; [|split; [done|split; [|by rewrite D2, D1]]].
  - do 2 f_equal. apply bool_decide_ext. destruct Ha as [E1 E2].
    destruct l1 as [|x l1] using rev_ind; [|clear IHl1].
    + assert (b = head) as -> by (destruct xs as [|? []]; by injection E1).
      destruct l2 as [|x l2]; injection E2 as -> _; cbn; [done|]. split; [intros [= ->]|done].
      apply NoDup_cons in Hnd as [[] _]. left.
    + rewrite app_comm_cons in E1. apply app_inj_tail in E1 as [_ ->].
      split; [|by intros [[]%app_nil _]%app_nil]. intros [= ->]. exfalso.
      assert (b ∈ l2 ++ [head]) as [Hb| ->%list_elem_of_singleton]%elem_of_app by (rewrite E2; left).
      * apply NoDup_cons in Hnd as [_ Hnd]. apply NoDup_app in Hnd as (_ & Hd & _).
        apply (Hd b); [|done]. apply elem_of_app. right. left.
      * apply NoDup_cons in Hnd as [[] _]. apply elem_of_app. left. apply elem_of_app. right. left.
  - intros q Hq. rewrite K2, K1; [done|by intros ->|by intros ->].
Qed.

Lemma remove_head_dlist h head e l :
  dlist h head (e :: l) →
  ∃ h', DList_RemoveHeadList h (Some head) = Some (h', Some e) ∧
    dlist h' head l ∧ kept h h' (head :: l) ∧ dom h' = dom h.
Proof.
  intros Hl. destruct (remove_dlist h head [] e l Hl) as (h' & E & Hl' & Hk & Hd).
  exists h'. split; [|done]. pose proof (dlist_first _ _ _ Hl) as Hf. cbn in Hf.
  pose proof (dlist_ring _ _ _ Hl) as [[_ Hb] _].
  unfold DList_RemoveEntryList in E. unfold DList_RemoveHeadList.
  rewrite (get_Flink_eq _ _ _ Hf), bind_ret. rewrite (get_Blink_eq _ _ _ Hb) in E.
  destruct (get_Flink h (Some e)) as [f|]; [|done]. rewrite !bind_ret in *.
  destruct (set_Flink _ _ _) as [h1|]; [|done]. rewrite !bind_ret in *.
  destruct (set_Blink _ _ _) as [h2|]; [|done]. rewrite !bind_ret in *. by injection E as -> _.
Qed.

(** The next entry, or the head. *)
Lemma dlist_next h head l1 e l2 :
  dlist h head (l1 ++ e :: l2) → get_Flink h (Some e) = Some (Some (default head (list.head l2))).
Proof.
  intros [_ Hr]. apply get_Flink_eq. rewrite <- app_assoc, app_comm_cons in Hr. cbn [app] in Hr.
  destruct (split_first l2 head) as (f & ys & E). rewrite E in Hr.
  rewrite app_comm_cons in Hr. destruct (path_links _ _ _ _ _ Hr) as [-> _].
  by destruct l2; injection E as ->.
Qed.

Lemma dlist_kept h h' head l m : dlist h head l → kept h h' m → (∀ q, q ∈ head :: l → q ∉ m) → dlist h' head l.
Proof.
  intros [Hnd Hr] Hk Hd. split; [done|]. eapply path_frame; [| |exact Hr].
  - intros x Hx. rewrite app_comm_cons, removelast_last in Hx. unfold fl. by rewrite Hk; [|apply Hd].
  - intros x Hx. unfold bl. rewrite Hk; [done|]. apply Hd. cbn in Hx.
    apply elem_of_app in Hx as [| ->%list_elem_of_singleton]; [by right|left].
Qed.
End contract.
