(* ===== verification/CString.v ===== *)
(** * CString: character arrays and strings.

    A C string is the list of its characters, without the final 0; a character
    array is a list of bytes whose contents may be uninitialised.  The copying
    functions of the C library and of [c-utility/src/crt_abstractions.c]. *)
From S2P Require Import Prelude.
From stdpp Require Import strings.
#[local] Open Scope Z_scope.

(** A string literal of the source. *)
Definition str (s : string) : list Z :=
  (λ a, Z.of_nat (Ascii.nat_of_ascii a)) <$> String.list_ascii_of_string s.

#[global] Arguments str _%_string_scope.

(** The string a character array holds; [None] when reading it runs past its end. *)
Fixpoint cstr (a : list Z) : option (list Z) :=
  match a with
  | [] => None
  | c :: a => if c =? 0 then Some [] else s ← cstr a; Some (c :: s)
  end.

(** The characters of an array before the first 0, at most [n]. *)
Fixpoint array_text (n : nat) (arr : list Z) : list Z :=
  match n, arr with
  | S n, c :: arr => if c =? 0 then [] else c :: array_text n arr
  | _, _ => []
  end.

(** [strcmp(a, b) == 0] *)
Definition strequal (a b : list Z) : bool := bool_decide (a = b).

(** [strcmp(a, lit) == 0] for an array [a] longer than the literal [lit]: the
    comparison stops at the first difference, at the latest at the final 0. *)
Definition array_equal (a lit : list Z) : bool :=
  bool_decide (take (S (length lit)) a = lit ++ [0]).

(** [strncpy(dst, src, n)]: at most [n] characters, filled up with zeroes; no
    final 0 when [src] has [n] characters or more. *)
Definition strncpy (dst src : list Z) (n : nat) : option (list Z) :=
  if (n <=? length dst)%nat
  then Some (take n src ++ replicate (n - length src) 0 ++ drop n dst)
  else None.

Inductive errno_t := Zero | EINVAL | ERANGE.

(** [strncpy_s(dst, dstSizeInBytes, src, strlen(src))], the way the agent calls it. *)
Definition strncpy_s (dst : list Z) (dstSizeInBytes : nat) (src : option (list Z))
    : option (errno_t * list Z) :=
  match src with
  | None => d ← st8 dst 0 0; Some (EINVAL, d)
  | Some src =>
      if (dstSizeInBytes =? 0)%nat then Some (EINVAL, dst)
      else if (dstSizeInBytes <? length src + 1)%nat then
        d ← st8 dst 0 0; Some (ERANGE, d)
      else
        d ← strncpy dst src (length src);
        d ← st8 d (length src) 0;
        Some (Zero, d)
  end.

(** *** Numbers *)

Definition is_space (c : Z) : bool := (c =? 32) || ((9 <=? c) && (c <=? 13)).

Fixpoint skip_space (s : list Z) : list Z :=
  match s with
  | c :: s' => if is_space c then skip_space s' else s
  | [] => []
  end.

Fixpoint decimal (s : list Z) (n : Z) : Z :=
  match s with
  | c :: s => if (48 <=? c) && (c <=? 57) then decimal s (10 * n + (c - 48)) else n
  | [] => n
  end.

(** [atoi]: [None] when the value is not an [int]. *)
Definition atoi (s : list Z) : option Z :=
  let n := match skip_space s with
           | 43 :: s => decimal s 0
           | 45 :: s => - decimal s 0
           | s => decimal s 0
           end in
  if (-2147483648 <=? n) && (n <? 2147483648) then Some n else None.

(** No character of a string is 0. *)
Definition cstring (s : list Z) : Prop := Forall (λ c, c ≠ 0) s.

#[export] Instance cstring_dec s : Decision (cstring s).
Proof. unfold cstring. apply _. Defined.

Lemma cstr_terminated s a : cstring s → cstr (s ++ 0 :: a) = Some s.
Proof.
  induction 1 as [|c s Hc Hs IH]; [done|]. cbn [app cstr].
  rewrite (proj2 (Z.eqb_neq c 0)) by done. by rewrite IH.
Qed.

(** A string shorter than [n] is copied with its end. *)
Lemma strncpy_short dst src n :
  cstring src → (length src < n <= length dst)%nat →
  ∃ d, strncpy dst src n = Some d ∧ cstr d = Some src ∧ length d = length dst.
Proof.
  intros Hs Hn. unfold strncpy. rewrite (proj2 (Nat.leb_le _ _)) by lia.
  eexists. split; [done|]. rewrite take_ge by lia. split.
  - destruct (n - length src)%nat as [|k] eqn:E; [lia|]. by apply cstr_terminated.
  - rewrite !length_app, length_replicate, length_drop. lia.
Qed.

Lemma strncpy_s_short dst size src :
  cstring src → (length src < size <= length dst)%nat →
  ∃ d, strncpy_s dst size (Some src) = Some (Zero, d) ∧ cstr d = Some src ∧
    length d = length dst.
Proof.
  intros Hs Hn. unfold strncpy_s.
  rewrite (proj2 (Nat.eqb_neq _ _)), (proj2 (Nat.ltb_ge _ _)) by lia.
  unfold strncpy. rewrite (proj2 (Nat.leb_le _ _)) by lia.
  rewrite take_ge, Nat.sub_diag by lia. cbn [replicate app]. rewrite bind_ret.
  assert (length (src ++ drop (length src) dst) = length dst) as Hl
    by (rewrite length_app, length_drop; lia).
  rewrite st8_Some, bind_ret by lia. eexists. split; [done|]. split.
  - rewrite insert_app_r_alt, Nat.sub_diag by lia.
    destruct (drop (length src) dst) as [|x t] eqn:E.
    + apply (f_equal length) in E. rewrite length_drop in E. simpl in E. lia.
    + by apply cstr_terminated.
  - by rewrite length_insert.
Qed.

Lemma array_text_take n arr : array_text n (take n arr) = array_text n arr.
Proof. revert arr. induction n as [|n IH]; intros [|c arr]; [done..|]. cbn. by rewrite IH. Qed.

Lemma array_text_pad n text : array_text n (take n text ++ replicate (n - length text) 0) = array_text n text.
Proof.
  revert text. induction n as [|n IH]; intros [|c text]; [done..|]. cbn. by rewrite IH.
Qed.

Lemma array_text_twice n arr : array_text n (array_text n arr) = array_text n arr.
Proof.
  revert arr. induction n as [|n IH]; intros [|c arr]; [done..|]. cbn. destruct (c =? 0) eqn:E; [done|]. cbn. by rewrite E, IH.
Qed.
