(* ===== verification/MqttCodec.v ===== *)
(** * MqttCodec: the MQTT packets.

    [src/umqtt/src/mqtt_codec.c] and the constants of
    [src/umqtt/inc/azure_umqtt_c/mqttconst.h].  The packet builders return a
    buffer, or NULL after an error; the decoder takes the bytes of the connection
    as they arrive and calls back with each complete packet.

    Logging is off: the argument [trace_log] is NULL.  A C string is the list of
    its characters, [None] is NULL. *)
From S2P Require Import Prelude.
From stdpp Require Import strings.
From S2P Require Import Effects.
From S2P Require Import Alloc.
From S2P Require Import Buffer.
From S2P Require Import CString.
#[local] Open Scope Z_scope.

(** ** Constants *)

(** [CONTROL_PACKET_TYPE] *)
Definition CONNECT_TYPE := 0x10.
Definition CONNACK_TYPE := 0x20.
Definition PUBLISH_TYPE := 0x30.
Definition PUBACK_TYPE := 0x40.
Definition PUBREC_TYPE := 0x50.
Definition PUBREL_TYPE := 0x60.
Definition PUBCOMP_TYPE := 0x70.
Definition SUBSCRIBE_TYPE := 0x80.
Definition SUBACK_TYPE := 0x90.
Definition UNSUBSCRIBE_TYPE := 0xA0.
Definition UNSUBACK_TYPE := 0xB0.
Definition PINGREQ_TYPE := 0xC0.
Definition PINGRESP_TYPE := 0xD0.
Definition DISCONNECT_TYPE := 0xE0.
Definition PACKET_TYPE_ERROR := 0xE1.
Definition UNKNOWN_TYPE := 0xE2.

(** [QOS_VALUE] *)
Definition DELIVER_AT_MOST_ONCE := 0.
Definition DELIVER_AT_LEAST_ONCE := 1.
Definition DELIVER_EXACTLY_ONCE := 2.
Definition DELIVER_FAILURE := 0x80.

Definition USERNAME_FLAG := 0x80.
Definition PASSWORD_FLAG := 0x40.
Definition WILL_RETAIN_FLAG := 0x20.
Definition WILL_FLAG_FLAG := 0x04.
Definition CLEAN_SESSION_FLAG := 0x02.
Definition NEXT_128_CHUNK := 0x80.
Definition PUBLISH_DUP_FLAG := 0x8.
Definition PUBLISH_QOS_EXACTLY_ONCE := 0x4.
Definition PUBLISH_QOS_AT_LEAST_ONCE := 0x2.
Definition PUBLISH_QOS_RETAIN := 0x1.
Definition PROTOCOL_NUMBER := 4.
Definition CONN_FLAG_BYTE_OFFSET : nat := 7.
Definition CONNECT_VARIABLE_HEADER_SIZE : nat := 10.
Definition SUBSCRIBE_FIXED_HEADER_FLAG := 0x2.
Definition UNSUBSCRIBE_FIXED_HEADER_FLAG := 0x2.
Definition MAX_SEND_SIZE := 0xFFFFFF7F.
Definition USHRT_MAX := 65535.

Definition PACKET_TYPE_BYTE (p : Z) : Z := Z.land (u8 p) 0xf0.
Definition FLAG_VALUE_BYTE (p : Z) : Z := Z.land (u8 p) 0xf.

(** [MQTT_CLIENT_OPTIONS], without [log_trace]. *)
Record MQTT_CLIENT_OPTIONS := {
  clientId : option (list Z);
  willTopic : option (list Z);
  willMessage : option (list Z);
  username : option (list Z);
  password : option (list Z);
  keepAliveInterval : Z;
  messageRetain : bool;
  useCleanSession : bool;
  qualityOfServiceValue : Z }.

Record SUBSCRIBE_PAYLOAD := { subscribeTopic : option (list Z); qosReturn : Z }.

Record PUBLISH_HEADER_INFO := {
  topicName : list Z; packetId : Z; publishQos : Z }.

(** ** Writing through a moving pointer

    The state is the block and the position of [*buffer] in it. *)
#[warnings="-notation-for-abbreviation"] Notation Iterator := (ST (list Z * nat)).

Definition byteutil_writeByte (value : Z) : Iterator unit := λ '(blk, p),
  blk ← st8 blk p value; Some (tt, (blk, (p + 1)%nat)).

Definition byteutil_writeInt (value : Z) : Iterator unit :=
  byteutil_writeByte (value / 256);; byteutil_writeByte (value mod 256).

Definition write_chars (stringData : option (list Z)) (len : nat) : Iterator unit := λ '(blk, p),
  blk ← copy_to (Some blk) p stringData len;
  blk ← blk;
  Some (tt, (blk, (p + len)%nat)).

Definition byteutil_writeUTF (stringData : option (list Z)) (len : Z) : Iterator unit :=
  byteutil_writeInt len;; write_chars stringData (Z.to_nat len).

(** [packet[offset] |= flag] for the block the pointer points into. *)
Definition set_flag (offset : nat) (flag : Z) : Iterator unit := λ '(blk, p),
  x ← blk !! offset;
  blk ← st8 blk offset (Z.lor x flag);
  Some (tt, (blk, p)).

(** [uint8_t* iterator = BUFFER_u_char(b); iterator += offset; ...]: undefined
    when the buffer has no bytes, as the pointer is NULL then. *)
Definition write_buffer (b : BUFFER_HANDLE) (offset : nat) (w : Iterator unit)
    : option BUFFER_HANDLE :=
  blk ← BUFFER_u_char b;
  '(_, (blk, _)) ← w (blk, offset);
  b ← b;
  Some (Some (mkBuffer (Some blk) (size b))).

(** [strlen] *)
Definition strlen (s : option (list Z)) : option nat := length <$> s.

(** [len > max] *)
Definition longer (len : nat) (max : Z) : bool := max <? Z.of_nat len.

(** [(uint16_t)len] *)
Definition uint16 (len : nat) : Z := u16 (Z.of_nat len).

Definition when {A} (b : bool) (d : Iterator A) : Iterator unit :=
  if b then d;; mret tt else mret tt.

(** ** Packets *)

Section codec.
Context `{Arch}.

(** A builder works on a buffer it owns. *)
#[warnings="-notation-for-abbreviation"] Notation Build := (Alloc (status * BUFFER_HANDLE)).

(** The loop of the two list builders: stops at the first failure. *)
Fixpoint add_items (item : nat → BUFFER_HANDLE → Build) (n index : nat) (ctrlPacket : BUFFER_HANDLE)
    : Build :=
  match n with
  | O => mret (OK, ctrlPacket)
  | S n =>
      '(r, ctrlPacket) ← item index ctrlPacket;
      match r with
      | FAILURE => mret (FAILURE, ctrlPacket)
      | OK => add_items item n (index + 1)%nat ctrlPacket
      end
  end.

Definition unsubscribe_item (payloadList : list (option (list Z))) (index : nat)
    (ctrlPacket : BUFFER_HANDLE) : Build :=
  let offsetLen := BUFFER_length ctrlPacket in
  topic ← lift (payloadList !! index);
  topicLen ← lift (strlen topic);
  if longer topicLen USHRT_MAX then mret (FAILURE, ctrlPacket)
  else
    '(r, ctrlPacket) ← BUFFER_enlarge ctrlPacket (topicLen + 2);
    match r with
    | FAILURE => mret (FAILURE, ctrlPacket)
    | OK =>
        b ← lift (write_buffer ctrlPacket offsetLen (byteutil_writeUTF topic (uint16 topicLen)));
        mret (OK, b)
    end.

Definition addListItemsToUnsubscribePacket (ctrlPacket : BUFFER_HANDLE)
    (payloadList : option (list (option (list Z)))) (payloadCount : nat) : Build :=
  match payloadList, ctrlPacket with
  | Some payloadList, Some _ => add_items (unsubscribe_item payloadList) payloadCount 0 ctrlPacket
  | _, _ => mret (FAILURE, ctrlPacket)
  end.

Definition subscribe_item (payloadList : list SUBSCRIBE_PAYLOAD) (index : nat)
    (ctrlPacket : BUFFER_HANDLE) : Build :=
  let offsetLen := BUFFER_length ctrlPacket in
  item ← lift (payloadList !! index);
  topicLen ← lift (strlen (subscribeTopic item));
  if longer topicLen USHRT_MAX then mret (FAILURE, ctrlPacket)
  else
    '(r, ctrlPacket) ← BUFFER_enlarge ctrlPacket (topicLen + 2 + 1);
    match r with
    | FAILURE => mret (FAILURE, ctrlPacket)
    | OK =>
        b ← lift (write_buffer ctrlPacket offsetLen
                    (byteutil_writeUTF (subscribeTopic item) (uint16 topicLen);;
                     byteutil_writeByte (qosReturn item)));
        mret (OK, b)
    end.

Definition addListItemsToSubscribePacket (ctrlPacket : BUFFER_HANDLE)
    (payloadList : option (list SUBSCRIBE_PAYLOAD)) (payloadCount : nat) : Build :=
  match payloadList, ctrlPacket with
  | Some payloadList, Some _ => add_items (subscribe_item payloadList) payloadCount 0 ctrlPacket
  | _, _ => mret (FAILURE, ctrlPacket)
  end.

Definition constructConnectVariableHeader (ctrlPacket : BUFFER_HANDLE)
    (mqttOptions : MQTT_CLIENT_OPTIONS) : Build :=
  '(r, ctrlPacket) ← BUFFER_enlarge ctrlPacket CONNECT_VARIABLE_HEADER_SIZE;
  match r with
  | FAILURE => mret (FAILURE, ctrlPacket)
  | OK =>
      match BUFFER_u_char ctrlPacket with
      | None => mret (FAILURE, ctrlPacket)
      | Some _ =>
          b ← lift (write_buffer ctrlPacket 0
                      (byteutil_writeUTF (Some (str "MQTT")) 4;;
                       byteutil_writeByte PROTOCOL_NUMBER;;
                       byteutil_writeByte 0;;
                       byteutil_writeInt (keepAliveInterval mqttOptions)));
          mret (OK, b)
      end
  end.

Definition constructPublishVariableHeader (ctrlPacket : BUFFER_HANDLE)
    (publishHeader : PUBLISH_HEADER_INFO) : Build :=
  let currLen := BUFFER_length ctrlPacket in
  let topicLen := length (topicName publishHeader) in
  let spaceLen := 2%nat in
  let idLen := if publishQos publishHeader =? DELIVER_AT_MOST_ONCE then 0%nat else 2%nat in
  if longer topicLen USHRT_MAX then mret (FAILURE, ctrlPacket)
  else
    '(r, ctrlPacket) ← BUFFER_enlarge ctrlPacket (topicLen + idLen + spaceLen);
    match r with
    | FAILURE => mret (FAILURE, ctrlPacket)
    | OK =>
        match BUFFER_u_char ctrlPacket with
        | None => mret (FAILURE, ctrlPacket)
        | Some _ =>
            b ← lift (write_buffer ctrlPacket currLen
                        (byteutil_writeUTF (Some (topicName publishHeader)) (uint16 topicLen);;
                         when (0 <? idLen)%nat (byteutil_writeInt (packetId publishHeader))));
            mret (OK, b)
        end
    end.

Definition constructSubscibeTypeVariableHeader (ctrlPacket : BUFFER_HANDLE) (packetId : Z) : Build :=
  '(r, ctrlPacket) ← BUFFER_enlarge ctrlPacket 2;
  match r with
  | FAILURE => mret (FAILURE, ctrlPacket)
  | OK =>
      match BUFFER_u_char ctrlPacket with
      | None => mret (FAILURE, ctrlPacket)
      | Some _ =>
          b ← lift (write_buffer ctrlPacket 0 (byteutil_writeInt packetId));
          mret (OK, b)
      end
  end.

(** [BUFFER_delete(result); result = NULL;] *)
Definition give_back (result : BUFFER_HANDLE) : Alloc BUFFER_HANDLE :=
  BUFFER_delete result;; mret None.

Definition constructPublishReply (type flags packetId : Z) : Alloc BUFFER_HANDLE :=
  result ← BUFFER_new;
  match result with
  | None => mret None
  | Some _ =>
      '(r, result) ← BUFFER_pre_build result 4;
      match r with
      | FAILURE => give_back result
      | OK =>
          match BUFFER_u_char result with
          | None => give_back result
          | Some _ =>
              lift (write_buffer result 0
                      (byteutil_writeByte (Z.lor (u8 type) flags);;
                       byteutil_writeByte 2;;
                       byteutil_writeInt packetId))
          end
      end
  end.

(** The loop that encodes [packetLen] into [remainSize], an array of 4 bytes.
    At most 5 steps: the fifth store would be out of bounds. *)
Fixpoint encode_length (fuel : nat) (packetLen : Z) (index : nat) (remainSize : list Z)
    : option (nat * list Z) :=
  match fuel with
  | O => None
  | S fuel =>
      let encode := packetLen mod 128 in
      let packetLen := packetLen / 128 in
      let encode := if 0 <? packetLen then Z.lor encode NEXT_128_CHUNK else encode in
      remainSize ← st8 remainSize index encode;
      if 0 <? packetLen then encode_length fuel packetLen (index + 1) remainSize
      else Some ((index + 1)%nat, remainSize)
  end.

Definition constructFixedHeader (ctrlPacket : BUFFER_HANDLE) (packetType flags : Z) : Build :=
  match ctrlPacket with
  | None => mret (FAILURE, ctrlPacket)
  | Some _ =>
      '(index, remainSize) ← lift (encode_length 5 (Z.of_nat (BUFFER_length ctrlPacket)) 0
                                     (replicate 4 0));
      fixedHeader ← BUFFER_new;
      match fixedHeader with
      | None => mret (FAILURE, ctrlPacket)
      | Some _ =>
          '(r, fixedHeader) ← BUFFER_pre_build fixedHeader (index + 1);
          match r with
          | FAILURE => BUFFER_delete fixedHeader;; mret (FAILURE, ctrlPacket)
          | OK =>
              fixedHeader ← lift (write_buffer fixedHeader 0
                                    (byteutil_writeByte (Z.lor (u8 packetType) flags);;
                                     write_chars (Some remainSize) index));
              '(result, ctrlPacket) ← BUFFER_prepend false ctrlPacket fixedHeader;
              BUFFER_delete fixedHeader;;
              mret (result, ctrlPacket)
          end
      end
  end.

(** What [constructConnPayload] writes behind the client identifier. *)
Definition conn_fields (o : MQTT_CLIENT_OPTIONS)
    (willTopicLen willMessageLen usernameLen passwordLen : nat) : Iterator unit :=
  when ((0 <? willMessageLen) && (0 <? willTopicLen))%nat
    (set_flag CONN_FLAG_BYTE_OFFSET WILL_FLAG_FLAG;;
     byteutil_writeUTF (willTopic o) (uint16 willTopicLen);;
     set_flag CONN_FLAG_BYTE_OFFSET (Z.shiftl (qualityOfServiceValue o) 3);;
     when (messageRetain o) (set_flag CONN_FLAG_BYTE_OFFSET WILL_RETAIN_FLAG);;
     byteutil_writeUTF (willMessage o) (uint16 willMessageLen));;
  when (0 <? usernameLen)%nat
    (set_flag CONN_FLAG_BYTE_OFFSET USERNAME_FLAG;;
     byteutil_writeUTF (username o) (uint16 usernameLen));;
  when (0 <? passwordLen)%nat
    (set_flag CONN_FLAG_BYTE_OFFSET PASSWORD_FLAG;;
     byteutil_writeUTF (password o) (uint16 passwordLen));;
  when (useCleanSession o) (set_flag CONN_FLAG_BYTE_OFFSET CLEAN_SESSION_FLAG).

(** [strlen(s)] and the two bytes of its length field, 0 for NULL. *)
Definition opt_len (s : option (list Z)) : nat := default 0%nat (length <$> s).
Definition opt_space (s : option (list Z)) : nat := if s is Some _ then 2 else 0.

Definition constructConnPayload (ctrlPacket : BUFFER_HANDLE)
    (mqttOptions : option MQTT_CLIENT_OPTIONS) : Build :=
  match mqttOptions, ctrlPacket with
  | Some o, Some _ =>
      let clientLen := opt_len (clientId o) in
      let usernameLen := opt_len (username o) in
      let passwordLen := opt_len (password o) in
      let willMessageLen := opt_len (willMessage o) in
      let willTopicLen := opt_len (willTopic o) in
      let spaceLen := (opt_space (clientId o) + opt_space (username o) + opt_space (password o)
                       + opt_space (willMessage o) + opt_space (willTopic o))%nat in
      let currLen := BUFFER_length ctrlPacket in
      let totalLen := usz (clientLen + usernameLen + passwordLen + willMessageLen
                           + willTopicLen + spaceLen) in
      if longer clientLen USHRT_MAX then mret (FAILURE, ctrlPacket)
      else if ((usernameLen =? 0) && (0 <? passwordLen))%nat then mret (FAILURE, ctrlPacket)
      else if (((0 <? willMessageLen) && (willTopicLen =? 0))
               || ((0 <? willTopicLen) && (willMessageLen =? 0)))%nat
      then mret (FAILURE, ctrlPacket)
      else
        '(r, ctrlPacket) ← BUFFER_enlarge ctrlPacket totalLen;
        match r with
        | FAILURE => mret (FAILURE, ctrlPacket)
        | OK =>
            let toolong := (longer willMessageLen USHRT_MAX) || (longer willTopicLen USHRT_MAX)
                           || (longer usernameLen USHRT_MAX) || (longer passwordLen USHRT_MAX) in
            b ← lift (write_buffer ctrlPacket currLen
                        (byteutil_writeUTF (clientId o) (uint16 clientLen);;
                         when (negb toolong)
                           (conn_fields o willTopicLen willMessageLen usernameLen passwordLen)));
            mret (if toolong then FAILURE else OK, b)
        end
  | _, _ => mret (FAILURE, ctrlPacket)
  end.

(** ** The functions of the library *)

Definition mqtt_codec_connect (mqttOptions : option MQTT_CLIENT_OPTIONS) : Alloc BUFFER_HANDLE :=
  match mqttOptions with
  | None => mret None
  | Some o =>
      result ← BUFFER_new;
      match result with
      | None => mret None
      | Some _ =>
          '(r, result) ← constructConnectVariableHeader result o;
          match r with
          | FAILURE => give_back result
          | OK =>
              '(r, result) ← constructConnPayload result mqttOptions;
              match r with
              | FAILURE => give_back result
              | OK =>
                  '(r, result) ← constructFixedHeader result CONNECT_TYPE 0;
                  match r with FAILURE => give_back result | OK => mret result end
              end
          end
      end
  end.

(** [mqtt_codec_disconnect] and [mqtt_codec_ping]: a packet without content. *)
Definition empty_packet (type : Z) : Alloc BUFFER_HANDLE :=
  result ← BUFFER_new;
  match result with
  | None => mret None
  | Some _ =>
      '(r, result) ← BUFFER_enlarge result 2;
      match r with
      | FAILURE => give_back result
      | OK =>
          match BUFFER_u_char result with
          | None => give_back result
          | Some _ =>
              lift (write_buffer result 0 (byteutil_writeByte type;; byteutil_writeByte 0))
          end
      end
  end.

Definition mqtt_codec_disconnect : Alloc BUFFER_HANDLE := empty_packet DISCONNECT_TYPE.

Definition publish_flags (qosValue : Z) (duplicateMsg serverRetain : bool) : Z :=
  let headerFlags := 0 in
  let headerFlags := if duplicateMsg then Z.lor headerFlags PUBLISH_DUP_FLAG else headerFlags in
  let headerFlags := if serverRetain then Z.lor headerFlags PUBLISH_QOS_RETAIN else headerFlags in
  if qosValue =? DELIVER_AT_MOST_ONCE then headerFlags
  else if qosValue =? DELIVER_AT_LEAST_ONCE then Z.lor headerFlags PUBLISH_QOS_AT_LEAST_ONCE
  else Z.lor headerFlags PUBLISH_QOS_EXACTLY_ONCE.

(** Appends the message; NULL after a failure. *)
Definition append_payload (result : BUFFER_HANDLE) (msgBuffer : option (list Z)) (buffLen : nat)
    : Alloc BUFFER_HANDLE :=
  let payloadOffset := BUFFER_length result in
  if (0 <? buffLen)%nat then
    '(r, result) ← BUFFER_enlarge result buffLen;
    match r with
    | FAILURE => give_back result
    | OK =>
        match BUFFER_u_char result with
        | None => give_back result
        | Some _ => lift (write_buffer result payloadOffset (write_chars msgBuffer buffLen))
        end
    end
  else mret result.

Definition mqtt_codec_publish (qosValue : Z) (duplicateMsg serverRetain : bool) (packetId : Z)
    (topicName : option (list Z)) (msgBuffer : option (list Z)) (buffLen : nat)
    : Alloc BUFFER_HANDLE :=
  match topicName with
  | None => mret None
  | Some topicName =>
      if longer buffLen MAX_SEND_SIZE then mret None
      else
        let publishInfo := {| topicName := topicName; packetId := packetId;
                              publishQos := qosValue |} in
        let headerFlags := publish_flags qosValue duplicateMsg serverRetain in
        result ← BUFFER_new;
        match result with
        | None => mret None
        | Some _ =>
            '(r, result) ← constructPublishVariableHeader result publishInfo;
            match r with
            | FAILURE => give_back result
            | OK =>
                result ← append_payload result msgBuffer buffLen;
                match result with
                | None => mret None
                | Some _ =>
                    '(r, result) ← constructFixedHeader result PUBLISH_TYPE headerFlags;
                    match r with FAILURE => give_back result | OK => mret result end
                end
            end
        end
  end.

Definition mqtt_codec_publishAck (packetId : Z) := constructPublishReply PUBACK_TYPE 0 packetId.
Definition mqtt_codec_publishReceived (packetId : Z) := constructPublishReply PUBREC_TYPE 0 packetId.
Definition mqtt_codec_publishRelease (packetId : Z) := constructPublishReply PUBREL_TYPE 2 packetId.
Definition mqtt_codec_publishComplete (packetId : Z) := constructPublishReply PUBCOMP_TYPE 0 packetId.

Definition mqtt_codec_ping : Alloc BUFFER_HANDLE := empty_packet PINGREQ_TYPE.

(** [mqtt_codec_subscribe] and [mqtt_codec_unsubscribe] differ in the list. *)
Definition list_packet (packetId : Z) (add : BUFFER_HANDLE → Build) (type flags : Z)
    : Alloc BUFFER_HANDLE :=
  result ← BUFFER_new;
  match result with
  | None => mret None
  | Some _ =>
      '(r, result) ← constructSubscibeTypeVariableHeader result packetId;
      match r with
      | FAILURE => give_back result
      | OK =>
          '(r, result) ← add result;
          match r with
          | FAILURE => give_back result
          | OK =>
              '(r, result) ← constructFixedHeader result type flags;
              match r with FAILURE => give_back result | OK => mret result end
          end
      end
  end.

Definition mqtt_codec_subscribe (packetId : Z) (subscribeList : option (list SUBSCRIBE_PAYLOAD))
    (count : nat) : Alloc BUFFER_HANDLE :=
  match subscribeList with
  | None => mret None
  | Some _ =>
      if (count =? 0)%nat then mret None
      else list_packet packetId (λ b, addListItemsToSubscribePacket b subscribeList count)
             SUBSCRIBE_TYPE SUBSCRIBE_FIXED_HEADER_FLAG
  end.

Definition mqtt_codec_unsubscribe (packetId : Z)
    (unsubscribeList : option (list (option (list Z)))) (count : nat) : Alloc BUFFER_HANDLE :=
  match unsubscribeList with
  | None => mret None
  | Some _ =>
      if (count =? 0)%nat then mret None
      else list_packet packetId (λ b, addListItemsToUnsubscribePacket b unsubscribeList count)
             UNSUBSCRIBE_TYPE UNSUBSCRIBE_FIXED_HEADER_FLAG
  end.
End codec.
