(* ===== verification/MqttDecoder.v ===== *)
(** * MqttDecoder: from bytes to MQTT packets.

    The decoder of [src/umqtt/src/mqtt_codec.c], a state machine that takes the
    bytes of the connection in pieces of any size.  The context [C] of the
    callback is threaded through: the callback [packetComplete] returns it
    changed.  A store behind the four bytes of [storeRemainLen] is undefined. *)
From S2P Require Import Prelude.
From stdpp Require Import strings.
From S2P Require Import Effects.
From S2P Require Import Alloc.
From S2P Require Import Buffer.
From S2P Require Import MqttCodec.
#[local] Open Scope Z_scope.

Inductive CODEC_STATE_RESULT :=
  CODEC_STATE_FIXED_HEADER | CODEC_STATE_VAR_HEADER | CODEC_STATE_PAYLOAD.

#[export] Instance codec_state_eq_dec : EqDecision CODEC_STATE_RESULT.
Proof. solve_decision. Defined.

(** Context, packet type, flags, content. *)
Definition ON_PACKET_COMPLETE_CALLBACK (C : Type) : Type :=
  C → Z → Z → BUFFER_HANDLE → Alloc C.

Record MQTTCODEC_INSTANCE (C : Type) := mkCodec {
  currPacket : Z;
  codecState : CODEC_STATE_RESULT;
  bufferOffset : nat;
  headerFlags : Z;
  headerData : BUFFER_HANDLE;
  packetComplete : option (ON_PACKET_COMPLETE_CALLBACK C);
  callContext : C;
  storeRemainLen : list Z;
  remainLenIndex : nat }.
#[global] Arguments mkCodec {C} _ _ _ _ _ _ _ _ _.
#[global] Arguments currPacket {C} _.
#[global] Arguments codecState {C} _.
#[global] Arguments bufferOffset {C} _.
#[global] Arguments headerFlags {C} _.
#[global] Arguments headerData {C} _.
#[global] Arguments packetComplete {C} _.
#[global] Arguments callContext {C} _.
#[global] Arguments storeRemainLen {C} _.
#[global] Arguments remainLenIndex {C} _.

Section decoder.
Context `{Arch} {C : Type}.
#[warnings="-notation-for-abbreviation"] Notation Codec := (MQTTCODEC_INSTANCE C).
Implicit Types c : Codec.

(** Assignments to the fields. *)
Definition set_currPacket (v : Z) c : Codec :=
  mkCodec v (codecState c) (bufferOffset c) (headerFlags c) (headerData c)
    (packetComplete c) (callContext c) (storeRemainLen c) (remainLenIndex c).
Definition set_codecState (v : CODEC_STATE_RESULT) c : Codec :=
  mkCodec (currPacket c) v (bufferOffset c) (headerFlags c) (headerData c)
    (packetComplete c) (callContext c) (storeRemainLen c) (remainLenIndex c).
Definition set_bufferOffset (v : nat) c : Codec :=
  mkCodec (currPacket c) (codecState c) v (headerFlags c) (headerData c)
    (packetComplete c) (callContext c) (storeRemainLen c) (remainLenIndex c).
Definition set_headerFlags (v : Z) c : Codec :=
  mkCodec (currPacket c) (codecState c) (bufferOffset c) v (headerData c)
    (packetComplete c) (callContext c) (storeRemainLen c) (remainLenIndex c).
Definition set_headerData (v : BUFFER_HANDLE) c : Codec :=
  mkCodec (currPacket c) (codecState c) (bufferOffset c) (headerFlags c) v
    (packetComplete c) (callContext c) (storeRemainLen c) (remainLenIndex c).
Definition set_callContext (v : C) c : Codec :=
  mkCodec (currPacket c) (codecState c) (bufferOffset c) (headerFlags c) (headerData c)
    (packetComplete c) v (storeRemainLen c) (remainLenIndex c).
Definition set_remainLen (v : list Z) (i : nat) c : Codec :=
  mkCodec (currPacket c) (codecState c) (bufferOffset c) (headerFlags c) (headerData c)
    (packetComplete c) (callContext c) v i.

Definition mqtt_codec_create (packetComplete : option (ON_PACKET_COMPLETE_CALLBACK C))
    (callbackCtx : C) : Alloc (option Codec) :=
  result ← malloc_struct;
  mret (if (result : bool) then
    Some (mkCodec UNKNOWN_TYPE CODEC_STATE_FIXED_HEADER 0 0 None packetComplete callbackCtx
            (replicate 4 0) 0)
  else None).

Definition mqtt_codec_destroy (handle : option Codec) : Alloc unit :=
  match handle with
  | None => mret tt
  | Some codecData => BUFFER_delete (headerData codecData);; free_struct
  end.

(** Packet type and flags. *)
Definition processControlPacketType (pktByte : Z) : Z * Z :=
  (PACKET_TYPE_BYTE pktByte, FLAG_VALUE_BYTE pktByte).

(** The loop over [storeRemainLen]; at most 4 steps, since the multiplier exceeds
    [128 * 128 * 128] after the fourth. *)
Fixpoint decode_length (fuel : nat) (stored : list Z) (index : nat) (multiplier totalLen : Z)
    : option (status * Z) :=
  match fuel with
  | O => None
  | S fuel =>
      encodeByte ← stored !! index;
      let totalLen := totalLen + Z.land encodeByte 127 * multiplier in
      let multiplier := multiplier * NEXT_128_CHUNK in
      if 128 * 128 * 128 <? multiplier then Some (FAILURE, totalLen)
      else if negb (Z.land encodeByte NEXT_128_CHUNK =? 0)
      then decode_length fuel stored (index + 1) multiplier totalLen
      else Some (OK, totalLen)
  end.

Definition prepareheaderDataInfo c (remainLen : Z) : Alloc (status * Codec) :=
  stored ← lift (st8 (storeRemainLen c) (remainLenIndex c) remainLen);
  let c := set_remainLen stored (remainLenIndex c + 1) c in
  if remainLen <=? 0x7f then
    '(result, totalLen) ← lift (decode_length 5 (storeRemainLen c) 0 1 0);
    let c := set_codecState CODEC_STATE_VAR_HEADER c in
    let c := set_remainLen (replicate 4 0) 0 c in
    if 0 <? totalLen then
      let c := set_bufferOffset 0 c in
      data ← BUFFER_new;
      match data with
      | None => mret (FAILURE, set_headerData None c)
      | Some _ =>
          '(r, data) ← BUFFER_pre_build data (Z.to_nat totalLen);
          mret (match r with FAILURE => FAILURE | OK => result end, set_headerData data c)
      end
    else mret (result, c)
  else mret (OK, c).

Definition completePacketData c : Alloc Codec :=
  c ← match packetComplete c with
      | None => mret c
      | Some callback =>
          ctx ← callback (callContext c) (currPacket c) (headerFlags c) (headerData c);
          mret (set_callContext ctx c)
      end;
  BUFFER_delete (headerData c);;
  mret (set_headerData None (set_headerFlags 0
          (set_codecState CODEC_STATE_FIXED_HEADER (set_currPacket UNKNOWN_TYPE c)))).

(** The body of the loop of [mqtt_codec_bytesReceived]. *)
Definition receive_byte c (iterator : Z) : Alloc (status * Codec) :=
  match codecState c with
  | CODEC_STATE_FIXED_HEADER =>
      if currPacket c =? UNKNOWN_TYPE then
        let '(type, flags) := processControlPacketType iterator in
        mret (OK, set_currPacket type (set_headerFlags flags c))
      else
        '(r, c) ← prepareheaderDataInfo c iterator;
        let '(result, c) := match r with
                            | OK => (OK, c)
                            | FAILURE => (FAILURE, set_currPacket PACKET_TYPE_ERROR c)
                            end in
        if currPacket c =? PINGRESP_TYPE
        then c ← completePacketData c; mret (result, c)
        else mret (result, c)
  | CODEC_STATE_VAR_HEADER =>
      match headerData c with
      | None => mret (OK, set_codecState CODEC_STATE_PAYLOAD c)
      | Some b =>
          match BUFFER_u_char (Some b) with
          | None => mret (FAILURE, set_currPacket PACKET_TYPE_ERROR c)
          | Some _ =>
              data ← lift (write_buffer (Some b) (bufferOffset c) (byteutil_writeByte iterator));
              let c := set_headerData data (set_bufferOffset (bufferOffset c + 1) c) in
              let totalLen := BUFFER_length (headerData c) in
              if (totalLen <=? bufferOffset c)%nat
              then c ← completePacketData c; mret (OK, c)
              else mret (OK, c)
          end
      end
  | CODEC_STATE_PAYLOAD => mret (FAILURE, set_currPacket PACKET_TYPE_ERROR c)
  end.

Fixpoint receive_loop (n index : nat) c (buf : list Z) : Alloc (status * Codec) :=
  match n with
  | O => mret (OK, c)
  | S n =>
      iterator ← lift (buf !! index);
      '(result, c) ← receive_byte c iterator;
      match result with
      | FAILURE => mret (FAILURE, c)
      | OK => receive_loop n (index + 1) c buf
      end
  end.

Definition mqtt_codec_bytesReceived (handle : option Codec) (buf : option (list Z)) (size : nat)
    : Alloc (status * option Codec) :=
  match handle with
  | None => mret (FAILURE, None)
  | Some codec_Data =>
      match buf with
      | None => mret (FAILURE, Some (set_currPacket PACKET_TYPE_ERROR codec_Data))
      | Some buf =>
          if (size =? 0)%nat
          then mret (FAILURE, Some (set_currPacket PACKET_TYPE_ERROR codec_Data))
          else
            '(result, c) ← receive_loop size 0 codec_Data buf;
            mret (result, Some c)
      end
  end.
End decoder.
