(* ===== verification/MqttCodecTheory.v ===== *)
(** * MqttCodecTheory: what the packet builders make.

    [frame] is the layout of an MQTT packet: type and flags, the remaining length
    in groups of seven bits, the content.  Each builder of [MqttCodec.v] makes the
    frame of its packet or, when memory is short, nothing, and never loses a
    block. *)
From S2P Require Import Prelude.
From stdpp Require Import strings.
From S2P Require Import Effects.
From S2P Require Import Alloc.
From S2P Require Import Buffer.
From S2P Require Import CString.
From S2P Require Import MqttCodec.
#[local] Open Scope Z_scope.

(** ** The layout of a packet *)

(** The remaining length, one to four bytes, least significant group first. *)
Definition length_field (n : Z) : list Z :=
  if n <? 128 then [n]
  else if n <? 16384 then [n mod 128 + 128; n / 128]
  else if n <? 2097152 then [n mod 128 + 128; (n / 128) mod 128 + 128; n / 16384]
  else [n mod 128 + 128; (n / 128) mod 128 + 128; (n / 16384) mod 128 + 128; n / 2097152].

Definition zlen (l : list Z) : Z := Z.of_nat (length l).

Definition frame (type flags : Z) (body : list Z) : list Z :=
  Z.lor type flags :: length_field (zlen body) ++ body.

(** A string with its length. *)
Definition utf (s : list Z) : list Z := be16 (zlen s) ++ s.

(** Lengths that four bytes can express. *)
Definition max_body : Z := 268435456.

Lemma lor_128 n : 0 <= n < 128 → Z.lor n NEXT_128_CHUNK = n + 128.
Proof.
  intros. rewrite Z.lor_comm. change NEXT_128_CHUNK with (1 * 2 ^ 7).
  rewrite lor_disjoint by lia. lia.
Qed.

Lemma div_nonneg_lt n k m : 0 < k → 0 <= n < k * m → 0 <= n / k < m.
Proof. intros. split; [apply Z.div_pos; lia|apply Z.div_lt_upper_bound; lia]. Qed.

Lemma length_length_field n : (1 <= length (length_field n) <= 4)%nat.
Proof. unfold length_field. repeat case_match; cbn; lia. Qed.

Lemma length_field_bytes n : 0 <= n < max_body → bytes (length_field n).
Proof. unfold max_body, length_field. intros. repeat case_match; solve_bytes. Qed.

(** One step of the loop. *)
Lemma encode_length_more fuel n index arr :
  128 <= n → (index < length arr)%nat →
  encode_length (S fuel) n index arr =
    encode_length fuel (n / 128) (index + 1) (<[index := n mod 128 + 128]> arr).
Proof.
  intros Hn Hi. cbn [encode_length].
  assert (0 < n / 128) by ulia. rewrite (proj2 (Z.ltb_lt 0 _)) by done.
  rewrite lor_128 by ulia. by rewrite st8_Some, bind_ret, u8_id by (done || ulia).
Qed.

Lemma encode_length_last fuel n index arr :
  0 <= n < 128 → (index < length arr)%nat →
  encode_length (S fuel) n index arr = Some ((index + 1)%nat, <[index := n]> arr).
Proof.
  intros Hn Hi. cbn [encode_length]. rewrite (Z.div_small n) by done. cbn [Z.ltb Z.compare].
  rewrite Z.mod_small by done. by rewrite st8_Some, bind_ret, u8_id by (done || ulia).
Qed.

Lemma encode_length_spec n :
  0 <= n < max_body →
  encode_length 5 n 0 (replicate 4 0) =
    Some (length (length_field n), length_field n ++ replicate (4 - length (length_field n)) 0).
Proof.
  unfold max_body. intros Hn. unfold length_field.
  destruct (Z.ltb_spec n 128); [by rewrite encode_length_last by (cbn; lia)|].
  rewrite encode_length_more by (cbn; lia). pose proof (div_nonneg_lt n 128 2097152 ltac:(lia) ltac:(lia)).
  destruct (Z.ltb_spec n 16384).
  { rewrite encode_length_last; [done|ulia|cbn; lia]. }
  rewrite encode_length_more by (cbn; ulia). rewrite Z.div_div by lia. cbn [Z.mul Pos.mul].
  destruct (Z.ltb_spec n 2097152).
  { rewrite encode_length_last; [done|ulia|cbn; lia]. }
  rewrite encode_length_more by (cbn; ulia). rewrite Z.div_div by lia. cbn [Z.mul Pos.mul].
  rewrite encode_length_last; [done|ulia|cbn; lia].
Qed.

(** A longer content overflows the array of the loop. *)
Lemma encode_length_overflow n : max_body <= n → encode_length 5 n 0 (replicate 4 0) = None.
Proof.
  unfold max_body. intros Hn. rewrite encode_length_more by (cbn; ulia).
  rewrite encode_length_more by (cbn; ulia). rewrite Z.div_div by lia.
  rewrite encode_length_more by (cbn; ulia). rewrite Z.div_div by lia.
  rewrite encode_length_more by (cbn; ulia). done.
Qed.

(** ** Writing *)

(** [w] writes the bytes [l] at the pointer and moves it behind them. *)
Definition writes (w : Iterator unit) (l : list Z) : Prop := ∀ pre old post,
  length old = length l →
  w (pre ++ old ++ post, length pre) = Some (tt, (pre ++ l ++ post, (length pre + length l)%nat)).

Lemma writes_bind w1 w2 l1 l2 : writes w1 l1 → writes w2 l2 → writes (w1;; w2) (l1 ++ l2).
Proof.
  intros H1 H2 pre old post Hl. rewrite length_app in Hl. rewrite st_bind_eq.
  rewrite <- (take_drop (length l1) old), <- (app_assoc (take _ _)).
  rewrite H1 by (rewrite length_take; lia). rewrite bind_ret.
  rewrite app_assoc, <- length_app, H2 by (rewrite length_drop; lia).
  rewrite <- !app_assoc, !length_app. by rewrite Nat.add_assoc.
Qed.

Lemma writes_ret : writes (mret tt) [].
Proof. intros pre old post Hl. apply length_zero_iff_nil in Hl as ->. by rewrite Nat.add_0_r. Qed.

Lemma writes_byte v : is_u8 v → writes (byteutil_writeByte v) [v].
Proof.
  intros Hv pre old post Hl. destruct old as [|x [|]]; [done| |done]. cbn [app].
  unfold byteutil_writeByte. rewrite st8_Some by (rewrite length_app; cbn; lia).
  rewrite bind_ret, u8_id by done. by rewrite insert_app_r_alt, Nat.sub_diag by lia.
Qed.

Lemma writes_int v : is_u16 v → writes (byteutil_writeInt v) (be16 v).
Proof. intros. apply (writes_bind _ _ [_] [_]); apply writes_byte; ulia. Qed.

Lemma writes_chars s n :
  (n <= length s)%nat → writes (write_chars (Some s) n) (take n s).
Proof.
  intros Hn pre old post Hl. rewrite length_take in Hl. unfold write_chars.
  rewrite copy_to_spec, !bind_ret by (rewrite ?length_app; lia).
  rewrite length_take. repeat f_equal; [|lia]. unfold splice.
  rewrite take_app_length, length_take, Nat.min_l by lia. f_equal. f_equal.
  by rewrite drop_app_add, drop_app_length' by lia.
Qed.

Lemma writes_prefix s t : writes (write_chars (Some (s ++ t)) (length s)) s.
Proof.
  pose proof (writes_chars (s ++ t) (length s)) as Hw. rewrite take_app_length in Hw.
  apply Hw. rewrite length_app. lia.
Qed.

Lemma writes_all s : writes (write_chars (Some s) (length s)) s.
Proof. pose proof (writes_prefix s []) as Hw. by rewrite app_nil_r in Hw. Qed.

Lemma uint16_id n : Z.of_nat n <= USHRT_MAX → uint16 n = Z.of_nat n.
Proof. unfold USHRT_MAX, uint16. intros. apply u16_id. ulia. Qed.

Lemma writes_UTF s :
  zlen s <= USHRT_MAX → writes (byteutil_writeUTF (Some s) (uint16 (length s))) (utf s).
Proof.
  unfold zlen. intros Hs. unfold byteutil_writeUTF, utf. rewrite uint16_id, Nat2Z.id by done.
  apply writes_bind; [apply writes_int; unfold zlen, USHRT_MAX in *; ulia|].
  apply writes_all.
Qed.

Lemma writes_when {A} b (d : Iterator A) l :
  writes (d;; mret tt) l → writes (when b d) (if b then l else []).
Proof. destruct b; [done|]. intros _. apply writes_ret. Qed.

Lemma st_ret_r {S} (d : ST S unit) s : (d;; mret tt) s = d s.
Proof. rewrite st_bind_eq. by destruct (d s) as [[[] ?]|]. Qed.

Lemma writes_ret_r (d : Iterator unit) l : writes d l → writes (d;; mret tt) l.
Proof. intros Hd pre old post Hl. rewrite st_ret_r. by apply Hd. Qed.

(** Writing behind the content [l] of a buffer. *)
Lemma write_buffer_spec w l k m :
  writes w m → length k = length m → l ++ k ≠ [] →
  write_buffer (Some (buf (l ++ k))) (length l) w = Some (Some (buf (l ++ m))).
Proof.
  intros Hw Hk Hne. unfold write_buffer. rewrite buf_u_char, bind_ret by done.
  rewrite <- (app_nil_r k), Hw, !bind_ret, !app_nil_r by done. cbn [size buf].
  replace (mkBuffer _ _) with (buf (l ++ m)); [done|]. unfold buf. f_equal.
  - destruct (l ++ m) eqn:E; [|done]. apply app_nil in E as [-> ->]. by destruct k.
  - rewrite !length_app. lia.
Qed.

Lemma write_buffer_spec_0 w k m :
  writes w m → length k = length m → k ≠ [] →
  write_buffer (Some (buf k)) 0 w = Some (Some (buf m)).
Proof. intros. by apply (write_buffer_spec w []). Qed.

(** ** Builders *)

(** [d] makes a buffer with the bytes [l], two more blocks; short of memory, it
    returns NULL and no block is lost. *)
Definition makes (d : Alloc BUFFER_HANDLE) (l : list Z) : Prop := ∀ h,
  wp d (λ r h', match r with
                | Some b => b = buf l ∧ used 2 h h'
                | None => used 0 h h' ∧ ¬ plenty h
                end) h.

(** [d] refuses: NULL, and no block is lost. *)
Definition refuses (d : Alloc BUFFER_HANDLE) : Prop := ∀ h,
  wp d (λ r h', r = None ∧ used 0 h h') h.

Section builders.
Context `{Arch}.
Implicit Types (l k m : list Z) (h : Heap).
#[warnings="-notation-for-abbreviation"]
Notation Build := (Alloc (status * BUFFER_HANDLE)).

(** [d] appends [m] to the content [l] of a buffer, or fails for lack of memory. *)
Definition extends (d : BUFFER_HANDLE → Build) (l m : list Z) : Prop := ∀ h Q,
  (∀ h', used (blocks (l ++ m) - blocks l) h h' → Q (OK, Some (buf (l ++ m))) h') →
  (∀ l' h', used (blocks l' - blocks l) h h' → ¬ plenty h → Q (FAILURE, Some (buf l')) h') →
  wp (d (Some (buf l))) Q h.

Lemma used_not_plenty (n : Z) h h1 : used n h h1 → ¬ plenty h1 → ¬ plenty h.
Proof. intros [_ Hp] Hn ?. auto. Qed.

(** Enlarging a buffer and writing the new bytes. *)
Lemma extends_enlarge (d : BUFFER_HANDLE → Build) n (w : Iterator unit) l m :
  writes w m → length m = n → n ≠ 0%nat → zlen l + zlen m < size_mod →
  (∀ Q h, wp (BUFFER_enlarge (Some (buf l)) n) (λ '(r, b), match r with
            | FAILURE => Q (FAILURE, b)
            | OK => λ h, ∃ x, BUFFER_u_char b = Some x ∧
                wp (b ← lift (write_buffer b (length l) w); mret (OK, b)) Q h
            end) h → wp (d (Some (buf l))) Q h) →
  extends d l m.
Proof.
  unfold zlen. intros Hw Hm Hn Hs Hd h Q HS HF. apply Hd. apply wp_BUFFER_enlarge; [done|lia|..].
  - intros k h' Hk Hu. assert (l ++ k ≠ []) as Hne.
    { intros [-> ->]%app_nil. cbn in Hk. lia. }
    assert (l ++ m ≠ []) as Hne'. { intros [-> ->]%app_nil. cbn in *. lia. }
    exists (l ++ k). split; [by apply buf_u_char|].
    eapply wp_bind, wp_lift; [apply (write_buffer_spec w l k m); [done|lia|done]|].
    apply wp_ret, HS. by rewrite (blocks_cons (l ++ m)).
  - intros h' Hu Hp. apply HF; [|done]. by rewrite Z.sub_diag.
Qed.

(** The fixed header is put before the content. *)
Lemma wp_constructFixedHeader l type flags (Q : status * BUFFER_HANDLE → Heap → Prop) h :
  l ≠ [] → zlen l < max_body → is_u8 type → is_u8 flags →
  (∀ h', used 0 h h' → Q (OK, Some (buf (frame type flags l))) h') →
  (∀ h', used 0 h h' → ¬ plenty h → Q (FAILURE, Some (buf l)) h') →
  wp (constructFixedHeader (Some (buf l)) type flags) Q h.
Proof.
  intros Hl Hmax Ht Hf HS HF. unfold constructFixedHeader. pose proof size_mod_wide as Hw.
  pose proof (length_length_field (zlen l)) as Hlf. rewrite buf_length. fold (zlen l).
  eapply wp_bind, wp_lift; [apply encode_length_spec; unfold zlen in *; lia|].
  set (lf := length_field (zlen l)) in *.
  apply wp_bind, wp_BUFFER_new; cycle 1.
  { intros h1 Hu Hp. apply wp_ret. by apply HF. }
  intros h1 Hu1. apply wp_bind, wp_BUFFER_pre_build; [lia|..]; cycle 1.
  { intros h2 Hu2 Hp. apply wp_bind, wp_BUFFER_delete. intros h3 Hu3. apply wp_ret, HF.
    - eapply used_trans; [done|by eapply used_trans|done].
    - by eapply used_not_plenty. }
  intros k h2 Hk Hu2. eapply wp_bind, wp_lift.
  { apply (write_buffer_spec_0 _ _ (Z.lor type flags :: lf)); [|cbn; lia|intros ->; cbn in Hk; lia].
    apply (writes_bind _ _ [_]).
    - rewrite u8_id by done. apply writes_byte. unfold is_u8. apply (lor_bound _ _ 8); unfold is_u8 in *; lia.
    - eapply (writes_prefix lf). }
  assert (used 2 h h2) as Hu by by eapply used_trans.
  apply wp_bind, wp_BUFFER_prepend; [done|done|unfold zlen, max_body in *; cbn [length]; lia|..].
  - intros h3 Hu3. apply wp_bind, wp_BUFFER_delete. intros h4 Hu4. apply wp_ret, HS.
    eapply used_trans; [done|by eapply used_trans|done].
  - intros h3 Hu3 Hp. apply wp_bind, wp_BUFFER_delete. intros h4 Hu4. apply wp_ret, HF.
    + eapply used_trans; [done|by eapply used_trans|done].
    + by eapply used_not_plenty.
Qed.

Lemma wp_give_back l (Q : BUFFER_HANDLE → Heap → Prop) h :
  (∀ h', used (- blocks l) h h' → Q None h') → wp (give_back (Some (buf l))) Q h.
Proof. intros HQ. apply wp_bind, wp_BUFFER_delete. intros. by apply wp_ret, HQ. Qed.

(** *** Variable headers and lists *)

#[local] Ltac by_enlarge :=
  intros Q h Hrun; apply wp_bind; eapply wp_mono; [exact Hrun|];
  intros [[|] b] h'; [intros (x & E & Hx); rewrite ?E; exact Hx | intros Hx; by apply wp_ret].

Lemma longer_false n (max : Z) : Z.of_nat n <= max → longer n max = false.
Proof. intros. unfold longer. apply Z.ltb_ge. lia. Qed.

Lemma longer_true n (max : Z) : max < Z.of_nat n → longer n max = true.
Proof. intros. unfold longer. by apply Z.ltb_lt. Qed.

Lemma length_utf s : length (utf s) = (length s + 2)%nat.
Proof. unfold utf. rewrite length_app, length_be16. lia. Qed.

Definition publish_header (qos id : Z) (topic : list Z) : list Z :=
  utf topic ++ if qos =? DELIVER_AT_MOST_ONCE then [] else be16 id.

Lemma extends_publish_header info l :
  zlen (topicName info) <= USHRT_MAX → is_u16 (packetId info) → zlen l + 65541 < size_mod →
  extends (λ b, constructPublishVariableHeader b info) l
    (publish_header (publishQos info) (packetId info) (topicName info)).
Proof.
  intros Ht Hid Hs.
  set (w := byteutil_writeUTF (Some (topicName info)) (uint16 (length (topicName info)));;
    when (negb (publishQos info =? DELIVER_AT_MOST_ONCE)) (byteutil_writeInt (packetId info))).
  assert (writes w (publish_header (publishQos info) (packetId info) (topicName info))) as Hw.
  { apply writes_bind; [by apply writes_UTF|].
    destruct (_ =? _); [apply writes_ret|]. apply writes_ret_r, writes_int, Hid. }
  assert (length (publish_header (publishQos info) (packetId info) (topicName info)) =
    Nat.add (Nat.add (length (topicName info)) (if publishQos info =? DELIVER_AT_MOST_ONCE then 0%nat else 2%nat)) 2)
    as Hn.
  { unfold publish_header. rewrite length_app, length_utf. destruct (_ =? _); rewrite ?length_be16; cbn; lia. }
  eapply (extends_enlarge _ _ w); [done|exact Hn|lia|..].
  - unfold zlen, USHRT_MAX in *. rewrite Hn. case_match; lia.
  - unfold constructPublishVariableHeader. rewrite longer_false by done. rewrite buf_length.
    unfold w. destruct (_ =? _); by_enlarge.
Qed.

Lemma extends_packet_id id l :
  is_u16 id → l = [] → extends (λ b, constructSubscibeTypeVariableHeader b id) l (be16 id).
Proof.
  intros Hid ->. pose proof size_mod_wide.
  eapply (extends_enlarge _ 2 (byteutil_writeInt id)); [by apply writes_int|done|lia|unfold zlen; rewrite length_be16; cbn; lia|].
  unfold constructSubscibeTypeVariableHeader. by_enlarge.
Qed.

Definition connect_header (keepalive : Z) : list Z := utf (str "MQTT") ++ [4; 0] ++ be16 keepalive.

Lemma extends_connect_header o l :
  is_u16 (keepAliveInterval o) → l = [] →
  extends (λ b, constructConnectVariableHeader b o) l (connect_header (keepAliveInterval o)).
Proof.
  intros Hk ->. pose proof size_mod_wide.
  eapply (extends_enlarge _ 10); [|done|lia|change (0 + 10 < size_mod); lia|].
  - eapply writes_bind; [by apply (writes_UTF (str "MQTT"))|].
    eapply (writes_bind _ _ [4]); [by apply writes_byte|].
    eapply (writes_bind _ _ [0]); [by apply writes_byte|]. by apply writes_int.
  - unfold constructConnectVariableHeader. by_enlarge.
Qed.

(** The items of the lists. *)
Definition unsubscribe_bytes (topics : list (list Z)) : list Z := topics ≫= utf.
Definition subscribe_bytes (items : list (list Z * Z)) : list Z :=
  items ≫= λ '(topic, qos), utf topic ++ [qos].

Lemma extends_unsubscribe_item pl index t l :
  pl !! index = Some (Some t) → zlen t <= USHRT_MAX → zlen l + 65537 < size_mod →
  extends (unsubscribe_item pl index) l (utf t).
Proof.
  intros Hi Ht Hs.
  eapply (extends_enlarge _ (length t + 2)); [by apply writes_UTF|apply length_utf|lia|..].
  - unfold zlen, USHRT_MAX in *. rewrite length_utf. lia.
  - intros Q h Hw. unfold unsubscribe_item. apply wp_bind. eapply wp_lift; [done|].
    apply wp_bind. eapply wp_lift; [done|]. rewrite longer_false by done.
    revert Q h Hw. by_enlarge.
Qed.

Lemma extends_subscribe_item pl index t q l :
  pl !! index = Some {| subscribeTopic := Some t; qosReturn := q |} → is_u8 q →
  zlen t <= USHRT_MAX → zlen l + 65538 < size_mod →
  extends (subscribe_item pl index) l (utf t ++ [q]).
Proof.
  intros Hi Hq Ht Hs.
  eapply (extends_enlarge _ (length t + 2 + 1)).
  - apply writes_bind; [by apply writes_UTF|by apply writes_byte].
  - rewrite length_app, length_utf. cbn. lia.
  - lia.
  - unfold zlen, USHRT_MAX in *. rewrite length_app, length_utf. cbn. lia.
  - intros Q h Hw. unfold subscribe_item. apply wp_bind. eapply wp_lift; [done|].
    apply wp_bind. eapply wp_lift; [done|]. cbn [subscribeTopic qosReturn].
    rewrite longer_false by done. revert Q h Hw. by_enlarge.
Qed.

(** The loop over the items, each of which is written as [enc x]. *)
Lemma extends_items {X} (item : nat → BUFFER_HANDLE → Build) (enc : X → list Z) xs i l :
  (∀ j x pre, xs !! j = Some x → zlen pre <= zlen l + zlen (xs ≫= enc) →
     extends (item (i + j)%nat) pre (enc x)) →
  extends (add_items item (length xs) i) l (xs ≫= enc).
Proof.
  revert i l. induction xs as [|x xs IH]; intros i l Hx h Q HS HF.
  - rewrite app_nil_r in HS. apply wp_ret, HS. rewrite Z.sub_diag. apply used_refl.
  - cbn [mbind list_bind] in *. unfold zlen in *. rewrite length_app in Hx.
    cbn [length add_items]. apply wp_bind.
    pose proof (Hx 0%nat x l eq_refl ltac:(lia)) as Hx0. rewrite Nat.add_0_r in Hx0. apply Hx0.
    + intros h1 Hu1. apply (IH (i + 1)%nat (l ++ enc x)).
      * intros j y pre Hj Hp. rewrite <- Nat.add_assoc. apply (Hx (S j)); [done|].
        rewrite length_app in Hp. lia.
      * intros h2 Hu2. rewrite <- app_assoc in *. apply HS. eapply used_trans; [done..|lia].
      * intros l' h2 Hu2 Hp. eapply HF; [eapply used_trans; [done..|lia]|by eapply used_not_plenty].
    + intros l' h1 Hu Hp. by apply wp_ret, HF.
Qed.

(** *** Packets *)

(** After the content [l] is complete. *)
Lemma wp_finish l type flags (Q : BUFFER_HANDLE → Heap → Prop) h :
  l ≠ [] → zlen l < max_body → is_u8 type → is_u8 flags →
  (∀ h', used 0 h h' → Q (Some (buf (frame type flags l))) h') →
  (∀ h', used (-2) h h' → ¬ plenty h → Q None h') →
  wp ('(r, result) ← constructFixedHeader (Some (buf l)) type flags;
      match r with FAILURE => give_back result | OK => mret result end) Q h.
Proof.
  intros Hl Hm Ht Hf HS HF. apply wp_bind, wp_constructFixedHeader; [done..| |].
  - intros h' Hu. by apply wp_ret, HS.
  - intros h1 Hu Hp. apply wp_give_back. rewrite blocks_cons by done. intros h2 Hu2.
    apply HF; [by eapply used_trans|done].
Qed.

(** A builder that starts with a new buffer. *)
Lemma makes_new (d : BUFFER_HANDLE → Alloc BUFFER_HANDLE) l :
  (∀ h Q, (∀ h', used (2 - 1) h h' → Q (Some (buf l)) h') →
          (∀ h', used (-1) h h' → ¬ plenty h → Q None h') → wp (d (Some (buf []))) Q h) →
  makes (result ← BUFFER_new; match result with None => mret None | Some _ => d result end) l.
Proof.
  intros Hd h. apply wp_bind, wp_BUFFER_new.
  - intros h1 Hu1. apply Hd.
    + intros h2 Hu2. split; [done|]. by eapply used_trans.
    + intros h2 Hu2 Hp. split; [by eapply used_trans|by eapply used_not_plenty].
  - intros h1 Hu1 Hp. apply wp_ret. done.
Qed.

(** A first step of a builder that extends the buffer. *)
Lemma wp_step (d : BUFFER_HANDLE → Build) (rest : BUFFER_HANDLE → Alloc BUFFER_HANDLE) l m
    (Q : BUFFER_HANDLE → Heap → Prop) h :
  extends d l m →
  (∀ h', used (blocks (l ++ m) - blocks l) h h' → wp (rest (Some (buf (l ++ m)))) Q h') →
  (∀ h', used (- blocks l) h h' → ¬ plenty h → Q None h') →
  wp ('(r, result) ← d (Some (buf l));
      match r with FAILURE => give_back result | OK => rest result end) Q h.
Proof.
  intros Hd HS HF. apply wp_bind, Hd.
  - intros h1 Hu1. by apply HS.
  - intros l' h1 Hu1 Hp. apply wp_give_back. intros h2 Hu2. apply HF; [|done].
    eapply used_trans; [done..|lia].
Qed.

Lemma list_packet_makes id (add : BUFFER_HANDLE → Build) type flags items :
  is_u16 id → is_u8 type → is_u8 flags → zlen items + 2 < max_body →
  extends add (be16 id) items →
  makes (list_packet id add type flags) (frame type flags (be16 id ++ items)).
Proof.
  intros Hid Ht Hf Hm Ha. apply makes_new. intros h Q HS HF.
  apply (wp_step (λ b, constructSubscibeTypeVariableHeader b id) _ [] (be16 id)); [by apply extends_packet_id|..].
  - intros h1 Hu1. apply (wp_step _ _ _ items); [done|..].
    + intros h2 Hu2. apply wp_finish; [done|unfold zlen in *; cbn [length app]; rewrite ?length_app, ?length_be16; cbn; lia|done..| |].
      * intros h3 Hu3. apply HS. eapply used_trans; [done|by eapply used_trans|done].
      * intros h3 Hu3 Hp. apply HF; [eapply used_trans; [done|by eapply used_trans|done]|].
        eapply used_not_plenty; [exact Hu1|]. by eapply used_not_plenty.
    + intros h2 Hu2 Hp. apply HF; [by eapply used_trans|by eapply used_not_plenty].
  - intros h1 Hu1 Hp. by apply HF.
Qed.

Lemma wp_append_payload l p (Q : BUFFER_HANDLE → Heap → Prop) h :
  l ≠ [] → zlen l + zlen p < size_mod →
  (∀ h', used 0 h h' → Q (Some (buf (l ++ p))) h') →
  (∀ h', used (-2) h h' → ¬ plenty h → Q None h') →
  wp (append_payload (Some (buf l)) (Some p) (length p)) Q h.
Proof.
  unfold zlen. intros Hl Hs HS HF. unfold append_payload. destruct (Nat.ltb_spec 0 (length p)) as [Hp|Hp].
  - rewrite buf_length. apply wp_bind, wp_BUFFER_enlarge; [lia|lia|..].
    + intros k h' Hk Hu. rewrite blocks_cons in Hu by done.
      assert (l ++ k ≠ []) by by destruct l. rewrite buf_u_char by done.
      eapply wp_lift; [|by apply HS]. apply write_buffer_spec; [|done|done].
      apply writes_all.
    + intros h1 Hu1 Hn. apply wp_give_back. rewrite blocks_cons by done.
      intros h2 Hu2. apply HF; [by eapply used_trans|done].
  - destruct p; [|cbn in Hp; lia]. apply wp_ret. rewrite app_nil_r in HS. apply HS, used_refl.
Qed.

(** Content of a PUBLISH packet. *)
Definition publish_body (qos id : Z) (topic payload : list Z) : list Z :=
  publish_header qos id topic ++ payload.

Lemma publish_header_ne qos id topic : publish_header qos id topic ≠ [].
Proof. done. Qed.

Lemma publish_flags_u8 qos dup retain : is_u8 (publish_flags qos dup retain).
Proof.
  unfold publish_flags. destruct dup, retain; repeat case_match; by vm_compute.
Qed.

Lemma publish_makes qos dup retain id topic payload :
  is_u16 id → zlen topic <= USHRT_MAX → zlen (publish_body qos id topic payload) < max_body →
  makes (mqtt_codec_publish qos dup retain id (Some topic) (Some payload) (length payload))
    (frame PUBLISH_TYPE (publish_flags qos dup retain) (publish_body qos id topic payload)).
Proof.
  intros Hid Ht Hm. pose proof size_mod_wide as Hw.
  assert (zlen payload < max_body ∧ zlen (publish_header qos id topic) + zlen payload < size_mod) as [Hp Hs].
  { unfold publish_body, zlen, max_body in *. rewrite length_app in Hm. lia. }
  unfold mqtt_codec_publish. rewrite longer_false by (unfold zlen, max_body, MAX_SEND_SIZE in *; lia).
  apply makes_new. intros h Q HS HF.
  set (info := {| topicName := topic; packetId := id; publishQos := qos |}).
  apply (wp_step (λ b, constructPublishVariableHeader b info) _ [] (publish_header qos id topic)).
  { apply extends_publish_header; [done|done|]. unfold zlen. cbn. lia. }
  2:{ intros h1 Hu Hp1. by apply HF. }
  cbn [app]. rewrite blocks_cons by apply publish_header_ne. intros h1 Hu1.
  apply wp_bind, wp_append_payload; [apply publish_header_ne|done|..].
  - intros h2 Hu2. fold (publish_body qos id topic payload).
    apply wp_finish; [done|done|done|apply publish_flags_u8|..].
    + intros h3 Hu3. apply HS. eapply used_trans; [done|by eapply used_trans|done].
    + intros h3 Hu3 Hn. apply HF; [eapply used_trans; [done|by eapply used_trans|done]|].
      eapply used_not_plenty; [exact Hu1|]. by eapply used_not_plenty.
  - intros h2 Hu2 Hn. apply wp_ret. apply HF; [by eapply used_trans|by eapply used_not_plenty].
Qed.

(** The answers of the publish handshake. *)
Lemma reply_makes type flags id :
  is_u8 type → is_u8 flags → is_u16 id →
  makes (constructPublishReply type flags id) (frame type flags (be16 id)).
Proof.
  intros Ht Hf Hid. apply makes_new. intros h Q HS HF.
  apply wp_bind, wp_BUFFER_pre_build; [done|..].
  - intros k h1 Hk Hu1. rewrite buf_u_char by (intros ->; done).
    eapply wp_lift; [|apply HS; exact Hu1].
    apply write_buffer_spec_0; [|done|by intros ->].
    rewrite u8_id by done. eapply (writes_bind _ _ [_]); [apply writes_byte|].
    { apply (lor_bound _ _ 8); unfold is_u8 in *; lia. }
    eapply (writes_bind _ _ [2]); [by apply writes_byte|]. by apply writes_int.
  - intros h1 Hu1 Hp. apply wp_give_back. intros h2 Hu2. apply HF; [by eapply used_trans|done].
Qed.

Lemma empty_makes type : is_u8 type → makes (empty_packet type) (frame type 0 []).
Proof.
  intros Ht. pose proof size_mod_wide. apply makes_new. intros h Q HS HF.
  apply wp_bind, wp_BUFFER_enlarge; [done|cbn; lia|..].
  - intros k h1 Hk Hu1. cbn [app]. rewrite buf_u_char by (intros ->; done).
    eapply wp_lift; [|apply HS; exact Hu1].
    apply write_buffer_spec_0; [|done|by intros ->].
    unfold frame. rewrite Z.lor_0_r. eapply (writes_bind _ _ [type] [0]); by apply writes_byte.
  - intros h1 Hu1 Hp. apply wp_give_back. intros h2 Hu2. apply HF; [by eapply used_trans|done].
Qed.

(** *** Subscriptions *)

(** The arguments in C: arrays of strings. *)
Definition c_topics (topics : list (list Z)) : list (option (list Z)) := Some <$> topics.
Definition c_items (items : list (list Z * Z)) : list SUBSCRIBE_PAYLOAD :=
  (λ x, {| subscribeTopic := Some x.1; qosReturn := x.2 |}) <$> items.

Lemma unsubscribe_makes id topics :
  is_u16 id → topics ≠ [] → Forall (λ t, zlen t <= USHRT_MAX) topics →
  zlen (unsubscribe_bytes topics) + 2 < max_body →
  makes (mqtt_codec_unsubscribe id (Some (c_topics topics)) (length topics))
    (frame UNSUBSCRIBE_TYPE UNSUBSCRIBE_FIXED_HEADER_FLAG (be16 id ++ unsubscribe_bytes topics)).
Proof.
  intros Hid Hne Hf Hm. pose proof size_mod_wide. unfold mqtt_codec_unsubscribe.
  rewrite (proj2 (Nat.eqb_neq _ _)) by by destruct topics.
  apply list_packet_makes; [done..|]. cbn [addListItemsToUnsubscribePacket].
  apply (extends_items (unsubscribe_item (c_topics topics)) utf).
  intros j x pre Hj Hp. cbn [Nat.add]. apply extends_unsubscribe_item.
  - unfold c_topics. by rewrite list_lookup_fmap, Hj.
  - eapply Forall_lookup_1 in Hf; done.
  - unfold unsubscribe_bytes, zlen, max_body in *. rewrite length_be16 in Hp. lia.
Qed.

Lemma subscribe_makes id items :
  is_u16 id → items ≠ [] → Forall (λ x, zlen x.1 <= USHRT_MAX ∧ is_u8 x.2) items →
  zlen (subscribe_bytes items) + 2 < max_body →
  makes (mqtt_codec_subscribe id (Some (c_items items)) (length items))
    (frame SUBSCRIBE_TYPE SUBSCRIBE_FIXED_HEADER_FLAG (be16 id ++ subscribe_bytes items)).
Proof.
  intros Hid Hne Hf Hm. pose proof size_mod_wide. unfold mqtt_codec_subscribe.
  rewrite (proj2 (Nat.eqb_neq _ _)) by by destruct items.
  apply list_packet_makes; [done..|]. cbn [addListItemsToSubscribePacket].
  apply (extends_items (subscribe_item (c_items items)) (λ '(topic, qos), utf topic ++ [qos])).
  intros j [t q] pre Hj Hp. cbn [Nat.add]. eapply Forall_lookup_1 in Hf as [Ht Hq]; [|exact Hj].
  apply extends_subscribe_item; [|done|done|].
  - unfold c_items. by rewrite list_lookup_fmap, Hj.
  - unfold subscribe_bytes, zlen, max_body in *. rewrite length_be16 in Hp. lia.
Qed.
End builders.

(** *** Connecting *)

Definition opt_utf (s : option (list Z)) : list Z := if s is Some s then utf s else [].

(** A field of the options: absent, or a string that is not empty nor too long. *)
Definition field_ok (s : option (list Z)) : Prop :=
  match s with Some s => s ≠ [] ∧ zlen s <= USHRT_MAX | None => True end.

(** Options that the builder encodes. *)
Record valid_options (o : MQTT_CLIENT_OPTIONS) : Prop := {
  valid_client : match clientId o with Some c => zlen c <= USHRT_MAX | None => False end;
  valid_topic : field_ok (willTopic o);
  valid_message : field_ok (willMessage o);
  valid_will : is_Some (willTopic o) ↔ is_Some (willMessage o);
  valid_username : field_ok (username o);
  valid_password : field_ok (password o);
  valid_login : is_Some (password o) → is_Some (username o);
  valid_keepalive : is_u16 (keepAliveInterval o);
  valid_qos : 0 <= qualityOfServiceValue o <= 2 }.

Definition connect_flags (o : MQTT_CLIENT_OPTIONS) : Z :=
  Z.lor (if willTopic o is Some _
         then Z.lor WILL_FLAG_FLAG (Z.lor (Z.shiftl (qualityOfServiceValue o) 3)
                (if messageRetain o then WILL_RETAIN_FLAG else 0))
         else 0)
    (Z.lor (if username o is Some _ then USERNAME_FLAG else 0)
       (Z.lor (if password o is Some _ then PASSWORD_FLAG else 0)
          (if useCleanSession o then CLEAN_SESSION_FLAG else 0))).

Definition connect_fields (o : MQTT_CLIENT_OPTIONS) : list Z :=
  (opt_utf (willTopic o) ++ opt_utf (willMessage o)) ++ opt_utf (username o)
    ++ opt_utf (password o).

(** Content of a CONNECT packet. *)
Definition connect_body (o : MQTT_CLIENT_OPTIONS) : list Z :=
  (utf (str "MQTT") ++ [PROTOCOL_NUMBER]) ++ connect_flags o :: be16 (keepAliveInterval o)
    ++ opt_utf (clientId o) ++ connect_fields o.

(** [w] writes [l] and adds the flags [f] to the byte behind the first 7. *)
Definition writes_flags (w : Iterator unit) (f : Z) (l : list Z) : Prop :=
  is_u8 f ∧ ∀ hd x mid old, length hd = CONN_FLAG_BYTE_OFFSET → is_u8 x →
  (length l <= length old)%nat →
  w (hd ++ x :: mid ++ old, (8 + length mid)%nat) =
    Some (tt, (hd ++ Z.lor x f :: mid ++ l ++ drop (length l) old, (8 + length mid + length l)%nat)).

Lemma lor_u8 a b : is_u8 a → is_u8 b → is_u8 (Z.lor a b).
Proof. unfold is_u8. intros. apply (lor_bound _ _ 8); lia. Qed.

Lemma writes_flags_plain w l : writes w l → writes_flags w 0 l.
Proof.
  intros Hw. split; [done|]. intros hd x mid old Hhd Hx Hl. rewrite Z.lor_0_r.
  rewrite <- (take_drop (length l) old) at 1.
  replace (hd ++ x :: mid ++ take (length l) old ++ drop (length l) old)
    with ((hd ++ x :: mid) ++ take (length l) old ++ drop (length l) old) by by rewrite <- app_assoc.
  replace (8 + length mid)%nat with (length (hd ++ x :: mid))
    by (rewrite length_app, Hhd; cbn; lia).
  rewrite Hw by (rewrite length_take; lia). by rewrite <- app_assoc.
Qed.

Lemma writes_set_flag f : is_u8 f → writes_flags (set_flag CONN_FLAG_BYTE_OFFSET f) f [].
Proof.
  intros Hf. split; [done|]. intros hd x mid old Hhd Hx _. unfold set_flag. rewrite <- Hhd.
  rewrite list_lookup_middle, bind_ret by done.
  rewrite st8_Some by (rewrite length_app; cbn; lia). rewrite bind_ret, u8_id by by apply lor_u8.
  rewrite insert_app_r_alt, Nat.sub_diag by lia. cbn [app length drop list_insert]. by rewrite Nat.add_0_r.
Qed.

Lemma writes_flags_bind w1 w2 f1 f2 l1 l2 :
  writes_flags w1 f1 l1 → writes_flags w2 f2 l2 →
  writes_flags (w1;; w2) (Z.lor f1 f2) (l1 ++ l2).
Proof.
  intros [Hf1 H1] [Hf2 H2]. split; [by apply lor_u8|]. intros hd x mid old Hhd Hx Hl.
  rewrite length_app in Hl. rewrite st_bind_eq, H1, bind_ret by (done || lia).
  pose proof (H2 hd (Z.lor x f1) (mid ++ l1) (drop (length l1) old)) as E.
  rewrite <- !app_assoc, length_app, Nat.add_assoc in E.
  rewrite E by (rewrite ?length_drop; (by apply lor_u8) || lia || done).
  rewrite <- Z.lor_assoc, drop_drop, <- !app_assoc, !length_app. by rewrite !Nat.add_assoc.
Qed.

Lemma writes_flags_when b w f l :
  writes_flags w f l → writes_flags (when b w) (if b then f else 0) (if b then l else []).
Proof.
  intros [Hf H]. destruct b.
  - split; [done|]. intros. unfold when. rewrite st_ret_r. by apply H.
  - apply writes_flags_plain, writes_ret.
Qed.

Lemma writes_when_flag b f :
  is_u8 f → writes_flags (when b (set_flag CONN_FLAG_BYTE_OFFSET f)) (if b then f else 0) [].
Proof.
  intros Hf. pose proof (writes_flags_when b _ _ _ (writes_set_flag f Hf)). by destruct b.
Qed.

Lemma opt_len_pos s : field_ok s → (0 <? opt_len s)%nat = if s is Some _ then true else false.
Proof. destruct s as [[|]|]; [by intros []|done..]. Qed.

Lemma writes_opt_utf s : field_ok s → is_Some s →
  writes (byteutil_writeUTF s (uint16 (opt_len s))) (opt_utf s).
Proof. intros Hs [t ->]. by apply writes_UTF, Hs. Qed.

(** User name and password. *)
Lemma writes_login s f :
  field_ok s → is_u8 f →
  writes_flags (when (0 <? opt_len s)%nat
                  (set_flag CONN_FLAG_BYTE_OFFSET f;; byteutil_writeUTF s (uint16 (opt_len s))))
    (if s is Some _ then f else 0) (opt_utf s).
Proof.
  intros Hs Hf. rewrite opt_len_pos by done. destruct s as [s|].
  - apply (writes_flags_when true). rewrite <- (Z.lor_0_r f) at 2.
    apply (writes_flags_bind _ _ _ 0 []); [by apply writes_set_flag|].
    by apply writes_flags_plain, writes_opt_utf.
  - apply (writes_flags_plain _ []), writes_ret.
Qed.

Lemma shift_qos q : 0 <= q <= 2 → is_u8 (Z.shiftl q 3).
Proof. intros. unfold is_u8. rewrite Z.shiftl_mul_pow2 by lia. lia. Qed.

Lemma writes_conn_fields o :
  valid_options o →
  writes_flags (conn_fields o (opt_len (willTopic o)) (opt_len (willMessage o))
                  (opt_len (username o)) (opt_len (password o)))
    (connect_flags o) (connect_fields o).
Proof.
  intros [_ Ht Hm Hwill Hu Hp _ _ Hq]. unfold conn_fields, connect_flags, connect_fields.
  apply writes_flags_bind.
  { rewrite !opt_len_pos by done. destruct (willTopic o) as [t|] eqn:Et.
    - destruct (willMessage o) as [m|] eqn:Em; [|by destruct (proj1 Hwill ltac:(done)) as [? [=]]].
      apply (writes_flags_when true).
      apply (writes_flags_bind _ _ _ _ []); [by apply writes_set_flag|].
      rewrite <- (Z.lor_0_l (Z.lor _ _)).
      apply (writes_flags_bind _ _ 0 _ (opt_utf (Some t))).
      { by apply writes_flags_plain, (writes_opt_utf (Some t)). }
      apply (writes_flags_bind _ _ _ _ []); [by apply writes_set_flag, shift_qos|].
      rewrite <- (Z.lor_0_r (if messageRetain o then _ else _)).
      apply (writes_flags_bind _ _ _ 0 []).
      + by apply writes_when_flag.
      + by apply writes_flags_plain, (writes_opt_utf (Some m)).
    - destruct (willMessage o) as [m|] eqn:Em; [by destruct (proj2 Hwill ltac:(done)) as [? [=]]|].
      apply (writes_flags_plain _ []), writes_ret. }
  apply writes_flags_bind; [by apply writes_login|].
  rewrite <- (app_nil_r (opt_utf (password o))).
  apply writes_flags_bind; [by apply writes_login|].
  by apply writes_when_flag.
Qed.

Lemma length_opt_utf s : length (opt_utf s) = (opt_len s + opt_space s)%nat.
Proof. destruct s as [s|]; [apply length_utf|done]. Qed.

Lemma field_ok_length s : field_ok s → Z.of_nat (opt_len s) <= USHRT_MAX.
Proof. destruct s as [s|]; [|done]. by intros [_ ?]. Qed.

Lemma connect_length o :
  valid_options o → zlen (opt_utf (clientId o) ++ connect_fields o) <= 327725.
Proof.
  intros [Hc Ht Hm _ Hu Hp _ _ _]. pose proof (field_ok_length _ Ht). pose proof (field_ok_length _ Hm).
  pose proof (field_ok_length _ Hu). pose proof (field_ok_length _ Hp).
  destruct (clientId o) as [c|]; [|done]. cbn [opt_utf].
  unfold connect_fields, USHRT_MAX, zlen in *. rewrite !length_app, length_utf, !length_opt_utf.
  unfold opt_space. repeat case_match; lia.
Qed.

Section connect.
Context `{Arch}.
Implicit Types o : MQTT_CLIENT_OPTIONS.

(** What the variable header reserves becomes the packet, flags included. *)
Lemma connect_written o w l k :
  writes_flags w (connect_flags o) l → length k = length l →
  write_buffer (Some (buf (connect_header (keepAliveInterval o) ++ k))) 10 w =
    Some (Some (buf ((utf (str "MQTT") ++ [PROTOCOL_NUMBER]) ++ connect_flags o
                       :: be16 (keepAliveInterval o) ++ l))).
Proof.
  intros [_ Hw] Hk. unfold write_buffer. rewrite buf_u_char, bind_ret by done.
  pose proof (Hw (utf (str "MQTT") ++ [4]) 0 (be16 (keepAliveInterval o)) k eq_refl ltac:(done) ltac:(lia)) as E.
  rewrite Z.lor_0_l, drop_ge, app_nil_r in E by lia.
  change (connect_header _ ++ k) with ((utf (str "MQTT") ++ [4]) ++ 0 :: be16 (keepAliveInterval o) ++ k).
  rewrite length_be16 in E. change 10%nat with (8 + 2)%nat. rewrite E, !bind_ret. cbn [size buf].
  replace (length _) with (length ((utf (str "MQTT") ++ [PROTOCOL_NUMBER]) ++ connect_flags o
    :: be16 (keepAliveInterval o) ++ l)); [done|].
  rewrite !length_app. cbn [length]. rewrite !length_app. lia.
Qed.

Lemma wp_constructConnPayload o (Q : status * BUFFER_HANDLE → Heap → Prop) h :
  valid_options o →
  (∀ h', used 0 h h' → Q (OK, Some (buf (connect_body o))) h') →
  (∀ h', used 0 h h' → ¬ plenty h →
     Q (FAILURE, Some (buf (connect_header (keepAliveInterval o)))) h') →
  wp (constructConnPayload (Some (buf (connect_header (keepAliveInterval o)))) (Some o)) Q h.
Proof.
  intros Hv HS HF. pose proof (writes_conn_fields o Hv) as Hw. pose proof size_mod_wide.
  pose proof (connect_length o Hv) as Hlen.
  destruct Hv as [Hc Ht Hm Hwill Hu Hp Hlogin Hk Hq].
  destruct (clientId o) as [c|] eqn:Ec; [|done]. cbn [opt_utf] in Hlen.
  pose proof (field_ok_length _ Ht). pose proof (field_ok_length _ Hm).
  pose proof (field_ok_length _ Hu). pose proof (field_ok_length _ Hp).
  unfold constructConnPayload. rewrite Ec. change (opt_len (Some c)) with (length c).
  change (opt_space (Some c)) with 2%nat.
  rewrite longer_false by done.
  replace ((opt_len (username o) =? 0) && (0 <? opt_len (password o)))%nat with false; cycle 1.
  { rewrite (opt_len_pos (password o)) by done. destruct (password o); [|by rewrite andb_false_r].
    destruct Hlogin as [[|] Eu]; [done|..]; rewrite Eu in *; [by destruct Hu|done]. }
  replace (_ || _) with false; cycle 1.
  { rewrite !opt_len_pos by done. destruct (willTopic o) as [[|]|], (willMessage o) as [[|]|];
      try done; try (by destruct Ht); try (by destruct Hm);
      exfalso; destruct Hwill as [Hw1 Hw2];
      first [by destruct Hw1 as [? [=]] | by destruct Hw2 as [? [=]]]. }
  match goal with |- context [usz ?t] => set (total := t) end.
  set (l := utf c ++ connect_fields o).
  assert (total = length l) as Etotal.
  { unfold total, l, connect_fields. rewrite !length_app, length_utf, !length_opt_utf. lia. }
  assert (Z.of_nat total <= 327725) as Hle.
  { rewrite Etotal. apply Hlen. }
  rewrite usz_id by lia. rewrite Etotal.
  apply wp_bind, wp_BUFFER_enlarge; [unfold l; rewrite length_app, length_utf; lia| |..].
  { change (length (connect_header _)) with 10%nat. lia. }
  - intros k h1 Hlk Hu1. rewrite !longer_false by done. cbn [orb negb].
    eapply wp_bind, wp_lift.
    { apply (connect_written o _ l); [|done]. rewrite <- (Z.lor_0_l (connect_flags o)).
      apply writes_flags_bind; [by apply writes_flags_plain, writes_UTF|].
      by apply (writes_flags_when true). }
    apply wp_ret. unfold connect_body in HS. rewrite Ec in HS. by apply HS.
  - intros h1 Hu1 Hn. apply wp_ret. by apply HF.
Qed.

Lemma connect_makes o :
  valid_options o →
  makes (mqtt_codec_connect (Some o)) (frame CONNECT_TYPE 0 (connect_body o)).
Proof.
  intros Hv. apply makes_new. intros h Q HS HF.
  apply (wp_step (λ b, constructConnectVariableHeader b o) _ [] (connect_header (keepAliveInterval o))).
  { apply extends_connect_header; [apply Hv|done]. }
  2:{ intros h1 Hu Hp. by apply HF. }
  intros h1 Hu1. apply wp_bind, wp_constructConnPayload; [done|..].
  - intros h2 Hu2. apply wp_finish; [done| |done|done|..].
    + pose proof (connect_length o Hv). unfold zlen, max_body in *.
      assert (length (connect_body o) = 10 + length (opt_utf (clientId o) ++ connect_fields o))%nat as ->
        by (unfold connect_body; rewrite (length_app (_ ++ [_])); reflexivity).
      lia.
    + intros h3 Hu3. apply HS. eapply used_trans; [done|by eapply used_trans|done].
    + intros h3 Hu3 Hp. apply HF; [eapply used_trans; [done|by eapply used_trans|done]|].
      eapply used_not_plenty; [exact Hu1|]. by eapply used_not_plenty.
  - intros h2 Hu2 Hp. apply wp_give_back. intros h3 Hu3.
    apply HF; [eapply used_trans; [done|by eapply used_trans|done]|by eapply used_not_plenty].
Qed.
End connect.
