(* ===== verification/MqttDecoderTheory.v ===== *)
(** * MqttDecoderTheory: the decoder of MQTT packets.

    The bytes of a stream of packets make the decoder call back with exactly
    these packets, however the transport has cut the stream into pieces; on any
    other bytes it stays inside its buffers, except for a length field of more
    than four bytes. *)
From S2P Require Import Prelude.
From stdpp Require Import strings.
From S2P Require Import Effects.
From S2P Require Import Alloc.
From S2P Require Import Buffer.
From S2P Require Import MqttCodec.
From S2P Require Import MqttDecoder.
From S2P Require Import MqttCodecTheory.
#[local] Open Scope Z_scope.

(** ** Bytes of the header *)

Lemma land_f0 b : is_u8 b → PACKET_TYPE_BYTE b = b / 16 * 16.
Proof.
  intros Hb. unfold PACKET_TYPE_BYTE. rewrite u8_id by done.
  apply Z.eqb_eq. revert b Hb. apply (u8_check (λ b, Z.land b 0xf0 =? b / 16 * 16)). by vm_compute.
Qed.

Lemma land_0f b : is_u8 b → FLAG_VALUE_BYTE b = b mod 16.
Proof.
  intros Hb. unfold FLAG_VALUE_BYTE. rewrite u8_id by done.
  apply Z.eqb_eq. revert b Hb. apply (u8_check (λ b, Z.land b 0xf =? b mod 16)). by vm_compute.
Qed.

Lemma land_127 b : is_u8 b → Z.land b 127 = b mod 128.
Proof. intros _. apply (Z.land_ones b 7). lia. Qed.

Lemma land_128 b : is_u8 b → negb (Z.land b NEXT_128_CHUNK =? 0) = (128 <=? b).
Proof.
  intros Hb. apply eqb_prop. revert b Hb.
  apply (u8_check (λ b, eqb (negb (Z.land b NEXT_128_CHUNK =? 0)) (128 <=? b))). by vm_compute.
Qed.

(** Type and flags of a first byte. *)
Definition header_ok (type flags : Z) : Prop :=
  0 <= type < 256 ∧ type mod 16 = 0 ∧ 0 <= flags < 16.

Lemma header_byte type flags :
  header_ok type flags →
  is_u8 (Z.lor type flags) ∧ processControlPacketType (Z.lor type flags) = (type, flags).
Proof.
  intros (Ht & Hm & Hf).
  assert (Z.lor type flags = type + flags) as ->.
  { replace type with (type / 16 * 2 ^ 4) at 1 by (change (2 ^ 4) with 16; ulia).
    rewrite lor_disjoint by lia. change (2 ^ 4) with 16. ulia. }
  assert (is_u8 (type + flags)) as Hb by ulia. split; [done|].
  unfold processControlPacketType. rewrite land_f0, land_0f by done. f_equal; ulia.
Qed.

(** ** The length field *)

Lemma decode_length_total stored : length stored = 4%nat → ∃ r, decode_length 5 stored 0 1 0 = Some r.
Proof.
  intros Hl. destruct stored as [|a [|b [|c [|d [|]]]]]; try done.
  cbn -[Z.land Z.mul Z.add]. repeat case_match; eauto.
  all: match goal with H : (_ <? _) = false |- _ => by vm_compute in H end.
Qed.

Lemma decode_more fuel stored index mult total b :
  stored !! index = Some b → is_u8 b → 128 <= b → mult * 128 <= 2097152 →
  decode_length (S fuel) stored index mult total =
    decode_length fuel stored (index + 1) (mult * 128) (total + b mod 128 * mult).
Proof.
  intros Hi Hb Hge Hm. cbn [decode_length]. rewrite Hi, bind_ret, land_127, land_128 by done.
  change NEXT_128_CHUNK with 128. rewrite (proj2 (Z.ltb_ge _ _)) by lia.
  by rewrite (proj2 (Z.leb_le _ _)).
Qed.

Lemma decode_last fuel stored index mult total b :
  stored !! index = Some b → 0 <= b < 128 → mult * 128 <= 2097152 →
  decode_length (S fuel) stored index mult total = Some (OK, total + b * mult).
Proof.
  intros Hi Hb Hm. cbn [decode_length].
  rewrite Hi, bind_ret, land_127, land_128, Z.mod_small by (unfold is_u8; lia).
  change NEXT_128_CHUNK with 128. rewrite (proj2 (Z.ltb_ge _ _)) by lia.
  by rewrite (proj2 (Z.leb_gt _ _)) by lia.
Qed.

(** Lengths of up to three bytes are accepted. *)
Definition max_received : Z := 2097152.

Lemma decode_length_spec n rest :
  0 <= n < max_received → decode_length 5 (length_field n ++ rest) 0 1 0 = Some (OK, n).
Proof.
  unfold max_received, length_field. intros Hn.
  destruct (Z.ltb_spec n 128).
  { by rewrite (decode_last _ _ _ _ _ n) by (done || lia); rewrite Z.mul_1_r. }
  rewrite (Z.mod_eq n) by lia.
  destruct (Z.ltb_spec n 16384).
  { erewrite decode_more by first [reflexivity|ulia].
    erewrite decode_last by first [reflexivity|ulia]. do 2 f_equal. ulia. }
  destruct (Z.ltb_spec n 2097152); [|lia].
  erewrite decode_more by first [reflexivity|ulia].
  erewrite decode_more by first [reflexivity|ulia].
  erewrite decode_last by first [reflexivity|ulia]. do 2 f_equal. ulia.
Qed.

(** The last byte of a length field has its top bit clear, the others set. *)
Lemma length_field_shape n :
  0 <= n < max_received →
  ∃ more last, length_field n = more ++ [last] ∧ (length more <= 2)%nat ∧
    Forall (λ b, 128 <= b < 256) more ∧ 0 <= last < 128.
Proof.
  unfold max_received, length_field. intros Hn.
  destruct (Z.ltb_spec n 128); [exists [], n; repeat constructor; lia|].
  destruct (Z.ltb_spec n 16384).
  { exists [n mod 128 + 128], (n / 128). repeat constructor; ulia. }
  destruct (Z.ltb_spec n 2097152); [|lia].
  exists [n mod 128 + 128; (n / 128) mod 128 + 128], (n / 16384). repeat constructor; ulia.
Qed.

(** ** Pieces of a stream *)

Section receive.
Context `{Arch} {C : Type}.
#[warnings="-notation-for-abbreviation"]
Notation Codec := (MQTTCODEC_INSTANCE C).
Implicit Types (c : Codec) (ctx : C).

(** The loop of [mqtt_codec_bytesReceived], over the bytes themselves. *)
Fixpoint receive_bytes c (l : list Z) : Alloc (status * Codec) :=
  match l with
  | [] => mret (OK, c)
  | b :: l =>
      '(result, c) ← receive_byte c b;
      match result with FAILURE => mret (FAILURE, c) | OK => receive_bytes c l end
  end.

(** The calls of [mqtt_codec_bytesReceived] for the pieces of a stream. *)
Fixpoint receive_chunks c (chunks : list (list Z)) : Alloc (status * Codec) :=
  match chunks with
  | [] => mret (OK, c)
  | l :: chunks =>
      '(result, handle) ← mqtt_codec_bytesReceived (Some c) (Some l) (length l);
      c ← lift handle;
      match result with FAILURE => mret (FAILURE, c) | OK => receive_chunks c chunks end
  end.

Lemma receive_loop_bytes c pre l h :
  receive_loop (length l) (length pre) c (pre ++ l) h = receive_bytes c l h.
Proof.
  revert c pre h. induction l as [|b l IH]; intros c pre h; [done|].
  cbn [length receive_loop receive_bytes]. rewrite st_lift_bind, list_lookup_middle, bind_ret by done.
  rewrite !st_bind_eq. destruct (receive_byte c b h) as [[[[|] c'] h']|]; [|done..].
  rewrite !bind_ret. specialize (IH c' (pre ++ [b]) h').
  by rewrite length_app, <- app_assoc in IH.
Qed.

Lemma bytesReceived_bytes c l h :
  l ≠ [] → mqtt_codec_bytesReceived (Some c) (Some l) (length l) h =
    ('(result, c) ← receive_bytes c l; mret (result, Some c)) h.
Proof.
  intros Hl. unfold mqtt_codec_bytesReceived.
  rewrite (proj2 (Nat.eqb_neq _ _)) by by destruct l. rewrite !st_bind_eq.
  by rewrite (receive_loop_bytes c []).
Qed.

Lemma receive_bytes_app c l k h :
  receive_bytes c (l ++ k) h =
    ('(result, c) ← receive_bytes c l;
     match result with FAILURE => mret (FAILURE, c) | OK => receive_bytes c k end) h.
Proof.
  revert c h. induction l as [|b l IH]; intros c h; [done|].
  cbn [app receive_bytes]. rewrite !st_bind_eq.
  destruct (receive_byte c b h) as [[[[|] c'] h']|]; [|done..]. by rewrite !bind_ret, IH.
Qed.

(** The pieces do not matter. *)
Lemma receive_chunks_concat c chunks h :
  Forall (λ l, l ≠ []) chunks → receive_chunks c chunks h = receive_bytes c (concat chunks) h.
Proof.
  intros Hne. revert c h. induction Hne as [|l chunks Hl Hne IH]; intros c h; [done|].
  cbn [receive_chunks concat]. rewrite receive_bytes_app, !st_bind_eq, bytesReceived_bytes, st_bind_eq by done.
  destruct (receive_bytes c l h) as [[[[|] c'] h']|]; [|done..].
  rewrite !bind_ret. cbn [mret st_ret mbind option_bind]. by rewrite st_lift_bind, bind_ret.
Qed.

(** ** A packet *)

Record packet := mkPacket { ptype : Z; pflags : Z; pbody : list Z }.

Definition packet_frame (p : packet) : list Z := frame (ptype p) (pflags p) (pbody p).

(** What the callback gets. *)
Definition packet_data (p : packet) : BUFFER_HANDLE :=
  match pbody p with [] => None | l => Some (buf l) end.

(** Packets that the decoder handles: up to three bytes of length; without
    content only [PINGRESP], and [PINGRESP] only without content. *)
Record packet_ok (p : packet) : Prop := {
  packet_header : header_ok (ptype p) (pflags p);
  packet_length : zlen (pbody p) < max_received;
  packet_ping : ptype p = PINGRESP_TYPE ↔ pbody p = [] }.

(** Nothing of a packet has been received. *)
Definition idle (cb : ON_PACKET_COMPLETE_CALLBACK C) (ctx : C) c : Prop :=
  ∃ offset, c = mkCodec UNKNOWN_TYPE CODEC_STATE_FIXED_HEADER offset 0 None (Some cb) ctx
                  (replicate 4 0) 0.

Lemma header_not_unknown type flags : header_ok type flags → (type =? UNKNOWN_TYPE) = false.
Proof. intros (_ & Hm & _). apply Z.eqb_neq. intros ->. done. Qed.

(** Computes field accesses and assignments. *)
#[local] Ltac fields :=
  cbn [set_currPacket set_codecState set_bufferOffset set_headerFlags
    set_headerData set_callContext set_remainLen currPacket codecState bufferOffset headerFlags
    headerData packetComplete callContext storeRemainLen remainLenIndex].

(** The callback for a complete packet, and the way back to the idle state. *)
Lemma wp_complete type offset flags hd cb ctx stored i (Q : Codec → Heap → Prop) h :
  wp (cb ctx type flags hd) (λ ctx' h', wp (BUFFER_delete hd) (λ _, Q
    (mkCodec UNKNOWN_TYPE CODEC_STATE_FIXED_HEADER offset 0 None (Some cb) ctx' stored i)) h') h →
  wp (completePacketData
        (mkCodec type CODEC_STATE_VAR_HEADER offset flags hd (Some cb) ctx stored i)) Q h.
Proof.
  intros Hw. apply wp_bind. cbn [packetComplete]. apply wp_bind.
  eapply wp_mono; [exact Hw|]. intros ctx' h' Hd. apply wp_ret, wp_bind.
  eapply wp_mono; [exact Hd|]. intros u h2 HQ. by apply wp_ret.
Qed.

Lemma write_byte_at b l i :
  (i < length l)%nat →
  write_buffer (Some (buf l)) i (byteutil_writeByte b) = Some (Some (buf (<[i := u8 b]> l))).
Proof.
  intros Hi. assert (l ≠ []) as Hne by (intros ->; cbn in Hi; lia). unfold write_buffer.
  rewrite buf_u_char, bind_ret by done. unfold byteutil_writeByte. rewrite st8_Some, !bind_ret by done.
  cbn [size buf]. do 2 f_equal. unfold buf. rewrite length_insert. f_equal.
  destruct (<[_ := _]> l) eqn:E; [|done]. apply (f_equal length) in E. rewrite length_insert in E.
  cbn in E. lia.
Qed.

(** The bytes of the content. *)
Lemma wp_receive_body type flags cb ctx stored i pre old rest
    (Q : status * Codec → Heap → Prop) h :
  rest ≠ [] → bytes rest → length old = length rest →
  wp (cb ctx type flags (Some (buf (pre ++ rest)))) (λ ctx' h', ∀ h'', used (-2) h' h'' →
    Q (OK, mkCodec UNKNOWN_TYPE CODEC_STATE_FIXED_HEADER (length (pre ++ rest)) 0 None (Some cb)
             ctx' stored i) h'') h →
  wp (receive_bytes (mkCodec type CODEC_STATE_VAR_HEADER (length pre) flags
        (Some (buf (pre ++ old))) (Some cb) ctx stored i) rest) Q h.
Proof.
  revert pre old. induction rest as [|b rest IH]; intros pre old Hne Hb Hl HQ; [done|].
  destruct old as [|x old]; [done|]. apply Forall_cons in Hb as [Hb Hbs].
  cbn [receive_bytes]. apply wp_bind. unfold receive_byte. cbn [codecState headerData].
  rewrite buf_u_char by by destruct pre. cbn [bufferOffset].
  eapply wp_bind, wp_lift; [apply write_byte_at; rewrite length_app; cbn; lia|].
  rewrite u8_id, insert_app_r_alt, Nat.sub_diag by (done || lia). cbn [insert list_insert].
  change (b :: old) with ([b] ++ old). rewrite app_assoc.
  cbn [set_bufferOffset set_headerData headerData bufferOffset].
  rewrite buf_length, !length_app. cbn [length] in *.
  destruct rest as [|b2 rest].
  - destruct old; [|done]. rewrite app_nil_r. cbn [length]. rewrite (proj2 (Nat.leb_le _ _)) by lia.
    apply wp_bind, wp_complete. eapply wp_mono; [exact HQ|]. intros ctx' h1 HQ'.
    apply wp_BUFFER_delete. rewrite blocks_cons by by destruct pre. intros h2 Hu.
    apply wp_ret, wp_ret. rewrite length_app in HQ'. by apply HQ'.
  - destruct old; [done|]. rewrite (proj2 (Nat.leb_gt _ _)) by (cbn; lia).
    apply wp_ret. replace (length pre + 1)%nat with (length (pre ++ [b])) by by rewrite length_app.
    apply (IH (pre ++ [b])); [done|done|cbn in *; lia|].
    by rewrite <- app_assoc.
Qed.

(** The bytes of the length field. *)
Lemma wp_receive_more type offset flags cb ctx stored i b (Q : status * Codec → Heap → Prop) h :
  (type =? UNKNOWN_TYPE) = false → (type =? PINGRESP_TYPE) = false →
  128 <= b < 256 → (i < length stored)%nat →
  Q (OK, mkCodec type CODEC_STATE_FIXED_HEADER offset flags None cb ctx (<[i := b]> stored) (i + 1)) h →
  wp (receive_byte (mkCodec type CODEC_STATE_FIXED_HEADER offset flags None cb ctx stored i) b) Q h.
Proof.
  intros Hu Hp Hb Hi HQ. unfold receive_byte. cbn [codecState currPacket]. rewrite Hu.
  apply wp_bind. unfold prepareheaderDataInfo. cbn [storeRemainLen remainLenIndex].
  eapply wp_bind, wp_lift; [by apply st8_Some|]. rewrite u8_id by (unfold is_u8; lia).
  rewrite (proj2 (Z.leb_gt _ _)) by lia. apply wp_ret. cbn [currPacket set_remainLen].
  rewrite Hp. by apply wp_ret.
Qed.

Lemma wp_receive_last type offset flags cb ctx stored i b n (Q : status * Codec → Heap → Prop) h :
  (type =? UNKNOWN_TYPE) = false → (type =? PINGRESP_TYPE) = false →
  0 <= b < 128 → (i < length stored)%nat → 0 < n →
  decode_length 5 (<[i := b]> stored) 0 1 0 = Some (OK, n) → plenty h →
  (∀ l h', zlen l = n → used 2 h h' →
     Q (OK, mkCodec type CODEC_STATE_VAR_HEADER 0 flags (Some (buf l)) cb ctx (replicate 4 0) 0) h') →
  wp (receive_byte (mkCodec type CODEC_STATE_FIXED_HEADER offset flags None cb ctx stored i) b) Q h.
Proof.
  intros Hu Hp Hb Hi Hn Hd Hh HQ. unfold receive_byte. cbn [codecState currPacket]. rewrite Hu.
  apply wp_bind. unfold prepareheaderDataInfo. cbn [storeRemainLen remainLenIndex].
  eapply wp_bind, wp_lift; [by apply st8_Some|]. rewrite u8_id by (unfold is_u8; lia).
  rewrite (proj2 (Z.leb_le _ _)) by lia.
  eapply wp_bind, wp_lift; [exact Hd|]. cbv beta iota zeta. rewrite (proj2 (Z.ltb_lt _ _)) by done.
  apply wp_bind, wp_BUFFER_new; [|by intros].
  intros h1 Hu1. apply wp_bind, wp_BUFFER_pre_build; [lia| |].
  - intros l h2 Hl Hu2. apply wp_ret.
    fields.
    rewrite Hp. apply wp_ret, HQ; [unfold zlen; lia|by eapply used_trans].
  - intros h2 _ []. by apply Hu1.
Qed.

Lemma wp_receive_length type offset flags cb ctx n (Q : status * Codec → Heap → Prop) h :
  (type =? UNKNOWN_TYPE) = false → (type =? PINGRESP_TYPE) = false →
  0 < n < max_received → plenty h →
  (∀ l h', zlen l = n → used 2 h h' →
     Q (OK, mkCodec type CODEC_STATE_VAR_HEADER 0 flags (Some (buf l)) cb ctx (replicate 4 0) 0) h') →
  wp (receive_bytes (mkCodec type CODEC_STATE_FIXED_HEADER offset flags None cb ctx (replicate 4 0) 0)
        (length_field n)) Q h.
Proof.
  intros Hu Hp Hn Hh HQ.
  destruct (length_field_shape n) as (more & last & E & Hl & Hmore & Hlast); [lia|].
  pose proof (decode_length_spec n (replicate (4 - length (length_field n)) 0) ltac:(lia)) as Hd.
  rewrite E in *. destruct more as [|a [|b [|]]]; [..|cbn in Hl; lia];
    repeat match goal with H : Forall _ (_ :: _) |- _ => apply Forall_cons in H as [? H] end;
    cbn [app receive_bytes].
  all: repeat (apply wp_bind, wp_receive_more; [done..|cbn; lia|]).
  all: apply wp_bind; eapply wp_receive_last; [done|done|done|cbn; lia| |exact Hd|done|]; [lia|].
  all: intros; by apply wp_ret, HQ.
Qed.

(** A whole packet. *)
Lemma wp_receive_packet p cb ctx c (Q : status * Codec → Heap → Prop) h :
  packet_ok p → bytes (pbody p) → idle cb ctx c → plenty h →
  (∀ h1, used (if pbody p is [] then 0 else 2) h h1 →
    wp (cb ctx (ptype p) (pflags p) (packet_data p)) (λ ctx' h2,
      ∀ c' h3, idle cb ctx' c' → used (if pbody p is [] then 0 else -2) h2 h3 → Q (OK, c') h3) h1) →
  wp (receive_bytes c (packet_frame p)) Q h.
Proof.
  intros [Hhead Hlen Hping] Hbody [offset ->] Hh HQ.
  destruct (header_byte _ _ Hhead) as [_ Eh]. pose proof (header_not_unknown _ _ Hhead) as Hu.
  unfold packet_frame, frame. cbn [receive_bytes]. apply wp_bind.
  unfold receive_byte at 1. cbn [codecState currPacket]. rewrite Z.eqb_refl, Eh. apply wp_ret.
  fields.
  destruct (pbody p) as [|x body] eqn:Eb.
  - cbn [app]. replace (length_field (zlen []) ++ []) with [0] by done. rewrite (proj2 Hping) in * by done.
    cbn [receive_bytes]. apply wp_bind. unfold receive_byte. cbn [codecState currPacket].
    change (PINGRESP_TYPE =? UNKNOWN_TYPE) with false. cbv iota. apply wp_bind.
    unfold prepareheaderDataInfo. cbn [storeRemainLen remainLenIndex].
    eapply wp_bind, wp_lift; [apply st8_Some; cbn; lia|]. cbn [Z.leb Z.compare]. eapply wp_bind, wp_lift; [done|].
    apply wp_ret. fields.
    rewrite Z.eqb_refl. apply wp_bind, wp_complete. unfold packet_data in HQ. rewrite Eb in HQ.
    eapply wp_mono; [apply (HQ h), used_refl|]. intros ctx' h2 HQ'. apply wp_ret, wp_ret.
    apply wp_ret, HQ'; [by eexists|apply used_refl].
  - assert ((ptype p =? PINGRESP_TYPE) = false) as Hp.
    { apply Z.eqb_neq. intros E. by apply Hping in E. }
    assert (0 < zlen (pbody p)) as Hpos by (rewrite Eb; unfold zlen; cbn; lia).
    rewrite <- Eb in *. apply wp_st_eq with (d := '(r, c) ← receive_bytes
      (mkCodec (ptype p) CODEC_STATE_FIXED_HEADER offset (pflags p) None (Some cb) ctx (replicate 4 0) 0)
      (length_field (zlen (pbody p)));
      match r with FAILURE => mret (FAILURE, c) | OK => receive_bytes c (pbody p) end).
    { intros. apply receive_bytes_app. }
    apply wp_bind, wp_receive_length; [done..|].
    intros l h1 Hl Hu1. change l with ([] ++ l).
    apply (wp_receive_body _ _ _ _ _ _ []); [by rewrite Eb|done|unfold zlen in *; lia|].
    cbn [app]. unfold packet_data in HQ. destruct (pbody p) as [|y k] eqn:Ek; [done|].
    eapply wp_mono; [by apply HQ|]. intros ctx' h2 HQ' h3 Hu3. apply HQ'; [by eexists|done].
Qed.

(** ** A stream of packets *)

(** The items [X] of the stream have packets [pk]. *)
Section stream.
Context {X : Type} (pk : X → packet).
Variables (good : C → Prop) (step : C → X → C → Prop).

(** The contexts after the packets have been delivered in order. *)
Inductive delivered : C → list X → C → Prop :=
  | delivered_nil ctx : delivered ctx [] ctx
  | delivered_cons ctx ctx1 ctx2 x xs :
      step ctx x ctx1 → delivered ctx1 xs ctx2 → delivered ctx (x :: xs) ctx2.

(** In a good context the callback takes the packet of [x] as [step] says. *)
Definition takes (cb : ON_PACKET_COMPLETE_CALLBACK C) (x : X) : Prop := ∀ ctx h,
  good ctx → plenty h →
  wp (cb ctx (ptype (pk x)) (pflags (pk x)) (packet_data (pk x)))
    (λ ctx' h', good ctx' ∧ step ctx x ctx' ∧ used 0 h h') h.

Definition stream (xs : list X) : list Z := concat ((λ x, packet_frame (pk x)) <$> xs).

Lemma wp_receive_stream xs cb ctx c h :
  Forall (λ x, packet_ok (pk x) ∧ bytes (pbody (pk x)) ∧ takes cb x) xs → idle cb ctx c →
  good ctx → plenty h →
  wp (receive_bytes c (stream xs)) (λ '(r, c') h', r = OK ∧
    ∃ ctx', idle cb ctx' c' ∧ good ctx' ∧ delivered ctx xs ctx' ∧ used 0 h h') h.
Proof.
  intros Hps. revert ctx c h. induction Hps as [|x xs (Hp & Hb & Hcb) _ IH]; intros ctx c h Hc Hg Hh.
  - apply wp_ret. split; [done|]. exists ctx. split; [done|]. split; [done|]. split; [constructor|apply used_refl].
  - unfold stream. cbn [fmap list_fmap concat]. eapply wp_st_eq; [intros; apply receive_bytes_app|].
    apply wp_bind. eapply wp_receive_packet; [done..|]. intros h1 Hu1.
    eapply wp_mono; [apply Hcb; [done|apply Hu1, Hh]|]. intros ctx1 h2 (Hg1 & Hstep & Hu2) c1 h3 Hc1 Hu3.
    assert (used 0 h h3) as Hu.
    { eapply used_trans; [exact Hu1|eapply used_trans; [exact Hu2|exact Hu3|reflexivity]|].
      by destruct (pbody (pk x)). }
    eapply wp_mono; [apply (IH ctx1 c1 h3 Hc1 Hg1), Hu, Hh|].
    intros [r c'] h' (-> & ctx' & Hc' & Hg' & Hd & Hu'). split; [done|]. exists ctx'.
    split; [done|]. split; [done|]. split; [by econstructor|by eapply used_trans].
Qed.
End stream.

(** ** Any bytes *)

(** The states the decoder can be in. *)
Record codec_wf c : Prop := {
  wf_stored : length (storeRemainLen c) = 4%nat;
  wf_index : (remainLenIndex c <= 4)%nat;
  wf_data : match codecState c with
            | CODEC_STATE_VAR_HEADER =>
                remainLenIndex c = 0%nat ∧
                (headerData c = None ∨ headerData c = Some (buf []) ∨
                 ∃ l, headerData c = Some (buf l) ∧ (bufferOffset c < length l)%nat)
            | _ => headerData c = None
            end }.

(** The next byte would be the fifth of a length field. *)
Definition fifth_byte c : Prop :=
  codecState c = CODEC_STATE_FIXED_HEADER ∧ currPacket c ≠ UNKNOWN_TYPE ∧ remainLenIndex c = 4%nat.

(** The callback never goes wrong. *)
Definition always_defined (callback : option (ON_PACKET_COMPLETE_CALLBACK C)) : Prop :=
  match callback with
  | None => True
  | Some cb => ∀ ctx type flags hd h, wp (cb ctx type flags hd) (λ _ _, True) h
  end.

Lemma idle_wf cb ctx c : idle cb ctx c → codec_wf c.
Proof. intros [offset ->]. by split; cbn; lia || done. Qed.

Lemma wp_complete_wf c h :
  length (storeRemainLen c) = 4%nat → (remainLenIndex c <= 4)%nat →
  always_defined (packetComplete c) →
  wp (completePacketData c) (λ c' _, codec_wf c' ∧ packetComplete c' = packetComplete c) h.
Proof.
  intros Hs Hi Hd. apply wp_bind.
  assert (∀ c h, length (storeRemainLen c) = 4%nat → (remainLenIndex c <= 4)%nat →
    wp (BUFFER_delete (headerData c);; mret (set_headerData None (set_headerFlags 0
          (set_codecState CODEC_STATE_FIXED_HEADER (set_currPacket UNKNOWN_TYPE c)))))
      (λ c' _, codec_wf c' ∧ packetComplete c' = packetComplete c) h) as Hclean.
  { clear. intros c h Hs Hi. apply wp_bind. destruct (headerData c) as [b|]; [|apply wp_ret, wp_ret; by split].
    apply wp_bind, wp_free. intros h1 _. apply wp_free_struct. intros h2 _. apply wp_ret. by split. }
  destruct (packetComplete c) as [cb|] eqn:E.
  - apply wp_bind. eapply wp_mono; [apply Hd|]. intros ctx' h' _. apply wp_ret.
    rewrite <- E. by apply (Hclean (set_callContext ctx' c)).
  - apply wp_ret. rewrite <- E. by apply Hclean.
Qed.

Lemma prepare_wf c b h :
  codec_wf c → codecState c = CODEC_STATE_FIXED_HEADER → (remainLenIndex c < 4)%nat →
  wp (prepareheaderDataInfo c b) (λ '(_, c') _,
    codec_wf c' ∧ packetComplete c' = packetComplete c) h.
Proof.
  intros [Hs Hi Hd] Hc Hlt. rewrite Hc in Hd. unfold prepareheaderDataInfo.
  eapply wp_bind, wp_lift; [apply st8_Some; lia|].
  case_match; [|by apply wp_ret; split; [split; fields; rewrite ?length_insert, ?Hc; (done || lia)|]].
  destruct (decode_length_total (<[remainLenIndex c := u8 b]> (storeRemainLen c))) as [[r n] E];
    [by rewrite length_insert|].
  eapply wp_bind, wp_lift; [exact E|]. cbv beta iota zeta. destruct (Z.ltb_spec 0 n) as [Hn|Hn].
  - apply wp_bind, wp_BUFFER_new.
    + intros h1 _. apply wp_bind, wp_BUFFER_pre_build; [lia|..].
      * intros l h2 Hl _. apply wp_ret. split; [split; fields; [done|lia|]|done].
        split; [done|]. right. right. exists l. split; [done|lia].
      * intros h2 _ _. apply wp_ret. split; [split; fields; [done|lia|]|done]. auto.
    + intros h1 _ _. apply wp_ret. split; [split; fields; [done|lia|]|done]. auto.
  - apply wp_ret. split; [split; fields; [done|lia|]|done]. auto.
Qed.

Lemma receive_byte_wf c b h :
  codec_wf c → always_defined (packetComplete c) → ¬ fifth_byte c →
  wp (receive_byte c b) (λ '(_, c') _, codec_wf c' ∧ packetComplete c' = packetComplete c) h.
Proof.
  intros Hw Hd Hf. pose proof Hw as [Hs Hi Hh]. unfold receive_byte.
  destruct (codecState c) eqn:Ec.
  - destruct (Z.eqb_spec (currPacket c) UNKNOWN_TYPE) as [Eu|Hu].
    + cbn [processControlPacketType]. apply wp_ret. split; [|done].
      split; fields; [done|done|by rewrite Ec].
    + apply wp_bind. eapply wp_mono; [apply prepare_wf; [done|done|]|].
      { assert (remainLenIndex c ≠ 4%nat) by by intros E4; apply Hf. lia. }
      intros [r c1] h1 [Hw1 Ep]. rewrite <- Ep in Hd |- *. clear -Hw1 Hd.
      destruct r; cbv beta iota.
      * case_match; [|by apply wp_ret]. apply wp_bind.
        eapply wp_mono; [apply wp_complete_wf; by try apply Hw1|]. intros c2 h2 [??]. by apply wp_ret.
      * assert (codec_wf (set_currPacket PACKET_TYPE_ERROR c1)) as Hw2 by (destruct Hw1; by split).
        case_match; [|by apply wp_ret]. apply wp_bind.
        eapply wp_mono; [apply wp_complete_wf; by try apply Hw2|]. intros c2 h2 [??]. by apply wp_ret.
  - destruct Hh as [Hi0 [Hn|[Hb|(l & Hl & Hlt)]]].
    + rewrite Hn. apply wp_ret. split; [|done]. split; fields; done.
    + rewrite Hb. apply wp_ret. split; [|done]. split; fields; [done|done|]. rewrite Ec. auto.
    + rewrite Hl. assert (l ≠ []) as Hne by (intros ->; cbn in Hlt; lia).
      rewrite buf_u_char by done.
      eapply wp_bind, wp_lift; [by apply write_byte_at|].
      fields. rewrite buf_length, length_insert. destruct (Nat.leb_spec (length l) (bufferOffset c + 1)).
      * apply wp_bind. eapply wp_mono; [by apply wp_complete_wf|]. intros c2 h2 Hc2. by apply wp_ret.
      * apply wp_ret. split; [|done]. split; fields; [done|done|]. rewrite Ec. split; [done|].
        right. right. eexists. split; [done|]. rewrite length_insert. lia.
  - apply wp_ret. split; [|done]. split; fields; [done|done|by rewrite Ec].
Qed.

Lemma receive_byte_fifth c b h : codec_wf c → fifth_byte c → receive_byte c b h = None.
Proof.
  intros [Hs _ _] (Hc & Hu & Hi). unfold receive_byte. rewrite Hc, (proj2 (Z.eqb_neq _ _)) by done.
  rewrite st_bind_eq. unfold prepareheaderDataInfo. rewrite st_lift_bind.
  unfold st8. by rewrite Hs, Hi.
Qed.

(** The decoder goes wrong exactly at a fifth length byte. *)
Lemma receive_bytes_wf c l h :
  codec_wf c → always_defined (packetComplete c) →
  wp (receive_bytes c l) (λ '(_, c') _, codec_wf c') h ∨
  receive_bytes c l h = None ∧
  ∃ n c' h', (n < length l)%nat ∧ receive_bytes c (take n l) h = Some ((OK, c'), h') ∧ fifth_byte c'.
Proof.
  revert c h. induction l as [|b l IH]; intros c h Hw Hd; [left; by apply wp_ret|].
  assert (Decision (fifth_byte c)) as [Hf|Hf] by (unfold fifth_byte; apply _).
  - right. split; [cbn [receive_bytes]; by rewrite st_bind_eq, receive_byte_fifth|].
    exists 0%nat, c, h. split; [cbn; lia|done].
  - destruct (receive_byte_wf c b h Hw Hd Hf) as ([r c1] & h1 & E & Hw1 & Ep).
    destruct r.
    + destruct (IH c1 h1) as [Hok|(Hn & n & c' & h' & Hlt & E' & Hf')]; [done|by rewrite Ep|left|right].
      * apply wp_bind. exists (OK, c1), h1. by split.
      * split; [cbn [receive_bytes]; by rewrite st_bind_eq, E|].
        exists (S n), c', h'. split; [cbn; lia|]. split; [|done]. cbn [take receive_bytes].
        by rewrite st_bind_eq, E.
    + left. apply wp_bind. exists (FAILURE, c1), h1. split; [done|]. by apply wp_ret.
Qed.
End receive.
