(* ===== verification/MqttMessage.v ===== *)
(** * MqttMessage: MQTT messages.

    [src/umqtt/src/mqtt_message.c].  A message either owns copies of its topic and
    payload or, created in place, refers to those of its creator.  A handle is the
    message it points to, [None] is NULL; the setters return the changed message. *)
From S2P Require Import Prelude.
From stdpp Require Import strings.
From S2P Require Import Effects.
From S2P Require Import Alloc.
From S2P Require Import CString.
From S2P Require Import MqttCodec.
#[local] Open Scope Z_scope.

Record APP_PAYLOAD := mkPayload { message : option (list Z); payload_length : nat }.

Record MQTT_MESSAGE := mkMessage {
  msg_packetId : Z;
  qosInfo : Z;
  msg_topicName : option (list Z);
  appPayload : APP_PAYLOAD;
  const_topic_name : option (list Z);
  const_payload : APP_PAYLOAD;
  isDuplicateMsg : bool;
  isMessageRetained : bool }.

#[warnings="-notation-for-abbreviation"] Notation MQTT_MESSAGE_HANDLE := (option MQTT_MESSAGE).

(** [mallocAndStrcpy_s]: a copy of the string; NULL after a failure. *)
Definition mallocAndStrcpy_s (source : list Z) : Alloc (option (list Z)) :=
  temp ← malloc (length source + 1);
  mret (match temp with None => None | Some _ => Some source end).

Definition no_payload : APP_PAYLOAD := mkPayload None 0.

Definition mqttmessage_create_in_place (packetId : Z) (topicName : option (list Z)) (qosValue : Z)
    (appMsg : option (list Z)) (appMsgLength : nat) : Alloc MQTT_MESSAGE_HANDLE :=
  match topicName with
  | None => mret None
  | Some _ =>
      result ← malloc_struct;
      mret (if (result : bool) then
        Some (mkMessage packetId qosValue None no_payload topicName
                (mkPayload (if (0 <? appMsgLength)%nat then appMsg else None) appMsgLength)
                false false)
      else None)
  end.

Definition mqttmessage_create (packetId : Z) (topicName : option (list Z)) (qosValue : Z)
    (appMsg : option (list Z)) (appMsgLength : nat) : Alloc MQTT_MESSAGE_HANDLE :=
  match topicName with
  | None => mret None
  | Some source =>
      result ← malloc_struct;
      if (result : bool) then
        topic ← mallocAndStrcpy_s source;
        match topic with
        | None => free_struct;; mret None
        | Some _ =>
            let made payload :=
              Some (mkMessage packetId qosValue topic (mkPayload payload appMsgLength) None
                      no_payload false false) in
            if (0 <? appMsgLength)%nat then
              blk ← malloc appMsgLength;
              match blk with
              | None => free topic;; free_struct;; mret None
              | Some _ =>
                  blk ← lift (copy_to blk 0 appMsg appMsgLength);
                  mret (made blk)
              end
            else mret (made None)
        end
      else mret None
  end.

Definition mqttmessage_destroy (handle : MQTT_MESSAGE_HANDLE) : Alloc unit :=
  match handle with
  | None => mret tt
  | Some msgInfo =>
      free (msg_topicName msgInfo);; free (message (appPayload msgInfo));; free_struct
  end.

Definition mqttmessage_getPacketId (handle : MQTT_MESSAGE_HANDLE) : Z :=
  match handle with None => 0 | Some msgInfo => msg_packetId msgInfo end.

Definition mqttmessage_getTopicName (handle : MQTT_MESSAGE_HANDLE) : option (list Z) :=
  match handle with
  | None => None
  | Some msgInfo =>
      match msg_topicName msgInfo with
      | None => const_topic_name msgInfo
      | Some _ => msg_topicName msgInfo
      end
  end.

Definition mqttmessage_getQosType (handle : MQTT_MESSAGE_HANDLE) : Z :=
  match handle with None => DELIVER_AT_MOST_ONCE | Some msgInfo => qosInfo msgInfo end.

Definition mqttmessage_getIsDuplicateMsg (handle : MQTT_MESSAGE_HANDLE) : bool :=
  match handle with None => false | Some msgInfo => isDuplicateMsg msgInfo end.

Definition mqttmessage_getIsRetained (handle : MQTT_MESSAGE_HANDLE) : bool :=
  match handle with None => false | Some msgInfo => isMessageRetained msgInfo end.

Definition mqttmessage_setIsDuplicateMsg (handle : MQTT_MESSAGE_HANDLE) (duplicateMsg : bool)
    : status * MQTT_MESSAGE_HANDLE :=
  match handle with
  | None => (FAILURE, None)
  | Some m =>
      (OK, Some (mkMessage (msg_packetId m) (qosInfo m) (msg_topicName m) (appPayload m)
                   (const_topic_name m) (const_payload m) duplicateMsg (isMessageRetained m)))
  end.

Definition mqttmessage_setIsRetained (handle : MQTT_MESSAGE_HANDLE) (retainMsg : bool)
    : status * MQTT_MESSAGE_HANDLE :=
  match handle with
  | None => (FAILURE, None)
  | Some m =>
      (OK, Some (mkMessage (msg_packetId m) (qosInfo m) (msg_topicName m) (appPayload m)
                   (const_topic_name m) (const_payload m) (isDuplicateMsg m) retainMsg))
  end.

Definition mqttmessage_clone (handle : MQTT_MESSAGE_HANDLE) : Alloc MQTT_MESSAGE_HANDLE :=
  match handle with
  | None => mret None
  | Some m =>
      result ← mqttmessage_create (msg_packetId m) (msg_topicName m) (qosInfo m)
                 (message (appPayload m)) (payload_length (appPayload m));
      match result with
      | None => mret None
      | Some _ =>
          let '(_, result) := mqttmessage_setIsDuplicateMsg result (isDuplicateMsg m) in
          let '(_, result) := mqttmessage_setIsRetained result (isMessageRetained m) in
          mret result
      end
  end.

Definition mqttmessage_getApplicationMsg (handle : MQTT_MESSAGE_HANDLE) : option APP_PAYLOAD :=
  match handle with
  | None => None
  | Some msgInfo =>
      Some (if (0 <? payload_length (const_payload msgInfo))%nat then const_payload msgInfo
            else appPayload msgInfo)
  end.

(** ** Reasoning *)

(** The message that owns these copies. *)
Definition owned (packetId qos : Z) (topic payload : list Z) (dup retain : bool) : MQTT_MESSAGE :=
  mkMessage packetId qos (Some topic)
    (mkPayload (match payload with [] => None | _ => Some payload end) (length payload))
    None no_payload dup retain.

(** Number of its memory blocks. *)
Definition msg_blocks (payload : list Z) : Z := match payload with [] => 2 | _ => 3 end.

Lemma wp_mallocAndStrcpy_s s (Q : option (list Z) → Heap → Prop) h :
  (∀ h', used 1 h h' → Q (Some s) h') →
  (∀ h', used 0 h h' → ¬ plenty h → Q None h') →
  wp (mallocAndStrcpy_s s) Q h.
Proof. intros HS HN. apply wp_bind, wp_malloc; intros; apply wp_ret; auto. Qed.

Lemma wp_create packetId qos topic blk payload (Q : MQTT_MESSAGE_HANDLE → Heap → Prop) h :
  take (length payload) blk = payload →
  (∀ h', used (msg_blocks payload) h h' →
     Q (Some (owned packetId qos topic payload false false)) h') →
  (∀ h', used 0 h h' → ¬ plenty h → Q None h') →
  wp (mqttmessage_create packetId (Some topic) qos (Some blk) (length payload)) Q h.
Proof.
  intros Hblk HS HN. apply wp_bind, wp_malloc_struct; [|intros; apply wp_ret; auto].
  intros h1 Hu1. apply wp_bind, wp_mallocAndStrcpy_s; cycle 1.
  { intros h2 Hu2 Hp. apply wp_bind, wp_free_struct. intros h3 Hu3. apply wp_ret, HN.
    - eapply used_trans; [done|by eapply used_trans|done].
    - intros Hp1. by apply Hp, Hu1. }
  intros h2 Hu2. assert (used 2 h h2) as Hu by by eapply used_trans.
  destruct (Nat.ltb_spec 0 (length payload)) as [Hn|Hn].
  - assert (payload ≠ []) as Hne by by intros ->; cbn in Hn; lia.
    apply wp_bind, wp_malloc.
    + intros k h3 Hk Hu3. eapply wp_bind, wp_lift.
      { apply copy_to_spec; [lia|]. rewrite <- Hblk at 1. rewrite length_take. lia. }
      apply wp_ret. rewrite Hblk. unfold splice. rewrite take_0, drop_ge, app_nil_r by (cbn; lia).
      unfold owned in HS. destruct payload as [|x k']; [done|]. apply HS. by eapply used_trans.
    + intros h3 Hu3 Hp. apply wp_bind, wp_free. intros h4 Hu4.
      apply wp_bind, wp_free_struct. intros h5 Hu5. apply wp_ret, HN.
      * eapply used_trans; [exact Hu|eapply used_trans; [exact Hu3|by eapply used_trans|reflexivity]|done].
      * intros Hp1. by apply Hp, Hu.
  - destruct payload; [|cbn in Hn; lia]. apply wp_ret. by apply HS.
Qed.

Lemma wp_destroy packetId qos topic payload dup retain (Q : unit → Heap → Prop) h :
  (∀ h', used (- msg_blocks payload) h h' → Q tt h') →
  wp (mqttmessage_destroy (Some (owned packetId qos topic payload dup retain))) Q h.
Proof.
  intros HQ. apply wp_bind, wp_free. intros h1 Hu1. apply wp_bind, wp_free. intros h2 Hu2.
  apply wp_free_struct. intros h3 Hu3. apply HQ.
  eapply used_trans; [done|by eapply used_trans|]. by destruct payload.
Qed.
