(* ===== verification/OptionHandler.v ===== *)
(** * OptionHandler: options that are kept for later.

    [src/c-utility/src/optionhandler.c]: a handler keeps copies of named values in a
    vector ([Vector]) and feeds them to another module.  What a value is ([V]) and the
    module it is fed to ([T]) belong to the module that made the handler; its three
    functions are fields of the handler.  [holding] relates a handler to the list of its
    options; the laws of the functions are the class [OptionLaws]. *)
From S2P Require Import Prelude.
From S2P Require Import Effects.
From S2P Require Import Alloc.
From S2P Require Import CString.
From S2P Require Import Vector.
From S2P Require Import MqttMessage.

Inductive OPTIONHANDLER_RESULT := OPTIONHANDLER_OK | OPTIONHANDLER_ERROR | OPTIONHANDLER_INVALIDARG.

#[export] Instance optionhandler_result_eq_dec : EqDecision OPTIONHANDLER_RESULT.
Proof. solve_decision. Defined.

(** [storage]: the copy of the value, in a block of its own. *)
Record OPTION (V : Type) := mkOption { name : list Z; option_storage : V }.
#[global] Arguments mkOption {V} _ _.
#[global] Arguments name {V} _.
#[global] Arguments option_storage {V} _.

(** [sizeof(OPTION)]: two pointers. *)
Definition sizeof_OPTION : nat := 16.

Record OPTIONHANDLER_HANDLE_DATA (V T : Type) := mkHandler {
  cloneOption : list Z → V → Alloc (option V);
  destroyOption : list Z → V → Alloc unit;
  setOption : T → list Z → V → option (status * T);
  options : VECTOR (OPTION V) }.
#[global] Arguments mkHandler {V T} _ _ _ _.
#[global] Arguments cloneOption {V T} _ _ _.
#[global] Arguments destroyOption {V T} _ _ _.
#[global] Arguments setOption {V T} _ _ _ _.
#[global] Arguments options {V T} _.

Section handler.
Context `{Arch} {V T : Type}.
#[warnings="-notation-for-abbreviation"] Notation DATA := (OPTIONHANDLER_HANDLE_DATA V T).
#[warnings="-notation-for-abbreviation"] Notation HANDLE := (option DATA).
Implicit Types d : DATA.

Definition set_options v d : DATA := mkHandler (cloneOption d) (destroyOption d) (setOption d) v.

Definition CreateInternal (clone : list Z → V → Alloc (option V)) (destroy : list Z → V → Alloc unit)
    (set : T → list Z → V → option (status * T)) : Alloc HANDLE :=
  result ← malloc_struct;
  if (result : bool) then
    storage ← VECTOR_create sizeof_OPTION;
    match storage with
    | None => free_struct;; mret None
    | Some v => mret (Some (mkHandler clone destroy set v))
    end
  else mret None.

(** The handler changes only when the option was added. *)
Definition AddOptionInternal d (optionName : list Z) (value : V) : Alloc (OPTIONHANDLER_RESULT * DATA) :=
  cloneOfName ← mallocAndStrcpy_s optionName;
  match cloneOfName with
  | None => mret (OPTIONHANDLER_ERROR, d)
  | Some cloneOfName =>
      cloneOfValue ← cloneOption d optionName value;
      match cloneOfValue with
      | None => free (Some cloneOfName);; mret (OPTIONHANDLER_ERROR, d)
      | Some cloneOfValue =>
          '(r, v) ← VECTOR_push_back (Some (options d)) (Some [mkOption cloneOfName cloneOfValue]) 1;
          v ← lift v;
          match r with
          | FAILURE =>
              destroyOption d optionName cloneOfValue;; free (Some cloneOfName);;
              mret (OPTIONHANDLER_ERROR, set_options v d)
          | OK => mret (OPTIONHANDLER_OK, set_options v d)
          end
      end
  end.

Fixpoint destroy_options (n i : nat) d : Alloc unit :=
  match n with
  | O => mret tt
  | S n =>
      o ← lift (element_at (Some (options d)) (VECTOR_element (Some (options d)) i));
      destroyOption d (name o) (option_storage o);;
      free (Some (name o));;
      destroy_options n (S i) d
  end.

Definition DestroyInternal d : Alloc unit :=
  destroy_options (VECTOR_size (Some (options d))) 0 d;;
  VECTOR_destroy (Some (options d));;
  free_struct.

Definition OptionHandler_Create (clone : option (list Z → V → Alloc (option V)))
    (destroy : option (list Z → V → Alloc unit)) (set : option (T → list Z → V → option (status * T))) : Alloc HANDLE :=
  match clone, destroy, set with
  | Some clone, Some destroy, Some set => CreateInternal clone destroy set
  | _, _, _ => mret None
  end.

(** The options of [source] from [i] on are added to [d]; whether all were. *)
Fixpoint clone_options (n i : nat) (source d : DATA) : Alloc (bool * DATA) :=
  match n with
  | O => mret (true, d)
  | S n =>
      o ← lift (element_at (Some (options source)) (VECTOR_element (Some (options source)) i));
      '(r, d) ← AddOptionInternal d (name o) (option_storage o);
      match r with
      | OPTIONHANDLER_OK => clone_options n (S i) source d
      | _ => mret (false, d)
      end
  end.

Definition OptionHandler_Clone (handler : HANDLE) : Alloc HANDLE :=
  match handler with
  | None => mret None
  | Some source =>
      result ← CreateInternal (cloneOption source) (destroyOption source) (setOption source);
      match result with
      | None => mret None
      | Some d =>
          '(all, d) ← clone_options (VECTOR_size (Some (options source))) 0 source d;
          if (all : bool) then mret (Some d) else DestroyInternal d;; mret None
      end
  end.

Definition OptionHandler_AddOption (handle : HANDLE) (optionName : option (list Z)) (value : option V)
    : Alloc (OPTIONHANDLER_RESULT * HANDLE) :=
  match handle, optionName, value with
  | Some d, Some optionName, Some value =>
      '(r, d) ← AddOptionInternal d optionName value;
      mret (r, Some d)
  | _, _, _ => mret (OPTIONHANDLER_INVALIDARG, handle)
  end.

(** The options from [i] on are set, until one is refused. *)
Fixpoint feed_options (n i : nat) d (destination : T) : option (OPTIONHANDLER_RESULT * T) :=
  match n with
  | O => Some (OPTIONHANDLER_OK, destination)
  | S n =>
      o ← element_at (Some (options d)) (VECTOR_element (Some (options d)) i);
      '(r, destination) ← setOption d destination (name o) (option_storage o);
      match r with
      | OK => feed_options n (S i) d destination
      | FAILURE => Some (OPTIONHANDLER_ERROR, destination)
      end
  end.

Definition OptionHandler_FeedOptions (handle : HANDLE) (destinationHandle : option T)
    : option (OPTIONHANDLER_RESULT * option T) :=
  match handle, destinationHandle with
  | Some d, Some t =>
      '(r, t) ← feed_options (VECTOR_size (Some (options d))) 0 d t;
      Some (r, Some t)
  | _, _ => Some (OPTIONHANDLER_INVALIDARG, destinationHandle)
  end.

Definition OptionHandler_Destroy (handle : HANDLE) : Alloc unit :=
  match handle with None => mret tt | Some d => DestroyInternal d end.

(** ** What the functions of a handler promise *)

(** For the names it [knows] a value is copied to a block of its own, which is freed. *)
Class OptionLaws (knows : list Z → Prop) d : Prop := {
  clone_law n v (Q : option V → Heap → Prop) h : knows n →
    (∀ h', used 1 h h' → Q (Some v) h') → (∀ h', used 0 h h' → ¬ plenty h → Q None h') →
    wp (cloneOption d n v) Q h;
  destroy_law n v (Q : unit → Heap → Prop) h : knows n →
    (∀ h', used (-1) h h' → Q tt h') → wp (destroyOption d n v) Q h }.

(** [d] holds the options [l]. *)
Record holding d (l : list (list Z * V)) : Prop := {
  holding_options : vec_is (options d) ((λ o, mkOption o.1 o.2) <$> l);
  holding_size : elementSize (options d) = sizeof_OPTION }.

(** Its blocks: itself, its vector, and two for each option. *)
Definition handler_blocks (l : list (list Z * V)) : Z :=
  match l with [] => 2 | _ => 3 + 2 * Z.of_nat (length l) end.

Lemma vec_blocks_fmap {A B} (f : A → B) l : vec_blocks (f <$> l) = vec_blocks l.
Proof. by destruct l. Qed.

Lemma handler_blocks_eq l : handler_blocks l = 1 + vec_blocks l + 2 * Z.of_nat (length l).
Proof. destruct l; [done|]. cbn [handler_blocks vec_blocks]. lia. Qed.

(** The functions stay. *)
Definition same_functions d d' : Prop :=
  cloneOption d' = cloneOption d ∧ destroyOption d' = destroyOption d ∧ setOption d' = setOption d.

#[export] Instance same_functions_pre : PreOrder same_functions.
Proof. split; [by split|]. intros d1 d2 d3 (? & ? & ?) (? & ? & ?). split_and!; congruence. Qed.

Lemma laws_same knows d d' : same_functions d d' → OptionLaws knows d → OptionLaws knows d'.
Proof. intros (E1 & E2 & E3) [Hc Hd]. split; rewrite ?E1, ?E2; done. Qed.

Lemma set_options_same v d : same_functions d (set_options v d).
Proof. by split_and!. Qed.

Lemma wp_CreateInternal clone destroy set (Q : HANDLE → Heap → Prop) h :
  (∀ v h', holding (mkHandler clone destroy set v) [] → used 2 h h' → Q (Some (mkHandler clone destroy set v)) h') →
  (∀ h', used 0 h h' → ¬ plenty h → Q None h') →
  wp (CreateInternal clone destroy set) Q h.
Proof.
  intros HS HN. apply wp_bind, wp_malloc_struct; intros h1 Hu1; cycle 1.
  { intros Hp. by apply wp_ret, HN. }
  apply wp_bind, wp_VECTOR_create; [unfold sizeof_OPTION; lia| |].
  - intros v h2 Hv Es Hu2. apply wp_ret, HS; [by split|]. eapply used_trans; [exact Hu1|exact Hu2|done].
  - intros h2 Hu2 Hp. apply wp_bind, wp_free_struct. intros h3 Hu3. apply wp_ret, HN.
    + eapply used_trans; [exact Hu1|eapply used_trans; [exact Hu2|exact Hu3|done]|done].
    + intros Hpl. apply Hp. by apply Hu1.
Qed.

Lemma wp_AddOptionInternal knows d l n v (Q : OPTIONHANDLER_RESULT * DATA → Heap → Prop) h :
  OptionLaws knows d → knows n → holding d l → Z.of_nat (sizeof_OPTION * (length l + 1)) < size_mod →
  (∀ d' h', same_functions d d' → holding d' (l ++ [(n, v)]) →
     used (handler_blocks (l ++ [(n, v)]) - handler_blocks l) h h' → Q (OPTIONHANDLER_OK, d') h') →
  (∀ h', used 0 h h' → ¬ plenty h → Q (OPTIONHANDLER_ERROR, d) h') →
  wp (AddOptionInternal d n v) Q h.
Proof.
  intros Hlaws Hk [Ho Hsz] Hlen HS HN. apply wp_bind, wp_mallocAndStrcpy_s; cycle 1.
  { intros h1 Hu1 Hp. by apply wp_ret, HN. }
  intros h1 Hu1. apply wp_bind. apply (clone_law (knows:=knows)); [done| |]; cycle 1.
  { intros h2 Hu2 Hp. apply wp_bind, wp_free. intros h3 Hu3. apply wp_ret, HN.
    - eapply used_trans; [exact Hu1|eapply used_trans; [exact Hu2|exact Hu3|done]|done].
    - intros Hpl. apply Hp. by apply Hu1. }
  intros h2 Hu2. apply wp_bind. eapply (wp_VECTOR_push_back _ _ [mkOption n v]); [exact Ho|done| | |].
  - rewrite Hsz, length_fmap. exact Hlen.
  - intros w h3 Hw Es Hu3. apply wp_bind. eapply wp_lift; [reflexivity|]. apply wp_ret, HS.
    + apply set_options_same.
    + split; [|by rewrite <- Hsz]. rewrite fmap_app. exact Hw.
    + eapply used_trans; [exact Hu1|eapply used_trans; [exact Hu2|exact Hu3|done]|].
      change [mkOption n v] with ((λ o : list Z * V, mkOption o.1 o.2) <$> [(n, v)]).
      rewrite <- fmap_app, !vec_blocks_fmap, !handler_blocks_eq, length_app. cbn [length]. lia.
  - intros h3 Hu3 Hp. apply wp_bind. eapply wp_lift; [reflexivity|]. apply wp_bind, (destroy_law (knows:=knows)); [done|].
    intros h4 Hu4. apply wp_bind, wp_free. intros h5 Hu5. apply wp_ret.
    replace (set_options (options d) d) with d by by destruct d. apply HN.
    + eapply used_trans; [exact Hu1|eapply used_trans; [exact Hu2|eapply used_trans; [exact Hu3|
        eapply used_trans; [exact Hu4|exact Hu5|done]|done]|done]|done].
    + intros Hpl. apply Hp. by apply Hu2, Hu1.
Qed.

Lemma holding_element d l i : holding d l →
  element_at (Some (options d)) (VECTOR_element (Some (options d)) i) = (λ o, mkOption o.1 o.2) <$> l !! i.
Proof. intros [Ho _]. by rewrite (element_spec _ _ _ Ho), list_lookup_fmap. Qed.

Lemma wp_destroy_options knows d l n i (Q : unit → Heap → Prop) h :
  OptionLaws knows d → Forall (λ o, knows o.1) l → holding d l → (n + i = length l)%nat →
  (∀ h', used (- (2 * Z.of_nat n)) h h' → Q tt h') → wp (destroy_options n i d) Q h.
Proof.
  intros Hlaws Hk Hd. revert i h Q. induction n as [|n IH]; intros i h Q Hn HQ; cbn [destroy_options].
  - by apply wp_ret, HQ, used_refl.
  - destruct (lookup_lt_is_Some_2 l i) as [o Eo]; [lia|]. apply wp_bind.
    eapply wp_lift; [by rewrite (holding_element _ _ _ Hd), Eo|]. apply wp_bind, (destroy_law (knows:=knows)).
    { exact (proj1 (Forall_lookup _ _) Hk _ _ Eo). }
    intros h1 Hu1. apply wp_bind, wp_free. intros h2 Hu2. apply IH; [lia|]. intros h3 Hu3. apply HQ.
    eapply used_trans; [exact Hu1|eapply used_trans; [exact Hu2|exact Hu3|done]|lia].
Qed.

Lemma wp_DestroyInternal knows d l (Q : unit → Heap → Prop) h :
  OptionLaws knows d → Forall (λ o, knows o.1) l → holding d l →
  (∀ h', used (- handler_blocks l) h h' → Q tt h') → wp (DestroyInternal d) Q h.
Proof.
  intros Hlaws Hk Hd HQ. pose proof Hd as [Ho Hsz]. apply wp_bind. cbn [VECTOR_size].
  assert (count (options d) = length l) as -> by by rewrite (vec_count _ _ Ho), length_fmap.
  eapply wp_destroy_options; [exact Hlaws|exact Hk|exact Hd|lia|]. intros h1 Hu1.
  apply wp_bind. eapply wp_VECTOR_destroy; [exact Ho|]. intros h2 Hu2. apply wp_free_struct. intros h3 Hu3. apply HQ.
  eapply used_trans; [exact Hu1|eapply used_trans; [exact Hu2|exact Hu3|done]|].
  rewrite vec_blocks_fmap, handler_blocks_eq. lia.
Qed.

(** Feeding sets one option after the other. *)
Fixpoint set_all d (l : list (list Z * V)) (t : T) : option (OPTIONHANDLER_RESULT * T) :=
  match l with
  | [] => Some (OPTIONHANDLER_OK, t)
  | o :: l =>
      '(r, t) ← setOption d t o.1 o.2;
      match r with OK => set_all d l t | FAILURE => Some (OPTIONHANDLER_ERROR, t) end
  end.

Lemma feed_options_spec d l n i t : holding d l → (n + i = length l)%nat → feed_options n i d t = set_all d (drop i l) t.
Proof.
  intros Hd. revert i t. induction n as [|n IH]; intros i t Hn; cbn [feed_options].
  - by rewrite drop_ge by lia.
  - destruct (lookup_lt_is_Some_2 l i) as [o Eo]; [lia|].
    rewrite (holding_element _ _ _ Hd), Eo, (drop_S _ _ _ Eo). cbn [fmap option_fmap option_map set_all mbind option_bind].
    destruct (setOption d t o.1 o.2) as [[[] t']|] eqn:E; cbn [name option_storage]; rewrite E; cbn; [|done|done]. apply IH. lia.
Qed.

Lemma FeedOptions_spec d l t : holding d l →
  OptionHandler_FeedOptions (Some d) (Some t) = '(r, t) ← set_all d l t; Some (r, Some t).
Proof.
  intros Hd. pose proof Hd as [Ho _]. unfold OptionHandler_FeedOptions. cbn [VECTOR_size].
  rewrite (vec_count _ _ Ho), length_fmap. by rewrite (feed_options_spec d l) by (done || lia).
Qed.

(** A clone holds the same options. *)
Lemma wp_clone_options knows source d l n i (Q : bool * DATA → Heap → Prop) h :
  OptionLaws knows d → Forall (λ o, knows o.1) l → holding source l → holding d (take i l) → (n + i = length l)%nat →
  Z.of_nat (sizeof_OPTION * length l) < size_mod →
  (∀ d' h', same_functions d d' → holding d' l → used (handler_blocks l - handler_blocks (take i l)) h h' → Q (true, d') h') →
  (∀ d' l' h', same_functions d d' → holding d' l' → Forall (λ o, knows o.1) l' →
     used (handler_blocks l' - handler_blocks (take i l)) h h' → ¬ plenty h → Q (false, d') h') →
  wp (clone_options n i source d) Q h.
Proof.
  intros Hlaws Hk Hs. revert i d h Q Hlaws. induction n as [|n IH]; intros i d h Q Hlaws Hd Hn Hsz HS HN; cbn [clone_options].
  - rewrite take_ge in Hd, HS by lia. apply wp_ret, HS; [done|done|]. rewrite Z.sub_diag. apply used_refl.
  - destruct (lookup_lt_is_Some_2 l i) as [o Eo]; [lia|]. apply wp_bind.
    eapply wp_lift; [by rewrite (holding_element _ _ _ Hs), Eo|]. apply wp_bind. cbn [name option_storage].
    pose proof (proj1 (Forall_lookup _ _) Hk _ _ Eo) as Hko.
    assert (take (S i) l = take i l ++ [(o.1, o.2)]) as Etake by (rewrite (take_S_r _ _ _ Eo); by destruct o).
    eapply wp_AddOptionInternal; [exact Hlaws|exact Hko|exact Hd| | |].
    + rewrite length_take_le by lia. nia.
    + intros d1 h1 Hsame Hd1 Hu1. rewrite <- Etake in Hd1, Hu1. apply IH; [by eapply laws_same|done|lia|done| |].
      * intros d2 h2 Hsame2 Hd2 Hu2. apply HS; [by etrans|done|]. eapply used_trans; [exact Hu1|exact Hu2|lia].
      * intros d2 l2 h2 Hsame2 Hd2 Hk2 Hu2 Hp. eapply HN; [by etrans|exact Hd2|done| |].
        -- eapply used_trans; [exact Hu1|exact Hu2|lia].
        -- intros Hpl. apply Hp. by apply Hu1.
    + intros h1 Hu1 Hp. apply wp_ret. eapply HN; [done|exact Hd|by apply Forall_take| |done]. by rewrite Z.sub_diag.
Qed.

Lemma wp_OptionHandler_Clone knows source l (Q : HANDLE → Heap → Prop) h :
  OptionLaws knows source → Forall (λ o, knows o.1) l → holding source l → Z.of_nat (sizeof_OPTION * length l) < size_mod →
  (∀ d h', same_functions source d → holding d l → used (handler_blocks l) h h' → Q (Some d) h') →
  (∀ h', used 0 h h' → ¬ plenty h → Q None h') →
  wp (OptionHandler_Clone (Some source)) Q h.
Proof.
  intros Hlaws Hk Hs Hsz HS HN. apply wp_bind, wp_CreateInternal; cycle 1.
  { intros h1 Hu1 Hp. by apply wp_ret, HN. }
  intros v h1 Hd Hu1. set (d := mkHandler _ _ _ v) in *. assert (same_functions source d) as Hsame by by split_and!.
  apply wp_bind. cbn [VECTOR_size].
  assert (count (options source) = length l) as ->.
  { pose proof Hs as [Ho _]. by rewrite (vec_count _ _ Ho), length_fmap. }
  pose proof (laws_same _ _ _ Hsame Hlaws) as Hlaws'.
  eapply wp_clone_options; [exact Hlaws'|exact Hk|exact Hs|exact Hd|lia|done| |].
  - intros d' h2 Hsame2 Hd2 Hu2. apply wp_ret, HS; [by etrans|done|]. rewrite take_0 in Hu2.
    change (handler_blocks []) with 2 in Hu2. eapply used_trans; [exact Hu1|exact Hu2|lia].
  - intros d' l' h2 Hsame2 Hd2 Hk2 Hu2 Hp. apply wp_bind.
    eapply wp_DestroyInternal; [by eapply laws_same|exact Hk2|exact Hd2|]. intros h3 Hu3. apply wp_ret, HN.
    + rewrite take_0 in Hu2. change (handler_blocks []) with 2 in Hu2.
      eapply used_trans; [exact Hu1|eapply used_trans; [exact Hu2|exact Hu3|done]|lia].
    + intros Hpl. apply Hp. by apply Hu1.
Qed.
End handler.
