(* ===== verification/MqttClient.v ===== *)
(** * MqttClient: the MQTT client.

    [src/umqtt/src/mqtt_client.c].  The application's callbacks are parameters;
    they may change the application's state and call the client again, except for
    the decoder that is running.  The transport ([xio]) and the clock are outside:
    an oracle in the state says how the coming calls end, and [IoEvent] lists what
    the transport does while it is given time.  Logging is off; handles are not
    NULL. *)
From S2P Require Import Prelude.
From stdpp Require Import strings.
From S2P Require Import Effects.
From S2P Require Import Alloc.
From S2P Require Import Buffer.
From S2P Require Import CString.
From S2P Require Import MqttCodec.
From S2P Require Import MqttDecoder.
From S2P Require Import MqttMessage.
#[local] Open Scope Z_scope.

(** ** Data *)

Inductive MQTT_CLIENT_EVENT_RESULT :=
  | MQTT_CLIENT_ON_CONNACK | MQTT_CLIENT_ON_PUBLISH_ACK | MQTT_CLIENT_ON_PUBLISH_RECV
  | MQTT_CLIENT_ON_PUBLISH_REL | MQTT_CLIENT_ON_PUBLISH_COMP | MQTT_CLIENT_ON_SUBSCRIBE_ACK
  | MQTT_CLIENT_ON_UNSUBSCRIBE_ACK | MQTT_CLIENT_ON_PING_RESPONSE | MQTT_CLIENT_ON_DISCONNECT.

Inductive MQTT_CLIENT_EVENT_ERROR :=
  | MQTT_CLIENT_CONNECTION_ERROR | MQTT_CLIENT_PARSE_ERROR | MQTT_CLIENT_MEMORY_ERROR
  | MQTT_CLIENT_COMMUNICATION_ERROR | MQTT_CLIENT_NO_PING_RESPONSE | MQTT_CLIENT_UNKNOWN_ERROR.

(** The structures that [msgInfo] can point to. *)
Inductive MsgInfo :=
  | CONNECT_ACK (isSessionPresent : bool) (returnCode : Z)
  | PUBLISH_ACK (packetId : Z)
  | SUBSCRIBE_ACK (packetId : Z) (qosReturn : list Z)
  | UNSUBSCRIBE_ACK (packetId : Z).

Definition CONNECTION_ACCEPTED := 0.
Definition RETAIN_FLAG_MASK := 0x1.
Definition QOS_LEAST_ONCE_FLAG_MASK := 0x2.
Definition DUPLICATE_FLAG_MASK := 0x8.
Definition DEFAULT_MAX_PING_RESPONSE_TIME := 80.
Definition MAX_CLOSE_RETRIES : nat := 2.

(** Without the codec, which owns the client as its context, and the callbacks.
    [disconnect_cb]: it is not NULL; [xioHandle]: likewise. *)
Record MQTT_CLIENT := mkClient {
  xioHandle : bool;
  packetState : Z;
  packetRecvTimeMs : Z;
  disconnect_cb : bool;
  qosValue : Z;
  keepAlive : Z;
  mqttOptions : MQTT_CLIENT_OPTIONS;
  clientConnected : bool;
  socketConnected : bool;
  timeSincePing : Z;
  maxPingRespTime : Z }.

Inductive IO_SEND_RESULT := IO_SEND_OK | IO_SEND_ERROR | IO_SEND_CANCELLED.

(** How a call of [xio_send] ends: with an error; accepted, its completion
    reported later; accepted and completed before it returns. *)
Inductive Sending := SendFails | SendQueued | SendCompleted (result : IO_SEND_RESULT).
(** [xio_open]: fails, reports the end later, or before it returns. *)
Inductive Opening := OpenFails | OpenPending | OpenCompleted (result : bool).
(** [xio_close]: the number of calls of [xio_dowork] until the connection is
    reported closed, if ever. *)
Definition Closing := option nat.

Record Env := mkEnv {
  ticks : list (option Z);      (** [None]: the clock cannot be read *)
  sendings : list Sending;
  openings : list Opening;
  closings : list Closing;
  alive : bool                  (** the transport has not been destroyed *) }.

(** Calls of the transport. *)
Inductive Wire := Sent (data : list Z) | Opened | Closed.

Section client.
Context `{Arch} {A : Type}.

(** Client, environment, calls of the transport so far, application. *)
Record Peer := mkPeer { client : MQTT_CLIENT; env : Env; wire : list Wire; user : A }.

#[warnings="-notation-for-abbreviation"]
Notation Client := (ST (Peer * Heap)).

(** The callbacks given to [mqtt_client_init] and [mqtt_client_disconnect]. *)
Variable fnOperationCallback : option (MQTT_CLIENT_EVENT_RESULT → option MsgInfo → Client unit).
Variable fnMessageRecv : option (MQTT_MESSAGE → Client unit).
Variable fnOnErrorCallBack : option (MQTT_CLIENT_EVENT_ERROR → Client unit).
Variable on_disconnected : Client unit.

(** ** Access to the state *)

Definition alloc {X} (d : Alloc X) : Client X := λ '(p, h), '(x, h) ← d h; Some (x, (p, h)).
Definition get : Client MQTT_CLIENT := λ s, Some (client s.1, s).
Definition modify (f : MQTT_CLIENT → MQTT_CLIENT) : Client unit := λ '(p, h),
  Some (tt, (mkPeer (f (client p)) (env p) (wire p) (user p), h)).

Definition set_xioHandle v c := mkClient v (packetState c) (packetRecvTimeMs c) (disconnect_cb c)
  (qosValue c) (keepAlive c) (mqttOptions c) (clientConnected c) (socketConnected c)
  (timeSincePing c) (maxPingRespTime c).
Definition set_packetState v c := mkClient (xioHandle c) v (packetRecvTimeMs c) (disconnect_cb c)
  (qosValue c) (keepAlive c) (mqttOptions c) (clientConnected c) (socketConnected c)
  (timeSincePing c) (maxPingRespTime c).
Definition set_packetRecvTimeMs v c := mkClient (xioHandle c) (packetState c) v (disconnect_cb c)
  (qosValue c) (keepAlive c) (mqttOptions c) (clientConnected c) (socketConnected c)
  (timeSincePing c) (maxPingRespTime c).
Definition set_disconnect_cb v c := mkClient (xioHandle c) (packetState c) (packetRecvTimeMs c) v
  (qosValue c) (keepAlive c) (mqttOptions c) (clientConnected c) (socketConnected c)
  (timeSincePing c) (maxPingRespTime c).
Definition set_session q k m c := mkClient (xioHandle c) (packetState c) (packetRecvTimeMs c)
  (disconnect_cb c) q k (mqttOptions c) (clientConnected c) (socketConnected c)
  (timeSincePing c) m.
Definition set_mqttOptions v c := mkClient (xioHandle c) (packetState c) (packetRecvTimeMs c)
  (disconnect_cb c) (qosValue c) (keepAlive c) v (clientConnected c) (socketConnected c)
  (timeSincePing c) (maxPingRespTime c).
Definition set_clientConnected v c := mkClient (xioHandle c) (packetState c) (packetRecvTimeMs c)
  (disconnect_cb c) (qosValue c) (keepAlive c) (mqttOptions c) v (socketConnected c)
  (timeSincePing c) (maxPingRespTime c).
Definition set_socketConnected v c := mkClient (xioHandle c) (packetState c) (packetRecvTimeMs c)
  (disconnect_cb c) (qosValue c) (keepAlive c) (mqttOptions c) (clientConnected c) v
  (timeSincePing c) (maxPingRespTime c).
Definition set_timeSincePing v c := mkClient (xioHandle c) (packetState c) (packetRecvTimeMs c)
  (disconnect_cb c) (qosValue c) (keepAlive c) (mqttOptions c) (clientConnected c)
  (socketConnected c) v (maxPingRespTime c).

Definition put_env (e : Env) : Client unit := λ '(p, h),
  Some (tt, (mkPeer (client p) e (wire p) (user p), h)).
Definition log (w : Wire) : Client unit := λ '(p, h),
  Some (tt, (mkPeer (client p) (env p) (wire p ++ [w]) (user p), h)).

(** [tickcounter_get_current_ms]; an exhausted oracle reads 0. *)
Definition current_ms : Client (option Z) := λ '(p, h),
  let e := env p in
  match ticks e with
  | [] => Some (Some 0, (p, h))
  | t :: ts =>
      Some (t, (mkPeer (client p) (mkEnv ts (sendings e) (openings e) (closings e) (alive e)) (wire p) (user p), h))
  end.

Definition next_sending : Client Sending := λ '(p, h),
  let e := env p in
  match sendings e with
  | [] => Some (SendQueued, (p, h))
  | s :: ss =>
      Some (s, (mkPeer (client p) (mkEnv (ticks e) ss (openings e) (closings e) (alive e)) (wire p) (user p), h))
  end.

Definition next_opening : Client Opening := λ '(p, h),
  let e := env p in
  match openings e with
  | [] => Some (OpenPending, (p, h))
  | o :: os =>
      Some (o, (mkPeer (client p) (mkEnv (ticks e) (sendings e) os (closings e) (alive e)) (wire p) (user p), h))
  end.

Definition next_closing : Client Closing := λ '(p, h),
  let e := env p in
  match closings e with
  | [] => Some (None, (p, h))
  | c :: cs =>
      Some (c, (mkPeer (client p) (mkEnv (ticks e) (sendings e) (openings e) cs (alive e)) (wire p) (user p), h))
  end.

(** Following the pointer [xioHandle], if it is not NULL; whether it is. *)
Definition use_xio : Client bool := λ '(p, h),
  if xioHandle (client p) then if alive (env p) then Some (true, (p, h)) else None
  else Some (false, (p, h)).

Definition call {X} (callback : option X) (f : X → Client unit) : Client unit :=
  match callback with None => mret tt | Some g => f g end.

(** ** Closing and errors *)

Definition on_connection_closed : Client unit :=
  modify (set_socketConnected false);;
  modify (set_clientConnected false);;
  c ← get;
  if disconnect_cb c then on_disconnected else mret tt.

(** The loop that gives the transport time to close: [due] as in [Closing]. *)
Fixpoint close_loop (n : nat) (due : Closing) : Client unit :=
  match n with
  | O => mret tt
  | S n =>
      (if decide (due = Some 1%nat) then on_connection_closed else mret tt);;
      c ← get;
      if clientConnected c then close_loop n (pred <$> due) else mret tt
  end.

Definition close_connection : Client unit :=
  c ← get;
  if socketConnected c then
    x ← use_xio;
    due ← (if (x : bool) then log Closed;; next_closing else mret None);
    (if decide (due = Some 0%nat) then on_connection_closed else mret tt);;
    c ← get;
    if disconnect_cb c then mret tt else close_loop MAX_CLOSE_RETRIES due
  else if disconnect_cb c then on_disconnected else mret tt.

Definition set_error_callback (error_type : MQTT_CLIENT_EVENT_ERROR) : Client unit :=
  call fnOnErrorCallBack (λ f, f error_type);; close_connection.

(** ** Reading *)

(** A pointer into the received packet: its bytes from there on are those of
    [blk] from [pos].  [len] is what the caller says is left. *)
Definition byteutil_read_uint16 (blk : list Z) (pos len : nat) : option (Z * nat) :=
  if (2 <=? len)%nat then
    hi ← blk !! pos; lo ← blk !! (pos + 1)%nat; Some (256 * hi + lo, (pos + 2)%nat)
  else Some (0, pos).

Definition byteutil_readByte (blk : list Z) (pos : nat) : option (Z * nat) :=
  x ← blk !! pos; Some (x, (pos + 1)%nat).

(** The new block, with its final 0, and the pointer behind the string. *)
Definition byteutil_readUTF (blk : list Z) (pos byteLen : nat) : Alloc (option (list Z) * nat) :=
  '(len, pos) ← lift (byteutil_read_uint16 blk pos byteLen);
  let len := Z.to_nat len in
  if (0 <? len)%nat then
    result ← malloc (len + 1);
    match result with
    | None => mret (None, pos)
    | Some _ =>
        result ← lift (copy_to result 0 (Some (drop pos blk)) len);
        result ← lift (result ← result; st8 result len 0);
        mret (Some result, (pos + len)%nat)
    end
  else mret (None, pos).

(** ** Sending *)

Definition sendComplete (send_result : IO_SEND_RESULT) : Client unit :=
  match send_result with
  | IO_SEND_OK =>
      c ← get;
      if packetState c =? DISCONNECT_TYPE then
        call fnOperationCallback (λ f, f MQTT_CLIENT_ON_DISCONNECT None);;
        close_connection
      else mret tt
  | IO_SEND_ERROR => set_error_callback MQTT_CLIENT_COMMUNICATION_ERROR
  | IO_SEND_CANCELLED => mret tt
  end.

(** The bytes of a packet that has been built. *)
Definition packet_bytes (b : BUFFER_HANDLE) : list Z := default [] (BUFFER_u_char b).

Definition sendPacketItem (data : list Z) : Client status :=
  x ← use_xio;
  if (x : bool) then
    log (Sent data);;
    r ← next_sending;
    match r with
    | SendFails => mret FAILURE
    | SendQueued => mret OK
    | SendCompleted result => sendComplete result;; mret OK
    end
  else mret FAILURE.

(** Sends a packet and deletes its buffer. *)
Definition send_buffer (b : BUFFER_HANDLE) : Client status :=
  r ← sendPacketItem (packet_bytes b);
  alloc (BUFFER_delete b);;
  mret r.

Definition onOpenComplete (open_ok : bool) : Client unit :=
  c ← get;
  if open_ok && negb (socketConnected c) then
    modify (set_packetState CONNECT_TYPE);;
    modify (set_socketConnected true);;
    connPacket ← alloc (mqtt_codec_connect (Some (mqttOptions c)));
    match connPacket with
    | None => mret tt
    | Some _ => send_buffer connPacket;; mret tt
    end
  else
    (if negb (socketConnected c)
     then call fnOnErrorCallBack (λ f, f MQTT_CLIENT_CONNECTION_ERROR) else mret tt);;
    close_connection.

Definition onIoError : Client unit :=
  match fnOperationCallback with
  | None => mret tt
  | Some _ => set_error_callback MQTT_CLIENT_CONNECTION_ERROR
  end.

(** ** Received packets *)

(** Sends the answer of a handshake, or reports that there is no memory. *)
Definition send_reply (d : Alloc BUFFER_HANDLE) : Client unit :=
  pubRel ← alloc d;
  match pubRel with
  | None => set_error_callback MQTT_CLIENT_MEMORY_ERROR
  | Some _ => send_buffer pubRel;; mret tt
  end.

Definition received_qos (flags : Z) : Z :=
  if flags =? 0 then DELIVER_AT_MOST_ONCE
  else if negb (Z.land flags QOS_LEAST_ONCE_FLAG_MASK =? 0) then DELIVER_AT_LEAST_ONCE
  else DELIVER_EXACTLY_ONCE.

(** After the application has taken the message. *)
Definition acknowledge (qosValue packetId : Z) : Client unit :=
  if qosValue =? DELIVER_EXACTLY_ONCE then send_reply (mqtt_codec_publishReceived packetId)
  else if qosValue =? DELIVER_AT_LEAST_ONCE then send_reply (mqtt_codec_publishAck packetId)
  else mret tt.

Definition recv_connack (blk : list Z) : Client unit :=
  call fnOperationCallback (λ f,
    '(present, pos) ← lift (byteutil_readByte blk 0);
    '(returnCode, _) ← lift (byteutil_readByte blk pos);
    f MQTT_CLIENT_ON_CONNACK (Some (CONNECT_ACK (present =? 1) returnCode));;
    if returnCode =? CONNECTION_ACCEPTED then modify (set_clientConnected true) else mret tt).

Definition recv_publish (flags : Z) (blk : list Z) : Client unit :=
  call fnMessageRecv (λ f,
    let len := length blk in
    let isDuplicateMsg := negb (Z.land flags DUPLICATE_FLAG_MASK =? 0) in
    let isRetainMsg := negb (Z.land flags RETAIN_FLAG_MASK =? 0) in
    let qosValue := received_qos flags in
    '(topicName, pos) ← alloc (byteutil_readUTF blk 0 len);
    match topicName with
    | None => set_error_callback MQTT_CLIENT_PARSE_ERROR
    | Some topic =>
        '(packetId, pos) ← lift (if qosValue =? DELIVER_AT_MOST_ONCE then Some (0, pos)
                                 else byteutil_read_uint16 blk pos (len - pos));
        source ← lift (cstr topic);
        msgHandle ← alloc (mqttmessage_create packetId (Some source) qosValue
                             (Some (drop pos blk)) (len - pos));
        (match msgHandle with
         | None => set_error_callback MQTT_CLIENT_MEMORY_ERROR
         | Some _ =>
             let '(r1, msgHandle) := mqttmessage_setIsDuplicateMsg msgHandle isDuplicateMsg in
             let '(r2, msgHandle) := mqttmessage_setIsRetained msgHandle isRetainMsg in
             match r1, r2, msgHandle with
             | OK, OK, Some msg => f msg;; acknowledge qosValue packetId
             | _, _, _ => set_error_callback MQTT_CLIENT_MEMORY_ERROR
             end;;
             alloc (mqttmessage_destroy msgHandle)
         end);;
        alloc (free topicName)
    end).

Definition recv_ack (packet : Z) (blk : list Z) : Client unit :=
  call fnOperationCallback (λ f,
    let action := if packet =? PUBACK_TYPE then MQTT_CLIENT_ON_PUBLISH_ACK
                  else if packet =? PUBREC_TYPE then MQTT_CLIENT_ON_PUBLISH_RECV
                  else if packet =? PUBREL_TYPE then MQTT_CLIENT_ON_PUBLISH_REL
                  else MQTT_CLIENT_ON_PUBLISH_COMP in
    '(packetId, _) ← lift (byteutil_read_uint16 blk 0 (length blk));
    f action (Some (PUBLISH_ACK packetId));;
    if packet =? PUBREC_TYPE then send_reply (mqtt_codec_publishRelease packetId)
    else if packet =? PUBREL_TYPE then send_reply (mqtt_codec_publishComplete packetId)
    else mret tt).

(** The next [n] bytes. *)
Fixpoint read_bytes (blk : list Z) (pos n : nat) : option (list Z) :=
  match n with
  | O => Some []
  | S n =>
      '(x, pos) ← byteutil_readByte blk pos;
      xs ← read_bytes blk pos n;
      Some (x :: xs)
  end.

(** [sizeof(QOS_VALUE)] *)
Definition qos_size : nat := 4.

Definition recv_suback (blk : list Z) : Client unit :=
  call fnOperationCallback (λ f,
    '(packetId, pos) ← lift (byteutil_read_uint16 blk 0 (length blk));
    let remainLen := Z.to_nat ((Z.of_nat (length blk) - 2) mod size_mod) in
    qosReturn ← alloc (malloc (usz (qos_size * remainLen)));
    match qosReturn with
    | None => set_error_callback MQTT_CLIENT_MEMORY_ERROR
    | Some _ =>
        values ← lift (read_bytes blk pos remainLen);
        f MQTT_CLIENT_ON_SUBSCRIBE_ACK (Some (SUBSCRIBE_ACK packetId values));;
        alloc (free qosReturn)
    end).

Definition recv_unsuback (blk : list Z) : Client unit :=
  call fnOperationCallback (λ f,
    '(packetId, _) ← lift (byteutil_read_uint16 blk 0 (length blk));
    f MQTT_CLIENT_ON_UNSUBSCRIBE_ACK (Some (UNSUBSCRIBE_ACK packetId))).

Definition recv_pingresp : Client unit :=
  modify (set_timeSincePing 0);;
  call fnOperationCallback (λ f, f MQTT_CLIENT_ON_PING_RESPONSE None).

Definition recvCompleteCallback (packet flags : Z) (headerData : BUFFER_HANDLE) : Client unit :=
  if bool_decide (is_Some headerData) || (packet =? PINGRESP_TYPE) then
    let iterator := BUFFER_u_char headerData in
    now ← current_ms;
    match now with
    | None => mret tt
    | Some ms =>
        modify (set_packetRecvTimeMs ms);;
        if packet =? PINGRESP_TYPE then recv_pingresp
        else
          match iterator with
          | None => mret tt
          | Some blk =>
              if packet =? CONNACK_TYPE then recv_connack blk
              else if packet =? PUBLISH_TYPE then recv_publish flags blk
              else if (packet =? PUBACK_TYPE) || (packet =? PUBREC_TYPE)
                      || (packet =? PUBREL_TYPE) || (packet =? PUBCOMP_TYPE)
              then recv_ack packet blk
              else if packet =? SUBACK_TYPE then recv_suback blk
              else if packet =? UNSUBACK_TYPE then recv_unsuback blk
              else mret tt
          end
    end
  else mret tt.

(** The client as the context of its decoder. *)
Definition on_packet : ON_PACKET_COMPLETE_CALLBACK Peer := λ p packet flags headerData h,
  '(_, s) ← recvCompleteCallback packet flags headerData (p, h); Some s.

(** ** The whole client: the decoder, with the rest as its context *)

#[warnings="-notation-for-abbreviation"]
Notation Codec := (MQTTCODEC_INSTANCE Peer).
#[warnings="-notation-for-abbreviation"]
Notation Whole := (ST (Codec * Heap)).

Definition on_client {X} (d : Client X) : Whole X := λ '(c, h),
  '(x, (p, h)) ← d (callContext c, h);
  Some (x, (set_callContext p c, h)).

Definition onBytesReceived (buffer : list Z) : Whole unit := λ '(c, h),
  '(r, c, h) ← mqtt_codec_bytesReceived (Some c) (Some buffer) (length buffer) h;
  c ← c;
  match r with
  | OK => Some (tt, (c, h))
  | FAILURE => on_client (set_error_callback MQTT_CLIENT_PARSE_ERROR) (c, h)
  end.

(** What the transport does while it is given time. *)
Inductive IoEvent :=
  | IoOpenComplete (open_ok : bool)
  | IoBytes (data : list Z)
  | IoError
  | IoSendComplete (send_result : IO_SEND_RESULT)
  | IoClosed.

Definition io_event (e : IoEvent) : Whole unit :=
  match e with
  | IoOpenComplete open_ok => on_client (onOpenComplete open_ok)
  | IoBytes data => onBytesReceived data
  | IoError => on_client onIoError
  | IoSendComplete send_result => on_client (sendComplete send_result)
  | IoClosed => on_client on_connection_closed
  end.

Fixpoint xio_dowork (events : list IoEvent) : Whole unit :=
  match events with
  | [] => mret tt
  | e :: events => io_event e;; xio_dowork events
  end.

(** ** The functions of the library *)

Definition no_options : MQTT_CLIENT_OPTIONS :=
  {| clientId := None; willTopic := None; willMessage := None; username := None; password := None;
     keepAliveInterval := 0; messageRetain := false; useCleanSession := false;
     qualityOfServiceValue := 0 |}.

Definition mqtt_client_init (e : Env) (a : A) : Alloc (option Codec) :=
  match fnMessageRecv with
  | None => mret None
  | Some _ =>
      result ← malloc_struct;
      if (result : bool) then
        packetTickCntr ← malloc_struct;
        if (packetTickCntr : bool) then
          let c := mkClient false UNKNOWN_TYPE 0 false DELIVER_AT_MOST_ONCE 0 no_options
                     false false 0 DEFAULT_MAX_PING_RESPONSE_TIME in
          codec ← mqtt_codec_create (Some on_packet) (mkPeer c e [] a);
          match codec with
          | None => free_struct;; free_struct;; mret None
          | Some _ => mret codec
          end
        else free_struct;; mret None
      else mret None
  end.

(** [if (s != NULL) { free(s); s = NULL; }] for each string. *)
Definition clear_mqtt_options : Client unit :=
  c ← get;
  let o := mqttOptions c in
  alloc (free (clientId o);; free (willTopic o);; free (willMessage o);;
         free (username o);; free (password o));;
  modify (set_mqttOptions
    {| clientId := None; willTopic := None; willMessage := None; username := None;
       password := None; keepAliveInterval := keepAliveInterval o;
       messageRetain := messageRetain o; useCleanSession := useCleanSession o;
       qualityOfServiceValue := qualityOfServiceValue o |}).

Definition mqtt_client_deinit (handle : option Codec) : Alloc unit :=
  match handle with
  | None => mret tt
  | Some c =>
      free_struct;;
      mqtt_codec_destroy (Some c);;
      let o := mqttOptions (client (callContext c)) in
      free (clientId o);; free (willTopic o);; free (willMessage o);;
      free (username o);; free (password o);;
      free_struct
  end.

(** A copy of [source], if there is one, takes the place of [old]. *)
Definition clone_string (old source : option (list Z)) : Alloc (status * option (list Z)) :=
  match source with
  | None => mret (OK, old)
  | Some s =>
      copy ← mallocAndStrcpy_s s;
      match copy with
      | None => mret (FAILURE, old)
      | Some _ => free old;; mret (OK, copy)
      end
  end.

(** [if (result == 0) ...] *)
Definition clone_next (result : status) (old source : option (list Z))
    : Alloc (status * option (list Z)) :=
  match result with FAILURE => mret (FAILURE, old) | OK => clone_string old source end.

Definition cloneMqttOptions (o : MQTT_CLIENT_OPTIONS) : Client status :=
  c ← get;
  let mine := mqttOptions c in
  '(r, id) ← alloc (clone_string (clientId mine) (clientId o));
  '(r, topic) ← alloc (clone_next r (willTopic mine) (willTopic o));
  '(r, msg) ← alloc (clone_next r (willMessage mine) (willMessage o));
  '(r, user) ← alloc (clone_next r (username mine) (username o));
  '(r, pass) ← alloc (clone_next r (password mine) (password o));
  let from := match r with OK => o | FAILURE => mine end in
  modify (set_mqttOptions
    {| clientId := id; willTopic := topic; willMessage := msg; username := user;
       password := pass; keepAliveInterval := keepAliveInterval from;
       messageRetain := messageRetain from; useCleanSession := useCleanSession from;
       qualityOfServiceValue := qualityOfServiceValue from |});;
  match r with
  | OK => mret OK
  | FAILURE => clear_mqtt_options;; mret FAILURE
  end.

(** [xio]: the transport handle is not NULL. *)
Definition mqtt_client_connect (xio : bool) (options : option MQTT_CLIENT_OPTIONS) : Client status :=
  match options with
  | None => mret FAILURE
  | Some o =>
      if xio then
        modify (set_xioHandle true);;
        modify (set_packetState UNKNOWN_TYPE);;
        let half := keepAliveInterval o / 2 in
        modify (set_session (qualityOfServiceValue o) (keepAliveInterval o)
          (if DEFAULT_MAX_PING_RESPONSE_TIME <? half then DEFAULT_MAX_PING_RESPONSE_TIME else half));;
        r ← cloneMqttOptions o;
        match r with
        | FAILURE => mret FAILURE
        | OK =>
            use_xio;;
            log Opened;;
            opening ← next_opening;
            match opening with
            | OpenFails => clear_mqtt_options;; mret FAILURE
            | OpenPending => mret OK
            | OpenCompleted result => onOpenComplete result;; mret OK
            end
        end
      else mret FAILURE
  end.

(** Sends the packet, if it could be built. *)
Definition send_packet (d : Alloc BUFFER_HANDLE) (type : Z) : Client status :=
  packet ← alloc d;
  match packet with
  | None => mret FAILURE
  | Some _ => modify (set_packetState type);; send_buffer packet
  end.

Definition mqtt_client_publish (msgHandle : MQTT_MESSAGE_HANDLE) : Client status :=
  match mqttmessage_getApplicationMsg msgHandle with
  | None => mret FAILURE
  | Some payload =>
      send_packet
        (mqtt_codec_publish (mqttmessage_getQosType msgHandle)
           (mqttmessage_getIsDuplicateMsg msgHandle) (mqttmessage_getIsRetained msgHandle)
           (mqttmessage_getPacketId msgHandle) (mqttmessage_getTopicName msgHandle)
           (message payload) (payload_length payload))
        PUBLISH_TYPE
  end.

Definition mqtt_client_subscribe (packetId : Z) (subscribeList : option (list SUBSCRIBE_PAYLOAD))
    (count : nat) : Client status :=
  if negb (bool_decide (is_Some subscribeList)) || (count =? 0)%nat || (packetId =? 0)
  then mret FAILURE
  else send_packet (mqtt_codec_subscribe packetId subscribeList count) SUBSCRIBE_TYPE.

Definition mqtt_client_unsubscribe (packetId : Z)
    (unsubscribeList : option (list (option (list Z)))) (count : nat) : Client status :=
  if negb (bool_decide (is_Some unsubscribeList)) || (count =? 0)%nat || (packetId =? 0)
  then mret FAILURE
  else send_packet (mqtt_codec_unsubscribe packetId unsubscribeList count) UNSUBSCRIBE_TYPE.

(** [callback]: it is not NULL. *)
Definition mqtt_client_disconnect (callback : bool) : Client status :=
  c ← get;
  if clientConnected c then
    disconnectPacket ← alloc mqtt_codec_disconnect;
    r ← match disconnectPacket with
        | None => modify (set_packetState PACKET_TYPE_ERROR);; mret FAILURE
        | Some _ =>
            modify (set_disconnect_cb callback);;
            modify (set_packetState DISCONNECT_TYPE);;
            send_buffer disconnectPacket
        end;
    clear_mqtt_options;;
    modify (set_xioHandle false);;
    mret r
  else
    modify (set_disconnect_cb callback);;
    close_connection;;
    clear_mqtt_options;;
    mret OK.

(** Whole seconds from [since] to [now], on a tick counter of the machine's width. *)
Definition seconds (now since : Z) : Z := (now - since) mod size_mod / 1000.

(** What [mqtt_client_dowork] does after the transport had its time. *)
Definition keep_alive : Client unit :=
  c ← get;
  if socketConnected c && clientConnected c && (0 <? keepAlive c) then
    now ← current_ms;
    match now with
    | None => mret tt
    | Some current =>
        if (0 <? timeSincePing c) && (maxPingRespTime c <? seconds current (timeSincePing c)) then
          set_error_callback MQTT_CLIENT_NO_PING_RESPONSE;;
          modify (set_timeSincePing 0);;
          modify (set_packetRecvTimeMs 0);;
          modify (set_packetState UNKNOWN_TYPE)
        else if keepAlive c <=? seconds current (packetRecvTimeMs c) then
          if 0 <? timeSincePing c then mret tt
          else
            pingPacket ← alloc mqtt_codec_ping;
            match pingPacket with
            | None => mret tt
            | Some _ =>
                send_buffer pingPacket;;
                c ← get;
                if timeSincePing c =? 0 then
                  t ← current_ms;
                  match t with None => mret tt | Some t => modify (set_timeSincePing t) end
                else mret tt
            end
        else mret tt
    end
  else mret tt.

Definition mqtt_client_dowork (events : list IoEvent) : Whole unit :=
  x ← on_client use_xio;
  if (x : bool) then xio_dowork events;; on_client keep_alive else mret tt.
End client.
