(* ===== verification/MqttClientTheory.v ===== *)
(** * MqttClientTheory: how the MQTT client reacts.

    [Inbound] lists the packets of a broker; the specification of the client is
    what each of them tells the application and what is answered.  The client
    implements it for streams of packets that arrive in pieces of any size. *)
From S2P Require Import Prelude.
From stdpp Require Import strings.
From S2P Require Import Effects.
From S2P Require Import Alloc.
From S2P Require Import Buffer.
From S2P Require Import CString.
From S2P Require Import MqttCodec.
From S2P Require Import MqttDecoder.
From S2P Require Import MqttCodecTheory.
From S2P Require Import MqttDecoderTheory.
From S2P Require Import MqttMessage.
From S2P Require Import MqttClient.
#[local] Open Scope Z_scope.

(** ** What a broker sends, and the specification *)

Inductive Inbound :=
  | InConnack (session_present : bool) (code : Z)
  | InPublish (id qos : Z) (topic payload : list Z) (dup retain : bool)
  | InPuback (id : Z)
  | InPubrec (id : Z)
  | InPubrel (id : Z)
  | InPubcomp (id : Z)
  | InSuback (id : Z) (codes : list Z)
  | InUnsuback (id : Z)
  | InPingresp.

Definition inbound_packet (i : Inbound) : packet :=
  match i with
  | InConnack present code => mkPacket CONNACK_TYPE 0 [if present then 1 else 0; code]
  | InPublish id qos topic payload dup retain =>
      mkPacket PUBLISH_TYPE (publish_flags qos dup retain) (publish_body qos id topic payload)
  | InPuback id => mkPacket PUBACK_TYPE 0 (be16 id)
  | InPubrec id => mkPacket PUBREC_TYPE 0 (be16 id)
  | InPubrel id => mkPacket PUBREL_TYPE 2 (be16 id)
  | InPubcomp id => mkPacket PUBCOMP_TYPE 0 (be16 id)
  | InSuback id codes => mkPacket SUBACK_TYPE 0 (be16 id ++ codes)
  | InUnsuback id => mkPacket UNSUBACK_TYPE 0 (be16 id)
  | InPingresp => mkPacket PINGRESP_TYPE 0 []
  end.

(** Packets the client reads as they are meant.  A message with quality of
    service 0 must have neither of its two flags. *)
Definition inbound_ok (i : Inbound) : Prop :=
  match i with
  | InConnack _ code => is_u8 code
  | InPublish id qos topic payload dup retain =>
      is_u16 id ∧ 0 <= qos <= 2 ∧ bytes topic ∧ bytes payload ∧ topic ≠ [] ∧ cstring topic ∧
      zlen topic <= USHRT_MAX ∧ zlen (publish_body qos id topic payload) < max_received ∧
      (qos = 0 → dup = false ∧ retain = false)
  | InPuback id | InPubrec id | InPubrel id | InPubcomp id | InUnsuback id => is_u16 id
  | InSuback id codes => is_u16 id ∧ bytes codes ∧ zlen codes < 2097150
  | InPingresp => True
  end.

#[export] Instance inbound_ok_dec i : Decision (inbound_ok i).
Proof. destruct i; apply _. Defined.

(** What the application is told. *)
Inductive Notification :=
  | Operation (e : MQTT_CLIENT_EVENT_RESULT) (i : option MsgInfo)
  | Message (m : MQTT_MESSAGE)
  | Problem (e : MQTT_CLIENT_EVENT_ERROR).

Definition received_id (qos id : Z) : Z := if qos =? 0 then 0 else id.

Definition notification (i : Inbound) : Notification :=
  match i with
  | InConnack present code => Operation MQTT_CLIENT_ON_CONNACK (Some (CONNECT_ACK present code))
  | InPublish id qos topic payload dup retain =>
      Message (owned (received_id qos id) qos topic payload dup retain)
  | InPuback id => Operation MQTT_CLIENT_ON_PUBLISH_ACK (Some (PUBLISH_ACK id))
  | InPubrec id => Operation MQTT_CLIENT_ON_PUBLISH_RECV (Some (PUBLISH_ACK id))
  | InPubrel id => Operation MQTT_CLIENT_ON_PUBLISH_REL (Some (PUBLISH_ACK id))
  | InPubcomp id => Operation MQTT_CLIENT_ON_PUBLISH_COMP (Some (PUBLISH_ACK id))
  | InSuback id codes => Operation MQTT_CLIENT_ON_SUBSCRIBE_ACK (Some (SUBSCRIBE_ACK id codes))
  | InUnsuback id => Operation MQTT_CLIENT_ON_UNSUBSCRIBE_ACK (Some (UNSUBSCRIBE_ACK id))
  | InPingresp => Operation MQTT_CLIENT_ON_PING_RESPONSE None
  end.

(** What is answered. *)
Definition answers (i : Inbound) : list Wire :=
  match i with
  | InPublish id qos _ _ _ _ =>
      if qos =? 2 then [Sent (frame PUBREC_TYPE 0 (be16 id))]
      else if qos =? 1 then [Sent (frame PUBACK_TYPE 0 (be16 id))] else []
  | InPubrec id => [Sent (frame PUBREL_TYPE 2 (be16 id))]
  | InPubrel id => [Sent (frame PUBCOMP_TYPE 0 (be16 id))]
  | _ => []
  end.

(** ** Sending, whatever the callbacks *)

Section steady.
Context `{Arch} {A : Type}.
#[warnings="-notation-for-abbreviation"]
Notation Client := (ST (@Peer A * Heap)).
Implicit Types (p : @Peer A) (h : Heap).

Lemma wp_alloc {X} (d : Alloc X) (Q : X → @Peer A * Heap → Prop) p h :
  wp d (λ x h', Q x (p, h')) h → wp (alloc d) Q (p, h).
Proof. intros (x & h' & E & HQ). exists x, (p, h'). split; [|done]. unfold alloc. by rewrite E. Qed.

Lemma wp_get (Q : MQTT_CLIENT → @Peer A * Heap → Prop) p h : Q (client p) (p, h) → wp get Q (p, h).
Proof. intros HQ. by exists (client p), (p, h). Qed.

Lemma wp_modify f (Q : unit → @Peer A * Heap → Prop) p h :
  Q tt (mkPeer (f (client p)) (env p) (wire p) (user p), h) → wp (modify f) Q (p, h).
Proof. intros HQ. by eexists tt, _. Qed.

Variable operations : option (MQTT_CLIENT_EVENT_RESULT → option MsgInfo → Client unit).
Variable errors : option (MQTT_CLIENT_EVENT_ERROR → Client unit).
Variable on_disconnected : Client unit.

(** The transport, if there is one, exists and reports no error before it returns,
    and the client is not saying goodbye. *)
Record steady p : Prop := {
  steady_sendings : Forall (λ s, s ≠ SendCompleted IO_SEND_ERROR) (sendings (env p));
  steady_state : packetState (client p) ≠ DISCONNECT_TYPE;
  steady_alive : xioHandle (client p) = true → alive (env p) = true }.

(** Nothing changes but the record of the calls and the answers that are left. *)
Record passed p (ws : list Wire) p' : Prop := {
  passed_steady : steady p';
  passed_client : client p' = client p;
  passed_user : user p' = user p;
  passed_ticks : ticks (env p') = ticks (env p);
  passed_alive : alive (env p') = alive (env p);
  passed_wire : wire p' = wire p ++ if xioHandle (client p) then ws else [] }.

Lemma wp_steady_send data (Q : status → @Peer A * Heap → Prop) p h :
  steady p →
  (∀ r p', (r = OK → xioHandle (client p) = true) → passed p [Sent data] p' → Q r (p', h)) →
  wp (sendPacketItem operations errors on_disconnected data) Q (p, h).
Proof.
  intros [Hs Hp Ha] HQ. unfold sendPacketItem. apply wp_bind.
  destruct (xioHandle (client p)) eqn:Hx; cycle 1.
  { exists false, (p, h). split; [unfold use_xio; by rewrite Hx|]. apply wp_ret, HQ; [done|].
    split; [by split; rewrite ?Hx|done..|by rewrite Hx, app_nil_r]. }
  specialize (Ha eq_refl). exists true, (p, h). split; [unfold use_xio; by rewrite Hx, Ha|].
  apply wp_bind. eexists tt, _. split; [done|].
  set (p1 := mkPeer (client p) (env p) (wire p ++ [Sent data]) (user p)).
  apply wp_bind. destruct (sendings (env p)) as [|s ss] eqn:E.
  - unfold wp, next_sending. cbn [env p1]. rewrite E. do 2 eexists. split; [done|]. apply wp_ret, HQ; [done|].
    split; [split; cbn; rewrite ?E; done|done..|by rewrite Hx].
  - unfold wp at 1, next_sending. cbn [env p1]. rewrite E. do 2 eexists. split; [done|].
    apply Forall_cons in Hs as [Hs1 Hs].
    set (p2 := mkPeer _ _ _ _).
    assert (passed p [Sent data] p2) as Hr by by split; [split|..|rewrite Hx].
    destruct s as [| |result]; [by apply wp_ret, HQ..|]. apply wp_bind.
    destruct result; [|done|by apply wp_ret, wp_ret, HQ].
    apply wp_bind, wp_get. rewrite (proj2 (Z.eqb_neq _ _)) by done. by apply wp_ret, wp_ret, HQ.
Qed.

Lemma wp_steady_buffer l (Q : status → @Peer A * Heap → Prop) p h :
  l ≠ [] → steady p →
  (∀ r p' h', (r = OK → xioHandle (client p) = true) → passed p [Sent l] p' → used (-2) h h' →
     Q r (p', h')) →
  wp (send_buffer operations errors on_disconnected (Some (buf l))) Q (p, h).
Proof.
  intros Hl Hg HQ. unfold send_buffer, packet_bytes. rewrite buf_u_char by done. cbn [default].
  apply wp_bind, wp_steady_send; [done|]. intros r p' Hx Hr.
  apply wp_bind, wp_alloc, wp_BUFFER_delete. rewrite blocks_cons by done. intros h' Hu.
  apply wp_ret. by apply HQ.
Qed.

(** A packet that may be built. *)
Lemma wp_steady_packet d type l (Q : status → @Peer A * Heap → Prop) p h :
  makes d l → l ≠ [] → type ≠ DISCONNECT_TYPE → steady p →
  (∀ h', used 0 h h' → ¬ plenty h → Q FAILURE (p, h')) →
  (∀ r p' h', (r = OK → xioHandle (client p) = true) →
     passed (mkPeer (set_packetState type (client p)) (env p) (wire p) (user p)) [Sent l] p' →
     used 0 h h' → Q r (p', h')) →
  wp (send_packet operations errors on_disconnected d type) Q (p, h).
Proof.
  intros Hd Hl Ht Hg HN HS. apply wp_bind, wp_alloc. eapply wp_mono; [apply Hd|].
  intros [b|] h1 Hb; cycle 1. { destruct Hb as [Hu Hp]. by apply wp_ret, HN. }
  destruct Hb as [-> Hu1]. apply wp_bind, wp_modify, wp_steady_buffer; [done|by destruct Hg|].
  intros r p2 h2 Hx Hr Hu2. apply HS; [done|done|by eapply used_trans].
Qed.
End steady.

Section client.
Context `{Arch} {A : Type} (notify : A → Notification → A).
#[warnings="-notation-for-abbreviation"]
Notation Peer := (@Peer A).
#[warnings="-notation-for-abbreviation"]
Notation Client := (ST (Peer * Heap)).
Implicit Types (p : Peer) (h : Heap).

(** An application that keeps what it is told. *)
Definition tell (n : Notification) : Client unit := λ '(p, h),
  Some (tt, (mkPeer (client p) (env p) (wire p) (notify (user p) n), h)).
Definition operations : option (MQTT_CLIENT_EVENT_RESULT → option MsgInfo → Client unit) :=
  Some (λ e i, tell (Operation e i)).
Definition messages : option (MQTT_MESSAGE → Client unit) := Some (λ m, tell (Message m)).

Variable errors : option (MQTT_CLIENT_EVENT_ERROR → Client unit).
Variable on_disconnected : Client unit.

(** The clock works, the transport exists and reports no error before it returns,
    and the client is not saying goodbye. *)
Record good p : Prop := {
  good_ticks : Forall is_Some (ticks (env p));
  good_sendings : Forall (λ s, s ≠ SendCompleted IO_SEND_ERROR) (sendings (env p));
  good_state : packetState (client p) ≠ DISCONNECT_TYPE;
  good_xio : xioHandle (client p) = true;
  good_alive : alive (env p) = true }.

(** From [p] to [p'] the application is told [ns] and the transport called for [ws]. *)
Record reacts p (ns : list Notification) (ws : list Wire) p' : Prop := {
  reacts_good : good p';
  reacts_app : user p' = foldl notify (user p) ns;
  reacts_wire : wire p' = wire p ++ ws }.

Lemma reacts_refl p : good p → reacts p [] [] p.
Proof. intros Hg. split; [done|done|by rewrite app_nil_r]. Qed.

Lemma reacts_trans p p1 p2 ns1 ns2 ws1 ws2 :
  reacts p ns1 ws1 p1 → reacts p1 ns2 ws2 p2 → reacts p (ns1 ++ ns2) (ws1 ++ ws2) p2.
Proof.
  intros [_ Ha1 Hw1] [Hg Ha2 Hw2]. split; [done|by rewrite foldl_app, Ha2, Ha1|].
  by rewrite Hw2, Hw1, app_assoc.
Qed.

Lemma wp_tell n (Q : unit → Peer * Heap → Prop) p h :
  good p → (∀ p', reacts p [n] [] p' → client p' = client p → Q tt (p', h)) → wp (tell n) Q (p, h).
Proof.
  intros [] HQ. eexists tt, _. split; [done|]. apply HQ; [|done].
  split; [by split|done|by rewrite app_nil_r].
Qed.

Lemma wp_modify_good f (Q : unit → Peer * Heap → Prop) p h :
  good p → packetState (f (client p)) ≠ DISCONNECT_TYPE →
  xioHandle (f (client p)) = xioHandle (client p) →
  (∀ p', reacts p [] [] p' → client p' = f (client p) → Q tt (p', h)) → wp (modify f) Q (p, h).
Proof.
  intros [] Hf Hx HQ. eexists tt, _. split; [done|]. apply HQ; [|done].
  split; [by split; cbn; rewrite ?Hx|done|by rewrite app_nil_r].
Qed.

Lemma wp_use_xio (Q : bool → Peer * Heap → Prop) p h :
  good p → Q true (p, h) → wp use_xio Q (p, h).
Proof. intros [] HQ. exists true, (p, h). split; [|done]. unfold use_xio. by rewrite good_xio0, good_alive0. Qed.

Lemma wp_current_ms (Q : option Z → Peer * Heap → Prop) p h :
  good p → (∀ t p', reacts p [] [] p' → client p' = client p → Q (Some t) (p', h)) →
  wp current_ms Q (p, h).
Proof.
  intros [Ht Hs Hp Hx Ha] HQ. unfold wp, current_ms. destruct (ticks (env p)) as [|[t|] ts] eqn:E.
  - do 2 eexists. split; [done|]. apply HQ; [|done]. apply reacts_refl. split; rewrite ?E; done.
  - do 2 eexists. split; [done|]. apply HQ; [|done]. apply Forall_cons in Ht as [_ Ht].
    split; [by split|done|by rewrite app_nil_r].
  - by apply Forall_cons in Ht as [[? [=]] _].
Qed.

(** *** Sending *)

(** Neither the client nor its clock is touched. *)
Definition same p p' : Prop := client p' = client p ∧ ticks (env p') = ticks (env p).

Lemma good_steady p : good p → steady p.
Proof. by intros []. Qed.

Lemma passed_reacts p ws p' : good p → passed p ws p' → reacts p [] ws p' ∧ same p p'.
Proof.
  intros [] [[] Hc Hu Ht Ha Hw]. rewrite good_xio0 in Hw. split; [|done].
  split; [split|done|done]; by rewrite ?Hc, ?Ht, ?Ha.
Qed.

(** A packet that is in a buffer is sent and its memory given back. *)
Lemma wp_send_buffer l (Q : status → Peer * Heap → Prop) p h :
  l ≠ [] → good p →
  (∀ r p' h', reacts p [] [Sent l] p' → same p p' → used (-2) h h' → Q r (p', h')) →
  wp (send_buffer operations errors on_disconnected (Some (buf l))) Q (p, h).
Proof.
  intros Hl Hg HQ. apply wp_steady_buffer; [done|by apply good_steady|].
  intros r p' h' _ [? ?]%passed_reacts Hu; [by apply HQ|done].
Qed.

Lemma wp_send_reply d l (Q : unit → Peer * Heap → Prop) p h :
  makes d l → l ≠ [] → good p → plenty h →
  (∀ p' h', reacts p [] [Sent l] p' → same p p' → used 0 h h' → Q tt (p', h')) →
  wp (send_reply operations errors on_disconnected d) Q (p, h).
Proof.
  intros Hd Hl Hg Hh HQ. apply wp_bind, wp_alloc. eapply wp_mono; [apply Hd|].
  intros [b|] h1 Hb; [|by destruct Hb]. destruct Hb as [-> Hu1].
  apply wp_bind, wp_send_buffer; [done|done|]. intros r p' h2 Hr Hc Hu2.
  apply wp_ret. apply HQ; [done|done|by eapply used_trans].
Qed.

(** *** Reading *)

Lemma read_be16 pre id rest len :
  is_u16 id → (2 <= len)%nat →
  byteutil_read_uint16 (pre ++ be16 id ++ rest) (length pre) len = Some (id, (length pre + 2)%nat).
Proof.
  intros Hid Hl. unfold byteutil_read_uint16. rewrite (proj2 (Nat.leb_le _ _)) by done.
  change (be16 id ++ rest) with (id / 256 :: id mod 256 :: rest).
  rewrite (list_lookup_middle pre _ _ (length pre)), bind_ret by done.
  replace (pre ++ id / 256 :: id mod 256 :: rest) with ((pre ++ [id / 256]) ++ id mod 256 :: rest)
    by by rewrite <- app_assoc.
  rewrite list_lookup_middle, bind_ret by by rewrite length_app. do 2 f_equal. ulia.
Qed.

Lemma wp_readUTF topic rest len (Q : option (list Z) * nat → Heap → Prop) h :
  topic ≠ [] → zlen topic <= USHRT_MAX → (2 <= len)%nat → plenty h →
  (∀ h', used 1 h h' → Q (Some (topic ++ [0]), length (utf topic)) h') →
  wp (byteutil_readUTF (utf topic ++ rest) 0 len) Q h.
Proof.
  intros Ht Hs Hl Hh HQ. assert (0 < length topic)%nat as Hpos by (destruct topic; cbn; (done || lia)).
  unfold zlen, USHRT_MAX in Hs. unfold byteutil_readUTF.
  eapply wp_bind, wp_lift.
  { unfold utf. rewrite <- app_assoc. apply (read_be16 []); [unfold zlen; ulia|done]. }
  cbn [length Nat.add]. unfold zlen. rewrite Nat2Z.id, (proj2 (Nat.ltb_lt _ _)) by done.
  apply wp_bind, wp_malloc; [|done]. intros k h' Hk Hu.
  eapply wp_bind, wp_lift; [apply copy_to_spec; [lia|]|].
  { unfold utf. rewrite length_drop, !length_app, length_be16. lia. }
  eapply wp_bind, wp_lift.
  { rewrite bind_ret. apply st8_Some. rewrite length_splice; [lia|]. rewrite length_take. lia. }
  apply wp_ret. replace (<[_ := _]> _) with (topic ++ [0]).
  { replace (2 + length topic)%nat with (length (utf topic)) by (rewrite length_utf; lia). by apply HQ. }
  unfold utf. rewrite <- app_assoc. rewrite drop_app_length' by done. rewrite take_app_length.
  unfold splice. rewrite take_0. cbn [app Nat.add].
  rewrite insert_app_r_alt, Nat.sub_diag by lia.
  destruct (drop (length topic) k) as [|x [|]] eqn:E; [..|].
  - apply (f_equal length) in E. rewrite length_drop in E. cbn in E. lia.
  - done.
  - apply (f_equal length) in E. rewrite length_drop in E. cbn in E. lia.
Qed.

(** *** The packets *)

#[warnings="-notation-for-abbreviation"]
Notation recv := (recvCompleteCallback operations messages errors on_disconnected).

(** Packets with a content: the time of their arrival is noted first. *)
Lemma wp_recv_data type flags body (Q : unit → Peer * Heap → Prop) p h :
  type ≠ PINGRESP_TYPE → body ≠ [] → good p →
  (∀ p', reacts p [] [] p' →
    wp (if type =? CONNACK_TYPE then recv_connack operations body
        else if type =? PUBLISH_TYPE
        then recv_publish operations messages errors on_disconnected flags body
        else if (type =? PUBACK_TYPE) || (type =? PUBREC_TYPE)
                || (type =? PUBREL_TYPE) || (type =? PUBCOMP_TYPE)
        then recv_ack operations errors on_disconnected type body
        else if type =? SUBACK_TYPE then recv_suback operations errors on_disconnected body
        else if type =? UNSUBACK_TYPE then recv_unsuback operations body
        else mret tt) Q (p', h)) →
  wp (recv type flags (Some (buf body))) Q (p, h).
Proof.
  intros Ht Hb Hg HQ. unfold recvCompleteCallback. rewrite bool_decide_true by by eexists.
  cbn [orb]. rewrite buf_u_char, (proj2 (Z.eqb_neq _ _)) by done.
  apply wp_bind, wp_current_ms; [done|]. intros t p1 Hr1 Hc1.
  apply wp_bind, wp_modify_good; [apply Hr1|rewrite Hc1; apply Hg|done|].
  intros p2 Hr2 _. apply HQ. by apply (reacts_trans _ _ _ [] [] [] [] Hr1).
Qed.

(** What the client does for each packet. *)
Definition handles (i : Inbound) p h : Prop :=
  wp (recv (ptype (inbound_packet i)) (pflags (inbound_packet i)) (packet_data (inbound_packet i)))
    (λ _ '(p', h'), reacts p [notification i] (answers i) p' ∧ used 0 h h') (p, h).

Lemma handles_connack present code p h :
  is_u8 code → good p → handles (InConnack present code) p h.
Proof.
  intros Hc Hg. unfold handles. cbn [inbound_packet ptype pflags packet_data pbody].
  apply wp_recv_data; [done..|]. intros p1 Hr1. cbv beta. cbn [Z.eqb].
  unfold recv_connack, call, operations.
  eapply wp_bind, wp_lift; [done|]. eapply wp_bind, wp_lift; [done|].
  apply wp_bind, wp_tell; [apply Hr1|]. intros p2 Hr2 Ec2.
  pose proof (reacts_trans _ _ _ _ _ _ _ Hr1 Hr2) as Hr.
  replace ((if present then 1 else 0) =? 1) with present in Hr by by destruct present.
  destruct (code =? _).
  - apply wp_modify_good; [apply Hr2|apply Hr2|done|]. intros p3 Hr3 _.
    split; [by apply (reacts_trans _ _ _ _ [] _ [] Hr)|apply used_refl].
  - apply wp_ret. split; [done|apply used_refl].
Qed.

Lemma handles_pingresp p h : good p → handles InPingresp p h.
Proof.
  intros Hg. unfold handles. cbn [inbound_packet ptype pflags packet_data pbody].
  unfold recvCompleteCallback. change (PINGRESP_TYPE =? PINGRESP_TYPE) with true. rewrite orb_true_r.
  apply wp_bind, wp_current_ms; [done|]. intros t p1 Hr1 Hc1.
  apply wp_bind, wp_modify_good; [apply Hr1|rewrite Hc1; apply Hg|done|]. intros p2 Hr2 Hc2.
  apply wp_bind, wp_modify_good; [apply Hr2|apply Hr2|done|]. intros p3 Hr3 Hc3.
  apply wp_tell; [apply Hr3|]. intros p4 Hr4 _. split; [|apply used_refl].
  apply (reacts_trans _ _ _ [] _ [] [] Hr1), (reacts_trans _ _ _ [] _ [] [] Hr2).
  by apply (reacts_trans _ _ _ [] _ [] [] Hr3).
Qed.

(** The packets of the handshake: identifier only. *)
Lemma wp_recv_ack packet action (next : Z → Client unit) id (Q : unit → Peer * Heap → Prop) p h :
  is_u16 id → good p →
  (if packet =? PUBACK_TYPE then MQTT_CLIENT_ON_PUBLISH_ACK
   else if packet =? PUBREC_TYPE then MQTT_CLIENT_ON_PUBLISH_RECV
   else if packet =? PUBREL_TYPE then MQTT_CLIENT_ON_PUBLISH_REL
   else MQTT_CLIENT_ON_PUBLISH_COMP) = action →
  (∀ id, next id = if packet =? PUBREC_TYPE
     then send_reply operations errors on_disconnected (mqtt_codec_publishRelease id)
     else if packet =? PUBREL_TYPE
     then send_reply operations errors on_disconnected (mqtt_codec_publishComplete id)
     else mret tt) →
  (∀ p', reacts p [Operation action (Some (PUBLISH_ACK id))] [] p' → wp (next id) Q (p', h)) →
  wp (recv_ack operations errors on_disconnected packet (be16 id)) Q (p, h).
Proof.
  intros Hid Hg Ha Hn HQ. unfold recv_ack, call, operations.
  eapply wp_bind, wp_lift; [rewrite <- (app_nil_r (be16 id)); by apply (read_be16 [])|].
  rewrite Ha. apply wp_bind, wp_tell; [done|]. intros p1 Hr1 _. rewrite <- Hn. by apply HQ.
Qed.

#[local] Ltac acks :=
  intros; unfold handles; cbn [inbound_packet ptype pflags packet_data pbody];
  apply wp_recv_data; [done..|]; intros p1 Hr1;
  eapply wp_recv_ack; [done|apply Hr1|reflexivity|reflexivity|];
  intros p2 Hr2; pose proof (reacts_trans _ _ _ _ _ _ _ Hr1 Hr2) as Hr.

Lemma handles_puback id p h : is_u16 id → good p → handles (InPuback id) p h.
Proof. acks. apply wp_ret. split; [done|apply used_refl]. Qed.

Lemma handles_pubcomp id p h : is_u16 id → good p → handles (InPubcomp id) p h.
Proof. acks. apply wp_ret. split; [done|apply used_refl]. Qed.

Lemma handles_pubrec id p h : is_u16 id → good p → plenty h → handles (InPubrec id) p h.
Proof.
  acks. eapply wp_send_reply; [by apply reply_makes|done|apply Hr|done|].
  intros p3 h3 Hr3 _ Hu. split; [|done]. by apply (reacts_trans _ _ _ _ [] [] _ Hr).
Qed.

Lemma handles_pubrel id p h : is_u16 id → good p → plenty h → handles (InPubrel id) p h.
Proof.
  acks. eapply wp_send_reply; [by apply reply_makes|done|apply Hr|done|].
  intros p3 h3 Hr3 _ Hu. split; [|done]. by apply (reacts_trans _ _ _ _ [] [] _ Hr).
Qed.

Lemma handles_unsuback id p h : is_u16 id → good p → handles (InUnsuback id) p h.
Proof.
  intros Hid Hg. unfold handles. cbn [inbound_packet ptype pflags packet_data pbody].
  apply (wp_recv_data _ _ (be16 id)); [done..|]. intros p1 Hr1.
  change (UNSUBACK_TYPE =? CONNACK_TYPE) with false. cbv beta iota. unfold recv_unsuback, call, operations.
  eapply wp_bind, wp_lift; [rewrite <- (app_nil_r (be16 id)); by apply (read_be16 [])|].
  apply wp_tell; [apply Hr1|]. intros p2 Hr2 _.
  split; [by apply (reacts_trans _ _ _ [] _ [] [] Hr1)|apply used_refl].
Qed.

Lemma read_bytes_all pre l : read_bytes (pre ++ l) (length pre) (length l) = Some l.
Proof.
  revert pre. induction l as [|x l IH]; intros pre; [done|]. cbn [length read_bytes].
  unfold byteutil_readByte. rewrite list_lookup_middle, !bind_ret by done.
  specialize (IH (pre ++ [x])). rewrite length_app, <- app_assoc in IH. cbn [app length] in IH.
  by rewrite IH.
Qed.

Lemma handles_suback id codes p h :
  inbound_ok (InSuback id codes) → good p → plenty h → handles (InSuback id codes) p h.
Proof.
  intros (Hid & Hb & Hl) Hg Hh. unfold handles. cbn [inbound_packet ptype pflags packet_data pbody].
  pose proof size_mod_wide. unfold zlen in Hl.
  apply (wp_recv_data _ _ (be16 id ++ codes)); [done..|]. intros p1 Hr1.
  change (SUBACK_TYPE =? CONNACK_TYPE) with false. cbv beta iota.
  unfold recv_suback, call, operations.
  eapply wp_bind, wp_lift.
  { apply (read_be16 []); [done|]. rewrite length_app, length_be16. lia. }
  replace (Z.to_nat _) with (length codes).
  2:{ rewrite length_app, length_be16, Z.mod_small; lia. }
  apply wp_bind, wp_alloc, wp_malloc; [|done]. intros k h1 _ Hu1.
  eapply wp_bind, wp_lift; [apply (read_bytes_all (be16 id))|].
  apply wp_bind, wp_tell; [apply Hr1|]. intros p2 Hr2 _.
  apply wp_alloc, wp_free. intros h2 Hu2.
  split; [by apply (reacts_trans _ _ _ [] _ [] [] Hr1)|by eapply used_trans].
Qed.

(** *** Messages *)

(** The flags of a message are read back. *)
Lemma flags_read qos dup retain :
  0 <= qos <= 2 → (qos = 0 → dup = false ∧ retain = false) →
  received_qos (publish_flags qos dup retain) = qos ∧
  negb (Z.land (publish_flags qos dup retain) DUPLICATE_FLAG_MASK =? 0) = dup ∧
  negb (Z.land (publish_flags qos dup retain) RETAIN_FLAG_MASK =? 0) = retain.
Proof.
  intros Hq H0. assert (qos = 0 ∨ qos = 1 ∨ qos = 2) as [->|[->| ->]] by lia.
  - by destruct H0 as [-> ->].
  - by destruct dup, retain.
  - by destruct dup, retain.
Qed.

Lemma length_publish_header qos id topic :
  length (publish_header qos id topic) =
    (length (utf topic) + if (qos =? DELIVER_AT_MOST_ONCE)%Z then 0 else 2)%nat.
Proof. unfold publish_header. rewrite length_app. by destruct (qos =? _)%Z. Qed.

(** The identifier of the message, and where the payload starts. *)
Lemma read_message_id qos id topic payload :
  is_u16 id →
  (if qos =? DELIVER_AT_MOST_ONCE then Some (0, length (utf topic))
   else byteutil_read_uint16 (publish_body qos id topic payload) (length (utf topic))
          (length (publish_body qos id topic payload) - length (utf topic))) =
    Some (received_id qos id, length (publish_header qos id topic)).
Proof.
  intros Hid. rewrite length_publish_header. unfold received_id, publish_body, publish_header.
  unfold DELIVER_AT_MOST_ONCE. destruct (qos =? 0).
  - by rewrite Nat.add_0_r.
  - rewrite <- app_assoc. apply read_be16; [done|]. rewrite !length_app, length_be16. lia.
Qed.

Lemma wp_acknowledge qos id (Q : unit → Peer * Heap → Prop) p h :
  is_u16 id → 0 <= qos <= 2 → good p → plenty h →
  (∀ p' h', reacts p [] (answers (InPublish id qos [] [] false false)) p' → used 0 h h' → Q tt (p', h')) →
  wp (acknowledge operations errors on_disconnected qos (received_id qos id)) Q (p, h).
Proof.
  intros Hid Hq Hg Hh HQ. unfold acknowledge. cbn [answers] in HQ.
  assert (qos = 0 ∨ qos = 1 ∨ qos = 2) as [->|[->| ->]] by lia; cbn [Z.eqb received_id] in *.
  - apply wp_ret, HQ; [by apply reacts_refl|apply used_refl].
  - eapply wp_send_reply; [by apply reply_makes|done|done|done|]. intros; by apply HQ.
  - eapply wp_send_reply; [by apply reply_makes|done|done|done|]. intros; by apply HQ.
Qed.

Lemma handles_publish id qos topic payload dup retain p h :
  inbound_ok (InPublish id qos topic payload dup retain) → good p → plenty h →
  handles (InPublish id qos topic payload dup retain) p h.
Proof.
  intros (Hid & Hq & Hbt & Hbp & Hne & Hcs & Ht & Hmax & H0) Hg Hh. unfold handles.
  set (blk := publish_body qos id topic payload) in *.
  apply (wp_recv_data PUBLISH_TYPE _ blk); [done..|]. intros p1 Hr1.
  change (PUBLISH_TYPE =? CONNACK_TYPE) with false. cbv beta iota.
  unfold recv_publish, call, messages. cbn [inbound_packet pflags].
  destruct (flags_read qos dup retain) as (-> & -> & ->); [done..|].
  assert (blk = utf topic ++ (if qos =? DELIVER_AT_MOST_ONCE then [] else be16 id) ++ payload) as Eblk.
  { unfold blk, publish_body, publish_header. by rewrite <- app_assoc. }
  apply wp_bind, wp_alloc. rewrite Eblk at 1. apply wp_readUTF; [done|done| |done|].
  { rewrite Eblk, length_app, length_utf. lia. }
  intros h1 Hu1. eapply wp_bind, wp_lift; [by apply read_message_id|].
  eapply wp_bind, wp_lift; [by apply (cstr_terminated topic [])|].
  assert (drop (length (publish_header qos id topic)) blk = payload) as Ed.
  { unfold blk, publish_body. by rewrite drop_app_length. }
  assert (length blk - length (publish_header qos id topic) = length payload)%nat as ->.
  { unfold blk, publish_body. rewrite length_app. lia. }
  rewrite Ed. apply wp_bind, wp_alloc, wp_create; [apply firstn_all| |].
  2:{ intros h2 _ []. by apply Hu1. }
  intros h2 Hu2. cbn [mqttmessage_setIsDuplicateMsg mqttmessage_setIsRetained].
  apply wp_bind, wp_bind, wp_bind, wp_tell; [apply Hr1|]. intros p2 Hr2 _.
  apply wp_acknowledge; [done|done|apply Hr2|by apply Hu2, Hu1|]. intros p3 h3 Hr3 Hu3.
  apply wp_alloc. apply (wp_destroy (received_id qos id) qos topic payload dup retain).
  intros h4 Hu4. apply wp_alloc, wp_free. intros h5 Hu5.
  split.
  - apply (reacts_trans _ _ _ [] _ [] _ Hr1).
    by apply (reacts_trans _ _ _ [_] [] [] _ Hr2).
  - eapply used_trans; [exact Hu1|eapply used_trans; [exact Hu2|eapply used_trans;
      [exact Hu3|eapply used_trans; [exact Hu4|exact Hu5|reflexivity]|reflexivity]|reflexivity]|].
    lia.
Qed.

Lemma handles_inbound i p h : inbound_ok i → good p → plenty h → handles i p h.
Proof.
  destruct i; intros Hi ??;
    [by apply handles_connack|by apply handles_publish|by apply handles_puback
    |by apply handles_pubrec|by apply handles_pubrel|by apply handles_pubcomp
    |by apply handles_suback|by apply handles_unsuback|by apply handles_pingresp].
Qed.

(** ** Streams *)

Lemma utf_bytes s : bytes s → zlen s <= USHRT_MAX → bytes (utf s).
Proof.
  unfold zlen, USHRT_MAX. intros. apply bytes_app. split; [apply be16_bytes|done]. unfold zlen. ulia.
Qed.

Lemma publish_flags_header qos dup retain : header_ok PUBLISH_TYPE (publish_flags qos dup retain).
Proof.
  split; [done|]. split; [done|]. unfold publish_flags. destruct dup, retain; repeat case_match; by vm_compute.
Qed.

Lemma publish_body_bytes qos id topic payload :
  is_u16 id → bytes topic → zlen topic <= USHRT_MAX → bytes payload →
  bytes (publish_body qos id topic payload).
Proof.
  intros. apply bytes_app. split; [|done]. apply bytes_app. split; [by apply utf_bytes|].
  destruct (qos =? _); [apply Forall_nil_2|by apply be16_bytes].
Qed.

Lemma inbound_packet_ok i :
  inbound_ok i → packet_ok (inbound_packet i) ∧ bytes (pbody (inbound_packet i)).
Proof.
  assert (∀ id t f, is_u16 id → header_ok t f → t ≠ PINGRESP_TYPE →
    packet_ok (mkPacket t f (be16 id)) ∧ bytes (be16 id)) as Hack.
  { intros id t f Hid Hh Ht. split; [by split|by apply be16_bytes]. }
  destruct i as [present code|id qos topic payload dup retain|id|id|id|id|id codes|id|];
    cbn [inbound_ok inbound_packet pbody]; intros Hi; try (by apply Hack).
  - split; [by split; [|done|done]|]. destruct present; solve_bytes.
  - destruct Hi as (Hid & Hq & Hbt & Hbp & Hne & Hcs & Ht & Hmax & H0).
    split; [split; [apply publish_flags_header|done|done]|]. by apply publish_body_bytes.
  - destruct Hi as (Hid & Hb & Hl). split.
    + split; [done| |done]. unfold zlen, max_received in *. cbn [pbody].
      rewrite length_app, length_be16. lia.
    + apply bytes_app. split; [by apply be16_bytes|done].
  - split; [by split; [| |done]|]. apply Forall_nil_2.
Qed.

(** The bytes of the broker, and what the client makes of them. *)
Definition inbound_stream (ins : list Inbound) : list Z := stream inbound_packet ins.

Lemma delivered_reacts ins p p' :
  good p →
  delivered (λ p i p', reacts p [notification i] (answers i) p') p ins p' →
  reacts p (notification <$> ins) (ins ≫= answers) p'.
Proof.
  intros Hg Hd. induction Hd as [p|p p1 p2 i ins Hr Hd IH]; [by apply reacts_refl|].
  apply (reacts_trans _ _ _ [_] _ _ _ Hr), IH, Hr.
Qed.

#[warnings="-notation-for-abbreviation"]
Notation cb := (on_packet operations messages errors on_disconnected).

Lemma receive_inbound ins c p h :
  Forall inbound_ok ins → idle cb p c → good p → plenty h →
  wp (receive_bytes c (inbound_stream ins)) (λ '(r, c') h', r = OK ∧ ∃ p',
    idle cb p' c' ∧ reacts p (notification <$> ins) (ins ≫= answers) p' ∧ used 0 h h') h.
Proof.
  intros Hins Hc Hg Hh. eapply wp_mono.
  - apply (wp_receive_stream inbound_packet good (λ p i p', reacts p [notification i] (answers i) p')
             ins cb p c h); [|done..].
    eapply Forall_impl; [exact Hins|]. intros i Hi. destruct (inbound_packet_ok i Hi) as [Hp Hb].
    split; [done|]. split; [done|]. intros p1 h1 Hg1 Hh1.
    destruct (handles_inbound i p1 h1 Hi Hg1 Hh1) as ([] & [p2 h2] & E & Hr & Hu).
    exists p2, h2. split; [unfold on_packet; by rewrite E|]. split; [apply Hr|done].
  - intros [r c'] h' (-> & p' & Hc' & _ & Hd & Hu). split; [done|]. exists p'.
    split; [done|]. split; [by apply delivered_reacts|done].
Qed.

(** The pieces of the stream, as the transport hands them over. *)
Lemma dowork_bytes chunks c c' h h' :
  Forall (λ l, l ≠ []) chunks →
  receive_bytes c (concat chunks) h = Some ((OK, c'), h') →
  xio_dowork operations errors on_disconnected (IoBytes <$> chunks) (c, h) = Some (tt, (c', h')).
Proof.
  intros Hne. revert c h. induction Hne as [|l chunks Hl Hne IH]; intros c h E.
  { by injection E as [= -> ->]. }
  cbn [fmap list_fmap xio_dowork io_event concat] in *. rewrite st_bind_eq.
  unfold onBytesReceived. rewrite bytesReceived_bytes, st_bind_eq by done.
  rewrite receive_bytes_app, st_bind_eq in E.
  destruct (receive_bytes c l h) as [[[r c1] h1]|]; [|done]. rewrite !bind_ret in *.
  destruct r; [|done]. cbn [mret st_ret mbind option_bind]. by apply IH.
Qed.

(** ** Publishing *)

Lemma publish_payload qos dup retain id topic payload :
  mqtt_codec_publish qos dup retain id (Some topic)
    (match payload with [] => None | _ => Some payload end) (length payload) =
  mqtt_codec_publish qos dup retain id (Some topic) (Some payload) (length payload).
Proof. by destruct payload. Qed.

Lemma wp_publish id qos topic payload dup retain (Q : status → Peer * Heap → Prop) p h :
  is_u16 id → zlen topic <= USHRT_MAX → zlen (publish_body qos id topic payload) < max_body →
  good p → plenty h →
  (∀ r p' h', reacts p []
     [Sent (frame PUBLISH_TYPE (publish_flags qos dup retain) (publish_body qos id topic payload))] p' →
     used 0 h h' → Q r (p', h')) →
  wp (mqtt_client_publish operations errors on_disconnected
        (Some (owned id qos topic payload dup retain))) Q (p, h).
Proof.
  intros Hid Ht Hm Hg Hh HQ. unfold mqtt_client_publish, owned.
  cbn [mqttmessage_getApplicationMsg const_payload no_payload payload_length Nat.ltb Nat.leb appPayload
    mqttmessage_getQosType mqttmessage_getIsDuplicateMsg mqttmessage_getIsRetained
    mqttmessage_getPacketId mqttmessage_getTopicName qosInfo isDuplicateMsg isMessageRetained
    msg_packetId msg_topicName message].
  rewrite publish_payload. apply wp_bind, wp_alloc.
  eapply wp_mono; [by apply publish_makes|]. intros [b|] h1 Hb; [|by destruct Hb].
  destruct Hb as [-> Hu1]. apply wp_bind, wp_modify_good; [done|done|done|]. intros p1 Hr1 _.
  apply wp_send_buffer; [done|apply Hr1|]. intros r p2 h2 Hr2 _ Hu2.
  apply HQ; [by apply (reacts_trans _ _ _ [] [] [] _ Hr1)|by eapply used_trans].
Qed.

(** ** Keeping the connection alive *)

Definition tell_error : option (MQTT_CLIENT_EVENT_ERROR → Client unit) := Some (λ e, tell (Problem e)).

(** A call of [mqtt_client_dowork] during which the transport does nothing. *)
Definition silent_dowork : Client unit :=
  x ← use_xio; if (x : bool) then keep_alive operations errors on_disconnected else mret tt.

Definition with_ticks (ts : list (option Z)) p : Peer :=
  mkPeer (client p) (mkEnv ts (sendings (env p)) (openings (env p)) (closings (env p)) (alive (env p))) (wire p) (user p).

Lemma wp_tick t ts (Q : option Z → Peer * Heap → Prop) p h :
  ticks (env p) = t :: ts → Q t (with_ticks ts p, h) → wp current_ms Q (p, h).
Proof. intros E HQ. unfold wp, current_ms. rewrite E. by eexists _, _. Qed.

Lemma reacts_with_ticks ts p : good p → Forall is_Some ts → reacts p [] [] (with_ticks ts p).
Proof. intros [] Hts. split; [by split|done|by rewrite app_nil_r]. Qed.

(** The connection stands, and nobody waits for it to close. *)
Record standing p : Prop := {
  standing_good : good p;
  standing_xio : xioHandle (client p) = true;
  standing_socket : socketConnected (client p) = true;
  standing_client : clientConnected (client p) = true;
  standing_keep : 0 < keepAlive (client p);
  standing_cb : disconnect_cb (client p) = false }.

(** Nothing is due. *)
Definition idle_at (t : Z) (c : MQTT_CLIENT) : Prop :=
  if 0 <? timeSincePing c then seconds t (timeSincePing c) <= maxPingRespTime c
  else seconds t (packetRecvTimeMs c) < keepAlive c.

Lemma wp_silent_idle t ts (Q : unit → Peer * Heap → Prop) p h :
  standing p → ticks (env p) = Some t :: ts → idle_at t (client p) →
  Q tt (with_ticks ts p, h) → wp silent_dowork Q (p, h).
Proof.
  intros [Hg Hx Hs Hc Hk Hd] Et Hi HQ. apply wp_bind, wp_use_xio; [done|]. unfold keep_alive.
  apply wp_bind, wp_get. rewrite Hs, Hc, (proj2 (Z.ltb_lt _ _)) by done. cbn [andb].
  apply wp_bind. eapply wp_tick; [exact Et|]. unfold idle_at in Hi. destruct (0 <? timeSincePing _).
  - rewrite (proj2 (Z.ltb_ge _ _)) by done. cbn [andb]. destruct (_ <=? _); by apply wp_ret.
  - cbn [andb]. rewrite (proj2 (Z.leb_gt _ _)) by done. by apply wp_ret.
Qed.

(** A ping is due. *)
Lemma wp_silent_ping t t' ts (Q : unit → Peer * Heap → Prop) p h :
  standing p → plenty h → ticks (env p) = Some t :: Some t' :: ts →
  timeSincePing (client p) = 0 → keepAlive (client p) <= seconds t (packetRecvTimeMs (client p)) →
  (∀ p' h', reacts p [] [Sent [PINGREQ_TYPE; 0]] p' → client p' = set_timeSincePing t' (client p) →
     ticks (env p') = ts → used 0 h h' → Q tt (p', h')) →
  wp silent_dowork Q (p, h).
Proof.
  intros [Hg Hx Hs Hc Hk Hd] Hh Et Hp Hdue HQ. apply wp_bind, wp_use_xio; [done|]. unfold keep_alive.
  apply wp_bind, wp_get. rewrite Hs, Hc, (proj2 (Z.ltb_lt _ _)) by done. cbn [andb].
  apply wp_bind. eapply wp_tick; [exact Et|]. rewrite Hp. cbn [Z.ltb Z.compare andb].
  rewrite (proj2 (Z.leb_le _ _)) by done.
  pose proof (good_ticks _ Hg) as Hts. rewrite Et in Hts. apply Forall_cons in Hts as [_ Hts].
  pose proof (reacts_with_ticks _ _ Hg Hts) as Hr1.
  apply wp_bind, wp_alloc. eapply wp_mono; [by apply (empty_makes PINGREQ_TYPE)|].
  intros [b|] h1 Hb; [|by destruct Hb]. destruct Hb as [-> Hu1].
  apply wp_bind, wp_send_buffer; [done|apply Hr1|]. intros r p2 h2 Hr2 [Ec2 Et2] Hu2.
  apply wp_bind, wp_get. rewrite Ec2. cbn [client with_ticks]. rewrite Hp, Z.eqb_refl.
  apply wp_bind. eapply wp_tick; [exact Et2|]. apply Forall_cons in Hts as [_ Hts].
  pose proof (reacts_with_ticks ts p2 ltac:(apply Hr2) Hts) as Hr3.
  apply wp_modify, HQ; [|cbn; by rewrite Ec2|done|by eapply used_trans].
  apply (reacts_trans _ _ _ [] [] [] _ Hr1). destruct Hr2 as [[] Hu Hw].
  split; [by split|exact Hu|exact Hw].
Qed.

(** Closing, when the application does not wait for it. *)
Lemma wp_closed (Q : unit → Peer * Heap → Prop) p h :
  good p → disconnect_cb (client p) = false →
  (∀ p', reacts p [] [] p' → disconnect_cb (client p') = false → Q tt (p', h)) →
  wp (on_connection_closed on_disconnected) Q (p, h).
Proof.
  intros [] Hd HQ. apply wp_bind, wp_modify, wp_bind, wp_modify, wp_bind, wp_get.
  cbn [client set_clientConnected set_socketConnected disconnect_cb]. rewrite Hd.
  apply wp_ret, HQ; [|done]. split; [by split|done|by rewrite app_nil_r].
Qed.

Lemma wp_close_loop n due (Q : unit → Peer * Heap → Prop) p h :
  good p → disconnect_cb (client p) = false →
  (∀ p', reacts p [] [] p' → Q tt (p', h)) →
  wp (close_loop on_disconnected n due) Q (p, h).
Proof.
  revert due p. induction n as [|n IH]; intros due p Hg Hd HQ.
  { by apply wp_ret, HQ, reacts_refl. }
  assert (∀ p1, reacts p [] [] p1 → disconnect_cb (client p1) = false →
    wp (c ← get; if clientConnected c then close_loop on_disconnected n (pred <$> due) else mret tt)
      Q (p1, h)) as Hnext.
  { intros p1 Hr1 Hd1. apply wp_bind, wp_get. destruct (clientConnected _); [|by apply wp_ret, HQ].
    apply IH; [apply Hr1|done|]. intros p2 Hr2. apply HQ.
    by apply (reacts_trans _ _ _ [] [] [] [] Hr1). }
  cbn [close_loop]. apply wp_bind. destruct (decide _).
  - apply wp_closed; [done|done|]. intros p1 Hr1 Hd1. by apply Hnext.
  - apply wp_ret, Hnext; [by apply reacts_refl|done].
Qed.

Lemma wp_close_connection (Q : unit → Peer * Heap → Prop) p h :
  good p → socketConnected (client p) = true → disconnect_cb (client p) = false →
  (∀ p', reacts p [] [Closed] p' → Q tt (p', h)) →
  wp (close_connection on_disconnected) Q (p, h).
Proof.
  intros Hg Hs Hd HQ. apply wp_bind, wp_get. rewrite Hs. apply wp_bind, wp_use_xio; [done|].
  apply wp_bind, wp_bind. eexists tt, _. split; [done|].
  set (p1 := mkPeer (client p) (env p) (wire p ++ [Closed]) (user p)).
  assert (∃ due p2, next_closing (p1, h) = Some (due, (p2, h)) ∧ reacts p [] [Closed] p2 ∧
    disconnect_cb (client p2) = false) as (due & p2 & E & Hr2 & Hd2).
  { unfold next_closing. destruct Hg. destruct (closings (env p1));
      eexists _, _; (split; [reflexivity|split; [by split; [split| |]|done]]). }
  exists due, (p2, h). split; [done|].
  assert (∀ p3, reacts p2 [] [] p3 → disconnect_cb (client p3) = false →
    wp (c ← get; if disconnect_cb c then mret tt else close_loop on_disconnected MAX_CLOSE_RETRIES due)
      Q (p3, h)) as Hnext.
  { intros p3 Hr3 Hd3. apply wp_bind, wp_get. rewrite Hd3. apply wp_close_loop; [apply Hr3|done|].
    intros p4 Hr4. apply HQ. apply (reacts_trans _ _ _ [] [] [_] [] Hr2).
    by apply (reacts_trans _ _ _ [] [] [] [] Hr3). }
  apply wp_bind. destruct (decide _).
  - apply wp_closed; [apply Hr2|done|]. intros p3 Hr3 Hd3. by apply Hnext.
  - apply wp_ret, Hnext; [by apply reacts_refl, Hr2|done].
Qed.
End client.

(** No answer to the ping in time. *)
Section timeout.
Context `{Arch} {A : Type} (notify : A → Notification → A).
Variable on_disconnected : ST (@Peer A * Heap) unit.

Lemma wp_silent_timeout t ts (Q : unit → @Peer A * Heap → Prop) p h :
  standing p → ticks (env p) = Some t :: ts → 0 < timeSincePing (client p) →
  maxPingRespTime (client p) < seconds t (timeSincePing (client p)) →
  (∀ p', reacts notify p [Problem MQTT_CLIENT_NO_PING_RESPONSE] [Closed] p' →
     timeSincePing (client p') = 0 → Q tt (p', h)) →
  wp (silent_dowork notify (tell_error notify) on_disconnected) Q (p, h).
Proof.
  intros [Hg Hx Hs Hc Hk Hd] Et Hp Hdue HQ. apply wp_bind, wp_use_xio; [done|]. unfold keep_alive.
  apply wp_bind, wp_get. rewrite Hs, Hc, (proj2 (Z.ltb_lt _ _)) by done. cbn [andb].
  apply wp_bind. eapply wp_tick; [exact Et|].
  rewrite (proj2 (Z.ltb_lt 0 _)), (proj2 (Z.ltb_lt _ _)) by done. cbn [andb].
  pose proof (good_ticks _ Hg) as Hts. rewrite Et in Hts. apply Forall_cons in Hts as [_ Hts].
  pose proof (reacts_with_ticks notify _ _ Hg Hts) as Hr1.
  apply wp_bind, wp_bind. apply (wp_tell notify); [apply Hr1|]. intros p2 Hr2 Ec2.
  apply (wp_close_connection notify); [apply Hr2|by rewrite Ec2|by rewrite Ec2|]. intros p3 Hr3.
  apply wp_bind, wp_modify, wp_bind, wp_modify, wp_modify, HQ; [|done].
  pose proof (reacts_trans _ _ _ _ _ _ _ _ Hr1 (reacts_trans _ _ _ _ _ _ _ _ Hr2 Hr3)) as Hr.
  destruct Hr as [[] Hu Hw]. by split; [split| |].
Qed.

(** [n] calls in a row. *)
Fixpoint silent_doworks (n : nat) : ST (@Peer A * Heap) unit :=
  match n with
  | O => mret tt
  | S n => silent_dowork notify (tell_error notify) on_disconnected;; silent_doworks n
  end.

(** Calls at times when nothing is due. *)
Lemma wp_silent_idles ticks1 ts n (Q : unit → @Peer A * Heap → Prop) p h :
  standing p → ticks (env p) = (Some <$> ticks1) ++ ts → Forall (λ t, idle_at t (client p)) ticks1 →
  wp (silent_doworks n) Q (with_ticks ts p, h) →
  wp (silent_doworks (length ticks1 + n)) Q (p, h).
Proof.
  revert p. induction ticks1 as [|t ticks1 IH]; intros p Hst Et Hidle HQ.
  { cbn in Et. replace p with (with_ticks ts p); [done|]. rewrite <- Et. by destruct p as [? []]. }
  apply Forall_cons in Hidle as [Hi Hidle]. cbn [length Nat.add silent_doworks].
  apply wp_bind. eapply wp_silent_idle; [done|exact Et|done|].
  apply IH; [|done|done|by destruct p as [? []]].
  destruct Hst as [[] ? ? ? ? ?]. split; [|done..]. split; [|done..]. cbn.
  rewrite Et in *. by apply Forall_cons in good_ticks0 as [_ ?].
Qed.

(** The course of a connection whose broker has fallen silent: calls when nothing
    is due, the ping at [t], its time [t'], calls while waiting, the end. *)
Record silence (p : @Peer A) (quiet : list Z) (t t' : Z) (waiting : list Z) (last : Z) : Prop := {
  silence_ticks : ∃ rest, ticks (env p) =
    (Some <$> quiet) ++ Some t :: Some t' :: (Some <$> waiting) ++ Some last :: rest;
  silence_first : timeSincePing (client p) = 0;
  silence_quiet : Forall (λ t, seconds t (packetRecvTimeMs (client p)) < keepAlive (client p)) quiet;
  silence_due : keepAlive (client p) <= seconds t (packetRecvTimeMs (client p));
  silence_pinged : 0 < t';
  silence_waiting : Forall (λ t, seconds t t' <= maxPingRespTime (client p)) waiting;
  silence_last : maxPingRespTime (client p) < seconds last t' }.

Lemma wp_silence p quiet t t' waiting last h :
  standing p → plenty h → silence p quiet t t' waiting last →
  wp (silent_doworks (length quiet + (1 + (length waiting + 1)))) (λ _ '(p', h'),
    reacts notify p [Problem MQTT_CLIENT_NO_PING_RESPONSE] [Sent [PINGREQ_TYPE; 0]; Closed] p' ∧
    used 0 h h') (p, h).
Proof.
  intros Hst Hh [(rest & Et) H0 Hq Hdue Ht' Hw Hlast].
  pose proof (good_ticks _ (standing_good _ Hst)) as Hts. rewrite Et in Hts.
  apply Forall_app in Hts as [_ Hts].
  eapply wp_silent_idles; [done|exact Et| |].
  { eapply Forall_impl; [exact Hq|]. intros x Hx. unfold idle_at. by rewrite H0. }
  set (p0 := with_ticks _ p).
  assert (standing p0) as Hst0 by (destruct Hst as [[] ? ? ? ? ?]; by split; [split| | | | |]).
  assert (reacts notify p [] [] p0) as Hr0 by by apply reacts_with_ticks; [apply Hst|].
  cbn [Nat.add silent_doworks]. apply wp_bind.
  eapply (wp_silent_ping notify (tell_error notify)); [done|done|reflexivity|exact H0|exact Hdue|].
  intros p1 h1 Hr1 Ec1 Et1 Hu1.
  assert (standing p1) as Hst1.
  { destruct Hst as [? ? ? ? ? ?]. split; [apply Hr1|rewrite Ec1; done..]. }
  eapply wp_silent_idles; [done|exact Et1| |].
  { eapply Forall_impl; [exact Hw|]. intros x Hx. unfold idle_at. rewrite Ec1.
    cbn [timeSincePing set_timeSincePing]. by rewrite (proj2 (Z.ltb_lt _ _)). }
  set (p2 := with_ticks (Some last :: rest) p1).
  pose proof (good_ticks _ (standing_good _ Hst1)) as Hts1. rewrite Et1 in Hts1.
  apply Forall_app in Hts1 as [_ Hts1].
  assert (standing p2) as Hst2 by (destruct Hst1 as [[] ? ? ? ? ?]; by split; [split| | | | |]).
  assert (reacts notify p1 [] [] p2) as Hr2 by by apply reacts_with_ticks; [apply Hst1|].
  cbn [silent_doworks]. apply wp_bind.
  eapply wp_silent_timeout; [done|reflexivity|by cbn; rewrite Ec1|by cbn; rewrite Ec1|].
  intros p3 Hr3 _. apply wp_ret. split; [|done].
  apply (reacts_trans _ _ _ _ [] _ [] _ Hr0), (reacts_trans _ _ _ _ [] _ [_] _ Hr1).
  by apply (reacts_trans _ _ _ _ [] _ [] _ Hr2).
Qed.

(** The calls of the whole client. *)
Fixpoint doworks (n : nat) : ST (MQTTCODEC_INSTANCE Peer * Heap) unit :=
  match n with
  | O => mret tt
  | S n =>
      mqtt_client_dowork (operations notify) (tell_error notify) on_disconnected [];; doworks n
  end.

Lemma doworks_silent n c h : doworks n (c, h) = on_client (silent_doworks n) (c, h).
Proof.
  revert c h. induction n as [|n IH]; intros c h; [by destruct c|].
  cbn [doworks silent_doworks]. rewrite st_bind_eq.
  assert (mqtt_client_dowork (operations notify) (tell_error notify) on_disconnected [] (c, h) =
    on_client (silent_dowork notify (tell_error notify) on_disconnected) (c, h)) as ->.
  { unfold mqtt_client_dowork, silent_dowork. unfold on_client at 2 3. rewrite !st_bind_eq.
    destruct c as [? ? ? ? ? ? p ? ?]. unfold on_client at 1, use_xio. cbn [callContext set_callContext].
    destruct (xioHandle (client p)); [|done]. destruct (alive (env p)); [|done].
    done. }
  unfold on_client at 1 2. rewrite st_bind_eq.
  destruct (silent_dowork _ _ _ (callContext c, h)) as [[[] [p h1]]|]; [|done].
  rewrite !bind_ret, IH. unfold on_client. destruct c; done.
Qed.
End timeout.
