(* ===== verification/MqttProperties.v ===== *)
(** * MqttProperties: what the MQTT library guarantees. *)
From S2P Require Import Prelude.
From stdpp Require Import strings.
From S2P Require Import Effects.
From S2P Require Import Alloc.
From S2P Require Import Buffer.
From S2P Require Import CString.
From S2P Require Import MqttCodec.
From S2P Require Import MqttDecoder.
From S2P Require Import MqttCodecTheory.
From S2P Require Import MqttDecoderTheory.
From S2P Require Import MqttMessage.
From S2P Require Import MqttClient.
From S2P Require Import MqttClientTheory.
#[local] Open Scope Z_scope.

(** ** Building packets *)

(** The packets of a client, with the function that builds each. *)
Inductive Outbound :=
  | OutConnect (o : MQTT_CLIENT_OPTIONS)
  | OutPublish (qos : Z) (dup retain : bool) (id : Z) (topic payload : list Z)
  | OutPuback (id : Z)
  | OutPubrec (id : Z)
  | OutPubrel (id : Z)
  | OutPubcomp (id : Z)
  | OutSubscribe (id : Z) (items : list (list Z * Z))
  | OutUnsubscribe (id : Z) (topics : list (list Z))
  | OutPing
  | OutDisconnect.

Definition outbound_build `{Arch} (o : Outbound) : Alloc BUFFER_HANDLE :=
  match o with
  | OutConnect o => mqtt_codec_connect (Some o)
  | OutPublish qos dup retain id topic payload =>
      mqtt_codec_publish qos dup retain id (Some topic) (Some payload) (length payload)
  | OutPuback id => mqtt_codec_publishAck id
  | OutPubrec id => mqtt_codec_publishReceived id
  | OutPubrel id => mqtt_codec_publishRelease id
  | OutPubcomp id => mqtt_codec_publishComplete id
  | OutSubscribe id items => mqtt_codec_subscribe id (Some (c_items items)) (length items)
  | OutUnsubscribe id topics => mqtt_codec_unsubscribe id (Some (c_topics topics)) (length topics)
  | OutPing => mqtt_codec_ping
  | OutDisconnect => mqtt_codec_disconnect
  end.

(** The packet as the standard describes it. *)
Definition outbound_packet (o : Outbound) : packet :=
  match o with
  | OutConnect o => mkPacket CONNECT_TYPE 0 (connect_body o)
  | OutPublish qos dup retain id topic payload =>
      mkPacket PUBLISH_TYPE (publish_flags qos dup retain) (publish_body qos id topic payload)
  | OutPuback id => mkPacket PUBACK_TYPE 0 (be16 id)
  | OutPubrec id => mkPacket PUBREC_TYPE 0 (be16 id)
  | OutPubrel id => mkPacket PUBREL_TYPE 2 (be16 id)
  | OutPubcomp id => mkPacket PUBCOMP_TYPE 0 (be16 id)
  | OutSubscribe id items => mkPacket SUBSCRIBE_TYPE 2 (be16 id ++ subscribe_bytes items)
  | OutUnsubscribe id topics => mkPacket UNSUBSCRIBE_TYPE 2 (be16 id ++ unsubscribe_bytes topics)
  | OutPing => mkPacket PINGREQ_TYPE 0 []
  | OutDisconnect => mkPacket DISCONNECT_TYPE 0 []
  end.

Definition outbound_ok (o : Outbound) : Prop :=
  match o with
  | OutConnect o => valid_options o
  | OutPublish qos dup retain id topic payload =>
      is_u16 id ∧ zlen topic <= USHRT_MAX ∧ zlen (publish_body qos id topic payload) < max_body
  | OutPuback id | OutPubrec id | OutPubrel id | OutPubcomp id => is_u16 id
  | OutSubscribe id items =>
      is_u16 id ∧ items ≠ [] ∧ Forall (λ x, zlen x.1 <= USHRT_MAX ∧ is_u8 x.2) items ∧
      zlen (subscribe_bytes items) + 2 < max_body
  | OutUnsubscribe id topics =>
      is_u16 id ∧ topics ≠ [] ∧ Forall (λ t, zlen t <= USHRT_MAX) topics ∧
      zlen (unsubscribe_bytes topics) + 2 < max_body
  | OutPing | OutDisconnect => True
  end.

(** C19: Every builder makes exactly the bytes of its packet, fixed header
    included, in a buffer of its own, on every machine; when memory runs out at
    any of its allocations it returns NULL and has given back every block. *)
Theorem packets_built `{Arch} o h :
  outbound_ok o →
  ∃ r h', outbound_build o h = Some (r, h') ∧
    match r with
    | Some b => b = buf (packet_frame (outbound_packet o)) ∧ used 2 h h'
    | None => live h' = live h ∧ ¬ plenty h
    end.
Proof.
  intros Ho. assert (makes (outbound_build o) (packet_frame (outbound_packet o))) as Hm.
  { destruct o; cbn [outbound_ok outbound_build] in *; destruct_and?.
    - by apply connect_makes.
    - by apply publish_makes.
    - by apply reply_makes.
    - by apply reply_makes.
    - by apply reply_makes.
    - by apply reply_makes.
    - by apply subscribe_makes.
    - by apply unsubscribe_makes.
    - by apply empty_makes.
    - by apply empty_makes. }
  destruct (Hm h) as (r & h' & E & Hr). exists r, h'. split; [done|].
  destruct r as [b|]; [done|]. destruct Hr as [[Hl _] Hp]. split; [lia|done].
Qed.

Definition demo_topic : list Z := str "meter/1".
Definition demo_payload : list Z := str "{}".
Definition demo_publish : Outbound := OutPublish 1 false true 10 demo_topic demo_payload.

Example demo_publish_bytes :
  packet_frame (outbound_packet demo_publish) =
    [0x33; 13; 0; 7] ++ str "meter/1" ++ [0; 10] ++ str "{}".
Proof. reflexivity. Qed.

Lemma packets_built_witness :
  outbound_ok demo_publish ∧
  ∃ r h', @outbound_build lp64 demo_publish (mkHeap [Some (λ _, 0xAA); Some (λ _, 0xBB)] 5) = Some (r, h') ∧
    match r with
    | Some b => b = buf (packet_frame (outbound_packet demo_publish))
                ∧ used 2 (mkHeap [Some (λ _, 0xAA); Some (λ _, 0xBB)] 5) h'
    | None => live h' = 5 ∧ ¬ plenty (mkHeap [Some (λ _, 0xAA); Some (λ _, 0xBB)] 5)
    end.
Proof.
  assert (outbound_ok demo_publish) as Ho by (split; [by vm_compute|split; by vm_compute]).
  split; [exact Ho|].
  exact (@packets_built lp64 demo_publish (mkHeap [Some (λ _, 0xAA); Some (λ _, 0xBB)] 5) Ho).
Defined.

(** ** Decoding *)

(** C20: Whatever bytes arrive, in pieces of any size, a new decoder stays inside
    its buffers and keeps its invariant, unless one of them is the fifth byte of a
    length field: exactly then it writes behind its four bytes of storage. *)
Theorem decoder_safe {C : Type} (callback : option (ON_PACKET_COMPLETE_CALLBACK C)) ctx
    chunks c h0 h1 h :
  mqtt_codec_create callback ctx h0 = Some (Some c, h1) → always_defined callback →
  Forall (λ l, l ≠ []) chunks →
  (∃ r c' h', receive_chunks c chunks h = Some ((r, c'), h') ∧ codec_wf c') ∨
  receive_chunks c chunks h = None ∧
  ∃ n c' h', (n < length (concat chunks))%nat ∧
    receive_bytes c (take n (concat chunks)) h = Some ((OK, c'), h') ∧ fifth_byte c'.
Proof.
  intros Hc Hd Hne. rewrite receive_chunks_concat by done.
  assert (codec_wf c ∧ packetComplete c = callback) as [Hw Ep].
  { unfold mqtt_codec_create in Hc. rewrite st_bind_eq in Hc.
    destruct (malloc_struct h0) as [[[|] h2]|]; [|done..].
    injection Hc as <- <-. split; [|done]. by split; cbn; [|lia|]. }
  destruct (receive_bytes_wf c (concat chunks) h) as [([r c'] & h' & E & Hw')|Hr]; [done|by rewrite Ep|..].
  - left. by exists r, c', h'.
  - by right.
Qed.

(** A callback that keeps the packets. *)
Definition keep : ON_PACKET_COMPLETE_CALLBACK (list (Z * Z * list Z)) := λ ctx t f hd,
  mret (ctx ++ [(t, f, default [] (BUFFER_u_char hd))]).

Definition fresh_codec : MQTTCODEC_INSTANCE (list (Z * Z * list Z)) :=
  mkCodec UNKNOWN_TYPE CODEC_STATE_FIXED_HEADER 0 0 None (Some keep) [] (replicate 4 0) 0.

(** Six bytes are enough. *)
Example fifth_length_byte :
  receive_chunks fresh_codec [[0x30; 0x80; 0x80]; [0x80; 0x80; 0x01]] (mkHeap [] 0) = None.
Proof. reflexivity. Qed.

Lemma decoder_safe_witness :
  mqtt_codec_create (Some keep) [] (mkHeap [] 0) = Some (Some fresh_codec, mkHeap [] 1) ∧
  ((∃ r c' h', receive_chunks fresh_codec [[0xD0]; [0; 0x40; 2]; [0; 10]] (mkHeap [] 1) = Some ((r, c'), h') ∧
      codec_wf c') ∨
   receive_chunks fresh_codec [[0xD0]; [0; 0x40; 2]; [0; 10]] (mkHeap [] 1) = None ∧
   ∃ n c' h', (n < length (concat [[0xD0]; [0; 0x40; 2]; [0; 10]]))%nat ∧
     receive_bytes fresh_codec (take n (concat [[0xD0]; [0; 0x40; 2]; [0; 10]])) (mkHeap [] 1) =
       Some ((OK, c'), h') ∧ fifth_byte c').
Proof.
  split; [reflexivity|].
  apply (decoder_safe (Some keep) [] [[0xD0]; [0; 0x40; 2]; [0; 10]] fresh_codec (mkHeap [] 0) (mkHeap [] 1)).
  - reflexivity.
  - intros ctx t f hd h. eexists _, _. by split.
  - by repeat constructor.
Defined.

(** ** The client *)

(** C21: However the transport cuts the stream of a broker into pieces, the client
    tells the application each packet once, in order, with its meaning, and sends
    exactly the acknowledgements of the protocol (PUBACK or PUBREC for a message,
    PUBREL for PUBREC, PUBCOMP for PUBREL); afterwards the decoder is idle again
    and all memory has been given back. *)
Theorem client_refines `{Arch} {A : Type} (notify : A → Notification → A) errors on_disconnected
    ins chunks c p h :
  Forall inbound_ok ins → Forall (λ l, l ≠ []) chunks → concat chunks = inbound_stream ins →
  idle (on_packet (operations notify) (messages notify) errors on_disconnected) p c →
  good p → plenty h →
  ∃ c' p' h',
    xio_dowork (operations notify) errors on_disconnected (IoBytes <$> chunks) (c, h) =
      Some (tt, (c', h')) ∧
    idle (on_packet (operations notify) (messages notify) errors on_disconnected) p' c' ∧
    user p' = foldl notify (user p) (notification <$> ins) ∧
    wire p' = wire p ++ (ins ≫= answers) ∧ live h' = live h.
Proof.
  intros Hins Hne Hcat Hc Hg Hh.
  destruct (receive_inbound notify errors on_disconnected ins c p h) as
    ([r c'] & h' & E & -> & p' & Hc' & [_ Hu Hw] & Hl); [done..|].
  exists c', p', h'. split; [apply dowork_bytes; [done|by rewrite Hcat]|].
  split; [done|]. split; [done|]. split; [done|]. destruct Hl as [Hl _]. lia.
Qed.

(** C22: What one client publishes is what the application of another is told: for
    every message with a topic, of any quality of service, whose packet the
    decoder accepts, however the bytes are cut on the way, and it is acknowledged.
    With quality of service 0 the flags of the message must be clear. *)
Theorem message_transfer (sender receiver : Arch) {A B : Type}
    (notify1 : A → Notification → A) errors1 on_disconnected1
    (notify2 : B → Notification → B) errors2 on_disconnected2
    id qos topic payload dup retain p1 h1 c2 p2 h2 :
  inbound_ok (InPublish id qos topic payload dup retain) →
  good p1 → plenty h1 →
  idle (@on_packet receiver _ (operations notify2) (messages notify2) errors2 on_disconnected2) p2 c2 →
  good p2 → plenty h2 →
  ∃ r p1' h1' data,
    @mqtt_client_publish sender _ (operations notify1) errors1 on_disconnected1
      (Some (owned id qos topic payload dup retain)) (p1, h1) = Some (r, (p1', h1')) ∧
    wire p1' = wire p1 ++ [Sent data] ∧
    ∀ chunks, Forall (λ l, l ≠ []) chunks → concat chunks = data →
      ∃ c2' p2' h2',
        @xio_dowork receiver _ (operations notify2) errors2 on_disconnected2 (IoBytes <$> chunks) (c2, h2) =
          Some (tt, (c2', h2')) ∧
        idle (@on_packet receiver _ (operations notify2) (messages notify2) errors2 on_disconnected2) p2' c2' ∧
        user p2' = notify2 (user p2) (Message (owned (received_id qos id) qos topic payload dup retain)) ∧
        wire p2' = wire p2 ++ answers (InPublish id qos topic payload dup retain).
Proof.
  intros Hok Hg1 Hh1 Hc2 Hg2 Hh2.
  pose proof Hok as (Hid & _ & _ & _ & _ & _ & Ht & Hmax & _).
  destruct (@wp_publish sender _ notify1 errors1 on_disconnected1 id qos topic payload dup retain
    (λ r s, reacts notify1 p1 [] [Sent (packet_frame (inbound_packet
       (InPublish id qos topic payload dup retain)))] s.1) p1 h1)
    as (r & [p1' h1'] & E & Hr); [done|done|unfold max_received, max_body in *; lia|done|done|by intros|].
  exists r, p1', h1', (inbound_stream [InPublish id qos topic payload dup retain]).
  split; [done|]. split.
  { unfold inbound_stream, stream. cbn [fmap list_fmap concat]. rewrite app_nil_r. apply Hr. }
  intros chunks Hne Hcat.
  destruct (@receive_inbound receiver _ notify2 errors2 on_disconnected2
    [InPublish id qos topic payload dup retain] c2 p2 h2) as
    ([r2 c2'] & h2' & E2 & -> & p2' & Hc2' & [_ Hu Hw] & _); [by apply Forall_singleton|done..|].
  exists c2', p2', h2'. split; [apply dowork_bytes; [done|by rewrite Hcat]|].
  split; [done|]. split; [done|]. cbn [mbind list_bind] in Hw. by rewrite app_nil_r in Hw.
Qed.

(** An application that keeps what it is told. *)
Definition record_all : list Notification → Notification → list Notification := λ l n, l ++ [n].

Definition demo_client : MQTT_CLIENT :=
  mkClient true CONNECT_TYPE 0 false 0 60 no_options true true 0 30.
Definition demo_peer : @Peer (list Notification) :=
  mkPeer demo_client (mkEnv [Some 1000; Some 1500] [SendCompleted IO_SEND_OK] [] [] true) [] [].
Definition demo_callback `{Arch} : ON_PACKET_COMPLETE_CALLBACK (@Peer (list Notification)) :=
  on_packet (operations record_all) (messages record_all) None (mret tt).
Definition demo_codec `{Arch} : MQTTCODEC_INSTANCE (@Peer (list Notification)) :=
  mkCodec UNKNOWN_TYPE CODEC_STATE_FIXED_HEADER 0 0 None (Some demo_callback) demo_peer
    (replicate 4 0) 0.

Lemma demo_good : good demo_peer.
Proof. split; [by repeat constructor; eexists|by repeat constructor|done..]. Qed.

Definition demo_inbound : list Inbound :=
  [InConnack false 0; InPublish 7 2 demo_topic demo_payload false false; InPubrel 7].

Lemma demo_inbound_ok : Forall inbound_ok demo_inbound.
Proof. apply (bool_decide_eq_true_1 _); vm_compute; reflexivity. Qed.

Lemma client_refines_witness :
  ∃ c' p' h',
    @xio_dowork lp64 _ (operations record_all) None (mret tt)
      (IoBytes <$> [take 9 (inbound_stream demo_inbound); drop 9 (inbound_stream demo_inbound)])
      (@demo_codec lp64, mkHeap [] 0) = Some (tt, (c', h')) ∧
    idle (@demo_callback lp64) p' c' ∧
    user p' = notification <$> demo_inbound ∧
    wire p' = [Sent [0x50; 2; 0; 7]; Sent [0x70; 2; 0; 7]] ∧ live h' = 0.
Proof.
  apply (@client_refines lp64 _ record_all None (mret tt) demo_inbound
    [take 9 (inbound_stream demo_inbound); drop 9 (inbound_stream demo_inbound)]
    (@demo_codec lp64) demo_peer (mkHeap [] 0)).
  - exact demo_inbound_ok.
  - repeat constructor; by vm_compute.
  - reflexivity.
  - by exists 0%nat.
  - exact demo_good.
  - constructor.
Defined.

Lemma message_transfer_witness :
  inbound_ok (InPublish 7 1 demo_topic demo_payload false true) ∧
  ∃ r p1' h1' data,
    @mqtt_client_publish lp64 _ (operations record_all) None (mret tt)
      (Some (owned 7 1 demo_topic demo_payload false true)) (demo_peer, mkHeap [] 0) =
      Some (r, (p1', h1')) ∧
    wire p1' = wire demo_peer ++ [Sent data] ∧
    ∀ chunks, Forall (λ l, l ≠ []) chunks → concat chunks = data →
      ∃ c2' p2' h2',
        @xio_dowork ilp32 _ (operations record_all) None (mret tt) (IoBytes <$> chunks)
          (@demo_codec ilp32, mkHeap [] 0) = Some (tt, (c2', h2')) ∧
        idle (@demo_callback ilp32) p2' c2' ∧
        user p2' = [Message (owned 7 1 demo_topic demo_payload false true)] ∧
        wire p2' = [Sent [0x40; 2; 0; 7]].
Proof.
  assert (inbound_ok (InPublish 7 1 demo_topic demo_payload false true)) as Ho
    by (apply (bool_decide_eq_true_1 _); vm_compute; reflexivity).
  split; [exact Ho|].
  apply (message_transfer lp64 ilp32 record_all None (mret tt) record_all None (mret tt)
    7 1 demo_topic demo_payload false true demo_peer (mkHeap [] 0)
    (@demo_codec ilp32) demo_peer (mkHeap [] 0)).
  - exact Ho.
  - exact demo_good.
  - constructor.
  - by exists 0%nat.
  - exact demo_good.
  - constructor.
Defined.

(** C23: When the broker falls silent, the calls of [mqtt_client_dowork] send one
    PINGREQ, at the first call after the keep-alive interval, and the first call
    more than the maximal response time after it reports
    [MQTT_CLIENT_NO_PING_RESPONSE] and closes the connection; no other call does
    anything, on tick counters of any width. *)
Theorem silent_broker `{Arch} {A : Type} (notify : A → Notification → A) on_disconnected
    c h quiet t t' waiting last :
  standing (callContext c) → plenty h → silence (callContext c) quiet t t' waiting last →
  ∃ c' h',
    doworks notify on_disconnected (length quiet + (1 + (length waiting + 1))) (c, h) =
      Some (tt, (c', h')) ∧
    user (callContext c') = notify (user (callContext c)) (Problem MQTT_CLIENT_NO_PING_RESPONSE) ∧
    wire (callContext c') = wire (callContext c) ++ [Sent [PINGREQ_TYPE; 0]; Closed] ∧
    live h' = live h.
Proof.
  intros Hst Hh Hsil.
  destruct (wp_silence notify on_disconnected _ _ _ _ _ _ h Hst Hh Hsil)
    as ([] & [p' h'] & E & [_ Hu Hw] & [Hl _]).
  exists (set_callContext p' c), h'. split; [|split; [done|split; [done|lia]]].
  rewrite doworks_silent. unfold on_client. by rewrite E.
Qed.

Definition silent_peer : @Peer (list Notification) :=
  mkPeer demo_client
    (mkEnv (Some <$> [1000; 59999; 60000; 60001; 61000; 91000; 91001; 91002])
       [SendQueued] [] [Some 1%nat] true) [] [].
Definition silent_codec `{Arch} : MQTTCODEC_INSTANCE (@Peer (list Notification)) :=
  mkCodec UNKNOWN_TYPE CODEC_STATE_FIXED_HEADER 0 0 None (Some demo_callback) silent_peer
    (replicate 4 0) 0.

Lemma silent_broker_witness :
  ∃ c' h', @doworks lp64 _ record_all (mret tt) 6 (@silent_codec lp64, mkHeap [] 3) = Some (tt, (c', h')) ∧
    user (callContext c') = [Problem MQTT_CLIENT_NO_PING_RESPONSE] ∧
    wire (callContext c') = [Sent [0xC0; 0]; Closed] ∧ live h' = 3.
Proof.
  apply (@silent_broker lp64 _ record_all (mret tt) (@silent_codec lp64) (mkHeap [] 3)
           [1000; 59999] 60000 60001 [61000; 91000] 91001).
  - split; [|done..]. split; [by repeat constructor; eexists|by repeat constructor|done..].
  - constructor.
  - split; [by eexists|done|by repeat constructor|by vm_compute|done|by repeat constructor|by vm_compute].
Defined.
