(* ===== verification/RetryLogic.v ===== *)
(** * RetryLogic: when the IoT hub client may try to connect again.

    The retry logic of [src/iothub_client/src/iothub_mqtt_client.c]
    ([RETRY_LOGIC], [CanRetry]): exponential back-off with jitter.  The clock
    ([get_time]) and the random numbers ([rand]) are oracles.  The arithmetic in
    [double] is on whole numbers of seconds below 2^53, where it is exact. *)
From S2P Require Import Prelude.
From S2P Require Import Effects.
From S2P Require Import Alloc.
#[local] Open Scope Z_scope.

Inductive IOTHUB_CLIENT_RETRY_POLICY :=
  | IOTHUB_CLIENT_RETRY_NONE | IOTHUB_CLIENT_RETRY_IMMEDIATE | IOTHUB_CLIENT_RETRY_INTERVAL
  | IOTHUB_CLIENT_RETRY_LINEAR_BACKOFF | IOTHUB_CLIENT_RETRY_EXPONENTIAL_BACKOFF
  | IOTHUB_CLIENT_RETRY_EXPONENTIAL_BACKOFF_WITH_JITTER | IOTHUB_CLIENT_RETRY_RANDOM.

#[export] Instance policy_eq_dec : EqDecision IOTHUB_CLIENT_RETRY_POLICY.
Proof. solve_decision. Defined.

(** The functions that [fnRetryPolicy] can point to. *)
Inductive RETRY_POLICY := Exponential_BackOff_With_Jitter.

Definition EPOCH_TIME_T_VALUE := 0.
Definition ERROR_TIME_FOR_RETRY_SECS := 5.

Record RETRY_LOGIC := mkRetry {
  retryPolicy : IOTHUB_CLIENT_RETRY_POLICY;
  retryTimeoutLimitInSeconds : Z;
  fnRetryPolicy : option RETRY_POLICY;
  start : Z;
  lastConnect : Z;
  retryStarted : bool;
  retryExpired : bool;
  firstAttempt : bool;
  retrycount : Z;
  delayFromLastConnectToRetry : Z }.

(** What the next calls of [get_time] and [rand] return. *)
Record Clock := mkClock { times : list Z; rands : list Z }.
#[warnings="-notation-for-abbreviation"] Notation Timed := (ST Clock).

(** Exhausted oracles answer 0. *)
Definition get_time : Timed Z := λ k, Some (hd 0 (times k), mkClock (tl (times k)) (rands k)).
Definition rand : Timed Z := λ k, Some (hd 0 (rands k), mkClock (times k) (tl (rands k))).

Section retry.
Context `{Arch}.
Implicit Types r : RETRY_LOGIC.

(** Conversion to [int], and the left shift of 1: undefined when the result is
    not an [int]. *)
Definition to_int (n : Z) : Z := (n + 2147483648) mod 4294967296 - 2147483648.
Definition shift_one (n : Z) : option Z := if (0 <=? n) && (n <? 31) then Some (2 ^ n) else None.

(** The result: whether to retry, and the delay. *)
Definition RetryPolicy_Exponential_BackOff_With_Jitter r : Timed (bool * Z) :=
  let numOfFailures := to_int (retrycount r) in
  power ← lift (shift_one numOfFailures);
  let halfDelta := (power - 1) / 4 in
  if 0 <? halfDelta then n ← rand; mret (true, halfDelta + n mod halfDelta)
  else mret (true, halfDelta).

Definition call_policy (p : RETRY_POLICY) r : Timed (bool * Z) :=
  match p with Exponential_BackOff_With_Jitter => RetryPolicy_Exponential_BackOff_With_Jitter r end.

(** Every policy is implemented by the same function. *)
Definition CreateRetryLogic (retryPolicy : IOTHUB_CLIENT_RETRY_POLICY) (retryTimeoutLimitInSeconds : Z)
    : Alloc (option RETRY_LOGIC) :=
  retryLogic ← malloc_struct;
  if (retryLogic : bool) then
    mret (Some (mkRetry retryPolicy retryTimeoutLimitInSeconds
      (match retryPolicy with
       | IOTHUB_CLIENT_RETRY_NONE => Some Exponential_BackOff_With_Jitter
       | IOTHUB_CLIENT_RETRY_IMMEDIATE => Some Exponential_BackOff_With_Jitter
       | IOTHUB_CLIENT_RETRY_INTERVAL => Some Exponential_BackOff_With_Jitter
       | IOTHUB_CLIENT_RETRY_LINEAR_BACKOFF => Some Exponential_BackOff_With_Jitter
       | IOTHUB_CLIENT_RETRY_EXPONENTIAL_BACKOFF => Some Exponential_BackOff_With_Jitter
       | IOTHUB_CLIENT_RETRY_RANDOM => Some Exponential_BackOff_With_Jitter
       | IOTHUB_CLIENT_RETRY_EXPONENTIAL_BACKOFF_WITH_JITTER => Some Exponential_BackOff_With_Jitter
       end)
      EPOCH_TIME_T_VALUE EPOCH_TIME_T_VALUE false false true 0 0))
  else mret None.

Definition DestroyRetryLogic (retryLogic : option RETRY_LOGIC) : Alloc unit :=
  match retryLogic with None => mret tt | Some _ => free_struct end.

Definition set_started (t : Z) r := mkRetry (retryPolicy r) (retryTimeoutLimitInSeconds r) (fnRetryPolicy r)
  t (lastConnect r) true (retryExpired r) (firstAttempt r) (retrycount r) 0.
Definition set_firstAttempt v r := mkRetry (retryPolicy r) (retryTimeoutLimitInSeconds r) (fnRetryPolicy r)
  (start r) (lastConnect r) (retryStarted r) (retryExpired r) v (retrycount r) (delayFromLastConnectToRetry r).
Definition set_stopped r := mkRetry (retryPolicy r) (retryTimeoutLimitInSeconds r) (fnRetryPolicy r)
  (start r) EPOCH_TIME_T_VALUE false (retryExpired r) (firstAttempt r) 0 0.
Definition set_expired r := mkRetry (retryPolicy r) (retryTimeoutLimitInSeconds r) (fnRetryPolicy r)
  (start r) (lastConnect r) (retryStarted r) true (firstAttempt r) (retrycount r) (delayFromLastConnectToRetry r).
Definition set_delay v r := mkRetry (retryPolicy r) (retryTimeoutLimitInSeconds r) (fnRetryPolicy r)
  (start r) (lastConnect r) (retryStarted r) (retryExpired r) (firstAttempt r) (retrycount r) v.
(** [lastConnect = now; retrycount++] *)
Definition set_attempt (now : Z) r := mkRetry (retryPolicy r) (retryTimeoutLimitInSeconds r) (fnRetryPolicy r)
  (start r) now (retryStarted r) (retryExpired r) (firstAttempt r) ((retrycount r + 1) mod size_mod)
  (delayFromLastConnectToRetry r).

Definition StartRetryTimer r : Timed RETRY_LOGIC :=
  r ← (if retryStarted r then mret r else t ← get_time; mret (set_started t r));
  mret (set_firstAttempt false r).

Definition StopRetryTimer r : RETRY_LOGIC := if retryStarted r then set_stopped r else r.

(** The limit of the whole series of attempts. *)
Definition within_limit r (now delay : Z) : bool :=
  (retryTimeoutLimitInSeconds r =? 0) || (delay + (now - start r) <=? retryTimeoutLimitInSeconds r).

(** The policy is asked, after the delay it has set last. *)
Definition evaluate r (now diffTime : Z) : Timed (bool * RETRY_LOGIC) :=
  match fnRetryPolicy r with
  | None => mret (false, r)
  | Some p =>
      '(permit, delay) ← call_policy p r;
      if permit && within_limit r now delay then
        let r := set_delay delay r in
        if (delayFromLastConnectToRetry r <=? ERROR_TIME_FOR_RETRY_SECS)
           || (delayFromLastConnectToRetry r <=? diffTime)
        then mret (true, set_attempt now r)
        else mret (false, r)
      else mret (false, StopRetryTimer (set_expired r))
  end.

Definition CanRetry (retryLogic : option RETRY_LOGIC) : Timed (bool * option RETRY_LOGIC) :=
  now ← get_time;
  match retryLogic with
  | None => mret (true, None)
  | Some r =>
      if (now <? 0) || (start r <? 0) then mret (true, Some r)
      else if retryExpired r then mret (false, Some r)
      else if firstAttempt r then
        r ← StartRetryTimer r;
        mret (true, Some (set_attempt now r))
      else if retryStarted r then
        let diffTime := now - lastConnect r in
        if diffTime <=? ERROR_TIME_FOR_RETRY_SECS then mret (false, Some r)
        else if diffTime <? delayFromLastConnectToRetry r then mret (false, Some r)
        else '(result, r) ← evaluate r now diffTime; mret (result, Some r)
      else
        r ← StartRetryTimer r;
        mret (false, Some r)
  end.
End retry.

(** ** A series of calls while the connection is down *)

(** The shortest delay after [k] attempts. *)
Definition half (k : Z) : Z := (2 ^ k - 1) / 4.

Section course.
Context `{Arch}.
Implicit Types r : RETRY_LOGIC.

(** A call at time [now]; [later] is what a second reading of the clock would
    give, [x] the random number. *)
#[warnings="-notation-for-abbreviation"] Notation Call := (Z * Z * Z)%type.

Definition ask r (c : Call) : option (bool * RETRY_LOGIC) :=
  let '(now, later, x) := c in
  '((result, r), _) ← CanRetry (Some r) (mkClock [now; later] [x]);
  r ← r;
  Some (result, r).

(** The times of the attempts. *)
Fixpoint course r (calls : list Call) : option (list Z * RETRY_LOGIC) :=
  match calls with
  | [] => Some ([], r)
  | c :: calls =>
      '(result, r) ← ask r c;
      '(ts, r) ← course r calls;
      Some ((if (result : bool) then [c.1.1] else []) ++ ts, r)
  end.

(** The clock of the calls runs forward from [t], up to [last]. *)
Fixpoint ticking (t last : Z) (calls : list Call) : Prop :=
  match calls with
  | [] => t <= last
  | (now, later, x) :: calls => t <= now <= later ∧ 0 <= x ∧ ticking later last calls
  end.

(** Before the first attempt: created, or stopped because the client connected. *)
Record ready r : Prop := {
  ready_policy : fnRetryPolicy r = Some Exponential_BackOff_With_Jitter;
  ready_limit : 0 <= retryTimeoutLimitInSeconds r;
  ready_start : 0 <= start r;
  ready_last : lastConnect r = 0;
  ready_started : retryStarted r = false;
  ready_expired : retryExpired r = false;
  ready_count : retrycount r = 0;
  ready_delay : delayFromLastConnectToRetry r = 0 }.

(** Attempts that keep the distance of the back-off and the limit. *)
Definition spaced (ts : list Z) : Prop :=
  ∀ k a b, ts !! k = Some a → ts !! S k = Some b → a + Z.max 6 (half (Z.of_nat (S k))) <= b.
Definition limited r (ts : list Z) : Prop :=
  0 < retryTimeoutLimitInSeconds r →
  ∀ k b, ts !! S k = Some b → b + half (Z.of_nat (S k)) <= start r + retryTimeoutLimitInSeconds r.

(** In the middle of a series. *)
Record series r (ts : list Z) : Prop := {
  series_policy : fnRetryPolicy r = Some Exponential_BackOff_With_Jitter;
  series_start : 0 <= start r;
  series_count : retrycount r = Z.of_nat (length ts);
  series_live : retryExpired r = false;
  series_last : lastConnect r = default 0 (last ts);
  series_running : ts ≠ [] → firstAttempt r = false ∧ retryStarted r = true;
  series_delay : 0 <= delayFromLastConnectToRetry r <= 2 * half (retrycount r);
  series_spaced : spaced ts;
  series_limited : limited r ts }.

Lemma half_nonneg k : 0 <= k → 0 <= half k.
Proof. intros. unfold half. assert (0 < 2 ^ k) by lia. apply Z.div_pos; lia. Qed.

Lemma half_mono j k : 0 <= j <= k → half j <= half k.
Proof. intros. unfold half. apply Z.div_le_mono; [lia|]. pose proof (Z.pow_le_mono_r 2 j k). lia. Qed.

Lemma ready_series r : ready r → series r [].
Proof.
  intros []. split; try done; rewrite ?ready_delay0, ?ready_count0; cbn; done.
Qed.

Lemma get_time_eq t ts xs : get_time (mkClock (t :: ts) xs) = Some (t, mkClock ts xs).
Proof. reflexivity. Qed.

(** The delay the policy computes. *)
Lemma policy_spec r k ts xs x :
  retrycount r = k → 0 <= k < 31 → 0 <= x →
  ∃ delay xs', RetryPolicy_Exponential_BackOff_With_Jitter r (mkClock ts (x :: xs)) =
    Some ((true, delay), mkClock ts xs') ∧ half k <= delay <= 2 * half k.
Proof.
  intros <- Hk Hx. unfold RetryPolicy_Exponential_BackOff_With_Jitter, to_int.
  rewrite Z.mod_small, Z.add_simpl_r by lia. unfold shift_one.
  rewrite (proj2 (Z.leb_le _ _)), (proj2 (Z.ltb_lt _ _)) by lia. cbn [andb].
  rewrite st_lift_bind, bind_ret. fold (half (retrycount r)). pose proof (half_nonneg (retrycount r)).
  destruct (Z.ltb_spec 0 (half (retrycount r))).
  - do 2 eexists. split; [reflexivity|]. cbn [hd rands]. pose proof (Z.mod_pos_bound x (half (retrycount r))).
    lia.
  - do 2 eexists. split; [reflexivity|]. lia.
Qed.

(** An attempt at [now]. *)
Lemma series_attempt r ts now :
  series r ts → firstAttempt r = false → retryStarted r = true → Z.of_nat (length ts) < 31 →
  (ts ≠ [] → lastConnect r + Z.max 6 (half (retrycount r)) <= now) →
  (ts ≠ [] → 0 < retryTimeoutLimitInSeconds r →
     now + half (retrycount r) <= start r + retryTimeoutLimitInSeconds r) →
  series (set_attempt now r) (ts ++ [now]).
Proof.
  intros [Hp Hs Hc Hl Hla Hrun Hd Hsp Hli] Hf Hst Hn Hgap Hlim.
  assert ((retrycount r + 1) mod size_mod = retrycount r + 1) as Ec.
  { pose proof size_mod_wide. apply Z.mod_small. lia. }
  split; cbn [set_attempt fnRetryPolicy start retrycount retryExpired lastConnect firstAttempt retryStarted
    delayFromLastConnectToRetry]; try done.
  - rewrite Ec, length_app. cbn. lia.
  - by rewrite last_snoc.
  - rewrite Ec. pose proof (half_mono (retrycount r) (retrycount r + 1)). lia.
  - intros k a b Ha Hb. destruct (decide (S k = length ts)) as [Ek|].
    + rewrite lookup_app_r, Ek, Nat.sub_diag in Hb by lia. injection Hb as <-.
      assert (ts ≠ []) as Hne by by intros ->. specialize (Hgap Hne).
      rewrite lookup_app_l in Ha by lia. rewrite last_lookup in Hla. rewrite <- Ek in Hla. cbn in Hla.
      rewrite Ha in Hla. cbn in Hla. subst a. rewrite Ek, <- Hc. lia.
    + assert (S k < length ts)%nat.
      { apply lookup_lt_Some in Hb. rewrite length_app in Hb. cbn in Hb. lia. }
      rewrite lookup_app_l in Ha, Hb by lia. by apply (Hsp k).
  - intros Hpos k b Hb. cbn [set_attempt retryTimeoutLimitInSeconds start] in *.
    destruct (decide (S k = length ts)) as [Ek|].
    + rewrite lookup_app_r, Ek, Nat.sub_diag in Hb by lia. injection Hb as <-.
      rewrite Ek, <- Hc. apply Hlim; [by intros ->|done].
    + apply lookup_lt_Some in Hb as Hlt. rewrite length_app in Hlt. cbn in Hlt.
      rewrite lookup_app_l in Hb by lia. by apply (Hli Hpos k).
Qed.

(** What a call does in the middle of a series. *)
Definition asked r ts (now : Z) (ok : bool) r' : Prop :=
  retryTimeoutLimitInSeconds r' = retryTimeoutLimitInSeconds r ∧
  (series r' (ts ++ if ok then [now] else []) ∨
   retryExpired r' = true ∧ ok = false ∧ start r' = start r).

Lemma asked_nothing r ts now : series r ts → asked r ts now false r.
Proof. intros Hs. split; [done|]. left. by rewrite app_nil_r. Qed.

Lemma started_series r ts t : series r ts → 0 <= t → ∃ r' k, (∀ ts xs, ∃ ts',
    StartRetryTimer r (mkClock (t :: ts) xs) = Some (r', mkClock ts' xs)) ∧
  series r' ts ∧ firstAttempt r' = false ∧ retryStarted r' = true ∧ retrycount r' = k ∧
  retryTimeoutLimitInSeconds r' = retryTimeoutLimitInSeconds r.
Proof.
  intros [Hp Hs Hc Hl Hla Hrun Hd Hsp Hli] Ht. destruct (retryStarted r) eqn:E.
  - exists (set_firstAttempt false r), (retrycount r). split.
    { intros us xs. exists (t :: us). unfold StartRetryTimer. by rewrite E. }
    split; [|done]. by split.
  - assert (ts = []) as ->. { destruct ts; [done|]. by destruct Hrun. }
    exists (set_firstAttempt false (set_started t r)), (retrycount r). split.
    { intros us xs. exists us. unfold StartRetryTimer. by rewrite E. }
    split; [|done]. split; try done. cbn in *. by rewrite Hc.
Qed.

Lemma evaluate_series r ts now x k :
  series r ts → firstAttempt r = false → retryStarted r = true → Z.of_nat (length ts) < 31 → 0 <= x →
  rands k = [x] → 5 < now - lastConnect r →
  ∃ ok r' k', evaluate r now (now - lastConnect r) k = Some ((ok, r'), k') ∧ asked r ts now ok r' ∧
    (2 * half (retrycount r) <= now - lastConnect r → ok = true ∨ retryExpired r' = true).
Proof.
  intros Hs Hf Hst Hn Hx Ek Hdiff. pose proof Hs as [Hp Hstart Hc Hl Hla Hrun Hd Hsp Hli].
  unfold evaluate. rewrite Hp. cbn [call_policy]. rewrite st_bind_eq. destruct k as [us ?]. cbn in Ek. subst.
  destruct (policy_spec r (retrycount r) us [] x) as (delay & xs' & -> & Hdelay); [done|lia|done|].
  rewrite bind_ret. cbn [andb]. destruct (within_limit r now delay) eqn:Elim.
  - assert (series (set_delay delay r) ts) as Hs1.
    { split; try done. cbn. pose proof (half_nonneg (retrycount r)). lia. }
    assert (∀ b, delay <= b → 0 < retryTimeoutLimitInSeconds r →
      now + half (retrycount r) <= start r + retryTimeoutLimitInSeconds r) as Hlim.
    { intros _ _ Hpos. unfold within_limit in Elim. apply orb_true_iff in Elim as [?%Z.eqb_eq|?%Z.leb_le]; lia. }
    cbn [set_delay delayFromLastConnectToRetry]. destruct (_ || _) eqn:Enow.
    + eexists _, _, _. split; [reflexivity|]. split; [|by left]. split; [done|]. left.
      apply series_attempt; [done..| |].
      * intros _. cbn. unfold ERROR_TIME_FOR_RETRY_SECS in Enow.
        apply orb_true_iff in Enow as [?%Z.leb_le|?%Z.leb_le]; lia.
      * intros _. cbn. by apply (Hlim delay).
    + eexists _, _, _. split; [reflexivity|]. split; [split; [done|left; by rewrite app_nil_r]|].
      apply orb_false_iff in Enow as [_ ?%Z.leb_gt]. lia.
  - eexists _, _, _. split; [reflexivity|]. split; [|right].
    + split; [unfold StopRetryTimer; by destruct (retryStarted _)|]. right.
      unfold StopRetryTimer. by destruct (retryStarted _).
    + unfold StopRetryTimer. by destruct (retryStarted _).
Qed.

Lemma ask_series r ts now later x :
  series r ts → 0 <= now <= later → 0 <= x → Z.of_nat (length ts) < 31 →
  ∃ ok r', ask r (now, later, x) = Some (ok, r') ∧ asked r ts now ok r'.
Proof.
  intros Hs Ht Hx Hn. unfold ask, CanRetry. rewrite st_bind_eq, get_time_eq, bind_ret.
  rewrite (proj2 (Z.ltb_ge _ _)) by lia. rewrite (proj2 (Z.ltb_ge _ _)) by apply Hs. cbn [orb].
  rewrite (series_live _ _ Hs).
  destruct (started_series r ts later Hs) as (r1 & k & E1 & Hs1 & Hf1 & Hst1 & _ & Hlim1); [lia|].
  destruct (E1 [] [x]) as [us E]. destruct (firstAttempt r) eqn:Hf.
  - rewrite st_bind_eq, E, bind_ret. eexists _, _. split; [reflexivity|]. split; [done|]. left.
    assert (ts = []) as ->. { destruct ts; [done|]. destruct (series_running _ _ Hs); congruence. }
    apply series_attempt; [done..| |]; by intros [].
  - destruct (retryStarted r) eqn:Hst.
    + destruct (Z.leb_spec (now - lastConnect r) ERROR_TIME_FOR_RETRY_SECS) as [|Hd].
      { eexists _, _. split; [reflexivity|]. by apply asked_nothing. }
      destruct (now - lastConnect r <? _).
      { eexists _, _. split; [reflexivity|]. by apply asked_nothing. }
      rewrite st_bind_eq.
      destruct (evaluate_series r ts now x (mkClock [later] [x]) Hs Hf Hst Hn Hx eq_refl Hd)
        as (ok & r' & k' & -> & Ha & _). rewrite bind_ret. by eexists _, _.
    + rewrite st_bind_eq, E, bind_ret. eexists _, _. split; [reflexivity|]. split; [done|]. left.
      by rewrite app_nil_r.
Qed.

(** After the longest delay the policy can compute an attempt is made, unless the
    limit ends the series. *)
Lemma ask_due r ts now later x :
  series r ts → firstAttempt r = false → retryStarted r = true → Z.of_nat (length ts) < 31 →
  0 <= now → 0 <= x → lastConnect r + Z.max 6 (2 * half (retrycount r)) <= now →
  ∃ ok r', ask r (now, later, x) = Some (ok, r') ∧ (ok = true ∨ retryExpired r' = true).
Proof.
  intros Hs Hf Hst Hn Ht Hx Hdue. unfold ask, CanRetry. rewrite st_bind_eq, get_time_eq, bind_ret.
  rewrite (proj2 (Z.ltb_ge _ _)) by lia. rewrite (proj2 (Z.ltb_ge _ _)) by apply Hs. cbn [orb].
  rewrite (series_live _ _ Hs), Hf, Hst. unfold ERROR_TIME_FOR_RETRY_SECS.
  rewrite (proj2 (Z.leb_gt _ _)) by lia. pose proof (series_delay _ _ Hs).
  rewrite (proj2 (Z.ltb_ge _ _)) by lia. rewrite st_bind_eq.
  destruct (evaluate_series r ts now x (mkClock [later] [x]) Hs Hf Hst Hn Hx eq_refl) as (ok & r' & k' & -> & _ & Hdo);
    [lia|]. rewrite bind_ret. eexists _, _. split; [reflexivity|]. apply Hdo. lia.
Qed.

(** Once the limit has passed nothing is tried any more. *)
Lemma course_expired r t last calls :
  retryExpired r = true → 0 <= start r → 0 <= t → ticking t last calls → course r calls = Some ([], r).
Proof.
  intros He Hs. revert t. induction calls as [|[[now later] x] calls IH]; intros t Ht Hc; [done|].
  destruct Hc as (Hnow & Hx & Hc). cbn [course].
  assert (ask r (now, later, x) = Some (false, r)) as ->.
  { unfold ask, CanRetry. rewrite st_bind_eq, get_time_eq, bind_ret.
    rewrite (proj2 (Z.ltb_ge _ _)) by lia. rewrite (proj2 (Z.ltb_ge _ _)) by done.
    cbn [orb]. by rewrite He. }
  rewrite bind_ret, (IH later); [done|lia|done].
Qed.

Lemma ticking_last t last calls : ticking t last calls → t <= last.
Proof.
  revert t. induction calls as [|[[now later] x] calls IH]; intros t; [done|].
  intros (? & ? & ?%IH). lia.
Qed.

(** Fewer than 31 attempts fit into eight years. *)
Lemma spaced_short t0 now ts :
  spaced ts → Forall (λ t, t0 <= t <= now) ts → now - t0 < half 30 → Z.of_nat (length ts) < 31.
Proof.
  intros Hsp Hin Hlt. destruct (decide (31 <= length ts)%nat) as [Hge|]; [|lia].
  destruct (lookup_lt_is_Some_2 ts 29) as [a Ha]; [lia|]. destruct (lookup_lt_is_Some_2 ts 30) as [b Hb]; [lia|].
  pose proof (Hsp 29%nat a b Ha Hb) as Hg. rewrite Forall_lookup in Hin.
  pose proof (Hin _ _ Ha). pose proof (Hin _ _ Hb). change (Z.of_nat (S 29)) with 30 in Hg. cbv beta in *. lia.
Qed.

Lemma course_series r ts t0 t last calls :
  series r ts → Forall (λ u, t0 <= u <= t) ts → 0 <= t0 <= t → ticking t last calls → last - t0 < half 30 →
  ∃ ts' r', course r calls = Some (ts', r') ∧ spaced (ts ++ ts') ∧ limited r' (ts ++ ts') ∧
    (retryExpired r' = false → series r' (ts ++ ts') ∧ Forall (λ u, t0 <= u <= last) (ts ++ ts')).
Proof.
  revert r ts t. induction calls as [|[[now later] x] calls IH]; intros r ts t Hs Hin Ht Hc Hlast.
  { exists [], r. rewrite app_nil_r. split; [done|]. split; [apply Hs|]. split; [apply Hs|]. intros _.
    split; [done|]. eapply Forall_impl; [exact Hin|]. cbn in Hc. cbv beta. intros; lia. }
  destruct Hc as (Hnow & Hx & Hc). pose proof (ticking_last _ _ _ Hc).
  assert (Z.of_nat (length ts) < 31) as Hn by (eapply (spaced_short t0 t); [apply Hs|done|lia]).
  destruct (ask_series r ts now later x Hs) as (ok & r1 & E1 & Hlim & Ha); [lia|done|done|].
  cbn [course]. rewrite E1, bind_ret. cbn [fst].
  destruct Ha as [Hs1|(He & -> & Hst)].
  - destruct (IH r1 (ts ++ if ok then [now] else []) later) as (ts' & r' & -> & Hr); [done| |lia|done|done|].
    + apply Forall_app. split; [eapply Forall_impl; [exact Hin|]; cbv beta; intros; lia|].
      destruct ok; [|done]. apply Forall_singleton. lia.
    + rewrite bind_ret. rewrite <- app_assoc in Hr. by exists ((if ok then [now] else []) ++ ts'), r'.
  - rewrite (course_expired r1 later last calls He); [|rewrite Hst; apply Hs|lia|done].
    rewrite bind_ret. exists [], r1. split; [done|]. rewrite !app_nil_r. split; [apply Hs|]. split; [|by rewrite He].
    intros Hpos k b Hb. rewrite Hlim, Hst in *. by apply (series_limited _ _ Hs Hpos k).
Qed.
End course.
