(* ===== verification/RetryControl.v ===== *)
(** * RetryControl: the retry control of the IoT hub library.

    [src/iothub_client/src/iothub_client_retry_control.c]: when a caller may try again,
    and the options it saves in an option handler ([OptionHandler]).  A handle is the
    structure it points to ([None] is NULL).  The clock and the random numbers are those
    of [RetryLogic]; the arithmetic in [double] of the policies with random numbers is
    that of [SpecFloat], and on whole numbers of seconds below 2^53, where it is exact,
    that of the integers.  [RAND_MAX] belongs to the C library. *)
From S2P Require Import Prelude.
From stdpp Require Import strings.
From Stdlib Require Import SpecFloat.
From S2P Require Import Effects.
From S2P Require Import Alloc.
From S2P Require Import CString.
From S2P Require Import Vector.
From S2P Require Import OptionHandler.
From S2P Require Import RetryLogic.
#[local] Open Scope Z_scope.

Inductive RETRY_ACTION := RETRY_ACTION_RETRY_NOW | RETRY_ACTION_RETRY_LATER | RETRY_ACTION_STOP_RETRYING.

#[export] Instance retry_action_eq_dec : EqDecision RETRY_ACTION.
Proof. solve_decision. Defined.

Definition INDEFINITE_TIME := -1.
Definition UINT_SIZE := 4294967296.

Definition RETRY_CONTROL_OPTION_INITIAL_WAIT_TIME_IN_SECS := str "initial_wait_time_in_secs".
Definition RETRY_CONTROL_OPTION_MAX_JITTER_PERCENT := str "max_jitter_percent".
Definition RETRY_CONTROL_OPTION_SAVED_OPTIONS := str "retry_control_saved_options".

Record RETRY_CONTROL_INSTANCE := mkControl {
  policy : IOTHUB_CLIENT_RETRY_POLICY;
  max_retry_time_in_secs : Z;
  initial_wait_time_in_secs : Z;
  max_jitter_percent : Z;
  retry_count : Z;
  first_retry_time : Z;
  last_retry_time : Z;
  current_wait_time_in_secs : Z }.

Implicit Types c : RETRY_CONTROL_INSTANCE.

Definition set_first t c := mkControl (policy c) (max_retry_time_in_secs c) (initial_wait_time_in_secs c)
  (max_jitter_percent c) (retry_count c) t (last_retry_time c) (current_wait_time_in_secs c).
Definition set_last t c := mkControl (policy c) (max_retry_time_in_secs c) (initial_wait_time_in_secs c)
  (max_jitter_percent c) (retry_count c) (first_retry_time c) t (current_wait_time_in_secs c).
Definition set_retry_count n c := mkControl (policy c) (max_retry_time_in_secs c) (initial_wait_time_in_secs c)
  (max_jitter_percent c) n (first_retry_time c) (last_retry_time c) (current_wait_time_in_secs c).
Definition set_wait w c := mkControl (policy c) (max_retry_time_in_secs c) (initial_wait_time_in_secs c)
  (max_jitter_percent c) (retry_count c) (first_retry_time c) (last_retry_time c) w.
Definition set_initial_wait w c := mkControl (policy c) (max_retry_time_in_secs c) w (max_jitter_percent c)
  (retry_count c) (first_retry_time c) (last_retry_time c) (current_wait_time_in_secs c).
Definition set_jitter j c := mkControl (policy c) (max_retry_time_in_secs c) (initial_wait_time_in_secs c) j
  (retry_count c) (first_retry_time c) (last_retry_time c) (current_wait_time_in_secs c).

(** ** Numbers of type [double] *)

Definition double_of (n : Z) : spec_float := binary_normalize 53 1024 n 0 false.
Definition double_mul := SFmul 53 1024.
Definition double_div := SFdiv 53 1024.
Definition double_add := SFadd 53 1024.

(** [pow(2, n)] *)
Definition pow2 (n : Z) : spec_float := binary_normalize 53 1024 1 n false.

(** The conversion to [unsigned int]: undefined when the whole part does not fit. *)
Definition to_unsigned (d : spec_float) : option Z :=
  match d with
  | S754_zero _ => Some 0
  | S754_finite s m e =>
      let n := if 0 <=? e then Z.pos m * 2 ^ e else Z.pos m / 2 ^ (- e) in
      if s then (if n =? 0 then Some 0 else None) else if n <? UINT_SIZE then Some n else None
  | _ => None
  end.

(** [pow(2, retry_count - 1) * initial_wait_time_in_secs] as [unsigned int]; the
    difference is one of [unsigned int]. *)
Definition exponential_wait (count wait : Z) : option Z :=
  let e := (count - 1) mod UINT_SIZE in
  if e <? 32 then (if 2 ^ e * wait <? UINT_SIZE then Some (2 ^ e * wait) else None)
  else if (wait =? 0) && (e <? 1024) then Some 0
  else None.

Section control.
Variable RAND_MAX : Z.

Definition evaluate_retry_action_fixed_interval c : Timed (status * option RETRY_ACTION * RETRY_CONTROL_INSTANCE) :=
  current_time ← get_time;
  if current_time =? INDEFINITE_TIME then mret (FAILURE, None, c)
  else if (0 <? max_retry_time_in_secs c) && (max_retry_time_in_secs c <=? current_time - last_retry_time c) then
    mret (OK, Some RETRY_ACTION_STOP_RETRYING, c)
  else if current_wait_time_in_secs c <=? current_time - last_retry_time c then
    mret (OK, Some RETRY_ACTION_RETRY_NOW, set_last current_time c)
  else mret (OK, Some RETRY_ACTION_RETRY_LATER, c).

(** The result, and the action if it was set. *)
Definition evaluate_retry_action c : Timed (status * option RETRY_ACTION) :=
  if retry_count c =? 0 then mret (OK, Some RETRY_ACTION_RETRY_NOW)
  else if (last_retry_time c =? INDEFINITE_TIME) && negb (bool_decide (policy c = IOTHUB_CLIENT_RETRY_IMMEDIATE)) then
    mret (FAILURE, None)
  else
    current_time ← get_time;
    if current_time =? INDEFINITE_TIME then mret (FAILURE, None)
    else if (0 <? max_retry_time_in_secs c) && (max_retry_time_in_secs c <=? current_time - first_retry_time c) then
      mret (OK, Some RETRY_ACTION_STOP_RETRYING)
    else if bool_decide (policy c = IOTHUB_CLIENT_RETRY_IMMEDIATE) then mret (OK, Some RETRY_ACTION_RETRY_NOW)
    else if current_time - last_retry_time c <? current_wait_time_in_secs c then mret (OK, Some RETRY_ACTION_RETRY_LATER)
    else mret (OK, Some RETRY_ACTION_RETRY_NOW).

Definition random_fraction : Timed spec_float :=
  x ← rand; mret (double_div (double_of x) (double_of RAND_MAX)).

Definition calculate_next_wait_time c : Timed Z :=
  match policy c with
  | IOTHUB_CLIENT_RETRY_INTERVAL => mret (initial_wait_time_in_secs c)
  | IOTHUB_CLIENT_RETRY_LINEAR_BACKOFF => mret (initial_wait_time_in_secs c * retry_count c mod UINT_SIZE)
  | IOTHUB_CLIENT_RETRY_EXPONENTIAL_BACKOFF => lift (exponential_wait (retry_count c) (initial_wait_time_in_secs c))
  | IOTHUB_CLIENT_RETRY_EXPONENTIAL_BACKOFF_WITH_JITTER =>
      x ← random_fraction;
      let jitter_percent := double_mul (double_div (double_of (max_jitter_percent c)) (double_of 100)) x in
      lift (to_unsigned (double_mul
        (double_mul (pow2 ((retry_count c - 1) mod UINT_SIZE)) (double_of (initial_wait_time_in_secs c)))
        (double_add (double_of 1) jitter_percent)))
  | IOTHUB_CLIENT_RETRY_RANDOM =>
      random_percent ← random_fraction;
      lift (to_unsigned (double_mul (double_of (initial_wait_time_in_secs c)) random_percent))
  | _ => mret 0
  end.

Definition is_timeout_reached (start_time timeout_in_secs : Z) : Timed (status * option bool) :=
  if start_time =? INDEFINITE_TIME then mret (FAILURE, None)
  else
    current_time ← get_time;
    if current_time =? INDEFINITE_TIME then mret (FAILURE, None)
    else mret (OK, Some (timeout_in_secs <=? current_time - start_time)).

Definition reset c : RETRY_CONTROL_INSTANCE := set_last INDEFINITE_TIME (set_first INDEFINITE_TIME (set_wait 0 (set_retry_count 0 c))).

Definition retry_control_reset (handle : option RETRY_CONTROL_INSTANCE) : option RETRY_CONTROL_INSTANCE := reset <$> handle.

(** What [retry_control_create] puts into the structure. *)
Definition new_control (p : IOTHUB_CLIENT_RETRY_POLICY) (max_retry_time : Z) : RETRY_CONTROL_INSTANCE :=
  let initial :=
    match p with
    | IOTHUB_CLIENT_RETRY_EXPONENTIAL_BACKOFF | IOTHUB_CLIENT_RETRY_EXPONENTIAL_BACKOFF_WITH_JITTER => 1
    | _ => 5
    end in
  reset (mkControl p max_retry_time initial 5 0 0 0 0).

Definition retry_control_create (p : IOTHUB_CLIENT_RETRY_POLICY) (max_retry_time : Z)
    : Alloc (option RETRY_CONTROL_INSTANCE) :=
  retry_control ← malloc_struct;
  mret (if (retry_control : bool) then Some (new_control p max_retry_time) else None).

Definition retry_control_destroy (handle : option RETRY_CONTROL_INSTANCE) : Alloc unit :=
  match handle with None => mret tt | Some _ => free_struct end.

(** An attempt is counted; the time of the last attempt is not checked. *)
Definition count_attempt c : Timed RETRY_CONTROL_INSTANCE :=
  let c := set_retry_count ((retry_count c + 1) mod UINT_SIZE) c in
  if bool_decide (policy c = IOTHUB_CLIENT_RETRY_IMMEDIATE) then mret c
  else
    t ← get_time;
    let c := set_last t c in
    w ← calculate_next_wait_time c;
    mret (set_wait w c).

Definition retry_control_should_retry (handle : option RETRY_CONTROL_INSTANCE)
    : Timed (status * option RETRY_ACTION * option RETRY_CONTROL_INSTANCE) :=
  match handle with
  | None => mret (FAILURE, None, None)
  | Some c =>
      if bool_decide (policy c = IOTHUB_CLIENT_RETRY_NONE) then mret (OK, Some RETRY_ACTION_STOP_RETRYING, handle)
      else
        c ← (if first_retry_time c =? INDEFINITE_TIME then t ← get_time; mret (set_first t c) else mret c);
        if first_retry_time c =? INDEFINITE_TIME then mret (FAILURE, None, Some c)
        else
          '(result, action) ← evaluate_retry_action c;
          match result with
          | FAILURE => mret (FAILURE, action, Some c)
          | OK =>
              c ← (if bool_decide (action = Some RETRY_ACTION_RETRY_NOW) then count_attempt c else mret c);
              mret (OK, action, Some c)
          end
  end.

(** ** Options *)

Section options.
Context `{Arch}.

Definition retry_control_clone_option (n : list Z) (value : Z) : Alloc (option Z) :=
  if strequal RETRY_CONTROL_OPTION_INITIAL_WAIT_TIME_IN_SECS n || strequal RETRY_CONTROL_OPTION_MAX_JITTER_PERCENT n then
    cloned_value ← malloc_struct;
    mret (if (cloned_value : bool) then Some value else None)
  else mret None.

Definition retry_control_destroy_option (n : list Z) (value : Z) : Alloc unit :=
  if strequal RETRY_CONTROL_OPTION_INITIAL_WAIT_TIME_IN_SECS n || strequal RETRY_CONTROL_OPTION_MAX_JITTER_PERCENT n then
    free_struct
  else mret tt.

(** What the pointer to a value points to: a number, or a handler with options. *)
Inductive VALUE :=
  | UINT (n : Z)
  | SAVED (d : OPTIONHANDLER_HANDLE_DATA Z RETRY_CONTROL_INSTANCE).

Definition uint_value (v : VALUE) : option Z := match v with UINT n => Some n | SAVED _ => None end.
Definition saved_value (v : VALUE) : option (OPTIONHANDLER_HANDLE_DATA Z RETRY_CONTROL_INSTANCE) :=
  match v with SAVED d => Some d | UINT _ => None end.

(** A value that is read as something else is undefined. *)
Definition retry_control_set_option (handle : option RETRY_CONTROL_INSTANCE) (n : option (list Z)) (value : option VALUE)
    : option (status * option RETRY_CONTROL_INSTANCE) :=
  match handle, n, value with
  | Some c, Some n, Some value =>
      if strequal RETRY_CONTROL_OPTION_INITIAL_WAIT_TIME_IN_SECS n then
        cast_value ← uint_value value;
        if cast_value <? 1 then Some (FAILURE, handle) else Some (OK, Some (set_initial_wait cast_value c))
      else if strequal RETRY_CONTROL_OPTION_MAX_JITTER_PERCENT n then
        cast_value ← uint_value value;
        if 100 <? cast_value then Some (FAILURE, handle) else Some (OK, Some (set_jitter cast_value c))
      else if strequal RETRY_CONTROL_OPTION_SAVED_OPTIONS n then
        saved ← saved_value value;
        '(r, handle) ← OptionHandler_FeedOptions (Some saved) handle;
        Some (if bool_decide (r = OPTIONHANDLER_OK) then OK else FAILURE, handle)
      else Some (FAILURE, handle)
  | _, _, _ => Some (FAILURE, handle)
  end.

(** As the handler calls it. *)
Definition set_saved_option c (n : list Z) (value : Z) : option (status * RETRY_CONTROL_INSTANCE) :=
  '(r, handle) ← retry_control_set_option (Some c) (Some n) (Some (UINT value));
  c ← handle;
  Some (r, c).

Definition retry_control_retrieve_options (handle : option RETRY_CONTROL_INSTANCE)
    : Alloc (option (OPTIONHANDLER_HANDLE_DATA Z RETRY_CONTROL_INSTANCE)) :=
  match handle with
  | None => mret None
  | Some c =>
      options ← OptionHandler_Create (Some retry_control_clone_option) (Some retry_control_destroy_option)
                  (Some set_saved_option);
      match options with
      | None => mret None
      | Some _ =>
          '(r, options) ← OptionHandler_AddOption options (Some RETRY_CONTROL_OPTION_INITIAL_WAIT_TIME_IN_SECS)
                            (Some (initial_wait_time_in_secs c));
          '(r, options) ←
            match r with
            | OPTIONHANDLER_OK =>
                OptionHandler_AddOption options (Some RETRY_CONTROL_OPTION_MAX_JITTER_PERCENT) (Some (max_jitter_percent c))
            | _ => mret (r, options)
            end;
          match r with
          | OPTIONHANDLER_OK => mret options
          | _ => OptionHandler_Destroy options;; mret None
          end
      end
  end.
End options.
End control.
