(* ===== verification/RetryControlProperties.v ===== *)
(** * RetryControlProperties: the schedule of the retry control, and its options.

    [schedule] is the reference: when to try again, from the history of the attempts
    alone.  [retry_control_schedule] compares the retry control with it,
    [options_round_trip] takes the options of one control to another. *)
From S2P Require Import Prelude.
From stdpp Require Import strings.
From S2P Require Import Effects.
From S2P Require Import Alloc.
From S2P Require Import CString.
From S2P Require Import Vector.
From S2P Require Import OptionHandler.
From S2P Require Import RetryLogic.
From S2P Require Import RetryControl.
#[local] Open Scope Z_scope.

(** ** The schedule *)

(** The time to wait after the [k]-th attempt; [None]: a policy with random numbers, or
    a time that is not an [unsigned int]. *)
Definition pause (p : IOTHUB_CLIENT_RETRY_POLICY) (initial k : Z) : option Z :=
  match p with
  | IOTHUB_CLIENT_RETRY_IMMEDIATE => Some 0
  | IOTHUB_CLIENT_RETRY_INTERVAL => Some initial
  | IOTHUB_CLIENT_RETRY_LINEAR_BACKOFF => if initial * k <? UINT_SIZE then Some (initial * k) else None
  | IOTHUB_CLIENT_RETRY_EXPONENTIAL_BACKOFF =>
      if 2 ^ (k - 1) * initial <? UINT_SIZE then Some (2 ^ (k - 1) * initial) else None
  | _ => None
  end.

(** A call: the time when it looks at the clock, and the time when it looks again. *)
#[warnings="-notation-for-abbreviation"] Notation Call := (Z * Z)%type.

(** The answer at [now], when the first call was at [first] and [tries] are the times of
    the attempts so far: the limit first, then the pause after the last attempt. *)
Definition due (p : IOTHUB_CLIENT_RETRY_POLICY) (max initial first : Z) (tries : list Z) (now : Z) : RETRY_ACTION :=
  if (0 <? max) && (max <=? now - first) then RETRY_ACTION_STOP_RETRYING
  else if now - default first (last tries) <? default 0 (pause p initial (Z.of_nat (length tries))) then
    RETRY_ACTION_RETRY_LATER
  else RETRY_ACTION_RETRY_NOW.

(** The attempts after a call. *)
Definition tries_after (action : RETRY_ACTION) (tries : list Z) (later : Z) : list Z :=
  match action with RETRY_ACTION_RETRY_NOW => tries ++ [later] | _ => tries end.

Fixpoint schedule (p : IOTHUB_CLIENT_RETRY_POLICY) (max initial first : Z) (tries : list Z) (calls : list Call)
    : list RETRY_ACTION :=
  match calls with
  | [] => []
  | (now, later) :: calls =>
      let action := due p max initial first tries now in
      action :: schedule p max initial first (tries_after action tries later) calls
  end.

(** The first call is an attempt at once. *)
Definition schedule_from (p : IOTHUB_CLIENT_RETRY_POLICY) (max initial : Z) (calls : list Call) : list RETRY_ACTION :=
  match calls with
  | [] => []
  | (now, later) :: calls => RETRY_ACTION_RETRY_NOW :: schedule p max initial now [later] calls
  end.

(** The clock runs forward from [t], and never fails. *)
Fixpoint ticks (t : Z) (calls : list Call) : Prop :=
  match calls with [] => True | (now, later) :: calls => t <= now <= later ∧ ticks later calls end.

Section schedule.
Variable RAND_MAX : Z.
Implicit Types c : RETRY_CONTROL_INSTANCE.

(** The answers of a retry control. *)
Fixpoint answers c (calls : list Call) : option (list RETRY_ACTION) :=
  match calls with
  | [] => Some []
  | (now, later) :: calls =>
      '((r, action, handle), _) ← retry_control_should_retry RAND_MAX (Some c) (mkClock [now; later] []);
      c ← handle;
      action ← (match r with OK => action | FAILURE => None end);
      actions ← answers c calls;
      Some (action :: actions)
  end.

(** After the attempts [tries]. *)
Record tried c (first : Z) (tries : list Z) : Prop := {
  tried_first : first_retry_time c = first;
  tried_some : tries ≠ [];
  tried_count : retry_count c = Z.of_nat (length tries);
  tried_last : policy c ≠ IOTHUB_CLIENT_RETRY_IMMEDIATE → last tries = Some (last_retry_time c);
  tried_wait : policy c ≠ IOTHUB_CLIENT_RETRY_IMMEDIATE →
    pause (policy c) (initial_wait_time_in_secs c) (Z.of_nat (length tries)) = Some (current_wait_time_in_secs c) }.

Lemma calculate_pause c k w t :
  retry_count c = k → 1 <= k → 1 <= initial_wait_time_in_secs c → policy c ≠ IOTHUB_CLIENT_RETRY_IMMEDIATE →
  pause (policy c) (initial_wait_time_in_secs c) k = Some w →
  calculate_next_wait_time RAND_MAX c t = Some (w, t).
Proof.
  intros Ek Hk Hi Hp Hw. unfold calculate_next_wait_time. destruct (policy c); try done; cbn [pause] in Hw.
  - by injection Hw as <-.
  - destruct (Z.ltb_spec (initial_wait_time_in_secs c * k) UINT_SIZE); [|done]. injection Hw as <-.
    rewrite Ek, Z.mod_small by nia. done.
  - unfold exponential_wait. rewrite Ek. destruct (Z.ltb_spec (2 ^ (k - 1) * initial_wait_time_in_secs c) UINT_SIZE) as [Hlt|]; [|done].
    injection Hw as <-. assert (k - 1 < 32) as Hk32.
    { destruct (Z.lt_ge_cases (k - 1) 32) as [|Hge]; [done|]. pose proof (Z.pow_le_mono_r 2 32 (k - 1) ltac:(lia) Hge).
      change (2 ^ 32) with UINT_SIZE in *. nia. }
    rewrite Z.mod_small by (unfold UINT_SIZE; lia). rewrite (proj2 (Z.ltb_lt _ _)) by done.
    by rewrite (proj2 (Z.ltb_lt _ _)) by done.
Qed.

(** One more attempt at [later]. *)
Lemma attempt_tried c first tries later w t :
  first_retry_time c = first → retry_count c = Z.of_nat (length tries) → Z.of_nat (length tries) + 1 < UINT_SIZE →
  1 <= initial_wait_time_in_secs c →
  pause (policy c) (initial_wait_time_in_secs c) (Z.of_nat (length tries) + 1) = Some w →
  ∃ c' k, count_attempt RAND_MAX c (mkClock (later :: t) []) = Some (c', k) ∧ tried c' first (tries ++ [later]) ∧
    policy c' = policy c ∧ max_retry_time_in_secs c' = max_retry_time_in_secs c ∧
    initial_wait_time_in_secs c' = initial_wait_time_in_secs c.
Proof.
  intros Ef Ec Hn Hi Hw. unfold count_attempt. rewrite Ec. rewrite Z.mod_small by lia.
  set (c1 := set_retry_count _ c). destruct (bool_decide (policy c1 = IOTHUB_CLIENT_RETRY_IMMEDIATE)) eqn:Ep.
  - apply bool_decide_eq_true in Ep. do 2 eexists. split; [reflexivity|]. split; [|done].
    split; cbn [first_retry_time retry_count policy c1 set_retry_count] in *; try done.
    + by destruct tries.
    + rewrite length_app. cbn. lia.
  - apply bool_decide_eq_false in Ep. rewrite st_bind_eq. change (get_time (mkClock (later :: t) [])) with (Some (later, mkClock t [])).
    rewrite bind_ret, st_bind_eq, (calculate_pause (set_last later c1) (Z.of_nat (length tries) + 1) w); try done; [|lia].
    rewrite bind_ret. do 2 eexists. split; [reflexivity|]. split; [|done]. split; cbn in *; try done.
    + by destruct tries.
    + rewrite length_app. cbn. lia.
    + intros _. by rewrite last_snoc.
    + intros _. rewrite length_app. cbn. by rewrite Nat2Z.inj_add.
Qed.

Lemma evaluate_due c first tries now later :
  tried c first tries → 0 <= now → (∀ t, last tries = Some t → 0 <= t <= now) →
  evaluate_retry_action c (mkClock [now; later] []) =
    Some ((OK, Some (due (policy c) (max_retry_time_in_secs c) (initial_wait_time_in_secs c) first tries now)),
      mkClock [later] []).
Proof.
  intros [Ef Hne Ec El Ew] Hnow Hlast. destruct (last tries) as [l|] eqn:Elast; [|by apply last_None in Elast].
  specialize (Hlast l eq_refl). unfold evaluate_retry_action, due. rewrite Ec, (proj2 (Z.eqb_neq (Z.of_nat _) 0)) by by destruct tries.
  assert ((last_retry_time c =? INDEFINITE_TIME) && negb (bool_decide (policy c = IOTHUB_CLIENT_RETRY_IMMEDIATE)) = false) as ->.
  { destruct (decide (policy c = IOTHUB_CLIENT_RETRY_IMMEDIATE)) as [E|E]; [by rewrite (bool_decide_true _ E), andb_false_r|].
    specialize (El E). injection El as El. by rewrite (proj2 (Z.eqb_neq _ _)) by (unfold INDEFINITE_TIME; lia). }
  rewrite st_bind_eq. change (get_time (mkClock [now; later] [])) with (Some (now, mkClock [later] [])). rewrite bind_ret.
  rewrite (proj2 (Z.eqb_neq now _)) by (unfold INDEFINITE_TIME; lia). rewrite Ef.
  destruct ((0 <? max_retry_time_in_secs c) && (max_retry_time_in_secs c <=? now - first)); [done|].
  rewrite Elast. change (default first (Some l)) with l. destruct (decide (policy c = IOTHUB_CLIENT_RETRY_IMMEDIATE)) as [E|E].
  - rewrite (bool_decide_true _ E), E. cbn [pause]. change (default 0 (Some 0)) with 0.
    by rewrite (proj2 (Z.ltb_ge _ _)) by lia.
  - rewrite (bool_decide_false _ E), (Ew E). specialize (El E). injection El as <-.
    change (default 0 (Some (current_wait_time_in_secs c))) with (current_wait_time_in_secs c). by case_match.
Qed.

(** What stays. *)
Definition same_settings c c' : Prop :=
  policy c' = policy c ∧ max_retry_time_in_secs c' = max_retry_time_in_secs c ∧
  initial_wait_time_in_secs c' = initial_wait_time_in_secs c.

Lemma answer_tried c first tries now later :
  tried c first tries → policy c ≠ IOTHUB_CLIENT_RETRY_NONE → 0 <= first → 0 <= now →
  (∀ t, last tries = Some t → 0 <= t <= now) → 1 <= initial_wait_time_in_secs c →
  Z.of_nat (length tries) + 1 < UINT_SIZE →
  is_Some (pause (policy c) (initial_wait_time_in_secs c) (Z.of_nat (length tries) + 1)) →
  let action := due (policy c) (max_retry_time_in_secs c) (initial_wait_time_in_secs c) first tries now in
  ∃ c' k, retry_control_should_retry RAND_MAX (Some c) (mkClock [now; later] []) = Some ((OK, Some action, Some c'), k) ∧
    tried c' first (tries_after action tries later) ∧ same_settings c c'.
Proof.
  intros Ht Hp Hf Hnow Hlast Hi Hn [w Hw] action. unfold retry_control_should_retry.
  rewrite (bool_decide_false (policy c = _)) by done. rewrite (tried_first _ _ _ Ht).
  rewrite (proj2 (Z.eqb_neq first _)) by (unfold INDEFINITE_TIME; lia).
  rewrite st_bind_eq. change ((mret c : Timed _) (mkClock [now; later] [])) with (Some (c, mkClock [now; later] [])).
  rewrite bind_ret, (tried_first _ _ _ Ht), (proj2 (Z.eqb_neq first _)) by (unfold INDEFINITE_TIME; lia).
  rewrite st_bind_eq, (evaluate_due c first tries now later Ht Hnow Hlast), bind_ret. fold action. rewrite st_bind_eq.
  destruct (decide (action = RETRY_ACTION_RETRY_NOW)) as [E|E].
  - rewrite E, bool_decide_true by done.
    destruct (attempt_tried c first tries later w [] (tried_first _ _ _ Ht) (tried_count _ _ _ Ht) Hn Hi Hw) as (c' & k & -> & Ht' & Hs).
    exists c', k. by split_and!.
  - rewrite bool_decide_false by by intros [= ?]. exists c. eexists. split; [reflexivity|]. split; [by destruct action|done].
Qed.

Lemma answers_tried c first tries t calls :
  tried c first tries → policy c ≠ IOTHUB_CLIENT_RETRY_NONE → 0 <= first → 0 <= t →
  (∀ l, last tries = Some l → 0 <= l <= t) → 1 <= initial_wait_time_in_secs c → ticks t calls →
  Z.of_nat (length tries + length calls) < UINT_SIZE →
  (∀ k, 1 <= k <= Z.of_nat (length tries + length calls) → is_Some (pause (policy c) (initial_wait_time_in_secs c) k)) →
  answers c calls = Some (schedule (policy c) (max_retry_time_in_secs c) (initial_wait_time_in_secs c) first tries calls).
Proof.
  revert c tries t. induction calls as [|[now later] calls IH]; intros c tries t Ht Hp Hf Ht0 Hlast Hi Htick Hn Hw; [done|].
  destruct Htick as [Hnow Htick]. cbn [answers schedule length] in *.
  destruct (answer_tried c first tries now later) as (c' & k & -> & Ht' & Ep & Em & Ei); [done|done|done|lia| |done|lia| |].
  { intros l El. specialize (Hlast l El). lia. }
  { apply Hw. lia. }
  set (action := due _ _ _ _ _ _) in *. rewrite !bind_ret, <- Ep, <- Em, <- Ei.
  rewrite (IH c' (tries_after action tries later) later); [done|done|congruence|done|lia| |by rewrite Ei|done| |].
  - intros l El. unfold tries_after in El. destruct action; [rewrite last_snoc in El; injection El as <-; lia| |];
      specialize (Hlast l El); lia.
  - unfold tries_after. destruct action; rewrite ?length_app; cbn [length]; lia.
  - intros k0 Hk0. rewrite Ep, Ei. apply Hw. unfold tries_after in Hk0. destruct action; rewrite ?length_app in Hk0; cbn [length] in Hk0; lia.
Qed.
End schedule.

(** C37: the retry control keeps the schedule.  After a reset, and with a clock that runs
    forward, its answers to any sequence of calls are those of [schedule_from], which
    looks at the times of the attempts only: the first call is an attempt, a later one
    when the pause of the policy after the last attempt is over (the same each time,
    growing linearly, or doubling), and none when the limit after the first call is
    reached.  [RETRY_NONE] never tries.  The pauses must be numbers of type
    [unsigned int]. *)
Theorem retry_control_schedule RAND_MAX c t calls :
  1 <= initial_wait_time_in_secs c → 0 <= t → ticks t calls → Z.of_nat (length calls) < UINT_SIZE →
  (policy c ≠ IOTHUB_CLIENT_RETRY_NONE →
     ∀ k, 1 <= k <= Z.of_nat (length calls) → is_Some (pause (policy c) (initial_wait_time_in_secs c) k)) →
  answers RAND_MAX (reset c) calls =
    Some (if decide (policy c = IOTHUB_CLIENT_RETRY_NONE) then (λ _, RETRY_ACTION_STOP_RETRYING) <$> calls
          else schedule_from (policy c) (max_retry_time_in_secs c) (initial_wait_time_in_secs c) calls).
Proof.
  intros Hi Ht Htick Hn Hw. destruct (decide (policy c = IOTHUB_CLIENT_RETRY_NONE)) as [E|E].
  - clear Htick Hw Hn. induction calls as [|[now later] calls IH]; [done|]. cbn [answers fmap list_fmap].
    unfold retry_control_should_retry. rewrite bool_decide_true by exact E.
    change ((mret ?x : Timed _) ?k) with (Some (x, k)). rewrite !bind_ret, IH. done.
  - destruct calls as [|[now later] calls]; [done|]. destruct Htick as [Hnow Htick]. cbn [answers schedule_from].
    unfold retry_control_should_retry. rewrite bool_decide_false by exact E. rewrite st_bind_eq.
    change (first_retry_time (reset c) =? INDEFINITE_TIME) with true. cbv iota. rewrite st_bind_eq.
    change (get_time (mkClock [now; later] [])) with (Some (now, mkClock [later] [])). rewrite bind_ret.
    set (c1 := set_first now (reset c)). change ((mret c1 : Timed _) (mkClock [later] [])) with (Some (c1, mkClock [later] [])).
    rewrite bind_ret. change (first_retry_time c1) with now. rewrite (proj2 (Z.eqb_neq now _)) by (unfold INDEFINITE_TIME; lia).
    rewrite st_bind_eq. unfold evaluate_retry_action. change (retry_count c1 =? 0) with true. cbv iota.
    change ((mret ?x : Timed _) ?k) with (Some (x, k)). rewrite bind_ret, st_bind_eq, bool_decide_true by done.
    destruct (Hw E 1) as [w Hw1]; [cbn [length]; lia|].
    destruct (attempt_tried RAND_MAX c1 now [] later w []) as (c2 & k & E2 & Ht2 & Ep & Em & Ei); [done|done|unfold UINT_SIZE; cbn; lia|done|exact Hw1|].
    rewrite E2, bind_ret. change ((mret ?x : Timed _) ?k) with (Some (x, k)). rewrite !bind_ret.
    rewrite (answers_tried RAND_MAX c2 now [later] later calls); rewrite ?Ep, ?Em, ?Ei; try done; try (cbn [length] in *; lia).
    + intros l [= <-]. lia.
    + intros k0 Hk0. apply (Hw E). cbn [length] in *. lia.
Qed.

(** A doubling pause from one second, a limit of ten seconds: attempts at 100, 101, 103
    and 107. *)
Lemma retry_control_schedule_witness :
  answers 2147483647 (reset (new_control IOTHUB_CLIENT_RETRY_EXPONENTIAL_BACKOFF 10))
    [(100, 100); (100, 100); (101, 101); (102, 102); (103, 103); (106, 106); (107, 107); (110, 110)] =
  Some [RETRY_ACTION_RETRY_NOW; RETRY_ACTION_RETRY_LATER; RETRY_ACTION_RETRY_NOW; RETRY_ACTION_RETRY_LATER;
        RETRY_ACTION_RETRY_NOW; RETRY_ACTION_RETRY_LATER; RETRY_ACTION_RETRY_NOW; RETRY_ACTION_STOP_RETRYING].
Proof.
  rewrite (retry_control_schedule 2147483647 (new_control IOTHUB_CLIENT_RETRY_EXPONENTIAL_BACKOFF 10) 100).
  - reflexivity.
  - cbn. lia.
  - lia.
  - cbn. lia.
  - cbn. unfold UINT_SIZE. lia.
  - intros _ k Hk. cbn [length] in Hk. cbn [pause policy new_control reset set_last set_first set_wait set_retry_count].
    change (initial_wait_time_in_secs (new_control IOTHUB_CLIENT_RETRY_EXPONENTIAL_BACKOFF 10)) with 1.
    pose proof (Z.pow_le_mono_r 2 (k - 1) 7 ltac:(lia) ltac:(lia)).
    destruct (Z.ltb_spec (2 ^ (k - 1) * 1) UINT_SIZE); [by eexists|]. unfold UINT_SIZE in *. cbn in *. lia.
Defined.

(** ** Options *)

Section options.
Context `{Arch}.
Implicit Types (c : RETRY_CONTROL_INSTANCE) (d : OPTIONHANDLER_HANDLE_DATA Z RETRY_CONTROL_INSTANCE).

(** The options a handler keeps for a control. *)
Definition kept_options c : list (list Z * Z) :=
  [(RETRY_CONTROL_OPTION_INITIAL_WAIT_TIME_IN_SECS, initial_wait_time_in_secs c);
   (RETRY_CONTROL_OPTION_MAX_JITTER_PERCENT, max_jitter_percent c)].

Definition retry_option (n : list Z) : Prop :=
  n = RETRY_CONTROL_OPTION_INITIAL_WAIT_TIME_IN_SECS ∨ n = RETRY_CONTROL_OPTION_MAX_JITTER_PERCENT.

Lemma retry_option_known n : retry_option n →
  strequal RETRY_CONTROL_OPTION_INITIAL_WAIT_TIME_IN_SECS n || strequal RETRY_CONTROL_OPTION_MAX_JITTER_PERCENT n = true.
Proof. by intros [->| ->]. Qed.

#[local] Instance retry_option_laws (set : RETRY_CONTROL_INSTANCE → list Z → Z → option (status * RETRY_CONTROL_INSTANCE)) v :
  OptionLaws retry_option (mkHandler retry_control_clone_option retry_control_destroy_option set v).
Proof.
  split; intros n x Q h Hn; cbn [cloneOption destroyOption].
  - intros HS HN. unfold retry_control_clone_option. rewrite (retry_option_known n Hn).
    apply wp_bind, wp_malloc_struct; intros h' Hu; [by apply wp_ret, HS|]. intros Hp. by apply wp_ret, HN.
  - intros HQ. unfold retry_control_destroy_option. rewrite (retry_option_known n Hn). by apply wp_free_struct.
Qed.

(** A handler of the retry control. *)
Definition of_retry_control d : Prop := ∃ v, d = mkHandler retry_control_clone_option retry_control_destroy_option set_saved_option v.

Lemma same_of_retry_control d d' : same_functions d d' → of_retry_control d → of_retry_control d'.
Proof. intros (E1 & E2 & E3) [v ->]. destruct d' as [? ? ? w]. cbn in *. subst. by exists w. Qed.

Lemma of_laws d : of_retry_control d → OptionLaws retry_option d.
Proof. intros [v ->]. apply _. Qed.

(** An option is added, or memory is short. *)
Lemma wp_add d l n x (Q : OPTIONHANDLER_RESULT * option (OPTIONHANDLER_HANDLE_DATA Z RETRY_CONTROL_INSTANCE) → Heap → Prop) h :
  of_retry_control d → retry_option n → holding d l → (length l <= 2)%nat →
  (∀ d' h', of_retry_control d' → holding d' (l ++ [(n, x)]) →
     used (handler_blocks (l ++ [(n, x)]) - handler_blocks l) h h' → Q (OPTIONHANDLER_OK, Some d') h') →
  (∀ h', used 0 h h' → ¬ plenty h → Q (OPTIONHANDLER_ERROR, Some d) h') →
  wp (OptionHandler_AddOption (Some d) (Some n) (Some x)) Q h.
Proof.
  intros Hd Hn Hl Hlen HS HN. apply wp_bind.
  eapply (wp_AddOptionInternal retry_option); [by apply of_laws|exact Hn|exact Hl| | |].
  - pose proof size_mod_wide. unfold sizeof_OPTION. lia.
  - intros d' h' Hs Hd' Hu. apply wp_ret, HS; [by eapply same_of_retry_control|done|done].
  - intros h' Hu Hp. by apply wp_ret, HN.
Qed.

(** The handler has both options, or nothing is left. *)
Lemma wp_retrieve_options c (Q : option (OPTIONHANDLER_HANDLE_DATA Z RETRY_CONTROL_INSTANCE) → Heap → Prop) h :
  (∀ d h', of_retry_control d → holding d (kept_options c) → used (handler_blocks (kept_options c)) h h' → Q (Some d) h') →
  (∀ h', used 0 h h' → ¬ plenty h → Q None h') →
  wp (retry_control_retrieve_options (Some c)) Q h.
Proof.
  intros HS HN.
  assert (∀ d l h1, of_retry_control d → holding d l → Forall (λ o, retry_option o.1) l → ¬ plenty h →
    used (handler_blocks l) h h1 → wp (OptionHandler_Destroy (Some d);; mret None) Q h1) as Hgive.
  { intros d l h1 Hd Hl Hk Hp Hu.
    apply wp_bind; eapply (wp_DestroyInternal retry_option); [by apply of_laws|exact Hk|exact Hl|].
    intros h2 Hu2; apply wp_ret, HN; [eapply used_trans; [exact Hu|exact Hu2|lia]|done]. }
  apply wp_bind, wp_CreateInternal; cycle 1. { intros h1 Hu1 Hp. by apply wp_ret, HN. }
  intros v h1 Hd1 Hu1. set (d1 := mkHandler _ _ _ v) in *. assert (of_retry_control d1) as Ho1 by by exists v.
  apply wp_bind. eapply wp_add; [exact Ho1|by left|exact Hd1|cbn; lia| |].
  - intros d2 h2 Ho2 Hd2 Hu2. apply wp_bind. eapply wp_add; [exact Ho2|by right|exact Hd2|cbn; lia| |].
    + intros d3 h3 Ho3 Hd3 Hu3. apply wp_ret, HS; [done|exact Hd3|].
      eapply used_trans; [exact Hu1|eapply used_trans; [exact Hu2|exact Hu3|done]|done].
    + intros h3 Hu3 Hp. eapply Hgive; [exact Ho2|exact Hd2| | |].
      * constructor; [by left|constructor].
      * intros Hpl. apply Hp. by apply Hu2, Hu1.
      * eapply used_trans; [exact Hu1|eapply used_trans; [exact Hu2|exact Hu3|done]|done].
  - intros h2 Hu2 Hp. apply wp_bind, wp_ret. eapply Hgive; [exact Ho1|exact Hd1|constructor| |].
    + intros Hpl. apply Hp. by apply Hu1.
    + eapply used_trans; [exact Hu1|exact Hu2|done].
Qed.

(** The settings of one control that another can take. *)
Definition valid c : Prop := 1 <= initial_wait_time_in_secs c ∧ max_jitter_percent c <= 100.

Lemma feed_kept d c1 c2 : of_retry_control d → holding d (kept_options c1) → valid c1 →
  OptionHandler_FeedOptions (Some d) (Some c2) =
    Some (OPTIONHANDLER_OK, Some (set_jitter (max_jitter_percent c1) (set_initial_wait (initial_wait_time_in_secs c1) c2))).
Proof.
  intros [v ->] Hh [Hi Hj]. rewrite (FeedOptions_spec _ _ _ Hh). cbn [kept_options set_all setOption fst snd].
  unfold set_saved_option, retry_control_set_option.
  change (strequal RETRY_CONTROL_OPTION_INITIAL_WAIT_TIME_IN_SECS RETRY_CONTROL_OPTION_INITIAL_WAIT_TIME_IN_SECS) with true.
  change (strequal RETRY_CONTROL_OPTION_INITIAL_WAIT_TIME_IN_SECS RETRY_CONTROL_OPTION_MAX_JITTER_PERCENT) with false.
  change (strequal RETRY_CONTROL_OPTION_MAX_JITTER_PERCENT RETRY_CONTROL_OPTION_MAX_JITTER_PERCENT) with true.
  cbn [uint_value]. rewrite !bind_ret, (proj2 (Z.ltb_ge _ 1)) by done. rewrite !bind_ret.
  by rewrite (proj2 (Z.ltb_ge 100 _)) by done.
Qed.

(** The options of [c1] are saved, given to [c2], and the handler is destroyed. *)
Definition transfer c1 c2 : Alloc (option (status * option RETRY_CONTROL_INSTANCE)) :=
  options ← retry_control_retrieve_options (Some c1);
  match options with
  | None => mret None
  | Some d =>
      r ← lift (retry_control_set_option (Some c2) (Some RETRY_CONTROL_OPTION_SAVED_OPTIONS) (Some (SAVED d)));
      OptionHandler_Destroy options;;
      mret (Some r)
  end.

(** C38: the options of a retry control survive being saved.  Options retrieved from one
    control and set in another give the other one the initial pause and the jitter of
    the first and change nothing else of it; the handler in between keeps copies of its
    own, and when it is destroyed no memory is left, also when an allocation failed on
    the way, which is the only reason for having no handler. *)
Theorem options_round_trip c1 c2 h : valid c1 →
  wp (transfer c1 c2) (λ r h', used 0 h h' ∧
    match r with
    | None => ¬ plenty h
    | Some (r, c) => r = OK ∧
        c = Some (set_jitter (max_jitter_percent c1) (set_initial_wait (initial_wait_time_in_secs c1) c2))
    end) h.
Proof.
  intros Hv. apply wp_bind, wp_retrieve_options; cycle 1. { intros h1 Hu1 Hp. by apply wp_ret. }
  intros d h1 Hd Hh Hu1. apply wp_bind. eapply wp_lift.
  { unfold retry_control_set_option.
    change (strequal RETRY_CONTROL_OPTION_INITIAL_WAIT_TIME_IN_SECS RETRY_CONTROL_OPTION_SAVED_OPTIONS) with false.
    change (strequal RETRY_CONTROL_OPTION_MAX_JITTER_PERCENT RETRY_CONTROL_OPTION_SAVED_OPTIONS) with false.
    change (strequal RETRY_CONTROL_OPTION_SAVED_OPTIONS RETRY_CONTROL_OPTION_SAVED_OPTIONS) with true.
    cbn [saved_value]. rewrite bind_ret, (feed_kept d c1 c2 Hd Hh Hv), bind_ret. reflexivity. }
  apply wp_bind. eapply (wp_DestroyInternal retry_option); [by apply of_laws| |exact Hh|].
  { constructor; [by left|constructor; [by right|constructor]]. }
  intros h2 Hu2. apply wp_ret. split; [|done]. eapply used_trans; [exact Hu1|exact Hu2|lia].
Qed.
End options.

Lemma options_round_trip_witness :
  let c1 := mkControl IOTHUB_CLIENT_RETRY_INTERVAL 60 30 20 3 100 130 30 in
  let c2 := new_control IOTHUB_CLIENT_RETRY_LINEAR_BACKOFF 0 in
  ∃ h', @transfer lp64 c1 c2 {| allocs := []; live := 0 |} = Some (Some (OK, Some (set_jitter 20 (set_initial_wait 30 c2))), h') ∧
    live h' = 0.
Proof.
  intros c1 c2. destruct (@options_round_trip lp64 c1 c2 {| allocs := []; live := 0 |}) as (r & h' & E & Hu & Hr).
  - by split.
  - exists h'. split; [|by rewrite (used_live _ _ _ Hu)]. rewrite E. destruct r as [[r c]|].
    + by destruct Hr as [-> ->].
    + destruct Hr. constructor.
Defined.
