(* ===== verification/IotHubClient.v ===== *)
(** * IotHubClient: the IoT hub client.

    [src/iothub_client/src/iothub_mqtt_client.c]: connecting, retrying, publishing
    and subscribing on top of the MQTT client.  The hub client is the context of
    the callbacks of [MqttClient]: it is the [user] of a [Peer].

    The two queues of pending acknowledgements are intrusive lists; their entries
    live in a store next to the structures they are part of.  The callbacks of the
    application, with their contexts, are values of the types [Pub] and [Sub],
    and [pubCallback], [subCallback] run them.  The persistent storage is a record
    of operations.  Outside are the clock, the random numbers and whether a
    transport can be created. *)
From S2P Require Import Prelude.
From stdpp Require Import gmap.
From S2P Require Import Effects.
From S2P Require Import Alloc.
From S2P Require Import Buffer.
From S2P Require Import CString.
From S2P Require Import DoublyLinkedList.
From S2P Require Import MqttCodec.
From S2P Require Import MqttDecoder.
From S2P Require Import MqttMessage.
From S2P Require Import MqttClient.
From S2P Require Import RetryLogic.
#[local] Open Scope Z_scope.

(** ** Data *)

Inductive MQTT_CLIENT_STATUS :=
  | MQTT_CLIENT_STATUS_NOT_CONNECTED | MQTT_CLIENT_STATUS_CONNECTING | MQTT_CLIENT_STATUS_CONNECTED.

#[export] Instance client_status_eq_dec : EqDecision MQTT_CLIENT_STATUS.
Proof. solve_decision. Defined.

Inductive MQTT_CONNECTION_TYPE := MQTT_CONNECTION_TCP | MQTT_CONNECTION_TLS | MQTT_CONNECTION_MUTUAL_TLS.
Inductive MQTT_PUB_STATUS_TYPE := MQTT_PUB_SUCCESS | MQTT_PUB_FAILED.

Definition CONN_REFUSED_UNACCEPTABLE_VERSION := 1.
Definition CONN_REFUSED_BAD_USERNAME_PASSWORD := 4.
Definition CONN_REFUSED_NOT_AUTHORIZED := 5.

(** [iothub_client_persistence.h].  [get_messages] fails with [None].  [data_topicName]
    and [data_payload] are blocks; the topic is used as a string. *)
Record PUBLISH_DATA := mkPublishData {
  messageId : Z; data_qos : Z; data_topicName : list Z; data_payload : list Z }.

Record PERSIST_INTERFACE_DESCRIPTION (P : Type) := mkPersist {
  concrete_add_message : P → Z → list Z → Z → option (list Z) → status * P;
  concrete_get_messages : P → option (list PUBLISH_DATA) * P;
  concrete_delete_message : P → Z → status * P }.
#[global] Arguments concrete_add_message {P} _.
#[global] Arguments concrete_get_messages {P} _.
#[global] Arguments concrete_delete_message {P} _.

(** The addresses of the two heads, which are fields of the client. *)
Definition pub_ack_waiting_queue : positive := 1.
Definition sub_ack_waiting_queue : positive := 2.

Section hub.
Context `{Arch} {U P Pub Sub : Type}.

(** Without the entry, which has the same address in the store [links]. *)
Record MQTT_PUB_CALLBACK_INFO := mkPubInfo {
  pub_packetId : Z; pub_callback : Pub; msgHandle : MQTT_MESSAGE_HANDLE }.
Record MQTT_SUB_CALLBACK_INFO := mkSubInfo { sub_packetId : Z; sub_callback : Sub }.

(** [mqttClient] and [xioTransport]: the pointer is not NULL.  The handles of the
    tick counter, the endpoint and the certificates are never read back.
    [application]: its state. *)
Record IOTHUB_MQTT_CLIENT := mkHub {
  options : MQTT_CLIENT_OPTIONS;
  connType : MQTT_CONNECTION_TYPE;
  mqttClient : bool;
  xioTransport : bool;
  packetId : Z;
  mqttClientStatus : MQTT_CLIENT_STATUS;
  isDisconnectCalled : bool;
  isConnectionLost : bool;
  isDestroyCalled : bool;
  isRecoverableError : bool;
  mqtt_connect_time : Z;
  connectFailCount : Z;
  connectTick : Z;
  retryLogic : option RETRY_LOGIC;
  links : entries;
  pub_infos : gmap positive MQTT_PUB_CALLBACK_INFO;
  sub_infos : gmap positive MQTT_SUB_CALLBACK_INFO;
  needPublishPersistMsg : bool;
  persistHandle : P;
  clock : Clock;
  creations : list bool;
  application : U }.

Definition set_mqttClient v d := mkHub (options d) (connType d) v (xioTransport d) (packetId d)
  (mqttClientStatus d) (isDisconnectCalled d) (isConnectionLost d) (isDestroyCalled d)
  (isRecoverableError d) (mqtt_connect_time d) (connectFailCount d) (connectTick d) (retryLogic d)
  (links d) (pub_infos d) (sub_infos d) (needPublishPersistMsg d) (persistHandle d) (clock d) (creations
  d) (application d).
Definition set_xioTransport v d := mkHub (options d) (connType d) (mqttClient d) v (packetId d)
  (mqttClientStatus d) (isDisconnectCalled d) (isConnectionLost d) (isDestroyCalled d)
  (isRecoverableError d) (mqtt_connect_time d) (connectFailCount d) (connectTick d) (retryLogic d)
  (links d) (pub_infos d) (sub_infos d) (needPublishPersistMsg d) (persistHandle d) (clock d) (creations
  d) (application d).
Definition set_packetId v d := mkHub (options d) (connType d) (mqttClient d) (xioTransport d) v
  (mqttClientStatus d) (isDisconnectCalled d) (isConnectionLost d) (isDestroyCalled d)
  (isRecoverableError d) (mqtt_connect_time d) (connectFailCount d) (connectTick d) (retryLogic d)
  (links d) (pub_infos d) (sub_infos d) (needPublishPersistMsg d) (persistHandle d) (clock d) (creations
  d) (application d).
Definition set_mqttClientStatus v d := mkHub (options d) (connType d) (mqttClient d) (xioTransport d)
  (packetId d) v (isDisconnectCalled d) (isConnectionLost d) (isDestroyCalled d) (isRecoverableError d)
  (mqtt_connect_time d) (connectFailCount d) (connectTick d) (retryLogic d) (links d) (pub_infos d)
  (sub_infos d) (needPublishPersistMsg d) (persistHandle d) (clock d) (creations d) (application d).
Definition set_isDisconnectCalled v d := mkHub (options d) (connType d) (mqttClient d) (xioTransport d)
  (packetId d) (mqttClientStatus d) v (isConnectionLost d) (isDestroyCalled d) (isRecoverableError d)
  (mqtt_connect_time d) (connectFailCount d) (connectTick d) (retryLogic d) (links d) (pub_infos d)
  (sub_infos d) (needPublishPersistMsg d) (persistHandle d) (clock d) (creations d) (application d).
Definition set_isConnectionLost v d := mkHub (options d) (connType d) (mqttClient d) (xioTransport d)
  (packetId d) (mqttClientStatus d) (isDisconnectCalled d) v (isDestroyCalled d) (isRecoverableError d)
  (mqtt_connect_time d) (connectFailCount d) (connectTick d) (retryLogic d) (links d) (pub_infos d)
  (sub_infos d) (needPublishPersistMsg d) (persistHandle d) (clock d) (creations d) (application d).
Definition set_isDestroyCalled v d := mkHub (options d) (connType d) (mqttClient d) (xioTransport d)
  (packetId d) (mqttClientStatus d) (isDisconnectCalled d) (isConnectionLost d) v (isRecoverableError d)
  (mqtt_connect_time d) (connectFailCount d) (connectTick d) (retryLogic d) (links d) (pub_infos d)
  (sub_infos d) (needPublishPersistMsg d) (persistHandle d) (clock d) (creations d) (application d).
Definition set_isRecoverableError v d := mkHub (options d) (connType d) (mqttClient d) (xioTransport d)
  (packetId d) (mqttClientStatus d) (isDisconnectCalled d) (isConnectionLost d) (isDestroyCalled d) v
  (mqtt_connect_time d) (connectFailCount d) (connectTick d) (retryLogic d) (links d) (pub_infos d)
  (sub_infos d) (needPublishPersistMsg d) (persistHandle d) (clock d) (creations d) (application d).
Definition set_connectFailCount v d := mkHub (options d) (connType d) (mqttClient d) (xioTransport d)
  (packetId d) (mqttClientStatus d) (isDisconnectCalled d) (isConnectionLost d) (isDestroyCalled d)
  (isRecoverableError d) (mqtt_connect_time d) v (connectTick d) (retryLogic d) (links d) (pub_infos d)
  (sub_infos d) (needPublishPersistMsg d) (persistHandle d) (clock d) (creations d) (application d).
Definition set_retryLogic v d := mkHub (options d) (connType d) (mqttClient d) (xioTransport d)
  (packetId d) (mqttClientStatus d) (isDisconnectCalled d) (isConnectionLost d) (isDestroyCalled d)
  (isRecoverableError d) (mqtt_connect_time d) (connectFailCount d) (connectTick d) v (links d)
  (pub_infos d) (sub_infos d) (needPublishPersistMsg d) (persistHandle d) (clock d) (creations d)
  (application d).
Definition set_needPublishPersistMsg v d := mkHub (options d) (connType d) (mqttClient d) (xioTransport
  d) (packetId d) (mqttClientStatus d) (isDisconnectCalled d) (isConnectionLost d) (isDestroyCalled d)
  (isRecoverableError d) (mqtt_connect_time d) (connectFailCount d) (connectTick d) (retryLogic d)
  (links d) (pub_infos d) (sub_infos d) v (persistHandle d) (clock d) (creations d) (application d).
Definition set_persistHandle v d := mkHub (options d) (connType d) (mqttClient d) (xioTransport d)
  (packetId d) (mqttClientStatus d) (isDisconnectCalled d) (isConnectionLost d) (isDestroyCalled d)
  (isRecoverableError d) (mqtt_connect_time d) (connectFailCount d) (connectTick d) (retryLogic d)
  (links d) (pub_infos d) (sub_infos d) (needPublishPersistMsg d) v (clock d) (creations d) (application
  d).
Definition set_clock v d := mkHub (options d) (connType d) (mqttClient d) (xioTransport d) (packetId d)
  (mqttClientStatus d) (isDisconnectCalled d) (isConnectionLost d) (isDestroyCalled d)
  (isRecoverableError d) (mqtt_connect_time d) (connectFailCount d) (connectTick d) (retryLogic d)
  (links d) (pub_infos d) (sub_infos d) (needPublishPersistMsg d) (persistHandle d) v (creations d)
  (application d).
Definition set_application v d := mkHub (options d) (connType d) (mqttClient d) (xioTransport d)
  (packetId d) (mqttClientStatus d) (isDisconnectCalled d) (isConnectionLost d) (isDestroyCalled d)
  (isRecoverableError d) (mqtt_connect_time d) (connectFailCount d) (connectTick d) (retryLogic d)
  (links d) (pub_infos d) (sub_infos d) (needPublishPersistMsg d) (persistHandle d) (clock d) (creations
  d) v.
Definition set_mqtt_connect_time v d := mkHub (options d) (connType d) (mqttClient d) (xioTransport d)
  (packetId d) (mqttClientStatus d) (isDisconnectCalled d) (isConnectionLost d) (isDestroyCalled d)
  (isRecoverableError d) v (connectFailCount d) (connectTick d) (retryLogic d) (links d) (pub_infos d)
  (sub_infos d) (needPublishPersistMsg d) (persistHandle d) (clock d) (creations d) (application d).
Definition set_connectTick v d := mkHub (options d) (connType d) (mqttClient d) (xioTransport d)
  (packetId d) (mqttClientStatus d) (isDisconnectCalled d) (isConnectionLost d) (isDestroyCalled d)
  (isRecoverableError d) (mqtt_connect_time d) (connectFailCount d) v (retryLogic d) (links d)
  (pub_infos d) (sub_infos d) (needPublishPersistMsg d) (persistHandle d) (clock d) (creations d)
  (application d).
Definition set_creations v d := mkHub (options d) (connType d) (mqttClient d) (xioTransport d) (packetId
  d) (mqttClientStatus d) (isDisconnectCalled d) (isConnectionLost d) (isDestroyCalled d)
  (isRecoverableError d) (mqtt_connect_time d) (connectFailCount d) (connectTick d) (retryLogic d)
  (links d) (pub_infos d) (sub_infos d) (needPublishPersistMsg d) (persistHandle d) (clock d) v
  (application d).
Definition set_queues l p s d := mkHub (options d) (connType d) (mqttClient d) (xioTransport d)
  (packetId d) (mqttClientStatus d) (isDisconnectCalled d) (isConnectionLost d) (isDestroyCalled d)
  (isRecoverableError d) (mqtt_connect_time d) (connectFailCount d) (connectTick d) (retryLogic d) l p s
  (needPublishPersistMsg d) (persistHandle d) (clock d) (creations d) (application d).

#[warnings="-notation-for-abbreviation"] Notation Hub := IOTHUB_MQTT_CLIENT.
#[warnings="-notation-for-abbreviation"] Notation Client := (ST (@Peer Hub * Heap)).
#[warnings="-notation-for-abbreviation"]
Notation Whole := (ST (MQTTCODEC_INSTANCE (@Peer Hub) * Heap)).

Variable persistInterDesc : option (PERSIST_INTERFACE_DESCRIPTION P).
(** Calls of the application's callbacks. *)
Variable pubCallback : Pub → MQTT_PUB_STATUS_TYPE → Client unit.
Variable subCallback : Sub → option (list Z) → Client unit.
Variable recvCallback : MQTT_MESSAGE → Client unit.

(** ** Access to the state *)

Definition hub : Client Hub := λ s, Some (user s.1, s).
Definition modify_hub (f : Hub → Hub) : Client unit := λ '(p, h),
  Some (tt, (mkPeer (client p) (env p) (wire p) (f (user p)), h)).

Definition timed {X} (d : Timed X) : Client X :=
  iotHubClient ← hub;
  '(x, k) ← lift (d (clock iotHubClient));
  modify_hub (set_clock k);;
  mret x.

(** Reading and changing the links of the queues. *)
Definition read_links {X} (f : entries → option X) : Client X :=
  d ← hub; lift (f (links d)).
Definition change_links (f : entries → option entries) : Client unit :=
  d ← hub;
  l ← lift (f (links d));
  modify_hub (set_queues l (pub_infos d) (sub_infos d)).

(** A new structure, with its entry, at an address that is not in use. *)
Definition new_pub (info : MQTT_PUB_CALLBACK_INFO) : Client (option positive) :=
  ok ← alloc malloc_struct;
  if (ok : bool) then
    d ← hub;
    let p := fresh (dom (links d)) in
    modify_hub (set_queues (<[p := mkEntry None None]> (links d)) (<[p := info]> (pub_infos d)) (sub_infos d));;
    mret (Some p)
  else mret None.
Definition new_sub (info : MQTT_SUB_CALLBACK_INFO) : Client (option positive) :=
  ok ← alloc malloc_struct;
  if (ok : bool) then
    d ← hub;
    let p := fresh (dom (links d)) in
    modify_hub (set_queues (<[p := mkEntry None None]> (links d)) (pub_infos d) (<[p := info]> (sub_infos d)));;
    mret (Some p)
  else mret None.
Definition free_entry (p : positive) : Client unit :=
  d ← hub;
  modify_hub (set_queues (delete p (links d)) (delete p (pub_infos d)) (delete p (sub_infos d)));;
  alloc free_struct.

Definition remove_entry (p : positive) : Client unit :=
  change_links (λ l, fst <$> DList_RemoveEntryList l (Some p)).
Definition append_entry (queue p : positive) : Client unit :=
  change_links (λ l, DList_InsertTailList l (Some queue) (Some p)).

(** One more than the number of entries bounds the walks along a queue. *)
Definition walk_fuel (d : Hub) : nat := S (base.size (links d)).

(** A call of the MQTT client, if there is one. *)
Definition with_client {X} (default : X) (d : Client X) : Client X :=
  iotHubClient ← hub;
  if mqttClient iotHubClient then d else mret default.

Definition xio_create : Client bool :=
  d ← hub;
  modify_hub (set_creations (tl (creations d)));;
  mret (hd true (creations d)).

(** The MQTT client may still point to the transport. *)
Definition set_alive (v : bool) : Client unit := λ '(p, h),
  let e := env p in
  Some (tt, (mkPeer (client p) (mkEnv (ticks e) (sendings e) (openings e) (closings e) v) (wire p) (user p), h)).

Definition xio_destroy : Client unit :=
  d ← hub;
  if xioTransport d then set_alive false else mret tt.

(** ** Acknowledgements *)

Definition GetNextPacketId : Client Z :=
  transport_data ← hub;
  let next := if USHRT_MAX <=? packetId transport_data + 1 then 1 else packetId transport_data + 1 in
  modify_hub (set_packetId next);;
  mret next.

Definition persist_message (m : MQTT_MESSAGE_HANDLE) : Client unit :=
  match persistInterDesc with
  | None => mret tt
  | Some itf =>
      payload ← lift (mqttmessage_getApplicationMsg m);
      topicName ← lift (mqttmessage_getTopicName m);
      d ← hub;
      let '(_, handle) := concrete_add_message itf (persistHandle d) (mqttmessage_getPacketId m) topicName
                            (mqttmessage_getQosType m) (take (payload_length payload) <$> message payload) in
      modify_hub (set_persistHandle handle)
  end.

(** The structure is freed before its entry is taken out of the queue. *)
Fixpoint notify_subs (n : nat) (currentListEntry : PDLIST_ENTRY) : Client unit :=
  if decide (currentListEntry = Some sub_ack_waiting_queue) then mret tt
  else
    match n with
    | O => lift None
    | S n =>
        p ← lift currentListEntry;
        d ← hub;
        subAckHandleEntry ← lift (sub_infos d !! p);
        saved ← read_links (λ l, get_Flink l currentListEntry);
        subCallback (sub_callback subAckHandleEntry) None;;
        free_entry p;;
        remove_entry p;;
        notify_subs n saved
    end.

Definition NotifySubscribeAckFailure : Client unit :=
  d ← hub;
  first ← read_links (λ l, get_Flink l (Some sub_ack_waiting_queue));
  notify_subs (walk_fuel d) first.

Fixpoint notify_pubs (n : nat) (currentListEntry : PDLIST_ENTRY) : Client unit :=
  if decide (currentListEntry = Some pub_ack_waiting_queue) then mret tt
  else
    match n with
    | O => lift None
    | S n =>
        p ← lift currentListEntry;
        d ← hub;
        mqttMsgEntry ← lift (pub_infos d !! p);
        saved ← read_links (λ l, get_Flink l currentListEntry);
        remove_entry p;;
        pubCallback (pub_callback mqttMsgEntry) MQTT_PUB_FAILED;;
        persist_message (msgHandle mqttMsgEntry);;
        alloc (mqttmessage_destroy (msgHandle mqttMsgEntry));;
        free_entry p;;
        notify_pubs n saved
    end.

Definition NotifyPublishAckFailure : Client unit :=
  d ← hub;
  first ← read_links (λ l, get_Flink l (Some pub_ack_waiting_queue));
  notify_pubs (walk_fuel d) first.

Definition OnMqttErrorComplete (error : MQTT_CLIENT_EVENT_ERROR) : Client unit :=
  modify_hub (set_mqttClientStatus MQTT_CLIENT_STATUS_NOT_CONNECTED);;
  modify_hub (set_isConnectionLost true);;
  NotifySubscribeAckFailure;;
  NotifyPublishAckFailure.

(** The pending subscription or publication with an identifier. *)
Fixpoint find_sub (n : nat) (packetId : Z) (currentListEntry : PDLIST_ENTRY)
    : Client (option (positive * MQTT_SUB_CALLBACK_INFO)) :=
  if decide (currentListEntry = Some sub_ack_waiting_queue) then mret None
  else
    match n with
    | O => lift None
    | S n =>
        p ← lift currentListEntry;
        d ← hub;
        subHandleEntry ← lift (sub_infos d !! p);
        saved ← read_links (λ l, get_Flink l currentListEntry);
        if packetId =? sub_packetId subHandleEntry then mret (Some (p, subHandleEntry))
        else find_sub n packetId saved
    end.

Fixpoint find_pub (n : nat) (packetId : Z) (currentListEntry : PDLIST_ENTRY)
    : Client (option (positive * MQTT_PUB_CALLBACK_INFO)) :=
  if decide (currentListEntry = Some pub_ack_waiting_queue) then mret None
  else
    match n with
    | O => lift None
    | S n =>
        p ← lift currentListEntry;
        d ← hub;
        mqttMsgEntry ← lift (pub_infos d !! p);
        saved ← read_links (λ l, get_Flink l currentListEntry);
        if packetId =? pub_packetId mqttMsgEntry then mret (Some (p, mqttMsgEntry))
        else find_pub n packetId saved
    end.

Definition on_suback (packetId : Z) (qosReturn : list Z) : Client unit :=
  d ← hub;
  first ← read_links (λ l, get_Flink l (Some sub_ack_waiting_queue));
  found ← find_sub (walk_fuel d) packetId first;
  match found with
  | None => mret tt
  | Some (p, subHandleEntry) =>
      remove_entry p;;
      subCallback (sub_callback subHandleEntry) (Some qosReturn);;
      free_entry p
  end.

Definition on_puback (packetId : Z) : Client unit :=
  d ← hub;
  first ← read_links (λ l, get_Flink l (Some pub_ack_waiting_queue));
  found ← find_pub (walk_fuel d) packetId first;
  match found with
  | None => mret tt
  | Some (p, mqttMsgEntry) =>
      remove_entry p;;
      pubCallback (pub_callback mqttMsgEntry) MQTT_PUB_SUCCESS;;
      alloc (mqttmessage_destroy (msgHandle mqttMsgEntry));;
      free_entry p
  end.

(** [disconnect]: [mqtt_client_disconnect] of the client. *)
Definition on_connack (disconnect : Client status) (returnCode : Z) : Client unit :=
  if returnCode =? CONNECTION_ACCEPTED then
    modify_hub (set_isRecoverableError true);;
    modify_hub (set_isConnectionLost false);;
    modify_hub (set_needPublishPersistMsg true);;
    modify_hub (set_mqttClientStatus MQTT_CLIENT_STATUS_CONNECTED);;
    modify_hub (λ d, set_retryLogic (StopRetryTimer <$> retryLogic d) d)
  else
    modify_hub (set_isConnectionLost true);;
    (if (returnCode =? CONN_REFUSED_BAD_USERNAME_PASSWORD) || (returnCode =? CONN_REFUSED_NOT_AUTHORIZED)
        || (returnCode =? CONN_REFUSED_UNACCEPTABLE_VERSION)
     then modify_hub (set_isRecoverableError false) else mret tt);;
    disconnect;;
    modify_hub (set_mqttClientStatus MQTT_CLIENT_STATUS_NOT_CONNECTED).

(** The MQTT client calls back while it is called: [depth] bounds the nesting, and
    a call that the client makes while it disconnects ends at depth 0. *)
Fixpoint OnMqttOperationComplete (depth : nat) (actionResult : MQTT_CLIENT_EVENT_RESULT)
    (msgInfo : option MsgInfo) : Client unit :=
  let disconnect :=
    match depth with
    | O => lift None
    | S depth =>
        with_client FAILURE
          (mqtt_client_disconnect (Some (OnMqttOperationComplete depth)) (Some OnMqttErrorComplete) (mret tt) false)
    end in
  match actionResult, msgInfo with
  | MQTT_CLIENT_ON_CONNACK, Some (CONNECT_ACK _ returnCode) => on_connack disconnect returnCode
  | MQTT_CLIENT_ON_SUBSCRIBE_ACK, Some (SUBSCRIBE_ACK packetId qosReturn) => on_suback packetId qosReturn
  | MQTT_CLIENT_ON_PUBLISH_ACK, Some (PUBLISH_ACK packetId) => on_puback packetId
  | MQTT_CLIENT_ON_PUBLISH_COMP, _ => disconnect;; mret tt
  | MQTT_CLIENT_ON_DISCONNECT, _ =>
      modify_hub (set_mqttClientStatus MQTT_CLIENT_STATUS_NOT_CONNECTED);;
      modify_hub (set_isDisconnectCalled true)
  | _, _ => mret tt
  end.

(** The callbacks given to [mqtt_client_init]. *)
Definition operation_callback := Some (OnMqttOperationComplete 2).
Definition error_callback := Some OnMqttErrorComplete.
Definition receive_callback := Some recvCallback.
Definition no_disconnect_callback : Client unit := mret tt.

Definition disconnect_client : Client status :=
  with_client FAILURE (mqtt_client_disconnect operation_callback error_callback no_disconnect_callback false).

(** ** Publishing and subscribing *)

(** A callback of the application that need not be there. *)
Definition notify_pub (callback : option Pub) (s : MQTT_PUB_STATUS_TYPE) : Client unit :=
  match callback with None => mret tt | Some c => pubCallback c s end.

(** Publishing to the persistent storage, while there is no connection. *)
Definition store_message (packet_id : Z) (topicName : option (list Z)) (qosValue : Z)
    (appMsg : option (list Z)) (appMsgLength : nat) : Client status :=
  d ← hub;
  if (qosValue =? DELIVER_AT_LEAST_ONCE)
     && bool_decide (mqttClientStatus d = MQTT_CLIENT_STATUS_NOT_CONNECTED) then
    match persistInterDesc with
    | None => mret OK
    | Some itf =>
        topic ← lift topicName;
        let '(r, handle) := concrete_add_message itf (persistHandle d) packet_id topic qosValue
                              (take appMsgLength <$> appMsg) in
        modify_hub (set_persistHandle handle);;
        mret r
    end
  else mret OK.

(** The message is handed to the MQTT client; [pubCallbackHandle] waits for its
    acknowledgement. *)
Definition publish_created (mqtt_get_msg : MQTT_MESSAGE_HANDLE) (qosValue : Z) (callback : option Pub)
    (pubCallbackHandle : option positive) : Client status :=
  r ← with_client FAILURE
        (mqtt_client_publish operation_callback error_callback no_disconnect_callback mqtt_get_msg);
  match r with
  | FAILURE =>
      (match pubCallbackHandle with
       | None => mret tt
       | Some p => remove_entry p;; free_entry p
       end);;
      notify_pub callback MQTT_PUB_FAILED;;
      alloc (mqttmessage_destroy mqtt_get_msg);;
      mret FAILURE
  | OK =>
      (if qosValue =? DELIVER_AT_MOST_ONCE then notify_pub callback MQTT_PUB_SUCCESS else mret tt);;
      (if negb (bool_decide (is_Some pubCallbackHandle)) || (qosValue =? DELIVER_AT_MOST_ONCE)
       then alloc (mqttmessage_destroy mqtt_get_msg) else mret tt);;
      mret OK
  end.

Definition publish_mqtt_message (topicName : option (list Z)) (qosValue : Z) (appMsg : option (list Z))
    (appMsgLength : nat) (callback : option Pub) : Client status :=
  if qosValue =? DELIVER_EXACTLY_ONCE then mret FAILURE
  else
    packet_id ← GetNextPacketId;
    stored ← store_message packet_id topicName qosValue appMsg appMsgLength;
    match stored with
    | FAILURE => mret FAILURE
    | OK =>
        mqtt_get_msg ← alloc (mqttmessage_create packet_id topicName qosValue appMsg appMsgLength);
        match mqtt_get_msg with
        | None => mret FAILURE
        | Some _ =>
            match callback with
            | Some c =>
                if qosValue =? DELIVER_AT_LEAST_ONCE then
                  pubCallbackHandle ← new_pub (mkPubInfo packet_id c mqtt_get_msg);
                  match pubCallbackHandle with
                  | None => alloc (mqttmessage_destroy mqtt_get_msg);; mret FAILURE
                  | Some p =>
                      append_entry pub_ack_waiting_queue p;;
                      publish_created mqtt_get_msg qosValue callback (Some p)
                  end
                else publish_created mqtt_get_msg qosValue callback None
            | None => publish_created mqtt_get_msg qosValue callback None
            end
        end
    end.

Definition subscribe_mqtt_topics (subPayloads : option (list SUBSCRIBE_PAYLOAD)) (subSize : nat)
    (callback : option Sub) : Client status :=
  match subPayloads with
  | None => mret FAILURE
  | Some payloads =>
      if (subSize =? 0)%nat then mret FAILURE
      else
        if existsb (λ s, qosReturn s =? DELIVER_EXACTLY_ONCE) (take subSize payloads) then mret FAILURE
        else
          lift (if (subSize <=? length payloads)%nat then Some tt else None);;
          packet_id ← GetNextPacketId;
          queued ← (match callback with
                    | None => mret OK
                    | Some c =>
                        subCallbackHandle ← new_sub (mkSubInfo packet_id c);
                        match subCallbackHandle with
                        | None => mret FAILURE
                        | Some p => append_entry sub_ack_waiting_queue p;; mret OK
                        end
                    end);
          match queued with
          | FAILURE => mret FAILURE
          | OK =>
              with_client FAILURE
                (mqtt_client_subscribe operation_callback error_callback no_disconnect_callback
                   packet_id subPayloads subSize)
          end
  end.

Definition unsubscribe_mqtt_topics (unsubscribeList : option (list (option (list Z)))) (count : nat)
    : Client status :=
  if negb (bool_decide (is_Some unsubscribeList)) || (count =? 0)%nat then mret FAILURE
  else
    packet_id ← GetNextPacketId;
    with_client FAILURE
      (mqtt_client_unsubscribe operation_callback error_callback no_disconnect_callback
         packet_id unsubscribeList count).

(** ** Connecting *)

Definition CreateTcpConnection : Client bool := xio_create.
(** The certificates are options of the new transport; failures are only logged. *)
Definition CreateTlsConnection : Client bool := xio_create.
Definition CreateMutualTlsConnection : Client bool := xio_create.

Definition DisconnectFromClient : Client unit :=
  disconnect_client;;
  xio_destroy;;
  modify_hub (set_xioTransport false);;
  modify_hub (set_mqttClientStatus MQTT_CLIENT_STATUS_NOT_CONNECTED).

Definition SendMqttConnectMessage : Client status :=
  d ← hub;
  (if xioTransport d then mret tt
   else
     xio ← (match connType d with
            | MQTT_CONNECTION_TCP => CreateTcpConnection
            | MQTT_CONNECTION_TLS => CreateTlsConnection
            | MQTT_CONNECTION_MUTUAL_TLS => CreateMutualTlsConnection
            end);
     modify_hub (set_xioTransport xio));;
  d ← hub;
  if xioTransport d then
    r ← with_client FAILURE
          (set_alive true;;
           mqtt_client_connect operation_callback error_callback no_disconnect_callback true (Some (options d)));
    match r with
    | FAILURE => mret FAILURE
    | OK =>
        now ← current_ms;
        match now with
        | None => mret tt
        | Some t => modify_hub (set_mqtt_connect_time t)
        end;;
        mret OK
    end
  else mret FAILURE.

(** A new MQTT client in the place of the old one; everything around it stays. *)
Definition renew_client : Whole unit := λ '(c, h),
  let p := callContext c in
  '(_, h) ← (if mqttClient (user p) then mqtt_client_deinit (Some c) h else Some (tt, h));
  '(fresh, h) ← mqtt_client_init operation_callback receive_callback error_callback no_disconnect_callback
                  (env p) (user p) h;
  match fresh with
  | None => Some (tt, (set_callContext (mkPeer (client p) (env p) (wire p) (set_mqttClient false (user p))) c, h))
  | Some c =>
      Some (tt, (set_callContext (mkPeer (client (callContext c)) (env p) (wire p)
                                    (set_mqttClient true (user p))) c, h))
  end.

Definition count_failure : Client unit :=
  modify_hub (λ d, set_connectFailCount ((connectFailCount d + 1) mod size_mod) d).

Definition try_connect : Whole status :=
  now ← on_client current_ms;
  match now with
  | None => on_client count_failure;; mret FAILURE
  | Some t =>
      on_client (modify_hub (set_connectTick t));;
      d ← on_client hub;
      (if isConnectionLost d && isRecoverableError d then
         on_client xio_destroy;;
         on_client (modify_hub (set_xioTransport false));;
         renew_client
       else mret tt);;
      r ← on_client SendMqttConnectMessage;
      match r with
      | FAILURE => on_client count_failure;; mret FAILURE
      | OK =>
          on_client (modify_hub (set_mqttClientStatus MQTT_CLIENT_STATUS_CONNECTING));;
          on_client (modify_hub (set_connectFailCount 0));;
          mret OK
      end
  end.

Definition initialize_mqtt_connection : Whole status :=
  d ← on_client hub;
  if isDestroyCalled d then mret OK
  else
    may ← (if negb (isDisconnectCalled d)
              && bool_decide (mqttClientStatus d = MQTT_CLIENT_STATUS_NOT_CONNECTED)
           then
             '(may, r) ← on_client (timed (CanRetry (retryLogic d)));
             on_client (modify_hub (set_retryLogic r));;
             mret may
           else mret false);
    if (may : bool) then try_connect
    else
      d ← on_client hub;
      match mqttClientStatus d with
      | MQTT_CLIENT_STATUS_CONNECTING =>
          now ← on_client current_ms;
          match now with
          | None => mret FAILURE
          | Some current_time =>
              if keepAliveInterval (options d) <? seconds current_time (mqtt_connect_time d)
              then on_client DisconnectFromClient;; mret FAILURE
              else mret OK
          end
      | MQTT_CLIENT_STATUS_CONNECTED =>
          now ← on_client current_ms;
          match now with
          | None => on_client count_failure;; mret FAILURE
          | Some _ => mret OK
          end
      | MQTT_CLIENT_STATUS_NOT_CONNECTED => mret OK
      end.

Fixpoint publish_stored (itf : PERSIST_INTERFACE_DESCRIPTION P) (pubMessages : list PUBLISH_DATA)
    : Client unit :=
  match pubMessages with
  | [] => mret tt
  | m :: pubMessages =>
      topic ← lift (cstr (data_topicName m));
      publish_mqtt_message (Some topic) (data_qos m) (Some (data_payload m)) (length (data_payload m)) None;;
      d ← hub;
      let '(_, handle) := concrete_delete_message itf (persistHandle d) (messageId m) in
      modify_hub (set_persistHandle handle);;
      publish_stored itf pubMessages
  end.

Definition publish_persisted : Client unit :=
  d ← hub;
  if needPublishPersistMsg d then
    modify_hub (set_needPublishPersistMsg false);;
    match persistInterDesc with
    | None => mret tt
    | Some itf =>
        d ← hub;
        let '(pubMessages, handle) := concrete_get_messages itf (persistHandle d) in
        modify_hub (set_persistHandle handle);;
        match pubMessages with None => mret tt | Some ms => publish_stored itf ms end
    end
  else mret tt.

(** [events]: what the transport does while the MQTT client gives it time. *)
Definition iothub_mqtt_dowork (events : list IoEvent) : Whole unit :=
  r ← initialize_mqtt_connection;
  match r with
  | FAILURE => mret tt
  | OK =>
      on_client publish_persisted;;
      d ← on_client hub;
      if mqttClient d
      then mqtt_client_dowork operation_callback error_callback no_disconnect_callback events
      else mret tt
  end.

(** One list of events for each iteration; undefined when they run out before the
    loop ends, or when the clock fails (the C code then reads an uninitialised time). *)
Fixpoint doconnect_loop (lastSendTime timeout : Z) (iterations : list (list IoEvent)) : Whole status :=
  match iterations with
  | [] => lift None
  | events :: iterations =>
      iothub_mqtt_dowork events;;
      now ← on_client current_ms;
      currentTime ← lift now;
      d ← on_client hub;
      let connected := bool_decide (mqttClientStatus d = MQTT_CLIENT_STATUS_CONNECTED) in
      let elapsed := seconds currentTime lastSendTime in
      if negb connected && isRecoverableError d && (elapsed <=? timeout)
      then doconnect_loop lastSendTime timeout iterations
      else if timeout <? elapsed then mret FAILURE
      else mret (if connected then OK else FAILURE)
  end.

Definition iothub_mqtt_doconnect (timeout : Z) (iterations : list (list IoEvent)) : Whole status :=
  now ← on_client current_ms;
  lastSendTime ← lift now;
  doconnect_loop lastSendTime timeout iterations.

Definition iothub_mqtt_disconnect : Client status :=
  result ← disconnect_client;
  modify_hub (set_isDisconnectCalled true);;
  mret result.

(** ** Creation and destruction *)

Definition ClearMqttOptions (o : MQTT_CLIENT_OPTIONS) : Alloc unit :=
  free (clientId o);; free (willTopic o);; free (willMessage o);; free (username o);; free (password o);;
  free_struct.

(** [log_trace] is not modelled. *)
Definition InitMqttOptions : MQTT_CLIENT_OPTIONS :=
  {| clientId := None; willTopic := None; willMessage := None; username := None; password := None;
     keepAliveInterval := 10; messageRetain := false; useCleanSession := true;
     qualityOfServiceValue := DELIVER_AT_MOST_ONCE |}.

Definition CloneMqttOptions (o : MQTT_CLIENT_OPTIONS) : Alloc (option MQTT_CLIENT_OPTIONS) :=
  newMqttOptions ← malloc_struct;
  if (newMqttOptions : bool) then
    let new := InitMqttOptions in
    '(r, id) ← clone_string (clientId new) (clientId o);
    '(r, topic) ← clone_next r (willTopic new) (willTopic o);
    '(r, msg) ← clone_next r (willMessage new) (willMessage o);
    '(r, user) ← clone_next r (username new) (username o);
    '(r, pass) ← clone_next r (password new) (password o);
    let from := match r with OK => o | FAILURE => new end in
    let copy := {| clientId := id; willTopic := topic; willMessage := msg; username := user; password := pass;
                   keepAliveInterval := keepAliveInterval from; messageRetain := messageRetain from;
                   useCleanSession := useCleanSession from;
                   qualityOfServiceValue := qualityOfServiceValue from |} in
    match r with
    | OK => mret (Some copy)
    | FAILURE => ClearMqttOptions copy;; mret None
    end
  else mret None.

(** What the outside provides at the start: the environment of the MQTT client, the
    clock, the transports, the storage ([None]: it cannot be opened), the application. *)
Record Setting := mkSetting {
  setting_env : Env; setting_clock : Clock; setting_creations : list bool;
  setting_storage : option P; setting_no_storage : P; setting_app : U }.

(** The empty queues. *)
Definition empty_links : option entries :=
  h ← DList_InitializeListHead
        (<[pub_ack_waiting_queue := mkEntry None None]> (<[sub_ack_waiting_queue := mkEntry None None]> ∅))
        (Some pub_ack_waiting_queue);
  DList_InitializeListHead h (Some sub_ack_waiting_queue).

Definition initialize_mqtt_client_handle (o : MQTT_CLIENT_OPTIONS) (endpoint : list Z)
    (type : MQTT_CONNECTION_TYPE) (retryPolicy : IOTHUB_CLIENT_RETRY_POLICY) (retryTimeoutLimitInSeconds : Z)
    (s : Setting) : Alloc (option (MQTTCODEC_INSTANCE (@Peer Hub))) :=
  iotHubClient ← malloc_struct;
  if (iotHubClient : bool) then
    match clientId o with
    | None => mret None
    | Some _ =>
        msgTickCounter ← malloc_struct;
        if (msgTickCounter : bool) then
          copy ← CloneMqttOptions o;
          match copy with
          | None => free_struct;; free_struct;; mret None
          | Some copy =>
              address ← mallocAndStrcpy_s endpoint;
              match address with
              | None => free_struct;; ClearMqttOptions copy;; free_struct;; mret None
              | Some _ =>
                  l ← lift empty_links;
                  let d := mkHub copy type true false 0 MQTT_CLIENT_STATUS_NOT_CONNECTED false false false true
                             0 0 0 None l ∅ ∅ false (setting_no_storage s) (setting_clock s)
                             (setting_creations s) (setting_app s) in
                  codec ← mqtt_client_init operation_callback receive_callback error_callback
                            no_disconnect_callback (setting_env s) d;
                  match codec with
                  | None => free_struct;; ClearMqttOptions copy;; free address;; free_struct;; mret None
                  | Some c =>
                      retry ← CreateRetryLogic retryPolicy retryTimeoutLimitInSeconds;
                      let with_hub d := set_callContext
                        (mkPeer (client (callContext c)) (env (callContext c)) (wire (callContext c)) d) c in
                      match persistInterDesc, setting_storage s with
                      | Some _, None =>
                          free address;; ClearMqttOptions copy;; mqtt_client_deinit codec;; free_struct;;
                          DestroyRetryLogic retry;; free_struct;; mret None
                      | Some _, Some storage =>
                          mret (Some (with_hub (set_persistHandle storage (set_retryLogic retry d))))
                      | None, _ => mret (Some (with_hub (set_retryLogic retry d)))
                      end
                  end
              end
          end
        else free_struct;; mret None
    end
  else mret None.

(** The MQTT client, or NULL, its own structures and copies; the storage is closed. *)
Definition iothub_mqtt_destroy : Whole unit :=
  on_client (modify_hub (set_isDestroyCalled true));;
  on_client (modify_hub (set_isConnectionLost true));;
  on_client DisconnectFromClient;;
  d ← on_client hub;
  on_client (alloc free_struct);;
  (λ '(c, h), '(_, h) ← mqtt_client_deinit (if mqttClient d then Some c else None) h; Some (tt, (c, h)));;
  on_client (alloc (ClearMqttOptions (options d);; free_struct;; DestroyRetryLogic (retryLogic d);; free_struct)).
End hub.
