(* ===== verification/Sqlite.v ===== *)
(** * Sqlite: the messages of the IoT hub client in a database.

    [src/iothub_client/src/iothub_client_persistence_sqlite.c].  The SQLite library is a
    record of operations on a state [D] (the databases) and on prepared statements [Stmt];
    what its documentation promises of the four statements of the program is the class
    [SqliteLaws] of [SqliteProperties].  A handle is the structure it points to. *)
From S2P Require Import Prelude.
From S2P Require Import Effects.
From S2P Require Import Alloc.
From S2P Require Import CString.
From S2P Require Import MqttMessage.
From S2P Require Import IotHubClient.
From stdpp Require Import strings.
#[local] Open Scope Z_scope.

Module Sqlite.

Definition SQLITE_OK := 0.
Definition SQLITE_ERROR := 1.
Definition SQLITE_ROW := 100.
Definition SQLITE_DONE := 101.

(** A value that is bound to a statement, or a column of its row. *)
Inductive VALUE := INT (n : Z) | TEXT (l : list Z) | BLOB (l : list Z).

(** The functions of the library with their result codes. *)
Record SQLITE (D Stmt : Type) := mkSqlite {
  sqlite3_open_v2 : D → list Z → Z * D;
  sqlite3_exec : D → list Z → Z * D;
  sqlite3_prepare_v2 : D → list Z → Z * Stmt;
  sqlite3_bind : Stmt → Z → VALUE → Stmt;
  sqlite3_step : D → Stmt → Z * (D * Stmt);
  sqlite3_column : Stmt → Z → VALUE;
  sqlite3_finalize : D → Stmt → Z * D;
  sqlite3_close : D → Z * D;
  remove_file : D → list Z → D }.
#[global] Arguments mkSqlite {D Stmt} _ _ _ _ _ _ _ _ _.
#[global] Arguments sqlite3_open_v2 {D Stmt} _ _ _.
#[global] Arguments sqlite3_exec {D Stmt} _ _ _.
#[global] Arguments sqlite3_prepare_v2 {D Stmt} _ _ _.
#[global] Arguments sqlite3_bind {D Stmt} _ _ _ _.
#[global] Arguments sqlite3_step {D Stmt} _ _ _.
#[global] Arguments sqlite3_column {D Stmt} _ _ _.
#[global] Arguments sqlite3_finalize {D Stmt} _ _ _.
#[global] Arguments sqlite3_close {D Stmt} _ _.
#[global] Arguments remove_file {D Stmt} _ _ _.

(** A column as a number, and as bytes. *)
Definition column_int (v : VALUE) : Z := match v with INT n => n | _ => 0 end.
Definition column_bytes (v : VALUE) : list Z := match v with INT _ => [] | TEXT l => l | BLOB l => l end.

(** The names are blocks that hold strings. *)
Record SQLITE_HANDLE_DATA := mkHandle { dbName : list Z; tableName : list Z }.

Section sqlite.
Context {D Stmt : Type} (lib : SQLITE D Stmt).
#[warnings="-notation-for-abbreviation"] Notation Store := (ST (D * Heap)).
Implicit Types (d : D) (handle : SQLITE_HANDLE_DATA).

Definition on_heap {X} (m : Alloc X) : Store X := λ '(d, h), '(x, h) ← m h; Some (x, (d, h)).

(** A call that changes the databases. *)
Definition call {X} (f : D → X * D) : Store X := λ '(d, h), let '(x, d) := f d in Some (x, (d, h)).

(** [snprintf(formatSql, 256, ...)]: a text that is too long is cut, and only noticed
    when it has exactly 256 characters. *)
Definition format_sql (before table after : list Z) : option (list Z) :=
  let text := before ++ table ++ after in
  if (length text =? 256)%nat then None else Some (take 255 text).

(** ** Creation *)

Definition CREATE_BEFORE := str "CREATE TABLE if not exists ".
Definition CREATE_AFTER := str " (ID INT PRIMARY KEY  NOT NULL,TOPIC          VARCHAR(256)    NOT NULL,QOS            INTEGER  NOT NULL,PAYLOAD        BLOB);".

Definition CreateSqliteHandle (name table : list Z) : Store (option SQLITE_HANDLE_DATA) :=
  handleData ← on_heap malloc_struct;
  mret (if (handleData : bool) then Some (mkHandle name table) else None).

Definition SqliteOpenDb handle : Store status :=
  name ← lift (cstr (dbName handle));
  rc ← call (λ d, sqlite3_open_v2 lib d name);
  if negb (rc =? SQLITE_OK) then mret FAILURE
  else
    table ← lift (cstr (tableName handle));
    match format_sql CREATE_BEFORE table CREATE_AFTER with
    | None => mret FAILURE
    | Some formatSql =>
        rc ← call (λ d, sqlite3_exec lib d formatSql);
        mret (if rc =? SQLITE_OK then OK else FAILURE)
    end.

(** [strcpy(block + off, source)] *)
Definition strcpy_at (block : list Z) (off : nat) (source : list Z) : option (list Z) :=
  b ← copy_to (Some block) off (Some (source ++ [0])) (length source + 1); b.

Definition initialize_sqlite_persist_handle (clientId suffix : list Z) : Store (option SQLITE_HANDLE_DATA) :=
  let dbNameLen := (length clientId + 1 + length suffix + 4)%nat in
  block ← on_heap (malloc dbNameLen);
  match block with
  | None => mret None
  | Some block =>
      let offset := length clientId in
      block ← lift (strcpy_at block 0 clientId);
      block ← lift (st8 block offset 95);
      block ← lift (strcpy_at block (offset + 1) suffix);
      name ← lift (strcpy_at block (offset + 1 + length suffix) (str ".db"));
      table ← on_heap (mallocAndStrcpy_s (str "PublishMessage"));
      match table with
      | None => on_heap (free (Some name));; mret None
      | Some table =>
          let table := table ++ [0] in
          handle ← CreateSqliteHandle name table;
          match handle with
          | None => on_heap (free (Some name));; on_heap (free (Some table));; mret None
          | Some handle =>
              r ← SqliteOpenDb handle;
              match r with
              | OK => mret (Some handle)
              | FAILURE =>
                  on_heap (free (Some name));; on_heap (free (Some table));; on_heap free_struct;; mret None
              end
          end
      end
  end.

(** ** Messages *)

(** A statement of the table is prepared; [None] is a failure. *)
Definition prepare handle (before after : list Z) : Store (option Stmt) :=
  table ← lift (cstr (tableName handle));
  match format_sql before table after with
  | None => mret None
  | Some formatSql =>
      '(rc, stmt1) ← call (λ d, (sqlite3_prepare_v2 lib d formatSql, d));
      mret (if rc =? SQLITE_OK then Some stmt1 else None)
  end.

Definition step (stmt1 : Stmt) : Store (Z * Stmt) :=
  call (λ d, let '(rc, (d, stmt1)) := sqlite3_step lib d stmt1 in ((rc, stmt1), d)).

Definition finalize (stmt1 : Stmt) : Store Z := call (λ d, sqlite3_finalize lib d stmt1).

(** A statement without rows is run and destroyed. *)
Definition run_statement (stmt1 : Stmt) : Store status :=
  '(rc, stmt1) ← step stmt1;
  rc' ← finalize stmt1;
  mret (if (rc =? SQLITE_DONE) && (rc' =? SQLITE_OK) then OK else FAILURE).

Definition INSERT_BEFORE := str "INSERT INTO ".
Definition INSERT_AFTER := str " (ID, TOPIC, QOS, PAYLOAD) VALUES (?,?,?,?);".
Definition DELETE_BEFORE := str "DELETE FROM ".
Definition DELETE_AFTER := str " WHERE ID = ?;".
Definition COUNT_BEFORE := str "SELECT COUNT(ID) FROM ".
Definition SELECT_BEFORE := str "SELECT ID, TOPIC, QOS, PAYLOAD FROM ".
Definition SELECT_AFTER := str ";".

(** The topic and the payload with their lengths. *)
Definition sqlite_add_pub_message handle (id : Z) (topic : list Z) (topicLen : nat) (qos : Z) (payload : list Z) (n : nat)
    : Store status :=
  stmt1 ← prepare handle INSERT_BEFORE INSERT_AFTER;
  match stmt1 with
  | None => mret FAILURE
  | Some stmt1 =>
      let stmt1 := sqlite3_bind lib stmt1 1 (INT id) in
      let stmt1 := sqlite3_bind lib stmt1 2 (TEXT (take topicLen topic)) in
      let stmt1 := sqlite3_bind lib stmt1 3 (INT qos) in
      run_statement (sqlite3_bind lib stmt1 4 (BLOB (take n payload)))
  end.

Definition sqlite_delete_pub_message handle (id : Z) : Store status :=
  stmt1 ← prepare handle DELETE_BEFORE DELETE_AFTER;
  match stmt1 with
  | None => mret FAILURE
  | Some stmt1 => run_statement (sqlite3_bind lib stmt1 1 (INT id))
  end.

(** The number of messages; [None] is a failure. *)
Definition getMessageCount handle : Store (option Z) :=
  stmt1 ← prepare handle COUNT_BEFORE SELECT_AFTER;
  match stmt1 with
  | None => mret None
  | Some stmt1 =>
      '(rc, stmt1) ← step stmt1;
      let count := if rc =? SQLITE_ROW then column_int (sqlite3_column lib stmt1 0) else 0 in
      rc' ← finalize stmt1;
      mret (if (rc =? SQLITE_ROW) && (rc' =? SQLITE_OK) then Some count else None)
  end.

(** [malloc(n)], and the bytes copied to it; a NULL pointer is undefined unless there is
    nothing to copy (an empty block stands for NULL then). *)
Definition copy_block (l : list Z) : Store (list Z) :=
  block ← on_heap (malloc (length l));
  match block with None => lift (if (length l =? 0)%nat then Some [] else None) | Some _ => mret l end.

(** The rows are read into an array of [n] more elements: a row too many is written
    behind it.  The last result of [step] comes with the messages. *)
Fixpoint read_rows (n : nat) (stmt1 : Stmt) : Store (Z * Stmt * list PUBLISH_DATA) :=
  '(rc, stmt1) ← step stmt1;
  if rc =? SQLITE_ROW then
    match n with
    | O => lift None
    | S n =>
        topicName ← copy_block (column_bytes (sqlite3_column lib stmt1 1));
        pzBlob ← copy_block (column_bytes (sqlite3_column lib stmt1 3));
        let m := mkPublishData (column_int (sqlite3_column lib stmt1 0)) (column_int (sqlite3_column lib stmt1 2))
                   topicName pzBlob in
        '(rc, stmt1, ms) ← read_rows n stmt1;
        mret (rc, stmt1, m :: ms)
    end
  else mret (rc, stmt1, []).

(** The messages: [None] is a failure; with no message there is no array either. *)
Definition sqlite_get_messages handle : Store (option (list PUBLISH_DATA)) :=
  table ← lift (cstr (tableName handle));
  match format_sql SELECT_BEFORE table SELECT_AFTER with
  | None => mret None
  | Some formatSql =>
      count ← getMessageCount handle;
      match count with
      | None => mret None
      | Some count =>
          if count =? 0 then mret (Some [])
          else
            pPublishMsg ← on_heap malloc_struct;
            '(rc, stmt1) ← call (λ d, (sqlite3_prepare_v2 lib d formatSql, d));
            if negb (rc =? SQLITE_OK) then mret None
            else
              '(rc, stmt1, messages) ← read_rows (if (pPublishMsg : bool) then Z.to_nat count else 0) stmt1;
              rc' ← finalize stmt1;
              mret (if negb (rc =? SQLITE_ERROR) && (rc' =? SQLITE_OK) then Some messages else None)
      end
  end.

Fixpoint release_blocks (messages : list PUBLISH_DATA) : Store unit :=
  match messages with
  | [] => mret tt
  | m :: messages => on_heap (free (Some (data_topicName m)));; on_heap (free (Some (data_payload m)));; release_blocks messages
  end.

Definition release_sqlite_message (messages : list PUBLISH_DATA) : Store unit :=
  release_blocks messages;; on_heap free_struct.

Definition sqlite_destroy_db handle : Store status :=
  rc ← call (sqlite3_close lib);
  name ← lift (cstr (dbName handle));
  call (λ d, (tt, remove_file lib d name));;
  on_heap (free (Some (dbName handle)));;
  on_heap (free (Some (tableName handle)));;
  on_heap free_struct;;
  mret (if rc =? SQLITE_OK then OK else FAILURE).
End sqlite.
End Sqlite.
