(* ===== verification/SqliteProperties.v ===== *)
(** * SqliteProperties: the storage of messages.

    [SqliteLaws] is what the documentation of SQLite promises of the statements that
    [Sqlite] makes; with it the storage of the hub client is a list of messages with
    different identifiers. *)
From S2P Require Import Prelude.
From S2P Require Import Effects.
From S2P Require Import Alloc.
From S2P Require Import CString.
From S2P Require Import MqttMessage.
From S2P Require Import IotHubClient.
From S2P Require Import Sqlite.
From stdpp Require Import strings.
#[local] Open Scope Z_scope.

Import Sqlite.

(** ** The library *)

Record Row := mkRow { row_id : Z; row_topic : list Z; row_qos : Z; row_payload : list Z }.

#[export] Instance row_eq_dec : EqDecision Row.
Proof. solve_decision. Defined.

(** A number of the type [int]. *)
Definition is_int (n : Z) : Prop := -2147483648 <= n < 2147483648.

(** What a row keeps as it is: a text has no zero. *)
Definition valid_row (r : Row) : Prop := is_int (row_id r) ∧ is_int (row_qos r) ∧ cstring (row_topic r).

(** [stored d name l]: the file [name] holds the rows [l], none if there is no file.
    [rows d l]: the open table has the rows [l].  [cursor d s l rest]: the statement [s]
    reads the table, and [rest] are the rows to come.  To open the file can fail; a
    device that fails later is left out. *)
Class SqliteLaws {D Stmt : Type} (lib : SQLITE D Stmt) (table : list Z) (stored : D → list Z → list Row → Prop)
    (rows : D → list Row → Prop) (cursor : D → Stmt → list Row → list Row → Prop) : Prop := {
  open_law d name l : stored d name l → ∃ rc d', sqlite3_open_v2 lib d name = (rc, d') ∧
    (rc = SQLITE_OK → ∃ rc d2, sqlite3_exec lib d' (CREATE_BEFORE ++ table ++ CREATE_AFTER) = (rc, d2) ∧
       (rc = SQLITE_OK → rows d2 l));
  insert_law d l r : rows d l → valid_row r → ∃ s rc d1 s1 rc' d2,
    sqlite3_prepare_v2 lib d (INSERT_BEFORE ++ table ++ INSERT_AFTER) = (SQLITE_OK, s) ∧
    sqlite3_step lib d (sqlite3_bind lib (sqlite3_bind lib (sqlite3_bind lib (sqlite3_bind lib s 1 (INT (row_id r)))
      2 (TEXT (row_topic r))) 3 (INT (row_qos r))) 4 (BLOB (row_payload r))) = (rc, (d1, s1)) ∧
    sqlite3_finalize lib d1 s1 = (rc', d2) ∧
    if decide (row_id r ∈ row_id <$> l) then rc ≠ SQLITE_DONE ∧ rows d2 l
    else rc = SQLITE_DONE ∧ rc' = SQLITE_OK ∧ rows d2 (l ++ [r]);
  delete_law d l id : rows d l → ∃ s d1 s1 d2,
    sqlite3_prepare_v2 lib d (DELETE_BEFORE ++ table ++ DELETE_AFTER) = (SQLITE_OK, s) ∧
    sqlite3_step lib d (sqlite3_bind lib s 1 (INT id)) = (SQLITE_DONE, (d1, s1)) ∧
    sqlite3_finalize lib d1 s1 = (SQLITE_OK, d2) ∧ rows d2 (filter (λ r, row_id r ≠ id) l);
  count_law d l : rows d l → ∃ s d1 s1 d2,
    sqlite3_prepare_v2 lib d (COUNT_BEFORE ++ table ++ SELECT_AFTER) = (SQLITE_OK, s) ∧
    sqlite3_step lib d s = (SQLITE_ROW, (d1, s1)) ∧ sqlite3_column lib s1 0 = INT (Z.of_nat (length l)) ∧
    sqlite3_finalize lib d1 s1 = (SQLITE_OK, d2) ∧ rows d2 l;
  select_law d l : rows d l → ∃ s rest,
    sqlite3_prepare_v2 lib d (SELECT_BEFORE ++ table ++ SELECT_AFTER) = (SQLITE_OK, s) ∧ cursor d s l rest ∧ rest ≡ₚ l;
  row_law d s l r rest : cursor d s l (r :: rest) → ∃ d' s', sqlite3_step lib d s = (SQLITE_ROW, (d', s')) ∧
    sqlite3_column lib s' 0 = INT (row_id r) ∧ sqlite3_column lib s' 1 = TEXT (row_topic r) ∧
    sqlite3_column lib s' 2 = INT (row_qos r) ∧ sqlite3_column lib s' 3 = BLOB (row_payload r) ∧ cursor d' s' l rest;
  end_law d s l : cursor d s l [] → ∃ d1 s1 d2, sqlite3_step lib d s = (SQLITE_DONE, (d1, s1)) ∧
    sqlite3_finalize lib d1 s1 = (SQLITE_OK, d2) ∧ rows d2 l;
  close_law d l : rows d l → ∃ d', sqlite3_close lib d = (SQLITE_OK, d');
  remove_law d name : stored (remove_file lib d name) name [] }.

Definition PublishMessage := str "PublishMessage".

(** ** The storage as a list *)

Inductive request := Add (r : Row) | Delete (id : Z).




(** A row as it is read: the topic has no end. *)
Definition as_data (r : Row) : PUBLISH_DATA := mkPublishData (row_id r) (row_qos r) (row_topic r) (row_payload r).

Section storage.
Context {D Stmt : Type} (lib : SQLITE D Stmt) (stored : D → list Z → list Row → Prop)
  (rows : D → list Row → Prop) (cursor : D → Stmt → list Row → list Row → Prop)
  `{!SqliteLaws lib PublishMessage stored rows cursor}.
#[warnings="-notation-for-abbreviation"] Notation Store := (ST (D * Heap)).
Implicit Types (d : D) (h : Heap).


Definition serve handle (req : request) : Store status :=
  match req with
  | Add r => sqlite_add_pub_message lib handle (row_id r) (row_topic r) (length (row_topic r)) (row_qos r)
               (row_payload r) (length (row_payload r))
  | Delete id => sqlite_delete_pub_message lib handle id
  end.

Fixpoint serve_all handle (reqs : list request) : Store (list status) :=
  match reqs with
  | [] => mret []
  | req :: reqs => r ← serve handle req; rs ← serve_all handle reqs; mret (r :: rs)
  end.

(** The storage is opened, used, read, and destroyed. *)
Definition storage_session (clientId suffix : list Z) (reqs : list request) : Store (option (list status * list PUBLISH_DATA)) :=
  handle ← initialize_sqlite_persist_handle lib clientId suffix;
  match handle with
  | None => mret None
  | Some handle =>
      rs ← serve_all handle reqs;
      messages ← sqlite_get_messages lib handle;
      messages ← lift messages;
      (if bool_decide (messages = []) then mret tt else release_sqlite_message messages);;
      r ← sqlite_destroy_db lib handle;
      mret (match r with OK => Some (rs, messages) | FAILURE => None end)
  end.

(** ** Rules *)























End storage.

(** ** A topic that was stored

    The block of a topic that was read has no end, but the hub client passes it to
    [strlen]: it reads behind the block. *)
Lemma stored_topic_unterminated r : cstring (row_topic r) → cstr (data_topicName (as_data r)) = None.
Proof.
  cbn. generalize (row_topic r) as t. induction t as [|c t IH]; intros Ht; [done|].
  apply Forall_cons in Ht as [Hc Ht]. cbn. rewrite (proj2 (Z.eqb_neq c 0)) by done. by rewrite IH.
Qed.

Lemma stored_message_read_past_end `{Arch} {U P Pub Sub : Type} persist pubCallback subCallback itf r ms s :
  cstring (row_topic r) → publish_stored (U := U) (P := P) (Pub := Pub) (Sub := Sub) persist pubCallback subCallback itf (as_data r :: ms) s = None.
Proof. intros Ht. cbn [publish_stored]. by rewrite stored_topic_unterminated. Qed.

(** ** A library in memory *)

Module Demo.

Record Files := mkFiles { on_disk : list (list Z * list Row); opened : list Z }.

Definition content (name : list Z) (disk : list (list Z * list Row)) : list Row :=
  match list_find (λ f, f.1 = name) disk with Some (_, f) => f.2 | None => [] end.

Inductive Stmt :=
  | Insert (r : Row) | Remove (id : Z) | Count (n : Z) | Select (current : option Row) (rest : list Row).

Definition table (d : Files) : list Row := content (opened d) (on_disk d).
Definition with_table (d : Files) (l : list Row) : Files := mkFiles ((opened d, l) :: on_disk d) (opened d).

Definition prepare_sql (d : Files) (sql : list Z) : Z * Stmt :=
  if decide (sql = INSERT_BEFORE ++ PublishMessage ++ INSERT_AFTER) then (SQLITE_OK, Insert (mkRow 0 [] 0 []))
  else if decide (sql = DELETE_BEFORE ++ PublishMessage ++ DELETE_AFTER) then (SQLITE_OK, Remove 0)
  else if decide (sql = COUNT_BEFORE ++ PublishMessage ++ SELECT_AFTER) then (SQLITE_OK, Count 0)
  else if decide (sql = SELECT_BEFORE ++ PublishMessage ++ SELECT_AFTER) then (SQLITE_OK, Select None (table d))
  else (SQLITE_ERROR, Count 0).

Definition bind (s : Stmt) (column : Z) (v : VALUE) : Stmt :=
  match s with
  | Insert (mkRow id topic qos payload) =>
      Insert (if column =? 1 then mkRow (column_int v) topic qos payload
              else if column =? 2 then mkRow id (column_bytes v) qos payload
              else if column =? 3 then mkRow id topic (column_int v) payload
              else mkRow id topic qos (column_bytes v))
  | Remove _ => Remove (column_int v)
  | s => s
  end.

Definition run (d : Files) (s : Stmt) : Z * (Files * Stmt) :=
  match s with
  | Insert r => if decide (row_id r ∈ row_id <$> table d) then (SQLITE_ERROR, (d, s))
                else (SQLITE_DONE, (with_table d (table d ++ [r]), s))
  | Remove id => (SQLITE_DONE, (with_table d (filter (λ r, row_id r ≠ id) (table d)), s))
  | Count _ => (SQLITE_ROW, (d, Count (Z.of_nat (length (table d)))))
  | Select _ [] => (SQLITE_DONE, (d, Select None []))
  | Select _ (r :: rest) => (SQLITE_ROW, (d, Select (Some r) rest))
  end.

Definition column (s : Stmt) (i : Z) : VALUE :=
  match s with
  | Count n => INT n
  | Select (Some r) _ => if i =? 0 then INT (row_id r) else if i =? 1 then TEXT (row_topic r)
                         else if i =? 2 then INT (row_qos r) else BLOB (row_payload r)
  | _ => INT 0
  end.

Definition lib : SQLITE Files Stmt :=
  mkSqlite (λ d name, (SQLITE_OK, mkFiles (on_disk d) name)) (λ d _, (SQLITE_OK, d)) prepare_sql bind run column
    (λ d _, (SQLITE_OK, d)) (λ d, (SQLITE_OK, d)) (λ d name, mkFiles ((name, []) :: on_disk d) (opened d)).

Definition stored (d : Files) (name : list Z) (l : list Row) : Prop := content name (on_disk d) = l.
Definition rows (d : Files) (l : list Row) : Prop := table d = l.
Definition cursor (d : Files) (s : Stmt) (l rest : list Row) : Prop :=
  rows d l ∧ match s with Select _ rest' => rest' = rest | _ => False end.

Lemma content_first name l disk : content name ((name, l) :: disk) = l.
Proof. unfold content. cbn. by rewrite decide_True. Qed.

#[global] Instance lib_laws : SqliteLaws lib PublishMessage stored rows cursor.
Proof.
  split.
  - intros d name l Hd. do 2 eexists. split; [done|]. intros _. do 2 eexists. split; [done|]. intros _. exact Hd.
  - intros d l r <- _. eexists. unfold lib, sqlite3_step, sqlite3_bind, sqlite3_finalize, run, bind.
    change (prepare_sql d _) with (SQLITE_OK, Insert (mkRow 0 [] 0 [])).
    destruct r as [id topic qos payload]. cbn [Z.eqb column_int column_bytes row_id row_topic row_qos row_payload].
    destruct (decide (id ∈ row_id <$> table d)); do 5 eexists; (split; [reflexivity|]); cbn -[table];
      [rewrite decide_True by done|rewrite decide_False by done]; repeat split; try done.
    apply content_first.
  - intros d l id <-. do 4 eexists. split; [reflexivity|]. split; [reflexivity|]. split; [done|]. apply content_first.
  - intros d l <-. do 4 eexists. split; [reflexivity|]. split; [reflexivity|]. done.
  - intros d l <-. do 2 eexists. split; [reflexivity|]. by split.
  - intros d [r0|id|n|c rest'] l r rest [Hr Hc]; try done. subst rest'. do 2 eexists. split; [reflexivity|]. done.
  - intros d [r0|id|n|c rest'] l [Hr Hc]; try done. subst rest'. do 3 eexists. split; [reflexivity|]. done.
  - intros d l _. by eexists.
  - intros d name. apply content_first.
Qed.
End Demo.

(** The hub stores two messages, one of them twice, and the first one is acknowledged. *)
Definition demo_requests : list request :=
  [Add (mkRow 7 (str "room") 1 [1; 0; 2]); Add (mkRow 7 (str "hall") 1 [3]); Add (mkRow 8 (str "hall") 1 []); Delete 7].



(** The session itself, which succeeds there. *)
Example demo_session :
  option_map fst (storage_session Demo.lib (str "edge") (str "hub") demo_requests (Demo.mkFiles [] [], mkHeap [] 0))
  = Some (Some ([OK; FAILURE; OK; OK], [as_data (mkRow 8 (str "hall") 1 [])])).
Proof. by vm_compute. Qed.
