(* ===== verification/IotHubFrame.v ===== *)
(** * IotHubFrame: what the hub client leaves to the application.

    Whatever the transport delivers, the state of the application is changed by its
    own callbacks and by nothing else: a relation [R] on this state that the
    callbacks keep is kept by every function of the MQTT client and of the hub
    client. *)
From S2P Require Import Prelude.
From stdpp Require Import gmap.
From S2P Require Import Effects.
From S2P Require Import Alloc.
From S2P Require Import Buffer.
From S2P Require Import DoublyLinkedList.
From S2P Require Import MqttCodec.
From S2P Require Import MqttDecoder.
From S2P Require Import MqttMessage.
From S2P Require Import MqttClient.
From S2P Require Import RetryLogic.
From S2P Require Import IotHubClient.
#[local] Open Scope Z_scope.

Create HintDb keeps discriminated.
#[export] Hint Constants Opaque : keeps.
#[export] Hint Resolve keeps_ret keeps_lift : keeps.
#[export] Hint Extern 0 (PreOrder _) => apply _ : keeps.

(** One function after the other, each case on its own. *)
Ltac keep :=
  repeat (cbv beta zeta; match goal with
    | |- ∀ _, _ => intros ?
    | |- True => exact I
    | |- PreOrder _ => apply _
    | |- keeps _ (_ ≫= _) _ => eapply (keeps_then _ _ _ (λ _, True))
    | |- keeps _ (mret _) _ => apply keeps_ret
    | |- keeps _ (lift _) _ => apply keeps_lift
    | |- keeps _ (match ?x with _ => _ end) _ => destruct x
    | |- keeps _ _ _ => solve [eauto with keeps]
    end).

(** *** What is known of results only *)

#[export] Instance always_pre {X} : PreOrder (λ _ _ : X, True).
Proof. by split. Qed.

#[warnings="-notation-for-abbreviation"] Notation gives d Q := (keeps (λ _ _, True) d Q).

Lemma gives_bind {X Y} (d : Alloc X) (f : X → Alloc Y) P Q :
  gives d P → (∀ x, P x → gives (f x) Q) → gives (d ≫= f) Q.
Proof. apply keeps_then, _. Qed.

Lemma gives_any {X Y} (d : Alloc X) (f : X → Alloc Y) Q : (∀ x, gives (f x) Q) → gives (d ≫= f) Q.
Proof. intros Hf. apply (gives_bind _ _ (λ _, True)); [by intros ? ? ? _|auto]. Qed.

Lemma gives_ret {X} (x : X) (Q : X → Prop) : Q x → gives (mret x : Alloc X) Q.
Proof. apply keeps_ret, _. Qed.

(** One step after another, each with a relation of its own. *)
Lemma keeps_seq {S X Y} (R1 R2 R3 : S → S → Prop) (d : ST S X) (f : X → ST S Y) Q :
  keeps R1 d (λ _, True) → (∀ x, keeps R2 (f x) Q) → (∀ s1 s2 s3, R1 s1 s2 → R2 s2 s3 → R3 s1 s3) →
  keeps R3 (d ≫= f) Q.
Proof.
  intros Hd Hf HR s y s'. rewrite st_bind_eq. destruct (d s) as [[x s1]|] eqn:E; [|done]. cbn.
  destruct (Hd _ _ _ E) as [H1 _]. intros E2. destruct (Hf x _ _ _ E2). eauto.
Qed.

Ltac any := apply gives_any; intros ?.

(** ** The MQTT client *)

Section client.
Context `{Arch} {A : Type} (R : A → A → Prop) `{!PreOrder R}.
#[warnings="-notation-for-abbreviation"] Notation Client := (ST (@Peer A * Heap)).

(** The application before and after. *)
Definition by_user (s s' : @Peer A * Heap) : Prop := R (user s.1) (user s'.1).

#[export] Instance by_user_pre : PreOrder by_user.
Proof. split; [intros s; unfold by_user; reflexivity|intros s1 s2 s3 H1 H2; unfold by_user in *; by etrans]. Qed.

#[warnings="-notation-for-abbreviation"] Notation keeps_app d := (keeps by_user d (λ _, True)).

Lemma keeps_alloc {X} (d : Alloc X) : keeps_app (alloc d).
Proof.
  intros [p h] x [p' h']. unfold alloc. destruct (d h) as [[y h1]|]; [|done]. intros [= <- <- <-].
  split; [|done]. unfold by_user. reflexivity.
Qed.

(** A step that leaves the application alone. *)
Ltac still := intros [p h] x [p' h'] E; repeat (case_match; try done); simplify_eq;
  (split; [unfold by_user; reflexivity|done]).

Lemma keeps_get : keeps_app get.
Proof. unfold get. still. Qed.
Lemma keeps_modify f : keeps_app (modify f).
Proof. unfold modify. still. Qed.
Lemma keeps_put_env e : keeps_app (put_env e).
Proof. unfold put_env. still. Qed.
Lemma keeps_log w : keeps_app (log w).
Proof. unfold log. still. Qed.
Lemma keeps_current_ms : keeps_app current_ms.
Proof. unfold current_ms. still. Qed.
Lemma keeps_next_sending : keeps_app next_sending.
Proof. unfold next_sending. still. Qed.
Lemma keeps_next_opening : keeps_app next_opening.
Proof. unfold next_opening. still. Qed.
Lemma keeps_next_closing : keeps_app next_closing.
Proof. unfold next_closing. still. Qed.
Lemma keeps_use_xio : keeps_app use_xio.
Proof. unfold use_xio. still. Qed.
#[local] Hint Resolve keeps_alloc keeps_get keeps_modify keeps_put_env keeps_log keeps_current_ms keeps_next_sending
  keeps_next_opening keeps_next_closing keeps_use_xio : keeps.

Variable op : option (MQTT_CLIENT_EVENT_RESULT → option MsgInfo → Client unit).
Variable recv : option (MQTT_MESSAGE → Client unit).
Variable err : option (MQTT_CLIENT_EVENT_ERROR → Client unit).
Variable disc : Client unit.
Hypothesis Hop : ∀ f, op = Some f → ∀ r m, keeps_app (f r m).
Hypothesis Herr : ∀ f, err = Some f → ∀ e, keeps_app (f e).
Hypothesis Hdisc : keeps_app disc.
#[local] Hint Resolve Hdisc : keeps.

Lemma keeps_call {X} (o : option X) (f : X → Client unit) :
  (∀ g, o = Some g → keeps_app (f g)) → keeps_app (call o f).
Proof. intros Hf. unfold call. destruct o; keep. Qed.

Ltac called H := apply keeps_call; intros ? ?; keep; try (eapply H; eassumption).

Lemma keeps_on_connection_closed : keeps_app (on_connection_closed disc).
Proof. unfold on_connection_closed. keep. Qed.
#[local] Hint Resolve keeps_on_connection_closed : keeps.

Lemma keeps_close_loop n due : keeps_app (close_loop disc n due).
Proof. revert due. induction n as [|n IH]; intros due; cbn [close_loop]; keep. Qed.
#[local] Hint Resolve keeps_close_loop : keeps.

Lemma keeps_close_connection : keeps_app (close_connection disc).
Proof. unfold close_connection. keep. Qed.
#[local] Hint Resolve keeps_close_connection : keeps.

Lemma keeps_set_error_callback e : keeps_app (set_error_callback err disc e).
Proof. unfold set_error_callback. keep. called Herr. Qed.
#[local] Hint Resolve keeps_set_error_callback : keeps.

Lemma keeps_sendComplete r : keeps_app (sendComplete op err disc r).
Proof. unfold sendComplete. keep. called Hop. Qed.
#[local] Hint Resolve keeps_sendComplete : keeps.

Lemma keeps_sendPacketItem data : keeps_app (sendPacketItem op err disc data).
Proof. unfold sendPacketItem. keep. Qed.
#[local] Hint Resolve keeps_sendPacketItem : keeps.

Lemma keeps_send_buffer b : keeps_app (send_buffer op err disc b).
Proof. unfold send_buffer. keep. Qed.
#[local] Hint Resolve keeps_send_buffer : keeps.

Lemma keeps_onOpenComplete ok : keeps_app (onOpenComplete op err disc ok).
Proof. unfold onOpenComplete. keep. called Herr. Qed.
#[local] Hint Resolve keeps_onOpenComplete : keeps.

Lemma keeps_onIoError : keeps_app (onIoError op err disc).
Proof. unfold onIoError. keep. Qed.

Lemma keeps_send_reply d : keeps_app (send_reply op err disc d).
Proof. unfold send_reply. keep. Qed.
#[local] Hint Resolve keeps_onIoError keeps_send_reply : keeps.

Lemma keeps_acknowledge q id : keeps_app (acknowledge op err disc q id).
Proof. unfold acknowledge. keep. Qed.
#[local] Hint Resolve keeps_acknowledge : keeps.

Lemma keeps_recv_connack blk : keeps_app (recv_connack op blk).
Proof. unfold recv_connack. called Hop. Qed.

Hypothesis Hrecv : ∀ f, recv = Some f → ∀ m, keeps_app (f m).

Lemma keeps_recv_publish flags blk : keeps_app (recv_publish op recv err disc flags blk).
Proof. unfold recv_publish. called Hrecv. Qed.

Lemma keeps_recv_ack packet blk : keeps_app (recv_ack op err disc packet blk).
Proof. unfold recv_ack. called Hop. Qed.

Lemma keeps_recv_suback blk : keeps_app (recv_suback op err disc blk).
Proof. unfold recv_suback. called Hop. Qed.

Lemma keeps_recv_unsuback blk : keeps_app (recv_unsuback op blk).
Proof. unfold recv_unsuback. called Hop. Qed.

Lemma keeps_recv_pingresp : keeps_app (recv_pingresp op).
Proof. unfold recv_pingresp. keep. called Hop. Qed.
#[local] Hint Resolve keeps_recv_connack keeps_recv_publish keeps_recv_ack keeps_recv_suback keeps_recv_unsuback
  keeps_recv_pingresp : keeps.

Lemma keeps_recvCompleteCallback packet flags b : keeps_app (recvCompleteCallback op recv err disc packet flags b).
Proof. unfold recvCompleteCallback. keep. Qed.
#[local] Hint Resolve keeps_recvCompleteCallback : keeps.

Lemma keeps_mqtt_keep_alive : keeps_app (keep_alive op err disc).
Proof. unfold keep_alive. keep. Qed.

Lemma keeps_clear_mqtt_options : keeps_app clear_mqtt_options.
Proof. unfold clear_mqtt_options. keep. Qed.
#[local] Hint Resolve keeps_mqtt_keep_alive keeps_clear_mqtt_options : keeps.

Lemma keeps_cloneMqttOptions o : keeps_app (cloneMqttOptions o).
Proof. unfold cloneMqttOptions. keep. Qed.
#[local] Hint Resolve keeps_cloneMqttOptions : keeps.

Lemma keeps_mqtt_client_connect xio o : keeps_app (mqtt_client_connect op err disc xio o).
Proof. unfold mqtt_client_connect. keep. Qed.

Lemma keeps_send_packet d type : keeps_app (send_packet op err disc d type).
Proof. unfold send_packet. keep. Qed.
#[local] Hint Resolve keeps_send_packet : keeps.

Lemma keeps_mqtt_client_publish m : keeps_app (mqtt_client_publish op err disc m).
Proof. unfold mqtt_client_publish. keep. Qed.

Lemma keeps_mqtt_client_subscribe id l n : keeps_app (mqtt_client_subscribe op err disc id l n).
Proof. unfold mqtt_client_subscribe. keep. Qed.

Lemma keeps_mqtt_client_unsubscribe id l n : keeps_app (mqtt_client_unsubscribe op err disc id l n).
Proof. unfold mqtt_client_unsubscribe. keep. Qed.

Lemma keeps_mqtt_client_disconnect cb : keeps_app (mqtt_client_disconnect op err disc cb).
Proof. unfold mqtt_client_disconnect. keep. Qed.
End client.

(** ** The decoder *)

Section decoder.
Context `{Arch} {C : Type} (R : C → C → Prop) `{!PreOrder R}.
#[warnings="-notation-for-abbreviation"] Notation Codec := (MQTTCODEC_INSTANCE C).
Implicit Types c : Codec.

(** The callback keeps the relation on the contexts. *)
Definition trusted c : Prop :=
  ∀ cb, packetComplete c = Some cb → ∀ x packet flags b, keeps (λ _ _, True) (cb x packet flags b) (R x).

Record followed c c' : Prop := {
  followed_callback : packetComplete c' = packetComplete c;
  followed_context : R (callContext c) (callContext c') }.

#[export] Instance followed_pre : PreOrder followed.
Proof.
  split; [intros c; by split|]. intros c1 c2 c3 [E1 H1] [E2 H2]. split; [by rewrite E2|by etrans].
Qed.

Lemma followed_trusted c c' : followed c c' → trusted c → trusted c'.
Proof. intros [E _] Hc. unfold trusted. by rewrite E. Qed.

(** Fields that no callback sees. *)
Ltac same := split; [reflexivity|cbn; reflexivity].

Lemma gives_prepare c x : gives (prepareheaderDataInfo c x) (λ r, followed c r.2).
Proof.
  unfold prepareheaderDataInfo. any. destruct (x <=? 0x7f); [|apply gives_ret; same].
  any. case_match. case_match; [|apply gives_ret; same].
  any. case_match; [|apply gives_ret; same]. any. case_match. apply gives_ret; same.
Qed.

Lemma gives_complete c : trusted c → gives (completePacketData c) (followed c).
Proof.
  intros Hc. unfold completePacketData. apply (gives_bind _ _ (followed c)).
  - unfold trusted in Hc. destruct (packetComplete c) as [cb|] eqn:E; [|apply gives_ret; reflexivity].
    eapply gives_bind; [by apply Hc|]. intros ctx Hr. apply gives_ret. by split.
  - intros c1 [E Hr]. any. apply gives_ret. by split.
Qed.

Lemma gives_receive_byte c x : trusted c → gives (receive_byte c x) (λ r, followed c r.2).
Proof.
  intros Hc. unfold receive_byte. destruct (codecState c).
  - case_match; [case_match; apply gives_ret; same|].
    eapply gives_bind; [apply gives_prepare|]. intros [r c1] Hf.
    assert (∃ r2 c2, (match r with OK => (OK, c1) | FAILURE => (FAILURE, set_currPacket PACKET_TYPE_ERROR c1) end) = (r2, c2) ∧
      followed c c2) as (r2 & c2 & -> & Hf2).
    { destruct r; eexists _, _; (split; [reflexivity|]); [exact Hf|]. destruct Hf. by split. }
    case_match; [|by apply gives_ret]. eapply gives_bind.
    + apply gives_complete. by eapply followed_trusted.
    + intros c3 Hc3. apply gives_ret. cbn. by etrans.
  - case_match; [|apply gives_ret; same]. case_match; [|apply gives_ret; same]. any.
    cbv zeta. case_match; [|apply gives_ret; same]. eapply gives_bind; [by apply gives_complete|].
    intros c3 [E Hr]. apply gives_ret. by split.
  - apply gives_ret; same.
Qed.

Lemma gives_receive_loop n i c buf : trusted c → gives (receive_loop n i c buf) (λ r, followed c r.2).
Proof.
  revert i c. induction n as [|n IH]; intros i c Hc; cbn [receive_loop]; [apply gives_ret; reflexivity|].
  any. eapply gives_bind; [by apply gives_receive_byte|]. intros [r c1] Hf.
  destruct r; [|by apply gives_ret].
  eapply keeps_weaken; [apply IH; by eapply followed_trusted|]. intros [r2 c2] H2. cbn in *. by etrans.
Qed.

Lemma gives_bytesReceived c buf n :
  trusted c → gives (mqtt_codec_bytesReceived (Some c) (Some buf) n) (λ r, ∃ c', r.2 = Some c' ∧ followed c c').
Proof.
  intros Hc. unfold mqtt_codec_bytesReceived. case_match.
  - apply gives_ret. eexists. split; [done|same].
  - eapply gives_bind; [by apply gives_receive_loop|]. intros [r c1] Hf. apply gives_ret. by eexists.
Qed.
End decoder.

(** ** The whole client *)

Section whole.
Context `{Arch} {A : Type} (R : A → A → Prop) `{!PreOrder R}.
#[warnings="-notation-for-abbreviation"] Notation Client := (ST (@Peer A * Heap)).
#[warnings="-notation-for-abbreviation"] Notation Codec := (MQTTCODEC_INSTANCE (@Peer A)).

Definition by_peer (p p' : @Peer A) : Prop := R (user p) (user p').

#[export] Instance by_peer_pre : PreOrder by_peer.
Proof. split; [intros p; unfold by_peer; reflexivity|intros p1 p2 p3 H1 H2; unfold by_peer in *; by etrans]. Qed.

(** The callback of the decoder is trusted before and after. *)
Definition by_codec (s s' : Codec * Heap) : Prop :=
  trusted by_peer s.1 → by_peer (callContext s.1) (callContext s'.1) ∧ trusted by_peer s'.1.

#[export] Instance by_codec_pre : PreOrder by_codec.
Proof.
  split; [intros s Hs; split; [reflexivity|done]|]. intros s1 s2 s3 H1 H2 Hs.
  destruct (H1 Hs) as [E1 Ht1], (H2 Ht1) as [E2 Ht2]. split; [by etrans|done].
Qed.

Lemma keeps_on_client {X} (d : Client X) :
  keeps (by_user R) d (λ _, True) → keeps by_codec (on_client d) (λ _, True).
Proof.
  intros Hd [c h] x [c' h']. unfold on_client. destruct (d _) as [[y [p h1]]|] eqn:E; [|done].
  intros [= <- <- <-]. apply Hd in E as [E _]. split; [|done]. intros Hc. by split.
Qed.
#[local] Hint Resolve keeps_on_client : keeps.

(** As long as nothing is decoded it does not matter what the decoder calls. *)
Definition by_context (s s' : Codec * Heap) : Prop := by_peer (callContext s.1) (callContext s'.1).

#[export] Instance by_context_pre : PreOrder by_context.
Proof.
  split; [intros s; unfold by_context; reflexivity|intros s1 s2 s3 H1 H2; unfold by_context in *; by etrans].
Qed.

Lemma keeps_in_context {X} (d : Client X) :
  keeps (by_user R) d (λ _, True) → keeps by_context (on_client d) (λ _, True).
Proof.
  intros Hd [c h] x [c' h']. unfold on_client. destruct (d _) as [[y [p h1]]|] eqn:E; [|done].
  intros [= <- <- <-]. apply Hd in E as [E _]. split; [|done]. exact E.
Qed.

Variable op : option (MQTT_CLIENT_EVENT_RESULT → option MsgInfo → Client unit).
Variable recv : option (MQTT_MESSAGE → Client unit).
Variable err : option (MQTT_CLIENT_EVENT_ERROR → Client unit).
Variable disc : Client unit.
#[warnings="-notation-for-abbreviation"] Notation keeps_app d := (keeps (by_user R) d (λ _, True)).
Hypothesis Hop : ∀ f, op = Some f → ∀ r m, keeps_app (f r m).
Hypothesis Herr : ∀ f, err = Some f → ∀ e, keeps_app (f e).
Hypothesis Hdisc : keeps_app disc.
Hypothesis Hrecv : ∀ f, recv = Some f → ∀ m, keeps_app (f m).
#[local] Hint Resolve keeps_set_error_callback keeps_onOpenComplete keeps_onIoError keeps_sendComplete
  keeps_on_connection_closed keeps_use_xio keeps_mqtt_keep_alive keeps_current_ms : keeps.

Lemma keeps_onBytesReceived data : keeps by_codec (onBytesReceived err disc data) (λ _, True).
Proof.
  intros [c h] x [c' h']. unfold onBytesReceived. destruct (mqtt_codec_bytesReceived _ _ _ _) as [[[r o] h1]|] eqn:E; [|done].
  cbn [fst snd]. intros E2. split; [|done]. intros Hc. cbn [fst snd].
  destruct (gives_bytesReceived by_peer c data (length data) Hc _ _ _ E) as [_ (c1 & Eo & Hf)]. cbn in Eo. subst o.
  rewrite !bind_ret in E2. pose proof (followed_trusted _ _ _ Hf Hc) as Hc1. destruct r.
  - injection E2 as <- <- <-. split; [apply Hf|done].
  - apply (keeps_on_client (set_error_callback err disc MQTT_CLIENT_PARSE_ERROR)) in E2 as [H2 _]; [|eauto with keeps].
    destruct (H2 Hc1) as [H3 Ht]. split; [|done]. etrans; [apply Hf|done].
Qed.
#[local] Hint Resolve keeps_onBytesReceived : keeps.

Lemma keeps_io_event e : keeps by_codec (io_event op err disc e) (λ _, True).
Proof. unfold io_event. keep. Qed.
#[local] Hint Resolve keeps_io_event : keeps.

Lemma keeps_xio_dowork events : keeps by_codec (xio_dowork op err disc events) (λ _, True).
Proof. induction events; cbn [xio_dowork]; keep. Qed.
#[local] Hint Resolve keeps_xio_dowork : keeps.

Lemma keeps_mqtt_client_dowork events : keeps by_codec (mqtt_client_dowork op err disc events) (λ _, True).
Proof. unfold mqtt_client_dowork. keep. Qed.

(** The callback given to a new decoder. *)
Lemma on_packet_keeps p packet flags b : keeps (λ _ _, True) (on_packet op recv err disc p packet flags b) (by_peer p).
Proof.
  intros h p' h'. unfold on_packet. destruct (recvCompleteCallback _ _ _ _ _ _ _ _) as [[[] [p1 h1]]|] eqn:E; [|done].
  intros [= <- <-]. eapply (keeps_recvCompleteCallback R) in E as [E _]; [|done..]. by split.
Qed.

Lemma mqtt_client_init_trusted e a :
  keeps (λ _ _, True) (mqtt_client_init op recv err disc e a)
    (λ o, match o with None => True | Some c => trusted by_peer c ∧ user (callContext c) = a end).
Proof.
  pose proof on_packet_keeps as Hon. unfold mqtt_client_init. case_match; [|by apply gives_ret].
  any. case_match; [|by apply gives_ret].
  any. case_match.
  - apply (gives_bind _ _ (λ o, match o with None => True | Some c => trusted by_peer c ∧ user (callContext c) = a end)).
    + unfold mqtt_codec_create. apply gives_any. intros []; apply gives_ret; [|done]. split; [|done]. intros cb [= <-].
      exact Hon.
    + intros [c|] Hc; [by apply gives_ret|].
      do 2 any. by apply gives_ret.
  - any. by apply gives_ret.
Qed.
End whole.

(** ** The hub client *)

Section hub.
Context `{Arch} {U P Pub Sub : Type} (Ru : U → U → Prop) `{!PreOrder Ru}.
#[warnings="-notation-for-abbreviation"] Notation Hub := (@IOTHUB_MQTT_CLIENT U P Pub Sub).
#[warnings="-notation-for-abbreviation"] Notation Client := (ST (@Peer Hub * Heap)).

Definition by_application (d d' : Hub) : Prop := Ru (application d) (application d').

#[export] Instance by_application_pre : PreOrder by_application.
Proof.
  split; [intros d; unfold by_application; reflexivity|].
  intros d1 d2 d3 H1 H2. unfold by_application in *. by etrans.
Qed.

#[warnings="-notation-for-abbreviation"] Notation keeps_app d := (keeps (by_user by_application) d (λ _, True)).
#[warnings="-notation-for-abbreviation"] Notation keeps_whole d := (keeps (by_codec by_application) d (λ _, True)).

Lemma keeps_hub : keeps_app hub.
Proof. intros s x s' [= <- <-]. split; [reflexivity|done]. Qed.

Lemma keeps_modify_hub f : (∀ d, Ru (application d) (application (f d))) → keeps_app (modify_hub f).
Proof. intros Hf [p h] x s' [= <- <-]. split; [apply Hf|done]. Qed.

#[local] Hint Extern 1 (keeps _ (modify_hub _) _) => apply keeps_modify_hub; intros ?; reflexivity : keeps.
#[local] Hint Resolve keeps_hub keeps_alloc keeps_get keeps_current_ms keeps_on_client : keeps.

Lemma keeps_timed {X} (d : Timed X) : keeps_app (timed d).
Proof. unfold timed. keep. Qed.
Lemma keeps_read_links {X} (f : entries → option X) : keeps_app (read_links f).
Proof. unfold read_links. keep. Qed.
Lemma keeps_change_links f : keeps_app (change_links f).
Proof. unfold change_links. keep. Qed.
Lemma keeps_new_pub i : keeps_app (new_pub i).
Proof. unfold new_pub. keep. Qed.
Lemma keeps_new_sub i : keeps_app (new_sub i).
Proof. unfold new_sub. keep. Qed.
Lemma keeps_free_entry a : keeps_app (free_entry a).
Proof. unfold free_entry. keep. Qed.
#[local] Hint Resolve keeps_timed keeps_read_links keeps_change_links keeps_new_pub keeps_new_sub keeps_free_entry : keeps.
Lemma keeps_remove_entry a : keeps_app (remove_entry a).
Proof. unfold remove_entry. keep. Qed.
Lemma keeps_append_entry q a : keeps_app (append_entry q a).
Proof. unfold append_entry. keep. Qed.
Lemma keeps_with_client {X} (x : X) d : keeps_app d → keeps_app (with_client x d).
Proof. intros Hd. unfold with_client. keep. Qed.
Lemma keeps_xio_create : keeps_app xio_create.
Proof. unfold xio_create. keep. Qed.
Lemma keeps_set_alive v : keeps_app (set_alive v).
Proof. intros [p h] x s' [= <- <-]. split; [unfold by_user; reflexivity|done]. Qed.
#[local] Hint Resolve keeps_remove_entry keeps_append_entry keeps_with_client keeps_xio_create keeps_set_alive : keeps.
Lemma keeps_xio_destroy : keeps_app xio_destroy.
Proof. unfold xio_destroy. keep. Qed.
Lemma keeps_GetNextPacketId : keeps_app GetNextPacketId.
Proof. unfold GetNextPacketId. keep. Qed.
#[local] Hint Resolve keeps_xio_destroy keeps_GetNextPacketId : keeps.

Variable persistInterDesc : option (PERSIST_INTERFACE_DESCRIPTION P).
Variable pubCallback : Pub → MQTT_PUB_STATUS_TYPE → Client unit.
Variable subCallback : Sub → option (list Z) → Client unit.
Variable recvCallback : MQTT_MESSAGE → Client unit.
Hypothesis Hpub : ∀ c s, keeps_app (pubCallback c s).
Hypothesis Hsub : ∀ c q, keeps_app (subCallback c q).
Hypothesis Hrecv : ∀ m, keeps_app (recvCallback m).
#[local] Hint Resolve Hpub Hsub Hrecv : keeps.

Lemma keeps_persist_message m : keeps_app (persist_message persistInterDesc m).
Proof. unfold persist_message. keep. Qed.
#[local] Hint Resolve keeps_persist_message : keeps.

Lemma keeps_notify_subs n e : keeps_app (notify_subs subCallback n e).
Proof. revert e. induction n as [|n IH]; intros e; cbn [notify_subs]; keep. Qed.
Lemma keeps_notify_pubs n e : keeps_app (notify_pubs persistInterDesc pubCallback n e).
Proof. revert e. induction n as [|n IH]; intros e; cbn [notify_pubs]; keep. Qed.
Lemma keeps_find_sub n id e : keeps_app (find_sub n id e).
Proof. revert e. induction n as [|n IH]; intros e; cbn [find_sub]; keep. Qed.
Lemma keeps_find_pub n id e : keeps_app (find_pub n id e).
Proof. revert e. induction n as [|n IH]; intros e; cbn [find_pub]; keep. Qed.
#[local] Hint Resolve keeps_notify_subs keeps_notify_pubs keeps_find_sub keeps_find_pub : keeps.

Lemma keeps_OnMqttErrorComplete e : keeps_app (OnMqttErrorComplete persistInterDesc pubCallback subCallback e).
Proof. unfold OnMqttErrorComplete, NotifySubscribeAckFailure, NotifyPublishAckFailure. keep. Qed.
#[local] Hint Resolve keeps_OnMqttErrorComplete : keeps.

Lemma keeps_on_suback id q : keeps_app (on_suback subCallback id q).
Proof. unfold on_suback. keep. Qed.
Lemma keeps_on_puback id : keeps_app (on_puback pubCallback id).
Proof. unfold on_puback. keep. Qed.
Lemma keeps_on_connack d r : keeps_app d → keeps_app (on_connack d r).
Proof. intros Hd. unfold on_connack. keep. Qed.
#[local] Hint Resolve keeps_on_suback keeps_on_puback keeps_on_connack : keeps.

Lemma some_keeps {X} (g f : X) (Q : X → Prop) : Q g → Some g = Some f → Q f.
Proof. by intros Hg [= <-]. Qed.

Lemma keeps_disconnect op err :
  (∀ r m, keeps_app (op r m)) → (∀ e, keeps_app (err e)) →
  keeps_app (with_client FAILURE (mqtt_client_disconnect (Some op) (Some err) (mret tt) false)).
Proof.
  intros Hop Herr. apply keeps_with_client, keeps_mqtt_client_disconnect; [apply _|by intros f [= <-]..|].
  by apply keeps_ret; [apply _|].
Qed.

Lemma keeps_OnMqttOperationComplete depth r m :
  keeps_app (OnMqttOperationComplete persistInterDesc pubCallback subCallback depth r m).
Proof.
  revert r m. induction depth as [|depth IH]; intros r m; cbn [OnMqttOperationComplete].
  - set (d := lift None). assert (keeps_app d) by (unfold d; keep). clearbody d. keep.
  - set (d := with_client _ _). assert (keeps_app d) by exact (keeps_disconnect _ _ IH keeps_OnMqttErrorComplete). clearbody d. keep.
Qed.

#[warnings="-notation-for-abbreviation"] #[local] Notation op := (operation_callback persistInterDesc pubCallback subCallback).
#[warnings="-notation-for-abbreviation"] #[local] Notation err := (error_callback persistInterDesc pubCallback subCallback).

Lemma op_keeps f : op = Some f → ∀ r m, keeps_app (f r m).
Proof. apply (some_keeps _ f (λ f, ∀ r m, keeps_app (f r m))), keeps_OnMqttOperationComplete. Qed.
Lemma err_keeps f : err = Some f → ∀ e, keeps_app (f e).
Proof. apply (some_keeps _ f (λ f, ∀ e, keeps_app (f e))), keeps_OnMqttErrorComplete. Qed.
Lemma recv_keeps f : receive_callback recvCallback = Some f → ∀ m, keeps_app (f m).
Proof. apply (some_keeps _ f (λ f, ∀ m, keeps_app (f m))), Hrecv. Qed.
Lemma disc_keeps : keeps_app no_disconnect_callback.
Proof. unfold no_disconnect_callback. keep. Qed.
#[local] Hint Resolve op_keeps err_keeps recv_keeps disc_keeps : keeps.

Lemma keeps_disconnect_client : keeps_app (disconnect_client persistInterDesc pubCallback subCallback).
Proof. apply keeps_with_client, keeps_mqtt_client_disconnect; eauto with keeps. Qed.
Lemma keeps_publish_packet m :
  keeps_app (with_client FAILURE (mqtt_client_publish op err no_disconnect_callback m)).
Proof. apply keeps_with_client, keeps_mqtt_client_publish; eauto with keeps. Qed.
Lemma keeps_subscribe_packet id l n :
  keeps_app (with_client FAILURE (mqtt_client_subscribe op err no_disconnect_callback id l n)).
Proof. apply keeps_with_client, keeps_mqtt_client_subscribe; eauto with keeps. Qed.
Lemma keeps_unsubscribe_packet id l n :
  keeps_app (with_client FAILURE (mqtt_client_unsubscribe op err no_disconnect_callback id l n)).
Proof. apply keeps_with_client, keeps_mqtt_client_unsubscribe; eauto with keeps. Qed.
Lemma keeps_connect_packet b o :
  keeps_app (with_client FAILURE (set_alive true;; mqtt_client_connect op err no_disconnect_callback b o)).
Proof. apply keeps_with_client. keep. apply keeps_mqtt_client_connect; eauto with keeps. Qed.
#[local] Hint Resolve keeps_disconnect_client keeps_publish_packet keeps_subscribe_packet keeps_unsubscribe_packet
  keeps_connect_packet : keeps.

Lemma keeps_notify_pub c s : keeps_app (notify_pub pubCallback c s).
Proof. unfold notify_pub. keep. Qed.
Lemma keeps_store_message id t q m n : keeps_app (store_message persistInterDesc id t q m n).
Proof. unfold store_message. keep. Qed.
#[local] Hint Resolve keeps_notify_pub keeps_store_message : keeps.

Lemma keeps_publish_created m q c e :
  keeps_app (publish_created persistInterDesc pubCallback subCallback m q c e).
Proof. unfold publish_created. keep. Qed.
#[local] Hint Resolve keeps_publish_created : keeps.

Lemma keeps_publish_mqtt_message t q m n c :
  keeps_app (publish_mqtt_message persistInterDesc pubCallback subCallback t q m n c).
Proof. unfold publish_mqtt_message. keep. Qed.
Lemma keeps_subscribe_mqtt_topics l n c :
  keeps_app (subscribe_mqtt_topics persistInterDesc pubCallback subCallback l n c).
Proof. unfold subscribe_mqtt_topics. keep. Qed.
Lemma keeps_unsubscribe_mqtt_topics l n :
  keeps_app (unsubscribe_mqtt_topics persistInterDesc pubCallback subCallback l n).
Proof. unfold unsubscribe_mqtt_topics. keep. Qed.
#[local] Hint Resolve keeps_publish_mqtt_message : keeps.

Lemma keeps_DisconnectFromClient : keeps_app (DisconnectFromClient persistInterDesc pubCallback subCallback).
Proof. unfold DisconnectFromClient. keep. Qed.
Lemma keeps_SendMqttConnectMessage : keeps_app (SendMqttConnectMessage persistInterDesc pubCallback subCallback).
Proof. unfold SendMqttConnectMessage, CreateTcpConnection, CreateTlsConnection, CreateMutualTlsConnection. keep. Qed.
Lemma keeps_count_failure : keeps_app count_failure.
Proof. unfold count_failure. keep. Qed.
Lemma keeps_publish_stored itf ms : keeps_app (publish_stored persistInterDesc pubCallback subCallback itf ms).
Proof. induction ms; cbn [publish_stored]; keep. Qed.
#[local] Hint Resolve keeps_DisconnectFromClient keeps_SendMqttConnectMessage keeps_count_failure keeps_publish_stored
  : keeps.

Lemma keeps_publish_persisted : keeps_app (publish_persisted persistInterDesc pubCallback subCallback).
Proof. pose proof keeps_publish_stored. unfold publish_persisted. keep. Qed.

(** The new MQTT client has the old application, and its decoder a trusted callback. *)
Lemma keeps_renew_client : keeps_whole (renew_client persistInterDesc pubCallback subCallback recvCallback).
Proof.
  intros [c h] x [c' h']. unfold renew_client.
  destruct (if mqttClient _ then _ else _) as [[[] h1]|]; [|done]. rewrite bind_ret.
  destruct (mqtt_client_init _ _ _ _ _ _ _) as [[fresh h2]|] eqn:E; [|done]. rewrite bind_ret.
  intros E2. split; [|done]. intros Hc.
  apply (mqtt_client_init_trusted by_application) in E as [_ Hf]; [|eauto with keeps..].
  destruct fresh as [c1|]; injection E2 as <- <- <-.
  - split; [unfold by_peer, by_application; reflexivity|]. exact (proj1 Hf).
  - split; [unfold by_peer, by_application; reflexivity|]. exact Hc.
Qed.
#[local] Hint Resolve keeps_publish_persisted keeps_renew_client : keeps.

Lemma keeps_try_connect : keeps_whole (try_connect persistInterDesc pubCallback subCallback recvCallback).
Proof. unfold try_connect. keep. Qed.
#[local] Hint Resolve keeps_try_connect : keeps.

Lemma keeps_initialize_mqtt_connection :
  keeps_whole (initialize_mqtt_connection persistInterDesc pubCallback subCallback recvCallback).
Proof. unfold initialize_mqtt_connection. keep. Qed.
#[local] Hint Resolve keeps_initialize_mqtt_connection : keeps.

Lemma keeps_iothub_mqtt_dowork events :
  keeps_whole (iothub_mqtt_dowork persistInterDesc pubCallback subCallback recvCallback events).
Proof.
  assert (keeps_whole (mqtt_client_dowork op err no_disconnect_callback events)).
  { apply keeps_mqtt_client_dowork; eauto with keeps. }
  unfold iothub_mqtt_dowork. keep.
Qed.

(** The memory of the client is given back, the application stays. *)
Lemma keeps_iothub_mqtt_destroy :
  keeps (by_context by_application) (iothub_mqtt_destroy persistInterDesc pubCallback subCallback) (λ _, True).
Proof.
  assert (∀ d : Hub, keeps (by_context by_application)
    (λ '(c, h), '(_, h) ← mqtt_client_deinit (if mqttClient d then Some c else None) h; Some (tt, (c, h)))
    (λ _, True)) as Hfree.
  { intros d [c h] x s' E. destruct (mqtt_client_deinit _ _) as [[[] h1]|]; [|done]. injection E as _ <-.
    split; [unfold by_context; reflexivity|done]. }
  pose proof (λ X, keeps_in_context (A:=Hub) by_application (X:=X)). unfold iothub_mqtt_destroy. keep.
Qed.

Ltac ended := solve [repeat any; by apply gives_ret].

(** A new client has the application it was given, and a trusted callback. *)
Lemma created_trusted o endpoint type policy limit (s : @Setting U P) :
  gives (initialize_mqtt_client_handle persistInterDesc pubCallback subCallback recvCallback o endpoint type policy limit s)
    (λ r, match r with
      | None => True
      | Some c => trusted (by_peer by_application) c ∧ application (user (callContext c)) = setting_app s
      end).
Proof.
  unfold initialize_mqtt_client_handle. any. case_match; [|ended]. case_match; [|ended]. any. case_match; [|ended].
  any. case_match; [|ended]. any. case_match; [|ended]. any. cbv zeta.
  eapply gives_bind; [apply (mqtt_client_init_trusted by_application); eauto with keeps|].
  intros [c|] Hc; [|ended]. any. destruct Hc as [Hc Eu].
  repeat case_match; try (apply gives_ret; split; [exact Hc|done]). ended.
Qed.
End hub.
