(* ===== verification/IotHubTheory.v ===== *)
(** * IotHubTheory: the publications of the IoT hub client.

    [queued] relates the store of a hub client to the lists of its pending
    publications and subscriptions; the steps of the code on the store are steps
    on these lists.  [hub_step] is the specification of an operation: what it
    returns, which publications are pending afterwards and what the application
    is told.  The application's callback of a publication is a recorder. *)
From S2P Require Import Prelude.
From stdpp Require Import gmap.
From S2P Require Import Effects.
From S2P Require Import Alloc.
From S2P Require Import DoublyLinkedList.
From S2P Require Import MqttCodec.
From S2P Require Import MqttDecoder.
From S2P Require Import MqttCodecTheory.
From S2P Require Import MqttMessage.
From S2P Require Import MqttClient.
From S2P Require Import MqttClientTheory.
From S2P Require Import RetryLogic.
From S2P Require Import IotHubClient.
#[local] Open Scope Z_scope.
#[local] Set Warnings "-clear-no-such-hyp".

Lemma nodup_perm {A} (l l' : list A) : l ≡ₚ l' → NoDup l → NoDup l'.
Proof. by intros ->. Qed.

Section store.
Context `{Arch} {U P Pub Sub : Type}.
#[warnings="-notation-for-abbreviation"] Notation Hub := (@IOTHUB_MQTT_CLIENT U P Pub Sub).
#[warnings="-notation-for-abbreviation"] Notation PUB := (@MQTT_PUB_CALLBACK_INFO Pub).
#[warnings="-notation-for-abbreviation"] Notation SUB := (@MQTT_SUB_CALLBACK_INFO Sub).
#[warnings="-notation-for-abbreviation"] Notation Client := (ST (@Peer Hub * Heap)).
Implicit Types (d : Hub) (p : @Peer Hub) (h : Heap) (a : positive) (pubs loose : list (positive * PUB))
  (subs : list (positive * SUB)).

(** ** The queues *)

(** [pubs] and [subs] are pending, the structures [loose] are in no queue. *)
Record queued d pubs subs loose : Prop := {
  queued_pubs : dlist (links d) pub_ack_waiting_queue pubs.*1;
  queued_subs : dlist (links d) sub_ack_waiting_queue subs.*1;
  queued_nodup : NoDup (pub_ack_waiting_queue :: sub_ack_waiting_queue :: loose.*1 ++ pubs.*1 ++ subs.*1);
  queued_dom : ∀ a, is_Some (links d !! a) ↔
    a ∈ pub_ack_waiting_queue :: sub_ack_waiting_queue :: loose.*1 ++ pubs.*1 ++ subs.*1;
  queued_pub_infos : ∀ a i, pub_infos d !! a = Some i ↔ (a, i) ∈ loose ++ pubs;
  queued_sub_infos : ∀ a i, sub_infos d !! a = Some i ↔ (a, i) ∈ subs }.

(** Only the store has changed. *)
Definition restored d d' : Prop := d' = set_queues (links d') (pub_infos d') (sub_infos d') d.

Lemma restored_refl d : restored d d.
Proof. by destruct d. Qed.

Lemma restored_trans d d1 d2 : restored d d1 → restored d1 d2 → restored d d2.
Proof. unfold restored. intros -> ->. by destruct d. Qed.

Lemma restored_id d d' : restored d d' → packetId d' = packetId d.
Proof. by intros ->. Qed.

Lemma restored_app d d' : restored d d' → application d' = application d.
Proof. by intros ->. Qed.

Lemma restored_intro d l ps ss : restored d (set_queues l ps ss d).
Proof. by destruct d. Qed.

Lemma queued_same d d' pubs subs loose :
  links d' = links d → pub_infos d' = pub_infos d → sub_infos d' = sub_infos d →
  queued d pubs subs loose → queued d' pubs subs loose.
Proof. intros El Ep Es []. split; rewrite ?El, ?Ep, ?Es; done. Qed.

Lemma queued_alloc d pubs subs a i :
  queued d pubs subs [] → links d !! a = None →
  queued (set_queues (<[a := mkEntry None None]> (links d)) (<[a := i]> (pub_infos d)) (sub_infos d) d)
    pubs subs [(a, i)].
Proof.
  intros [Hp Hs Hnd Hd Hpi Hsi] Ha.
  assert (a ∉ pub_ack_waiting_queue :: sub_ack_waiting_queue :: pubs.*1 ++ subs.*1) as Hn.
  { intros Hin. apply (Hd a) in Hin. rewrite Ha in Hin. by destruct Hin. }
  assert (kept (links d) (<[a := mkEntry None None]> (links d)) [a]) as Hk.
  { intros q Hq%not_elem_of_cons. rewrite lookup_insert_ne; [done|]. destruct Hq. congruence. }
  split; cbn [set_queues links pub_infos sub_infos].
  - eapply dlist_kept; [done|exact Hk|]. intros q Hq ->%list_elem_of_singleton. apply Hn. set_solver.
  - eapply dlist_kept; [done|exact Hk|]. intros q Hq ->%list_elem_of_singleton. apply Hn. set_solver.
  - cbn [fmap list_fmap app fst]. cbn [app fmap list_fmap] in Hnd.
    assert (pub_ack_waiting_queue :: sub_ack_waiting_queue :: a :: pubs.*1 ++ subs.*1 ≡ₚ
      a :: pub_ack_waiting_queue :: sub_ack_waiting_queue :: pubs.*1 ++ subs.*1) as -> by solve_Permutation.
    by apply NoDup_cons.
  - intros b. cbn [fmap list_fmap app fst]. destruct (decide (b = a)) as [->|Hne].
    + rewrite lookup_insert_eq. split; [intros _; set_solver|eauto].
    + rewrite lookup_insert_ne, Hd by done. set_solver.
  - intros b j. destruct (decide (b = a)) as [->|Hne].
    + rewrite lookup_insert_eq. cbn [app]. rewrite elem_of_cons. split; [intros [= ->]; by left|].
      intros [[= ->]|Hin]; [done|]. destruct Hn. do 2 right. apply elem_of_app. left.
      by apply (list_elem_of_fmap_2 fst) in Hin.
    + rewrite lookup_insert_ne, Hpi by done. cbn [app]. rewrite elem_of_cons. split; [by right|].
      by intros [[= -> _]|].
  - done.
Qed.

Lemma queued_append d pubs subs a i :
  queued d pubs subs [(a, i)] →
  ∃ l, DList_InsertTailList (links d) (Some pub_ack_waiting_queue) (Some a) = Some l ∧
    queued (set_queues l (pub_infos d) (sub_infos d) d) (pubs ++ [(a, i)]) subs [].
Proof.
  intros [Hp Hs Hnd Hd Hpi Hsi]. cbn [fmap list_fmap app fst] in Hnd, Hd.
  destruct (insert_tail_dlist _ _ _ a Hp) as (l & E & Hl & Hk & Hdom).
  { apply Hd. set_solver. }
  { intros [->|Hin]%elem_of_cons; [by apply NoDup_cons in Hnd as [[] _]; set_solver|].
    do 2 apply NoDup_cons in Hnd as [_ Hnd]. apply NoDup_cons in Hnd as [[] _]. set_solver. }
  exists l. split; [done|]. split; cbn [set_queues links pub_infos sub_infos].
  - by rewrite fmap_app.
  - eapply dlist_kept; [done|exact Hk|]. intros q Hq Hq2.
    assert (NoDup ((sub_ack_waiting_queue :: subs.*1) ++ a :: pub_ack_waiting_queue :: pubs.*1)) as Hnd2.
    { eapply nodup_perm; [|exact Hnd]. solve_Permutation. }
    apply NoDup_app in Hnd2 as (_ & Hdj & _). by apply (Hdj q).
  - cbn [fmap list_fmap app]. rewrite fmap_app. eapply nodup_perm; [|exact Hnd].
    cbn [fmap list_fmap fst]. solve_Permutation.
  - intros b. cbn [fmap list_fmap app]. rewrite <- elem_of_dom, Hdom, elem_of_dom, Hd, fmap_app. set_solver.
  - intros b j. rewrite Hpi. set_solver.
  - done.
Qed.

Lemma queued_remove d pubs1 a i pubs2 subs :
  queued d (pubs1 ++ (a, i) :: pubs2) subs [] →
  ∃ l, fst <$> DList_RemoveEntryList (links d) (Some a) = Some l ∧
    queued (set_queues l (pub_infos d) (sub_infos d) d) (pubs1 ++ pubs2) subs [(a, i)].
Proof.
  intros [Hp Hs Hnd Hd Hpi Hsi]. rewrite fmap_app in *. cbn [fmap list_fmap app fst] in *.
  destruct (remove_dlist _ _ _ _ _ Hp) as (l & E & Hl & Hk & Hdom).
  exists l. split; [by rewrite E|]. split; cbn [set_queues links pub_infos sub_infos].
  - by rewrite fmap_app.
  - eapply dlist_kept; [done|exact Hk|]. intros q Hq Hq2.
    assert (NoDup ((sub_ack_waiting_queue :: subs.*1) ++
      a :: pub_ack_waiting_queue :: pubs1.*1 ++ pubs2.*1)) as Hnd2.
    { eapply nodup_perm; [|exact Hnd]. solve_Permutation. }
    apply NoDup_app in Hnd2 as (_ & Hdj & _). apply (Hdj q); [done|by right].
  - cbn [fmap list_fmap app]. rewrite fmap_app. eapply nodup_perm; [|exact Hnd].
    cbn [fmap list_fmap fst]. solve_Permutation.
  - intros b. cbn [fmap list_fmap app fst]. rewrite <- elem_of_dom, Hdom, elem_of_dom, Hd, fmap_app. set_solver.
  - intros b j. rewrite Hpi. set_solver.
  - done.
Qed.

Lemma queued_free d pubs subs a i :
  queued d pubs subs [(a, i)] →
  queued (set_queues (delete a (links d)) (delete a (pub_infos d)) (delete a (sub_infos d)) d) pubs subs [].
Proof.
  intros [Hp Hs Hnd Hd Hpi Hsi]. cbn [fmap list_fmap app fst] in *.
  assert (NoDup (a :: pub_ack_waiting_queue :: sub_ack_waiting_queue :: pubs.*1 ++ subs.*1)) as [Hn Hnd2]%NoDup_cons.
  { eapply nodup_perm; [|exact Hnd]. solve_Permutation. }
  assert (kept (links d) (delete a (links d)) [a]) as Hk.
  { intros q Hq%not_elem_of_cons. rewrite lookup_delete_ne; [done|]. destruct Hq. congruence. }
  split; cbn [set_queues links pub_infos sub_infos].
  - eapply dlist_kept; [done|exact Hk|]. intros q Hq ->%list_elem_of_singleton. apply Hn. set_solver.
  - eapply dlist_kept; [done|exact Hk|]. intros q Hq ->%list_elem_of_singleton. apply Hn. set_solver.
  - done.
  - intros b. cbn [fmap list_fmap app]. destruct (decide (b = a)) as [->|Hne].
    + rewrite lookup_delete_eq. split; [intros [? [=]]|done].
    + rewrite lookup_delete_ne, Hd by done. set_solver.
  - intros b j. cbn [app]. destruct (decide (b = a)) as [->|Hne].
    + rewrite lookup_delete_eq. split; [done|]. intros Hin%(list_elem_of_fmap_2 fst). destruct Hn. set_solver.
    + rewrite lookup_delete_ne, Hpi by done. cbn [app]. set_solver.
  - intros b j. destruct (decide (b = a)) as [->|Hne].
    + rewrite lookup_delete_eq. split; [done|]. intros Hin%(list_elem_of_fmap_2 fst). destruct Hn. set_solver.
    + by rewrite lookup_delete_ne, Hsi.
Qed.

(** The walks along a queue have enough fuel. *)
Lemma queued_fuel d pubs subs loose : queued d pubs subs loose → (length pubs + length subs < walk_fuel d)%nat.
Proof.
  intros [_ _ Hnd Hd _ _]. unfold walk_fuel. rewrite <- size_dom.
  assert (dom (links d) = list_to_set (pub_ack_waiting_queue :: sub_ack_waiting_queue ::
    loose.*1 ++ pubs.*1 ++ subs.*1)) as ->.
  { apply set_eq. intros a. rewrite elem_of_dom, Hd. by rewrite elem_of_list_to_set. }
  rewrite size_list_to_set by done. cbn [length]. rewrite !length_app, !length_fmap. lia.
Qed.
End store.

(** ** The specification *)

(** A publication with quality of service 1 that waits for its acknowledgement. *)
Record Publication (Pub : Type) := mkPublication {
  p_id : Z; p_callback : Pub; p_topic : list Z; p_payload : list Z }.
#[global] Arguments mkPublication {Pub} _ _ _ _.
#[global] Arguments p_id {Pub} _.
#[global] Arguments p_callback {Pub} _.
#[global] Arguments p_topic {Pub} _.
#[global] Arguments p_payload {Pub} _.

(** What happens to a hub client: the application publishes, the MQTT client calls
    back with an acknowledgement or an error. *)
Inductive HubOp (Pub : Type) :=
  | Publish (qos : Z) (topic payload : list Z) (callback : option Pub)
  | Acknowledged (id : Z)
  | ConnectionError (error : MQTT_CLIENT_EVENT_ERROR).
#[global] Arguments Publish {Pub} _ _ _ _.
#[global] Arguments Acknowledged {Pub} _.
#[global] Arguments ConnectionError {Pub} _.

Definition notice {Pub : Type} (callback : option Pub) (s : MQTT_PUB_STATUS_TYPE)
    : list (Pub * MQTT_PUB_STATUS_TYPE) :=
  match callback with None => [] | Some c => [(c, s)] end.

(** The packet of a publication. *)
Definition packet_of (id qos : Z) (topic payload : list Z) : Wire :=
  Sent (frame PUBLISH_TYPE (publish_flags qos false false) (publish_body qos id topic payload)).

(** [hub_step id q op r q' ns ws]: with the publications [q] pending and [id] the
    next identifier, [op] may return [r], leave [q'] pending, tell the application
    [ns] and call the transport for [ws]. *)
Inductive hub_step {Pub : Type} (id : Z) (q : list (Publication Pub))
    : HubOp Pub → status → list (Publication Pub) → list (Pub * MQTT_PUB_STATUS_TYPE) → list Wire → Prop :=
  | step_refused qos topic payload c : hub_step id q (Publish qos topic payload c) FAILURE q [] []
  | step_unsent qos topic payload c ws :
      ws = [] ∨ ws = [packet_of id qos topic payload] →
      hub_step id q (Publish qos topic payload c) FAILURE q (notice c MQTT_PUB_FAILED) ws
  | step_sent topic payload c :
      hub_step id q (Publish 0 topic payload c) OK q (notice c MQTT_PUB_SUCCESS) [packet_of id 0 topic payload]
  | step_unwatched topic payload :
      hub_step id q (Publish 1 topic payload None) OK q [] [packet_of id 1 topic payload]
  | step_pending topic payload c :
      hub_step id q (Publish 1 topic payload (Some c)) OK (q ++ [mkPublication id c topic payload]) []
        [packet_of id 1 topic payload]
  | step_acknowledged i q1 b q2 :
      q = q1 ++ b :: q2 → Forall (λ b, p_id b ≠ i) q1 → p_id b = i →
      hub_step id q (Acknowledged i) OK (q1 ++ q2) [(p_callback b, MQTT_PUB_SUCCESS)] []
  | step_unknown i : Forall (λ b, p_id b ≠ i) q → hub_step id q (Acknowledged i) OK q [] []
  | step_lost e :
      hub_step id q (ConnectionError e) OK [] ((λ b, (p_callback b, MQTT_PUB_FAILED)) <$> q) [].

(** The sequence of identifiers. *)
Definition next_id (id : Z) : Z := if USHRT_MAX <=? id + 1 then 1 else id + 1.

(** The last identifier after an operation; publishing with quality of service 2 is
    refused before it takes one. *)
Definition id_after {Pub : Type} (id : Z) (op : HubOp Pub) : Z :=
  match op with Publish qos _ _ _ => if qos =? DELIVER_EXACTLY_ONCE then id else next_id id | _ => id end.

Section hub.
Context `{Arch} {U P Pub Sub : Type}.
#[warnings="-notation-for-abbreviation"] Notation Hub := (@IOTHUB_MQTT_CLIENT U P Pub Sub).
#[warnings="-notation-for-abbreviation"] Notation PUB := (@MQTT_PUB_CALLBACK_INFO Pub).
#[warnings="-notation-for-abbreviation"] Notation SUB := (@MQTT_SUB_CALLBACK_INFO Sub).
#[warnings="-notation-for-abbreviation"] Notation Client := (ST (@Peer Hub * Heap)).
Implicit Types (d : Hub) (p : @Peer Hub) (h : Heap) (a : positive)
  (q : list (positive * Publication Pub)) (subs : list (positive * SUB)).

Variable persistInterDesc : option (PERSIST_INTERFACE_DESCRIPTION P).
Variable note : U → Pub * MQTT_PUB_STATUS_TYPE → U.
Variable subCallback : Sub → option (list Z) → Client unit.
Variable recvCallback : MQTT_MESSAGE → Client unit.

(** The application is told how a publication ended. *)
Definition tell_pub (c : Pub) (s : MQTT_PUB_STATUS_TYPE) : Client unit :=
  modify_hub (λ d, set_application (note (application d) (c, s)) d).

(** The structure of a publication, and the number of its memory blocks. *)
Definition info_of (b : Publication Pub) : PUB :=
  mkPubInfo (p_id b) (p_callback b) (Some (owned (p_id b) 1 (p_topic b) (p_payload b) false false)).
Definition entry_of (x : positive * Publication Pub) : positive * PUB := (x.1, info_of x.2).
Definition pending_blocks (bs : list (Publication Pub)) : Z :=
  foldr (λ b n, 1 + msg_blocks (p_payload b) + n) 0 bs.

(** The MQTT client is quiet, the queues hold [q] and [subs]. *)
Record holds p q subs : Prop := {
  holds_steady : steady p;
  holds_queued : queued (user p) (entry_of <$> q) subs [];
  holds_id : 0 <= packetId (user p) < USHRT_MAX }.

(** [f] changes the hub client only. *)
Definition with_hub (d : Hub) p : @Peer Hub := mkPeer (client p) (env p) (wire p) d.

Lemma wp_hub (Q : Hub → @Peer Hub * Heap → Prop) p h : Q (user p) (p, h) → wp hub Q (p, h).
Proof. intros HQ. by exists (user p), (p, h). Qed.

Lemma wp_modify_hub f (Q : unit → @Peer Hub * Heap → Prop) p h :
  Q tt (with_hub (f (user p)) p, h) → wp (modify_hub f) Q (p, h).
Proof. intros HQ. by eexists tt, _. Qed.

Lemma wp_read_links {X} (f : entries → option X) x (Q : X → @Peer Hub * Heap → Prop) p h :
  f (links (user p)) = Some x → Q x (p, h) → wp (read_links f) Q (p, h).
Proof. intros E HQ. apply wp_bind, wp_hub. by eapply wp_lift. Qed.

(** The queues: a new structure, its entry at the end of the queue. *)
Lemma wp_new_pub i pubs subs (Q : option positive → @Peer Hub * Heap → Prop) p h :
  queued (user p) pubs subs [] →
  (∀ h', used 0 h h' → Q None (p, h')) →
  (∀ a d h', restored (user p) d → queued d pubs subs [(a, i)] → used 1 h h' → Q (Some a) (with_hub d p, h')) →
  wp (new_pub i) Q (p, h).
Proof.
  intros Hq HN HS. apply wp_bind, wp_alloc, wp_malloc_struct; intros h' Hu; [|intros _; by apply wp_ret, HN].
  apply wp_bind, wp_hub, wp_bind, wp_modify_hub, wp_ret. apply HS; [apply restored_intro| |done].
  apply queued_alloc; [done|]. apply not_elem_of_dom, is_fresh.
Qed.

Lemma wp_append a i pubs subs (Q : unit → @Peer Hub * Heap → Prop) p h :
  queued (user p) pubs subs [(a, i)] →
  (∀ d, restored (user p) d → queued d (pubs ++ [(a, i)]) subs [] → Q tt (with_hub d p, h)) →
  wp (append_entry pub_ack_waiting_queue a) Q (p, h).
Proof.
  intros Hq HQ. destruct (queued_append _ _ _ _ _ Hq) as (l & E & Hq').
  apply wp_bind, wp_hub, wp_bind. eapply wp_lift; [exact E|]. apply wp_modify_hub, HQ; [|done].
  apply restored_intro.
Qed.

(** The queues: an entry is removed, an entry is freed. *)
Lemma wp_remove (q1 q2 : list (positive * PUB)) a i subs (Q : unit → @Peer Hub * Heap → Prop) p h :
  queued (user p) (q1 ++ (a, i) :: q2) subs [] →
  (∀ d, restored (user p) d → queued d (q1 ++ q2) subs [(a, i)] → Q tt (with_hub d p, h)) →
  wp (remove_entry a) Q (p, h).
Proof.
  intros Hq HQ. destruct (queued_remove _ _ _ _ _ _ Hq) as (l & E & Hq').
  apply wp_bind, wp_hub, wp_bind. eapply wp_lift; [exact E|]. apply wp_modify_hub, HQ; [|done].
  apply restored_intro.
Qed.

Lemma wp_free_entry a i pubs subs (Q : unit → @Peer Hub * Heap → Prop) p h :
  queued (user p) pubs subs [(a, i)] →
  (∀ d h', restored (user p) d → queued d pubs subs [] → used (-1) h h' → Q tt (with_hub d p, h')) →
  wp (free_entry a) Q (p, h).
Proof.
  intros Hq HQ. apply wp_bind, wp_hub, wp_bind, wp_modify_hub, wp_alloc, wp_free_struct. intros h' Hu.
  apply HQ; [apply restored_intro|by apply queued_free in Hq|done].
Qed.

Lemma steady_hub p d : steady p → steady (with_hub d p).
Proof. by intros []. Qed.

(** A stored publication. *)
Definition stored_payload (l : list Z) : option (list Z) := match l with [] => None | _ => Some l end.
Definition store (s : P) (b : Publication Pub) : P :=
  match persistInterDesc with
  | None => s
  | Some itf => (concrete_add_message itf s (p_id b) (p_topic b) 1 (stored_payload (p_payload b))).2
  end.

Lemma wp_persist b (Q : unit → @Peer Hub * Heap → Prop) p h :
  Q tt (with_hub (set_persistHandle (store (persistHandle (user p)) b) (user p)) p, h) →
  wp (persist_message persistInterDesc (msgHandle (info_of b))) Q (p, h).
Proof.
  intros HQ. unfold persist_message, store in *. destruct persistInterDesc as [itf|].
  - apply wp_bind. eapply wp_lift; [done|]. apply wp_bind. eapply wp_lift; [done|]. apply wp_bind, wp_hub.
    unfold info_of, owned. cbn [msgHandle const_payload no_payload payload_length Nat.ltb Nat.leb appPayload message
      mqttmessage_getPacketId mqttmessage_getQosType msg_packetId qosInfo].
    assert (take (length (p_payload b)) <$> match p_payload b with [] => None | _ => Some (p_payload b) end
      = stored_payload (p_payload b)) as ->.
    { unfold stored_payload. destruct (p_payload b) as [|x l]; [done|]. cbn. by rewrite firstn_all. }
    unfold const_topic_name, msg_topicName. cbn. destruct (concrete_add_message _ _ _ _ _ _). by apply wp_modify_hub.
  - apply wp_ret. by destruct p as [? ? ? []].
Qed.

(** *** Walking along the queue *)

(** The entry the walk is at: the first one of [rest], or the head. *)
Definition at_entry (rest : list (positive * Publication Pub)) : PDLIST_ENTRY :=
  Some (default pub_ack_waiting_queue (list.head rest.*1)).

Lemma entries_fst q : (entry_of <$> q).*1 = q.*1.
Proof. rewrite <- list_fmap_compose. by apply list_fmap_ext. Qed.

Lemma queued_at d pre a b rest subs :
  queued d (entry_of <$> pre ++ (a, b) :: rest) subs [] →
  a ≠ pub_ack_waiting_queue ∧ pub_infos d !! a = Some (info_of b) ∧
  get_Flink (links d) (Some a) = Some (at_entry rest).
Proof.
  intros Hq. pose proof (queued_pubs _ _ _ _ Hq) as Hp. rewrite entries_fst, fmap_app in Hp.
  cbn [fmap list_fmap fst] in Hp. split; [|split].
  - intros ->. apply dlist_nodup, NoDup_cons in Hp as [[] _]. apply elem_of_app. right. left.
  - apply (queued_pub_infos _ _ _ _ Hq). cbn [app]. apply list_elem_of_fmap.
    exists (a, b). split; [done|]. apply elem_of_app. right. left.
  - by rewrite (dlist_next _ _ _ _ _ Hp).
Qed.

Lemma queued_first d q subs loose :
  queued d (entry_of <$> q) subs loose → get_Flink (links d) (Some pub_ack_waiting_queue) = Some (at_entry q).
Proof.
  intros Hq. pose proof (queued_pubs _ _ _ _ Hq) as Hp. rewrite entries_fst in Hp. exact (dlist_first _ _ _ Hp).
Qed.

Lemma wp_find_pub n id pre rest subs (Q : option (positive * PUB) → @Peer Hub * Heap → Prop) p h :
  queued (user p) (entry_of <$> pre ++ rest) subs [] → (length rest <= n)%nat →
  (Forall (λ x, p_id x.2 ≠ id) rest → Q None (p, h)) →
  (∀ r1 a b r2, rest = r1 ++ (a, b) :: r2 → Forall (λ x, p_id x.2 ≠ id) r1 → p_id b = id →
     Q (Some (a, info_of b)) (p, h)) →
  wp (find_pub n id (at_entry rest)) Q (p, h).
Proof.
  revert pre rest. induction n as [|n IH]; intros pre rest Hq Hn HN HS; destruct rest as [|[a b] rest];
    try (cbn in Hn; lia); cbn [find_pub].
  - rewrite decide_True by done. by apply wp_ret, HN.
  - rewrite decide_True by done. by apply wp_ret, HN.
  - destruct (queued_at _ _ _ _ _ _ Hq) as (Hne & Hi & Hf).
    rewrite decide_False by (intros [= ->]; done).
    apply wp_bind. eapply wp_lift; [done|]. apply wp_bind, wp_hub, wp_bind. eapply wp_lift; [exact Hi|].
    apply wp_bind. eapply wp_read_links; [exact Hf|]. cbn [info_of pub_packetId].
    destruct (Z.eqb_spec id (p_id b)) as [->|Hid]; [apply wp_ret; by apply (HS [] a b rest)|].
    apply (IH (pre ++ [(a, b)])); [by rewrite <- app_assoc|cbn in Hn; lia|..].
    + intros Hr. apply HN. apply Forall_cons. split; [cbn; congruence|done].
    + intros r1 a' b' r2 -> Hr1 Hb'. apply (HS ((a, b) :: r1) a' b' r2); [done| |done].
      apply Forall_cons. split; [cbn; congruence|done].
Qed.

(** The hub client after the loss of the publications [bs]. *)
Definition lost_hub (bs : list (Publication Pub)) d : Hub :=
  set_persistHandle (foldl store (persistHandle d) bs)
    (set_application (foldl note (application d) ((λ b, (p_callback b, MQTT_PUB_FAILED)) <$> bs)) d).

Lemma wp_notify_pubs n q subs (Q : unit → @Peer Hub * Heap → Prop) p h :
  queued (user p) (entry_of <$> q) subs [] → (length q <= n)%nat →
  (∀ d h', restored (lost_hub q.*2 (user p)) d → queued d [] subs [] →
     used (- pending_blocks q.*2) h h' → Q tt (with_hub d p, h')) →
  wp (notify_pubs persistInterDesc tell_pub n (at_entry q)) Q (p, h).
Proof.
  revert q p h. induction n as [|n IH]; intros q p h Hq Hn HQ; destruct q as [|[a b] q];
    try (cbn in Hn; lia); cbn [notify_pubs].
  1, 2: rewrite decide_True by done; apply wp_ret;
    replace (p, h) with (with_hub (user p) p, h) by (by destruct p);
    apply HQ; [by destruct (user p)|done|apply used_refl].
  destruct (queued_at _ [] _ _ _ _ Hq) as (Hne & Hi & Hf).
  rewrite decide_False by (intros [= ->]; done).
  apply wp_bind. eapply wp_lift; [done|]. apply wp_bind, wp_hub, wp_bind. eapply wp_lift; [exact Hi|].
  apply wp_bind. eapply wp_read_links; [exact Hf|].
  apply wp_bind. apply (wp_remove [] (entry_of <$> q) a (info_of b) subs); [exact Hq|]. intros d1 E1 Hq1.
  apply wp_bind, wp_modify_hub, wp_bind, wp_persist, wp_bind, wp_alloc, wp_destroy. intros h1 Hu1.
  cbn [user with_hub]. apply wp_bind. eapply wp_free_entry; [by eapply queued_same; [..|exact Hq1]|].
  intros d2 h2 E2 Hq2 Hu2. apply IH; [exact Hq2|cbn in Hn; lia|]. intros d3 h3 E3 Hq3 Hu3.
  cbn [user with_hub] in *. unfold with_hub at 1. cbn [client env wire with_hub].
  apply HQ; [|done|].
  - rewrite E2, E1 in E3. eapply restored_trans; [|exact E3].
    exact (restored_intro (lost_hub (b :: q.*2) (user p)) (links d2) (pub_infos d2) (sub_infos d2)).
  - eapply used_trans; [eapply used_trans; [exact Hu1|exact Hu2|reflexivity]|exact Hu3|].
    change (pending_blocks ((a, b) :: q).*2) with (1 + msg_blocks (p_payload b) + pending_blocks q.*2). lia.
Qed.

(** *** The operations *)

#[warnings="-notation-for-abbreviation"] #[local] Notation operation := (OnMqttOperationComplete persistInterDesc tell_pub subCallback).
#[warnings="-notation-for-abbreviation"] #[local] Notation publish := (publish_mqtt_message persistInterDesc tell_pub subCallback).

Definition run_op (op : HubOp Pub) : Client status :=
  match op with
  | Publish qos topic payload callback => publish (Some topic) qos (Some payload) (length payload) callback
  | Acknowledged id => operation 2 MQTT_CLIENT_ON_PUBLISH_ACK (Some (PUBLISH_ACK id));; mret OK
  | ConnectionError e => OnMqttErrorComplete persistInterDesc tell_pub subCallback e;; mret OK
  end.

(** Publications that fit into a packet. *)
Definition op_ok (op : HubOp Pub) : Prop :=
  match op with
  | Publish qos topic payload _ =>
      0 <= qos <= 2 ∧ zlen topic <= USHRT_MAX ∧ zlen topic + zlen payload + 4 < max_body
  | _ => True
  end.

(** [op] is a step of the specification. *)
Definition refines p h q subs (op : HubOp Pub) (r : status) p' h' : Prop :=
  packetId (user p') = id_after (packetId (user p)) op ∧
  ∃ q' ns ws, holds p' q' subs ∧ hub_step (next_id (packetId (user p))) q.*2 op r q'.*2 ns ws ∧
    application (user p') = foldl note (application (user p)) ns ∧ wire p' = wire p ++ ws ∧
    used (pending_blocks q'.*2 - pending_blocks q.*2) h h'.

Lemma next_id_range id : 0 <= id < USHRT_MAX → 1 <= next_id id < USHRT_MAX.
Proof. unfold next_id, USHRT_MAX. intros. destruct (Z.leb_spec 65535 (id + 1)); lia. Qed.

(** There is an MQTT client, and it has a transport. *)
Definition online p : bool := mqttClient (user p) && xioHandle (client p).

(** The packet of a publication is handed to the MQTT client. *)
Lemma wp_hand_over id qos topic payload (Q : status → @Peer Hub * Heap → Prop) p h :
  0 <= id < USHRT_MAX → op_ok (Publish qos topic payload None) → steady p →
  (∀ r p' h' ws, steady p' → xioHandle (client p') = xioHandle (client p) → user p' = user p →
     wire p' = wire p ++ ws → used 0 h h' →
     ws = [packet_of id qos topic payload] ∧ online p = true ∨
     ws = [] ∧ r = FAILURE ∧ (plenty h → online p = false) → Q r (p', h')) →
  wp (with_client FAILURE (mqtt_client_publish (operation_callback persistInterDesc tell_pub subCallback)
        (error_callback persistInterDesc tell_pub subCallback) no_disconnect_callback
        (Some (owned id qos topic payload false false)))) Q (p, h).
Proof.
  intros Hid (Hq & Ht & Hm) Hst HQ. apply wp_bind, wp_hub. destruct (mqttClient (user p)) eqn:Hm1; cycle 1.
  { apply wp_ret. apply (HQ _ _ _ []); [done..|by rewrite app_nil_r|apply used_refl|].
    right. split; [done|]. split; [done|]. intros _. unfold online. by rewrite Hm1. }
  unfold mqtt_client_publish, owned.
  cbn [mqttmessage_getApplicationMsg const_payload no_payload payload_length Nat.ltb Nat.leb appPayload
    mqttmessage_getQosType mqttmessage_getIsDuplicateMsg mqttmessage_getIsRetained
    mqttmessage_getPacketId mqttmessage_getTopicName qosInfo isDuplicateMsg isMessageRetained
    msg_packetId msg_topicName message].
  rewrite publish_payload.
  eapply wp_steady_packet; [apply publish_makes|done|done|done|..].
  - unfold is_u16, USHRT_MAX in *. lia.
  - done.
  - unfold publish_body, publish_header, utf, zlen in *. rewrite !length_app, length_be16. case_match; rewrite ?length_be16; cbn [length]; lia.
  - intros h' Hu Hp. apply (HQ _ _ _ []); [by destruct Hst|done|done|by rewrite app_nil_r|done|by right].
  - intros r p' h' Hx [Hst' Hc Hu' _ _ Hw] Hu. cbn [client wire user set_packetState] in *.
    apply (HQ _ _ _ (if xioHandle (client p) then [packet_of id qos topic payload] else []));
      [done|by rewrite Hc|done..|]. unfold online.
    destruct (xioHandle (client p)); [left; by rewrite Hm1|]. right. split; [done|].
    split; [|intros _; by rewrite andb_false_r]. destruct r; [by discriminate Hx|done].
Qed.

Lemma pending_blocks_app bs cs : pending_blocks (bs ++ cs) = pending_blocks bs + pending_blocks cs.
Proof.
  induction bs as [|b bs IH]; [done|]. cbn [app pending_blocks foldr] in *.
  unfold pending_blocks in IH |- *. rewrite IH. lia.
Qed.

(** The memory of a publication is given back. *)
Lemma wp_destroy_pub b (Q : unit → @Peer Hub * Heap → Prop) p h :
  (∀ h', used (- msg_blocks (p_payload b)) h h' → Q tt (p, h')) →
  wp (alloc (mqttmessage_destroy (msgHandle (info_of b)))) Q (p, h).
Proof. intros HQ. by apply wp_alloc, wp_destroy. Qed.

Lemma error_refines p h q e :
  holds p q [] → wp (run_op (ConnectionError e)) (λ r '(p', h'), refines p h q [] (ConnectionError e) r p' h') (p, h).
Proof.
  intros [Hst Hq Hid]. apply wp_bind, wp_bind, wp_modify_hub, wp_bind, wp_modify_hub.
  cbn [user with_hub]. set (d := set_isConnectionLost _ _).
  assert (queued d (entry_of <$> q) [] []) as Hq1 by by eapply queued_same; [..|exact Hq].
  apply wp_bind, wp_bind, wp_hub, wp_bind. eapply wp_read_links; [by apply (dlist_first _ _ _ (queued_subs _ _ _ _ Hq1))|].
  cbn [notify_subs fmap list_fmap list.head default]. unfold walk_fuel. cbn [notify_subs].
  rewrite decide_True by done. apply wp_ret, wp_bind, wp_hub, wp_bind.
  eapply wp_read_links; [by eapply queued_first|].
  eapply wp_notify_pubs; [exact Hq1| |].
  { pose proof (queued_fuel _ _ _ _ Hq1) as Hf. rewrite length_fmap in Hf. cbn [length] in Hf. change (length q <= walk_fuel d)%nat. lia. }
  intros d' h' Hd' Hq' Hu. apply wp_ret.
  assert (packetId d' = packetId (user p)) as Ei by exact (restored_id _ _ Hd').
  split; [exact Ei|]. exists [], ((λ b, (p_callback b, MQTT_PUB_FAILED)) <$> q.*2), [].
  split; [split; [by destruct Hst|exact Hq'|by cbn; rewrite Ei]|]. split; [constructor|].
  split; [cbn [user with_hub]; by rewrite Hd'|]. split; [by rewrite app_nil_r|]. cbn [pending_blocks foldr fmap list_fmap].
  by replace (0 - pending_blocks q.*2) with (- pending_blocks q.*2) by lia.
Qed.

Lemma ack_refines p h q subs id :
  holds p q subs → wp (run_op (Acknowledged id)) (λ r '(p', h'), refines p h q subs (Acknowledged id) r p' h') (p, h).
Proof.
  intros [Hst Hq Hid]. apply wp_bind. cbn [OnMqttOperationComplete].
  apply wp_bind, wp_hub, wp_bind. eapply wp_read_links; [by eapply queued_first|]. apply wp_bind.
  apply (wp_find_pub _ _ [] q subs); [exact Hq| | |].
  { apply queued_fuel in Hq. rewrite length_fmap in Hq. lia. }
  - intros Hn. apply wp_ret, wp_ret. split; [done|]. exists q, [], []. split; [by split|]. split.
    + apply step_unknown. by apply Forall_fmap.
    + split; [done|]. split; [by rewrite app_nil_r|]. rewrite Z.sub_diag. apply used_refl.
  - intros r1 a b r2 -> Hr1 Hb. rewrite fmap_app in Hq. cbn [fmap list_fmap] in Hq.
    change (entry_of (a, b)) with (a, info_of b) in Hq.
    apply wp_bind. eapply wp_remove; [exact Hq|]. intros d1 E1 Hq1.
    apply wp_bind, wp_modify_hub, wp_bind, wp_alloc, wp_destroy. intros h1 Hu1. cbn [user with_hub].
    eapply wp_free_entry; [by eapply queued_same; [..|exact Hq1]|]. intros d2 h2 E2 Hq2 Hu2. apply wp_ret.
    assert (packetId d2 = packetId (user p)) as Ei by by rewrite E2, E1.
    split; [exact Ei|]. exists (r1 ++ r2), [(p_callback b, MQTT_PUB_SUCCESS)], [].
    assert (application d2 = note (application (user p)) (p_callback b, MQTT_PUB_SUCCESS)) as Ea
      by by rewrite E2, E1.
    split; [split; [by destruct Hst|by rewrite fmap_app|cbn [user with_hub]; by rewrite E2, E1]|].
    rewrite !fmap_app. cbn [fmap list_fmap snd]. split; [|split; [exact Ea|split; [by rewrite app_nil_r|]]].
    + by apply step_acknowledged; [|apply Forall_fmap|].
    + rewrite !pending_blocks_app. cbn [pending_blocks foldr].
      eapply used_trans; [exact Hu1|exact Hu2|]. unfold pending_blocks. lia.
Qed.

(** Publishing to the storage changes the storage only. *)
Lemma wp_store_message id topic qos payload n (Q : status → @Peer Hub * Heap → Prop) p h :
  (∀ r s, Q r (with_hub (set_persistHandle s (user p)) p, h)) →
  wp (store_message persistInterDesc id (Some topic) qos payload n) Q (p, h).
Proof.
  intros HQ. apply wp_bind, wp_hub.
  assert (Q OK (p, h)) as HOK.
  { specialize (HQ OK (persistHandle (user p))). by destruct p as [? ? ? []]. }
  destruct (_ && _); [|by apply wp_ret]. destruct persistInterDesc as [itf|]; [|by apply wp_ret].
  apply wp_bind. eapply wp_lift; [done|]. destruct (concrete_add_message _ _ _ _ _ _) as [r s].
  apply wp_bind, wp_modify_hub, wp_ret, HQ.
Qed.

Lemma wp_notify_pub c s (Q : unit → @Peer Hub * Heap → Prop) p h :
  Q tt (with_hub (set_application (foldl note (application (user p)) (notice c s)) (user p)) p, h) →
  wp (notify_pub tell_pub c s) Q (p, h).
Proof.
  intros HQ. destruct c as [c|]; [by apply wp_modify_hub|]. apply wp_ret. by destruct p as [? ? ? []].
Qed.

(** What [publish_refines] shows of the end of a publication, which began in [p]
    with [h] and is now in [p1]. *)
Definition begun p q subs id p1 : Prop :=
  steady p1 ∧ queued (user p1) (entry_of <$> q) subs [] ∧ packetId (user p1) = id ∧
  application (user p1) = application (user p) ∧ wire p1 = wire p.

Lemma begun_refused p h q subs id p1 h1 qos topic payload c :
  0 <= id < USHRT_MAX → id = id_after (packetId (user p)) (Publish qos topic payload c) →
  begun p q subs id p1 → used 0 h h1 →
  refines p h q subs (Publish qos topic payload c) FAILURE p1 h1.
Proof.
  intros Hid Eid (Hst & Hq & Hi & Ha & Hw) Hu. split; [by rewrite Hi|]. exists q, [], []. split; [by split; rewrite ?Hi|].
  split; [constructor|]. rewrite Ha, Hw, app_nil_r, Z.sub_diag. done.
Qed.

Lemma pending_blocks_snoc bs b : pending_blocks (bs ++ [b]) = pending_blocks bs + (1 + msg_blocks (p_payload b)).
Proof. rewrite pending_blocks_app. cbn [pending_blocks foldr]. lia. Qed.

(** A publication nobody waits for. *)
Lemma publish_unqueued p h q subs id p1 h1 qos topic payload c :
  0 <= id < USHRT_MAX → id = next_id (packetId (user p)) → qos = 0 ∨ c = None ∧ qos = 1 →
  op_ok (Publish qos topic payload c) →
  begun p q subs id p1 → used (msg_blocks payload) h h1 →
  wp (publish_created persistInterDesc tell_pub subCallback
        (Some (owned id qos topic payload false false)) qos c None)
     (λ r '(p', h'), refines p h q subs (Publish qos topic payload c) r p' h') (p1, h1).
Proof.
  intros Hid Eid Hqos Hop (Hst & Hq & Hi & Ha & Hw) Hu.
  apply wp_bind, wp_hand_over; [done|exact Hop|done|]. intros r p2 h2 ws Hst2 _ Eu Ew Hu2 Hws.
  assert (∀ ns d, d = set_application (foldl note (application (user p1)) ns) (user p1) →
    ∀ h3, used (- msg_blocks payload) h2 h3 → hub_step id q.*2 (Publish qos topic payload c) r q.*2 ns ws →
    refines p h q subs (Publish qos topic payload c) r (with_hub d p2) h3) as Hend.
  { intros ns d -> h3 Hu3 Hs. split.
    { cbn [id_after user with_hub set_application packetId]. rewrite Hi, Eid. by destruct Hqos as [->|[_ ->]]. }
    exists q, ns, ws. cbn [user wire with_hub].
    split; [split; [by destruct Hst2|by eapply queued_same; [..|exact Hq]|by cbn; rewrite Hi]|].
    rewrite <- Eid, Ew, Hw, <- Ha, Z.sub_diag. split; [done|]. split; [done|]. split; [done|].
    eapply used_trans; [exact Hu|by eapply used_trans; [exact Hu2|exact Hu3|reflexivity]|lia]. }
  destruct r.
  - destruct Hws as [[-> _]|(_ & [=] & _)]. apply wp_bind.
    destruct Hqos as [->|[-> ->]]; cbn [Z.eqb DELIVER_AT_MOST_ONCE bool_decide decide].
    + apply wp_notify_pub. rewrite Eu. apply wp_bind, wp_alloc, wp_destroy. intros h3 Hu3. apply wp_ret.
      eapply Hend; [done|done|constructor].
    + apply wp_ret, wp_bind, wp_alloc, wp_destroy. intros h3 Hu3. apply wp_ret.
      replace p2 with (with_hub (user p1) p2) by (rewrite <- Eu; by destruct p2).
      apply (Hend []); [by destruct (user p1)|done|constructor].
  - apply wp_bind, wp_ret, wp_bind, wp_notify_pub. rewrite Eu.
    apply wp_bind, wp_alloc, wp_destroy. intros h3 Hu3. apply wp_ret.
    eapply Hend; [done|done|]. constructor. destruct Hws as [[? _]|[? _]]; [by right|by left].
Qed.

(** A publication whose acknowledgement is waited for. *)
Lemma publish_queued p h q subs id p1 h1 a topic payload c :
  0 <= id < USHRT_MAX → id = next_id (packetId (user p)) → op_ok (Publish 1 topic payload (Some c)) →
  let b := mkPublication id c topic payload in
  begun p (q ++ [(a, b)]) subs id p1 → used (1 + msg_blocks payload) h h1 →
  wp (publish_created persistInterDesc tell_pub subCallback (msgHandle (info_of b)) 1 (Some c) (Some a))
     (λ r '(p', h'), refines p h q subs (Publish 1 topic payload (Some c)) r p' h') (p1, h1).
Proof.
  intros Hid Eid Hop b (Hst & Hq & Hi & Ha & Hw) Hu.
  apply wp_bind, wp_hand_over; [done|exact Hop|done|]. intros r p2 h2 ws Hst2 _ Eu Ew Hu2 Hws.
  assert (used (1 + msg_blocks payload) h h2) as Hu12 by (eapply used_trans; [exact Hu|exact Hu2|lia]).
  destruct r.
  - destruct Hws as [[-> _]|(_ & [=] & _)]. apply wp_bind, wp_ret, wp_bind, wp_ret, wp_ret.
    split; [by rewrite Eu, Hi|]. exists (q ++ [(a, b)]), [], [packet_of id 1 topic payload]. split; [by split; rewrite ?Eu, ?Hi|].
    rewrite fmap_app, <- Eid, Eu, Ha, Ew, Hw. cbn [fmap list_fmap snd]. rewrite pending_blocks_snoc. split; [constructor|].
    split; [done|]. split; [done|]. cbn [b p_payload].
    by replace (_ - _) with (1 + msg_blocks payload) by lia.
  - rewrite fmap_app in Hq. apply wp_bind, wp_bind.
    eapply (wp_remove (entry_of <$> q) []); [rewrite Eu; exact Hq|]. intros d3 E3 Hq3. rewrite app_nil_r in Hq3.
    eapply wp_free_entry; [exact Hq3|]. intros d4 h4 E4 Hq4 Hu4. rewrite Eu in E3. cbn [user with_hub] in E4.
    apply wp_bind, wp_notify_pub, wp_bind, wp_alloc, wp_destroy. intros h5 Hu5. apply wp_ret.
    assert (packetId d4 = id) as Ei by by rewrite (restored_id _ _ E4), (restored_id _ _ E3), Hi.
    split; [exact (eq_trans Ei Eid)|]. exists q, (notice (Some c) MQTT_PUB_FAILED), ws. cbn [user with_hub wire].
    split; [split; [by destruct Hst2|by eapply queued_same; [..|exact Hq4]|]|].
    { change (0 <= packetId d4 < USHRT_MAX). by rewrite Ei. }
    rewrite <- Eid, Ew, Hw, Z.sub_diag. split; [constructor; destruct Hws as [[? _]|[? _]]; [by right|by left]|].
    split; [cbn [set_application application foldl notice]; by rewrite (restored_app _ _ E4), (restored_app _ _ E3), Ha|]. split; [done|].
    eapply used_trans; [exact Hu12|by eapply used_trans; [exact Hu4|exact Hu5|reflexivity]|]. cbn [b p_payload]. lia.
Qed.

Lemma publish_refines p h q subs qos topic payload c :
  holds p q subs → op_ok (Publish qos topic payload c) →
  wp (run_op (Publish qos topic payload c))
    (λ r '(p', h'), refines p h q subs (Publish qos topic payload c) r p' h') (p, h).
Proof.
  intros [Hst Hq Hid] Hop. cbn [run_op]. unfold publish_mqtt_message.
  destruct (Z.eqb_spec qos DELIVER_EXACTLY_ONCE) as [->|Hq2].
  { apply wp_ret. split; [done|]. exists q, [], []. split; [by split|]. split; [constructor|].
    rewrite app_nil_r, Z.sub_diag. split; [done|]. split; [done|]. apply used_refl. }
  pose proof (next_id_range _ Hid) as Hid2. set (id := next_id (packetId (user p))) in *.
  apply wp_bind, wp_bind, wp_hub, wp_bind, wp_modify_hub, wp_ret, wp_bind, wp_store_message. intros r s.
  cbn [user with_hub]. set (d := set_persistHandle _ _). unfold with_hub at 1. cbn [client env wire with_hub].
  change (mkPeer (client p) (env p) (wire p) d) with (with_hub d p).
  assert (begun p q subs id (with_hub d p)) as Hb.
  { split; [by destruct Hst|]. split; [by eapply queued_same; [..|exact Hq]|done]. }
  change (if USHRT_MAX <=? packetId (user p) + 1 then 1 else packetId (user p) + 1) with id.
  assert (0 <= id < USHRT_MAX) as Hid0 by lia.
  assert (id = id_after (packetId (user p)) (Publish qos topic payload c)) as Eid.
  { cbn [id_after]. by rewrite (proj2 (Z.eqb_neq _ _)). }
  destruct r; [|apply wp_ret; eapply begun_refused; [done|done|done|apply used_refl]].
  apply wp_bind, wp_alloc, wp_create; [apply firstn_all| |].
  2:{ intros h1 Hu _. by apply wp_ret, (begun_refused _ _ _ _ id). }
  intros h1 Hu1. assert (qos = 0 ∨ qos = 1) as Hqos.
  { destruct Hop as [? _]. unfold DELIVER_EXACTLY_ONCE in *. lia. }
  destruct c as [c|]; cycle 1. { apply publish_unqueued; [done..|destruct Hqos; auto|done|done|done]. }
  destruct Hqos as [->| ->]; cbn [Z.eqb DELIVER_AT_LEAST_ONCE Pos.eqb].
  { apply publish_unqueued; [done..|auto|done|done|done]. }
  destruct Hb as (Hst1 & Hq1 & Hi & Ha & Hw). set (b := mkPublication id c topic payload).
  apply wp_bind. apply (wp_new_pub (info_of b) _ _ _ _ _ Hq1).
  { intros h2 Hu2. apply wp_bind, wp_alloc, wp_destroy. intros h3 Hu3. apply wp_ret. eapply begun_refused; [done|done|done|].
    eapply used_trans; [exact Hu1|by eapply used_trans; [exact Hu2|exact Hu3|reflexivity]|lia]. }
  intros a d2 h2 E2 Hq2' Hu2. apply wp_bind. eapply wp_append; [exact Hq2'|]. intros d3 E3 Hq3.
  apply (publish_queued p h q subs id _ _ a topic payload c); [done|done|done| |].
  - split; [by destruct Hst|]. split; [cbn [user with_hub]; by rewrite fmap_app|].
    cbn [user with_hub wire] in *. by rewrite E3, E2.
  - eapply used_trans; [exact Hu1|exact Hu2|lia].
Qed.

Lemma op_refines p h q op :
  holds p q [] → op_ok op → wp (run_op op) (λ r '(p', h'), refines p h q [] op r p' h') (p, h).
Proof. destruct op; intros Hq Hop; [by apply publish_refines|by apply ack_refines|by apply error_refines]. Qed.
End hub.
