(* ===== verification/IotHubSetup.v ===== *)
(** * IotHubSetup: the creation of an IoT hub client.

    A client that is created has empty queues and owns a fixed number of memory
    blocks; a creation that fails gives back what it has allocated, except for
    options without a client identifier.  A series of operations is the fold of
    the single ones, in the code and in the specification. *)
From S2P Require Import Prelude.
From stdpp Require Import gmap.
From S2P Require Import Effects.
From S2P Require Import Alloc.
From S2P Require Import DoublyLinkedList.
From S2P Require Import MqttCodec.
From S2P Require Import MqttDecoder.
From S2P Require Import MqttMessage.
From S2P Require Import MqttClient.
From S2P Require Import MqttClientTheory.
From S2P Require Import RetryLogic.
From S2P Require Import IotHubClient.
From S2P Require Import IotHubTheory.
#[local] Open Scope Z_scope.

(** Sums of the memory that a sequence of steps uses. *)
Ltac account :=
  repeat match goal with H : used _ _ _ |- _ => destruct H end; split; [lia|auto 20].

(** ** Copies of the options *)

Definition string_blocks (s : option (list Z)) : Z := match s with Some _ => 1 | None => 0 end.

(** The structure and the strings. *)
Definition options_blocks (o : MQTT_CLIENT_OPTIONS) : Z :=
  1 + string_blocks (clientId o) + string_blocks (willTopic o) + string_blocks (willMessage o)
  + string_blocks (username o) + string_blocks (password o).

Lemma wp_clone_next r s (Q : status * option (list Z) → Heap → Prop) h :
  (∀ r' o h', used (string_blocks o) h h' → (r' = OK → r = OK ∧ o = s) → Q (r', o) h') →
  wp (clone_next r None s) Q h.
Proof.
  intros HQ. destruct r, s as [s|]; cbn [clone_next clone_string];
    try (apply wp_ret, HQ; [apply used_refl|done]).
  apply wp_bind, wp_mallocAndStrcpy_s.
  - intros h1 Hu. apply wp_bind, wp_free. intros h2 Hu2. apply wp_ret, HQ; [cbn; account|done].
  - intros h1 Hu _. by apply wp_ret, HQ.
Qed.

Lemma wp_free_blocks s (Q : unit → Heap → Prop) h :
  (∀ h', used (- string_blocks s) h h' → Q tt h') → wp (free s) Q h.
Proof. intros HQ. apply wp_free. intros h' Hu. apply HQ. by destruct s. Qed.

Lemma wp_ClearMqttOptions o (Q : unit → Heap → Prop) h :
  (∀ h', used (- options_blocks o) h h' → Q tt h') → wp (ClearMqttOptions o) Q h.
Proof.
  intros HQ. do 5 (apply wp_bind, wp_free_blocks; intros ? ?). apply wp_free_struct. intros hf Hf.
  apply HQ. unfold options_blocks. account.
Qed.

Lemma wp_CloneMqttOptions o (Q : option MQTT_CLIENT_OPTIONS → Heap → Prop) h :
  (∀ h', used (options_blocks o) h h' → Q (Some o) h') → (∀ h', used 0 h h' → Q None h') →
  wp (CloneMqttOptions o) Q h.
Proof.
  intros HS HN. apply wp_bind, wp_malloc_struct; intros h0 Hu0; [|intros _; by apply wp_ret, HN].
  cbn [InitMqttOptions clientId willTopic willMessage username password].
  apply wp_bind, (wp_clone_next OK); intros r1 o1 h1 Hu1 E1.
  apply wp_bind, wp_clone_next; intros r2 o2 h2 Hu2 E2.
  apply wp_bind, wp_clone_next; intros r3 o3 h3 Hu3 E3.
  apply wp_bind, wp_clone_next; intros r4 o4 h4 Hu4 E4.
  apply wp_bind, wp_clone_next; intros r5 o5 h5 Hu5 E5.
  assert (used (1 + string_blocks o1 + string_blocks o2 + string_blocks o3 + string_blocks o4
    + string_blocks o5) h h5) as Hu by account.
  destruct r5.
  - apply wp_ret. destruct (E5 eq_refl) as [-> ->], (E4 eq_refl) as [-> ->], (E3 eq_refl) as [-> ->],
      (E2 eq_refl) as [-> ->], (E1 eq_refl) as [_ ->].
    unfold options_blocks in HS. destruct o. by apply HS.
  - apply wp_bind, wp_ClearMqttOptions. unfold options_blocks. cbn [clientId willTopic willMessage username password].
    intros h6 Hu6. apply wp_ret, HN. account.
Qed.

(** ** Series of steps of the specification *)

Inductive hub_run {Pub : Type} : Z → list (Publication Pub) → list (HubOp Pub) → list status → Z →
    list (Publication Pub) → list (Pub * MQTT_PUB_STATUS_TYPE) → list Wire → Prop :=
  | run_nil id q : hub_run id q [] [] id q [] []
  | run_cons id q op r q1 ns1 ws1 ops rs id' q' ns ws :
      hub_step (next_id id) q op r q1 ns1 ws1 →
      hub_run (id_after id op) q1 ops rs id' q' ns ws →
      hub_run id q (op :: ops) (r :: rs) id' q' (ns1 ++ ns) (ws1 ++ ws).

(** The callback of a publication, and the one of a publication that is refused. *)
Definition given {Pub : Type} (op : HubOp Pub) : list Pub :=
  match op with Publish _ _ _ (Some c) => [c] | _ => [] end.
Definition refused {Pub : Type} (ops : list (HubOp Pub)) (rs : list status) : list Pub :=
  concat (zip_with (λ op r, match r with FAILURE => given op | OK => [] end) ops rs).

Section run.
Context {Pub : Type}.
Implicit Types (q : list (Publication Pub)) (op : HubOp Pub).

Lemma hub_step_told id q op r q' ns ws :
  hub_step id q op r q' ns ws →
  ∃ dropped, ns.*1 ++ (p_callback <$> q') ++ dropped ≡ₚ (p_callback <$> q) ++ given op ∧
    dropped ⊆+ match r with FAILURE => given op | OK => [] end.
Proof.
  destruct 1 as [qos topic payload c|qos topic payload c ws|topic payload c|topic payload|topic payload c|
    i q1 b q2 -> _ _|i _|e]; cbn [given].
  - exists (match c with Some c => [c] | None => [] end). split; [done|]. by destruct c.
  - exists []. split; [|apply submseteq_nil_l]. destruct c; cbn; solve_Permutation.
  - exists []. split; [|done]. destruct c; cbn; solve_Permutation.
  - exists []. split; [|done]. by rewrite app_nil_r.
  - exists []. split; [|done]. by rewrite fmap_app, app_nil_r.
  - exists []. split; [|done]. rewrite !fmap_app, !app_nil_r. cbn. solve_Permutation.
  - exists []. split; [|done]. by rewrite app_nil_r.
  - exists []. split; [|done]. by rewrite <- list_fmap_compose, !app_nil_r.
Qed.

(** Every callback is told once, is that of a pending publication, or belongs to a
    publication that was refused. *)
Lemma hub_run_told id q ops rs id' q' ns ws :
  hub_run id q ops rs id' q' ns ws →
  ∃ dropped, ns.*1 ++ (p_callback <$> q') ++ dropped ≡ₚ (p_callback <$> q) ++ (ops ≫= given) ∧
    dropped ⊆+ refused ops rs.
Proof.
  induction 1 as [|id q op r q1 ns1 ws1 ops rs id' q' ns ws Hs _ (dropped & E & Hd)].
  { exists []. split; [done|apply submseteq_nil_l]. }
  apply hub_step_told in Hs as (dropped1 & E1 & Hd1). exists (dropped1 ++ dropped). split.
  - rewrite bind_cons, fmap_app, (app_assoc (p_callback <$> q)), <- E1.
    transitivity (ns1.*1 ++ dropped1 ++ (ns.*1 ++ (p_callback <$> q') ++ dropped)); [solve_Permutation|].
    rewrite E. solve_Permutation.
  - cbn [refused zip_with concat]. by apply submseteq_app.
Qed.

(** The identifiers that [n] publications take. *)
Fixpoint ids (id : Z) (n : nat) : list Z :=
  match n with O => [] | S n => next_id id :: ids (next_id id) n end.

Lemma length_ids id n : length (ids id n) = n.
Proof. revert id. induction n; intros; cbn; auto. Qed.

Lemma ids_lookup id n i x :
  0 <= id < USHRT_MAX → ids id n !! i = Some x → x = (id + Z.of_nat i) mod 65534 + 1.
Proof.
  revert id i. induction n as [|n IH]; intros id i Hid; [done|].
  assert (next_id id = id mod 65534 + 1) as E.
  { unfold next_id, USHRT_MAX in *. destruct (Z.leb_spec 65535 (id + 1)).
    - assert (id = 65534) as -> by lia. done.
    - rewrite Z.mod_small; lia. }
  pose proof (next_id_range id Hid). destruct i as [|i]; cbn [ids lookup list_lookup].
  - intros [= <-]. by rewrite Z.add_0_r.
  - intros Hx. apply IH in Hx; [|lia]. rewrite Hx, E.
    rewrite <- (Zplus_mod_idemp_l id). f_equal. f_equal. lia.
Qed.

Lemma ids_nodup id n : 0 <= id < USHRT_MAX → Z.of_nat n <= 65534 → NoDup (ids id n).
Proof.
  intros Hid Hn. apply NoDup_alt. intros i j x Hi Hj.
  pose proof (lookup_lt_Some _ _ _ Hi) as Li. pose proof (lookup_lt_Some _ _ _ Hj) as Lj. rewrite length_ids in Li, Lj.
  apply ids_lookup in Hi; [|done]. apply ids_lookup in Hj; [|done]. rewrite Hi in Hj.
  assert ((id + Z.of_nat i) mod 65534 = (id + Z.of_nat j) mod 65534) as E by lia.
  pose proof (Z.div_mod (id + Z.of_nat i) 65534 ltac:(done)).
  pose proof (Z.div_mod (id + Z.of_nat j) 65534 ltac:(done)). lia.
Qed.

(** How many identifiers a series of operations takes. *)
Definition takes_id (op : HubOp Pub) : nat :=
  match op with Publish qos _ _ _ => if qos =? DELIVER_EXACTLY_ONCE then 0 else 1 | _ => 0 end.
Definition taken (ops : list (HubOp Pub)) : nat := sum_list (takes_id <$> ops).

Lemma ids_op id op n : ids id (takes_id op + n) = ids id (takes_id op) ++ ids (id_after id op) n.
Proof. destruct op; cbn [takes_id id_after]; [by case_match|done..]. Qed.

Lemma hub_step_ids id q op r q' ns ws pre :
  hub_step (next_id id) q op r q' ns ws → p_id <$> q `sublist_of` pre →
  p_id <$> q' `sublist_of` pre ++ ids id (takes_id op).
Proof.
  intros Hs Hp. assert (∀ l, p_id <$> q `sublist_of` pre ++ l) as Hl by (intros; by apply sublist_inserts_r).
  destruct Hs as [| | | |topic payload c|i q1 b q2 -> _ _| |]; [apply Hl..| | | |].
  - rewrite fmap_app. by apply sublist_app.
  - cbn [takes_id ids]. rewrite app_nil_r. etrans; [|exact Hp]. rewrite !fmap_app.
    apply sublist_app; [done|]. by apply sublist_cons.
  - apply Hl.
  - apply sublist_nil_l.
Qed.

Lemma hub_run_ids id q ops rs id' q' ns ws pre :
  hub_run id q ops rs id' q' ns ws → p_id <$> q `sublist_of` pre →
  p_id <$> q' `sublist_of` pre ++ ids id (taken ops).
Proof.
  intros Hr. revert pre. induction Hr as [|id q op r q1 ns1 ws1 ops rs id' q' ns ws Hs _ IH]; intros pre Hp.
  - by rewrite app_nil_r.
  - change (taken (op :: ops)) with (takes_id op + taken ops)%nat. rewrite ids_op, app_assoc.
    by apply IH, hub_step_ids with (1 := Hs).
Qed.
End run.

(** ** Creation *)

Section setup.
Context `{Arch} {U P Pub Sub : Type}.
#[warnings="-notation-for-abbreviation"] Notation Hub := (@IOTHUB_MQTT_CLIENT U P Pub Sub).
#[warnings="-notation-for-abbreviation"] Notation Client := (ST (@Peer Hub * Heap)).
#[warnings="-notation-for-abbreviation"] Notation Codec := (MQTTCODEC_INSTANCE (@Peer Hub)).
Implicit Types (d : Hub) (p : @Peer Hub) (h : Heap) (o : MQTT_CLIENT_OPTIONS) (s : @Setting U P).

(** A head alone. *)
Lemma alone (l : entries) q : l !! q = Some (mkEntry (Some q) (Some q)) → dlist l q [].
Proof.
  intros E. split; [apply NoDup_singleton|]. split; [|done]. unfold joined, fl, bl. by rewrite E.
Qed.

Definition heads : entries :=
  <[pub_ack_waiting_queue := mkEntry (Some pub_ack_waiting_queue) (Some pub_ack_waiting_queue)]>
    (<[sub_ack_waiting_queue := mkEntry (Some sub_ack_waiting_queue) (Some sub_ack_waiting_queue)]> ∅).

Lemma empty_links_heads : empty_links = Some heads.
Proof. by vm_compute. Qed.

Lemma empty_queued d : queued (set_queues heads ∅ ∅ d) [] [] [].
Proof.
  split; cbn [set_queues links pub_infos sub_infos fmap list_fmap app].
  - by apply alone.
  - by apply alone.
  - apply NoDup_cons. split; [by intros [=]%list_elem_of_singleton|apply NoDup_singleton].
  - intros a. unfold heads. rewrite <- elem_of_dom, !dom_insert, dom_empty. set_solver.
  - intros a i. rewrite lookup_empty. set_solver.
  - intros a i. rewrite lookup_empty. set_solver.
Qed.

Variable persistInterDesc : option (PERSIST_INTERFACE_DESCRIPTION P).
Variable note : U → Pub * MQTT_PUB_STATUS_TYPE → U.
Variable subCallback : Sub → option (list Z) → Client unit.
Variable recvCallback : MQTT_MESSAGE → Client unit.

Lemma wp_CreateRetryLogic policy limit (Q : option RETRY_LOGIC → Heap → Prop) h :
  (∀ r h', used (match r with Some _ => 1 | None => 0 end) h h' → Q r h') → wp (CreateRetryLogic policy limit) Q h.
Proof. intros HQ. apply wp_bind, wp_malloc_struct; intros h' Hu; [|intros _]; by apply wp_ret, HQ. Qed.

Lemma wp_DestroyRetryLogic r (Q : unit → Heap → Prop) h :
  (∀ h', used (match r with Some _ => -1 | None => 0 end) h h' → Q tt h') → wp (DestroyRetryLogic r) Q h.
Proof. intros HQ. destruct r; [by apply wp_free_struct|]. apply wp_ret, HQ, used_refl. Qed.

(** The MQTT client of a new hub client. *)
Lemma wp_client_init e d (Q : option Codec → Heap → Prop) h :
  (∀ c h', used 3 h h' → env (callContext c) = e → wire (callContext c) = [] → headerData c = None →
     client (callContext c) = mkClient false UNKNOWN_TYPE 0 false DELIVER_AT_MOST_ONCE 0 no_options
       false false 0 DEFAULT_MAX_PING_RESPONSE_TIME → Q (Some c) h') →
  (∀ h', used 0 h h' → Q None h') →
  wp (mqtt_client_init (operation_callback persistInterDesc (tell_pub note) subCallback)
        (receive_callback recvCallback) (error_callback persistInterDesc (tell_pub note) subCallback)
        no_disconnect_callback e d) Q h.
Proof.
  intros HS HN. apply wp_bind, wp_malloc_struct; intros h1 Hu1; [|intros _; by apply wp_ret, HN].
  apply wp_bind, wp_malloc_struct; intros h2 Hu2; [|intros _].
  2:{ apply wp_bind, wp_free_struct. intros h3 Hu3. apply wp_ret, HN. account. }
  apply wp_bind, wp_bind, wp_malloc_struct; intros h3 Hu3; [|intros _]; apply wp_ret.
  - apply wp_ret, HS; [account|done..].
  - apply wp_bind, wp_free_struct. intros h4 Hu4. apply wp_bind, wp_free_struct. intros h5 Hu5.
    apply wp_ret, HN. account.
Qed.

Lemma wp_deinit (c : Codec) (Q : unit → Heap → Prop) h :
  headerData c = None → mqttOptions (client (callContext c)) = no_options →
  (∀ h', used (-3) h h' → Q tt h') → wp (mqtt_client_deinit (Some c)) Q h.
Proof.
  intros Eh Eo HQ. apply wp_bind, wp_free_struct; intros h1 Hu1.
  apply wp_bind. cbn [mqtt_codec_destroy]. rewrite Eh. apply wp_bind, wp_ret, wp_free_struct; intros h2 Hu2. rewrite Eo.
  do 5 (apply wp_bind, wp_free; intros ? ?). apply wp_free_struct. intros hf Hf. apply HQ.
  cbn [no_options clientId willTopic willMessage username password] in *. account.
Qed.

(** The number of blocks of a client without publications. *)
Definition hub_blocks o (r : option RETRY_LOGIC) : Z :=
  6 + options_blocks o + match r with Some _ => 1 | None => 0 end.

(** A client as it is created. *)
Record newborn o s p : Prop := {
  newborn_holds : holds p [] [];
  newborn_id : packetId (user p) = 0;
  newborn_app : application (user p) = setting_app s;
  newborn_wire : wire p = [];
  newborn_options : options (user p) = o }.

Lemma wp_created o endpoint type policy limit s (Q : option Codec → Heap → Prop) h :
  is_Some (clientId o) → Forall (λ x, x ≠ SendCompleted IO_SEND_ERROR) (sendings (setting_env s)) →
  (∀ c h', newborn o s (callContext c) → used (hub_blocks o (retryLogic (user (callContext c)))) h h' →
     Q (Some c) h') →
  (∀ h', used 0 h h' → Q None h') →
  wp (initialize_mqtt_client_handle persistInterDesc (tell_pub note) subCallback recvCallback
        o endpoint type policy limit s) Q h.
Proof.
  intros [id Eid] Hs HS HN. apply wp_bind, wp_malloc_struct; intros h1 Hu1; [|intros _; by apply wp_ret, HN].
  rewrite Eid. apply wp_bind, wp_malloc_struct; intros h2 Hu2; [|intros _].
  2:{ apply wp_bind, wp_free_struct. intros h3 Hu3. apply wp_ret, HN. account. }
  apply wp_bind, wp_CloneMqttOptions; intros h3 Hu3.
  2:{ do 2 (apply wp_bind, wp_free_struct; intros ? ?). apply wp_ret, HN. account. }
  apply wp_bind, wp_mallocAndStrcpy_s; intros h4 Hu4; [|intros _].
  2:{ apply wp_bind, wp_free_struct; intros h5 Hu5. apply wp_bind, wp_ClearMqttOptions; intros h6 Hu6.
      apply wp_bind, wp_free_struct; intros h7 Hu7. apply wp_ret, HN. account. }
  apply wp_bind. eapply wp_lift; [apply empty_links_heads|].
  set (d := mkHub _ _ _ _ _ _ _ _ _ _ _ _ _ _ _ _ _ _ _ _ _ _).
  apply wp_bind, wp_client_init.
  2:{ intros h5 Hu5. apply wp_bind, wp_free_struct; intros h6 Hu6. apply wp_bind, wp_ClearMqttOptions; intros h7 Hu7.
      apply wp_bind, wp_free; intros h8 Hu8. apply wp_bind, wp_free_struct; intros h9 Hu9. apply wp_ret, HN. account. }
  intros c h5 Hu5 Ee Ew Eh Ec.
  apply wp_bind, wp_CreateRetryLogic. intros r h6 Hu6.
  assert (∀ (x : P), newborn o s (mkPeer (client (callContext c)) (env (callContext c)) (wire (callContext c))
    (set_persistHandle x (set_retryLogic r d)))) as Hnew.
  { intros x. split; [|done|done|exact Ew|done]. split; [by split; cbn [env client]; rewrite ?Ee, ?Ec| |done].
    eapply queued_same; [..|apply (empty_queued d)]; done. }
  assert (used (hub_blocks o r) h h6) as Hu by (unfold hub_blocks; account).
  destruct persistInterDesc as [itf|]; [destruct (setting_storage s) as [storage|]|].
  - apply wp_ret, HS; [apply Hnew|done].
  - apply wp_bind, wp_free; intros h7 Hu7. apply wp_bind, wp_ClearMqttOptions; intros h8 Hu8.
    apply wp_bind, wp_deinit; [done|by rewrite Ec|]. intros h9 Hu9. apply wp_bind, wp_free_struct; intros h10 Hu10.
    apply wp_bind, wp_DestroyRetryLogic; intros h11 Hu11. apply wp_bind, wp_free_struct; intros h12 Hu12.
    apply wp_ret, HN. clear Hnew. unfold hub_blocks in Hu. destruct r; account.
  - apply wp_ret, HS; [apply (Hnew (setting_no_storage s))|done].
Qed.

(** ** Series of operations *)

Fixpoint run_ops (ops : list (HubOp Pub)) : Client (list status) :=
  match ops with
  | [] => mret []
  | op :: ops =>
      r ← run_op persistInterDesc note subCallback op;
      rs ← run_ops ops;
      mret (r :: rs)
  end.

(** From the client [p] to [p'] the operations [ops] returned [rs], told the
    application [ns], and called the transport for [ws]. *)
Record ran p h (q : list (positive * Publication Pub)) (ops : list (HubOp Pub)) (rs : list status) p' h'
    (q' : list (positive * Publication Pub)) (ns : list (Pub * MQTT_PUB_STATUS_TYPE)) (ws : list Wire) : Prop := {
  ran_holds : holds p' q' [];
  ran_run : hub_run (packetId (user p)) q.*2 ops rs (packetId (user p')) q'.*2 ns ws;
  ran_app : application (user p') = foldl note (application (user p)) ns;
  ran_wire : wire p' = wire p ++ ws;
  ran_memory : used (pending_blocks q'.*2 - pending_blocks q.*2) h h' }.

Lemma run_refines p h q ops :
  holds p q [] → Forall op_ok ops →
  wp (run_ops ops) (λ rs '(p', h'), ∃ q' ns ws, ran p h q ops rs p' h' q' ns ws) (p, h).
Proof.
  intros Hq Hops. revert p h q Hq. induction Hops as [|op ops Hop Hops IH]; intros p h q Hq.
  { apply wp_ret. exists q, [], []. split; [done|constructor|done|by rewrite app_nil_r|].
    rewrite Z.sub_diag. apply used_refl. }
  apply wp_bind. eapply wp_mono; [by apply op_refines|].
  intros r [p1 h1] (Ei & q1 & ns1 & ws1 & Hq1 & Hs & Ha1 & Hw1 & Hu1).
  apply wp_bind. eapply wp_mono; [by apply (IH p1 h1 q1)|].
  intros rs [p2 h2] (q2 & ns2 & ws2 & [Hq2 Hr Ha2 Hw2 Hu2]). apply wp_ret.
  exists q2, (ns1 ++ ns2), (ws1 ++ ws2). split; [done| | | |].
  - rewrite Ei in Hr. by econstructor.
  - by rewrite foldl_app, <- Ha1.
  - by rewrite Hw2, Hw1, app_assoc.
  - eapply used_trans; [exact Hu1|exact Hu2|lia].
Qed.
End setup.
