(* ===== verification/IotHubProperties.v ===== *)
(** * IotHubProperties: the properties of the IoT hub client. *)
From S2P Require Import Prelude.
From stdpp Require Import gmap.
From S2P Require Import Effects.
From S2P Require Import Alloc.
From S2P Require Import DoublyLinkedList.
From S2P Require Import MqttCodec.
From S2P Require Import MqttDecoder.
From S2P Require Import MqttMessage.
From S2P Require Import MqttClient.
From S2P Require Import MqttClientTheory.
From S2P Require Import RetryLogic.
From S2P Require Import IotHubClient.
From S2P Require Import IotHubTheory.
From S2P Require Import IotHubSetup.
#[local] Open Scope Z_scope.

Section hub.
Context `{Arch} {U P Pub Sub : Type}.
#[warnings="-notation-for-abbreviation"] Notation Hub := (@IOTHUB_MQTT_CLIENT U P Pub Sub).
#[warnings="-notation-for-abbreviation"] Notation Client := (ST (@Peer Hub * Heap)).
#[warnings="-notation-for-abbreviation"] Notation Codec := (MQTTCODEC_INSTANCE (@Peer Hub)).
Implicit Types (d : Hub) (p : @Peer Hub) (h : Heap) (a : positive).

Variable persistInterDesc : option (PERSIST_INTERFACE_DESCRIPTION P).
Variable note : U → Pub * MQTT_PUB_STATUS_TYPE → U.
Variable subCallback : Sub → option (list Z) → Client unit.
Variable recvCallback : MQTT_MESSAGE → Client unit.

(** ** Freed entries *)

Lemma removed_none (l : entries) a : l !! a = None → DList_RemoveEntryList l (Some a) = None.
Proof. intros E. unfold DList_RemoveEntryList, get_Flink. rewrite bind_ret, E. done. Qed.

(** The structure is freed, then its entry is taken out of the queue. *)
Lemma free_then_remove {X} a (f : unit → Client X) s : (free_entry a;; d ← remove_entry a; f d) s = None.
Proof.
  destruct s as [p h]. rewrite st_bind_eq.
  destruct (wp_alloc free_struct (λ _ s, links (user s.1) = delete a (links (user p)))
    (with_hub (set_queues (delete a (links (user p))) (delete a (pub_infos (user p)))
       (delete a (sub_infos (user p))) (user p)) p) h) as ([] & [p1 h1] & E & El).
  { by apply wp_free_struct. }
  assert (free_entry a (p, h) = Some (tt, (p1, h1))) as -> by exact E.
  rewrite bind_ret, st_bind_eq. unfold remove_entry, change_links. rewrite st_bind_eq. cbn [fst] in El |- *.
  change (hub (p1, h1)) with (Some (user p1, (p1, h1))).
  rewrite bind_ret, st_lift_bind, El, removed_none by apply lookup_delete_eq. done.
Qed.


Lemma notify_subs_first n pubs a i subs p h :
  queued (user p) pubs ((a, i) :: subs) [] → notify_subs subCallback n (Some a) (p, h) = None.
Proof.
  intros Hq. assert (a ≠ sub_ack_waiting_queue) as Hne.
  { intros ->. pose proof (dlist_nodup _ _ _ (queued_subs _ _ _ _ Hq)) as [[] _]%NoDup_cons. by left. }
  destruct n as [|n]; cbn [notify_subs]; rewrite decide_False by (by intros [= ->]); [done|].
  rewrite st_lift_bind, bind_ret, st_bind_eq. change (hub (p, h)) with (Some (user p, (p, h))).
  rewrite bind_ret, st_lift_bind.
  rewrite (proj2 (queued_sub_infos _ _ _ _ Hq a i)) by (by left). rewrite bind_ret, st_bind_eq.
  destruct (read_links _ _) as [[next s]|]; [rewrite bind_ret, st_bind_eq|done].
  destruct (subCallback _ _ s) as [[[] s1]|]; [rewrite bind_ret|done].
  apply free_then_remove.
Qed.

(** C27: An error of the MQTT client is handled without undefined behaviour exactly
    when no subscription waits for its acknowledgement: otherwise the structure of
    the first one is freed and then its entry followed.  This does not depend on
    what the callback of the application does. *)
Theorem error_defined_iff p h q subs e :
  holds p q subs →
  is_Some (OnMqttErrorComplete persistInterDesc (tell_pub note) subCallback e (p, h)) ↔ subs = [].
Proof.
  intros Hp. split.
  - intros [s Es]. destruct subs as [|[a i] subs]; [done|].
    destruct Hp as [_ Hq _]. set (d := set_isConnectionLost true (set_mqttClientStatus MQTT_CLIENT_STATUS_NOT_CONNECTED (user p))).
    assert (queued d (entry_of <$> q) ((a, i) :: subs) []) as Hq1 by by eapply queued_same; [..|exact Hq].
    assert (NotifySubscribeAckFailure subCallback (with_hub d p, h) = None) as E.
    { unfold NotifySubscribeAckFailure. rewrite st_bind_eq.
      change (hub (with_hub d p, h)) with (Some (d, (with_hub d p, h))). rewrite bind_ret, st_bind_eq.
      destruct (wp_read_links (λ l, get_Flink l (Some sub_ack_waiting_queue)) (Some a)
        (λ x s, x = Some a ∧ s = (with_hub d p, h)) (with_hub d p) h) as (x & s1 & -> & -> & ->); [|done|].
      { exact (dlist_first _ _ _ (queued_subs _ _ _ _ Hq1)). }
      rewrite bind_ret. by eapply notify_subs_first. }
    assert (OnMqttErrorComplete persistInterDesc (tell_pub note) subCallback e (p, h) = None) as E2.
    { change (NotifySubscribeAckFailure subCallback (with_hub d p, h) ≫= (λ '(_, s),
        NotifyPublishAckFailure persistInterDesc (tell_pub note) s) = None). by rewrite E. }
    by rewrite E2 in Es.
  - intros ->. destruct (error_refines persistInterDesc note subCallback p h q e Hp) as (x & s & E & _).
    cbn [run_op] in E. rewrite st_bind_eq in E.
    destruct (OnMqttErrorComplete _ _ _ _ _); [done|discriminate E].
Qed.

(** ** The transport of a connection that is never acknowledged *)

(** The MQTT client refers to a transport but is not connected. *)
Record linked d p : Prop := {
  linked_xio : xioHandle (client p) = true;
  linked_client : clientConnected (client p) = false;
  linked_cb : disconnect_cb (client p) = false;
  linked_user : user p = d }.

Lemma wp_closed_linked d (Q : unit → @Peer Hub * Heap → Prop) p h :
  linked d p → (∀ p', linked d p' → Q tt (p', h)) →
  wp (on_connection_closed no_disconnect_callback) Q (p, h).
Proof.
  intros [Hx Hc Hd Hu] HQ. apply wp_bind, wp_modify, wp_bind, wp_modify, wp_bind, wp_get. cbn [client].
  change (disconnect_cb _) with (disconnect_cb (client p)). rewrite Hd. apply wp_ret, HQ. by split.
Qed.

Lemma wp_close_linked d (Q : unit → @Peer Hub * Heap → Prop) p h :
  linked d p → alive (env p) = true → (∀ p', linked d p' → Q tt (p', h)) →
  wp (close_connection no_disconnect_callback) Q (p, h).
Proof.
  intros Hp Ha HQ. apply wp_bind, wp_get. destruct (socketConnected _); cycle 1.
  { rewrite (linked_cb _ _ Hp). by apply wp_ret, HQ. }
  apply wp_bind. exists true, (p, h). split; [unfold use_xio; by rewrite (linked_xio _ _ Hp), Ha|].
  assert (∃ due p1, (log Closed;; next_closing) (p, h) = Some (due, (p1, h)) ∧ linked d p1) as (due & p1 & E & Hp1).
  { unfold next_closing. rewrite st_bind_eq. cbn [log]. unfold log. rewrite bind_ret. cbn [env].
    destruct Hp. destruct (closings (env p)) as [|x xs]; by eexists _, _. }
  apply wp_bind. exists due, (p1, h). split; [exact E|]. apply wp_bind.
  assert (∀ p2 n due, linked d p2 → wp (close_loop no_disconnect_callback (S n) due) Q (p2, h)) as Hloop.
  { clear -HQ. intros p2 n due Hp2. cbn [close_loop]. apply wp_bind. destruct (decide _).
    - apply (wp_closed_linked d); [done|]. intros p3 Hp3. apply wp_bind, wp_get. rewrite (linked_client _ _ Hp3).
      by apply wp_ret, HQ.
    - apply wp_ret, wp_bind, wp_get. rewrite (linked_client _ _ Hp2). by apply wp_ret, HQ. }
  assert (∀ p2, linked d p2 → wp (c ← get; if disconnect_cb c then mret tt
    else close_loop no_disconnect_callback MAX_CLOSE_RETRIES due) Q (p2, h)) as Hend.
  { intros p2 Hp2. apply wp_bind, wp_get. rewrite (linked_cb _ _ Hp2). by apply Hloop. }
  destruct (decide _); [apply (wp_closed_linked d); [done|exact Hend]|by apply wp_ret, Hend].
Qed.

(** The transport is destroyed, the MQTT client still refers to it. *)
Record dangling d p : Prop := { dangling_linked : linked d p; dangling_dead : alive (env p) = false }.

Definition given_up d : Hub := set_mqttClientStatus MQTT_CLIENT_STATUS_NOT_CONNECTED (set_xioTransport false d).

Lemma wp_disconnect_linked d (Q : unit → @Peer Hub * Heap → Prop) p h :
  linked d p → mqttClient d = true → xioTransport d = true → alive (env p) = true →
  (∀ p' h', dangling (given_up d) p' → Q tt (p', h')) →
  wp (DisconnectFromClient persistInterDesc (tell_pub note) subCallback) Q (p, h).
Proof.
  intros Hp Hm Hx Ha HQ. apply wp_bind, wp_bind, wp_hub. rewrite (linked_user _ _ Hp), Hm.
  apply wp_bind, wp_get. rewrite (linked_client _ _ Hp). apply wp_bind, wp_modify, wp_bind.
  apply (wp_close_linked d); [by destruct Hp|done|]. intros p1 Hp1.
  apply wp_bind, wp_bind, wp_get, wp_bind, wp_alloc.
  do 5 (try apply wp_bind; apply wp_free; intros ? _). apply wp_modify, wp_ret.
  apply wp_bind, wp_bind, wp_hub. cbn [user]. rewrite (linked_user _ _ Hp1), Hx.
  eexists tt, _. split; [done|]. apply wp_bind, wp_modify_hub, wp_modify_hub, HQ. cbn [user with_hub].
  destruct Hp1. by split; [split; cbn; try done; f_equal|].
Qed.

Lemma wp_on_client {X} (f : Client X) (Q : X → Codec * Heap → Prop) c h :
  wp f (λ x '(p, h'), Q x (set_callContext p c, h')) (callContext c, h) → wp (on_client f) Q (c, h).
Proof.
  intros (x & [p1 h1] & E & HQ). exists x, (set_callContext p1 c, h1). split; [|done].
  unfold on_client. by rewrite E.
Qed.

#[warnings="-notation-for-abbreviation"] #[local] Notation connection := (initialize_mqtt_connection persistInterDesc (tell_pub note) subCallback recvCallback).
#[warnings="-notation-for-abbreviation"] #[local] Notation dowork := (iothub_mqtt_dowork persistInterDesc (tell_pub note) subCallback recvCallback).

(** A client that waits for the CONNACK and whose keep-alive interval is over. *)
Record overdue d p : Prop := {
  overdue_linked : linked d p;
  overdue_alive : alive (env p) = true;
  overdue_mqtt : mqttClient d = true;
  overdue_transport : xioTransport d = true;
  overdue_status : mqttClientStatus d = MQTT_CLIENT_STATUS_CONNECTING;
  overdue_destroy : isDestroyCalled d = false;
  overdue_persist : needPublishPersistMsg d = false;
  overdue_tick : ∃ t ts, ticks (env p) = Some t :: ts ∧
    keepAliveInterval (options d) < seconds t (mqtt_connect_time d) }.

Lemma wp_overdue events d (Q : unit → Codec * Heap → Prop) c h :
  overdue d (callContext c) →
  (∀ c' h', dangling (given_up d) (callContext c') → Q tt (c', h')) → wp (dowork events) Q (c, h).
Proof.
  intros [Hp Ha Hm Hx Hs Hde _ (t & ts & Et & Hlate)] HQ.
  apply wp_bind, wp_bind, wp_on_client, wp_hub. rewrite (linked_user _ _ Hp), Hde.
  rewrite Hs. rewrite bool_decide_false by done. rewrite andb_false_r.
  apply wp_bind, wp_ret, wp_bind, wp_on_client, wp_hub.
  change (user (callContext (set_callContext _ _))) with (user (callContext c)). rewrite (linked_user _ _ Hp), Hs.
  apply wp_bind, wp_on_client. eapply wp_tick; [exact Et|]. cbv beta match. rewrite (proj2 (Z.ltb_lt _ _)) by done.
  apply wp_bind, wp_on_client. cbn [callContext set_callContext].
  apply (wp_disconnect_linked d); [destruct Hp; by split|done|done|done|].
  intros p' h' Hp'. apply wp_ret, wp_ret, HQ. exact Hp'.
Qed.

(** No attempt is allowed now. *)
Lemma wp_waits d (Q : status → Codec * Heap → Prop) c h r k :
  dangling d (callContext c) → isDestroyCalled d = false →
  mqttClientStatus d = MQTT_CLIENT_STATUS_NOT_CONNECTED →
  CanRetry (retryLogic d) (clock d) = Some ((false, r), k) →
  (∀ d' c', dangling d' (callContext c') → mqttClient d' = mqttClient d →
     needPublishPersistMsg d' = needPublishPersistMsg d → Q OK (c', h)) →
  wp connection Q (c, h).
Proof.
  intros Hp Hde Hs Hr HQ. apply wp_bind, wp_on_client, wp_hub. rewrite (linked_user _ _ (dangling_linked _ _ Hp)), Hde.
  rewrite Hs, bool_decide_true, andb_true_r by done.
  destruct (isDisconnectCalled d); cbn [negb].
  - apply wp_bind, wp_ret, wp_bind, wp_on_client, wp_hub.
    change (user _) with (user (callContext c)). rewrite (linked_user _ _ (dangling_linked _ _ Hp)), Hs.
    by apply wp_ret, (HQ d).
  - apply wp_bind, wp_bind, wp_on_client, wp_bind, wp_hub, wp_bind.
    change (user _) with (user (callContext c)). rewrite (linked_user _ _ (dangling_linked _ _ Hp)).
    exists ((false, r), k), (callContext c, h). split; [unfold lift; by rewrite Hr|].
    apply wp_bind, wp_modify_hub, wp_ret, wp_bind, wp_on_client, wp_modify_hub, wp_ret.
    apply wp_bind, wp_on_client, wp_hub.
    set (p1 := with_hub _ _).
    assert (user p1 = set_retryLogic r (set_clock k d)) as Eu.
    { unfold p1. cbn. by rewrite (linked_user _ _ (dangling_linked _ _ Hp)). }
    change (user (callContext (set_callContext p1 _))) with (user p1).
    assert (mqttClientStatus (user p1) = MQTT_CLIENT_STATUS_NOT_CONNECTED) as -> by by rewrite Eu.
    apply wp_ret. apply (HQ (user p1)); [|by rewrite Eu..].
    destruct Hp as [[] ?]. by split; [split|].
Qed.

(** When the broker does not answer CONNECT in time, the client destroys the
    transport although its MQTT client still refers to it: unless the retry logic
    then allows a new attempt at once, giving the client time again follows the
    dangling reference. *)
Theorem connack_timeout_dangles d c h r k events later :
  overdue d (callContext c) → CanRetry (retryLogic d) (clock d) = Some ((false, r), k) →
  wp (dowork events) (λ _ '(c', h'), dowork later (c', h') = None) (c, h).
Proof.
  intros Hc Hr. pose proof Hc as [_ _ Hm _ _ Hde Hn _].
  apply (wp_overdue events d); [done|]. intros c1 h1 Hc1.
  destruct (wp_waits (given_up d) (λ x '(c2, h2), x = OK ∧ ∃ d', dangling d' (callContext c2) ∧ mqttClient d' = true ∧
    needPublishPersistMsg d' = false) c1 h1 r k) as (x & [c2 h2] & E & -> & d' & Hd' & Hm' & Hn'); [done..| |].
  { intros d' c' Hd' Em En. split; [done|]. exists d'. by rewrite Em, En. }
  pose proof (linked_user _ _ (dangling_linked _ _ Hd')) as Eu.
  unfold iothub_mqtt_dowork. rewrite st_bind_eq, E, bind_ret, st_bind_eq.
  destruct (wp_on_client (publish_persisted persistInterDesc (tell_pub note) subCallback)
    (λ _ s, s = (set_callContext (callContext c2) c2, h2)) c2 h2) as (x & s & -> & ->).
  { apply wp_bind, wp_hub. rewrite Eu, Hn'. by apply wp_ret. }
  rewrite bind_ret, st_bind_eq. set (c3 := set_callContext _ _).
  destruct (wp_on_client hub (λ x s, x = d' ∧ s = (set_callContext (callContext c3) c3, h2)) c3 h2)
    as (y & s & -> & -> & ->). { by apply wp_hub. }
  rewrite bind_ret, Hm'. unfold mqtt_client_dowork. rewrite st_bind_eq.
  assert (on_client use_xio (set_callContext (callContext c3) c3, h2) = None) as ->; [|done].
  unfold on_client, use_xio. cbn [c3 callContext set_callContext].
  by rewrite (linked_xio _ _ (dangling_linked _ _ Hd')), (dangling_dead _ _ Hd').
Qed.

(** ** Publications *)


(** C25: The callback of a publication is called at most once, however
    acknowledgements, errors and publications follow each other: the callbacks that
    were called, those of the pending publications and some of the publications that
    were refused are together all callbacks ever given.  The pending publications
    have different identifiers as long as at most 65534 were taken, so that an
    acknowledgement completes the publication it belongs to. *)
Theorem callbacks_once p h q ops :
  holds p q [] → Forall op_ok ops →
  wp (run_ops persistInterDesc note subCallback ops)
    (λ rs '(p', h'), ∃ pending told dropped,
      holds p' pending [] ∧ application (user p') = foldl note (application (user p)) told ∧
      told.*1 ++ (p_callback <$> pending.*2) ++ dropped ≡ₚ (p_callback <$> q.*2) ++ (ops ≫= given) ∧
      dropped ⊆+ refused ops rs ∧
      (q = [] → Z.of_nat (taken ops) <= 65534 → NoDup (p_id <$> pending.*2))) (p, h).
Proof.
  intros Hq Hops. eapply wp_mono; [by apply run_refines|].
  intros rs [p' h'] (q' & ns & ws & [Hq' Hr Ha _ _]).
  destruct (hub_run_told _ _ _ _ _ _ _ _ Hr) as (dropped & Hd & Hsub).
  exists q', ns, dropped. split_and!; [done..|]. intros -> Hn.
  eapply sublist_NoDup; [|exact (hub_run_ids _ _ _ _ _ _ _ _ [] Hr (sublist_nil_l _))].
  apply ids_nodup; [apply Hq|done].
Qed.
End hub.

(** ** Attempts to connect *)

Section retry.
Context `{Arch}.

(** C26: The attempts to connect keep the distance of an exponential back-off and the
    limit of the whole series, for every clock that runs forward less than eight
    years; after the limit nothing is tried any more, and before it an attempt is made
    at the latest when the longest delay of the policy is over. *)
Theorem back_off r t0 last calls :
  ready r → 0 <= t0 → ticking t0 last calls → last - t0 < half 30 →
  ∃ ts r', course r calls = Some (ts, r') ∧ spaced ts ∧ limited r' ts ∧
    if retryExpired r' then
      ∀ last' calls', 0 <= start r' → ticking last last' calls' → course r' calls' = Some ([], r')
    else
      ∀ now later x, firstAttempt r' = false → retryStarted r' = true → 0 <= x → 0 <= now →
        lastConnect r' + Z.max 6 (2 * half (Z.of_nat (length ts))) <= now →
        ∃ ok r2, ask r' (now, later, x) = Some (ok, r2) ∧ (ok = true ∨ retryExpired r2 = true).
Proof.
  intros Hr Ht Hc Hl. pose proof (ticking_last _ _ _ Hc).
  destruct (course_series r [] t0 t0 last calls) as (ts & r' & E & Hsp & Hli & Hs);
    [by apply ready_series|done|lia|done|done|].
  exists ts, r'. split; [done|]. split; [done|]. split; [done|]. destruct (retryExpired r') eqn:He.
  - intros last' calls' Hst Hc'. eapply course_expired; [done|done| |exact Hc']. lia.
  - destruct (Hs eq_refl) as [Hser Hin]. intros now later x Hf Hst Hx Hnow Hdue.
    eapply ask_due; [exact Hser|done|done| |done|done|by rewrite (series_count _ _ Hser)].
    eapply spaced_short; [exact Hsp|exact Hin|done].
Qed.
End retry.

(** ** Instances *)

(** A client that keeps what it is told, without storage, on a machine with 64 bits. *)
Definition keep (l : list (nat * MQTT_PUB_STATUS_TYPE)) (x : nat * MQTT_PUB_STATUS_TYPE) := l ++ [x].
#[warnings="-notation-for-abbreviation"] #[local] Notation ExampleHub :=
  (@IOTHUB_MQTT_CLIENT (list (nat * MQTT_PUB_STATUS_TYPE)) unit nat nat).
Definition silent_sub : nat → option (list Z) → ST (@Peer ExampleHub * Heap) unit := λ _ _, mret tt.
Definition silent_recv : MQTT_MESSAGE → ST (@Peer ExampleHub * Heap) unit := λ _, mret tt.
Definition example_options : MQTT_CLIENT_OPTIONS :=
  {| clientId := Some [99]; willTopic := None; willMessage := None; username := None; password := None;
     keepAliveInterval := 10; messageRetain := false; useCleanSession := true; qualityOfServiceValue := 0 |}.
Definition example_ops : list (HubOp nat) :=
  [Publish 1 [116] [1; 2] (Some 7%nat); Publish 0 [116] [] None; Acknowledged 1;
   ConnectionError MQTT_CLIENT_CONNECTION_ERROR].

(** [status], [retry] and the transport of a client that has no publications. *)
Definition example_hub (status : MQTT_CLIENT_STATUS) (retry : option RETRY_LOGIC) (l : entries)
    (subs : gmap positive (@MQTT_SUB_CALLBACK_INFO nat)) : ExampleHub :=
  mkHub example_options MQTT_CONNECTION_TCP true true 5 status false false false true 0 0 0 retry l ∅ subs false
    tt (mkClock [1011] []) [] [].
Definition example_peer (ts : list (option Z)) (d : ExampleHub) : @Peer ExampleHub :=
  mkPeer (mkClient true CONNECT_TYPE 0 false 0 10 no_options false true 0 10) (mkEnv ts [] [] [] true) [] d.
Definition example_heap : Heap := {| allocs := []; live := 0 |}.

(** A subscription waits in the structure at address 3. *)
Definition one_subscription : entries :=
  <[1%positive := mkEntry (Some 1%positive) (Some 1%positive)]>
    (<[2%positive := mkEntry (Some 3%positive) (Some 3%positive)]>
      (<[3%positive := mkEntry (Some 2%positive) (Some 2%positive)]> ∅)).
Definition subscribed_peer : @Peer ExampleHub :=
  example_peer [] (example_hub MQTT_CLIENT_STATUS_CONNECTED None one_subscription {[3%positive := mkSubInfo 5 0%nat]}).

Lemma subscribed_holds : @holds _ unit nat nat subscribed_peer [] [(3%positive, mkSubInfo 5 0%nat)].
Proof.
  split; [split; [constructor|done|done]| |done].
  split; cbn [example_peer subscribed_peer user example_hub links pub_infos sub_infos fmap list_fmap app fst].
  - by apply alone.
  - split; [by apply (bool_decide_unpack _)|by split; [|split]].
  - by apply (bool_decide_unpack _).
  - intros a. unfold one_subscription. rewrite <- elem_of_dom, !dom_insert, dom_empty. set_solver.
  - intros a i. rewrite lookup_empty. set_solver.
  - intros a i. rewrite lookup_singleton_Some, list_elem_of_singleton. naive_solver.
Qed.

Lemma error_defined_iff_witness :
  let run := @OnMqttErrorComplete _ unit nat nat None (tell_pub keep) silent_sub in
  run MQTT_CLIENT_CONNECTION_ERROR (subscribed_peer, example_heap) = None.
Proof.
  intros run. pose proof (@error_defined_iff lp64 _ unit nat nat None keep silent_sub subscribed_peer example_heap
    [] _ MQTT_CLIENT_CONNECTION_ERROR subscribed_holds) as [Hd _].
  destruct (run _ _) eqn:E; [|reflexivity]. discriminate Hd. eexists. exact E.
Defined.

(** The fifth attempt of a series, at 1000 s; the policy has set a delay of 40 s. *)
Definition example_retry : RETRY_LOGIC :=
  mkRetry IOTHUB_CLIENT_RETRY_EXPONENTIAL_BACKOFF_WITH_JITTER 0 (Some Exponential_BackOff_With_Jitter)
    900 1000 true false false 5 40.
Definition overdue_codec : MQTTCODEC_INSTANCE (@Peer ExampleHub) :=
  mkCodec UNKNOWN_TYPE CODEC_STATE_FIXED_HEADER 0 0 None None
    (example_peer [Some 11000] (example_hub MQTT_CLIENT_STATUS_CONNECTING (Some example_retry) heads ∅))
    (replicate 4 0) 0.

Lemma connack_timeout_dangles_witness :
  wp (@iothub_mqtt_dowork lp64 _ unit nat nat None (tell_pub keep) silent_sub silent_recv [])
    (λ _ '(c', h'), @iothub_mqtt_dowork lp64 _ unit nat nat None (tell_pub keep) silent_sub silent_recv [] (c', h') = None)
    (overdue_codec, example_heap).
Proof.
  apply (@connack_timeout_dangles lp64 _ unit nat nat None keep silent_sub silent_recv
    (example_hub MQTT_CLIENT_STATUS_CONNECTING (Some example_retry) heads ∅) overdue_codec example_heap
    (Some example_retry) (mkClock [] [])).
  - split; try reflexivity; [by split|]. exists 11000, []. split; [reflexivity|]. by vm_compute.
  - by vm_compute.
Defined.



Lemma callbacks_once_witness :
  wp (@run_ops lp64 _ unit nat nat None keep silent_sub example_ops)
    (λ rs '(p', h'), ∃ pending told dropped,
      holds p' pending [] ∧ application (user p') = foldl keep [] told ∧
      told.*1 ++ (p_callback <$> pending.*2) ++ dropped ≡ₚ [7%nat] ∧ dropped ⊆+ refused example_ops rs ∧
      NoDup (p_id <$> pending.*2))
    (example_peer [] (example_hub MQTT_CLIENT_STATUS_CONNECTED None heads ∅), example_heap).
Proof.
  eapply wp_mono; [apply (@callbacks_once lp64 _ unit nat nat None keep silent_sub
    (example_peer [] (example_hub MQTT_CLIENT_STATUS_CONNECTED None heads ∅)) example_heap [] example_ops)|].
  - split; [split; [constructor|done|done]| |done]. by apply (empty_queued (example_hub MQTT_CLIENT_STATUS_CONNECTED None heads ∅)).
  - repeat constructor; by vm_compute.
  - intros rs [p' h'] (q & ns & dropped & Hq & Ha & Hd & Hs & Hn). exists q, ns, dropped.
    split_and!; [done..|]. apply Hn; [done|]. by vm_compute.
Defined.

Lemma back_off_witness :
  let r := mkRetry IOTHUB_CLIENT_RETRY_EXPONENTIAL_BACKOFF_WITH_JITTER 3600 (Some Exponential_BackOff_With_Jitter)
    0 0 false false true 0 0 in
  ∃ ts r', @course lp64 r [(100, 100, 3); (103, 103, 1); (110, 111, 9); (120, 121, 4); (125, 130, 8)] = Some (ts, r') ∧
    spaced ts ∧ limited r' ts ∧ retryExpired r' = false.
Proof.
  intros r. destruct (@back_off lp64 r 100 130
    [(100, 100, 3); (103, 103, 1); (110, 111, 9); (120, 121, 4); (125, 130, 8)]) as (ts & r' & E & Hs & Hl & _).
  - by split.
  - lia.
  - cbn. lia.
  - by vm_compute.
  - exists ts, r'. split; [exact E|]. split; [exact Hs|]. split; [exact Hl|].
    vm_compute in E. injection E as _ <-. reflexivity.
Defined.
