(* ===== verification/Json.v ===== *)
(** * Json: the values the agent reads and writes, and how it reads them.

    The accessors of [src/parson/parson.c] on the tree of values; parsing and
    serialising text is left to that library.  Numbers are integers: the agent
    only reads numbers it converts to [int]. *)
From S2P Require Import Prelude.
From S2P Require Import CString.

Inductive JSON :=
  | JSONNull
  | JSONBoolean (b : bool)
  | JSONNumber (n : Z)
  | JSONString (s : list Z)
  | JSONArray (l : list JSON)
  | JSONObject (fields : list (list Z * JSON)).

Definition json_value_get_string (v : option JSON) : option (list Z) :=
  match v with Some (JSONString s) => Some s | _ => None end.
Definition json_value_get_number (v : option JSON) : Z :=
  match v with Some (JSONNumber n) => n | _ => 0 end.
Definition json_value_get_object (v : option JSON) : option (list (list Z * JSON)) :=
  match v with Some (JSONObject o) => Some o | _ => None end.
Definition json_value_get_array (v : option JSON) : option (list JSON) :=
  match v with Some (JSONArray l) => Some l | _ => None end.

(** The first field of that name. *)
Fixpoint json_object_nget_value (fields : list (list Z * JSON)) (name : list Z) : option JSON :=
  match fields with
  | [] => None
  | (n, v) :: fields => if strequal n name then Some v else json_object_nget_value fields name
  end.

(** The names the agent asks for have no dot, so that [dotget] is [get]. *)
Definition json_object_dotget_value (o : option (list (list Z * JSON))) (name : list Z)
    : option JSON :=
  fields ← o; json_object_nget_value fields name.

Definition json_object_dotget_string o name := json_value_get_string (json_object_dotget_value o name).
Definition json_object_dotget_number o name := json_value_get_number (json_object_dotget_value o name).
Definition json_object_dotget_object o name := json_value_get_object (json_object_dotget_value o name).
Definition json_object_dotget_array o name := json_value_get_array (json_object_dotget_value o name).

Definition json_array_get_count (a : option (list JSON)) : nat :=
  match a with Some l => length l | None => 0 end.
Definition json_array_get_object (a : option (list JSON)) (i : nat) : option (list (list Z * JSON)) :=
  json_value_get_object (l ← a; l !! i).
