(* ===== verification/Utils.v ===== *)
(** * Utils: the byte-order helpers of [iot_edge_agent/src/utils.c]
    ([dlt698_master.c] has its own copy of the 32-bit one), and the reading of
    integers from memory they are used with. *)
From S2P Require Import Prelude.

Definition reversebytes_uint32 (value : Z) : Z :=
  u32 (Z.lor (Z.lor (Z.lor (Z.shiftl (Z.land value 0x000000FF) 24)
    (Z.shiftl (Z.land value 0x0000FF00) 8))
    (Z.shiftr (Z.land value 0x00FF0000) 8))
    (Z.shiftr (Z.land value 0xFF000000) 24)).

Definition reversebytes_uint16 (value : Z) : Z :=
  u16 (Z.lor (Z.shiftl (Z.land value 0x00FF) 8) (Z.shiftr (Z.land value 0xFF00) 8)).

(** [memcpy] of an integer out of the memory at [ptr], on a little-endian host. *)
Definition load16 (ptr : list Z) : option Z :=
  b0 ← ptr !! 0%nat; b1 ← ptr !! 1%nat; Some (b0 + 256 * b1).

Definition load32 (ptr : list Z) : option Z :=
  b0 ← ptr !! 0%nat; b1 ← ptr !! 1%nat; b2 ← ptr !! 2%nat; b3 ← ptr !! 3%nat;
  Some (b0 + 256 * b1 + 65536 * b2 + 16777216 * b3).

(** The conversions to the signed types. *)
Definition int8 (z : Z) : Z := (z + 128) mod 256 - 128.
Definition int16 (z : Z) : Z := (z + 32768) mod 65536 - 32768.
Definition int32 (z : Z) : Z := (z + 2147483648) mod 4294967296 - 2147483648.

(** The mask of one byte. *)
Lemma land_byte x k :
  0 <= k → Z.land x (Z.shiftl 255 (8 * k)) = Z.shiftl ((x / 2 ^ (8 * k)) mod 256) (8 * k).
Proof.
  intros Hk. apply Z.bits_inj'. intros i Hi.
  rewrite Z.land_spec, !Z.shiftl_spec by done. change 255 with (Z.ones 8).
  change 256 with (2 ^ 8). destruct (Z.lt_ge_cases (i - 8 * k) 0).
  - rewrite (Z.testbit_neg_r (Z.ones 8)), (Z.testbit_neg_r (_ mod _)) by lia.
    apply andb_false_r.
  - rewrite Z.testbit_mod_pow2, Z.div_pow2_bits by lia.
    replace (i - 8 * k + 8 * k) with i by lia. rewrite andb_comm.
    destruct (Z.ltb_spec (i - 8 * k) 8).
    + by rewrite Z.ones_spec_low by lia.
    + by rewrite Z.ones_spec_high by lia.
Qed.

Lemma reversebytes_uint16_spec b0 b1 :
  is_u8 b0 → is_u8 b1 → reversebytes_uint16 (b0 + 256 * b1) = 256 * b0 + b1.
Proof.
  intros H0 H1. unfold reversebytes_uint16.
  pose proof (land_byte (b0 + 256 * b1) 0 ltac:(lia)) as E0.
  pose proof (land_byte (b0 + 256 * b1) 1 ltac:(lia)) as E1.
  change (Z.shiftl 255 (8 * 0)) with 0x00FF in E0. change (Z.shiftl 255 (8 * 1)) with 0xFF00 in E1.
  rewrite E0, E1. change (8 * 0) with 0. change (8 * 1) with 8.
  rewrite Z.shiftl_0_r, Z.shiftr_shiftl_l by lia. rewrite Z.sub_diag, Z.shiftl_0_r.
  change (2 ^ 0) with 1. change (2 ^ 8) with 256.
  rewrite Z.shiftl_mul_pow2 by lia. rewrite (lor_disjoint _ _ 8) by ulia.
  change (2 ^ 8) with 256. ulia.
Qed.

(** A big-endian word in memory, loaded by the little-endian host and reversed. *)
Lemma reversebytes_uint32_spec b0 b1 b2 b3 :
  is_u8 b0 → is_u8 b1 → is_u8 b2 → is_u8 b3 →
  reversebytes_uint32 (b0 + 256 * b1 + 65536 * b2 + 16777216 * b3) =
  16777216 * b0 + 65536 * b1 + 256 * b2 + b3.
Proof.
  intros H0 H1 H2 H3. unfold reversebytes_uint32.
  set (x := b0 + 256 * b1 + 65536 * b2 + 16777216 * b3).
  pose proof (land_byte x 0 ltac:(lia)) as E0. pose proof (land_byte x 1 ltac:(lia)) as E1.
  pose proof (land_byte x 2 ltac:(lia)) as E2. pose proof (land_byte x 3 ltac:(lia)) as E3.
  change (Z.shiftl 255 (8 * 0)) with 0x000000FF in E0.
  change (Z.shiftl 255 (8 * 1)) with 0x0000FF00 in E1.
  change (Z.shiftl 255 (8 * 2)) with 0x00FF0000 in E2.
  change (Z.shiftl 255 (8 * 3)) with 0xFF000000 in E3.
  rewrite E0, E1, E2, E3. change (8 * 0) with 0. change (8 * 1) with 8.
  change (8 * 2) with 16. change (8 * 3) with 24.
  change (2 ^ 0) with 1. change (2 ^ 8) with 256. change (2 ^ 16) with 65536.
  change (2 ^ 24) with 16777216.
  replace ((x / 1) mod 256) with b0 by (unfold x; ulia).
  replace ((x / 256) mod 256) with b1 by (unfold x; ulia).
  replace ((x / 65536) mod 256) with b2 by (unfold x; ulia).
  replace ((x / 16777216) mod 256) with b3 by (unfold x; ulia).
  rewrite Z.shiftl_0_r, Z.shiftl_shiftl, !Z.shiftr_shiftl_l by lia.
  change (8 + 8) with 16. change (16 - 8) with 8. change (24 - 24) with 0.
  rewrite Z.shiftl_0_r, <- !Z.lor_assoc, !Z.shiftl_mul_pow2 by lia.
  rewrite (lor_disjoint b2 b3 8) by (unfold is_u8 in *; lia). change (2 ^ 8) with 256.
  rewrite (lor_disjoint b1 _ 16) by (unfold is_u8 in *; lia). change (2 ^ 16) with 65536.
  rewrite (lor_disjoint b0 _ 24) by (unfold is_u8 in *; lia). change (2 ^ 24) with 16777216.
  ulia.
Qed.
