(* ===== verification/Printf.v ===== *)
(** * Printf: the numbers in the texts the agent publishes.

    The formats [%ld] and [%.2lf] of the C library, and the quotient of two
    integers as a double.  A double is [mantissa * 2 ^ exponent]; the quotients
    here are of 16-bit numbers, far from overflow and from the subnormals, so that
    the division of IEEE 754 is the nearest number with a mantissa of 53 bits. *)
From S2P Require Import Prelude.

(** ** Integers *)

(** The decimal digits of [n], in front of [acc]. *)
Fixpoint digits (fuel : nat) (n : Z) (acc : list Z) : list Z :=
  match fuel with
  | O => acc
  | S fuel =>
      let acc := (48 + n mod 10) :: acc in
      if n <? 10 then acc else digits fuel (n / 10) acc
  end.

(** [%ld]; [S (log2 n)] digits are enough. *)
Definition dec (n : Z) : list Z :=
  let d := digits (S (Z.to_nat (Z.log2 (Z.abs n)))) (Z.abs n) [] in
  if n <? 0 then 45 :: d else d.

(** [snprintf(dst, size, ...)]: what is kept of the text. *)
Definition snprintf (size : nat) (text : list Z) : list Z := take (size - 1) text.

(** ** Doubles *)

Record double := mkDouble { mantissa : Z; exponent : Z }.

(** The integer nearest to [n / d], ties to even. *)
Definition nearest (n d : Z) : Z :=
  let q := n / d in
  let r := n mod d in
  if 2 * r <? d then q else if d <? 2 * r then q + 1 else if Z.even q then q else q + 1.

(** [2 ^ e] as a numerator and as a denominator. *)
Definition up (e : Z) : Z := 2 ^ Z.max 0 e.
Definition down (e : Z) : Z := 2 ^ Z.max 0 (- e).

(** The double [(double)a / (double)b], [b] positive. *)
Definition double_div (a b : Z) : double :=
  if a =? 0 then mkDouble 0 0
  else
  let k := Z.log2 (Z.abs a) - Z.log2 b in
  let k := if Z.abs a * down k <? b * up k then k - 1 else k in
  let e := k - 52 in
  mkDouble (nearest (a * down e) (b * up e)) e.

(** [%.2lf]: rounded to hundredths, ties to even. *)
Definition format_2lf (x : double) : list Z :=
  let c := nearest (100 * mantissa x * up (exponent x)) (down (exponent x)) in
  let c := Z.abs c in
  (if mantissa x <? 0 then [45] else []) ++
  dec (c / 100) ++ [46; 48 + (c / 10) mod 10; 48 + c mod 10].

(** ** What the texts say *)

(** The value of a digit string. *)
Definition undec (l : list Z) : Z := fold_left (λ n c, 10 * n + (c - 48)) l 0.

Lemma undec_app l k : undec (l ++ k) = fold_left (λ n c, 10 * n + (c - 48)) k (undec l).
Proof. apply fold_left_app. Qed.

Lemma digits_app fuel n acc : digits fuel n acc = digits fuel n [] ++ acc.
Proof.
  revert n acc. induction fuel as [|fuel IH]; intros n acc; [done|]. cbn [digits].
  destruct (n <? 10); [done|]. rewrite IH, (IH _ [_]), <- app_assoc. done.
Qed.

Lemma undec_digits fuel n : 0 <= n < 2 ^ Z.of_nat fuel → undec (digits fuel n []) = n.
Proof.
  revert n. induction fuel as [|fuel IH]; intros n Hn.
  { change (2 ^ Z.of_nat 0) with 1 in Hn. by assert (n = 0) as -> by lia. }
  cbn [digits]. rewrite Nat2Z.inj_succ, Z.pow_succ_r in Hn by lia.
  destruct (Z.ltb_spec n 10).
  - unfold undec. cbn [fold_left]. rewrite Z.mod_small by lia. lia.
  - rewrite digits_app, undec_app, IH by (Z.to_euclidean_division_equations; lia).
    cbn [fold_left]. Z.to_euclidean_division_equations; lia.
Qed.

(** A text determines its number. *)
Lemma undec_dec n : 0 <= n → undec (dec n) = n.
Proof.
  intros Hn. unfold dec. rewrite (proj2 (Z.ltb_ge _ _)), Z.abs_eq by lia.
  apply undec_digits. pose proof (Z.log2_nonneg n).
  rewrite Nat2Z.inj_succ, Z2Nat.id by lia.
  destruct (decide (n = 0)) as [->|]; [done|]. pose proof (Z.log2_spec n). lia.
Qed.

Lemma digits_length fuel n k :
  0 <= n < 10 ^ Z.of_nat k → (1 <= k)%nat → (length (digits fuel n []) <= k)%nat.
Proof.
  revert n k. induction fuel as [|fuel IH]; intros n k Hn Hk; [cbn; lia|]. cbn [digits].
  destruct (Z.ltb_spec n 10); [cbn; lia|].
  destruct k as [|k]; [lia|]. rewrite Nat2Z.inj_succ, Z.pow_succ_r in Hn by lia.
  assert (1 <= k)%nat. { destruct k; [|lia]. change (10 ^ Z.of_nat 0) with 1 in Hn. lia. }
  rewrite digits_app, length_app. cbn [length].
  pose proof (IH (n / 10) k). Z.to_euclidean_division_equations; lia.
Qed.

Lemma dec_length n k :
  0 <= n < 10 ^ Z.of_nat k → (1 <= k)%nat → (length (dec n) <= k)%nat.
Proof.
  intros Hn Hk. unfold dec. rewrite (proj2 (Z.ltb_ge _ _)), Z.abs_eq by lia. by apply digits_length.
Qed.

(** ** Rounding *)

Lemma nearest_error n d : 0 < d → 2 * Z.abs (n - d * nearest n d) <= d.
Proof.
  intros Hd. unfold nearest.
  destruct (Z.ltb_spec (2 * (n mod d)) d); [|destruct (Z.ltb_spec d (2 * (n mod d))); [|destruct (Z.even _)]];
    Z.to_euclidean_division_equations; nia.
Qed.

(** A number close enough to an integer is rounded to it. *)
Lemma nearest_unique n d q : 0 < d → 2 * Z.abs (n - d * q) < d → nearest n d = q.
Proof. intros Hd Hq. pose proof (nearest_error n d Hd). nia. Qed.

Lemma up_pos e : 0 < up e.
Proof. apply Z.pow_pos_nonneg; lia. Qed.
Lemma down_pos e : 0 < down e.
Proof. apply Z.pow_pos_nonneg; lia. Qed.

(** A tenth of a 16-bit number is printed exactly. *)
Lemma format_tenth v :
  Z.abs v < 2 ^ 16 →
  format_2lf (double_div v 10) =
    (if v <? 0 then [45] else []) ++ dec (Z.abs v / 10) ++ [46; 48 + Z.abs v mod 10; 48].
Proof.
  intros Hv. unfold double_div. destruct (Z.eqb_spec v 0) as [->|Hne]; [done|].
  change (Z.log2 10) with 3.
  assert (0 <= Z.log2 (Z.abs v) < 16) as Hlog.
  { split; [apply Z.log2_nonneg|]. apply Z.log2_lt_pow2; lia. }
  set (k := if _ <? _ then _ else _). set (e := k - 52).
  assert (-60 <= e <= -39) as He by (unfold e, k; destruct (_ <? _); lia).
  clearbody e. clear k. unfold format_2lf. cbn [mantissa exponent]. cbv zeta.
  assert (up e = 1) as -> by (unfold up; by rewrite Z.max_l by lia).
  assert (2 ^ 39 <= down e) as Hd.
  { unfold down. apply Z.pow_le_mono_r; lia. }
  set (d := down e) in *. set (m := nearest (v * d) (10 * 1)).
  pose proof (nearest_error (v * d) (10 * 1) ltac:(lia)) as Hm. fold m in Hm.
  assert (nearest (100 * m * 1) d = 10 * v) as ->.
  { apply nearest_unique; [lia|]. change (2 ^ 39) with 549755813888 in Hd. lia. }
  assert ((m <? 0) = (v <? 0)) as ->.
  { change (2 ^ 39) with 549755813888 in Hd.
    destruct (Z.ltb_spec m 0), (Z.ltb_spec v 0); try done; nia. }
  rewrite Z.abs_mul. change (Z.abs 10) with 10.
  f_equal. f_equal.
  - f_equal. Z.to_euclidean_division_equations; lia.
  - do 2 f_equal; [f_equal; Z.to_euclidean_division_equations; lia|].
    f_equal. Z.to_euclidean_division_equations; lia.
Qed.
