(* ===== verification/ClockText.v ===== *)
(** * ClockText: the texts of times, [get_log_time] and [get_time_by_model] of
    [iot_edge_agent/src/utils.c] (the program calls neither of them).

    The clock and [localtime] answer through arguments.  [strftime] is that of the
    standard for fields in their ranges; what it writes for other fields, or when the
    text does not fit, is unspecified, and reading it is [None]. *)
From S2P Require Import Prelude.
From S2P Require Import CString.
From S2P Require Import Printf.
From stdpp Require Import strings.
#[local] Open Scope Z_scope.

Module ClockText.

(** [struct tm]; the year is the one that is printed. *)
Record tm := mkTm { tm_sec : Z; tm_min : Z; tm_hour : Z; tm_mday : Z; tm_mon : Z; year : Z }.

Definition in_range (t : tm) : bool :=
  forallb (λ '(lo, x, hi), (lo <=? x) && (x <=? hi))
    [(0, tm_sec t, 60); (0, tm_min t, 59); (0, tm_hour t, 23); (1, tm_mday t, 31); (0, tm_mon t, 11)] && (1000 <=? year t).

(** [%0nd] of a number that is not negative. *)
Definition pad (n : nat) (x : Z) : list Z := let d := dec x in replicate (n - length d) 48 ++ d.

(** [%H:%M:%S] and [%Y-%m-%dT%H:%M:%S] *)
Definition clock_text (t : tm) : list Z := pad 2 (tm_hour t) ++ 58 :: pad 2 (tm_min t) ++ 58 :: pad 2 (tm_sec t).
Definition date_text (t : tm) : list Z :=
  dec (year t) ++ 45 :: pad 2 (tm_mon t + 1) ++ 45 :: pad 2 (tm_mday t) ++ 84 :: clock_text t.

(** The text, when it fits with its end. *)
Definition strftime (size : nat) (text : list Z) : option (list Z) :=
  if (length text <? size)%nat then Some text else None.

(** [strncat(dst, src, strlen(src))] on a string in a block of [size] bytes. *)
Definition strncat (size : nat) (dst src : list Z) : option (list Z) :=
  if (length dst + length src <? size)%nat then Some (dst ++ src) else None.

(** The string in the block [time_result] of [size] bytes ([None]: a NULL pointer). *)
Definition get_log_time (time_result : option nat) (len : nat) (agent_time : Z) (localtime : Z → option tm)
    : option (option (list Z)) :=
  match time_result with
  | None => Some None
  | Some size =>
      if (size =? 0)%nat then None
      else if agent_time =? -1 then Some (Some [])
      else
        match localtime agent_time with
        | None => Some (Some [])
        | Some tm_info =>
            if negb (in_range tm_info) || (size <? len)%nat then None
            else Some (Some (default [] (strftime len (clock_text tm_info))))
        end
  end.

(** The seconds and microseconds of the clock, and the block that is written. *)
Definition get_time_by_model (mons days hour mins : Z) (time_result : option (list Z)) (tv_sec tv_usec : Z)
    (localtime : Z → option tm) : option (option (list Z)) :=
  t ← localtime tv_sec;
  let time_info := mkTm 0 mins hour days mons (year t) in
  tmp ← (if in_range time_info then strftime 32 (date_text time_info) else None);
  let ms := snprintf 32 (46 :: pad 3 (tv_usec / 1000)) in
  tmp ← strncat 32 tmp ms;
  tmp ← strncat 32 tmp (str "+0800");
  match time_result with
  | None => Some None
  | Some block => block ← strncpy block tmp 32; Some (Some block)
  end.

(** ** What is written *)

Lemma pad_length n x : (0 < n)%nat → 0 <= x < 10 ^ Z.of_nat n → length (pad n x) = n.
Proof.
  intros Hn Hx. unfold pad. rewrite length_app, length_replicate. pose proof (dec_length x n). lia.
Qed.

Lemma clock_text_length t : in_range t = true → length (clock_text t) = 8%nat.
Proof.
  unfold in_range. cbn. rewrite !andb_true_iff, !Z.leb_le. intros H.
  unfold clock_text. rewrite length_app. cbn. rewrite length_app. cbn. rewrite !pad_length by (cbn; lia). done.
Qed.

Lemma date_text_length t : in_range t = true → length (date_text t) = (length (dec (year t)) + 15)%nat.
Proof.
  intros H. pose proof (clock_text_length t H) as Hc. revert H. unfold in_range. cbn. rewrite !andb_true_iff, !Z.leb_le. intros H.
  unfold date_text. rewrite length_app. cbn. rewrite length_app. cbn. rewrite length_app. cbn.
  rewrite !pad_length by (cbn; lia). rewrite Hc. lia.
Qed.

(** The text of the date, the milliseconds and the zone fits exactly when the year has
    at most seven digits; it is then all that is written, and its block is 32 bytes. *)
Theorem get_time_by_model_written mons days hour mins block tv_sec tv_usec localtime :
  0 <= tv_usec < 1000000 →
  get_time_by_model mons days hour mins (Some block) tv_sec tv_usec localtime =
    (t ← localtime tv_sec;
     let t := mkTm 0 mins hour days mons (year t) in
     let text := date_text t ++ (46 :: pad 3 (tv_usec / 1000)) ++ str "+0800" in
     if in_range t && (length (dec (year t)) <=? 7)%nat && (32 <=? length block)%nat
     then Some (Some (text ++ replicate (32 - length text) 0 ++ drop 32 block)) else None).
Proof.
  intros Hu. unfold get_time_by_model. destruct (localtime tv_sec) as [t|]; [|done]. rewrite !bind_ret. cbv zeta.
  pose proof (date_text_length (mkTm 0 mins hour days mons (year t))) as Hl. cbn [year] in Hl.
  destruct (in_range _); [|done]. specialize (Hl eq_refl).
  assert (length (46 :: pad 3 (tv_usec / 1000)) = 4%nat) as Hm.
  { cbn [length]. rewrite pad_length; [done|lia|]. Z.to_euclidean_division_equations; lia. }
  unfold snprintf. rewrite (take_ge (46 :: _)) by (rewrite Hm; lia). revert Hl Hm.
  generalize (date_text (mkTm 0 mins hour days mons (year t))) as date, (46 :: pad 3 (tv_usec / 1000)) as ms.
  intros date ms Hl Hm. unfold strftime, strncat. rewrite Hl. cbn [andb year].
  destruct (Nat.leb_spec (length (dec (year t))) 7) as [Hd|Hd].
  - rewrite (proj2 (Nat.ltb_lt _ _)) by lia. rewrite bind_ret, Hl, Hm, (proj2 (Nat.ltb_lt _ _)) by lia. rewrite bind_ret, length_app, Hl, Hm.
    change (length (str "+0800")) with 5%nat. rewrite (proj2 (Nat.ltb_lt _ _)) by lia. rewrite bind_ret, <- app_assoc.
    unfold strncpy. rewrite take_ge by (rewrite !length_app, Hl, Hm; change (length (str "+0800")) with 5%nat; lia). by destruct (32 <=? length block)%nat.
  - destruct (length (dec (year t)) + 15 <? 32)%nat; [|done]. rewrite bind_ret, Hl, Hm.
    destruct (length (dec (year t)) + 15 + 4 <? 32)%nat; [|done]. rewrite bind_ret, length_app, Hl, Hm.
    change (length (str "+0800")) with 5%nat. by rewrite (proj2 (Nat.ltb_ge _ _)) by lia.
Qed.

Example a_time :
  get_time_by_model 5 30 9 7 (Some (replicate 32 255)) 0 123456 (λ _, Some (mkTm 1 2 3 4 5 2019)) =
  Some (Some (str "2019-06-30T09:07:00.123+0800" ++ replicate 4 0)).
Proof. by vm_compute. Qed.

Example a_clock : get_log_time (Some 9%nat) 9 0 (λ _, Some (mkTm 1 2 3 4 5 2019)) = Some (Some (str "03:02:01")).
Proof. by vm_compute. Qed.
End ClockText.
