(* ===== verification/IoteaClient.v ===== *)
(** * IoteaClient: the edge client.

    [src/iot_edge_agent/src/iotea_client.c]: the agent's client of the broker asks
    for the devices and their models and hands the answers to the parsers.  It is
    the application of a hub client ([IotHubClient]): its structure is the state
    that the callbacks of the hub client change.  The parsers belong to
    [iot_main.c]; they change a state [A] and return what the C functions return.
    The parser of JSON texts is a parameter. *)
From S2P Require Import Prelude.
From stdpp Require Import strings.
From S2P Require Import Effects.
From S2P Require Import Alloc.
From S2P Require Import CString.
From S2P Require Import Json.
From S2P Require Import Printf.
From S2P Require Import MqttCodec.
From S2P Require Import MqttDecoder.
From S2P Require Import MqttMessage.
From S2P Require Import MqttClient.
From S2P Require Import RetryLogic.
From S2P Require Import IotHubClient.
#[local] Open Scope Z_scope.

Definition TOPIC_SIZE : nat := 3.
Definition MODEL_SUB_TOPIC := str "/ModelManager/get/reponse/%s/Southmodel".
Definition MODEL_PUB_TOPIC := str "/%s/get/request/ModelManager/Southmodel".
Definition DEVICE_LIST_SUB := str "/devMgr/get/response/%s/devlist".
Definition DEVICE_LIST_PUB := str "/%s/get/request/devMgr/devlist".
Definition DEVICE_INFO_SUB := str "/devMgr/get/response/%s/dev".
Definition DEVICE_INFO_PUB := str "/%s/get/request/devMgr/dev".

(** The text of a format with [%s] and no other conversion. *)
Fixpoint format_s (format arg : list Z) : list Z :=
  match format with
  | [] => []
  | c :: rest =>
      match rest with
      | [] => [c]
      | d :: rest2 => if (c =? 37) && (d =? 115) then arg ++ format_s rest2 arg else c :: format_s rest arg
      end
  end.

(** [sprintf_s] of [crt_abstractions.c] on a block of memory, with its result. *)
Definition sprintf_s (dst : list Z) (dstSizeInBytes : nat) (text : list Z) : option (Z * list Z) :=
  let kept := take (dstSizeInBytes - 1) text ++ [0] in
  dst ← (if (0 <? dstSizeInBytes)%nat then
           if (length kept <=? length dst)%nat then Some (kept ++ drop (length kept) dst) else None
         else Some dst);
  if (dstSizeInBytes <=? length text)%nat then dst ← st8 dst 0 0; Some (-1, dst)
  else Some (Z.of_nat (length text), dst).

(** ** The address of the broker *)

(** A character of a string, or its final 0. *)
Definition char_at (s : list Z) (i : nat) : option Z := (s ++ [0]) !! i.

(** The loop over the characters; [rest] is what is left of [broker] at [pos]. *)
Fixpoint find_colons (rest : list Z) (pos head end_ : nat) : nat * nat :=
  match rest with
  | [] => (head, end_)
  | c :: rest =>
      if c =? 58 then
        find_colons rest (S pos) (if (head =? 0)%nat then pos + 3 else head)
          (if (head =? 0)%nat then end_ else pos)
      else find_colons rest (S pos) head end_
  end.

(** [endpoint[pos] = broker[head + pos]] for the next [n] positions. *)
Fixpoint copy_chars (n pos head : nat) (broker endpoint : list Z) : option (list Z) :=
  match n with
  | O => Some endpoint
  | S n =>
      c ← char_at broker (head + pos);
      endpoint ← st8 endpoint pos c;
      copy_chars n (S pos) head broker endpoint
  end.

Definition starts (broker : list Z) (a b c : Z) : option bool :=
  x ← char_at broker 0;
  if x =? a then
    x ← char_at broker 1;
    if x =? b then x ← char_at broker 2; Some (x =? c) else Some false
  else Some false.

(** The type of the connection and the block of the endpoint. *)
Definition get_broker_endpiont (broker : list Z) : Alloc (option (MQTT_CONNECTION_TYPE * list Z)) :=
  tcp ← lift (starts broker 116 99 112);
  ssl ← (if (tcp : bool) then mret false else lift (starts broker 115 115 108));
  if negb tcp && negb ssl then mret None
  else
    let mqttConnType := if (tcp : bool) then MQTT_CONNECTION_TCP else MQTT_CONNECTION_TLS in
    let '(head, end_) := find_colons broker 0 0 0 in
    if (head =? 0)%nat || (end_ <=? head)%nat then mret None
    else
      let length := (end_ - head + 1)%nat in
      endpoint ← malloc length;
      match endpoint with
      | None => mret None
      | Some endpoint =>
          endpoint ← lift (st8 endpoint (length - 1) 0);
          endpoint ← lift (copy_chars (length - 1) 0 head broker endpoint);
          mret (Some (mqttConnType, endpoint))
      end.

(** The block of the topic; as a string it is its text. *)
Definition generate_topic (format : list Z) (device : option (list Z)) : Alloc (option (list Z)) :=
  match device with
  | None => mret None
  | Some device =>
      let size := (length format + length device + 1)%nat in
      topic ← malloc size;
      match topic with
      | None => mret None
      | Some topic =>
          '(r, topic) ← lift (sprintf_s topic size (format_s format device));
          if r <? 0 then free (Some topic);; mret None else mret (Some topic)
      end
  end.

(** A pointer to the string in a block, or NULL. *)
Definition text_of (block : option (list Z)) : option (option (list Z)) :=
  match block with None => Some None | Some b => s ← cstr b; Some (Some s) end.

(** ** The client *)

(** Quotation marks in a text. *)
Definition quoted (s : list Z) : list Z := (λ c, if c =? 39 then 34 else c) <$> s.

Definition LIST_REQUEST : list Z :=
  quoted (str "{'token': '1245sfvhjkklm','fsn': '123',            'flat': '123','timestamp': '2019-07-09T09:30:08.230Z','body':''}").
Definition INFO_REQUEST : list Z :=
  quoted (str "{'token': '1245sfvhjkklm','fsn': '123',            'flat': '123','timestamp': '2019-07-09T09:30:08.230Z',            'body':[{'dev':'%s'}]}").

Inductive iotea_result := Worked | Failed | Ended.

Section iotea.
Context `{Arch} {A P : Type}.

(** [reqTickCounter] and [mqttClient] are not NULL; the names belong to the caller.
    [application] is the state of the parsers. *)
Record IOTEA_CLIENT := mkIotea {
  subscribed : bool;
  subscribeSentTimestamp : Z;
  endpoint : option (list Z);
  devname : option (list Z);
  proType : option (list Z);
  reqAns : bool;
  reqCount : Z;
  lastReqSendTime : Z;
  mqttConnType : MQTT_CONNECTION_TYPE;
  ThingModelParse : option (list Z → A → Z * A);
  ChannelModelParse : option (list Z → A → Z * A);
  parsers : A }.

Definition set_subscribed v e := mkIotea v (subscribeSentTimestamp e) (endpoint e) (devname e) (proType e)
  (reqAns e) (reqCount e) (lastReqSendTime e) (mqttConnType e) (ThingModelParse e) (ChannelModelParse e) (parsers e).
Definition set_subscribeSentTimestamp v e := mkIotea (subscribed e) v (endpoint e) (devname e) (proType e)
  (reqAns e) (reqCount e) (lastReqSendTime e) (mqttConnType e) (ThingModelParse e) (ChannelModelParse e) (parsers e).
Definition set_reqAns v e := mkIotea (subscribed e) (subscribeSentTimestamp e) (endpoint e) (devname e) (proType e)
  v (reqCount e) (lastReqSendTime e) (mqttConnType e) (ThingModelParse e) (ChannelModelParse e) (parsers e).
Definition set_reqCount v e := mkIotea (subscribed e) (subscribeSentTimestamp e) (endpoint e) (devname e) (proType e)
  (reqAns e) v (lastReqSendTime e) (mqttConnType e) (ThingModelParse e) (ChannelModelParse e) (parsers e).
Definition set_lastReqSendTime v e := mkIotea (subscribed e) (subscribeSentTimestamp e) (endpoint e) (devname e)
  (proType e) (reqAns e) (reqCount e) v (mqttConnType e) (ThingModelParse e) (ChannelModelParse e) (parsers e).
Definition set_parsers v e := mkIotea (subscribed e) (subscribeSentTimestamp e) (endpoint e) (devname e) (proType e)
  (reqAns e) (reqCount e) (lastReqSendTime e) (mqttConnType e) (ThingModelParse e) (ChannelModelParse e) v.

(** No publication of the client has a callback; a subscription has one. *)
#[warnings="-notation-for-abbreviation"] Notation Hub := (@IOTHUB_MQTT_CLIENT IOTEA_CLIENT P Empty_set unit).
#[warnings="-notation-for-abbreviation"] Notation Client := (ST (@Peer Hub * Heap)).
#[warnings="-notation-for-abbreviation"] Notation Codec := (MQTTCODEC_INSTANCE (@Peer Hub)).
#[warnings="-notation-for-abbreviation"] Notation Whole := (ST (Codec * Heap)).

Variable persistInterDesc : option (PERSIST_INTERFACE_DESCRIPTION P).
Variable json_parse_string : list Z → option JSON.

(** There is no callback of a publication. *)
Definition no_callback (c : Empty_set) (_ : MQTT_PUB_STATUS_TYPE) : Client unit :=
  modify_hub (λ d, set_application (match c with end) d).

Definition handle : Client IOTEA_CLIENT := d ← hub; mret (application d).
Definition modify_handle (f : IOTEA_CLIENT → IOTEA_CLIENT) : Client unit :=
  modify_hub (λ d, set_application (f (application d)) d).

Section requests.
(** The callback of the subscription may run while a request is published. *)
Variable subCallback : unit → option (list Z) → Client unit.

(** [topic]: the string at the pointer, NULL. *)
Definition publish_request (topic : option (list Z)) (data : list Z) : Client status :=
  publish_mqtt_message persistInterDesc no_callback subCallback topic DELIVER_AT_LEAST_ONCE (Some data)
    (length data) None.

Definition send_model_query_req : Client status :=
  e ← handle;
  proType ← lift (proType e);
  publish_request (Some (snprintf 64 (format_s MODEL_PUB_TOPIC proType))) (str "{}").

Definition send_device_query_req (is_send_for_list : bool) : Client status :=
  e ← handle;
  (if is_send_for_list then
     pub_topic ← alloc (generate_topic DEVICE_LIST_PUB (proType e));
     topic ← lift (text_of pub_topic);
     publish_request topic (snprintf 1024 LIST_REQUEST);;
     alloc (free pub_topic)
   else
     devname ← lift (devname e);
     pub_topic ← alloc (generate_topic DEVICE_INFO_PUB (proType e));
     topic ← lift (text_of pub_topic);
     publish_request topic (snprintf 1024 (format_s INFO_REQUEST devname));;
     alloc (free pub_topic));;
  mret OK.
End requests.

(** The callback of the subscription; it may run again while it publishes, which
    [depth] bounds. *)
Fixpoint on_sub_ack_callback (depth : nat) (context : unit) (qos_return : option (list Z)) : Client unit :=
  match depth with
  | O => lift None
  | S depth =>
      if existsb (λ q, q =? DELIVER_FAILURE) (default [] qos_return) then mret tt
      else
        modify_handle (set_subscribed true);;
        now ← current_ms;
        match now with
        | None => mret tt
        | Some t => modify_handle (set_lastReqSendTime t)
        end;;
        send_device_query_req (on_sub_ack_callback depth) true;;
        mret tt
  end.

Definition sub_depth : nat := 2.
#[warnings="-notation-for-abbreviation"] Notation subCallback := (on_sub_ack_callback sub_depth).

(** The copy of a payload as a string: [None] is NULL. *)
Definition STRING_from_byte_array (source : option (list Z)) (size : nat) : Alloc (option (list Z)) :=
  if negb (bool_decide (is_Some source)) && (0 <? size)%nat then mret None
  else
    result ← malloc_struct;
    if (result : bool) then
      s ← malloc (size + 1);
      match s with
      | None => free_struct;; mret None
      | Some _ =>
          s ← lift (copy_to s 0 source size);
          s ← lift (match s with Some s => st8 s size 0 | None => None end);
          mret (Some s)
      end
    else mret None.

(** [strcmp(device_name, devname) == 0] for one of the elements [i], [i + 1], ... *)
Fixpoint in_list (n i : nat) (body_array : option (list JSON)) (devname : list Z) (exist_in_list : bool)
    : option bool :=
  match n with
  | O => Some exist_in_list
  | S n =>
      let body_content := json_array_get_object body_array i in
      device_name ← json_object_dotget_string body_content (str "dev");
      in_list n (S i) body_array devname (if strequal device_name devname then true else exist_in_list)
  end.

Definition on_thing_model (message : list Z) : Client unit :=
  e ← handle;
  parse ← lift (ThingModelParse e);
  modify_handle (set_parsers (parse message (parsers e)).2).

Definition on_channel_model (message : list Z) : Client unit :=
  e ← handle;
  parse ← lift (ChannelModelParse e);
  let '(res, a) := parse message (parsers e) in
  modify_handle (set_parsers a);;
  if res =? 0 then send_model_query_req subCallback;; mret tt else mret tt.

Definition on_device_list (message : list Z) : Client unit :=
  match json_parse_string message with
  | Some (JSONObject fields) =>
      e ← handle;
      let body_array := json_object_dotget_array (Some fields) (str "body") in
      let body_arr_len := json_array_get_count body_array in
      exist_in_list ← lift (match body_arr_len with
                            | O => Some false
                            | _ => name ← devname e; in_list body_arr_len 0 body_array name false
                            end);
      if (exist_in_list : bool) then send_device_query_req subCallback false;; mret tt else mret tt
  | _ => mret tt
  end.

Definition on_recv_callback (m : MQTT_MESSAGE) : Client unit :=
  match mqttmessage_getTopicName (Some m), mqttmessage_getApplicationMsg (Some m) with
  | Some topic_name, Some app_msg =>
      block ← alloc (STRING_from_byte_array (message app_msg) (payload_length app_msg));
      match block with
      | None => mret tt
      | Some s =>
          text ← lift (cstr s);
          last_char ← lift (last topic_name);
          (if last_char =? 108 then on_thing_model text
           else if last_char =? 118 then on_channel_model text
           else if last_char =? 116 then on_device_list text
           else mret tt);;
          modify_handle (set_reqAns true);;
          alloc (free block;; free_struct)
      end
  | _, _ => mret tt
  end.

(** ** Topics *)

(** The array of topics; the entries are blocks. *)
Definition get_subscription : Client (list (option (list Z))) :=
  e ← handle;
  model ← alloc (generate_topic MODEL_SUB_TOPIC (proType e));
  info ← alloc (generate_topic DEVICE_INFO_SUB (proType e));
  devices ← alloc (generate_topic DEVICE_LIST_SUB (proType e));
  mret [model; info; devices].

Fixpoint release_subscription (subscribe : list (option (list Z))) : Alloc unit :=
  match subscribe with
  | [] => mret tt
  | s :: subscribe => free s;; release_subscription subscribe
  end.

Fixpoint texts_of (topics : list (option (list Z))) : option (list (option (list Z))) :=
  match topics with
  | [] => Some []
  | t :: topics => s ← text_of t; ss ← texts_of topics; Some (s :: ss)
  end.

(** ** Creation, connection, destruction *)

Record IOTEA_CLIENT_OPTIONS := mkIoteaOptions {
  cleanSession : bool;
  opt_clientId : option (list Z);
  opt_username : option (list Z);
  opt_password : option (list Z);
  opt_keepAliveInterval : Z;
  retryTimeoutInSeconds : Z }.

(** [a]: the state of the parsers.  The block of the endpoint is lost when there is
    no tick counter. *)
Definition iotea_client_init (broker name type : option (list Z)) (a : A) : Alloc (option IOTEA_CLIENT) :=
  match broker, name, type with
  | Some broker, Some name, Some type =>
      handle ← malloc_struct;
      if (handle : bool) then
        address ← get_broker_endpiont broker;
        match address with
        | None => free_struct;; mret None
        | Some (connType, endpoint) =>
            reqTickCounter ← malloc_struct;
            if (reqTickCounter : bool) then
              mret (Some (mkIotea false 0 (Some endpoint) (Some name) (Some type) false 0 0 connType None None a))
            else free_struct;; mret None
        end
      else mret None
  | _, _, _ => mret None
  end.

Definition iotea_client_register_thing_model_init (callback : option (list Z → A → Z * A)) e : IOTEA_CLIENT :=
  mkIotea (subscribed e) (subscribeSentTimestamp e) (endpoint e) (devname e) (proType e) (reqAns e) (reqCount e)
    (lastReqSendTime e) (mqttConnType e) callback (ChannelModelParse e) (parsers e).
Definition iotea_client_register_channel_model_init (callback : option (list Z → A → Z * A)) e : IOTEA_CLIENT :=
  mkIotea (subscribed e) (subscribeSentTimestamp e) (endpoint e) (devname e) (proType e) (reqAns e) (reqCount e)
    (lastReqSendTime e) (mqttConnType e) (ThingModelParse e) callback (parsers e).

(** [s]: what the hub client finds outside; its application is the edge client. *)
Definition init_iotea_client (e : IOTEA_CLIENT) (options : IOTEA_CLIENT_OPTIONS) (s : @Setting unit P)
    : Alloc (option Codec) :=
  let mqtt_client_options :=
    {| clientId := match opt_clientId options with None => devname e | Some _ => opt_clientId options end;
       willTopic := None; willMessage := None;
       username := opt_username options; password := opt_password options;
       keepAliveInterval := if 0 <? opt_keepAliveInterval options then opt_keepAliveInterval options else 10;
       messageRetain := false; useCleanSession := cleanSession options;
       qualityOfServiceValue := DELIVER_AT_LEAST_ONCE |} in
  block ← lift (endpoint e);
  address ← lift (cstr block);
  initialize_mqtt_client_handle persistInterDesc no_callback subCallback on_recv_callback
    mqtt_client_options address (mqttConnType e) IOTHUB_CLIENT_RETRY_EXPONENTIAL_BACKOFF_WITH_JITTER
    (if retryTimeoutInSeconds options <? 300 then 300 else retryTimeoutInSeconds options)
    (mkSetting (setting_env s) (setting_clock s) (setting_creations s) (setting_storage s) (setting_no_storage s) e).

#[warnings="-notation-for-abbreviation"] #[local] Notation hub_dowork :=
  (iothub_mqtt_dowork persistInterDesc no_callback subCallback on_recv_callback).

(** One list of events for each iteration; undefined when they run out. *)
Fixpoint connect_loop (iterations : list (list IoEvent)) : Whole unit :=
  match iterations with
  | [] => lift None
  | events :: iterations =>
      hub_dowork events;;
      d ← on_client hub;
      if bool_decide (mqttClientStatus d = MQTT_CLIENT_STATUS_CONNECTED) || negb (isRecoverableError d)
      then mret tt else connect_loop iterations
  end.

Definition connect_client (c : Codec) (iterations : list (list IoEvent)) : Alloc (status * option Codec) := λ h,
  '(_, (c, h)) ← (connect_loop iterations;;
                  on_client (modify_hub (set_isDestroyCalled false));;
                  on_client (modify_hub (set_isDisconnectCalled false))) (c, h);
  Some ((OK, Some c), h).

(** The result, and the hub client if one was created. *)
Definition iotea_client_connect (e : IOTEA_CLIENT) (options : option IOTEA_CLIENT_OPTIONS) (s : @Setting unit P)
    (iterations : list (list IoEvent)) : Alloc (status * option Codec) :=
  match options with
  | None => mret (FAILURE, None)
  | Some o =>
      if bool_decide (is_Some (opt_username o)) && bool_decide (is_Some (opt_password o)) then
        mqttClient ← init_iotea_client e o s;
        match mqttClient with
        | None => mret (FAILURE, None)
        | Some c => connect_client c iterations
        end
      else mret (FAILURE, None)
  end.

Definition iotea_client_deinit : Whole unit :=
  topics ← on_client (alloc (malloc (TOPIC_SIZE * 8)));
  match topics with
  | None => mret tt
  | Some _ =>
      topics ← on_client get_subscription;
      texts ← on_client (lift (texts_of topics));
      on_client (unsubscribe_mqtt_topics persistInterDesc no_callback subCallback (Some texts) (length topics));;
      on_client (alloc (release_subscription topics;; free_struct));;
      e ← on_client handle;
      iothub_mqtt_destroy persistInterDesc no_callback subCallback;;
      on_client (alloc (free (endpoint e);; free_struct;; free_struct))
  end.

(** ** Work *)

(** The topics are subscribed to, if they are not and the last attempt is old. *)
Definition subscribe_topics : Client status :=
  d ← hub;
  e ← handle;
  if bool_decide (mqttClientStatus d = MQTT_CLIENT_STATUS_CONNECTED) && negb (subscribed e) then
    current ← timed get_time;
    if 10 <? current - subscribeSentTimestamp e then
      ok ← alloc malloc_struct;
      if (ok : bool) then
        topics ← get_subscription;
        texts ← lift (texts_of topics);
        subscribe ← alloc malloc_struct;
        lift (if (subscribe : bool) then Some tt else None);;
        result ← subscribe_mqtt_topics persistInterDesc no_callback subCallback
                   (Some ((λ t, {| subscribeTopic := t; qosReturn := DELIVER_AT_LEAST_ONCE |}) <$> texts))
                   (length topics) (Some tt);
        (match result with
         | OK => now ← timed get_time; modify_handle (set_subscribeSentTimestamp now)
         | FAILURE => mret tt
         end);;
        alloc (release_subscription topics;; free_struct;; free_struct);;
        mret result
      else mret FAILURE
    else mret OK
  else mret OK.

(** The devices are asked for again, at most three times. *)
Definition repeat_request : Client unit :=
  now ← current_ms;
  currentTime ← lift now;
  e ← handle;
  if (3 <? seconds currentTime (lastReqSendTime e)) && negb (reqAns e) && (reqCount e <? 3) then
    send_device_query_req subCallback true;;
    modify_handle (set_lastReqSendTime currentTime);;
    modify_handle (λ e, set_reqCount (reqCount e + 1) e)
  else mret tt.

Definition iotea_client_dowork (events : list IoEvent) : Whole iotea_result :=
  d ← on_client hub;
  if isDestroyCalled d || isDisconnectCalled d then mret Ended
  else
    (if isConnectionLost d then
       on_client (modify_handle (set_subscribed false));;
       on_client (modify_handle (set_subscribeSentTimestamp 0))
     else mret tt);;
    r ← on_client subscribe_topics;
    match r with
    | FAILURE => mret Failed
    | OK =>
        on_client repeat_request;;
        hub_dowork events;;
        mret Worked
    end.
End iotea.
