(* ===== verification/IoteaFrame.v ===== *)
(** * IoteaFrame: what the broker cannot make the edge client do.

    The callbacks of the edge client are [calm]: none of them repeats a request.  By
    [IotHubFrame] nothing the transport delivers does, and one round of work repeats
    at most one request. *)
From S2P Require Import Prelude.
From stdpp Require Import gmap.
From S2P Require Import Effects.
From S2P Require Import Alloc.
From S2P Require Import Json.
From S2P Require Import MqttCodec.
From S2P Require Import MqttDecoder.
From S2P Require Import MqttMessage.
From S2P Require Import MqttClient.
From S2P Require Import RetryLogic.
From S2P Require Import IotHubClient.
From S2P Require Import IotHubFrame.
From S2P Require Import IoteaClient.
#[local] Open Scope Z_scope.

Section requests.
Context `{Arch} {A P : Type}.
#[warnings="-notation-for-abbreviation"] Notation Hub := (@IOTHUB_MQTT_CLIENT (@IOTEA_CLIENT A) P Empty_set unit).
#[warnings="-notation-for-abbreviation"] Notation Client := (ST (@Peer Hub * Heap)).
#[warnings="-notation-for-abbreviation"] Notation Codec := (MQTTCODEC_INSTANCE (@Peer Hub)).
Implicit Types (p : @Peer Hub) (h : Heap) (e : @IOTEA_CLIENT A) (c : Codec).

Variable persistInterDesc : option (PERSIST_INTERFACE_DESCRIPTION P).
Variable json_parse_string : list Z → option JSON.

(** What the client was given and never changes. *)
Definition identity e :=
  (devname e, proType e, endpoint e, mqttConnType e, (ThingModelParse e, ChannelModelParse e)).

(** A relation on clients that allows what the functions of the client do to it. *)
Class Tolerant (R : @IOTEA_CLIENT A → @IOTEA_CLIENT A → Prop) : Prop := {
  tolerant_pre :: PreOrder R;
  tolerant_subscribed v e : R e (set_subscribed v e);
  tolerant_sent v e : R e (set_subscribeSentTimestamp v e);
  tolerant_time v e : R e (set_lastReqSendTime v e);
  tolerant_answer e : R e (set_reqAns true e) }.

(** It also allows what the parsers do. *)
Class Indifferent (R : @IOTEA_CLIENT A → @IOTEA_CLIENT A → Prop) : Prop := {
  indifferent_tolerant :: Tolerant R;
  indifferent_thing e parse text :
    ThingModelParse e = Some parse → R e (set_parsers (parse text (parsers e)).2 e);
  indifferent_channel e parse text :
    ChannelModelParse e = Some parse → R e (set_parsers (parse text (parsers e)).2 e) }.

Section callbacks.
Context (R : @IOTEA_CLIENT A → @IOTEA_CLIENT A → Prop) `{!Tolerant R}.

#[warnings="-notation-for-abbreviation"] Notation keeps_app d := (keeps (by_user (A:=Hub) (by_application R)) d (λ _, True)).
#[warnings="-notation-for-abbreviation"] Notation keeps_whole d := (keeps (by_codec (A:=Hub) (by_application R)) d (λ _, True)).

Lemma keeps_modify_handle f : (∀ e, R e (f e)) → keeps_app (modify_handle f).
Proof. intros Hf. apply keeps_modify_hub. intros d. apply Hf. Qed.

#[local] Hint Extern 1 (keeps _ (modify_handle _) _) =>
  apply keeps_modify_handle; intros ?;
  first [apply tolerant_subscribed|apply tolerant_sent|apply tolerant_time|apply tolerant_answer] : keeps.
#[local] Hint Resolve keeps_hub keeps_alloc keeps_current_ms keeps_timed : keeps.

Lemma keeps_handle : keeps_app handle.
Proof. unfold handle. keep. Qed.
#[local] Hint Resolve keeps_handle : keeps.

Lemma keeps_no_callback x s : keeps_app (no_callback x s).
Proof. destruct x. Qed.
#[local] Hint Resolve keeps_no_callback : keeps.

Section sub.
Variable sub : unit → option (list Z) → Client unit.
Hypothesis Hsub : ∀ u q, keeps_app (sub u q).

Lemma keeps_publish_request t data : keeps_app (publish_request persistInterDesc sub t data).
Proof. apply keeps_publish_mqtt_message; [apply _|apply keeps_no_callback|exact Hsub]. Qed.
#[local] Hint Resolve keeps_publish_request : keeps.

Lemma keeps_send_model : keeps_app (send_model_query_req persistInterDesc sub).
Proof. unfold send_model_query_req. keep. Qed.

Lemma keeps_send_device b : keeps_app (send_device_query_req persistInterDesc sub b).
Proof. unfold send_device_query_req. keep. Qed.
End sub.

Lemma keeps_on_sub_ack depth u q : keeps_app (on_sub_ack_callback persistInterDesc depth u q).
Proof.
  revert u q. induction depth as [|depth IH]; intros u q; cbn [on_sub_ack_callback]; [keep|].
  pose proof (keeps_send_device _ IH). keep.
Qed.
#[local] Hint Resolve keeps_on_sub_ack : keeps.

#[warnings="-notation-for-abbreviation"] #[local] Notation sub := (on_sub_ack_callback persistInterDesc sub_depth).

Lemma keeps_model_query : keeps_app (send_model_query_req persistInterDesc sub).
Proof. apply keeps_send_model. auto with keeps. Qed.
Lemma keeps_device_query b : keeps_app (send_device_query_req persistInterDesc sub b).
Proof. apply keeps_send_device. auto with keeps. Qed.
#[local] Hint Resolve keeps_model_query keeps_device_query : keeps.

Lemma keeps_get_subscription : keeps_app get_subscription.
Proof. unfold get_subscription. keep. Qed.
#[local] Hint Resolve keeps_get_subscription : keeps.

Lemma keeps_subscribe_topics : keeps_app (subscribe_topics persistInterDesc).
Proof.
  assert (∀ l n cb, keeps_app (subscribe_mqtt_topics persistInterDesc no_callback sub l n cb)).
  { intros. apply keeps_subscribe_mqtt_topics; auto with keeps. }
  unfold subscribe_topics. keep.
Qed.

#[local] Hint Resolve keeps_on_client keeps_subscribe_topics : keeps.

(** The end of a client. *)
Lemma keeps_iotea_client_deinit :
  keeps (by_context (A:=Hub) (by_application R)) (iotea_client_deinit persistInterDesc) (λ _, True).
Proof.
  assert (∀ l n, keeps_app (unsubscribe_mqtt_topics persistInterDesc no_callback sub l n)).
  { intros. apply keeps_unsubscribe_mqtt_topics; auto with keeps. }
  assert (keeps (by_context (by_application R)) (iothub_mqtt_destroy persistInterDesc no_callback sub) (λ _, True)).
  { apply keeps_iothub_mqtt_destroy; auto with keeps. }
  pose proof (λ X, keeps_in_context (A:=Hub) (by_application R) (X:=X)). unfold iotea_client_deinit. keep.
Qed.

(** *** Messages *)

Context `{!Indifferent R}.

(** The parsers of the present client are called. *)
Lemma keeps_on_thing text : keeps_app (on_thing_model text).
Proof.
  intros [p h] x s'. unfold on_thing_model. rewrite st_bind_eq.
  change (handle (p, h)) with (Some (application (user p), (p, h))). rewrite bind_ret, st_lift_bind.
  destruct (ThingModelParse (application (user p))) as [parse|] eqn:Et; [|done]. rewrite bind_ret.
  intros [= _ <-]. split; [|done]. by apply indifferent_thing.
Qed.

Lemma keeps_on_channel text : keeps_app (on_channel_model persistInterDesc text).
Proof.
  intros [p h] x s'. unfold on_channel_model. rewrite st_bind_eq.
  change (handle (p, h)) with (Some (application (user p), (p, h))). rewrite bind_ret, st_lift_bind.
  destruct (ChannelModelParse (application (user p))) as [parse|] eqn:Et; [|done]. rewrite bind_ret.
  pose proof (indifferent_channel (application (user p)) parse text Et) as Hc.
  destruct (parse text (parsers (application (user p)))) as [res a]. rewrite st_bind_eq. intros E. split; [|done].
  apply (PreOrder_Transitive (R:=by_user (by_application R)) (p, h)
    (mkPeer (client p) (env p) (wire p) (set_application (set_parsers a (application (user p))) (user p)), h)); [exact Hc|].
  assert (keeps_app (if res =? 0 then send_model_query_req persistInterDesc sub;; mret tt else mret tt)) as Hk by keep.
  apply Hk in E as [E _]. exact E.
Qed.
#[local] Hint Resolve keeps_on_thing keeps_on_channel : keeps.

Lemma keeps_on_recv m : keeps_app (on_recv_callback persistInterDesc json_parse_string m).
Proof. unfold on_recv_callback, on_device_list. keep. Qed.
#[local] Hint Resolve keeps_on_recv : keeps.

#[warnings="-notation-for-abbreviation"] #[local] Notation hub_dowork :=
  (iothub_mqtt_dowork persistInterDesc no_callback sub (on_recv_callback persistInterDesc json_parse_string)).

Lemma keeps_hub_dowork events : keeps_whole (hub_dowork events).
Proof. apply keeps_iothub_mqtt_dowork; auto with keeps. Qed.
#[local] Hint Resolve keeps_on_client keeps_subscribe_topics keeps_hub_dowork : keeps.

Lemma keeps_connect_loop iterations :
  keeps_whole (connect_loop persistInterDesc json_parse_string iterations).
Proof. induction iterations as [|events iterations IH]; cbn [connect_loop]; keep. Qed.
#[local] Hint Resolve keeps_connect_loop : keeps.

Lemma keeps_connected iterations :
  keeps_whole (connect_loop persistInterDesc json_parse_string iterations;;
    on_client (modify_hub (set_isDestroyCalled false));; on_client (modify_hub (set_isDisconnectCalled false))).
Proof.
  assert (∀ f, (∀ d : Hub, R (application d) (application (f d))) → keeps_whole (on_client (modify_hub f))) as Hm.
  { intros f Hf. apply keeps_on_client, keeps_modify_hub, Hf. }
  keep; apply Hm; intros d; by reflexivity.
Qed.

(** The client that connects is [e] at first. *)
Lemma connected_trusted e o s iterations h r c h1 :
  iotea_client_connect persistInterDesc json_parse_string e o s iterations h = Some ((r, Some c), h1) →
  R e (application (user (callContext c))) ∧ trusted (by_peer (by_application R)) c.
Proof.
  unfold iotea_client_connect. destruct o as [o|]; [|done]. destruct (_ && _); [|done]. rewrite st_bind_eq.
  destruct (init_iotea_client _ _ _ _ _ _) as [[[c0|] h0]|] eqn:E; [|done|done]. rewrite bind_ret. intros E2.
  assert (gives (init_iotea_client persistInterDesc json_parse_string e o s) (λ r, match r with
    | None => True
    | Some c => trusted (by_peer (by_application R)) c ∧ application (user (callContext c)) = e end)) as Hg.
  { unfold init_iotea_client. cbv zeta. any. any. apply created_trusted; auto with keeps. }
  apply Hg in E as [_ [Ht Ea]]. unfold connect_client in E2.
  apply bind_Some in E2 as ([[] [c1 h2]] & E & E2). injection E2 as _ <- _.
  pose proof (keeps_connected iterations _ _ _ E) as [Hs _]. destruct (Hs Ht) as [Hc Ht2]. split; [|done].
  unfold by_peer, by_application in Hc. cbn [fst] in Hc. by rewrite Ea in Hc.
Qed.

(** A round of work, when also repeated requests may be counted. *)
Lemma keeps_iotea_client_dowork events :
  (∀ n e, R e (set_reqCount n e)) → keeps_whole (iotea_client_dowork persistInterDesc json_parse_string events).
Proof.
  intros Hn. assert (keeps_app (repeat_request persistInterDesc)).
  { assert (∀ f, keeps_app (modify_handle (λ e, set_reqCount (f e) e))) as Hf by (intros f; by apply keeps_modify_handle).
    unfold repeat_request. keep. }
  unfold iotea_client_dowork. keep.
Qed.
End callbacks.

#[local] Hint Extern 0 (Indifferent _) => apply _ : keeps.
#[local] Hint Extern 0 (Tolerant _) => apply _ : keeps.
#[local] Hint Resolve keeps_hub keeps_alloc keeps_current_ms keeps_timed keeps_handle keeps_device_query keeps_on_client
  keeps_subscribe_topics keeps_hub_dowork : keeps.

(** ** A round of work *)

(** No request is repeated, an answer is not forgotten. *)
Record calm e e' : Prop := {
  calm_identity : identity e' = identity e;
  calm_count : reqCount e' = reqCount e;
  calm_answer : reqAns e = true → reqAns e' = true }.

#[export] Instance calm_indifferent : Indifferent calm.
Proof.
  split; [|intros; by split..]. split; [|intros; by split..].
  split; [intros e; by split|]. intros e1 e2 e3 [] []. split; [congruence|congruence|auto].
Qed.

#[local] Hint Extern 1 (keeps _ (modify_handle _) _) => apply keeps_modify_handle; intros ?; by split : keeps.

(** At most one request is repeated, and none after an answer or three of them. *)
Record round e e' : Prop := {
  round_identity : identity e' = identity e;
  round_count : reqCount e' = reqCount e ∨
    reqAns e = false ∧ reqCount e < 3 ∧ reqCount e' = reqCount e + 1;
  round_answer : reqAns e = true → reqAns e' = true }.

Lemma calm_round e e' : calm e e' → round e e'.
Proof. intros [Hi Hc Ha]. split; [done|by left|done]. Qed.

Lemma calm_before e1 e2 e3 : calm e1 e2 → round e2 e3 → round e1 e3.
Proof.
  intros [Hi Hc Ha] [Hi2 Hc2 Ha2]. split; [congruence| |auto]. rewrite Hc in Hc2.
  destruct Hc2 as [|(Hr & ? & ?)]; [by left|right]. split; [|done].
  destruct (reqAns e1); [|done]. rewrite Ha in Hr; [done|done].
Qed.

Lemma calm_after e1 e2 e3 : round e1 e2 → calm e2 e3 → round e1 e3.
Proof. intros [Hi Hc Ha] [Hi2 Hc2 Ha2]. split; [congruence| |auto]. by rewrite Hc2. Qed.

#[warnings="-notation-for-abbreviation"] #[local] Notation in_round := (by_codec (A:=Hub) (by_application round)).
#[warnings="-notation-for-abbreviation"] #[local] Notation calmly := (by_codec (A:=Hub) (by_application calm)).

(** The decoder's callback is trusted with what [calm] says. *)
Definition rounds (s s' : Codec * Heap) : Prop :=
  trusted (by_peer (by_application calm)) s.1 →
  round (application (user (callContext s.1))) (application (user (callContext s'.1))) ∧
  trusted (by_peer (by_application calm)) s'.1.

Lemma calm_rounds s s' : calmly s s' → rounds s s'.
Proof. intros Hs Ht. destruct (Hs Ht). split; [by apply calm_round|done]. Qed.
Lemma calm_rounds_before s1 s2 s3 : calmly s1 s2 → rounds s2 s3 → rounds s1 s3.
Proof.
  intros H1 H2 Ht. destruct (H1 Ht) as [Hc Ht2], (H2 Ht2) as [Hr Ht3]. split; [by eapply calm_before|done].
Qed.
Lemma calm_rounds_after s1 s2 s3 : rounds s1 s2 → calmly s2 s3 → rounds s1 s3.
Proof.
  intros H1 H2 Ht. destruct (H1 Ht) as [Hc Ht2], (H2 Ht2) as [Hr Ht3]. split; [by eapply calm_after|done].
Qed.

Lemma keeps_repeat_request :
  keeps (by_user (A:=Hub) (by_application round)) (repeat_request persistInterDesc) (λ _, True).
Proof.
  apply (keeps_seq (by_user (by_application calm)) (by_user (by_application round))); [auto with keeps| |].
  2: { intros s1 s2 s3. apply calm_before. }
  intros now. apply (keeps_seq (by_user (by_application calm)) (by_user (by_application round))); [keep| |].
  2: { intros s1 s2 s3. apply calm_before. }
  intros t [p h] x s' E. split; [|done]. rewrite st_bind_eq in E.
  change (handle (p, h)) with (Some (application (user p), (p, h))) in E. rewrite bind_ret in E.
  destruct (_ && _ && _) eqn:Eg; [|injection E as _ <-; by apply calm_round].
  rewrite st_bind_eq in E. destruct (send_device_query_req _ _ _ _) as [[r [p1 h1]]|] eqn:Es; [|done].
  apply (keeps_device_query calm) in Es as [[Hi Hc Ha] _]. cbn [fst] in Hi, Hc, Ha. injection E as _ <-.
  apply andb_prop in Eg as [Eg Hlt]. apply andb_prop in Eg as [_ Hans]. apply negb_true_iff in Hans.
  split; [exact Hi| |exact Ha]. right. split; [done|]. split; [by apply Z.ltb_lt|]. cbn. by rewrite Hc.
Qed.

Lemma rounds_work events :
  keeps rounds (iotea_client_dowork persistInterDesc json_parse_string events) (λ _, True).
Proof.
  assert (keeps rounds (on_client (repeat_request persistInterDesc)) (λ _, True)) as Hrep.
  { intros [c h] x [c' h']. unfold on_client. destruct (repeat_request _ _) as [[y [p h1]]|] eqn:E; [|done].
    intros [= <- <- <-]. apply keeps_repeat_request in E as [E _]. split; [|done]. intros Hc. by split. }
  apply (keeps_seq calmly rounds); [auto with keeps| |exact calm_rounds_before]. intros d.
  destruct (_ || _); [apply (keeps_incl calmly); [exact calm_rounds|keep]|].
  apply (keeps_seq calmly rounds); [keep| |exact calm_rounds_before]. intros [].
  apply (keeps_seq calmly rounds); [keep| |exact calm_rounds_before]. intros [].
  - apply (keeps_seq rounds calmly); [exact Hrep| |exact calm_rounds_after]. intros []. keep.
  - apply (keeps_incl calmly); [exact calm_rounds|keep].
Qed.
End requests.
