(* ===== verification/IoteaTheory.v ===== *)
(** * IoteaTheory: the address of the broker, topics and requests.

    [located] says what an address means; the scanner finds it.  A topic of the
    client is the text of its format.  The reaction to a message is a function of
    its topic and text. *)
From S2P Require Import Prelude.
From stdpp Require Import strings gmap.
From S2P Require Import Effects.
From S2P Require Import Alloc.
From S2P Require Import CString.
From S2P Require Import Json.
From S2P Require Import Printf.
From S2P Require Import MqttCodec.
From S2P Require Import MqttDecoder.
From S2P Require Import MqttCodecTheory.
From S2P Require Import MqttMessage.
From S2P Require Import MqttClient.
From S2P Require Import MqttClientTheory.
From S2P Require Import IotHubClient.
From S2P Require Import IotHubTheory.
From S2P Require Import IotHubSetup.
From S2P Require Import IoteaClient.
#[local] Open Scope Z_scope.
#[local] Set Warnings "-level-tolerance".

(** ** The address of the broker *)

Definition colon : Z := 58.

(** [tcp] or [ssl] and anything without a colon, a colon, two characters, the host,
    the last colon, the port. *)
Record located (broker : list Z) (type : MQTT_CONNECTION_TYPE) (host : list Z) : Prop := {
  located_host : host ≠ [];
  located_text : ∃ scheme a b port, broker = scheme ++ (colon :: a :: b :: host ++ (colon :: port)) ∧
    colon ∉ scheme ∧ colon ∉ port;
  located_type : match type with
    | MQTT_CONNECTION_TCP => take 3 broker = str "tcp"
    | MQTT_CONNECTION_TLS => take 3 broker = str "ssl"
    | MQTT_CONNECTION_MUTUAL_TLS => False
    end }.

Lemma find_colons_none rest pos head end_ : colon ∉ rest → find_colons rest pos head end_ = (head, end_).
Proof.
  revert pos. induction rest as [|c rest IH]; intros pos Hn; [done|].
  apply not_elem_of_cons in Hn as [Hc Hn]. cbn [find_colons].
  rewrite (proj2 (Z.eqb_neq c 58)) by (intros ->; done). by apply IH.
Qed.

Lemma find_colons_app l rest pos head end_ :
  colon ∉ l → find_colons (l ++ rest) pos head end_ = find_colons rest (pos + length l) head end_.
Proof.
  revert pos. induction l as [|c l IH]; intros pos Hn; cbn [app length]; [by rewrite Nat.add_0_r|].
  apply not_elem_of_cons in Hn as [Hc Hn]. cbn [find_colons].
  rewrite (proj2 (Z.eqb_neq c 58)) by (intros ->; done). rewrite IH by done. f_equal. lia.
Qed.

(** After the first colon the last one counts. *)
Lemma find_colons_last l post pos head end_ :
  colon ∉ post → head ≠ 0%nat →
  find_colons (l ++ colon :: post) pos head end_ = (head, (pos + length l)%nat).
Proof.
  intros Hn Hh. revert pos end_. induction l as [|c l IH]; intros pos end_; cbn [app length find_colons].
  - change (colon =? 58) with true. cbn [negb]. rewrite (proj2 (Nat.eqb_neq _ _)) by done.
    rewrite find_colons_none by done. f_equal. lia.
  - rewrite (proj2 (Nat.eqb_neq _ _)) by done. destruct (c =? 58); rewrite IH; f_equal; lia.
Qed.

(** Every text has no colon, one, or a first and a last one. *)
Lemma colons broker :
  colon ∉ broker ∨
  (∃ pre post, broker = pre ++ (colon :: post) ∧ colon ∉ pre ∧ colon ∉ post) ∨
  (∃ pre mid post, broker = pre ++ (colon :: mid ++ (colon :: post)) ∧ colon ∉ pre ∧ colon ∉ post).
Proof.
  induction broker as [|c broker IH]; [left; apply not_elem_of_nil|].
  destruct (decide (c = colon)) as [->|Hc].
  - right. destruct IH as [Hn|[(pre & post & -> & Hpre & Hpost)|(pre & mid & post & -> & Hpre & Hpost)]].
    + left. exists [], broker. split; [done|]. split; [apply not_elem_of_nil|done].
    + right. exists [], pre, post. split; [done|]. split; [apply not_elem_of_nil|done].
    + right. exists [], (pre ++ colon :: mid), post. rewrite <- app_assoc. split; [done|].
      split; [apply not_elem_of_nil|done].
  - destruct IH as [Hn|[(pre & post & -> & Hpre & Hpost)|(pre & mid & post & -> & Hpre & Hpost)]].
    + left. by apply not_elem_of_cons.
    + right. left. exists (c :: pre), post. split; [done|]. split; [by apply not_elem_of_cons|done].
    + right. right. exists (c :: pre), mid, post. split; [done|]. split; [by apply not_elem_of_cons|done].
Qed.

Lemma find_colons_spec pre mid post :
  colon ∉ pre → colon ∉ post →
  find_colons (pre ++ colon :: mid ++ colon :: post) 0 0 0 = ((length pre + 3)%nat, (length pre + 1 + length mid)%nat).
Proof.
  intros Hpre Hpost. rewrite find_colons_app by done. cbn [find_colons]. change (colon =? 58) with true.
  cbn [Nat.eqb]. rewrite find_colons_last; [|done|lia]. f_equal. lia.
Qed.

Lemma copy_chars_spec n pos head broker blk :
  bytes broker → (pos + n <= length blk)%nat → (head + pos + n <= length broker)%nat →
  copy_chars n pos head broker blk =
    Some (take pos blk ++ take n (drop (head + pos) broker) ++ drop (pos + n) blk).
Proof.
  intros Hb. revert pos blk. induction n as [|n IH]; intros pos blk Hl Hs.
  - cbn [copy_chars]. by rewrite take_0, Nat.add_0_r, app_nil_l, take_drop.
  - cbn [copy_chars]. destruct (lookup_lt_is_Some_2 broker (head + pos)) as [c Ec]; [lia|].
    unfold char_at. rewrite lookup_app_l, Ec, bind_ret by lia. rewrite st8_Some, bind_ret by lia.
    rewrite IH; [|by rewrite length_insert; lia|lia].
    rewrite u8_id by (eapply Forall_lookup_1; [exact Hb|exact Ec]).
    rewrite (drop_S broker c (head + pos)) by done. cbn [take].
    replace (S (head + pos))%nat with (head + S pos)%nat by lia.
    rewrite (take_S_r _ _ c) by (apply list_lookup_insert_eq; lia).
    rewrite take_insert_ge by lia. rewrite drop_insert_lt by lia.
    rewrite <- app_assoc. cbn [app]. do 3 f_equal. f_equal. f_equal. lia.
Qed.

(** What is written to a new block of the endpoint. *)
Lemma endpoint_block broker head n blk :
  bytes broker → length blk = S n → (head + n <= length broker)%nat →
  (blk ← st8 blk n 0; copy_chars n 0 head broker blk) = Some (take n (drop head broker) ++ [0]).
Proof.
  intros Hb Hl Hs. rewrite st8_Some, bind_ret by lia. rewrite copy_chars_spec; [|done|by rewrite length_insert; lia|lia].
  rewrite take_0, Nat.add_0_r. cbn [app]. do 2 f_equal. cbn [Nat.add].
  rewrite (drop_S _ (u8 0) n) by (apply list_lookup_insert_eq; lia).
  rewrite drop_ge; [done|]. rewrite length_insert. lia.
Qed.

Lemma starts_spec broker a b c :
  a ≠ 0 → b ≠ 0 → c ≠ 0 → cstring broker → starts broker a b c = Some (bool_decide (take 3 broker = [a; b; c])).
Proof.
  intros Ha Hb Hc Hs. unfold starts, char_at.
  destruct broker as [|x [|y [|z rest]]]; cbn [app lookup list_lookup take];
    repeat (rewrite bind_ret; try match goal with |- context [?u =? ?v] => destruct (Z.eqb_spec u v) end);
    subst; try congruence; (rewrite bool_decide_true by done; done) || (rewrite bool_decide_false by congruence; done).
Qed.

(** What the scanner finds is the host, and nothing else. *)
Lemma located_scan broker type host :
  located broker type host → ∃ head, find_colons broker 0 0 0 = (head, (head + length host)%nat) ∧ head ≠ 0%nat ∧
    host = take (length host) (drop head broker).
Proof.
  intros [Hne (scheme & a & b & port & -> & Hs & Hp) _]. exists (length scheme + 3)%nat.
  split; [|split; [lia|]].
  - pose proof (find_colons_spec scheme (a :: b :: host) port Hs Hp) as E. cbn [app] in E. rewrite E.
    cbn [length]. f_equal. lia.
  - rewrite drop_app_add'; [|done]. cbn [drop]. rewrite drop_0. by rewrite take_app_length.
Qed.

Lemma scan_located broker type head end_ :
  find_colons broker 0 0 0 = (head, end_) → head ≠ 0%nat → (head < end_)%nat →
  match type with
  | MQTT_CONNECTION_TCP => take 3 broker = str "tcp" | MQTT_CONNECTION_TLS => take 3 broker = str "ssl"
  | MQTT_CONNECTION_MUTUAL_TLS => False end →
  located broker type (take (end_ - head) (drop head broker)) ∧ (end_ <= length broker)%nat.
Proof.
  intros E Hh He Ht. destruct (colons broker) as [Hn|[(pre & post & -> & Hpre & Hpost)|(pre & mid & post & -> & Hpre & Hpost)]].
  - rewrite find_colons_none in E by done. congruence.
  - rewrite find_colons_app in E by done. cbn [find_colons] in E. change (colon =? 58) with true in E.
    cbn [Nat.eqb] in E. rewrite find_colons_none in E by done. injection E as <- <-. lia.
  - rewrite find_colons_spec in E by done. injection E as <- <-.
    destruct mid as [|a [|b [|c host]]]; cbn [length] in He; try lia.
    rewrite drop_app_add' by done. cbn [app drop length].
    replace (length pre + 1 + S (S (S (length host))) - (length pre + 3))%nat with (length (c :: host)) by (cbn; lia).
    change (c :: host ++ colon :: post) with ((c :: host) ++ colon :: post). rewrite take_app_length. split; [split|].
    + done.
    + by exists pre, a, b, post.
    + done.
    + rewrite length_app. cbn [length]. rewrite length_app. cbn [length]. lia.
Qed.

Lemma located_unique broker type host type' host' :
  located broker type host → located broker type' host' → type' = type ∧ host' = host.
Proof.
  intros Hl Hl'. split.
  - destruct Hl as [_ _ Ht], Hl' as [_ _ Ht']. destruct type, type'; try done; rewrite Ht in Ht'; discriminate Ht'.
  - apply located_scan in Hl as (head & E & _ & ->), Hl' as (head' & E' & _ & ->).
    rewrite E in E'. injection E' as <- El. f_equal. lia.
Qed.

Lemma wp_endpoint broker (Q : option (MQTT_CONNECTION_TYPE * list Z) → Heap → Prop) h :
  bytes broker → cstring broker →
  (∀ type host h', located broker type host → used 1 h h' → Q (Some (type, host ++ [0])) h') →
  (∀ h', used 0 h h' → (plenty h → ∀ type host, ¬ located broker type host) → Q None h') →
  wp (get_broker_endpiont broker) Q h.
Proof.
  intros Hb Hs HS HN. unfold get_broker_endpiont.
  apply wp_bind. eapply wp_lift; [by apply starts_spec|]. apply wp_bind.
  set (tcp := bool_decide _). set (ssl := bool_decide (take 3 broker = [115; 115; 108])).
  assert (wp (if tcp then mret false else lift (starts broker 115 115 108)) (λ x h', x = negb tcp && ssl ∧ h' = h) h) as Hssl.
  { destruct tcp; [by apply wp_ret|]. eapply wp_lift; [by apply starts_spec|done]. }
  eapply wp_mono; [exact Hssl|]. intros x h' [-> ->].
  assert (∀ type, match type with
    | MQTT_CONNECTION_TCP => take 3 broker = str "tcp" | MQTT_CONNECTION_TLS => take 3 broker = str "ssl"
    | MQTT_CONNECTION_MUTUAL_TLS => False end ↔
    negb tcp && negb (negb tcp && ssl) = false ∧ type = if tcp then MQTT_CONNECTION_TCP else MQTT_CONNECTION_TLS) as Htype.
  { intros type. unfold tcp, ssl. change (str "tcp") with [116; 99; 112]. change (str "ssl") with [115; 115; 108].
    repeat case_bool_decide; destruct type; cbn; try (split; [by intros|by intros [? ?]]); split; intros Hx; split_and?; try done;
      try congruence; destruct_and?; congruence. }
  destruct (negb tcp && negb (negb tcp && ssl)).
  { apply wp_ret, HN; [apply used_refl|]. intros _ type host [_ _ Ht]. by apply (Htype type) in Ht as [? _]. }
  destruct (find_colons broker 0 0 0) as [head end_] eqn:E.
  destruct (Nat.eqb_spec head 0) as [->|Hh]; [|destruct (Nat.leb_spec end_ head) as [He|He]]; cbn [orb].
  1, 2: apply wp_ret, HN; [apply used_refl|]; intros _ type host Hl;
    pose proof (located_host _ _ _ Hl); apply located_scan in Hl as (head' & E' & Hh' & Hhost);
    rewrite E in E'; injection E' as <- ->; destruct host; cbn in *; [done|lia].
  destruct (scan_located broker (if tcp then MQTT_CONNECTION_TCP else MQTT_CONNECTION_TLS) head end_ E Hh He) as [Hl Hlen].
  { by apply Htype. }
  replace (end_ - head + 1)%nat with (S (end_ - head)) by lia. apply wp_bind, wp_malloc.
  - intros blk h1 Hblk Hu. pose proof (endpoint_block broker head (end_ - head) blk Hb Hblk ltac:(lia)) as Eb.
    replace (S (end_ - head) - 1)%nat with (end_ - head)%nat by lia.
    destruct (st8 blk (end_ - head) 0) as [blk1|] eqn:E1; [rewrite bind_ret in Eb|discriminate Eb].
    apply wp_bind. eapply wp_lift; [done|]. apply wp_bind. eapply wp_lift; [exact Eb|]. apply wp_ret. by apply HS.
  - intros h1 Hu Hp. by apply wp_ret, HN.
Qed.

(** ** Topics *)

(** A format with one conversion. *)
Definition one_s (format : list Z) : Prop :=
  ∃ pre post, (∀ arg, format_s format arg = pre ++ arg ++ post) ∧ length format = (length pre + 2 + length post)%nat ∧
    cstring pre ∧ cstring post.

Ltac one_s pre post := exists (str pre), (str post); split; [reflexivity|split; [reflexivity|split; by apply (bool_decide_unpack _)]].

Lemma MODEL_SUB_one : one_s MODEL_SUB_TOPIC.
Proof. one_s "/ModelManager/get/reponse/"%string "/Southmodel"%string. Qed.
Lemma MODEL_PUB_one : one_s MODEL_PUB_TOPIC.
Proof. one_s "/"%string "/get/request/ModelManager/Southmodel"%string. Qed.
Lemma DEVICE_LIST_SUB_one : one_s DEVICE_LIST_SUB.
Proof. one_s "/devMgr/get/response/"%string "/devlist"%string. Qed.
Lemma DEVICE_LIST_PUB_one : one_s DEVICE_LIST_PUB.
Proof. one_s "/"%string "/get/request/devMgr/devlist"%string. Qed.
Lemma DEVICE_INFO_SUB_one : one_s DEVICE_INFO_SUB.
Proof. one_s "/devMgr/get/response/"%string "/dev"%string. Qed.
Lemma DEVICE_INFO_PUB_one : one_s DEVICE_INFO_PUB.
Proof. one_s "/"%string "/get/request/devMgr/dev"%string. Qed.

Lemma cstring_app s t : cstring (s ++ t) ↔ cstring s ∧ cstring t.
Proof. apply Forall_app. Qed.

Lemma one_s_text format arg :
  one_s format → cstring arg →
  cstring (format_s format arg) ∧ (length (format_s format arg) + 2 = length format + length arg)%nat.
Proof.
  intros (pre & post & E & El & Hpre & Hpost) Ha. rewrite E. split.
  - rewrite !cstring_app. done.
  - rewrite !length_app. lia.
Qed.

Lemma sprintf_s_fits dst size text :
  (length text < size <= length dst)%nat →
  sprintf_s dst size text = Some (Z.of_nat (length text), text ++ 0 :: drop (S (length text)) dst).
Proof.
  intros Hl. unfold sprintf_s. rewrite take_ge by lia. cbv zeta.
  assert ((0 <? size)%nat = true) as -> by (apply Nat.ltb_lt; lia).
  rewrite length_app. cbn [length]. rewrite Nat.add_1_r.
  assert ((S (length text) <=? length dst)%nat = true) as -> by (apply Nat.leb_le; lia).
  assert ((size <=? length text)%nat = false) as -> by (apply Nat.leb_gt; lia).
  rewrite bind_ret, <- app_assoc. done.
Qed.

Lemma wp_generate_topic format device (Q : option (list Z) → Heap → Prop) h :
  one_s format → cstring device →
  (∀ blk h', cstr blk = Some (format_s format device) → used 1 h h' → Q (Some blk) h') →
  (∀ h', used 0 h h' → ¬ plenty h → Q None h') →
  wp (generate_topic format (Some device)) Q h.
Proof.
  intros Hf Hd HS HN. destruct (one_s_text _ _ Hf Hd) as [Hc Hl]. apply wp_bind, wp_malloc.
  - intros blk h1 Hblk Hu. set (text := format_s format device) in *. apply wp_bind.
    eapply wp_lift; [apply sprintf_s_fits; lia|].
    cbv beta iota. rewrite (proj2 (Z.ltb_ge _ _)) by lia. apply wp_ret, HS; [|done]. by apply cstr_terminated.
  - intros h1 Hu Hp. by apply wp_ret, HN.
Qed.

(** ** Requests *)

Section requests.
Context `{Arch} {A P : Type}.
#[warnings="-notation-for-abbreviation"] Notation Hub := (@IOTHUB_MQTT_CLIENT (@IOTEA_CLIENT A) P Empty_set unit).
#[warnings="-notation-for-abbreviation"] Notation Client := (ST (@Peer Hub * Heap)).
Implicit Types (p : @Peer Hub) (h : Heap) (e : @IOTEA_CLIENT A).

Variable persistInterDesc : option (PERSIST_INTERFACE_DESCRIPTION P).
Variable json_parse_string : list Z → option JSON.

(** Nobody is told about a publication. *)
Definition silent (e : @IOTEA_CLIENT A) (x : Empty_set * MQTT_PUB_STATUS_TYPE) : @IOTEA_CLIENT A := match x.1 with end.

Lemma no_callback_silent : @no_callback A P = tell_pub silent.
Proof. reflexivity. Qed.

(** A request goes out: the next identifier is taken, and its packet is handed to the
    transport if there is one. *)
Record posted p q (subs : list (positive * @MQTT_SUB_CALLBACK_INFO unit)) (r : list Z * list Z) p' : Prop := {
  posted_holds : holds p' q subs;
  posted_user : user p' = set_packetId (next_id (packetId (user p))) (user p);
  posted_xio : xioHandle (client p') = xioHandle (client p);
  posted_wire : wire p' = wire p ++
    if online p then [packet_of (next_id (packetId (user p))) 1 r.1 r.2] else [] }.

Lemma wp_publish_request sub topic data q subs (Q : status → @Peer Hub * Heap → Prop) p h :
  holds p q subs → plenty h → mqttClientStatus (user p) ≠ MQTT_CLIENT_STATUS_NOT_CONNECTED →
  zlen topic <= USHRT_MAX → zlen topic + zlen data + 4 < max_body →
  (∀ r p' h', posted p q subs (topic, data) p' → used 0 h h' → Q r (p', h')) →
  wp (publish_request persistInterDesc sub (Some topic) data) Q (p, h).
Proof.
  intros [Hst Hq Hid] Hp Hc Ht Hd HQ. unfold publish_request, publish_mqtt_message. cbn [Z.eqb DELIVER_EXACTLY_ONCE Pos.eqb DELIVER_AT_LEAST_ONCE].
  pose proof (next_id_range _ Hid) as Hid2.
  apply wp_bind, wp_bind, wp_hub, wp_bind, wp_modify_hub, wp_ret.
  change (if USHRT_MAX <=? packetId (user p) + 1 then 1 else packetId (user p) + 1) with (next_id (packetId (user p))).
  set (id := next_id (packetId (user p))) in *. set (p1 := with_hub _ p).
  apply wp_bind. unfold store_message. apply wp_bind, wp_hub.
  change (mqttClientStatus (user p1)) with (mqttClientStatus (user p)).
  rewrite (bool_decide_false (_ = _)), andb_false_r by done. apply wp_ret.
  apply wp_bind, wp_alloc, wp_create; [apply firstn_all| |]; [|by intros].
  intros h1 Hu1. unfold publish_created. rewrite no_callback_silent.
  assert (steady p1) as Hst1 by by apply steady_hub.
  apply wp_bind, wp_hand_over; [lia|by repeat split|exact Hst1|]. intros r p2 h2 ws Hst2 Ex Eu Ew Hu2 Hws.
  assert (∀ h3, used (- msg_blocks data) h2 h3 → ∀ r, Q r (p2, h3)) as Hend.
  { intros h3 Hu3 r'. apply HQ; [|account]. split; [split| | |].
    - done.
    - rewrite Eu. by eapply queued_same; [..|exact Hq].
    - rewrite Eu. cbn. lia.
    - exact Eu.
    - exact Ex.
    - rewrite Ew. f_equal. change (online p) with (online p1).
      destruct Hws as [[-> ->]|(-> & _ & Hoff)]; [done|]. rewrite Hoff; [done|]. by apply Hu1. }
  destruct r; [apply wp_bind, wp_ret|apply wp_bind, wp_ret, wp_bind, wp_ret];
    apply wp_bind, wp_alloc, wp_destroy; intros h3 Hu3; by apply wp_ret, Hend.
Qed.

(** *** What is asked *)

(** The names that the client was given. *)
Record named e (name type : list Z) : Prop := {
  named_dev : devname e = Some name;
  named_type : proType e = Some type;
  named_string : cstring type;
  named_length : zlen type <= 60000 }.

Definition model_request (type : list Z) : list Z * list Z :=
  (snprintf 64 (format_s MODEL_PUB_TOPIC type), str "{}").
Definition list_request (type : list Z) : list Z * list Z :=
  (format_s DEVICE_LIST_PUB type, snprintf 1024 LIST_REQUEST).
Definition info_request (type name : list Z) : list Z * list Z :=
  (format_s DEVICE_INFO_PUB type, snprintf 1024 (format_s INFO_REQUEST name)).

Lemma snprintf_length n text : (1 <= n)%nat → zlen (snprintf n text) < Z.of_nat n.
Proof. intros Hn. unfold zlen, snprintf. rewrite length_take. lia. Qed.

Lemma wp_handle (Q : IOTEA_CLIENT → @Peer Hub * Heap → Prop) p h :
  Q (application (user p)) (p, h) → wp handle Q (p, h).
Proof. intros HQ. by apply wp_bind, wp_hub, wp_ret. Qed.

Lemma wp_modify_handle f (Q : unit → @Peer Hub * Heap → Prop) p h :
  Q tt (with_hub (set_application (f (application (user p))) (user p)) p, h) → wp (modify_handle f) Q (p, h).
Proof. intros HQ. by apply wp_modify_hub. Qed.

Lemma wp_send_model sub q subs name type (Q : status → @Peer Hub * Heap → Prop) p h :
  holds p q subs → plenty h → mqttClientStatus (user p) ≠ MQTT_CLIENT_STATUS_NOT_CONNECTED →
  named (application (user p)) name type →
  (∀ r p' h', posted p q subs (model_request type) p' → used 0 h h' → Q r (p', h')) →
  wp (send_model_query_req persistInterDesc sub) Q (p, h).
Proof.
  intros Hq Hp Hc [_ Ht _ _] HQ. apply wp_bind, wp_handle, wp_bind. eapply wp_lift; [exact Ht|].
  pose proof (snprintf_length 64 (format_s MODEL_PUB_TOPIC type) ltac:(lia)).
  unfold model_request in HQ. eapply wp_publish_request; [exact Hq|done|done| | |exact HQ];
    unfold USHRT_MAX, max_body; [lia|]. change (zlen (str "{}")) with 2. lia.
Qed.

Lemma wp_send_topic sub format type data q subs (Q : unit → @Peer Hub * Heap → Prop) p h :
  one_s format → cstring type → Z.of_nat (length format) + zlen type <= USHRT_MAX → zlen data < 1024 →
  holds p q subs → plenty h → mqttClientStatus (user p) ≠ MQTT_CLIENT_STATUS_NOT_CONNECTED →
  (∀ p' h', posted p q subs (format_s format type, data) p' → used 0 h h' → Q tt (p', h')) →
  wp (pub_topic ← alloc (generate_topic format (Some type));
      topic ← lift (text_of pub_topic);
      publish_request persistInterDesc sub topic data;;
      alloc (free pub_topic)) Q (p, h).
Proof.
  intros Hf Ht Hl Hd Hq Hp Hc HQ. destruct (one_s_text _ _ Hf Ht) as [_ Hlen].
  apply wp_bind, wp_alloc, wp_generate_topic; [done|done| |by intros].
  intros blk h1 Hblk Hu1. apply wp_bind. eapply wp_lift.
  { unfold text_of. rewrite Hblk. reflexivity. }
  apply wp_bind. eapply wp_publish_request; [done|by apply Hu1|done| | |].
  - unfold zlen in *. lia.
  - unfold zlen, max_body, USHRT_MAX in *. lia.
  - intros r p2 h2 Hposted Hu2. apply wp_alloc, wp_free. intros h3 Hu3. apply HQ; [done|account].
Qed.

Lemma wp_send_device sub (listed : bool) q subs name type (Q : status → @Peer Hub * Heap → Prop) p h :
  holds p q subs → plenty h → mqttClientStatus (user p) ≠ MQTT_CLIENT_STATUS_NOT_CONNECTED →
  named (application (user p)) name type →
  let r := if listed then list_request type else info_request type name in
  (∀ p' h', posted p q subs r p' → used 0 h h' → Q OK (p', h')) →
  wp (send_device_query_req persistInterDesc sub listed) Q (p, h).
Proof.
  intros Hq Hp Hc [Hd Ht Hs Hl] r HQ. apply wp_bind, wp_handle, wp_bind. rewrite Hd, Ht. unfold r in HQ.
  destruct listed; [|apply wp_bind; eapply wp_lift; [done|]];
    (eapply wp_send_topic; [|exact Hs| |apply (snprintf_length 1024); lia|done|done|done|]).
  - apply DEVICE_LIST_PUB_one.
  - change (length DEVICE_LIST_PUB) with 30%nat. unfold USHRT_MAX. lia.
  - intros p' h' Hposted Hu. by apply wp_ret, HQ.
  - apply DEVICE_INFO_PUB_one.
  - change (length DEVICE_INFO_PUB) with 26%nat. unfold USHRT_MAX. lia.
  - intros p' h' Hposted Hu. by apply wp_ret, HQ.
Qed.

(** *** Reactions *)

(** The string in a payload: up to a 0. *)
Definition string_of (payload : list Z) : list Z := default [] (cstr (payload ++ [0])).

Lemma cstr_ended l : cstr (l ++ [0]) = Some (string_of l).
Proof.
  unfold string_of. assert (is_Some (cstr (l ++ [0]))) as [s ->]; [|done].
  induction l as [|c l [s IH]]; [by eexists|]. cbn [app cstr]. destruct (c =? 0); [by eexists|].
  rewrite IH. by eexists.
Qed.

Lemma wp_STRING_from_byte_array payload (Q : option (list Z) → Heap → Prop) h :
  plenty h → (∀ h', used 2 h h' → Q (Some (payload ++ [0])) h') →
  wp (STRING_from_byte_array (match payload with [] => None | _ => Some payload end) (length payload)) Q h.
Proof.
  intros Hp HQ. unfold STRING_from_byte_array.
  assert (negb (bool_decide (is_Some (match payload with [] => None | _ => Some payload end)))
    && (0 <? length payload)%nat = false) as ->.
  { destruct payload; [done|]. rewrite bool_decide_true by done. done. }
  apply wp_bind, wp_malloc_struct; [|by intros]. intros h1 Hu1.
  apply wp_bind, wp_malloc; [|intros h2 _ Hn; by destruct Hn, Hu1 as [_ Hp1]; apply Hp1].
  intros blk h2 Hblk Hu2. destruct payload as [|x l].
  - cbn [length copy_to Nat.eqb]. destruct blk as [|y [|z blk]]; try (cbn in Hblk; lia).
    apply wp_bind. eapply wp_lift; [done|]. apply wp_bind. eapply wp_lift; [done|]. apply wp_ret, HQ. account.
  - apply wp_bind. eapply wp_lift; [apply copy_to_spec; lia|]. rewrite take_ge by lia. apply wp_bind. eapply wp_lift.
    { rewrite st8_Some by (rewrite length_splice; lia). reflexivity. }
    apply wp_ret.
    assert (<[length (x :: l):=u8 0]> (splice 0 (x :: l) blk) = (x :: l) ++ [0]) as ->; [|apply HQ; account].
    unfold splice. rewrite take_0, app_nil_l, Nat.add_0_l.
    rewrite insert_app_r_alt, Nat.sub_diag by lia.
    destruct (drop (length (x :: l)) blk) as [|y [|z t]] eqn:E;
      apply (f_equal length) in E; rewrite length_drop, Hblk in E; cbn [length] in E; try lia. done.
Qed.

(** The names of the devices in an answer; every element needs one. *)
Definition device_name (item : JSON) : option (list Z) :=
  json_object_dotget_string (json_value_get_object (Some item)) (str "dev").
Definition body_of (fields : list (list Z * JSON)) : list JSON :=
  default [] (json_object_dotget_array (Some fields) (str "body")).

Lemma in_list_spec items pre devname b :
  Forall (λ i, is_Some (device_name i)) items →
  in_list (length items) (length pre) (Some (pre ++ items)) devname b =
    Some (b || bool_decide (Some devname ∈ device_name <$> items)).
Proof.
  intros Hi. revert pre b. induction Hi as [|item items [n En] Hi IH]; intros pre b; cbn [length in_list].
  { rewrite bool_decide_false by apply not_elem_of_nil. by rewrite orb_false_r. }
  unfold json_array_get_object. rewrite bind_ret, list_lookup_middle by done.
  change (json_object_dotget_string (json_value_get_object (Some item)) (str "dev")) with (device_name item).
  rewrite En, bind_ret. specialize (IH (pre ++ [item])). rewrite length_app, <- app_assoc in IH.
  cbn [length app] in IH. rewrite Nat.add_1_r in IH. rewrite IH. f_equal. unfold strequal.
  cbn [fmap list_fmap]. rewrite En. destruct (decide (n = devname)) as [->|Hne].
  - rewrite (bool_decide_true (devname = devname)) by done. rewrite (bool_decide_true (_ ∈ _ :: _)) by by left.
    by rewrite orb_true_r.
  - rewrite (bool_decide_false (n = devname)) by done. f_equal. apply bool_decide_ext. rewrite elem_of_cons.
    split; [by right|]. intros [[= ->]|]; done.
Qed.

(** Whether the client is among the devices of an answer. *)
Definition listed (text name : list Z) : bool :=
  match json_parse_string text with
  | Some (JSONObject fields) => bool_decide (Some name ∈ device_name <$> body_of fields)
  | _ => false
  end.

(** An answer the client can read: the devices have names. *)
Definition readable (text : list Z) : Prop :=
  match json_parse_string text with
  | Some (JSONObject fields) => Forall (λ i, is_Some (device_name i)) (body_of fields)
  | _ => True
  end.

(** What a message on [topic] makes the client ask, and the new state of the
    parsers: a model ([l]) is parsed, information on a device ([v]) is parsed and its
    model asked for, and in a list of devices ([t]) the client looks for itself. *)
Definition reaction e (thing channel : list Z → A → Z * A) (name type topic text : list Z)
    : list (list Z * list Z) * A :=
  let c := default 0 (last topic) in
  if c =? 108 then ([], (thing text (parsers e)).2)
  else if c =? 118 then
    let '(res, a) := channel text (parsers e) in
    (if res =? 0 then [model_request type] else [], a)
  else if c =? 116 then (if listed text name then [info_request type name] else [], parsers e)
  else ([], parsers e).

(** The packets of requests, after the identifier [id], and the last identifier. *)
Fixpoint request_packets (id : Z) (rs : list (list Z * list Z)) : list Wire :=
  match rs with
  | [] => []
  | r :: rs => packet_of (next_id id) 1 r.1 r.2 :: request_packets (next_id id) rs
  end.
Definition last_id (id : Z) (rs : list (list Z * list Z)) : Z := Nat.iter (length rs) next_id id.

(** From [p] to [p']: the client has the state [e'], the requests [rs] were made. *)
Record answered p q (subs : list (positive * @MQTT_SUB_CALLBACK_INFO unit)) e' (rs : list (list Z * list Z)) p' : Prop := {
  answered_holds : holds p' q subs;
  answered_user : user p' = set_application e' (set_packetId (last_id (packetId (user p)) rs) (user p));
  answered_xio : xioHandle (client p') = xioHandle (client p);
  answered_wire : wire p' = wire p ++ if online p then request_packets (packetId (user p)) rs else [] }.

Lemma posted_answered p q subs r p' :
  posted p q subs r p' → answered p q subs (application (user p)) [r] p'.
Proof. intros [Hh Hu Hx Hw]. split; [done|by rewrite Hu|done|done]. Qed.

Lemma answered_nothing p q subs e' :
  holds p q subs → answered p q subs e' [] (with_hub (set_application e' (user p)) p).
Proof.
  intros [Hst Hq Hid]. split; [split|..].
  - by apply steady_hub.
  - by eapply queued_same; [..|exact Hq].
  - done.
  - by destruct p as [? ? ? []].
  - done.
  - cbn. destruct (online p); by rewrite app_nil_r.
Qed.

Lemma holds_application p q subs e : holds p q subs → holds (with_hub (set_application e (user p)) p) q subs.
Proof. intros [Hst Hq Hid]. split; [by apply steady_hub|by eapply queued_same; [..|exact Hq]|done]. Qed.

Lemma wp_on_device_list text q subs name type (Q : unit → @Peer Hub * Heap → Prop) p h :
  holds p q subs → plenty h → mqttClientStatus (user p) ≠ MQTT_CLIENT_STATUS_NOT_CONNECTED →
  named (application (user p)) name type → readable text →
  (∀ p' h', answered p q subs (application (user p))
     (if listed text name then [info_request type name] else []) p' → used 0 h h' → Q tt (p', h')) →
  wp (on_device_list persistInterDesc json_parse_string text) Q (p, h).
Proof.
  intros Hq Hp Hc Hn Hr HQ. unfold on_device_list, readable, listed in *.
  assert (answered p q subs (application (user p)) [] p) as Hnone.
  { pose proof (answered_nothing p q subs (application (user p)) Hq) as Hn0. by destruct p as [? ? ? []]. }
  destruct (json_parse_string text) as [[| | | | |fields]|]; try (apply wp_ret, HQ; [exact Hnone|apply used_refl]).
  apply wp_bind, wp_handle. set (names := device_name <$> body_of fields) in *.
  apply wp_bind. apply (wp_lift _ (bool_decide (Some name ∈ names))).
  { unfold names, body_of in *. destruct (json_object_dotget_array (Some fields) (str "body")) as [l|]; cbn [json_array_get_count default].
    - destruct l as [|x l]; [by rewrite bool_decide_false by apply not_elem_of_nil|].
      rewrite (named_dev _ _ _ Hn), bind_ret. exact (in_list_spec (x :: l) [] name false Hr).
    - by rewrite bool_decide_false by apply not_elem_of_nil. }
  destruct (bool_decide _); [|apply wp_ret, HQ; [exact Hnone|apply used_refl]].
  apply wp_bind. eapply (wp_send_device _ false); [exact Hq|done|done|exact Hn|].
  intros p' h' Hp' Hu. apply wp_ret, HQ; [by apply posted_answered|done].
Qed.

Lemma wp_dispatch thing channel topic text c q subs name type (Q : unit → @Peer Hub * Heap → Prop) p h :
  holds p q subs → plenty h → mqttClientStatus (user p) ≠ MQTT_CLIENT_STATUS_NOT_CONNECTED →
  named (application (user p)) name type → (c = 116 → readable text) → last topic = Some c →
  ThingModelParse (application (user p)) = Some thing → ChannelModelParse (application (user p)) = Some channel →
  let '(r, a) := reaction (application (user p)) thing channel name type topic text in
  (∀ p' h', answered p q subs (set_parsers a (application (user p))) r p' → used 0 h h' → Q tt (p', h')) →
  wp (if c =? 108 then on_thing_model text
      else if c =? 118 then on_channel_model persistInterDesc text
      else if c =? 116 then on_device_list persistInterDesc json_parse_string text
      else mret tt) Q (p, h).
Proof.
  intros Hq Hp Hc Hn Hr Ec Et Ech. unfold reaction. rewrite Ec. cbv zeta. change (default 0 (Some c)) with c.
  destruct (Z.eqb_spec c 108); [|destruct (Z.eqb_spec c 118); [|destruct (Z.eqb_spec c 116)]].
  - intros HQ. apply wp_bind, wp_handle, wp_bind. eapply wp_lift; [exact Et|]. apply wp_modify_handle.
    apply HQ; [by apply answered_nothing|apply used_refl].
  - destruct (channel text (parsers (application (user p)))) as [res a] eqn:E. intros HQ.
    apply wp_bind, wp_handle, wp_bind. eapply wp_lift; [exact Ech|]. rewrite E. apply wp_bind, wp_modify_handle.
    set (p1 := with_hub _ p). assert (holds p1 q subs) as Hq1 by by apply (holds_application p).
    destruct (res =? 0).
    + apply wp_bind. eapply wp_send_model; [exact Hq1|done|done| |].
      * destruct Hn. by split.
      * intros r p' h' Hp' Hu. apply wp_ret, HQ; [|done].
        apply posted_answered in Hp' as [Hh Eu Ex Ew]. by split.
    + apply wp_ret, HQ; [|apply used_refl]. by apply answered_nothing.
  - intros HQ. eapply wp_on_device_list; [done..|by apply Hr|]. intros p' h' Hp' Hu. apply HQ; [|done].
    by destruct (application (user p)).
  - intros HQ. apply wp_ret, HQ; [|apply used_refl].
    pose proof (answered_nothing p q subs (application (user p)) Hq) as Hn0.
    destruct p as [? ? ? []]. cbn in *. by destruct application.
Qed.

(** A message that arrives. *)
Lemma wp_message id qos topic payload dup retain thing channel q subs name type
    (Q : unit → @Peer Hub * Heap → Prop) p h :
  holds p q subs → plenty h → mqttClientStatus (user p) ≠ MQTT_CLIENT_STATUS_NOT_CONNECTED →
  named (application (user p)) name type → topic ≠ [] → (last topic = Some 116 → readable (string_of payload)) →
  ThingModelParse (application (user p)) = Some thing → ChannelModelParse (application (user p)) = Some channel →
  let '(r, a) := reaction (application (user p)) thing channel name type topic (string_of payload) in
  (∀ p' h', answered p q subs (set_reqAns true (set_parsers a (application (user p)))) r p' → used 0 h h' →
     Q tt (p', h')) →
  wp (on_recv_callback persistInterDesc json_parse_string (owned id qos topic payload dup retain)) Q (p, h).
Proof.
  intros Hq Hp Hc Hn Ht Hr Eth Ech.
  destruct (last topic) as [c|] eqn:Ec; [|by apply last_None in Ec].
  pose proof (λ Q h, wp_dispatch thing channel topic (string_of payload) c q subs name type Q p h) as Hd.
  destruct (reaction _ _ _ _ _ _ _) as [r a]. intros HQ.
  unfold on_recv_callback, owned. cbn [mqttmessage_getTopicName mqttmessage_getApplicationMsg msg_topicName const_payload
    no_payload payload_length Nat.ltb Nat.leb appPayload message].
  apply wp_bind, wp_alloc, wp_STRING_from_byte_array; [done|]. intros h1 Hu1.
  apply wp_bind. eapply wp_lift; [apply cstr_ended|]. apply wp_bind. eapply wp_lift; [exact Ec|].
  apply wp_bind, Hd; try done; [by apply Hu1|by intros ->; apply Hr|]. intros p2 h2 [Hq2 Eu Ex Ew] Hu2.
  apply wp_bind, wp_modify_handle, wp_alloc, wp_bind, wp_free. intros h3 Hu3. apply wp_free_struct. intros h4 Hu4.
  apply HQ; [|account]. split; [by apply holds_application| |done|done].
  cbn [user with_hub]. by rewrite Eu.
Qed.

(** *** Several messages *)

(** What the fields of a message are. *)
Record Received := mkReceived {
  r_id : Z; r_qos : Z; r_topic : list Z; r_payload : list Z; r_dup : bool; r_retain : bool }.

Fixpoint receive_all (ms : list Received) : Client unit :=
  match ms with
  | [] => mret tt
  | m :: ms =>
      on_recv_callback persistInterDesc json_parse_string
        (owned (r_id m) (r_qos m) (r_topic m) (r_payload m) (r_dup m) (r_retain m));;
      receive_all ms
  end.

(** The requests that follow from messages, and the client after them. *)
Fixpoint conversation (thing channel : list Z → A → Z * A) (name type : list Z) e (ms : list Received)
    : list (list Z * list Z) * @IOTEA_CLIENT A :=
  match ms with
  | [] => ([], e)
  | m :: ms =>
      let '(r, a) := reaction e thing channel name type (r_topic m) (string_of (r_payload m)) in
      let '(rs, e') := conversation thing channel name type (set_reqAns true (set_parsers a e)) ms in
      (r ++ rs, e')
  end.

Lemma answered_same p q subs : holds p q subs → answered p q subs (application (user p)) [] p.
Proof. intros Hq. pose proof (answered_nothing p q subs (application (user p)) Hq) as Hn. by destruct p as [? ? ? []]. Qed.

Lemma last_id_app id rs rs' : last_id id (rs ++ rs') = last_id (last_id id rs) rs'.
Proof. unfold last_id. by rewrite length_app, Nat.add_comm, Nat.iter_add. Qed.

Lemma request_packets_app id rs rs' :
  request_packets id (rs ++ rs') = request_packets id rs ++ request_packets (last_id id rs) rs'.
Proof.
  revert id. induction rs as [|r rs IH]; intros id; cbn [app request_packets]; [done|].
  rewrite IH. unfold last_id. cbn [length]. by rewrite Nat.iter_succ_r.
Qed.

Lemma answered_trans p1 p2 p3 q subs e1 e2 rs1 rs2 :
  answered p1 q subs e1 rs1 p2 → answered p2 q subs e2 rs2 p3 → answered p1 q subs e2 (rs1 ++ rs2) p3.
Proof.
  intros [_ Eu1 Ex1 Ew1] [Hh Eu2 Ex2 Ew2]. split; [done| |by rewrite Ex2|].
  - rewrite Eu2, Eu1. cbn. by rewrite last_id_app.
  - rewrite Ew2, Ew1, Eu1, <- app_assoc. f_equal. rewrite request_packets_app.
    assert (online p2 = online p1) as -> by (unfold online; by rewrite Eu1, Ex1). by destruct (online p1).
Qed.

(** All of them, with the memory they need. *)
Lemma wp_receive_all thing channel name type q subs ms p h :
  holds p q subs → plenty h → mqttClientStatus (user p) ≠ MQTT_CLIENT_STATUS_NOT_CONNECTED →
  named (application (user p)) name type →
  ThingModelParse (application (user p)) = Some thing → ChannelModelParse (application (user p)) = Some channel →
  Forall (λ m, r_topic m ≠ [] ∧ (last (r_topic m) = Some 116 → readable (string_of (r_payload m)))) ms →
  wp (receive_all ms) (λ _ '(p', h'),
    let '(rs, e') := conversation thing channel name type (application (user p)) ms in
    answered p q subs e' rs p' ∧ used 0 h h') (p, h).
Proof.
  intros Hq Hp Hc Hn Ht Hch Hms. revert p h Hq Hp Hc Hn Ht Hch.
  induction Hms as [|m ms [Hm Hr] Hms IH]; intros p h Hq Hp Hc Hn Ht Hch; cbn [receive_all conversation].
  - apply wp_ret. split; [|apply used_refl]. by apply answered_same.
  - pose proof (wp_message (r_id m) (r_qos m) (r_topic m) (r_payload m) (r_dup m)
      (r_retain m) thing channel q subs name type) as Hw.
    specialize (λ Q, Hw Q p h Hq Hp Hc Hn Hm Hr Ht Hch).
    destruct (reaction _ _ _ _ _ _ _) as [r a]. apply wp_bind, Hw. intros p1 h1 H1 Hu1.
    pose proof (answered_user _ _ _ _ _ _ H1) as Eu.
    eapply wp_mono; [apply IH; [apply H1|by apply Hu1|by rewrite Eu|rewrite Eu; by destruct Hn|by rewrite Eu..]|].
    intros _ [p2 h2]. rewrite Eu. cbn [application set_application]. destruct (conversation _ _ _ _ _ _) as [rs e'].
    intros [H2 Hu2]. split; [by eapply answered_trans|account].
Qed.
End requests.
