(* ===== verification/IoteaProperties.v ===== *)
(** * IoteaProperties: the properties of the edge client. *)
From S2P Require Import Prelude.
From stdpp Require Import strings gmap.
From S2P Require Import Effects.
From S2P Require Import Alloc.
From S2P Require Import DoublyLinkedList.
From S2P Require Import CString.
From S2P Require Import Json.
From S2P Require Import Printf.
From S2P Require Import MqttCodec.
From S2P Require Import MqttDecoder.
From S2P Require Import MqttMessage.
From S2P Require Import MqttClient.
From S2P Require Import MqttClientTheory.
From S2P Require Import RetryLogic.
From S2P Require Import IotHubClient.
From S2P Require Import IotHubTheory.
From S2P Require Import IotHubSetup.
From S2P Require Import IoteaClient.
From S2P Require Import IotHubFrame.
From S2P Require Import IoteaFrame.
From S2P Require Import IoteaTheory.
#[local] Open Scope Z_scope.

(** The address of the broker is understood exactly when it consists of [tcp] or
    [ssl], a colon, two characters, a host that is not empty, a last colon and the
    port; the endpoint is then the host alone, and there is no other way to read the
    address.  Otherwise there is no endpoint and no memory is kept. *)
Theorem broker_address broker h :
  bytes broker → cstring broker →
  wp (get_broker_endpiont broker) (λ r h', match r with
    | Some (type, block) =>
        ∃ host, block = host ++ [0] ∧ located broker type host ∧ used 1 h h' ∧
          ∀ type' host', located broker type' host' → type' = type ∧ host' = host
    | None => used 0 h h' ∧ (plenty h → ∀ type host, ¬ located broker type host)
    end) h.
Proof.
  intros Hb Hs. apply wp_endpoint; [done|done| |by split].
  intros type host h' Hl Hu. exists host. split_and!; [done..|]. intros type' host' Hl'. by eapply located_unique.
Qed.

Lemma broker_address_witness :
  get_broker_endpiont (str "ssl://10.0.0.7:1883") {| allocs := []; live := 0 |} =
    Some (Some (MQTT_CONNECTION_TLS, str "10.0.0.7" ++ [0]), {| allocs := []; live := 1 |}).
Proof.
  destruct (broker_address (str "ssl://10.0.0.7:1883") {| allocs := []; live := 0 |}) as (r & h' & E & _).
  - by apply (bool_decide_unpack _).
  - by apply (bool_decide_unpack _).
  - rewrite E. vm_compute in E. injection E as <- <-. reflexivity.
Defined.

(** ** Conversations *)

Section conversation.
Context `{Arch} {A P : Type}.
#[warnings="-notation-for-abbreviation"] Notation Hub := (@IOTHUB_MQTT_CLIENT (@IOTEA_CLIENT A) P Empty_set unit).
Implicit Types (p : @Peer Hub) (h : Heap) (e : @IOTEA_CLIENT A).

Variable persistInterDesc : option (PERSIST_INTERFACE_DESCRIPTION P).
Variable json_parse_string : list Z → option JSON.
Variable thing channel : list Z → A → Z * A.
Variable name type : list Z.

(** C28: However many messages arrive on the topics of the client, each one is
    understood by the last character of its topic, changes the parsers accordingly and
    is answered with the request that belongs to it, under the next identifier; the
    requests reach the transport if there is one, and all memory is given back. *)
Theorem messages_answered p h q subs ms :
  holds p q subs → plenty h → mqttClientStatus (user p) ≠ MQTT_CLIENT_STATUS_NOT_CONNECTED →
  named (application (user p)) name type →
  ThingModelParse (application (user p)) = Some thing → ChannelModelParse (application (user p)) = Some channel →
  Forall (λ m, r_topic m ≠ [] ∧ (last (r_topic m) = Some 116 → readable json_parse_string (string_of (r_payload m)))) ms →
  wp (receive_all persistInterDesc json_parse_string ms) (λ _ '(p', h'),
    let '(rs, e') := conversation json_parse_string thing channel name type (application (user p)) ms in
    answered p q subs e' rs p' ∧ used 0 h h') (p, h).
Proof.
  intros. by apply wp_receive_all.
Qed.
End conversation.

(** ** The life of a client *)

Section life.
Context `{Arch} {A P : Type}.
#[warnings="-notation-for-abbreviation"] Notation Hub := (@IOTHUB_MQTT_CLIENT (@IOTEA_CLIENT A) P Empty_set unit).
#[warnings="-notation-for-abbreviation"] Notation Codec := (MQTTCODEC_INSTANCE (@Peer Hub)).
Implicit Types (h : Heap) (e : @IOTEA_CLIENT A) (c : Codec).

Variable persistInterDesc : option (PERSIST_INTERFACE_DESCRIPTION P).
Variable json_parse_string : list Z → option JSON.

(** The client inside. *)
Definition inside c : @IOTEA_CLIENT A := application (user (callContext c)).

(** States that the client [e] reaches: it connects, then it works while the transport
    delivers whatever it likes. *)
Inductive living e : Codec * Heap → Prop :=
  | living_connected o s iterations h r c h1 :
      iotea_client_connect persistInterDesc json_parse_string e o s iterations h = Some ((r, Some c), h1) →
      living e (c, h1)
  | living_worked s events x s' :
      living e s → iotea_client_dowork persistInterDesc json_parse_string events s = Some (x, s') → living e s'.

Lemma living_rounds e s :
  0 <= reqCount e <= 3 → living e s →
  trusted (by_peer (by_application calm)) s.1 ∧ identity (inside s.1) = identity e ∧ 0 <= reqCount (inside s.1) <= 3.
Proof.
  intros He. induction 1 as [o s iterations h r c h1 E|s events x s' Hs IH E].
  - apply (connected_trusted _ _ calm) in E as [[Hi Hc _] Ht]. split; [done|]. unfold inside. cbn [fst]. by rewrite Hc.
  - destruct IH as (Ht & Hi & Hc). apply rounds_work in E as [Hr _]. destruct (Hr Ht) as [[Hi2 Hc2 _] Ht2].
    split; [done|]. split; [by rewrite <- Hi|]. unfold inside in *. lia.
Qed.

(** C29: Whatever the broker and the network do, a client asks for the devices again at
    most three times in its life, at most once in a round of work and never again
    after it received a message; and no message changes its names, its endpoint or
    its parsers. *)
Theorem request_limit e c h events x c' h' :
  reqCount e = 0 → living e (c, h) →
  iotea_client_dowork persistInterDesc json_parse_string events (c, h) = Some (x, (c', h')) →
  identity (inside c') = identity e ∧
  0 <= reqCount (inside c) <= reqCount (inside c') ∧ reqCount (inside c') <= Z.min 3 (reqCount (inside c) + 1) ∧
  (reqAns (inside c) = true → reqAns (inside c') = true ∧ reqCount (inside c') = reqCount (inside c)).
Proof.
  intros He Hl E. destruct (living_rounds e (c, h)) as (Ht & Hi & Hc); [lia|done|].
  apply rounds_work in E as [Hr _]. destruct (Hr Ht) as [[Hi2 Hc2 Ha] _]. unfold inside in *. cbn [fst] in *.
  split; [by rewrite <- Hi|]. split; [lia|]. split; [lia|]. intros Hans. split; [auto|].
  destruct Hc2 as [|(Hn & _)]; [done|]. by rewrite Hn in Hans.
Qed.
End life.

(** ** Instances *)

(** A meter whose parsers count what they read, and a reader of answers that hold one
    device: a brace and its name. *)
Definition example_parse : list Z → nat → Z * nat := λ _ n, (0, S n).
Definition example_json (text : list Z) : option JSON :=
  match text with
  | 123 :: name => Some (JSONObject [(str "body", JSONArray [JSONObject [(str "dev", JSONString name)]])])
  | _ => None
  end.
Definition example_iotea : @IOTEA_CLIENT nat :=
  mkIotea false 0 (Some (str "10.0.0.7" ++ [0])) (Some (str "meter")) (Some (str "dlt")) false 0 0
    MQTT_CONNECTION_TCP (Some example_parse) (Some example_parse) 0%nat.
Definition example_heap : Heap := {| allocs := []; live := 0 |}.

(** The list of the devices, information on one, its model. *)
Definition example_messages : list Received :=
  [mkReceived 1 1 (str "/devMgr/get/response/dlt/devlist") (str "{meter") false false;
   mkReceived 2 1 (str "/devMgr/get/response/dlt/dev") (str "{}") false false;
   mkReceived 3 1 (str "/ModelManager/get/reponse/dlt/Southmodel") [] false false].
Definition example_hub : @IOTHUB_MQTT_CLIENT (@IOTEA_CLIENT nat) unit Empty_set unit :=
  mkHub no_options MQTT_CONNECTION_TCP true true 5 MQTT_CLIENT_STATUS_CONNECTED false false false true 0 0 0 None
    heads ∅ ∅ false tt (mkClock [] []) [] example_iotea.
Definition example_peer : @Peer (@IOTHUB_MQTT_CLIENT (@IOTEA_CLIENT nat) unit Empty_set unit) :=
  mkPeer (mkClient true PUBLISH_TYPE 0 false 0 10 no_options true true 0 10) (mkEnv [] [] [] [] true) [] example_hub.

Lemma messages_answered_witness :
  wp (@receive_all lp64 nat unit None example_json example_messages) (λ _ '(p', h'),
    answered example_peer [] [] (set_reqAns true (set_parsers 2%nat example_iotea))
      [info_request (str "dlt") (str "meter"); model_request (str "dlt")] p' ∧ used 0 example_heap h')
    (example_peer, example_heap).
Proof.
  eapply wp_mono; [apply (@messages_answered lp64 nat unit None example_json example_parse example_parse
    (str "meter") (str "dlt") example_peer example_heap [] [])|].
  - split; [split; [constructor|done|done]| |done]. by apply (empty_queued example_hub).
  - constructor.
  - done.
  - split; [done|done|by apply (bool_decide_unpack _)|by vm_compute].
  - done.
  - done.
  - repeat (apply Forall_cons; split; [split; [done|]|]); [intros _|intros [=]|intros [=]|constructor].
    apply (Forall_singleton (λ i, is_Some (device_name i)) (JSONObject [(str "dev", JSONString (str "meter"))])). by eexists.
  - intros _ [p' h'] Ha. exact Ha.
Defined.

Definition example_options : IOTEA_CLIENT_OPTIONS :=
  mkIoteaOptions true None (Some (str "user")) (Some (str "pass")) 10 300.
Definition example_setting : @Setting unit unit :=
  {| setting_env := mkEnv (Some <$> [1000; 1000; 1000; 1000; 6000; 6000]) [] [] [] true;
     setting_clock := mkClock [100; 100; 100; 100] []; setting_creations := [];
     setting_storage := None; setting_no_storage := tt; setting_app := tt |}.
(** The broker accepts the client at once. *)
Definition example_connection :=
  @iotea_client_connect lp64 nat unit None example_json example_iotea (Some example_options) example_setting
    [[IoOpenComplete true; IoBytes [32; 2; 0; 0]]] example_heap.

Lemma request_limit_witness :
  match example_connection with
  | Some ((_, Some c), h) =>
      match @iotea_client_dowork lp64 nat unit None example_json [] (c, h) with
      | Some (_, (c', _)) =>
          reqCount (inside c') = 1 ∧ identity (inside c') = identity example_iotea ∧
          reqCount (inside c') <= Z.min 3 (reqCount (inside c) + 1)
      | None => False
      end
  | _ => False
  end.
Proof.
  assert (match example_connection with
    | Some ((_, Some c), h) => match @iotea_client_dowork lp64 nat unit None example_json [] (c, h) with
                               | Some (_, (c', _)) => reqCount (inside c') =? 1 | None => false end
    | _ => false end = true) as Hrun by by vm_compute.
  destruct example_connection as [[[r [c|]] h]|] eqn:E; [|discriminate Hrun|discriminate Hrun].
  destruct (iotea_client_dowork _ _ _ (c, h)) as [[x [c' h']]|] eqn:E2; [|discriminate Hrun].
  destruct (@request_limit lp64 nat unit None example_json example_iotea c h [] x c' h') as (Hi & _ & Hc & _).
  - reflexivity.
  - eapply living_connected. exact E.
  - exact E2.
  - split; [by apply Z.eqb_eq|]. split; [exact Hi|exact Hc].
Defined.
