(* ===== verification/Dlt698.v ===== *)
(** * Dlt698: the DL/T 698.45 meter protocol.

    [libdlt698/src/dlt698_master.c] and the constants of [dlt698_master.h] and
    [dlt698_common.h]: the frame check sequence, the request frame, the
    extraction of the APDU from a response frame, the analysis of a GET
    response, and the length of a data item of any of the protocol's types.

    A pointer into a received frame is the memory from that address on, a
    [list Z]: dereferencing the empty list is an access out of bounds.  [None]
    is undefined behaviour throughout; the C result [-1] is the value [-1]. *)
From S2P Require Import Prelude.
From S2P Require Import Utils.

(** ** The frame check sequence *)

Definition fcstab : list Z := [
   0x0000; 0x1189; 0x2312; 0x329b; 0x4624; 0x57ad; 0x6536; 0x74bf;
   0x8c48; 0x9dc1; 0xaf5a; 0xbed3; 0xca6c; 0xdbe5; 0xe97e; 0xf8f7;
   0x1081; 0x0108; 0x3393; 0x221a; 0x56a5; 0x472c; 0x75b7; 0x643e;
   0x9cc9; 0x8d40; 0xbfdb; 0xae52; 0xdaed; 0xcb64; 0xf9ff; 0xe876;
   0x2102; 0x308b; 0x0210; 0x1399; 0x6726; 0x76af; 0x4434; 0x55bd;
   0xad4a; 0xbcc3; 0x8e58; 0x9fd1; 0xeb6e; 0xfae7; 0xc87c; 0xd9f5;
   0x3183; 0x200a; 0x1291; 0x0318; 0x77a7; 0x662e; 0x54b5; 0x453c;
   0xbdcb; 0xac42; 0x9ed9; 0x8f50; 0xfbef; 0xea66; 0xd8fd; 0xc974;
   0x4204; 0x538d; 0x6116; 0x709f; 0x0420; 0x15a9; 0x2732; 0x36bb;
   0xce4c; 0xdfc5; 0xed5e; 0xfcd7; 0x8868; 0x99e1; 0xab7a; 0xbaf3;
   0x5285; 0x430c; 0x7197; 0x601e; 0x14a1; 0x0528; 0x37b3; 0x263a;
   0xdecd; 0xcf44; 0xfddf; 0xec56; 0x98e9; 0x8960; 0xbbfb; 0xaa72;
   0x6306; 0x728f; 0x4014; 0x519d; 0x2522; 0x34ab; 0x0630; 0x17b9;
   0xef4e; 0xfec7; 0xcc5c; 0xddd5; 0xa96a; 0xb8e3; 0x8a78; 0x9bf1;
   0x7387; 0x620e; 0x5095; 0x411c; 0x35a3; 0x242a; 0x16b1; 0x0738;
   0xffcf; 0xee46; 0xdcdd; 0xcd54; 0xb9eb; 0xa862; 0x9af9; 0x8b70;
   0x8408; 0x9581; 0xa71a; 0xb693; 0xc22c; 0xd3a5; 0xe13e; 0xf0b7;
   0x0840; 0x19c9; 0x2b52; 0x3adb; 0x4e64; 0x5fed; 0x6d76; 0x7cff;
   0x9489; 0x8500; 0xb79b; 0xa612; 0xd2ad; 0xc324; 0xf1bf; 0xe036;
   0x18c1; 0x0948; 0x3bd3; 0x2a5a; 0x5ee5; 0x4f6c; 0x7df7; 0x6c7e;
   0xa50a; 0xb483; 0x8618; 0x9791; 0xe32e; 0xf2a7; 0xc03c; 0xd1b5;
   0x2942; 0x38cb; 0x0a50; 0x1bd9; 0x6f66; 0x7eef; 0x4c74; 0x5dfd;
   0xb58b; 0xa402; 0x9699; 0x8710; 0xf3af; 0xe226; 0xd0bd; 0xc134;
   0x39c3; 0x284a; 0x1ad1; 0x0b58; 0x7fe7; 0x6e6e; 0x5cf5; 0x4d7c;
   0xc60c; 0xd785; 0xe51e; 0xf497; 0x8028; 0x91a1; 0xa33a; 0xb2b3;
   0x4a44; 0x5bcd; 0x6956; 0x78df; 0x0c60; 0x1de9; 0x2f72; 0x3efb;
   0xd68d; 0xc704; 0xf59f; 0xe416; 0x90a9; 0x8120; 0xb3bb; 0xa232;
   0x5ac5; 0x4b4c; 0x79d7; 0x685e; 0x1ce1; 0x0d68; 0x3ff3; 0x2e7a;
   0xe70e; 0xf687; 0xc41c; 0xd595; 0xa12a; 0xb0a3; 0x8238; 0x93b1;
   0x6b46; 0x7acf; 0x4854; 0x59dd; 0x2d62; 0x3ceb; 0x0e70; 0x1ff9;
   0xf78f; 0xe606; 0xd49d; 0xc514; 0xb1ab; 0xa022; 0x92b9; 0x8330;
   0x7bc7; 0x6a4e; 0x58d5; 0x495c; 0x3de3; 0x2c6a; 0x1ef1; 0x0f78].

(** [while (len--) fcs = (fcs >> 8) ^ fcstab[(fcs ^ *cp++) & 0xff]] *)
Fixpoint fcs_loop (len : nat) (fcs : Z) (cp : list Z) : option Z :=
  match len, cp with
  | O, _ => Some fcs
  | S len, b :: cp =>
      t ← fcstab !! Z.to_nat (Z.land (Z.lxor fcs b) 0xff);
      fcs_loop len (Z.lxor (Z.shiftr fcs 8) t) cp
  | S _, [] => None
  end.

(** A negative [len] never reaches 0: the loop runs out of the buffer. *)
Definition pppfcs16 (fcs : Z) (cp : list Z) (len : Z) : option Z :=
  if len <? 0 then None
  else fcs ← fcs_loop (Z.to_nat len) fcs cp; Some (u16 (Z.lnot fcs)).

Definition PPPINITFCS16 : Z := 0xFFFF.

Definition MAKE_WORD (hbyte lbyte : Z) : Z := Z.lor lbyte (Z.shiftl hbyte 8).

(** ** Building the request *)

Definition DLT698_LEADER_CHAR : Z := 0xFE.
Definition DLT698_HEADER : Z := 0x68.
Definition DLT698_END : Z := 0x16.
Definition DLT698_C_2_S_DATA : Z := 0x43.
Definition DLT698_CLIENT_ADDR : Z := 0x00.
Definition DLT698_PIID : Z := 0x01.
Definition DLT698_TIME_LABER : Z := 0x00.
Definition DLT698_HEADER_LOC : nat := 4.
Definition DLT698_LENGTH_LOC : nat := 5.
Definition DLT698_CON_LOC : nat := 7.
Definition DLT698_SA_LOC : nat := 8.
Definition DLT698_CA_LOC : nat := 15.
Definition DLT698_HEAD_CRC_LOC : nat := 16.
Definition DLT698_APDU_LOC : nat := 18.
Definition DLT698_PIID_LOC : nat := 20.
Definition DLT698_OAD_LOC : nat := 21.
Definition DLT698_TIME_LOC : nat := 25.
Definition DLT698_ALL_CRC_LOC : nat := 26.
Definition DLT698_END_LOC : nat := 28.
Definition MAX_SIZE_OF_BUFFER : nat := 1024.
Definition MAX_SIZE_OF_PACKET_DATA : nat := 512.
Definition MAX_COLL_OAD_SIZE : nat := 127.
Definition GET_Request : Z := 5.
Definition GET_Response : Z := 133.
Definition GetRequestNormal : Z := 1.

Record DLT698_PACKET := mkPacket { pk_data : list Z; pk_length : Z }.

(** [Buffer] is the static buffer, [fresh] the uninitialised contents of the
    allocated packet ([None]: malloc failed), [oad] and [sa] the two arguments
    ([None]: NULL).  Returns the buffer and the packet. *)
Definition dlt698_packet_build (fresh : option (list Z)) (Buffer : list Z)
    (oad sa : option (list Z)) : option (list Z * option DLT698_PACKET) :=
  match oad, sa with
  | Some oad, Some sa =>
      match fresh with
      | None => Some (Buffer, None)
      | Some fresh =>
          B ← cfor 4 0 (λ i B, st8 B i DLT698_LEADER_CHAR) Buffer;
          B ← st8 B DLT698_HEADER_LOC DLT698_HEADER;
          B ← st8 B DLT698_CON_LOC DLT698_C_2_S_DATA;
          let length := 0 + 3 in
          B ← st8 B DLT698_SA_LOC 5;
          let length := length + 1 in
          B ← cfor 6 0 (λ i B, x ← sa !! (5 - i)%nat; st8 B (DLT698_SA_LOC + 1 + i) x) B;
          let length := length + 6 in
          B ← st8 B DLT698_CA_LOC DLT698_CLIENT_ADDR;
          let length := length + 1 + 2 in
          B ← st8 B DLT698_APDU_LOC GET_Request;
          B ← st8 B (DLT698_APDU_LOC + 1) GetRequestNormal;
          B ← st8 B DLT698_PIID_LOC DLT698_PIID;
          B ← cfor 4 0 (λ i B, x ← oad !! i; st8 B (DLT698_OAD_LOC + i) x) B;
          B ← st8 B DLT698_TIME_LOC DLT698_TIME_LABER;
          let length := length + 8 + 2 in
          B ← st8 B DLT698_LENGTH_LOC length;
          B ← st8 B (DLT698_LENGTH_LOC + 1) 0x00;
          uwhcs ← pppfcs16 PPPINITFCS16 (drop 5 B) 11;
          B ← st8 B DLT698_HEAD_CRC_LOC (Z.land uwhcs 0x00FF);
          B ← st8 B (DLT698_HEAD_CRC_LOC + 1) (Z.shiftr uwhcs 8);
          uwfcs ← pppfcs16 PPPINITFCS16 (drop 5 B) (length - 2);
          B ← st8 B DLT698_ALL_CRC_LOC (Z.land uwfcs 0x00FF);
          B ← st8 B (DLT698_ALL_CRC_LOC + 1) (Z.shiftr uwfcs 8);
          B ← st8 B DLT698_END_LOC DLT698_END;
          let length := length + 6 in
          data ← memcpy fresh B (Z.to_nat length);
          Some (B, Some (mkPacket data (u8 length)))
      end
  | _, _ => Some (Buffer, None)
  end.

(** ** Extracting the APDU of a frame *)

(** The result and the three output parameters ([None]: left untouched). *)
Record Apdu := mkApdu {
  apdu_len : Z; pAPDU : option (list Z); sa_addr : option (list Z); sa_addr_len : option Z }.

Definition dwGet698Apdu (pframe : list Z) : option Apdu :=
  prem_num ← cfor 4 0 (λ i n, b ← pframe !! i; Some (if b =? 0xFE then S n else n)) O;
  start ← pframe !! prem_num;
  if negb (start =? 0x68) then Some (mkApdu (-1) None None None)
  else
  l2 ← pframe !! (prem_num + 2)%nat;
  l1 ← pframe !! (prem_num + 1)%nat;
  let uwframeLen := MAKE_WORD l2 l1 in
  a ← pframe !! (prem_num + 4)%nat;
  let SA_Len := Z.land a 0x0F + 2 in
  let addr := Some (drop (prem_num + 5) pframe) in
  let addr_len := Some (u8 (SA_Len - 1)) in
  let nHCSPos := SA_Len + 5 in
  uwhcs ← pppfcs16 PPPINITFCS16 (drop (prem_num + 1) pframe) (nHCSPos - 1);
  h2 ← pframe !! (prem_num + Z.to_nat nHCSPos + 1)%nat;
  h1 ← pframe !! (prem_num + Z.to_nat nHCSPos)%nat;
  if negb (uwhcs =? MAKE_WORD h2 h1) then Some (mkApdu (-1) None addr addr_len)
  else
  let nFCSPos := uwframeLen - 1 in
  uwfcs ← pppfcs16 PPPINITFCS16 (drop (prem_num + 1) pframe) (nFCSPos - 1);
  f2 ← pframe !! (prem_num + Z.to_nat nFCSPos + 1)%nat;
  f1 ← pframe !! (prem_num + Z.to_nat nFCSPos)%nat;
  if negb (uwfcs =? MAKE_WORD f2 f1) then Some (mkApdu (-1) None addr addr_len)
  else
  let dwAPDULen := uwframeLen - SA_Len - 8 in
  Some (mkApdu dwAPDULen (Some (drop (prem_num + Z.to_nat nHCSPos + 2) pframe)) addr addr_len).

(** ** The length of a data item

    The functions of the C code keep a pointer [Ptr] and a [uint16_t] count
    [Len], advanced together.  [Steps] is the state monad over the two, with
    the early return of [-1] and undefined behaviour as failures. *)

Inductive step (A : Type) :=
  | Go (a : A) (Ptr : list Z) (Len : Z)
  | Minus1
  | Wild.
#[global] Arguments Go {A} _ _ _.
#[global] Arguments Minus1 {A}.
#[global] Arguments Wild {A}.

Definition Steps (A : Type) := list Z → Z → step A.

Definition sbind {A B} (m : Steps A) (k : A → Steps B) : Steps B := λ Ptr Len,
  match m Ptr Len with Go a Ptr Len => k a Ptr Len | Minus1 => Minus1 | Wild => Wild end.

Declare Scope steps_scope.
Delimit Scope steps_scope with steps.
Notation "x <- m ;; k" := (sbind m (λ x, k))
  (at level 100, m at next level, right associativity) : steps_scope.
Notation "m ;; k" := (sbind m (λ _, k))
  (at level 100, right associativity) : steps_scope.

Definition done_ : Steps unit := Go tt.

Definition fail_ : Steps unit := λ _ _, Minus1.

(** [*Ptr] *)
Definition peek : Steps Z := λ Ptr Len,
  match Ptr with b :: _ => Go b Ptr Len | [] => Wild end.

(** [Ptr += n; Len += n;] *)
Definition advance (n : Z) : Steps unit := λ Ptr Len,
  Go tt (drop (Z.to_nat n) Ptr) (u16 (Len + n)).

(** [for (i = 0; i < n; i++) body] *)
Fixpoint times (n : nat) (body : Steps unit) : Steps unit :=
  match n with O => done_ | S n => sbind body (λ _, times n body) end.

(** The length field and the number of its bytes. *)
Definition dwDlt698Len (b : list Z) : option (Z * Z) :=
  b0 ← b !! 0%nat;
  if Z.land b0 0x80 =? 0 then Some (b0, 1)
  else
  let Bytes := Z.land b0 0x7F in
  if Bytes =? 1 then b1 ← b !! 1%nat; Some (b1, 2)
  else if Bytes =? 2 then
    b1 ← b !! 1%nat; b2 ← b !! 2%nat;
    Some (Z.lor (Z.shiftl b1 8) b2, 3)
  else if Bytes =? 3 then
    b1 ← b !! 1%nat; b2 ← b !! 2%nat; b3 ← b !! 3%nat;
    Some (Z.land (Z.lor (Z.shiftl b1 16) (Z.shiftl b2 8)) b3, 4)
  else if Bytes =? 4 then
    b1 ← b !! 1%nat; b2 ← b !! 2%nat; b3 ← b !! 3%nat; b4 ← b !! 4%nat;
    Some (Z.land (Z.land (Z.lor (Z.shiftl b1 24) (Z.shiftl b2 16)) (Z.shiftl b3 8)) b4, 5)
  else Some (-1, 0).

(** [if ((varLen = dwDlt698Len(Ptr, &LenBytes)) < 0) return -1;
    Len += LenBytes; Ptr += LenBytes;] *)
Definition varlen : Steps Z := λ Ptr Len,
  match dwDlt698Len Ptr with
  | None => Wild
  | Some (v, LenBytes) =>
      if v <? 0 then Minus1
      else sbind (advance LenBytes) (λ _, Go v) Ptr Len
  end.

(** [if ((Res = f(Ptr, dwRcvLen - Len)) < 0) return -1; Ptr += Res; Len += Res;],
    with [<= 0] instead when [strict]. *)
Definition item (strict : bool) (f : list Z → Z → option Z) (dwRcvLen : Z) : Steps unit :=
  λ Ptr Len,
  match f Ptr (dwRcvLen - Len) with
  | None => Wild
  | Some Res =>
      if (Res <? 0) || strict && (Res <=? 0) then Minus1 else advance Res Ptr Len
  end.

(** [if (Len > dwRcvLen) return -1;] *)
Definition check (dwRcvLen : Z) : Steps unit := λ Ptr Len,
  if dwRcvLen <? Len then Minus1 else Go tt Ptr Len.

(** The value the C function returns. *)
Definition returned (r : step unit) : option Z :=
  match r with Go _ _ Len => Some Len | Minus1 => Some (-1) | Wild => None end.

Section data_types.
Open Scope steps_scope.
(** The recursive occurrences of [dwDlt698DataLen]. *)
Context (dataLen : list Z → Z → option Z) (dwRcvLen : Z).

Definition octets : Steps unit := varLen <- varlen;; advance varLen.

(** [dwDlt698MsLen] *)
Definition ms_body : Steps unit :=
  choice <- peek;;
  match choice with
  | 0 | 1 => advance 1
  | 2 => advance 1;; varLen <- varlen;; times (Z.to_nat varLen) (advance 1)
  | 3 => advance 1;; varLen <- varlen;; times (Z.to_nat varLen) octets
  | 4 => advance 1;; varLen <- varlen;; times (Z.to_nat varLen) (advance 2)
  | 5 | 6 | 7 =>
      advance 1;; varLen <- varlen;;
      times (Z.to_nat varLen)
        (advance 1;; item false dataLen dwRcvLen;; item false dataLen dwRcvLen)
  | _ => fail_
  end.

Definition dwDlt698MsLen (b : list Z) : option Z :=
  returned ((ms_body;; check dwRcvLen) b 0).
End data_types.

Section record_types.
Open Scope steps_scope.
Context (dataLen : list Z → Z → option Z) (dwRcvLen : Z).

Let data := item false dataLen dwRcvLen.
Let ms := item false (λ b l, dwDlt698MsLen dataLen l b) dwRcvLen.

(** [dwDlt698RSDLen] *)
Definition rsd_body : Steps unit :=
  choice <- peek;;
  match choice with
  | 0 => advance 1
  | 1 => advance 1;; advance 4;; data
  | 2 => advance 1;; advance 4;; data;; data;; data
  | 3 =>
      advance 1;; varLen <- varlen;;
      times (Z.to_nat varLen) (advance 4;; data;; data;; data)
  | 4 | 5 => advance 1;; advance 7;; ms
  | 6 | 7 | 8 => advance 1;; advance 7;; advance 7;; advance 3;; ms
  | 9 => advance 1;; advance 1
  | 10 => advance 1;; advance 1;; ms
  | _ => fail_
  end.

Definition dwDlt698RSDLen (b : list Z) : option Z :=
  returned ((rsd_body;; check dwRcvLen) b 0).

(** A column selector: an OAD, or an OAD with its related OADs. *)
Definition csd : Steps unit :=
  choice <- peek;;
  match choice with
  | 0 => advance 1;; advance 4
  | 1 =>
      advance 1;; advance 4;; varLenB <- varlen;;
      times (Z.to_nat varLenB) (check dwRcvLen;; advance 4)
  | _ => fail_
  end.
End record_types.

Section data_len.
Open Scope steps_scope.
Context (dataLen : list Z → Z → option Z) (dwRcvLen : Z).

(** The [switch] of [dwDlt698DataLen], in four parts: the types from [DL_NULL] to
    [DL_UTF8_STR], to [DL_DATE_TIME_S], to [DL_REGION], and to [DL_RCSD]. *)
Definition data_basic (ty : Z) : Steps unit :=
  match ty with
  | 0 (* DL_NULL *) => done_
  | 1 (* DL_ARRAY *) | 2 (* DL_STRUCT *) =>
      varLen <- varlen;; times (Z.to_nat varLen) (item true dataLen dwRcvLen)
  | 3 (* DL_BOOL *) => advance 1
  | 4 (* DL_BIT_STR *) =>
      varLen <- varlen;;
      if varLen mod 8 =? 0 then advance (varLen / 8) else advance (varLen / 8 + 1)
  | 5 (* DL_D_LONG *) | 6 (* DL_D_LONG_UNS *) => advance 4
  | 9 (* DL_OCTET_STR *) | 10 (* DL_VISIBLE_STR *) | 12 (* DL_UTF8_STR *) => octets
  | _ => fail_
  end.

Definition data_scalar (ty : Z) : Steps unit :=
  match ty with
  | 15 (* DL_INTEGER *) => advance 1
  | 16 (* DL_LONG *) => advance 2
  | 17 (* DL_CHAR_UNS *) => advance 1
  | 18 (* DL_LONG_UNS *) => advance 2
  | 20 (* DL_LONG64 *) | 21 (* DL_LONG64_UNS *) => advance 8
  | 22 (* DL_ENUM *) => advance 1
  | 23 (* DL_FLOAT32 *) => advance 4
  | 24 (* DL_FLOAT64 *) => advance 8
  | 25 (* DL_DATE_TIME *) => advance 10
  | 26 (* DL_DATE *) => advance 5
  | 27 (* DL_TIME *) => advance 3
  | 28 (* DL_DATE_TIME_S *) => advance 7
  | _ => fail_
  end.

Definition data_object (ty : Z) : Steps unit :=
  match ty with
  | 80 (* DL_OI *) => advance 2
  | 81 (* DL_OAD *) => advance 4
  | 82 (* DL_ROAD *) =>
      advance 4;; varLen <- varlen;; times (Z.to_nat varLen) (advance 4)
  | 83 (* DL_OMD *) => advance 4
  | 84 (* DL_TI *) => advance 3
  | 85 (* DL_TSA *) | 86 (* DL_MAC *) | 87 (* DL_RN *) => octets
  | 88 (* DL_REGION *) =>
      advance 1;; item false dataLen dwRcvLen;; item false dataLen dwRcvLen
  | _ => fail_
  end.

Definition data_selector (ty : Z) : Steps unit :=
  match ty with
  | 89 (* DL_SCALER_UNIT *) => advance 1;; advance 1
  | 90 (* DL_RSD *) => item false (λ b l, dwDlt698RSDLen dataLen l b) dwRcvLen
  | 91 (* DL_CSD *) => csd dwRcvLen
  | 92 (* DL_MS *) => item false (λ b l, dwDlt698MsLen dataLen l b) dwRcvLen
  | 93 (* DL_SID *) => advance 4;; octets
  | 94 (* DL_SID_MAC *) => advance 4;; octets;; octets
  | 95 (* DL_COMDCB *) => advance 5
  | 96 (* DL_RCSD *) =>
      varLen <- varlen;;
      times (Z.to_nat varLen) (check dwRcvLen;; csd dwRcvLen)
  | _ => fail_
  end.

Definition data_body (ty : Z) : Steps unit :=
  if ty <=? 12 then data_basic ty
  else if ty <=? 28 then data_scalar ty
  else if ty <=? 88 then data_object ty
  else data_selector ty.

Definition data_switch : Steps unit := ty <- peek;; advance 1;; data_body ty;; check dwRcvLen.
End data_len.

(** Every recursive call is on a strictly shorter buffer, so the length of the
    buffer is enough fuel ([dwDlt698DataLen_unfold] below). *)
Fixpoint data_len (fuel : nat) (b : list Z) (dwRcvLen : Z) : option Z :=
  match fuel with
  | O => None
  | S fuel => returned (data_switch (data_len fuel) dwRcvLen b 0)
  end.

Definition dwDlt698DataLen (b : list Z) (dwRcvLen : Z) : option Z :=
  data_len (S (length b)) b dwRcvLen.

(** ** The GET response *)

Record OAD := mkOAD { OI_date : Z; attr_ID : Z; attr_index : Z }.

(** [ucPtr] points into the frame. *)
Record DATA_UNIT := mkUnit { stOAD : OAD; ucVal : Z; uwLen : Z; ucPtr : option (list Z) }.

Inductive DATA_CLASS :=
  | D_CLASS_NULL
  | D_CLASS_REAL
  | D_CLASS_CUR_FREEZE
  | D_CLASS_DAY_FREEZE
  | D_CLASS_MON_FREEZE
  | D_CLASS_EVENT
  | D_CLASS_DATA.

Record COLL_STORE_DATA := mkColl {
  eDataCls : DATA_CLASS; stMainOAD : OAD; ucDataNum : Z; stDataUnit : list DATA_UNIT }.

Definition zero_OAD : OAD := mkOAD 0 0 0.

Definition zero_coll : COLL_STORE_DATA :=
  mkColl D_CLASS_NULL zero_OAD 0
    (replicate MAX_COLL_OAD_SIZE (mkUnit zero_OAD 0 0 None)).

Definition dwGetOad (b : list Z) : option OAD :=
  b0 ← b !! 0%nat; b1 ← b !! 1%nat; b2 ← b !! 2%nat; b3 ← b !! 3%nat;
  Some (mkOAD (MAKE_WORD b0 b1) b2 b3).

Definition dwDlt698DataLenByOAD (oad : OAD) (b : list Z) : option Z :=
  dwDlt698DataLen b 256.

(** [stDataUnit[ucDataNum] = ...; ucDataNum++;] *)
Definition store_unit (u : DATA_UNIT) (c : COLL_STORE_DATA) : option COLL_STORE_DATA :=
  if (Z.to_nat (ucDataNum c) <? length (stDataUnit c))%nat
  then Some (mkColl (eDataCls c) (stMainOAD c) (u8 (ucDataNum c + 1))
               (<[Z.to_nat (ucDataNum c) := u]> (stDataUnit c)))
  else None.

(** The results of a response, from [Ptr] on. *)
Fixpoint get_results (n : nat) (Ptr : list Z) (c : COLL_STORE_DATA)
    : option (Z * COLL_STORE_DATA) :=
  match n with
  | O => Some (1, c)
  | S n =>
      oad ← dwGetOad Ptr;
      let Ptr := drop 4 Ptr in
      choice ← Ptr !! 0%nat;
      if choice =? 0 (* ERROR_INFO *) then get_results n (drop 2 Ptr) c
      else if choice =? 1 (* RES_DATA *) then
        let Ptr := drop 1 Ptr in
        dwLen ← dwDlt698DataLenByOAD oad Ptr;
        if dwLen <? 0 then Some (-1, c)
        else
        c ← store_unit (mkUnit oad 1 (u16 dwLen) (Some Ptr)) c;
        get_results n (drop (Z.to_nat dwLen) Ptr) c
      else Some (-1, c)
  end.

Definition set_class (k : DATA_CLASS) (c : COLL_STORE_DATA) : COLL_STORE_DATA :=
  mkColl k (stMainOAD c) (ucDataNum c) (stDataUnit c).

Definition dwGetResponseNormal (b : list Z) (c : COLL_STORE_DATA)
    : option (Z * COLL_STORE_DATA) :=
  kind ← b !! 1%nat;
  if kind =? 1 (* GetResponseNormal *) then
    get_results 1 (drop 3 b) (set_class D_CLASS_REAL c)
  else if kind =? 2 (* GetResponseNormalList *) then
    ucResultNum ← b !! 3%nat;
    if 127 <? ucResultNum then Some (-1, c)
    else get_results (Z.to_nat ucResultNum) (drop 4 b) (set_class D_CLASS_REAL c)
  else Some (-1, c).

Definition dwAPduAnalyze (b : option (list Z)) (dwlen : Z) (c : COLL_STORE_DATA)
    : option (Z * COLL_STORE_DATA) :=
  match b with
  | None => Some (-1, c)
  | Some b =>
      tag ← b !! 0%nat;
      if GET_Response =? tag then
        kind ← b !! 1%nat;
        if (1 =? kind) || (2 =? kind) then dwGetResponseNormal b c else Some (-1, c)
      else Some (-1, c)
  end.

(** The result codes are ignored, as is [length]. *)
Definition dlt698_response_analy (frame : list Z) (length : Z) : option COLL_STORE_DATA :=
  a ← dwGet698Apdu frame;
  '(_, c) ← dwAPduAnalyze (pAPDU a) (apdu_len a) zero_coll;
  Some c.

(** ** The reading as text

    [value_text temp] is the text [sprintf] makes of [temp * pow(10, math)] with
    ["%.2f"]: the floating-point arithmetic is a parameter.  [res] is the
    caller's array; [sprintf(res + index, ...)] writes the text and a 0 byte. *)

Definition sprintf_at (res : list Z) (index : nat) (text : list Z) : option (list Z * nat) :=
  if (index + length text <? length res)%nat
  then Some (splice index (text ++ [0]) res, (index + length text)%nat)
  else None.

Section convert.
Context (value_text : Z → list Z).

Fixpoint convert_elements (n : nat) (ptr : list Z) (res : list Z) (index : nat)
    : option (list Z) :=
  match n with
  | O => Some res
  | S n =>
      data_type ← ptr !! 0%nat;
      if (data_type =? 5) || (data_type =? 6) (* DL_D_LONG, DL_D_LONG_UNS *) then
        temp ← load32 (drop 1 ptr);
        let temp := int32 (reversebytes_uint32 temp) in
        let text := value_text temp ++ (if (n =? 0)%nat then [] else [44]) in
        '(res, index) ← sprintf_at res index text;
        convert_elements n (drop 5 ptr) res index
      else Some res
  end.

Definition convert_to_string_float (ptr res : list Z) : option (list Z) :=
  ty ← ptr !! 0%nat;
  if ty =? 1 (* DL_ARRAY *) then
    arr_len ← ptr !! 1%nat;
    convert_elements (Z.to_nat arr_len) (drop 2 ptr) res 0
  else Some res.
End convert.
