(* ===== verification/Dlt698Spec.v ===== *)
(** * Dlt698Spec: the DL/T 698.45 protocol as its standard describes it.

    The grammar of well-formed data items, the link frame with its two check
    sequences, and the GET response: what the functions of [Dlt698] are to
    measure, build and take apart. *)
From S2P Require Import Prelude.
From S2P Require Import Crc.
From S2P Require Import Dlt698.

(** ** Data items

    Lengths are at most 65535 and in their shortest form. *)

Definition encode_len (n : nat) : list Z :=
  let n := Z.of_nat n in
  if n <? 128 then [n] else if n <? 256 then [0x81; n] else 0x82 :: be16 n.

Definition octet_string (s : list Z) : list Z := encode_len (length s) ++ s.

(** The types of a fixed size. *)
Definition fixed_size (ty : Z) : option Z :=
  match ty with
  | 0 => Some 0
  | 3 | 15 | 17 | 22 => Some 1
  | 16 | 18 | 80 | 89 => Some 2
  | 27 | 84 => Some 3
  | 5 | 6 | 23 | 81 | 83 => Some 4
  | 26 | 95 => Some 5
  | 28 => Some 7
  | 20 | 21 | 24 => Some 8
  | 25 => Some 10
  | _ => None
  end.

Definition short {A} (l : list A) : Prop := Z.of_nat (length l) < 65536.

(** A region: an enumeration byte and the two bounds. *)
Definition region (P : list Z → Prop) (r : list Z) : Prop :=
  ∃ e d1 d2, r = e :: d1 ++ d2 ∧ P d1 ∧ P d2.

Inductive ms_item (P : list Z → Prop) : list Z → Prop :=
  | ms_all c : c = 0 ∨ c = 1 → ms_item P [c]
  | ms_types s : short s → ms_item P (2 :: octet_string s)
  | ms_addresses ss :
      short ss → Forall short ss →
      ms_item P (3 :: encode_len (length ss) ++ concat (octet_string <$> ss))
  | ms_numbers ns :
      short ns → Forall (λ n, length n = 2%nat) ns →
      ms_item P (4 :: encode_len (length ns) ++ concat ns)
  | ms_regions c rs :
      5 <= c <= 7 → short rs → Forall (region P) rs →
      ms_item P (c :: encode_len (length rs) ++ concat rs).

(** An OAD and three data items. *)
Definition selection (P : list Z → Prop) (r : list Z) : Prop :=
  ∃ oad d1 d2 d3, r = oad ++ d1 ++ d2 ++ d3 ∧ length oad = 4%nat ∧ P d1 ∧ P d2 ∧ P d3.

Inductive rsd_item (P : list Z → Prop) : list Z → Prop :=
  | rsd_none : rsd_item P [0]
  | rsd_one oad d : length oad = 4%nat → P d → rsd_item P (1 :: oad ++ d)
  | rsd_range s : selection P s → rsd_item P (2 :: s)
  | rsd_ranges ss :
      short ss → Forall (selection P) ss →
      rsd_item P (3 :: encode_len (length ss) ++ concat ss)
  | rsd_at c t m : c = 4 ∨ c = 5 → length t = 7%nat → ms_item P m → rsd_item P (c :: t ++ m)
  | rsd_between c t m :
      6 <= c <= 8 → length t = 17%nat → ms_item P m → rsd_item P (c :: t ++ m)
  | rsd_last n : rsd_item P [9; n]
  | rsd_last_of n m : ms_item P m → rsd_item P (10 :: n :: m).

Inductive csd_item : list Z → Prop :=
  | csd_oad oad : length oad = 4%nat → csd_item (0 :: oad)
  | csd_road oad os :
      length oad = 4%nat → short os → Forall (λ o, length o = 4%nat) os →
      csd_item (1 :: oad ++ encode_len (length os) ++ concat os).

Inductive data_item : list Z → Prop :=
  | item_fixed ty n s :
      fixed_size ty = Some n → Z.of_nat (length s) = n → data_item (ty :: s)
  | item_many ty ds :
      ty = 1 ∨ ty = 2 → short ds → Forall data_item ds →
      data_item (ty :: encode_len (length ds) ++ concat ds)
  | item_bits (n : nat) s :
      Z.of_nat n < 65536 → Z.of_nat (length s) = (Z.of_nat n + 7) / 8 →
      data_item (4 :: encode_len n ++ s)
  | item_octets ty s :
      ty ∈ [9; 10; 12; 85; 86; 87] → short s → data_item (ty :: octet_string s)
  | item_road oad os :
      length oad = 4%nat → short os → Forall (λ o, length o = 4%nat) os →
      data_item (82 :: oad ++ encode_len (length os) ++ concat os)
  | item_region r : region data_item r → data_item (88 :: r)
  | item_rsd r : rsd_item data_item r → data_item (90 :: r)
  | item_csd c : csd_item c → data_item (91 :: c)
  | item_ms m : ms_item data_item m → data_item (92 :: m)
  | item_sid id s : length id = 4%nat → short s → data_item (93 :: id ++ octet_string s)
  | item_sid_mac id s t :
      length id = 4%nat → short s → short t →
      data_item (94 :: id ++ octet_string s ++ octet_string t)
  | item_rcsd cs :
      short cs → Forall csd_item cs → data_item (96 :: encode_len (length cs) ++ concat cs).

(** ** Link frames *)

Definition fcs16 (l : list Z) : Z := Z.lxor (lfsr_bytes 0x8408 0xFFFF l) 0xFFFF.

(** A string with its check sequence. *)
Definition with_fcs (l : list Z) : list Z := l ++ le16 (fcs16 l).

(** The length field, the control byte, the server address [sa] (1 to 16 bytes,
    with the upper half [logical] of its flag byte), the client address. *)
Definition frame_header (control logical : Z) (sa : list Z) (ca : Z) (apdu : list Z) : list Z :=
  le16 (9 + Z.of_nat (length sa) + Z.of_nat (length apdu)) ++
  [control; 16 * logical + Z.of_nat (length sa) - 1] ++ sa ++ [ca].

Definition frame_body (control logical : Z) (sa : list Z) (ca : Z) (apdu : list Z) : list Z :=
  with_fcs (with_fcs (frame_header control logical sa ca apdu) ++ apdu).

Definition encode_frame (control logical : Z) (sa : list Z) (ca : Z) (apdu : list Z) : list Z :=
  0x68 :: frame_body control logical sa ca apdu ++ [0x16].

(** ** GET requests and responses *)

Definition get_request (piid : Z) (oad : list Z) : list Z := [5; 1; piid] ++ oad ++ [0].

Inductive result :=
  | Failure (dar : Z)
  | Data (d : list Z).

Definition encode_result (r : list Z * result) : list Z :=
  r.1 ++ match r.2 with Failure dar => [0; dar] | Data d => 1 :: d end.

Definition wf_result (r : list Z * result) : Prop :=
  length r.1 = 4%nat ∧ bytes r.1 ∧
  match r.2 with
  | Failure _ => True
  | Data d => data_item d ∧ (length d <= 256)%nat
  end.

(** One result, or a list of up to 127. *)
Inductive get_response : list (list Z * result) → list Z → Prop :=
  | response_normal piid r tail : get_response [r] ([133; 1; piid] ++ encode_result r ++ tail)
  | response_list piid rs tail :
      (length rs <= 127)%nat →
      get_response rs
        ([133; 2; piid; Z.of_nat (length rs)] ++ concat (encode_result <$> rs) ++ tail).

(** What the analysis is to report: the data results, in order, with their OAD
    and their bytes. *)
Definition oad_of (b : list Z) : OAD :=
  match b with
  | [b0; b1; b2; b3] => mkOAD (256 * b0 + b1) b2 b3
  | _ => zero_OAD
  end.

Definition report (rs : list (list Z * result)) : list (OAD * list Z) :=
  rs ≫= λ r, match r.2 with Failure _ => [] | Data d => [(oad_of r.1, d)] end.

(** The reported units of a result of the analysis. *)
Definition unit_value (u : DATA_UNIT) : OAD * list Z :=
  (stOAD u, take (Z.to_nat (uwLen u)) (default [] (ucPtr u))).

Definition reported (c : COLL_STORE_DATA) : list (OAD * list Z) :=
  unit_value <$> take (Z.to_nat (ucDataNum c)) (stDataUnit c).
