(* ===== verification/Dlt698Theory.v ===== *)
(** * Dlt698Theory: what the DL/T 698.45 functions compute.

    The recursion equation of [dwDlt698DataLen] (its fuel is always enough), the
    bounds of the length it returns, and that it measures the items of the
    grammar; the frame check sequence as an instance of [Crc]; the frames the
    code builds and accepts; the analysis of a GET response. *)
From S2P Require Import Prelude.
From S2P Require Import Crc.
From S2P Require Import Dlt698.
From S2P Require Import Dlt698Spec.

(** ** Agreement of the step computations: fuel *)

(** [m1] and [m2] agree on buffers of at most [k] bytes, and never move [Ptr]
    backwards. *)
Definition agree {A} (k : nat) (m1 m2 : Steps A) : Prop :=
  ∀ Ptr Len, (length Ptr <= k)%nat →
    m1 Ptr Len = m2 Ptr Len ∧
    ∀ a P L, m1 Ptr Len = Go a P L → (length P <= length Ptr)%nat.

(** The same for the functions that return a length. *)
Definition agree_len (k : nat) (f g : list Z → Z → option Z) : Prop :=
  ∀ b l, (length b <= k)%nat → f b l = g b l.

Lemma agree_bind {A B} k (m1 m2 : Steps A) (k1 k2 : A → Steps B) :
  agree k m1 m2 → (∀ a, agree k (k1 a) (k2 a)) → agree k (sbind m1 k1) (sbind m2 k2).
Proof.
  intros Hm Hk Ptr Len Hl. destruct (Hm Ptr Len Hl) as [E Hs]. unfold sbind.
  rewrite <- E. destruct (m1 Ptr Len) as [a P L| |]; [|done..].
  specialize (Hs a P L eq_refl). destruct (Hk a P L ltac:(lia)) as [E2 Hs2].
  split; [done|]. intros b P' L' E'. specialize (Hs2 b P' L' E'). lia.
Qed.

Lemma agree_done k : agree k done_ done_.
Proof. intros Ptr Len _. split; [done|]. by intros a P L [= <- <- <-]. Qed.

Lemma agree_fail k : agree k fail_ fail_.
Proof. intros Ptr Len _. done. Qed.

Lemma agree_peek k : agree k peek peek.
Proof. intros [|b Ptr] Len _; split; try done. by intros a P L [= <- <- <-]. Qed.

Lemma agree_advance k n : agree k (advance n) (advance n).
Proof.
  intros Ptr Len _. split; [done|]. intros a P L [= <- <- <-]. rewrite length_drop. lia.
Qed.

Lemma agree_check k l : agree k (check l) (check l).
Proof.
  intros Ptr Len _. split; [done|]. unfold check. destruct (l <? Len); [done|].
  by intros a P L [= <- <- <-].
Qed.

Lemma agree_varlen k : agree k varlen varlen.
Proof.
  intros Ptr Len _. split; [done|]. unfold varlen.
  destruct (dwDlt698Len Ptr) as [[v n]|]; [|done]. destruct (v <? 0); [done|].
  intros a P L [= <- <- <-]. rewrite length_drop. lia.
Qed.

Lemma agree_item k s f g l : agree_len k f g → agree k (item s f l) (item s g l).
Proof.
  intros Hf Ptr Len Hl. unfold item. rewrite (Hf Ptr _ Hl). split; [done|].
  destruct (g Ptr (l - Len)) as [r|]; [|done].
  destruct (_ || _); [done|]. apply (agree_advance k r Ptr Len Hl).
Qed.

Lemma agree_times k n (m1 m2 : Steps unit) : agree k m1 m2 → agree k (times n m1) (times n m2).
Proof.
  intros Hm. induction n as [|n IH]; [apply agree_done|]. by apply agree_bind.
Qed.

Create HintDb steps.
#[export] Hint Resolve agree_bind agree_done agree_fail agree_peek agree_advance
  agree_check agree_varlen agree_item agree_times : steps.

#[export] Hint Extern 2 (agree _ (if ?c then _ else _) _) => destruct c : steps.

(** Splits a [match] on an integer literal into its cases. *)
Ltac agree_cases :=
  intros; cbv zeta;
  repeat match goal with
  | |- agree _ (match ?x with _ => _ end) _ => destruct x
  end; eauto 12 with steps.

Lemma agree_octets k : agree k octets octets.
Proof. apply agree_bind; auto with steps. Qed.
#[export] Hint Resolve agree_octets : steps.

Lemma agree_returned k (m1 m2 : Steps unit) l :
  agree k m1 m2 →
  agree_len k (λ b _, returned (sbind m1 (λ _, check l) b 0))
    (λ b _, returned (sbind m2 (λ _, check l) b 0)).
Proof.
  intros Hm b ? Hb. f_equal.
  by apply (agree_bind k m1 m2 (λ _, check l) (λ _, check l) Hm); auto with steps.
Qed.

Section agreement.
Context (k : nat) (f g : list Z → Z → option Z) (Hfg : agree_len k f g).

Lemma agree_ms l : agree k (ms_body f l) (ms_body g l).
Proof. apply agree_bind; [auto with steps|]. agree_cases. Qed.

Lemma agree_MsLen : agree_len k (λ b l, dwDlt698MsLen f l b) (λ b l, dwDlt698MsLen g l b).
Proof. intros b l. exact (agree_returned k _ _ l (agree_ms l) b l). Qed.

Lemma agree_rsd l : agree k (rsd_body f l) (rsd_body g l).
Proof.
  pose proof agree_MsLen. apply agree_bind; [auto with steps|]. agree_cases.
Qed.

Lemma agree_RSDLen : agree_len k (λ b l, dwDlt698RSDLen f l b) (λ b l, dwDlt698RSDLen g l b).
Proof. intros b l. exact (agree_returned k _ _ l (agree_rsd l) b l). Qed.

Lemma agree_csd l : agree k (csd l) (csd l).
Proof. apply agree_bind; [auto with steps|]. agree_cases. Qed.

Lemma agree_data ty l : agree k (data_body f l ty) (data_body g l ty).
Proof.
  pose proof agree_MsLen. pose proof agree_RSDLen. pose proof (agree_csd l).
  unfold data_body.
  repeat match goal with |- agree _ (if ?c then _ else _) _ => destruct c end;
    [unfold data_basic|unfold data_scalar|unfold data_object|unfold data_selector];
    agree_cases.
Qed.
End agreement.

Lemma data_switch_cons f l ty b :
  data_switch f l (ty :: b) 0 = sbind (data_body f l ty) (λ _, check l) b 1.
Proof. reflexivity. Qed.

Lemma data_len_agree k n m :
  (k < n)%nat → (k < m)%nat → agree_len k (data_len n) (data_len m).
Proof.
  revert n m. induction k as [|k IH]; intros [|n] [|m] Hn Hm; try lia; intros [|ty b] l Hb;
    try done; simpl in Hb; [lia|].
  cbn [data_len]. rewrite !data_switch_cons. f_equal.
  apply (agree_bind k _ _ (λ _, check l) (λ _, check l)); [|intros; apply agree_check|lia].
  apply agree_data. apply IH; lia.
Qed.

(** The C function's own recursion equation: the fuel is no restriction. *)
Lemma dwDlt698DataLen_unfold_lemma b l :
  dwDlt698DataLen b l = returned (data_switch dwDlt698DataLen l b 0).
Proof.
  unfold dwDlt698DataLen at 1. cbn [data_len]. f_equal.
  destruct b as [|ty b]; [done|]. rewrite !data_switch_cons.
  apply (agree_bind (length b) _ _ (λ _, check l) (λ _, check l));
    [|intros; apply agree_check|lia].
  apply agree_data. intros b' l' Hb'. apply (data_len_agree (length b')); simpl; lia.
Qed.

(** ** The range of a returned length *)

Lemma returned_range (m : Steps unit) l b r :
  returned (sbind m (λ _, check l) b 0) = Some r →
  (∀ a P L, m b 0 = Go a P L → is_u16 L) → r = -1 ∨ 0 <= r <= l ∧ is_u16 r.
Proof.
  unfold sbind, check. destruct (m b 0) as [a P L| |] eqn:E; [|intros [= <-]; by left|done].
  destruct (Z.ltb_spec l L); intros [= <-] Hm; [by left|]. right.
  specialize (Hm _ _ _ eq_refl). unfold is_u16 in Hm. unfold is_u16. lia.
Qed.

(** [Len] stays a 16-bit value. *)
Definition keeps {A} (m : Steps A) : Prop :=
  ∀ Ptr Len a P L, is_u16 Len → m Ptr Len = Go a P L → is_u16 L.

Lemma keeps_bind {A B} (m : Steps A) (k : A → Steps B) :
  keeps m → (∀ a, keeps (k a)) → keeps (sbind m k).
Proof.
  intros Hm Hk Ptr Len a P L Hl. unfold sbind.
  destruct (m Ptr Len) as [b P' L'| |] eqn:E; [|done..]. apply Hk. by eapply Hm.
Qed.

Lemma keeps_advance n : keeps (advance n).
Proof. intros Ptr Len a P L _ [= _ _ <-]. apply u16_range. Qed.

Lemma keeps_done : keeps done_.
Proof. by intros Ptr Len a P L H [= _ _ <-]. Qed.

Lemma keeps_fail : keeps fail_.
Proof. done. Qed.

Lemma keeps_peek : keeps peek.
Proof. intros [|b Ptr] Len a P L H; [done|]. by intros [= _ _ <-]. Qed.

Lemma keeps_check l : keeps (check l).
Proof.
  intros Ptr Len a P L H. unfold check. destruct (l <? Len); [done|]. by intros [= _ _ <-].
Qed.

Lemma keeps_varlen : keeps varlen.
Proof.
  intros Ptr Len a P L H. unfold varlen. destruct (dwDlt698Len Ptr) as [[v n]|]; [|done].
  destruct (v <? 0); [done|]. intros [= _ _ <-]. apply u16_range.
Qed.

Lemma keeps_item s f l : keeps (item s f l).
Proof.
  intros Ptr Len a P L H. unfold item. destruct (f _ _) as [r|]; [|done].
  destruct (_ || _); [done|]. intros [= _ _ <-]. apply u16_range.
Qed.

Lemma keeps_times n m : keeps m → keeps (times n m).
Proof. intros. induction n; [apply keeps_done|]. by apply keeps_bind. Qed.

Lemma keeps_octets : keeps octets.
Proof. apply keeps_bind; [apply keeps_varlen|intros; apply keeps_advance]. Qed.

#[export] Hint Resolve keeps_bind keeps_advance keeps_done keeps_fail keeps_peek keeps_check
  keeps_varlen keeps_item keeps_times keeps_octets : steps.
#[export] Hint Extern 2 (keeps (if ?c then _ else _)) => destruct c : steps.

Ltac keeps_cases :=
  intros; cbv zeta;
  repeat match goal with
  | |- keeps (match ?x with _ => _ end) => destruct x
  end; eauto 12 with steps.

Lemma keeps_csd l : keeps (csd l).
Proof. apply keeps_bind; [apply keeps_peek|]. keeps_cases. Qed.
#[export] Hint Resolve keeps_csd : steps.

Lemma keeps_data f l ty : keeps (data_body f l ty).
Proof.
  unfold data_body.
  repeat match goal with |- keeps (if ?c then _ else _) => destruct c end;
    [unfold data_basic|unfold data_scalar|unfold data_object|unfold data_selector];
    keeps_cases.
Qed.

Lemma dwDlt698DataLen_range_lemma b l r :
  dwDlt698DataLen b l = Some r → r = -1 ∨ 0 <= r <= l ∧ is_u16 r.
Proof.
  unfold dwDlt698DataLen. cbn [data_len]. unfold data_switch. intros E.
  apply (returned_range
    (sbind peek (λ ty, sbind (advance 1) (λ _, data_body (data_len (length b)) l ty))) l b).
  - rewrite <- E. f_equal. unfold sbind, peek. by destruct b.
  - intros a P L. apply keeps_bind; [apply keeps_peek|intros ty; apply keeps_bind|done].
    + apply keeps_advance.
    + intros _. apply keeps_data.
Qed.

(** ** Measuring well-formed items *)

(** [m] consumes exactly [l], wherever it stands and whatever follows, while the
    count stays within the limit. *)
Definition consumes {A} (lim : Z) (m : Steps A) (l : list Z) (a : A) : Prop :=
  ∀ rest Len, 0 <= Len → Len + Z.of_nat (length l) <= lim →
    Len + Z.of_nat (length l) < 65536 →
    m (l ++ rest) Len = Go a rest (Len + Z.of_nat (length l)).

Definition measures (f : list Z → Z → option Z) (l : list Z) : Prop :=
  ∀ rest lim, Z.of_nat (length l) <= lim → Z.of_nat (length l) < 65536 →
    f (l ++ rest) lim = Some (Z.of_nat (length l)).

Section consumption.
Context (lim : Z).

Lemma consumes_bind {A B} (m : Steps A) (k : A → Steps B) l1 l2 a b :
  consumes lim m l1 a → consumes lim (k a) l2 b → consumes lim (sbind m k) (l1 ++ l2) b.
Proof using.
  intros Hm Hk rest Len H0. rewrite length_app. intros Hl H16. unfold sbind.
  rewrite <- app_assoc, Hm by lia. rewrite Hk by lia. f_equal. lia.
Qed.

Lemma consumes_done : consumes lim done_ [] ().
Proof using. intros rest Len H0 _ _. unfold done_. f_equal. simpl. lia. Qed.

Lemma consumes_peek {B} (k : Z → Steps B) c l b :
  consumes lim (k c) (c :: l) b → consumes lim (sbind peek k) (c :: l) b.
Proof using. intros Hk rest Len. apply Hk. Qed.

Lemma consumes_advance l n : n = Z.of_nat (length l) → consumes lim (advance n) l ().
Proof using.
  intros -> rest Len H0 Hl H16. unfold advance. rewrite Nat2Z.id, drop_app_length.
  f_equal. apply u16_id. unfold is_u16. lia.
Qed.

Lemma consumes_check : consumes lim (check lim) [] ().
Proof using.
  intros rest Len H0 Hl _. unfold check. simpl in *. rewrite (proj2 (Z.ltb_ge _ _)) by lia.
  f_equal. lia.
Qed.

Lemma consumes_item s f l :
  measures f l → (s = true → l ≠ []) → consumes lim (item s f lim) l ().
Proof using.
  intros Hf Hs rest Len H0 Hl H16. unfold item. rewrite Hf by lia.
  destruct s; cbn [andb].
  - assert (l ≠ []) as Hne by auto. assert (length l ≠ 0%nat) by (by destruct l).
    rewrite (proj2 (Z.ltb_ge _ _)), (proj2 (Z.leb_gt _ _)) by lia.
    by apply consumes_advance.
  - rewrite (proj2 (Z.ltb_ge _ _)) by lia. by apply consumes_advance.
Qed.

Lemma consumes_times body ls :
  Forall (λ l, consumes lim body l ()) ls →
  consumes lim (times (length ls) body) (concat ls) ().
Proof using.
  induction 1 as [|l ls Hl Hls IH]; [apply consumes_done|].
  cbn [times length concat]. by apply (consumes_bind _ _ l (concat ls) ()).
Qed.

Lemma dwDlt698Len_encode n rest :
  0 <= n < 65536 →
  dwDlt698Len (encode_len (Z.to_nat n) ++ rest) =
  Some (n, Z.of_nat (length (encode_len (Z.to_nat n)))).
Proof using.
  intros Hn. unfold encode_len. rewrite Z2Nat.id by lia.
  destruct (Z.ltb_spec n 128); [|destruct (Z.ltb_spec n 256)].
  - assert (Z.land n 0x80 = 0) as E.
    { apply Z.eqb_eq. revert n Hn H. intros n Hn H.
      assert (is_u8 n) as Hu by (unfold is_u8; lia).
      pose proof (u8_check (λ n, implb (n <? 128) (Z.land n 0x80 =? 0)) eq_refl n Hu) as Hc.
      cbv beta in Hc. rewrite (proj2 (Z.ltb_lt n 128) H) in Hc. done. }
    unfold dwDlt698Len. cbn [app lookup list_lookup]. rewrite bind_ret, E. done.
  - reflexivity.
  - unfold dwDlt698Len, be16. cbn [app lookup list_lookup]. rewrite !bind_ret. cbn.
    do 2 f_equal. rewrite Z.shiftl_mul_pow2 by lia.
    rewrite (lor_disjoint _ _ 8) by ulia. change (2 ^ 8) with 256. ulia.
Qed.

Lemma consumes_varlen (n : nat) :
  Z.of_nat n < 65536 → consumes lim varlen (encode_len n) (Z.of_nat n).
Proof using.
  intros Hn rest Len H0 Hl H16. unfold varlen.
  pose proof (dwDlt698Len_encode (Z.of_nat n) rest ltac:(lia)) as E.
  rewrite Nat2Z.id in E. rewrite E, (proj2 (Z.ltb_ge _ _)) by lia.
  unfold sbind. by rewrite (consumes_advance (encode_len n) _ eq_refl rest Len).
Qed.

(** A counted sequence. *)
Lemma consumes_counted body ls :
  short ls → Forall (λ l, consumes lim body l ()) ls →
  consumes lim (sbind varlen (λ n, times (Z.to_nat n) body))
    (encode_len (length ls) ++ concat ls) ().
Proof using.
  intros Hs Hls. apply (consumes_bind _ _ _ _ (Z.of_nat (length ls))).
  { by apply consumes_varlen. }
  rewrite Nat2Z.id. by apply consumes_times.
Qed.

Lemma consumes_counted_bytes n ls :
  short ls → Forall (λ l, Z.of_nat (length l) = n) ls →
  consumes lim (sbind varlen (λ c, times (Z.to_nat c) (advance n)))
    (encode_len (length ls) ++ concat ls) ().
Proof using.
  intros Hs Hls. apply consumes_counted; [done|]. eapply Forall_impl; [done|].
  intros l E. by apply consumes_advance.
Qed.

Lemma consumes_each_byte s :
  short s →
  consumes lim (sbind varlen (λ c, times (Z.to_nat c) (advance 1))) (octet_string s) ().
Proof using.
  intros Hs. assert (concat ((λ b, [b]) <$> s) = s) as E.
  { clear Hs. induction s as [|b s IH]; [done|]. by cbn; f_equal. }
  unfold octet_string. rewrite <- E at 2. rewrite <- (length_fmap (λ b, [b]) s).
  apply consumes_counted_bytes; [by unfold short; rewrite length_fmap|].
  by apply Forall_fmap, Forall_true.
Qed.

Lemma consumes_octets s : short s → consumes lim octets (octet_string s) ().
Proof using.
  intros Hs. apply (consumes_bind _ _ _ _ (Z.of_nat (length s))).
  - by apply consumes_varlen.
  - by apply consumes_advance.
Qed.

Lemma consumes_returned (m : Steps unit) l :
  consumes lim m l () → Z.of_nat (length l) <= lim → Z.of_nat (length l) < 65536 →
  ∀ rest, returned (sbind m (λ _, check lim) (l ++ rest) 0) = Some (Z.of_nat (length l)).
Proof using.
  intros Hm Hl H16 rest.
  assert (consumes lim (sbind m (λ _, check lim)) l ()) as Hc.
  { rewrite <- (app_nil_r l). eapply consumes_bind; [done|apply consumes_check]. }
  rewrite Hc by lia. by simpl.
Qed.
End consumption.

#[export] Hint Resolve consumes_done consumes_advance consumes_check consumes_octets
  consumes_counted consumes_counted_bytes : steps.

(** *** The items of the grammar *)

Section items.
Context (f : list Z → Z → option Z) (P : list Z → Prop).
Context (Hf : ∀ d, P d → measures f d).

Lemma consumes_data lim d : P d → consumes lim (item false f lim) d ().
Proof using Hf. intros. by apply consumes_item; [apply Hf|]. Qed.

Lemma consumes_region lim r :
  region P r →
  consumes lim (sbind (advance 1) (λ _, sbind (item false f lim) (λ _, item false f lim))) r ().
Proof using Hf.
  intros (e & d1 & d2 & -> & H1 & H2). apply (consumes_bind _ _ _ [e] (d1 ++ d2) ()).
  - by apply consumes_advance.
  - apply (consumes_bind _ _ _ _ _ ()); by apply consumes_data.
Qed.

Lemma consumes_ms lim m : ms_item P m → consumes lim (ms_body f lim) m ().
Proof using Hf.
  intros Hm. destruct Hm as [c Hc|s Hs|ss Hs Hss|ns Hs Hns|c rs Hc Hs Hrs];
    apply consumes_peek.
  - destruct Hc as [-> | ->]; by apply consumes_advance.
  - apply (consumes_bind _ _ _ [2] (octet_string s) ()); [by apply consumes_advance|].
    by apply consumes_each_byte.
  - apply (consumes_bind _ _ _ [3] (_ ++ _) ()); [by apply consumes_advance|].
    rewrite <- (length_fmap octet_string ss). apply consumes_counted.
    + unfold short. by rewrite length_fmap.
    + apply Forall_fmap. eapply Forall_impl; [done|]. intros s. apply consumes_octets.
  - apply (consumes_bind _ _ _ [4] (_ ++ _) ()); [by apply consumes_advance|].
    apply consumes_counted_bytes; [done|]. eapply Forall_impl; [done|]. simpl. lia.
  - assert (c = 5 ∨ c = 6 ∨ c = 7) as [-> |[-> | ->]] by lia;
      (apply (consumes_bind _ _ _ [_] (_ ++ _) ()); [by apply consumes_advance|];
       apply consumes_counted; [done|]; eapply Forall_impl; [done|]; apply consumes_region).
Qed.

Lemma measures_ms m : ms_item P m → measures (λ b l, dwDlt698MsLen f l b) m.
Proof using Hf.
  intros Hm rest lim Hl H16. by apply consumes_returned; [apply consumes_ms|..].
Qed.

Lemma consumes_ms_item lim m :
  ms_item P m → consumes lim (item false (λ b l, dwDlt698MsLen f l b) lim) m ().
Proof using Hf. intros. by apply consumes_item; [apply measures_ms|]. Qed.

Lemma consumes_selection lim s :
  selection P s →
  consumes lim (sbind (advance 4) (λ _, sbind (item false f lim) (λ _,
    sbind (item false f lim) (λ _, item false f lim)))) s ().
Proof using Hf.
  intros (oad & d1 & d2 & d3 & -> & Ho & H1 & H2 & H3).
  apply (consumes_bind _ _ _ _ _ ()); [apply consumes_advance; lia|].
  apply (consumes_bind _ _ _ _ _ ()); [by apply consumes_data|].
  apply (consumes_bind _ _ _ _ _ ()); by apply consumes_data.
Qed.

Lemma consumes_rsd lim r : rsd_item P r → consumes lim (rsd_body f lim) r ().
Proof using Hf.
  intros Hr. destruct Hr as [|oad d Ho Hd|s Hs|ss Hs Hss|c t m Hc Ht Hm|c t m Hc Ht Hm|n|n m Hm];
    apply consumes_peek.
  - by apply consumes_advance.
  - apply (consumes_bind _ _ _ [1] (_ ++ _) ()); [by apply consumes_advance|].
    apply (consumes_bind _ _ _ _ _ ()); [apply consumes_advance; lia|by apply consumes_data].
  - apply (consumes_bind _ _ _ [2] _ ()); [by apply consumes_advance|by apply consumes_selection].
  - apply (consumes_bind _ _ _ [3] (_ ++ _) ()); [by apply consumes_advance|].
    apply consumes_counted; [done|]. eapply Forall_impl; [done|]. apply consumes_selection.
  - assert (consumes lim (sbind (advance 1) (λ _, sbind (advance 7) (λ _,
      item false (λ b l, dwDlt698MsLen f l b) lim))) (c :: t ++ m) ()) as H.
    { apply (consumes_bind _ _ _ [_] (_ ++ _) ()); [by apply consumes_advance|].
      apply (consumes_bind _ _ _ _ _ ()); [apply consumes_advance; lia|].
      by apply consumes_ms_item. }
    by destruct Hc as [-> | ->].
  - assert (consumes lim (sbind (advance 1) (λ _, sbind (advance 7) (λ _, sbind (advance 7) (λ _,
      sbind (advance 3) (λ _, item false (λ b l, dwDlt698MsLen f l b) lim))))) (c :: t ++ m) ()) as H.
    { apply (consumes_bind _ _ _ [_] (_ ++ _) ()); [by apply consumes_advance|].
      rewrite <- (take_drop 7 t), <- (take_drop 7 (drop 7 t)), <- !app_assoc.
      do 3 (apply (consumes_bind _ _ _ _ _ ());
            [apply consumes_advance; rewrite ?length_take, ?length_drop; lia|]).
      by apply consumes_ms_item. }
    by assert (c = 6 ∨ c = 7 ∨ c = 8) as [-> |[-> | ->]] by lia.
  - by apply (consumes_bind _ _ _ [9] [n] ()); apply consumes_advance.
  - apply (consumes_bind _ _ _ [10] (n :: m) ()); [by apply consumes_advance|].
    apply (consumes_bind _ _ _ [n] m ()); [by apply consumes_advance|by apply consumes_ms_item].
Qed.

Lemma measures_rsd r : rsd_item P r → measures (λ b l, dwDlt698RSDLen f l b) r.
Proof using Hf.
  intros Hr rest lim Hl H16. by apply consumes_returned; [apply consumes_rsd|..].
Qed.
End items.

Lemma consumes_csd lim c : csd_item c → consumes lim (csd lim) c ().
Proof.
  intros Hc. destruct Hc as [oad Ho|oad os Ho Hs Hos]; apply consumes_peek.
  - by apply (consumes_bind _ _ _ [0] oad ()); apply consumes_advance; simpl; lia.
  - apply (consumes_bind _ _ _ [1] (_ ++ _) ()); [by apply consumes_advance|].
    apply (consumes_bind _ _ _ _ _ ()); [apply consumes_advance; lia|].
    apply consumes_counted; [done|]. eapply Forall_impl; [done|]. intros o E.
    apply (consumes_bind _ _ _ [] o ()); [apply consumes_check|].
    apply consumes_advance. simpl in E. lia.
Qed.

(** *** Shorter items suffice *)

Section shorter.
Context (P Q : list Z → Prop).

Lemma Forall_concat_impl (R S : list Z → Prop) ls :
  Forall R ls → (∀ l, R l → (length l <= length (concat ls))%nat → S l) → Forall S ls.
Proof using.
  induction 1 as [|l ls Hl Hls IH]; intros Himp; [done|]. cbn [concat] in Himp.
  rewrite length_app in Himp. constructor; [apply Himp; [done|lia]|].
  apply IH. intros k Hk Hlen. apply Himp; [done|lia].
Qed.

Lemma region_shorter r :
  region P r → (∀ d, P d → (length d < length r)%nat → Q d) → region Q r.
Proof using.
  intros (e & d1 & d2 & -> & H1 & H2) H. simpl in H. rewrite length_app in H.
  exists e, d1, d2. split; [done|]. split; apply H; try done; lia.
Qed.

Lemma selection_shorter r :
  selection P r → (∀ d, P d → (length d < length r)%nat → Q d) → selection Q r.
Proof using.
  intros (oad & d1 & d2 & d3 & -> & Ho & H1 & H2 & H3) H. rewrite !length_app in H.
  exists oad, d1, d2, d3. split; [done|]. split; [done|].
  split_and!; apply H; try done; lia.
Qed.

Lemma ms_shorter m :
  ms_item P m → (∀ d, P d → (length d < length m)%nat → Q d) → ms_item Q m.
Proof using.
  intros Hm H. destruct Hm as [c Hc|s Hs|ss Hs Hss|ns Hs Hns|c rs Hc Hs Hrs];
    [by constructor..|]. cbn [length] in H. rewrite length_app in H.
  constructor; [done..|]. eapply Forall_concat_impl; [done|]. intros r Hr Hlen.
  eapply region_shorter; [done|]. intros d Hd Hdr. apply H; [done|lia].
Qed.

Lemma rsd_shorter r :
  rsd_item P r → (∀ d, P d → (length d < length r)%nat → Q d) → rsd_item Q r.
Proof using.
  intros Hr H. destruct Hr as [|oad d Ho Hd|s Hs|ss Hs Hss|c t m Hc Ht Hm|c t m Hc Ht Hm|n|n m Hm];
    cbn [length] in H; rewrite ?length_app in H;
    [apply rsd_none|apply rsd_one|apply rsd_range|apply rsd_ranges|apply rsd_at
    |apply rsd_between|apply rsd_last|apply rsd_last_of]; try done.
  - apply H; [done|lia].
  - eapply selection_shorter; [done|]. intros d Hd Hl. apply H; [done|lia].
  - eapply Forall_concat_impl; [done|]. intros s Hs' Hlen.
    eapply selection_shorter; [done|]. intros d Hd Hl. apply H; [done|lia].
  - eapply ms_shorter; [done|]. intros d Hd Hl. apply H; [done|lia].
  - eapply ms_shorter; [done|]. intros d Hd Hl. apply H; [done|lia].
  - eapply ms_shorter; [done|]. intros d Hd Hl. apply H; [done|lia].
Qed.
End shorter.

Lemma data_item_not_nil d : data_item d → d ≠ [].
Proof. by destruct 1. Qed.

Lemma consumes_fixed f lim ty n s :
  fixed_size ty = Some n → Z.of_nat (length s) = n →
  consumes lim (data_body f lim ty) s ().
Proof.
  intros Hty Hs. unfold fixed_size in Hty.
  repeat case_match; simplify_eq; try (by apply consumes_advance).
  - assert (s = []) as -> by (destruct s; [done|simpl in *; lia]). apply consumes_done.
  - destruct s as [|b [|c [|]]]; simpl in *; try lia.
    apply (consumes_bind _ _ _ [b] [c] ()); by apply consumes_advance.
Qed.

Lemma consumes_data_body f (P : list Z → Prop) lim ty s :
  (∀ d, P d → measures f d ∧ d ≠ []) →
  data_item (ty :: s) →
  (∀ d, data_item d → (length d < length (ty :: s))%nat → P d) →
  consumes lim (data_body f lim ty) s ().
Proof.
  intros HP Hd Hsub. assert (∀ d, P d → measures f d) as Hf by (intros; by apply HP).
  cbn [length] in Hsub.
  inversion Hd as [? n ? E|? ds Ht Hs Hds|n t Hn Ht|? t Hty Hs|oad os Ho Hs Hos|r Hr|r Hr|c Hc
    |m Hm|id t Hi Hs|id t u Hi Ht Hu|cs Hs Hcs]; subst; clear Hd.
  - by eapply consumes_fixed.
  - rewrite length_app in Hsub.
    destruct Ht as [-> | ->]; (apply consumes_counted; [done|];
      eapply Forall_concat_impl; [done|]; intros d Hd Hl;
      destruct (HP d) as [Hm Hne]; [by apply Hsub; [|lia]|by apply consumes_item]).
  - apply (consumes_bind _ _ _ _ _ (Z.of_nat n)); [by apply consumes_varlen|].
    destruct (Z.eqb_spec (Z.of_nat n mod 8) 0);
      apply consumes_advance; rewrite Ht; Z.to_euclidean_division_equations; lia.
  - rewrite !elem_of_cons, elem_of_nil in Hty.
    by destruct Hty as [->|[->|[->|[->|[->|[->|[]]]]]]]; apply consumes_octets.
  - apply (consumes_bind _ _ _ _ _ ()); [apply consumes_advance; lia|].
    apply consumes_counted_bytes; [done|]. eapply Forall_impl; [done|]. simpl. lia.
  - apply (consumes_region f P Hf). eapply region_shorter; [done|].
    intros d Hd Hl. apply Hsub; [done|lia].
  - apply consumes_item; [|done]. apply (measures_rsd f P Hf).
    eapply rsd_shorter; [done|]. intros d Hd Hl. apply Hsub; [done|lia].
  - by apply consumes_csd.
  - apply (consumes_ms_item f P Hf). eapply ms_shorter; [done|].
    intros d Hd Hl. apply Hsub; [done|lia].
  - apply (consumes_bind _ _ _ _ _ ()); [apply consumes_advance; lia|by apply consumes_octets].
  - apply (consumes_bind _ _ _ _ _ ()); [apply consumes_advance; lia|].
    by apply (consumes_bind _ _ _ _ _ ()); apply consumes_octets.
  - apply consumes_counted; [done|]. eapply Forall_impl; [done|]. intros c Hc.
    apply (consumes_bind _ _ _ [] c ()); [apply consumes_check|by apply consumes_csd].
Qed.

Lemma data_item_measured k d :
  data_item d → (length d <= k)%nat → measures dwDlt698DataLen d.
Proof.
  revert d. induction k as [|k IH]; intros d Hd Hk; [destruct Hd; simpl in Hk; lia|].
  intros rest lim Hl H16. rewrite dwDlt698DataLen_unfold_lemma.
  destruct d as [|ty s]; [by destruct (data_item_not_nil _ Hd)|].
  cbn [app]. rewrite data_switch_cons. cbn [length] in *.
  assert (consumes lim (data_body dwDlt698DataLen lim ty) s ()) as Hc.
  { apply (consumes_data_body _ (λ d, measures dwDlt698DataLen d ∧ d ≠ [])); [done..|].
    intros d Hd' Hl'. split; [apply IH; [done|simpl in Hl'; lia]|by apply data_item_not_nil]. }
  unfold sbind. rewrite Hc by lia. unfold check. rewrite (proj2 (Z.ltb_ge _ _)) by lia.
  cbn [returned]. f_equal. lia.
Qed.

(** ** The frame check sequence *)

Definition fcstab_entry_ok (x : Z) : bool :=
  match fcstab !! Z.to_nat x with
  | Some t => t =? Nat.iter 8 (lfsr 0x8408) x
  | None => false
  end.

Lemma fcstab_ok : forallb fcstab_entry_ok (seqZ 0 256) = true.
Proof. by vm_compute. Qed.

Lemma fcstab_spec x :
  is_u8 x → fcstab !! Z.to_nat x = Some (Nat.iter 8 (lfsr 0x8408) x).
Proof.
  intros Hx. pose proof (u8_check _ fcstab_ok x Hx) as H. unfold fcstab_entry_ok in H.
  destruct (fcstab !! Z.to_nat x) as [t|]; [|done]. apply Z.eqb_eq in H. by rewrite H.
Qed.

(** One step of the table is eight steps of the shift register. *)
Lemma fcs_step fcs b :
  is_u16 fcs → is_u8 b →
  ∃ t, fcstab !! Z.to_nat (Z.land (Z.lxor fcs b) 0xff) = Some t ∧
    Z.lxor (Z.shiftr fcs 8) t = lfsr_byte 0x8408 fcs b.
Proof.
  intros Hf Hb. change 0xff with (Z.ones 8). rewrite Z.land_ones by lia.
  set (x := Z.lxor fcs b). change (2 ^ 8) with 256.
  rewrite fcstab_spec by (unfold is_u8; apply Z.mod_pos_bound; lia).
  eexists. split; [done|]. unfold lfsr_byte. fold x.
  assert (Z.shiftr x 8 = Z.shiftr fcs 8) as Es.
  { unfold x. rewrite Z.shiftr_lxor, !Z.shiftr_div_pow2 by lia. change (2 ^ 8) with 256.
    rewrite (Z.div_small b) by (unfold is_u8 in Hb; lia). by rewrite Z.lxor_0_r. }
  assert (x = Z.lxor (256 * Z.shiftr fcs 8) (x mod 256)) as Ex.
  { rewrite <- Es, Z.shiftr_div_pow2 by lia. change (2 ^ 8) with 256.
    transitivity (256 * (x / 256) + x mod 256); [apply Z.div_mod; lia|].
    apply Z.add_nocarry_lxor.
    apply Z.bits_inj'. intros i Hi. rewrite Z.land_spec, Z.bits_0.
    change 256 with (2 ^ 8). rewrite Z.mul_comm, Z.mul_pow2_bits by lia.
    destruct (Z.lt_ge_cases i 8).
    - by rewrite Z.testbit_neg_r by lia.
    - rewrite Z.mod_pow2_bits_high by lia. apply andb_false_r. }
  rewrite Ex at 2. by rewrite lfsr_iter_lxor, lfsr_iter_shift.
Qed.

Lemma fcs_loop_spec n fcs cp :
  is_u16 fcs → bytes (take n cp) → (n <= length cp)%nat →
  fcs_loop n fcs cp = Some (lfsr_bytes 0x8408 fcs (take n cp)).
Proof.
  revert fcs cp. induction n as [|n IH]; intros fcs cp Hf Hcp Hn; [done|].
  destruct cp as [|b cp]; simpl in Hn; [lia|]. apply Forall_cons_1 in Hcp as [Hb Hcp].
  destruct (fcs_step fcs b) as (t & Et & Es); [done..|].
  cbn [fcs_loop]. rewrite Et, bind_ret, Es, IH; [done| |done|lia].
  apply lfsr_iter_u16; [lia|]. by apply (lxor_bound _ _ 16); [lia|done|apply is_u8_u16].
Qed.

Lemma lnot_u16 x : is_u16 x → u16 (Z.lnot x) = Z.lxor x 0xFFFF.
Proof.
  intros Hx. apply Z.bits_inj'. intros i Hi. unfold u16. change 65536 with (2 ^ 16).
  rewrite Z.testbit_mod_pow2, Z.lnot_spec, Z.lxor_spec by lia.
  change 0xFFFF with (Z.ones 16). destruct (Z.ltb_spec i 16).
  - rewrite Z.ones_spec_low by lia. by rewrite xorb_true_r.
  - rewrite Z.ones_spec_high by lia. rewrite xorb_false_r. symmetry.
    apply (testbit_above x 16); [|lia]. unfold is_u16 in Hx. lia.
Qed.

Lemma pppfcs16_spec cp n :
  bytes (take n cp) → (n <= length cp)%nat →
  pppfcs16 PPPINITFCS16 cp (Z.of_nat n) = Some (fcs16 (take n cp)).
Proof.
  intros Hcp Hn. unfold pppfcs16. rewrite (proj2 (Z.ltb_ge _ _)) by lia.
  rewrite Nat2Z.id, fcs_loop_spec, bind_ret by (done || (unfold is_u16, PPPINITFCS16; lia)).
  by rewrite lnot_u16 by (apply lfsr_bytes_u16; [lia|unfold is_u16, PPPINITFCS16; lia|done]).
Qed.

Lemma fcs16_u16 l : bytes l → is_u16 (fcs16 l).
Proof.
  intros. apply (lxor_bound _ _ 16); [lia| |lia].
  apply lfsr_bytes_u16; [lia|unfold is_u16; lia|done].
Qed.

Lemma with_fcs_bytes l : bytes l → bytes (with_fcs l).
Proof. intros. apply bytes_app. split; [done|]. by apply le16_bytes, fcs16_u16. Qed.

Lemma MAKE_WORD_le16 w : is_u16 w → MAKE_WORD (w / 256) (w mod 256) = w.
Proof.
  intros Hw. unfold MAKE_WORD. rewrite Z.lor_comm, Z.shiftl_mul_pow2 by lia.
  rewrite (lor_disjoint _ _ 8) by ulia. change (2 ^ 8) with 256. ulia.
Qed.

Lemma MAKE_WORD_val h l : is_u8 h → is_u8 l → MAKE_WORD h l = 256 * h + l.
Proof.
  intros Hh Hl. unfold MAKE_WORD. rewrite Z.lor_comm, Z.shiftl_mul_pow2 by lia.
  rewrite (lor_disjoint _ _ 8) by (unfold is_u8 in *; lia). change (2 ^ 8) with 256. lia.
Qed.

(** ** Frames *)

(** The code counts the bytes 0xFE among the first four; the count is the number
    [k] of leading bytes only when the frame has no such byte there. *)
Definition preamble_ok (k : nat) (L control : Z) : Prop :=
  (k <= 4)%nat ∧ ((k <= 2)%nat → L mod 256 ≠ 0xFE) ∧ ((k <= 1)%nat → L / 256 ≠ 0xFE) ∧
  (k = 0%nat → control ≠ 0xFE).

Lemma lookup_behind {A} k (x : A) l j : (replicate k x ++ l) !! (k + j)%nat = l !! j.
Proof.
  rewrite lookup_app_r by (rewrite length_replicate; lia). rewrite length_replicate.
  f_equal. lia.
Qed.

Lemma drop_behind {A} k (x : A) l j : drop (k + j) (replicate k x ++ l) = drop j l.
Proof. by rewrite drop_app_ge, length_replicate, Nat.add_comm, Nat.add_sub
         by (rewrite length_replicate; lia). Qed.

Lemma preamble_count k L control l :
  preamble_ok k L control →
  cfor 4 0 (λ i n, b ← (replicate k 0xFE ++ 0x68 :: L mod 256 :: L / 256 :: control :: l) !! i;
    Some (if b =? 0xFE then S n else n)) O = Some k.
Proof.
  intros (Hk & H2 & H1 & H0).
  destruct k as [|[|[|[|[|k]]]]]; [..|lia]; cbn -[Z.eqb Z.div Z.modulo];
    rewrite ?(proj2 (Z.eqb_neq (L mod 256) 0xFE)) by (apply H2; lia);
    rewrite ?(proj2 (Z.eqb_neq (L / 256) 0xFE)) by (apply H1; lia);
    rewrite ?(proj2 (Z.eqb_neq control 0xFE)) by (by apply H0); reflexivity.
Qed.

Record wf_link (control logical : Z) (sa : list Z) (ca : Z) (apdu : list Z) : Prop := {
  link_control : is_u8 control;
  link_logical : 0 <= logical < 16;
  link_sa : bytes sa;
  link_sa_len : (1 <= length sa <= 16)%nat;
  link_ca : is_u8 ca;
  link_apdu : bytes apdu;
  link_len : 9 + Z.of_nat (length sa) + Z.of_nat (length apdu) < 65536 }.

Lemma frame_header_bytes c lg sa ca p : wf_link c lg sa ca p → bytes (frame_header c lg sa ca p).
Proof.
  intros [Hc Hlg Hsa Hn Hca Hp HL]. unfold frame_header. rewrite !bytes_app.
  split_and!; [apply le16_bytes; unfold is_u16; lia|solve_bytes|done|solve_bytes].
Qed.

Lemma length_frame_header c lg sa ca p : length (frame_header c lg sa ca p) = (length sa + 5)%nat.
Proof. unfold frame_header, le16. rewrite !length_app. simpl. lia. Qed.

Lemma length_with_fcs l : length (with_fcs l) = (length l + 2)%nat.
Proof. unfold with_fcs. by rewrite length_app. Qed.

Lemma frame_layout {A} (x u v lo hi : A) l p r :
  let m := x :: (l ++ [u; v]) ++ p ++ [lo; hi] ++ r in
  let n := length l in
  m !! (n + 1)%nat = Some u ∧ m !! (n + 2)%nat = Some v ∧
  m !! (n + 3 + length p)%nat = Some lo ∧ m !! (n + 4 + length p)%nat = Some hi ∧
  drop (n + 3) m = p ++ [lo; hi] ++ r ∧
  take n (drop 1 m) = l ∧ take (n + 2 + length p) (drop 1 m) = (l ++ [u; v]) ++ p.
Proof.
  intros m n. unfold m, n. clear m n.
  rewrite <- app_assoc. split_and!.
  - apply (list_lookup_middle (x :: l) (v :: p ++ [lo; hi] ++ r)). simpl. lia.
  - replace (x :: l ++ [u; v] ++ p ++ [lo; hi] ++ r)
      with ((x :: l ++ [u]) ++ v :: p ++ [lo; hi] ++ r) by (simpl; rewrite <- ?app_assoc; simpl; by rewrite <- ?app_assoc).
    apply list_lookup_middle. simpl. rewrite length_app. simpl. lia.
  - replace (x :: l ++ [u; v] ++ p ++ [lo; hi] ++ r)
      with ((x :: l ++ [u; v] ++ p) ++ lo :: hi :: r) by (simpl; rewrite <- ?app_assoc; simpl; by rewrite <- ?app_assoc).
    apply list_lookup_middle. repeat (simpl; rewrite ?length_app). lia.
  - replace (x :: l ++ [u; v] ++ p ++ [lo; hi] ++ r)
      with ((x :: l ++ [u; v] ++ p ++ [lo]) ++ hi :: r) by (simpl; rewrite <- ?app_assoc; simpl; by rewrite <- ?app_assoc).
    apply list_lookup_middle. repeat (simpl; rewrite ?length_app). lia.
  - rewrite Nat.add_succ_r. cbn [drop]. rewrite drop_app_ge by lia.
    by replace (length l + 2 - length l)%nat with 2%nat by lia.
  - apply take_app_length.
  - cbn [drop]. rewrite drop_0. replace (l ++ [u; v] ++ p ++ [lo; hi] ++ r)
      with (((l ++ [u; v]) ++ p) ++ [lo; hi] ++ r) by by rewrite <- !app_assoc.
    apply take_app_length'. rewrite !length_app. simpl. lia.
Qed.

(** A frame whose header is intact: the APDU is handed out exactly when the last
    two bytes are the check sequence of what precedes them. *)
Lemma get_apdu_body k c lg sa ca p lo hi rest :
  wf_link c lg sa ca p → is_u8 lo → is_u8 hi →
  let hdr := frame_header c lg sa ca p in
  let m := 0x68 :: with_fcs hdr ++ p ++ [lo; hi] ++ rest in
  preamble_ok k (9 + Z.of_nat (length sa) + Z.of_nat (length p)) c →
  dwGet698Apdu (replicate k 0xFE ++ m) =
  Some (if fcs16 (with_fcs hdr ++ p) =? 256 * hi + lo
        then mkApdu (Z.of_nat (length p)) (Some (p ++ [lo; hi] ++ rest)) (Some (drop 5 m))
               (Some (Z.of_nat (length sa)))
        else mkApdu (-1) None (Some (drop 5 m)) (Some (Z.of_nat (length sa)))).
Proof.
  intros Hwf Hlo Hhi hdr m Hpre. pose proof (frame_header_bytes _ _ _ _ _ Hwf) as Hhdr.
  fold hdr in Hhdr. pose proof (length_frame_header c lg sa ca p) as Lhdr. fold hdr in Lhdr.
  destruct Hwf as [Hc Hlg Hsa Hn Hca Hp HL].
  set (L := 9 + Z.of_nat (length sa) + Z.of_nat (length p)) in *.
  set (N := length sa) in *.
  assert (∃ tl, m = 0x68 :: L mod 256 :: L / 256 :: c :: (16 * lg + Z.of_nat N - 1) :: tl) as [tl Em].
  { unfold m, hdr, frame_header, with_fcs, le16. rewrite <- !app_assoc. cbn [app].
    eexists. reflexivity. }
  assert (Z.land (16 * lg + Z.of_nat N - 1) 0x0F = Z.of_nat N - 1) as Eland.
  { change 0x0F with (Z.ones 4). rewrite Z.land_ones by lia. change (2 ^ 4) with 16.
    replace (16 * lg + Z.of_nat N - 1) with ((Z.of_nat N - 1) + lg * 16) by lia.
    rewrite Z.mod_add by lia. apply Z.mod_small. lia. }
  assert (MAKE_WORD (L / 256) (L mod 256) = L) as EL by (apply MAKE_WORD_le16; unfold is_u16; lia).
  assert (∀ j, (replicate k 0xFE ++ m) !! (k + j)%nat = m !! j) as Hlook by apply lookup_behind.
  assert (∀ j, drop (k + j) (replicate k 0xFE ++ m) = drop j m) as Hdrop by apply drop_behind.
  assert (cfor 4 0 (λ i n, b ← (replicate k 0xFE ++ m) !! i;
    Some (if b =? 0xFE then S n else n)) O = Some k) as Hcount.
  { rewrite Em. by apply preamble_count. }
  unfold dwGet698Apdu. rewrite Hcount, bind_ret.
  assert (m !! 0%nat = Some 0x68 ∧ m !! 1%nat = Some (L mod 256) ∧ m !! 2%nat = Some (L / 256) ∧
    m !! 4%nat = Some (16 * lg + Z.of_nat N - 1)) as (E0 & E1 & E2 & E4) by (by rewrite Em).
  destruct (frame_layout 0x68 (fcs16 hdr mod 256) (fcs16 hdr / 256) lo hi hdr p rest)
    as (Eu & Ev & Elo & Ehi & Eap & Eth & Etf).
  fold (le16 (fcs16 hdr)) in *. fold (with_fcs hdr) in *. fold m in Eu, Ev, Elo, Ehi, Eap, Eth, Etf.
  rewrite Lhdr in *.
  pose proof (Hlook 0%nat) as H0. rewrite Nat.add_0_r in H0.
  rewrite H0, E0, bind_ret. change (negb (0x68 =? 0x68)) with false. cbv iota.
  rewrite !Hlook, E2, bind_ret, E1, bind_ret, E4, bind_ret, Eland, EL.
  rewrite <- !Nat.add_assoc, !Hlook, !Hdrop.
  replace (Z.of_nat N - 1 + 2 + 5 - 1) with (Z.of_nat (N + 5)) by lia.
  replace (L - 1 - 1) with (Z.of_nat (N + 5 + 2 + length p)) by (unfold L; lia).
  replace (Z.to_nat (Z.of_nat N - 1 + 2 + 5)) with (N + 5 + 1)%nat by lia.
  replace (Z.to_nat (L - 1)) with (N + 5 + 3 + length p)%nat by (unfold L; lia).
  replace (N + 5 + 1 + 1)%nat with (N + 5 + 2)%nat by lia.
  replace (N + 5 + 1 + 2)%nat with (N + 5 + 3)%nat by lia.
  replace (N + 5 + 3 + length p + 1)%nat with (N + 5 + 4 + length p)%nat by lia.
  assert (length (drop 1 m) = (N + 5 + 4 + length p + length rest)%nat) as Lm.
  { unfold m. cbn [drop]. rewrite drop_0, !length_app, length_with_fcs, Lhdr. simpl. lia. }
  rewrite Eu, Ev, Elo, Ehi, Eap.
  assert (bytes (with_fcs hdr ++ p)) as Hb by (apply bytes_app; auto using with_fcs_bytes).
  rewrite (pppfcs16_spec _ (N + 5)), (pppfcs16_spec _ (N + 5 + 2 + length p))
    by (rewrite ?Eth, ?Etf; done || lia).
  rewrite Eth, Etf, !bind_ret, MAKE_WORD_le16 by (by apply fcs16_u16).
  rewrite Z.eqb_refl. cbn [negb]. rewrite MAKE_WORD_val by done.
  replace (u8 (Z.of_nat N - 1 + 2 - 1)) with (Z.of_nat N) by (rewrite u8_id; [|unfold is_u8]; lia).
  replace (L - (Z.of_nat N - 1 + 2) - 8) with (Z.of_nat (length p)) by (unfold L; lia).
  by destruct (_ =? _).
Qed.

(** ** The GET response *)

Lemma reported_store u c n :
  ucDataNum c = Z.of_nat n → (n < length (stDataUnit c))%nat → (n < 255)%nat →
  ∃ c', store_unit u c = Some c' ∧ ucDataNum c' = Z.of_nat (n + 1) ∧
    length (stDataUnit c') = length (stDataUnit c) ∧
    reported c' = reported c ++ [unit_value u].
Proof.
  intros Hn Hl H255. unfold store_unit. rewrite Hn, Nat2Z.id, (proj2 (Nat.ltb_lt _ _) Hl).
  eexists. split; [done|]. cbn [ucDataNum stDataUnit].
  rewrite (u8_id (Z.of_nat n + 1)) by (unfold is_u8; lia).
  split; [lia|]. split; [apply length_insert|].
  unfold reported. cbn [ucDataNum stDataUnit]. rewrite Hn, Nat2Z.id.
  replace (Z.to_nat (Z.of_nat n + 1)) with (S n) by lia.
  rewrite (take_S_r _ _ u) by (by apply list_lookup_insert_eq).
  by rewrite take_insert_ge, fmap_app by lia.
Qed.

Lemma dwGetOad_spec o rest :
  bytes o → length o = 4%nat → dwGetOad (o ++ rest) = Some (oad_of o).
Proof.
  intros Hb Hl. destruct o as [|b0 [|b1 [|b2 [|b3 [|]]]]]; try done.
  apply Forall_cons_1 in Hb as [H0 Hb]. apply Forall_cons_1 in Hb as [H1 _].
  unfold dwGetOad. cbn [app lookup list_lookup]. rewrite !bind_ret, MAKE_WORD_val by done.
  done.
Qed.

Lemma get_results_step n r rest c :
  wf_result r → ucDataNum c = Z.of_nat n → length (stDataUnit c) = MAX_COLL_OAD_SIZE →
  (n < 127)%nat →
  ∃ c' n', (∀ k, get_results (S k) (encode_result r ++ rest) c = get_results k rest c') ∧
    ucDataNum c' = Z.of_nat n' ∧ (n' <= n + 1)%nat ∧
    length (stDataUnit c') = MAX_COLL_OAD_SIZE ∧ reported c' = reported c ++ report [r].
Proof.
  destruct r as [o r]. intros (Hol & Hob & Hr) Hn Hc H127. simpl in Hol, Hob, Hr.
  unfold encode_result. cbn [fst snd]. rewrite <- app_assoc.
  assert (∀ l, drop 4 (o ++ l) = l) as Hdrop by (intros l; by rewrite drop_app_length').
  destruct r as [dar|d]; cbn [app].
  - exists c, n. split; [|split_and!; [done|lia|done|]].
    + intros k. cbn [get_results]. rewrite dwGetOad_spec, bind_ret, Hdrop by done. done.
    + unfold report. cbn. by rewrite app_nil_r.
  - destruct Hr as [Hd Hl].
    destruct (reported_store (mkUnit (oad_of o) 1 (Z.of_nat (length d)) (Some (d ++ rest))) c n)
      as (c' & Es & Hn' & Hl' & Hrep); [done|rewrite Hc; unfold MAX_COLL_OAD_SIZE; lia|lia|].
    exists c', (n + 1)%nat. split; [|split_and!; [done|lia|congruence|]].
    + intros k. cbn [get_results]. rewrite dwGetOad_spec, bind_ret, Hdrop by done.
      cbn [lookup list_lookup drop]. rewrite bind_ret. cbn [Z.eqb Pos.eqb]. rewrite drop_0.
      unfold dwDlt698DataLenByOAD. rewrite (data_item_measured (length d) d Hd) by lia.
      rewrite bind_ret, (proj2 (Z.ltb_ge _ _)), u16_id by (unfold is_u16; lia).
      rewrite Es, bind_ret, Nat2Z.id, drop_app_length. done.
    + rewrite Hrep. f_equal. unfold report, unit_value. cbn. by rewrite Nat2Z.id, take_app_length.
Qed.

Lemma get_results_spec rs rest n c :
  Forall wf_result rs → ucDataNum c = Z.of_nat n → length (stDataUnit c) = MAX_COLL_OAD_SIZE →
  (n + length rs <= 127)%nat →
  ∃ c', get_results (length rs) (concat (encode_result <$> rs) ++ rest) c = Some (1, c') ∧
    reported c' = reported c ++ report rs.
Proof.
  intros Hrs. revert n c. induction Hrs as [|r rs Hr Hrs IH]; intros n c Hn Hc H127.
  - exists c. split; [done|]. by rewrite app_nil_r.
  - cbn [length] in H127 |- *. cbn [fmap list_fmap concat]. rewrite <- app_assoc.
    destruct (get_results_step n r (concat (encode_result <$> rs) ++ rest) c)
      as (c1 & n1 & E & Hn1 & Hle & Hc1 & Hrep); [done..|lia|].
    destruct (IH n1 c1) as (c2 & E2 & Hrep2); [done..|lia|].
    exists c2. split; [by rewrite E|]. rewrite Hrep2, Hrep, <- app_assoc. f_equal.
    unfold report. cbn. by rewrite app_nil_r.
Qed.

Lemma analyze_response rs apdu mem n :
  get_response rs apdu → Forall wf_result rs →
  ∃ c, dwAPduAnalyze (Some (apdu ++ mem)) n zero_coll = Some (1, c) ∧ reported c = report rs.
Proof.
  intros Ha Hrs. unfold dwAPduAnalyze. destruct Ha as [piid r tail|piid rs tail Hl].
  - destruct (get_results_spec [r] (tail ++ mem) 0 (set_class D_CLASS_REAL zero_coll))
      as (c & E & Hrep); [done..|simpl; lia|].
    exists c. split; [|done]. cbn [fmap list_fmap concat] in E. rewrite app_nil_r in E.
    rewrite <- E, <- !app_assoc. reflexivity.
  - destruct (get_results_spec rs (tail ++ mem) 0 (set_class D_CLASS_REAL zero_coll))
      as (c & E & Hrep); [done..|simpl; lia|].
    exists c. split; [|done]. rewrite <- E, <- !app_assoc.
    cbn [app lookup list_lookup]. rewrite bind_ret. unfold GET_Response.
    cbn [Z.eqb Pos.eqb]. rewrite bind_ret. cbn [Z.eqb Pos.eqb orb].
    unfold dwGetResponseNormal. cbn [lookup list_lookup]. rewrite !bind_ret.
    cbn [Z.eqb Pos.eqb]. rewrite (proj2 (Z.ltb_ge _ _)), Nat2Z.id by lia. done.
Qed.

(** ** The request *)

Lemma low_byte w : u8 (Z.land w 0x00FF) = w mod 256.
Proof.
  change 0x00FF with (Z.ones 8). rewrite Z.land_ones by lia. change (2 ^ 8) with 256. ulia.
Qed.

Lemma high_byte w : is_u16 w → u8 (Z.shiftr w 8) = w / 256.
Proof. intros Hw. rewrite Z.shiftr_div_pow2 by lia. change (2 ^ 8) with 256. ulia. Qed.

(** The first 29 bytes of the static buffer. *)
Lemma explicit_buffer {A} (B : list A) :
  (29 <= length B)%nat → ∃ x0 x1 x2 x3 x4 x5 x6 x7 x8 x9 x10 x11 x12 x13 x14 x15 x16 x17
    x18 x19 x20 x21 x22 x23 x24 x25 x26 x27 x28 tl,
    B = [x0; x1; x2; x3; x4; x5; x6; x7; x8; x9; x10; x11; x12; x13; x14; x15; x16; x17;
         x18; x19; x20; x21; x22; x23; x24; x25; x26; x27; x28] ++ tl.
Proof.
  intros H. do 29 (destruct B as [|? B]; [simpl in H; lia|]).
  repeat eexists.
Qed.

(** One store into an explicit buffer. *)
Ltac store :=
  rewrite ?bind_ret; rewrite st8_Some by (cbn [length app]; lia); rewrite ?bind_ret;
  cbn [insert list_insert app].

Lemma packet_build_frame fresh Buffer oad sa :
  bytes oad → length oad = 4%nat → bytes sa → length sa = 6%nat →
  (29 <= length Buffer)%nat → (29 <= length fresh)%nat →
  ∃ B, dlt698_packet_build (Some fresh) Buffer (Some oad) (Some sa) =
    Some (B, Some (mkPacket
      (replicate 4 0xFE ++ encode_frame 0x43 0 (reverse sa) 0 (get_request 1 oad) ++
       drop 29 fresh) 29)) ∧ length B = length Buffer.
Proof.
  intros Hoad Ho Hsa Hs HB Hf.
  destruct oad as [|o0 [|o1 [|o2 [|o3 [|]]]]]; try done.
  destruct sa as [|a0 [|a1 [|a2 [|a3 [|a4 [|a5 [|]]]]]]]; try done.
  unfold bytes in Hoad, Hsa.
  repeat match goal with H : Forall _ (_ :: _) |- _ => apply Forall_cons_1 in H as [? H] end.
  destruct (explicit_buffer Buffer HB) as (x0 & x1 & x2 & x3 & x4 & x5 & x6 & x7 & x8 & x9 & x10
    & x11 & x12 & x13 & x14 & x15 & x16 & x17 & x18 & x19 & x20 & x21 & x22 & x23 & x24 & x25
    & x26 & x27 & x28 & tl & ->).
  cbn [app] in *. clear HB.
  unfold dlt698_packet_build. cbv zeta.
  unfold DLT698_LEADER_CHAR, DLT698_HEADER, DLT698_END, DLT698_C_2_S_DATA, DLT698_CLIENT_ADDR,
    DLT698_PIID, DLT698_TIME_LABER, DLT698_HEADER_LOC, DLT698_LENGTH_LOC, DLT698_CON_LOC,
    DLT698_SA_LOC, DLT698_CA_LOC, DLT698_HEAD_CRC_LOC, DLT698_APDU_LOC, DLT698_PIID_LOC,
    DLT698_OAD_LOC, DLT698_TIME_LOC, DLT698_ALL_CRC_LOC, DLT698_END_LOC, GET_Request,
    GetRequestNormal.
  cbn [cfor Nat.add Nat.sub lookup list_lookup].
  do 24 (store; norm8).
  change 11 with (Z.of_nat 11).
  rewrite pppfcs16_spec by (cbn [take drop length]; solve_bytes || lia).
  cbn [take drop]. set (hcs := fcs16 _).
  assert (is_u16 hcs) as Hhcs by (apply fcs16_u16; solve_bytes).
  do 2 store. rewrite low_byte, high_byte by done.
  change (0 + 3 + 1 + 6 + 1 + 2 + 8 + 2 - 2) with (Z.of_nat 21).
  rewrite pppfcs16_spec by (cbn [take drop length]; solve_bytes || lia).
  cbn [take drop]. set (fcs := fcs16 _).
  assert (is_u16 fcs) as Hfcs by (apply fcs16_u16; solve_bytes).
  do 3 store. rewrite low_byte, high_byte by done.
  change (Z.to_nat (0 + 3 + 1 + 6 + 1 + 2 + 8 + 2 + 6)) with 29%nat.
  unfold memcpy. cbn [length]. rewrite (proj2 (Nat.leb_le 29 (length fresh))) by done.
  cbn [andb Nat.leb]. rewrite bind_ret. eexists. split; [do 5 f_equal|done].
Qed.

(** ** Whole frames *)

Lemma with_fcs_fold l : with_fcs l = l ++ le16 (fcs16 l).
Proof. reflexivity. Qed.

Lemma split_last2 {A} (l : list A) :
  (2 <= length l)%nat → ∃ p x y, l = p ++ [x; y].
Proof.
  intros Hl. destruct l as [|y l _] using rev_ind; [simpl in Hl; lia|].
  destruct l as [|x l _] using rev_ind; [simpl in Hl; lia|].
  exists l, x, y. by rewrite <- app_assoc.
Qed.

Section frames.
Context (c lg : Z) (sa : list Z) (ca : Z) (apdu : list Z).
Context (Hwf : wf_link c lg sa ca apdu).

Lemma frame_body_bytes : bytes (frame_body c lg sa ca apdu).
Proof using Hwf.
  apply with_fcs_bytes, bytes_app. split; [|apply Hwf].
  by apply with_fcs_bytes, frame_header_bytes.
Qed.

Lemma length_frame_body :
  length (frame_body c lg sa ca apdu) = (length sa + length apdu + 9)%nat.
Proof using.
  unfold frame_body. rewrite length_with_fcs, length_app, length_with_fcs, length_frame_header. lia.
Qed.

Lemma length_encode_frame :
  length (encode_frame c lg sa ca apdu) = (length sa + length apdu + 11)%nat.
Proof using.
  unfold encode_frame. cbn [length]. rewrite length_app, length_frame_body. simpl. lia.
Qed.

Lemma apdu_frame_address rest :
  take (length sa) (drop 5 (encode_frame c lg sa ca apdu ++ rest)) = sa.
Proof using.
  unfold encode_frame, frame_body, with_fcs, frame_header, le16. cbn [app drop].
  rewrite <- !app_assoc. cbn [app drop]. by rewrite drop_0, take_app_length.
Qed.

(** The library accepts every well-formed frame and finds its APDU. *)
Lemma get_apdu_frame k rest :
  preamble_ok k (9 + Z.of_nat (length sa) + Z.of_nat (length apdu)) c →
  let f := fcs16 (with_fcs (frame_header c lg sa ca apdu) ++ apdu) in
  let m := encode_frame c lg sa ca apdu ++ rest in
  dwGet698Apdu (replicate k 0xFE ++ m) =
  Some (mkApdu (Z.of_nat (length apdu)) (Some (apdu ++ le16 f ++ [0x16] ++ rest))
          (Some (drop 5 m)) (Some (Z.of_nat (length sa)))).
Proof using Hwf.
  intros Hpre f m.
  assert (is_u16 f) as Hf.
  { apply fcs16_u16, bytes_app. split; [|apply Hwf].
    by apply with_fcs_bytes, frame_header_bytes. }
  assert (m = 0x68 :: with_fcs (frame_header c lg sa ca apdu) ++ apdu ++
    [f mod 256; f / 256] ++ ([0x16] ++ rest)) as Em.
  { unfold m, encode_frame, frame_body. rewrite (with_fcs_fold (_ ++ apdu)). fold f.
    cbn [app]. f_equal. unfold le16. by rewrite <- !app_assoc. }
  rewrite Em, get_apdu_body; [|done|unfold is_u8; ulia..|done].
  by rewrite (proj2 (Z.eqb_eq _ _)) by (fold f; ulia).
Qed.

(** A frame with an intact header and a damaged rest (a burst of at most 16
    bits) is refused. *)
Lemma get_apdu_damaged k body rest :
  preamble_ok k (9 + Z.of_nat (length sa) + Z.of_nat (length apdu)) c →
  bytes body → length body = (length apdu + 2)%nat →
  let h := with_fcs (frame_header c lg sa ca apdu) in
  burst16 (frame_body c lg sa ca apdu) (h ++ body) →
  ∃ a n, dwGet698Apdu (replicate k 0xFE ++ 0x68 :: h ++ body ++ rest) =
    Some (mkApdu (-1) None a n).
Proof using Hwf.
  intros Hpre Hb Hl h Hburst.
  destruct (split_last2 body) as (p & lo & hi & ->); [lia|].
  rewrite length_app in Hl. cbn [length] in Hl. assert (length p = length apdu) as Hp by lia.
  apply bytes_app in Hb as [Hbp Hbw]. apply Forall_cons_1 in Hbw as [Hlo Hbw].
  apply Forall_cons_1 in Hbw as [Hhi _].
  assert (frame_header c lg sa ca apdu = frame_header c lg sa ca p) as Eh
    by (unfold frame_header; by rewrite Hp).
  assert (wf_link c lg sa ca p) as Hwfp by (destruct Hwf; split; rewrite ?Hp; done).
  assert (bytes h) as Hh by (by apply with_fcs_bytes, frame_header_bytes).
  do 2 eexists. unfold h. rewrite Eh, <- (app_assoc p), get_apdu_body by (rewrite ?Hp; done).
  destruct (Z.eqb_spec (fcs16 (with_fcs (frame_header c lg sa ca p) ++ p)) (256 * hi + lo))
    as [E|E]; [|done]. exfalso.
  rewrite <- Eh in E. fold h in E.
  assert (bytes (h ++ p)) as Hhp by by apply bytes_app.
  assert (bytes (h ++ apdu)) as Hha by (apply bytes_app; split; [done|apply Hwf]).
  assert (is_u16 0xFFFF) as H0 by (unfold is_u16; lia).
  apply (lfsr_burst 0x8408 ltac:(lia) 0xFFFF) in Hburst;
    [|done|apply frame_body_bytes|apply bytes_app; split; [done|solve_bytes]].
  apply Hburst. unfold frame_body. fold h. unfold with_fcs at 1. rewrite app_assoc.
  rewrite (lfsr_residue_complement _ _ (h ++ p)) by (done || (fold (fcs16 (h ++ p)); lia)).
  pose proof (fcs16_u16 _ Hha) as Hu. unfold le16.
  apply lfsr_residue_complement; [done..|unfold is_u8; ulia|unfold is_u8; ulia|].
  fold (fcs16 (h ++ apdu)). ulia.
Qed.
End frames.
