(* ===== verification/Dlt698Properties.v ===== *)
(** * Dlt698Properties: the guarantees of the DL/T 698.45 library.

    The theorems the meter driver relies on, each with an instance on a concrete
    exchange: the request for the forward active energy of the meter
    [11 22 33 44 55 66] and the response with its array of readings. *)
From S2P Require Import Prelude.
From S2P Require Import Crc.
From S2P Require Import Utils.
From S2P Require Import Dlt698.
From S2P Require Import Dlt698Spec.
From S2P Require Import Dlt698Theory.

(** ** The concrete exchange *)

Definition energy_oad : list Z := [0x00; 0x10; 0x02; 0x00].

Definition meter_addr : list Z := [0x11; 0x22; 0x33; 0x44; 0x55; 0x66].

(** An array of two unsigned double-long readings. *)
Definition readings : list Z := [1; 2; 6; 0; 0; 4; 210; 6; 0; 0; 0; 7].

Lemma readings_item : data_item readings.
Proof.
  apply (item_many 1 [[6; 0; 0; 4; 210]; [6; 0; 0; 0; 7]]); [by left|done|].
  repeat constructor; by apply (item_fixed _ 4).
Defined.

(** The meter answers the energy and refuses a second object. *)
Definition answers : list (list Z * result) :=
  [(energy_oad, Data readings); ([0x20; 0x00; 0x02; 0x00], Failure 6)].

Definition answer_apdu : list Z :=
  [133; 2; 1; 2] ++ concat (encode_result <$> answers) ++ [0; 0].

Lemma answers_ok : Forall wf_result answers.
Proof.
  apply Forall_cons_2; [|apply Forall_cons_2; [|apply Forall_nil_2]];
    (split; [done|]; split; [apply (bool_decide_unpack _); by vm_compute|]); [|done].
  split; [apply readings_item|simpl; lia].
Defined.

Lemma answer_apdu_ok : get_response answers answer_apdu.
Proof. apply (response_list 1 answers [0; 0]). simpl. lia. Defined.

Lemma answer_link : wf_link 0xC3 0 (reverse meter_addr) 0 answer_apdu.
Proof.
  split; try (unfold is_u8; lia); try (vm_compute; lia);
    apply (bool_decide_unpack _); by vm_compute.
Defined.

(** ** Data items *)

(** The length function measures every well-formed data item, of any type
    and nesting, exactly, whatever follows it in memory. *)
Theorem data_item_length d rest lim :
  data_item d → Z.of_nat (length d) <= lim → Z.of_nat (length d) < 65536 →
  dwDlt698DataLen (d ++ rest) lim = Some (Z.of_nat (length d)).
Proof. intros Hd. by apply (data_item_measured (length d)). Qed.

Lemma data_item_length_witness :
  data_item readings ∧ dwDlt698DataLen (readings ++ [0xAA; 0xBB]) 256 = Some 12.
Proof.
  split; [apply readings_item|].
  apply (data_item_length readings [0xAA; 0xBB] 256); [apply readings_item|simpl; lia..].
Defined.


(** the length field is decoded as the standard says up to two bytes, but a
    length of three or four bytes is read as 0, whatever it is. *)
Theorem length_field rest :
  (∀ n, 0 <= n < 65536 →
     dwDlt698Len (encode_len (Z.to_nat n) ++ rest) =
     Some (n, Z.of_nat (length (encode_len (Z.to_nat n))))) ∧
  (∀ b1 b2 b3, bytes [b1; b2; b3] →
     dwDlt698Len ([0x83; b1; b2; b3] ++ rest) = Some (0, 4)) ∧
  (∀ b1 b2 b3 b4, bytes [b1; b2; b3; b4] →
     dwDlt698Len ([0x84; b1; b2; b3; b4] ++ rest) = Some (0, 5)).
Proof.
  split; [intros n; apply dwDlt698Len_encode|].
  assert (∀ x y k, 0 <= k → is_u8 y → 8 <= k → Z.land (Z.shiftl x k) y = 0) as Hlow.
  { intros x y k Hk Hy H8. apply Z.bits_inj'. intros i Hi. rewrite Z.land_spec, Z.bits_0.
    destruct (Z.lt_ge_cases i 8).
    - by rewrite Z.shiftl_spec_low by lia.
    - rewrite (testbit_above y 8); [apply andb_false_r| |lia]. unfold is_u8 in Hy. lia. }
  split.
  - intros b1 b2 b3 Hb. apply Forall_cons_1 in Hb as [_ Hb]. apply Forall_cons_1 in Hb as [_ Hb].
    apply Forall_cons_1 in Hb as [H3 _]. unfold dwDlt698Len. cbn [app lookup list_lookup].
    rewrite bind_ret. cbn -[Z.land Z.lor Z.shiftl]. do 2 f_equal.
    by rewrite Z.land_lor_distr_l, !Hlow by (done || lia).
  - intros b1 b2 b3 b4 Hb. do 3 apply Forall_cons_1 in Hb as [_ Hb].
    apply Forall_cons_1 in Hb as [H4 _]. unfold dwDlt698Len. cbn [app lookup list_lookup].
    rewrite bind_ret. cbn -[Z.land Z.lor Z.shiftl]. do 2 f_equal.
    by rewrite <- Z.land_assoc, Hlow, Z.land_0_r by (done || lia).
Qed.


Lemma length_field_witness :
  dwDlt698Len [0x82; 0x01; 0x2C; 7] = Some (300, 3) ∧
  dwDlt698Len [0x83; 0x00; 0x01; 0x2C; 7] = Some (0, 4).
Proof.
  destruct (length_field [7]) as (H2 & H3 & _). split.
  - by apply (H2 300).
  - apply (H3 0 1 0x2C), (bool_decide_unpack _). by vm_compute.
Defined.

(** ** Requests *)

(** C8: for an OAD and a server address the request builder makes the four
    leading bytes and the link frame of the GET request, 29 bytes in all, and
    the frame passes the library's own frame check with that APDU and address. *)
Theorem request_frame fresh Buffer oad sa :
  bytes oad → length oad = 4%nat → bytes sa → length sa = 6%nat →
  length Buffer = MAX_SIZE_OF_BUFFER → length fresh = MAX_SIZE_OF_PACKET_DATA →
  ∃ B pkt a, dlt698_packet_build (Some fresh) Buffer (Some oad) (Some sa) = Some (B, Some pkt) ∧
    take (Z.to_nat (pk_length pkt)) (pk_data pkt) =
      replicate 4 0xFE ++ encode_frame 0x43 0 (reverse sa) 0 (get_request 1 oad) ∧
    dwGet698Apdu (pk_data pkt) = Some a ∧ apdu_len a = 8 ∧
    take 8 <$> pAPDU a = Some (get_request 1 oad) ∧
    take 6 <$> sa_addr a = Some (reverse sa) ∧ sa_addr_len a = Some 6.
Proof.
  intros Hoad Ho Hsa Hs HB Hf. unfold MAX_SIZE_OF_BUFFER, MAX_SIZE_OF_PACKET_DATA in *.
  destruct (packet_build_frame fresh Buffer oad sa) as (B & E & _); [done..|lia|lia|].
  set (apdu := get_request 1 oad) in *.
  assert (length (reverse sa) = 6%nat) as Hrs by by rewrite length_reverse.
  assert (length apdu = 8%nat) as Hla by (unfold apdu, get_request; rewrite !length_app; simpl; lia).
  assert (wf_link 0x43 0 (reverse sa) 0 apdu) as Hwf.
  { split; rewrite ?Hrs, ?Hla; try (unfold is_u8; lia).
    - by apply Forall_reverse.
    - unfold apdu, get_request. rewrite !bytes_app. split_and!; [|done|]; solve_bytes. }
  pose proof (get_apdu_frame 0x43 0 (reverse sa) 0 apdu Hwf 4 (drop 29 fresh)) as Hget.
  do 3 eexists. split; [exact E|]. cbn [pk_data pk_length]. split; [|split; [apply Hget|]].
  - rewrite app_assoc. apply take_app_length'.
    rewrite length_app, length_encode_frame, Hrs, Hla. done.
  - unfold preamble_ok. rewrite Hrs, Hla. lia.
  - cbn [apdu_len pAPDU sa_addr sa_addr_len]. rewrite !fmap_ret.
    split; [by rewrite Hla|]. split; [by rewrite take_app_length'|].
    split; [|by rewrite Hrs]. by rewrite <- Hrs, apdu_frame_address.
Qed.

Lemma request_frame_witness :
  ∃ B pkt a, dlt698_packet_build (Some (replicate 512 0xCC)) (replicate 1024 0)
      (Some energy_oad) (Some meter_addr) = Some (B, Some pkt) ∧
    take (Z.to_nat (pk_length pkt)) (pk_data pkt) =
      replicate 4 0xFE ++ encode_frame 0x43 0 (reverse meter_addr) 0 (get_request 1 energy_oad) ∧
    dwGet698Apdu (pk_data pkt) = Some a ∧ apdu_len a = 8 ∧
    take 8 <$> pAPDU a = Some (get_request 1 energy_oad) ∧
    take 6 <$> sa_addr a = Some (reverse meter_addr) ∧ sa_addr_len a = Some 6.
Proof.
  apply (request_frame (replicate 512 0xCC) (replicate 1024 0) energy_oad meter_addr);
    try done; apply (bool_decide_unpack _); by vm_compute.
Defined.

(** ** Responses *)

(** The analysis of a frame. *)
Lemma analysis_reported k c lg sa ca rs apdu rest len :
  wf_link c lg sa ca apdu →
  preamble_ok k (9 + Z.of_nat (length sa) + Z.of_nat (length apdu)) c →
  get_response rs apdu → Forall wf_result rs →
  ∃ coll, dlt698_response_analy (replicate k 0xFE ++ encode_frame c lg sa ca apdu ++ rest) len =
      Some coll ∧ reported coll = report rs.
Proof.
  intros Hwf Hpre Hresp Hrs. unfold dlt698_response_analy.
  rewrite (get_apdu_frame c lg sa ca apdu Hwf k rest Hpre), bind_ret.
  cbn [pAPDU apdu_len]. set (mem := le16 _ ++ _).
  destruct (analyze_response rs apdu mem (Z.of_nat (length apdu)) Hresp Hrs) as (coll & E & Hrep).
  exists coll. by rewrite E.
Qed.

(** C9: from a well-formed frame with a GET response, preceded by up to four
    leading bytes, the analysis reports exactly the data results, in order, with
    their object and their bytes; the refused objects are skipped. *)
Theorem response_reported k c lg sa ca rs apdu rest len :
  wf_link c lg sa ca apdu →
  preamble_ok k (9 + Z.of_nat (length sa) + Z.of_nat (length apdu)) c →
  get_response rs apdu → Forall wf_result rs →
  ∃ coll, dlt698_response_analy (replicate k 0xFE ++ encode_frame c lg sa ca apdu ++ rest) len =
      Some coll ∧ reported coll = report rs.
Proof. apply analysis_reported. Qed.

Lemma response_reported_witness :
  ∃ coll, dlt698_response_analy
      (replicate 4 0xFE ++ encode_frame 0xC3 0 (reverse meter_addr) 0 answer_apdu ++ []) 0 =
      Some coll ∧ reported coll = [(mkOAD 0x0010 2 0, readings)].
Proof.
  apply (response_reported 4 0xC3 0 (reverse meter_addr) 0 answers answer_apdu [] 0).
  - apply answer_link.
  - vm_compute. split_and!; try discriminate; lia.
  - apply answer_apdu_ok.
  - apply answers_ok.
Defined.

(** A frame whose header arrived intact and whose APDU or check sequence was
    damaged by an error burst of at most 16 bits yields no data at all. *)
Theorem damaged_response_empty k c lg sa ca apdu body rest len :
  wf_link c lg sa ca apdu →
  preamble_ok k (9 + Z.of_nat (length sa) + Z.of_nat (length apdu)) c →
  bytes body → length body = (length apdu + 2)%nat →
  burst16 (frame_body c lg sa ca apdu) (with_fcs (frame_header c lg sa ca apdu) ++ body) →
  dlt698_response_analy (replicate k 0xFE ++ 0x68 :: with_fcs (frame_header c lg sa ca apdu) ++
    body ++ rest) len = Some zero_coll ∧ reported zero_coll = [].
Proof.
  intros Hwf Hpre Hb Hl Hburst.
  destruct (get_apdu_damaged c lg sa ca apdu Hwf k body rest) as (a & n & E); [done..|].
  split; [|done]. unfold dlt698_response_analy. by rewrite E.
Qed.

Lemma damaged_response_empty_witness :
  let body := [133; 1; 1; 0] ++ le16 (fcs16 (with_fcs (frame_header 0xC3 0 [7] 0 [133; 1; 1; 1])
    ++ [133; 1; 1; 1])) in
  dlt698_response_analy (0x68 :: with_fcs (frame_header 0xC3 0 [7] 0 [133; 1; 1; 1]) ++
    body ++ [0x16]) 0 = Some zero_coll ∧ reported zero_coll = [].
Proof.
  intros body.
  apply (damaged_response_empty 0 0xC3 0 [7] 0 [133; 1; 1; 1] body [0x16] 0).
  - split; try (unfold is_u8; lia); try (vm_compute; lia);
      apply (bool_decide_unpack _); by vm_compute.
  - vm_compute. split_and!; try (intros; discriminate); lia.
  - apply (bool_decide_unpack _). by vm_compute.
  - done.
  - set (h := with_fcs (frame_header 0xC3 0 [7] 0 [133; 1; 1; 1])).
    set (f := le16 (fcs16 (h ++ [133; 1; 1; 1]))).
    exists (frame_bits (h ++ [133; 1; 1])), (byte_bits 1), (byte_bits 0), (frame_bits f).
    split; [by vm_compute|]. split; [by vm_compute|]. split; [done|]. split; [simpl; lia|done].
Defined.

(** ** The reading as text *)

Definition be32 (w : Z) : list Z :=
  [w / 16777216; w / 65536 mod 256; w / 256 mod 256; w mod 256].

(** An array of (signed or unsigned) double-long readings, in memory. *)
Definition long_array (vs : list (Z * Z)) : list Z :=
  1 :: Z.of_nat (length vs) :: concat ((λ v, v.1 :: be32 v.2) <$> vs).

Definition is_long (v : Z * Z) : Prop := (v.1 = 5 ∨ v.1 = 6) ∧ 0 <= v.2 < 4294967296.

(** The texts of the readings, separated by commas. *)
Fixpoint joined_text (value_text : Z → list Z) (vs : list (Z * Z)) : list Z :=
  match vs with
  | [] => []
  | v :: vs => value_text (int32 v.2) ++ (if (length vs =? 0)%nat then [] else [44]) ++
      joined_text value_text vs
  end.

Lemma load32_be32 w rest :
  0 <= w < 4294967296 →
  ∃ x, load32 (be32 w ++ rest) = Some x ∧ reversebytes_uint32 x = w.
Proof.
  intros Hw. unfold be32, load32. cbn [app lookup list_lookup]. rewrite !bind_ret.
  eexists. split; [done|]. rewrite reversebytes_uint32_spec by ulia. ulia.
Qed.

(** The array [R] holds the text [t] and is otherwise still [res]. *)
Definition holds_text (res R t : list Z) : Prop :=
  length R = length res ∧ take (length t) R = t ∧
  drop (length t + 1) R = drop (length t + 1) res.

Lemma holds_text_eq res R t :
  holds_text res R t → R !! length t = Some 0 → R = t ++ [0] ++ drop (length t + 1) res.
Proof.
  intros (_ & Ht & Hd) E. rewrite <- Hd, <- Ht at 1.
  rewrite <- (take_drop_middle _ _ _ E) at 1. by rewrite Ht, Nat.add_1_r.
Qed.

Lemma sprintf_at_spec res R t text :
  holds_text res R t → (length t < length res)%nat →
  match sprintf_at R (length t) text with
  | Some (R', n) => n = length (t ++ text) ∧ (n < length res)%nat ∧
      holds_text res R' (t ++ text) ∧ R' !! n = Some 0
  | None => (length res <= length (t ++ text))%nat
  end.
Proof.
  intros (HR & Ht & Hd) Hl. unfold sprintf_at. rewrite HR.
  destruct (Nat.ltb_spec (length t + length text) (length res)) as [Hlt|];
    rewrite ?length_app; [|lia].
  assert (length t + length (text ++ [0%Z]) <= length R)%nat as Hfit by (rewrite length_app; simpl; lia).
  split; [done|]. split; [lia|].
  assert (splice (length t) (text ++ [0]) R =
    (t ++ text) ++ [0] ++ drop (length t + length text + 1) res) as E.
  { unfold splice. rewrite Ht, <- !app_assoc. do 3 f_equal.
    rewrite length_app. cbn [length].
    replace (length t + (length text + 1))%nat with ((length t + 1) + length text)%nat by lia.
    rewrite <- drop_drop, Hd, drop_drop. f_equal. lia. }
  split; [|rewrite E; apply list_lookup_middle; rewrite length_app; lia].
  unfold holds_text. rewrite length_splice by done. rewrite E. split; [done|].
  split; [by apply take_app_length|].
  rewrite length_app, drop_app_ge by (rewrite length_app; lia). rewrite length_app.
  replace (length t + length text + 1 - (length t + length text))%nat with 1%nat by lia. done.
Qed.

Lemma convert_elements_spec value_text vs rest res R t :
  Forall is_long vs → holds_text res R t → (length t < length res)%nat →
  let T := t ++ joined_text value_text vs in
  match convert_elements value_text (length vs)
          (concat ((λ v, v.1 :: be32 v.2) <$> vs) ++ rest) R (length t) with
  | Some R' => (length T < length res)%nat ∧ holds_text res R' T ∧
      (vs ≠ [] → R' !! length T = Some 0)
  | None => (length res <= length T)%nat
  end.
Proof.
  intros Hvs. revert R t. induction Hvs as [|[ty w] vs [Hty Hw] Hvs IH]; intros R t HR Ht T.
  { unfold T. rewrite app_nil_r. done. }
  unfold T. clear T. cbn [length convert_elements fmap list_fmap concat]. rewrite <- app_assoc.
  cbn [fst snd app lookup list_lookup]. rewrite bind_ret. simpl in Hty, Hw.
  assert ((ty =? 5) || (ty =? 6) = true) as -> by (destruct Hty as [-> | ->]; done).
  set (tail := concat _ ++ rest). cbn [drop]. rewrite drop_0.
  destruct (load32_be32 w tail Hw) as (x & E1 & E2). rewrite E1, bind_ret, E2.
  cbn [joined_text]. set (text := value_text (int32 w) ++ _).
  pose proof (sprintf_at_spec res R t text HR Ht) as Hsp.
  assert (∀ l, value_text (int32 w) ++ (if (length vs =? 0)%nat then [] else [44]) ++ l =
    text ++ l) as Etext by (intros l; unfold text; by rewrite <- app_assoc).
  cbn [snd]. rewrite Etext, app_assoc.
  destruct (sprintf_at R (length t) text) as [[R' n]|]; cbn [mbind option_bind].
  - destruct Hsp as (-> & Hn & HR' & H0).
    change (drop 4 (be32 w ++ tail)) with tail. specialize (IH R' (t ++ text) HR' Hn).
    cbv zeta in IH. fold tail in IH.
    destruct (convert_elements value_text (length vs) tail R' (length (t ++ text)))
      as [R''|] eqn:Ec; [|exact IH].
    destruct IH as (Hl & Hh & Hz). split; [done|]. split; [done|]. intros _.
    destruct vs as [|v vs]; [|by apply Hz]. injection Ec as <-. by rewrite app_nil_r.
  - rewrite length_app. lia.
Qed.

(** The conversion of an array. *)
Lemma convert_array value_text vs rest res :
  vs ≠ [] → Forall is_long vs → (length vs < 256)%nat → (0 < length res)%nat →
  convert_to_string_float value_text (long_array vs ++ rest) res =
  (let T := joined_text value_text vs in
   if (length T <? length res)%nat then Some (T ++ [0] ++ drop (length T + 1) res) else None).
Proof.
  intros Hne Hvs Hl Hres. cbv zeta. set (T := joined_text value_text vs).
  unfold convert_to_string_float, long_array.
  cbn [app lookup list_lookup]. rewrite !bind_ret. cbn [Z.eqb Pos.eqb drop].
  rewrite Nat2Z.id, drop_0.
  pose proof (convert_elements_spec value_text vs rest res res []) as H. cbn [app length] in H.
  specialize (H Hvs ltac:(by split) Hres). fold T in H.
  destruct (convert_elements _ _ _ _ _) as [R|].
  - destruct H as (HT & HR & H0). rewrite (proj2 (Nat.ltb_lt _ _) HT). f_equal.
    by apply holds_text_eq; auto.
  - by rewrite (proj2 (Nat.ltb_ge _ _) H).
Qed.

(** the readings of an array are written as their texts separated by commas
    and a final 0, exactly when that fits into the caller's array; when it does
    not, the function writes past its end.  (Unsigned readings go through
    [int32_t] like the signed ones.) *)
Theorem readings_text value_text vs rest res :
  vs ≠ [] → Forall is_long vs → (length vs < 256)%nat → (0 < length res)%nat →
  convert_to_string_float value_text (long_array vs ++ rest) res =
  (let T := joined_text value_text vs in
   if (length T <? length res)%nat then Some (T ++ [0] ++ drop (length T + 1) res) else None).
Proof. apply convert_array. Qed.

(** Two readings of ten characters fit into the driver's array of 32 bytes, three
    do not. *)
Lemma readings_text_witness :
  let text := λ _, replicate 10 48 in
  convert_to_string_float text (long_array [(6, 1234); (6, 7)] ++ []) (replicate 32 0) ≠ None ∧
  convert_to_string_float text (long_array [(6, 1234); (6, 7); (5, 4294967295)] ++ [])
    (replicate 32 0) = None.
Proof.
  intros text.
  assert (is_long (6, 1234) ∧ is_long (6, 7) ∧ is_long (5, 4294967295)) as (H1 & H2 & H3).
  { split_and!; (split; [simpl; auto|simpl; lia]). }
  split.
  - rewrite (readings_text text [(6, 1234); (6, 7)]);
      [by vm_compute|done|by repeat apply Forall_cons_2|simpl; lia|simpl; lia].
  - rewrite (readings_text text [(6, 1234); (6, 7); (5, 4294967295)]);
      [by vm_compute|done|by repeat apply Forall_cons_2|simpl; lia|simpl; lia].
Defined.
