(* ===== verification/ProtocolManager.v ===== *)
(** * ProtocolManager: the protocol manager of the agent.

    [iot_edge_agent/src/protocol_manager.c] and the types of
    [protocol_manager.h].  A protocol driver is a record of operations
    ([INTER_DESCRIPTION]); the manager walks the driver's list of data
    descriptions in a circle.  The list items and the descriptions live in an
    explicit memory, because the sending thread, the manager and the driver share
    them through pointers.

    [None] is undefined behaviour: a dangling or NULL pointer that is followed,
    or an uninitialised result that is used. *)
From S2P Require Import Prelude.
From S2P Require Import CString.
From S2P Require Import Json.
From S2P Require Import SinglyLinkedList.
From stdpp Require Import gmap strings.
#[local] Open Scope Z_scope.

Module Pm.
(** ** Data ([protocol_manager.h]) *)

Record Calendar := mkCalendar {
  Mons : list Z; Days : list Z; Hous : list Z; Mins : list Z }.

Record TIME_TO_SEND := mkTime {
  acqMode : list Z; packetSendTime : Z; acqInt : Z; startTime : Calendar;
  endTime : Calendar; freezing : bool; isLastOne : bool }.

Record DATA_REQUEST := mkRequest {
  data : option (list Z); length_ : Z; predictedResponseLength : Z }.

Record DATA_RESPONSE := mkResponse { response_data : list Z; response_length : Z }.

Record DATA_PAYLOAD := mkPayload { payload : option (list Z); DBTopic : list Z }.

Record PM_DATA_INFO (M : Type) := mkInfo {
  data_request : option DATA_REQUEST; time_to_send : option TIME_TO_SEND;
  model_info : option M }.
#[global] Arguments mkInfo {M} _ _ _.
#[global] Arguments data_request {M} _.
#[global] Arguments time_to_send {M} _.
#[global] Arguments model_info {M} _.

(** The list items and the descriptions they point to. *)
Record Memory (M : Type) := mkMemory {
  items : heap positive; infos : gmap positive (PM_DATA_INFO M) }.
#[global] Arguments mkMemory {M} _ _.
#[global] Arguments items {M} _.
#[global] Arguments infos {M} _.

(** A driver, over its models [M] and its global variables [G]. *)
Record INTER_DESCRIPTION (M G : Type) := mkInterface {
  Construct : Memory M → G → list JSON → option (Memory M * G * option LIST_INSTANCE);
  Destroy : Memory M → G → option LIST_INSTANCE → option (Memory M * G);
  response_parse : G → M → PM_DATA_INFO M → DATA_RESPONSE →
    option (G * option DATA_PAYLOAD) }.
#[global] Arguments mkInterface {M G} _ _ _.
#[global] Arguments Construct {M G} _ _ _ _.
#[global] Arguments Destroy {M G} _ _ _ _.
#[global] Arguments response_parse {M G} _ _ _ _ _.

Record PM_INSTANCE (M G : Type) := mkPm {
  ModelName : list Z;
  data_desc : option LIST_INSTANCE;
  interface : INTER_DESCRIPTION M G;
  next_data_info : option positive;
  prev_data_info : option positive;
  curr_data_info : option positive }.
#[global] Arguments mkPm {M G} _ _ _ _ _ _.
#[global] Arguments ModelName {M G} _.
#[global] Arguments data_desc {M G} _.
#[global] Arguments interface {M G} _.
#[global] Arguments next_data_info {M G} _.
#[global] Arguments prev_data_info {M G} _.
#[global] Arguments curr_data_info {M G} _.

Section protocol_manager.
Context {M G : Type}.
Implicit Types (m : Memory M) (g : G) (handle : PM_INSTANCE M G).

(** ** Operations *)

Definition MAX_SIZE_OF_MNAME : nat := 32.

Definition set_time (t : TIME_TO_SEND) (i : PM_DATA_INFO M) : PM_DATA_INFO M :=
  mkInfo (data_request i) (Some t) (model_info i).

Definition set_last (b : bool) (t : TIME_TO_SEND) : TIME_TO_SEND :=
  mkTime (acqMode t) (packetSendTime t) (acqInt t) (startTime t) (endTime t) (freezing t) b.

(** Stores the time record of a description. *)
Definition store_time (a : positive) (t : TIME_TO_SEND) m : option (Memory M) :=
  i ← infos m !! a; Some (mkMemory (items m) (<[a := set_time t i]> (infos m))).

(** [malloc_ok]: the instance is allocated; [name_mem]: the uninitialised bytes
    of its [ModelName]. *)
Definition protocol_init (modbus dlt698 : INTER_DESCRIPTION M G) (malloc_ok : bool)
    (name_mem : list Z) m g (json_object : option (list (list Z * JSON)))
    : option (Memory M * G * option (PM_INSTANCE M G)) :=
  let proto_type := json_object_dotget_string json_object (str "protoType") in
  let model_name := json_object_dotget_string json_object (str "name") in
  match proto_type, model_name with
  | Some proto_type, Some model_name =>
      if negb malloc_ok then Some (m, g, None)
      else
      let interface :=
        if strequal proto_type (str "MODBUS") then Some modbus
        else if strequal proto_type (str "DLT698.45") then Some dlt698
        else None in
      match interface, json_object_dotget_array json_object (str "body") with
      | Some interface, Some body_array =>
          '(rc, name) ← strncpy_s name_mem MAX_SIZE_OF_MNAME (Some model_name);
          '(m, g, desc) ← Construct interface m g body_array;
          match desc, rc with
          | Some l, Zero =>
              Some (m, g, Some (mkPm name (Some l) interface
                (singlylinkedlist_get_head_item (Some l)) None None))
          | _, _ => Some (m, g, None)
          end
      | _, _ => Some (m, g, None)
      end
  | _, _ => Some (m, g, None)
  end.

Definition get_model_name (handle : option (PM_INSTANCE M G)) : option (list Z) :=
  ModelName <$> handle.

(** The description an item points to; [Some None] for the NULL item. *)
Definition item_info m (i : option positive) : option (option positive) :=
  singlylinkedlist_item_get_value (items m) i.

(** Returns the address of the description whose time record is the result. *)
Definition get_next_send_time m handle
    : option (Memory M * PM_INSTANCE M G * option (positive * TIME_TO_SEND)) :=
  a ← item_info m (next_data_info handle);
  match a with
  | None => Some (m, handle, None)
  | Some a =>
      i ← infos m !! a;
      match time_to_send i with
      | None => Some (m, handle, None)
      | Some t =>
          nx ← singlylinkedlist_get_next_item (items m) (next_data_info handle);
          '(next, last) ←
            match nx with
            | None => desc ← data_desc handle; Some (singlylinkedlist_get_head_item (Some desc), true)
            | Some n => Some (Some n, false)
            end;
          m ← store_time a (set_last last t) m;
          Some (m, mkPm (ModelName handle) (data_desc handle) (interface handle)
                     next (next_data_info handle) (curr_data_info handle),
                Some (a, set_last last t))
      end
  end.

Definition get_request_data m handle : option (PM_INSTANCE M G * option DATA_REQUEST) :=
  a ← item_info m (prev_data_info handle);
  match a with
  | None => Some (handle, None)
  | Some a =>
      i ← infos m !! a;
      match data_request i with
      | None => Some (handle, None)
      | Some r =>
          Some (mkPm (ModelName handle) (data_desc handle) (interface handle)
                  (next_data_info handle) (prev_data_info handle) (prev_data_info handle),
                Some r)
      end
  end.

(** The NULL test of [data_info] comes after its use, and [result] is returned
    uninitialised when there is no description or no model. *)
Definition data_response_parse m g handle (response : DATA_RESPONSE)
    : option (G * option DATA_PAYLOAD) :=
  _ ← data_desc handle;
  a ← item_info m (curr_data_info handle);
  a ← a;
  i ← infos m !! a;
  model ← model_info i;
  response_parse (interface handle) g model i response.

Definition protocol_destroy m g (handle : option (PM_INSTANCE M G)) : option (Memory M * G) :=
  match handle with
  | None => Some (m, g)
  | Some handle => Destroy (interface handle) m g (data_desc handle)
  end.
End protocol_manager.
End Pm.
