(* ===== verification/Driver.v ===== *)
(** * Driver: the effects of a protocol driver.

    The drivers ([modbus.c], [dlt_698.c]) allocate memory, read the clock, keep
    global variables and create the descriptions that the manager shares with the
    sending thread.  [Driver A] is a computation with these effects; what the
    outside decides is an oracle in the state: the results of the coming calls of
    [malloc], each with the content of the new block, and of [time]. *)
From S2P Require Import Prelude.
From S2P Require Import Effects.
From S2P Require Import CString.
From S2P Require Import SinglyLinkedList.
From S2P Require Import ProtocolManager.
From stdpp Require Import gmap strings.
#[local] Open Scope Z_scope.

(** [None]: the allocation fails; the content gives each byte its value. *)
Record Env := mkEnv { allocs : list (option (nat → Z)); times : list Z }.

Record World (M G : Type) := mkWorld { w_mem : Pm.Memory M; w_glob : G; w_env : Env }.
#[global] Arguments mkWorld {M G} _ _ _.
#[global] Arguments w_mem {M G} _.
#[global] Arguments w_glob {M G} _.
#[global] Arguments w_env {M G} _.

#[warnings="-notation-for-abbreviation"] Notation Driver M G := (ST (World M G)).

Section effects.
Context {M G : Type}.
Implicit Types (w : World M G).

Definition get : Driver M G G := λ w, Some (w_glob w, w).
Definition put (g : G) : Driver M G unit := λ w, Some (tt, mkWorld (w_mem w) g (w_env w)).
Definition put_env (e : Env) w : World M G := mkWorld (w_mem w) (w_glob w) e.

(** [malloc(n)]; an exhausted oracle answers with zeroed blocks. *)
Definition malloc (n : nat) : Driver M G (option (list Z)) := λ w,
  match allocs (w_env w) with
  | [] => Some (Some (replicate n 0), w)
  | c :: cs =>
      Some ((λ f : nat → Z, f <$> seq 0 n) <$> c, put_env (mkEnv cs (times (w_env w))) w)
  end.

(** An allocation whose content does not matter. *)
Definition malloc_ok : Driver M G bool := b ← malloc 0; mret (bool_decide (is_Some b)).

(** [time(NULL)] *)
Definition time : Driver M G Z := λ w,
  match times (w_env w) with
  | [] => Some (0, w)
  | t :: ts => Some (t, put_env (mkEnv (allocs (w_env w)) ts) w)
  end.

(** A new description at a fresh address. *)
Definition new_info (i : Pm.PM_DATA_INFO M) : Driver M G positive := λ w,
  let a := fresh (dom (Pm.infos (w_mem w))) in
  Some (a, mkWorld (Pm.mkMemory (Pm.items (w_mem w)) (<[a := i]> (Pm.infos (w_mem w))))
             (w_glob w) (w_env w)).

(** [singlylinkedlist_add(list, a)], with the item at a fresh address. *)
Definition link_item (lst : LIST_INSTANCE) (a : positive) (ok : bool)
    : Driver M G LIST_INSTANCE := λ w,
  let h := Pm.items (w_mem w) in
  '(h, lst, _) ← singlylinkedlist_add (if ok then Some (fresh (dom h)) else None) h
                   (Some lst) (Some a);
  lst ← lst;
  Some (lst, mkWorld (Pm.mkMemory h (Pm.infos (w_mem w))) (w_glob w) (w_env w)).

Definition add_item (lst : LIST_INSTANCE) (a : positive) : Driver M G LIST_INSTANCE :=
  ok ← malloc_ok; link_item lst a ok.

(** The loop of the clean-up functions: the description of the head item is
    released, then the item is removed.  [release] follows the pointers of a
    description; its result is what is left of it. *)
Definition free_head (release : Pm.PM_DATA_INFO M → option (option (Pm.PM_DATA_INFO M)))
    (lst : LIST_INSTANCE) (p : positive) : Driver M G LIST_INSTANCE := λ w,
  a ← singlylinkedlist_item_get_value (Pm.items (w_mem w)) (Some p);
  a ← a;
  i ← Pm.infos (w_mem w) !! a;
  left ← release i;
  '(h, lst, _) ← singlylinkedlist_remove (Pm.items (w_mem w)) (Some lst) (Some p);
  lst ← lst;
  Some (lst, mkWorld (Pm.mkMemory h (partial_alter (λ _, left) a (Pm.infos (w_mem w))))
               (w_glob w) (w_env w)).

Fixpoint free_items (release : Pm.PM_DATA_INFO M → option (option (Pm.PM_DATA_INFO M)))
    (n : nat) (lst : LIST_INSTANCE) : Driver M G LIST_INSTANCE :=
  match singlylinkedlist_get_head_item (Some lst) with
  | None => mret lst
  | Some p =>
      match n with
      | O => lift None
      | S n => lst ← free_head release lst p; free_items release n lst
      end
  end.

(** Runs a computation as an operation of a driver. *)
Definition run_driver {A} (d : Driver M G A) (m : Pm.Memory M) (g : G * Env)
    : option (Pm.Memory M * (G * Env) * A) :=
  '(x, w) ← d (mkWorld m g.1 g.2); Some (w_mem w, (w_glob w, w_env w), x).
End effects.

(** ** Reasoning about a driver *)

Section wp.
Context {M G : Type}.
Implicit Types (w : World M G).

(** No allocation fails. *)
Definition plenty (e : Env) : Prop := Forall is_Some (allocs e).

Lemma wp_global (Q : G → World M G → Prop) w : Q (w_glob w) w → wp get Q w.
Proof. intros H. by exists (w_glob w), w. Qed.

Lemma wp_put g (Q : unit → World M G → Prop) w :
  Q tt (mkWorld (w_mem w) g (w_env w)) → wp (put g) Q w.
Proof. intros H. by eexists tt, _. Qed.

Lemma wp_block n (Q : option (list Z) → World M G → Prop) w :
  plenty (w_env w) →
  (∀ blk e, length blk = n → plenty e → times e = times (w_env w) → Q (Some blk) (put_env e w)) →
  wp (malloc n) Q w.
Proof.
  unfold plenty. intros Hp HQ. unfold wp, malloc. destruct w as [m g [al ts]]. cbn in *.
  destruct al as [|[c|] cs].
  - exists (Some (replicate n 0)), (mkWorld m g (mkEnv [] ts)). split; [done|].
    apply (HQ _ (mkEnv [] ts)); [apply length_replicate|done|done].
  - do 2 eexists. split; [done|]. inversion Hp; subst.
    apply (HQ _ (mkEnv cs ts)); [by rewrite length_fmap, length_seq|done|done].
  - apply Forall_cons in Hp as [[? [=]] _].
Qed.

Lemma wp_malloc_ok (Q : bool → World M G → Prop) w :
  plenty (w_env w) →
  (∀ e, plenty e → times e = times (w_env w) → Q true (put_env e w)) →
  wp malloc_ok Q w.
Proof.
  intros Hp HQ. apply wp_bind, wp_block; [done|]. intros blk e _ He Ht. apply wp_ret. by apply HQ.
Qed.

Lemma wp_time (Q : Z → World M G → Prop) w :
  Q (hd 0 (times (w_env w))) (put_env (mkEnv (allocs (w_env w)) (tl (times (w_env w)))) w) → wp time Q w.
Proof. unfold wp, time. destruct w as [m g [al [|t ts]]]; eauto. Qed.
End wp.

(** ** What a driver has made *)

Section made.
Context {M G D : Type} (built : Pm.PM_DATA_INFO M → D → Prop).
Implicit Types (m : Pm.Memory M) (w : World M G).

(** Item and description of a device. *)
Definition built_at m (pa : positive * positive) (d : D) : Prop :=
  ∃ info, Pm.infos m !! pa.2 = Some info ∧ built info d.

(** A list with a description for each of the devices [ds]. *)
Record made m (desc : LIST_INSTANCE) (l : list (positive * positive)) (ds : list D) : Prop := {
  made_list : is_list (Pm.items m) desc l;
  made_built : Forall2 (built_at m) l ds;
  made_distinct : NoDup l.*2 }.

Lemma made_nil m : made m (mkList None None) [] [].
Proof. split; [apply create_is_list|constructor|constructor]. Qed.

Lemma made_elem m desc l ds a :
  made m desc l ds → a ∈ l.*2 → ∃ d info, d ∈ ds ∧ Pm.infos m !! a = Some info ∧ built info d.
Proof.
  intros [_ Hb _] ([p a'] & -> & [k Ek]%list_elem_of_lookup)%list_elem_of_fmap.
  destruct (Forall2_lookup_l _ _ _ _ _ Hb Ek) as (d & Ed & info & Ei & H).
  exists d, info. split; [by eapply list_elem_of_lookup_2|done].
Qed.

(** [m'] is [m] without the items and descriptions of [l]. *)
Record without m (l : list (positive * positive)) m' : Prop := {
  without_items : ∀ b, Pm.items m' !! b = if decide (b ∈ l.*1) then None else Pm.items m !! b;
  without_infos : ∀ b, Pm.infos m' !! b = if decide (b ∈ l.*2) then None else Pm.infos m !! b }.

Lemma without_unique m l m1 m2 : without m l m1 → without m l m2 → m1 = m2.
Proof.
  intros [H1 H2] [H3 H4]. destruct m1 as [it1 in1], m2 as [it2 in2]. cbn [Pm.items Pm.infos] in *.
  f_equal; apply map_eq; intros b; [by rewrite H1, H3|by rewrite H2, H4].
Qed.

Lemma without_nil m : without m [] m.
Proof. split; intros b; rewrite decide_False; [done|apply not_elem_of_nil|done|apply not_elem_of_nil]. Qed.

(** A new description is added to the list. *)
Lemma add_item_made m0 m lst l ds a info d w :
  made m lst l ds → without m l m0 → Pm.items (w_mem w) = Pm.items m →
  Pm.infos m !! a = None → Pm.infos (w_mem w) !! a = Some info →
  (∀ b, b ≠ a → Pm.infos (w_mem w) !! b = Pm.infos m !! b) → built info d →
  plenty (w_env w) →
  wp (add_item lst a)
    (λ lst' w', ∃ l', made (w_mem w') lst' l' (ds ++ [d]) ∧ without (w_mem w') l' m0 ∧
       w_glob w' = w_glob w ∧ plenty (w_env w')) w.
Proof.
  intros Hm [Hit Hin] Eit Hfresh Ea Hother Hb Hp. destruct (Hm) as [Hl Hbs Hnd]. rewrite <- Eit in Hl.
  assert (∀ b, b ∈ l.*2 → b ≠ a) as Hla.
  { intros b Hb' ->. destruct (made_elem m lst l ds a) as (? & i & _ & Ei & _); [done..|]. congruence. }
  unfold add_item. apply wp_bind, wp_malloc_ok; [done|]. intros e He _.
  set (p := fresh (dom (Pm.items (w_mem w)))).
  assert (Pm.items (w_mem w) !! p = None) as Hfp by apply not_elem_of_dom, is_fresh.
  destruct (add_is_list _ _ _ p a Hl Hfp) as (h' & lst' & E & Hl' & Hfr).
  unfold wp, link_item. cbn [w_mem put_env]. fold p. rewrite E, bind_ret. cbn [mbind option_bind].
  do 2 eexists. split; [done|]. exists (l ++ [(p, a)]).
  split; [split|split; [split|by split]]; cbn [w_mem Pm.items Pm.infos].
  - done.
  - apply Forall2_app; [|constructor; [by exists info|done]].
    apply Forall2_same_length_lookup_2; [by eapply Forall2_length|].
    intros k pa d' Ek Ed. destruct (Forall2_lookup_lr _ _ _ _ _ _ Hbs Ek Ed) as (i & Ei & H). exists i.
    split; [|done]. rewrite Hother; [done|]. apply Hla. apply list_elem_of_fmap_2.
    by eapply list_elem_of_lookup_2.
  - rewrite fmap_app. apply NoDup_app. split; [done|]. split; [|apply NoDup_singleton].
    intros b Hb' ->%list_elem_of_singleton. by apply (Hla a).
  - intros b. rewrite fmap_app. destruct (decide (b ∈ l.*1 ++ [(p, a)].*1)) as [Hin'|Hn].
    + apply elem_of_app in Hin' as [Hin'|Hin'].
      * by rewrite Hit, decide_True.
      * apply list_elem_of_singleton in Hin' as ->. rewrite Hit, <- Eit. cbn [fst]. rewrite Hfp. by destruct (decide _).
    + rewrite Hfr by by rewrite fmap_app. rewrite Hit, decide_False, Eit; [done|].
      intros Hx. apply Hn, elem_of_app. by left.
  - intros b. rewrite fmap_app. destruct (decide (b ∈ l.*2 ++ [(p, a)].*2)) as [Hin'|Hn].
    + apply elem_of_app in Hin' as [Hin'|Hin'].
      * by rewrite Hin, decide_True.
      * apply list_elem_of_singleton in Hin' as ->. rewrite Hin. cbn [snd]. rewrite Hfresh. by destruct (decide _).
    + rewrite not_elem_of_app in Hn. destruct Hn as [Hn1 Hn2]. rewrite Hother.
      * by rewrite Hin, decide_False.
      * intros ->. apply Hn2. by left.
Qed.

(** *** Releasing what was made *)

Lemma free_items_spec release n lst l w :
  (∀ a, a ∈ l.*2 → ∃ i, Pm.infos (w_mem w) !! a = Some i ∧ release i = Some None) →
  is_list (Pm.items (w_mem w)) lst l → NoDup l.*2 → (length l <= n)%nat →
  ∃ lst' m', free_items release n lst w = Some (lst', mkWorld m' (w_glob w) (w_env w)) ∧
    is_list (Pm.items m') lst' [] ∧ without (w_mem w) l m'.
Proof.
  revert n lst w. induction l as [|[p a] l IH]; intros n lst w Hrel Hl Hnd Hn.
  - exists lst, (w_mem w). assert (SinglyLinkedList.head lst = None) as E by apply Hl.
    split; [|by split; [|apply without_nil]].
    destruct n; cbn [free_items]; unfold singlylinkedlist_get_head_item; cbn [mbind option_bind];
      rewrite E; by destruct w.
  - destruct n as [|n]; [cbn in Hn; lia|]. destruct (Hl) as [(Eh & nx & Ep & _) _ Hnd1].
    apply NoDup_cons in Hnd as [Ha Hnd]. apply NoDup_cons in Hnd1 as [Hp Hnd1]. cbn [fst snd] in *.
    destruct (Hrel a) as (i & Ei & Er); [by left|].
    destruct (remove_head_spec _ _ _ _ _ Hl) as (h' & lst1 & E & Hl1 & Hfree & Hfr).
    set (m1 := Pm.mkMemory h' (partial_alter (λ _, None) a (Pm.infos (w_mem w)))).
    assert (∀ b, b ∈ l.*2 → Pm.infos m1 !! b = Pm.infos (w_mem w) !! b) as Hkeep.
    { intros b Hb. apply lookup_partial_alter_ne. by intros ->. }
    destruct (IH n lst1 (mkWorld m1 (w_glob w) (w_env w))) as (lst' & m' & E' & Hl' & [Hit Hin]);
      [|done|done|cbn in Hn; lia|].
    { intros b Hb. cbn [w_mem]. rewrite Hkeep by done. apply Hrel. by right. }
    exists lst', m'. split; [|split; [done|split]].
    + cbn [free_items]. unfold singlylinkedlist_get_head_item. cbn [mbind option_bind]. rewrite Eh.
      unfold mbind, st_bind, free_head, singlylinkedlist_item_get_value.
      rewrite Ep, !bind_ret. cbn [item]. rewrite Ei, bind_ret, Er, bind_ret, E, !bind_ret. exact E'.
    + intros b. rewrite Hit. cbn [w_mem m1 Pm.items fmap list_fmap fst]. destruct (decide (b = p)) as [->|Hb].
      * rewrite decide_False, decide_True by (done || by left). done.
      * destruct (decide (b ∈ l.*1)).
        { by rewrite decide_True by by right. }
        rewrite decide_False by by apply not_elem_of_cons. apply Hfr. by apply not_elem_of_cons.
    + intros b. rewrite Hin. cbn [w_mem m1 Pm.infos fmap list_fmap snd]. destruct (decide (b = a)) as [->|Hb].
      * rewrite decide_False, decide_True by (done || by left). apply lookup_partial_alter_eq.
      * destruct (decide (b ∈ l.*2)).
        { by rewrite decide_True by by right. }
        rewrite decide_False by by apply not_elem_of_cons. by apply lookup_partial_alter_ne.
Qed.

(** [free_items] after a driver has built its descriptions. *)
Lemma free_made release m desc l ds w :
  made m desc l ds → w_mem w = m → (∀ i d, built i d → release i = Some None) →
  ∃ lst' m', free_items release (fuel (Pm.items m)) desc w = Some (lst', mkWorld m' (w_glob w) (w_env w)) ∧
    is_list (Pm.items m') lst' [] ∧ without m l m'.
Proof.
  intros Hm Ew Hrel. destruct (Hm) as [Hl _ Hnd]. rewrite <- Ew.
  apply free_items_spec; [|by rewrite Ew|done|].
  - intros a Ha. rewrite Ew. destruct (made_elem _ _ _ _ _ Hm Ha) as (d & i & _ & Ei & Hb). eauto.
  - rewrite Ew. destruct Hl as [Hs _ Hn]. pose proof (lseg_fuel _ _ _ _ Hs Hn). lia.
Qed.
End made.
