(* ===== verification/Registry.v ===== *)
(** * Registry: structures in a linked list.

    The agent keeps its channels and their threads as structures that a list of
    [singlylinkedlist.c] refers to.  Structures and list items live in stores with
    explicit addresses; every block is one of the allocator's ([Alloc]). *)
From S2P Require Import Prelude.
From S2P Require Import Effects.
From S2P Require Import Alloc.
From S2P Require Import SinglyLinkedList.
From stdpp Require Import gmap.
#[local] Open Scope Z_scope.

(** The items of the lists, the structures they point to. *)
Record Store (V : Type) := mkStore { cells : heap positive; structs : gmap positive V }.
#[global] Arguments mkStore {V} _ _.
#[global] Arguments cells {V} _.
#[global] Arguments structs {V} _.

Section registry.
Context {V : Type}.
#[warnings="-notation-for-abbreviation"] Notation Reg := (ST (Store V * Heap)).
Implicit Types (st : Store V) (h : Heap) (a p : positive) (lst : LIST_INSTANCE).

Definition on_heap {X} (d : Alloc X) : Reg X := λ '(st, h), '(x, h) ← d h; Some (x, (st, h)).

(** ** Structures *)

(** The structure in a block that was just allocated. *)
Definition place (v : V) : Reg positive := λ '(st, h),
  let a := fresh (dom (structs st)) in
  Some (a, (mkStore (cells st) (<[a := v]> (structs st)), h)).

Definition load a : Reg V := λ '(st, h), v ← structs st !! a; Some (v, (st, h)).
Definition store a (v : V) : Reg unit := λ '(st, h),
  _ ← structs st !! a; Some (tt, (mkStore (cells st) (<[a := v]> (structs st)), h)).

(** [free(a)]; a structure is freed once. *)
Definition dispose a : Reg unit := λ '(st, h),
  _ ← structs st !! a;
  '(_, h) ← free_struct h; Some (tt, (mkStore (cells st) (delete a (structs st)), h)).

(** ** Lists of them *)

Definition list_create : Reg (option LIST_INSTANCE) :=
  ok ← on_heap malloc_struct; mret (singlylinkedlist_create ok).

(** The list, and whether the result is not NULL. *)
Definition list_link lst a (ok : bool) : Reg (LIST_INSTANCE * bool) := λ '(st, h),
  '(c, l, r) ← singlylinkedlist_add (if ok then Some (fresh (dom (cells st))) else None) (cells st)
                 (Some lst) (Some a);
  l ← l;
  Some ((l, bool_decide (is_Some r)), (mkStore c (structs st), h)).

Definition list_add lst a : Reg (LIST_INSTANCE * bool) := ok ← on_heap malloc_struct; list_link lst a ok.

(** The item at [p] is taken out and freed; whether it was there. *)
Definition list_unlink lst p : Reg (LIST_INSTANCE * bool) := λ '(st, h),
  '(c, l, removed) ← singlylinkedlist_remove (cells st) (Some lst) (Some p);
  l ← l;
  '(_, h) ← (if removed : bool then free_struct else mret tt) h;
  Some ((l, removed), (mkStore c (structs st), h)).

(** The result of the removal is not looked at. *)
Definition list_remove lst p : Reg LIST_INSTANCE := '(l, _) ← list_unlink lst p; mret l.

Definition list_value p : Reg (option positive) := λ '(st, h),
  x ← singlylinkedlist_item_get_value (cells st) (Some p); Some (x, (st, h)).

(** The remaining items and the list itself. *)
Definition list_destroy lst : Reg unit := λ '(st, h),
  c ← singlylinkedlist_destroy (cells st) (Some lst);
  Some (tt, (mkStore c (structs st),
             mkHeap (Alloc.allocs h) (live h - Z.of_nat (base.size (cells st)) + Z.of_nat (base.size c) - 1))).

(** More items than there are cannot be taken out. *)
Definition list_fuel : Reg nat := λ '(st, h), Some (fuel (cells st), (st, h)).

(** ** What the stores hold *)

(** The items are those of the list [lst], which refers to the structures [vs] in this
    order; [l] has the addresses of the items and of the structures. *)
Record listed st lst (l : list (positive * positive)) (vs : list V) : Prop := {
  listed_list : is_list (cells st) lst l;
  listed_cells : dom (cells st) = list_to_set l.*1;
  listed_distinct : NoDup l.*2;
  listed_structs : Forall2 (λ e v, structs st !! e.2 = Some v) l vs }.

Lemma listed_nil st : cells st = ∅ → listed st (mkList None None) [] [].
Proof. intros E. split; [apply create_is_list|by rewrite E|constructor|constructor]. Qed.

Lemma listed_size st lst l vs : listed st lst l vs → base.size (cells st) = length l.
Proof.
  intros [[_ _ Hn] Hd _ _]. rewrite <- (size_dom (D:=gset positive)), Hd, size_list_to_set by done. by rewrite length_fmap.
Qed.

(** Only the structures in [l] matter. *)
Lemma listed_same st st' lst l vs :
  cells st' = cells st → (∀ a, a ∈ l.*2 → structs st' !! a = structs st !! a) → listed st lst l vs → listed st' lst l vs.
Proof.
  intros Ec Es [Hl Hd Hn Hs]. split; [by rewrite Ec|by rewrite Ec|done|].
  apply Forall2_same_length_lookup_2; [by eapply Forall2_length|]. intros k e v Ek Ev.
  pose proof (Forall2_lookup_lr _ _ _ _ _ _ Hs Ek Ev) as E. cbv beta in E. rewrite Es; [done|].
  apply list_elem_of_fmap_2. by eapply list_elem_of_lookup_2.
Qed.

Lemma wp_on_heap {X} (d : Alloc X) (Q : X → Store V * Heap → Prop) st h :
  wp d (λ x h', Q x (st, h')) h → wp (on_heap d) Q (st, h).
Proof. intros (x & h' & E & HQ). exists x, (st, h'). unfold on_heap. by rewrite E. Qed.

Lemma wp_place v (Q : positive → Store V * Heap → Prop) st h :
  (∀ a, structs st !! a = None → Q a (mkStore (cells st) (<[a := v]> (structs st)), h)) → wp (place v) Q (st, h).
Proof. intros HQ. eexists _, _. split; [done|]. apply HQ, not_elem_of_dom, is_fresh. Qed.

Lemma wp_load a v (Q : V → Store V * Heap → Prop) st h :
  structs st !! a = Some v → Q v (st, h) → wp (load a) Q (st, h).
Proof. intros E HQ. eexists _, _. split; [|exact HQ]. unfold load. by rewrite E. Qed.

Lemma wp_store a v v' (Q : unit → Store V * Heap → Prop) st h :
  structs st !! a = Some v' → Q tt (mkStore (cells st) (<[a := v]> (structs st)), h) → wp (store a v) Q (st, h).
Proof. intros E HQ. eexists _, _. split; [|exact HQ]. unfold store. by rewrite E. Qed.

Lemma wp_dispose a v (Q : unit → Store V * Heap → Prop) st h :
  structs st !! a = Some v →
  (∀ h', used (-1) h h' → Q tt (mkStore (cells st) (delete a (structs st)), h')) → wp (dispose a) Q (st, h).
Proof.
  intros E HQ. destruct (wp_free_struct (λ _ h', used (-1) h h') h) as ([] & h' & Ef & Hu); [done|].
  eexists tt, _. split; [|by apply HQ]. unfold dispose. by rewrite E, bind_ret, Ef.
Qed.

Lemma wp_list_create (Q : option LIST_INSTANCE → Store V * Heap → Prop) st h :
  (∀ h', used 1 h h' → Q (Some (mkList None None)) (st, h')) →
  (∀ h', used 0 h h' → ¬ plenty h → Q None (st, h')) → wp list_create Q (st, h).
Proof.
  intros HS HN. apply wp_bind, wp_on_heap, wp_malloc_struct; intros h' Hu.
  - by apply wp_ret, HS.
  - intros Hp. by apply wp_ret, HN.
Qed.

Lemma wp_list_add st lst l vs a v (Q : LIST_INSTANCE * bool → Store V * Heap → Prop) h :
  listed st lst l vs → structs st !! a = Some v → a ∉ l.*2 →
  (∀ lst' c p h', listed (mkStore c (structs st)) lst' (l ++ [(p, a)]) (vs ++ [v]) → used 1 h h' →
     Q (lst', true) (mkStore c (structs st), h')) →
  (∀ h', used 0 h h' → ¬ plenty h → Q (lst, false) (st, h')) → wp (list_add lst a) Q (st, h).
Proof.
  intros [Hl Hd Hn Hs] Ea Ha HS HN. apply wp_bind, wp_on_heap, wp_malloc_struct; intros h' Hu.
  - set (p := fresh (dom (cells st))). assert (cells st !! p = None) as Hp by apply not_elem_of_dom, is_fresh.
    destruct (add_is_list _ _ _ p a Hl Hp) as (c & lst' & E & Hl' & Hfr).
    eexists _, _. split; [unfold list_link; fold p; rewrite E, bind_ret; reflexivity|].
    apply (HS _ _ p); [|done]. split; cbn [cells structs]; [done| | |].
    + apply set_eq. intros x. rewrite fmap_app, list_to_set_app_L. destruct (decide (x ∈ (l ++ [(p, a)]).*1)) as [Hx|Hx].
      * split; [|intros _; apply elem_of_dom; destruct Hl' as [Hseg _ _]; by eapply lseg_lookup].
        intros _. rewrite fmap_app, elem_of_app in Hx. set_solver.
      * rewrite elem_of_dom, Hfr, <- elem_of_dom, Hd by done. rewrite fmap_app, not_elem_of_app in Hx. set_solver.
    + rewrite fmap_app. apply NoDup_app. split; [done|]. split; [|apply NoDup_singleton].
      by intros x Hx ->%list_elem_of_singleton.
    + apply Forall2_app; [done|]. by repeat constructor.
  - intros Hp. eexists _, _. split; [unfold list_link; cbn; reflexivity|]. destruct st. by apply HN.
Qed.

(** The structure may have been disposed of before: [S] are those that are left. *)
Lemma wp_list_unlink st S lst p a l v vs (Q : LIST_INSTANCE * bool → Store V * Heap → Prop) h :
  listed st lst ((p, a) :: l) (v :: vs) →
  (∀ b, b ∈ l.*2 → S !! b = structs st !! b) →
  (∀ lst' c h', listed (mkStore c S) lst' l vs → used (-1) h h' → Q (lst', true) (mkStore c S, h')) →
  wp (list_unlink lst p) Q (mkStore (cells st) S, h).
Proof.
  intros [Hl Hd Hn Hs] HS HQ. destruct (remove_head_spec _ _ _ _ _ Hl) as (c & lst' & E & Hl' & Hfree & Hfr).
  destruct (wp_free_struct (λ _ h', used (-1) h h') h) as ([] & h' & Ef & Hu); [done|].
  eexists _, _. split; [unfold list_unlink; cbn [cells]; rewrite E, !bind_ret, Ef; reflexivity|].
  apply HQ; [|done]. apply NoDup_cons in Hn as [_ Hn]. apply Forall2_cons_1 in Hs as [_ Hs].
  apply (listed_same (mkStore c (structs st))); [done|exact HS|]. split; cbn [cells structs]; [done| |done|done].
  apply set_eq. intros x. destruct Hl as [_ _ Hn1]. apply NoDup_cons in Hn1 as [Hp1 _]. cbn [fst] in Hp1.
  destruct (decide (x ∈ ((p, a) :: l).*1)) as [Hx|Hx].
  - apply elem_of_cons in Hx as [->|Hx]; cbn [fst].
    + rewrite elem_of_dom, Hfree. split; [by intros []|set_solver].
    + split; [set_solver|]. intros _. apply elem_of_dom. destruct Hl' as [Hseg _ _]. by eapply lseg_lookup.
  - rewrite elem_of_dom, Hfr, <- elem_of_dom, Hd by done. set_solver.
Qed.

Lemma wp_list_remove st S lst p a l v vs (Q : LIST_INSTANCE → Store V * Heap → Prop) h :
  listed st lst ((p, a) :: l) (v :: vs) →
  (∀ b, b ∈ l.*2 → S !! b = structs st !! b) →
  (∀ lst' c h', listed (mkStore c S) lst' l vs → used (-1) h h' → Q lst' (mkStore c S, h')) →
  wp (list_remove lst p) Q (mkStore (cells st) S, h).
Proof. intros Hl HS HQ. apply wp_bind. eapply wp_list_unlink; [exact Hl|exact HS|]. intros lst' c h' Hl' Hu. by apply wp_ret, HQ. Qed.

Lemma wp_list_destroy st lst l vs (Q : unit → Store V * Heap → Prop) h :
  listed st lst l vs →
  (∀ h', used (- Z.of_nat (length l) - 1) h h' → Q tt (mkStore ∅ (structs st), h')) →
  wp (list_destroy lst) Q (st, h).
Proof.
  intros Hl HQ. pose proof (listed_size _ _ _ _ Hl) as Hsz. destruct Hl as [Hl Hd _ _].
  destruct (destroy_loop_spec (fuel (cells st)) (cells st) lst l Hl) as (c & E & Hfree & Hfr).
  { destruct Hl as [Hs _ Hn]. by eapply lseg_fuel. }
  assert (c = ∅) as ->.
  { apply map_empty. intros x. destruct (decide (x ∈ l.*1)); [by apply Hfree|].
    rewrite Hfr by done. apply not_elem_of_dom. rewrite Hd. set_solver. }
  eexists tt, _. split; [unfold list_destroy, singlylinkedlist_destroy; rewrite E, bind_ret; reflexivity|].
  apply HQ. rewrite Hsz, map_size_empty. split; [cbn; lia|]. done.
Qed.

Lemma wp_list_value st lst p a l vs (Q : option positive → Store V * Heap → Prop) h :
  listed st lst ((p, a) :: l) vs → Q (Some a) (st, h) → wp (list_value p) Q (st, h).
Proof.
  intros [[(_ & nx & E & _) _ _] _ _] HQ. eexists _, _. split; [|exact HQ]. unfold list_value, singlylinkedlist_item_get_value.
  cbn [fst] in E. by rewrite E.
Qed.
End registry.
