(* ===== verification/ChannelModel.v ===== *)
(** * ChannelModel: the channels of the agent.

    [iot_edge_agent/src/channel_model.c]: the JSON description of the channels
    becomes a list of structures with a device name, a protocol, the name of a
    model and the options of a port.  A number is a text that [atoi] reads. *)
From S2P Require Import Prelude.
From S2P Require Import Effects.
From S2P Require Import Alloc.
From S2P Require Import CString.
From S2P Require Import Json.
From S2P Require Import SinglyLinkedList.
From S2P Require Import Registry.
From stdpp Require Import gmap strings.
#[local] Open Scope Z_scope.

Module Channel.
(** ** Data ([channel_model.h]) *)

Definition MAX_SIZE_OF_HOST : nat := 20.
Definition MAX_SIZE_OF_PORT_TYPE : nat := 20.
Definition MAX_SIZE_OF_SERIAL_ID : nat := 20.
Definition MAX_SIZE_OF_DEVICE_NAME : nat := 64.
Definition MAX_SIZE_OF_PROTO_TYPE : nat := 64.
Definition MAX_SIZE_OF_MODEL_TYPE : nat := 64.

Record DEVICE_PORT_OPTION := mkPort {
  baudRate : Z; dataBit : Z; stopBit : Z; parity : Z; port : Z;
  host : list Z; portType : list Z; serialID : list Z }.

Record CHANNEL_MODEL_INFO := mkChannel {
  timeOut : Z; device : list Z; protoType : list Z; modelNmae : list Z;
  portOptions : DEVICE_PORT_OPTION }.

#[warnings="-notation-for-abbreviation"] Notation Channels := (ST (Store CHANNEL_MODEL_INFO * Heap)).

(** [sizeof(CHANNEL_MODEL_INFO)], and the arrays in a new block; its numbers are
    written before they are read. *)
Definition CHANNEL_SIZE : nat := 284.
Definition blank (blk : list Z) : CHANNEL_MODEL_INFO :=
  let array off n := take (n + 1) (drop off blk) in
  mkChannel 0 (array 4%nat MAX_SIZE_OF_DEVICE_NAME) (array 69%nat MAX_SIZE_OF_PROTO_TYPE)
    (array 134%nat MAX_SIZE_OF_MODEL_TYPE)
    (mkPort 0 0 0 0 0 (array 220%nat MAX_SIZE_OF_HOST) (array 241%nat MAX_SIZE_OF_PORT_TYPE)
       (array 262%nat MAX_SIZE_OF_SERIAL_ID)).

(** ** Reading one channel *)

#[warnings="-notation-for-abbreviation"] Notation Object := (option (list (list Z * JSON))).

(** A field, and [error] afterwards; a missing text leaves the field alone. *)
Definition read_int (o : Object) (name : list Z) (old : Z) (error : bool) : option (Z * bool) :=
  match json_object_dotget_string o name with
  | None => Some (old, true)
  | Some res_str => n ← atoi res_str; Some (n, error)
  end.
Definition read_text (o : Object) (name : list Z) (n : nat) (old : list Z) (error : bool) : option (list Z * bool) :=
  match json_object_dotget_string o name with
  | None => Some (old, true)
  | Some res_str => d ← strncpy old res_str n; Some (d, error)
  end.

(** [strcmp] of the text of the parity, which may be NULL. *)
Definition read_parity (o : Object) (old : Z) (error : bool) : option (Z * bool) :=
  text ← json_object_dotget_string o (str "parity");
  if strequal (str "NONE") text then Some (78, error)
  else if strequal (str "EVEN") text then Some (69, error)
  else if strequal (str "ODD") text then Some (79, error)
  else Some (old, true).

Definition read_port (o : Object) (p : DEVICE_PORT_OPTION) (error : bool) : option (DEVICE_PORT_OPTION * bool) :=
  '(baudRate, error) ← read_int o (str "baudRate") (baudRate p) error;
  '(stopBit, error) ← read_int o (str "stopBit") (stopBit p) error;
  '(dataBit, error) ← read_int o (str "dataBit") (dataBit p) error;
  '(port, error) ← read_int o (str "port") (port p) error;
  '(host, error) ← read_text o (str "ip") MAX_SIZE_OF_HOST (host p) error;
  '(serialID, error) ← read_text o (str "serialID") MAX_SIZE_OF_SERIAL_ID (serialID p) error;
  '(portType, error) ← read_text o (str "portType") MAX_SIZE_OF_PORT_TYPE (portType p) error;
  '(parity, error) ← read_parity o (parity p) error;
  Some (mkPort baudRate dataBit stopBit parity port host portType serialID, error).

Definition read_channel (array : Object) (c : CHANNEL_MODEL_INFO) (error : bool)
    : option (CHANNEL_MODEL_INFO * bool) :=
  '(timeOut, error) ← read_int array (str "timeOut") (timeOut c) error;
  '(device, error) ← read_text array (str "dev") MAX_SIZE_OF_DEVICE_NAME (device c) error;
  '(protoType, error) ← read_text array (str "protoType") MAX_SIZE_OF_PROTO_TYPE (protoType c) error;
  '(modelNmae, error) ← read_text array (str "modeltype") MAX_SIZE_OF_MODEL_TYPE (modelNmae c) error;
  '(portOptions, error) ←
    match json_object_dotget_object array (str "port") with
    | None => Some (portOptions c, true)
    | Some port => read_port (Some port) (portOptions c) error
    end;
  Some (mkChannel timeOut device protoType modelNmae portOptions, error).

(** ** The list *)

(** [n]: enough for the items there are. *)
Fixpoint destroy_channels (n : nat) (channel_list : LIST_INSTANCE) : Channels LIST_INSTANCE :=
  match singlylinkedlist_get_head_item (Some channel_list) with
  | None => mret channel_list
  | Some channel_item =>
      match n with
      | O => lift None
      | S n =>
          channel_info ← list_value channel_item;
          match channel_info with Some a => dispose a | None => mret tt end;;
          channel_list ← list_remove channel_list channel_item;
          destroy_channels n channel_list
      end
  end.

Definition channel_info_list_destroy (channel_list : option LIST_INSTANCE) : Channels unit :=
  match channel_list with
  | None => mret tt
  | Some channel_list =>
      n ← list_fuel;
      channel_list ← destroy_channels n channel_list;
      list_destroy channel_list
  end.

(** The end of the loop after an error. *)
Definition abandon_list (result : LIST_INSTANCE) : Channels (option LIST_INSTANCE) :=
  channel_info_list_destroy (Some result);; mret None.

(** The elements [i], [i + 1], ... *)
Fixpoint create_channels (n i : nat) (channel_body : list JSON) (result : LIST_INSTANCE)
    : Channels (option LIST_INSTANCE) :=
  match n with
  | O => mret (Some result)
  | S n =>
      let array := json_array_get_object (Some channel_body) i in
      channel_info ← on_heap (malloc CHANNEL_SIZE);
      match channel_info with
      | None => abandon_list result
      | Some blk =>
          '(c, error) ← lift (read_channel array (blank blk) false);
          if error : bool then on_heap free_struct;; abandon_list result
          else
            a ← place c;
            '(result, added) ← list_add result a;
            if added : bool then create_channels n (S i) channel_body result
            else dispose a;; abandon_list result
      end
  end.

Definition channel_info_list_create (channel_json : option JSON) : Channels (option LIST_INSTANCE) :=
  match json_value_get_object channel_json with
  | None => mret None
  | Some channel_object =>
      match json_object_dotget_array (Some channel_object) (str "body") with
      | None => mret None
      | Some channel_body =>
          result ← list_create;
          match result with
          | None => mret None
          | Some result => create_channels (length channel_body) 0 channel_body result
          end
      end
  end.
End Channel.
