(* ===== verification/SerialIo.v ===== *)
(** * SerialIo: the serial port of the agent.

    [src/iot_edge_agent/src/serial_io.c] and [inc/serial_io.h]: a port with a queue of
    what could not be written yet.  A port is the structure its handle points to
    ([None] is NULL); the pending structures live in the store of [Registry].  What the
    operating system answers is an argument of each operation: [Opening], [Written],
    [Read] and the result of [select].  The callbacks are functions on the state [A] of
    the application; they do not call the port back. *)
From S2P Require Import Prelude.
From S2P Require Import Effects.
From S2P Require Import Alloc.
From S2P Require Import CString.
From S2P Require Import SinglyLinkedList.
From S2P Require Import Registry.
From S2P Require Import OptionHandler.
From stdpp Require Import gmap.
#[local] Open Scope Z_scope.

Module Serial.

Definition INVALID_SERIAL_FD := -1.
Definition MAX_SIZE_OF_INTER_NAME : nat := 64.
Definition MAX_RECEIVE_BYTES : nat := 256.

Inductive IO_STATE := IO_STATE_CLOSED | IO_STATE_OPENING | IO_STATE_OPEN | IO_STATE_CLOSING | IO_STATE_ERROR.

#[export] Instance io_state_eq_dec : EqDecision IO_STATE.
Proof. solve_decision. Defined.

Inductive IO_OPEN_RESULT := IO_OPEN_OK | IO_OPEN_ERROR | IO_OPEN_CANCELLED.
Inductive IO_SEND_RESULT := IO_SEND_OK | IO_SEND_ERROR | IO_SEND_CANCELLED.

(** [struct timeval]: seconds and microseconds. *)
#[warnings="-notation-for-abbreviation"] Notation timeval := (Z * Z)%type.

Record SERIALIO_CONFIG := mkConfig {
  c_interfaceName : list Z;
  c_baudRate : Z;
  c_dataBits : Z;
  c_parity : Z;
  c_stopBits : Z;
  c_timeout : timeval }.

(** [bytes] with the callback and its context; the handle of the queue, which is not
    read, is left out. *)
Record PENDING_SERIAL_IO (A : Type) := mkPending {
  bytes : list Z;
  size : nat;
  on_send_complete : option (IO_SEND_RESULT → A → option A) }.
#[global] Arguments mkPending {A} _ _ _.
#[global] Arguments bytes {A} _.
#[global] Arguments size {A} _.
#[global] Arguments on_send_complete {A} _.

(** The array [recv_bytes] is only used within [serialio_dowork]. *)
Record SERIAL_IO_INSTANCE (A : Type) := mkSerial {
  serial_fd : Z;
  on_bytes_received : option (list Z → A → option A);
  on_io_error : option (A → option A);
  interfaceName : list Z;
  baudRate : Z;
  dataBits : Z;
  parity : Z;
  stopBits : Z;
  timeout : timeval;
  io_state : IO_STATE;
  pending_io_list : LIST_INSTANCE }.
#[global] Arguments mkSerial {A} _ _ _ _ _ _ _ _ _ _ _.
#[global] Arguments serial_fd {A} _.
#[global] Arguments on_bytes_received {A} _.
#[global] Arguments on_io_error {A} _.
#[global] Arguments interfaceName {A} _.
#[global] Arguments baudRate {A} _.
#[global] Arguments dataBits {A} _.
#[global] Arguments parity {A} _.
#[global] Arguments stopBits {A} _.
#[global] Arguments timeout {A} _.
#[global] Arguments io_state {A} _.
#[global] Arguments pending_io_list {A} _.

(** [struct termios], flag by flag; [CSIZE] is the number of data bits. *)
Record termios := mkTermios {
  speed : Z;
  CREAD : bool; CLOCAL : bool; CSIZE : Z; CSTOPB : bool; PARENB : bool; PARODD : bool;
  ICANON : bool; ECHO : bool; ECHOE : bool; ISIG : bool;
  INPCK : bool; IXON : bool; IXOFF : bool; IXANY : bool; ICRNL : bool; IGNBRK : bool; IGNPAR : bool;
  OPOST : bool;
  VMIN : Z; VTIME : Z }.

(** ** The operating system *)

(** The answers to [open], [isatty], [fcntl], [tcgetattr], [cfsetispeed] with
    [cfsetospeed], and [tcsetattr]. *)
Record Opening := mkOpening {
  o_open : Z; o_isatty : bool; o_fcntl : bool; o_tcgetattr : termios; o_cfsetspeed : bool; o_tcsetattr : bool }.

(** The answer to [write]: everything, fewer bytes, or -1 and whether [errno] is
    [EAGAIN]. *)
Inductive Written := WroteAll | WroteSome (n : nat) | WriteError (again : bool).

(** The answer to [read]: at most [MAX_RECEIVE_BYTES] bytes, none at the end. *)
Inductive Read := ReadSome (l : list Z) | ReadError (again : bool).

(** An open file: its path, and how its line was configured. *)
Record File := mkFile { path : list Z; line : option termios }.

(** [wire]: every byte that was written. *)
Record Outside (A : Type) := mkOutside { files : gmap Z File; wire : list Z; app : A }.
#[global] Arguments mkOutside {A} _ _ _.
#[global] Arguments files {A} _.
#[global] Arguments wire {A} _.
#[global] Arguments app {A} _.

Section serial.
Context {A : Type} (FD_SETSIZE : Z).
#[warnings="-notation-for-abbreviation"] Notation PENDING := (PENDING_SERIAL_IO A).
#[warnings="-notation-for-abbreviation"] Notation INSTANCE := (SERIAL_IO_INSTANCE A).
#[warnings="-notation-for-abbreviation"] Notation World := ((Store PENDING * Heap) * Outside A)%type.
#[warnings="-notation-for-abbreviation"] Notation Serial := (ST World).
Implicit Types (i : INSTANCE) (o : Outside A).

Definition set_fd fd i : INSTANCE := mkSerial fd (on_bytes_received i) (on_io_error i) (interfaceName i)
  (baudRate i) (dataBits i) (parity i) (stopBits i) (timeout i) (io_state i) (pending_io_list i).
Definition set_state st i : INSTANCE := mkSerial (serial_fd i) (on_bytes_received i) (on_io_error i)
  (interfaceName i) (baudRate i) (dataBits i) (parity i) (stopBits i) (timeout i) st (pending_io_list i).
Definition set_callbacks received error i : INSTANCE := mkSerial (serial_fd i) received error (interfaceName i)
  (baudRate i) (dataBits i) (parity i) (stopBits i) (timeout i) (io_state i) (pending_io_list i).
Definition set_timeout t i : INSTANCE := mkSerial (serial_fd i) (on_bytes_received i) (on_io_error i)
  (interfaceName i) (baudRate i) (dataBits i) (parity i) (stopBits i) t (io_state i) (pending_io_list i).
Definition set_pending l i : INSTANCE := mkSerial (serial_fd i) (on_bytes_received i) (on_io_error i)
  (interfaceName i) (baudRate i) (dataBits i) (parity i) (stopBits i) (timeout i) (io_state i) l.

(** The pending structures, or the memory, as a part of the state. *)
Definition on_store {X} (d : ST (Store PENDING * Heap) X) : Serial X := λ '(s, o),
  '(x, s) ← d s; Some (x, (s, o)).
Definition on_memory {X} (d : Alloc X) : Serial X := on_store (on_heap d).

Definition outside : Serial (Outside A) := λ '(s, o), Some (o, (s, o)).
Definition set_outside o : Serial unit := λ '(s, _), Some (tt, (s, o)).

(** A callback, unless it is NULL. *)
Definition notify (f : option (A → option A)) : Serial unit :=
  match f with
  | None => mret tt
  | Some f => o ← outside; a ← lift (f (app o)); set_outside (mkOutside (files o) (wire o) a)
  end.

Definition indicate_error i : Serial unit := notify (on_io_error i).

(** *** System calls *)

Definition close (fd : Z) : Serial unit :=
  o ← outside; set_outside (mkOutside (delete fd (files o)) (wire o) (app o)).

Definition open (name : list Z) (fd : Z) : Serial Z :=
  o ← outside;
  (if 0 <=? fd then set_outside (mkOutside (<[fd := mkFile name None]> (files o)) (wire o) (app o)) else mret tt);;
  mret fd.

Definition configure (fd : Z) (t : termios) : Serial unit :=
  o ← outside;
  f ← lift (files o !! fd);
  set_outside (mkOutside (<[fd := mkFile (path f) (Some t)]> (files o)) (wire o) (app o)).

(** [write(fd, buffer, size)]; the result is an [int]. *)
Definition write (fd : Z) (buffer : list Z) (n : nat) (w : Written) : Serial Z :=
  lift (if (n <=? length buffer)%nat && (Z.of_nat n <=? 2147483647) then Some tt else None);;
  o ← outside;
  match files o !! fd with
  | None => mret (-1)
  | Some _ =>
      match w with
      | WriteError _ => mret (-1)
      | WroteAll => set_outside (mkOutside (files o) (wire o ++ take n buffer) (app o));; mret (Z.of_nat n)
      | WroteSome k =>
          set_outside (mkOutside (files o) (wire o ++ take (k `min` n) buffer) (app o));; mret (Z.of_nat (k `min` n))
      end
  end.

(** ** Options *)

Definition serialio_clone_option (name : list Z) (value : unit) : Alloc (option unit) := mret None.
Definition serialio_destroy_option (name : list Z) (value : unit) : Alloc unit := mret tt.
Definition serialio_setoption (i : INSTANCE) (optionName : list Z) (value : unit) : option (status * INSTANCE) :=
  Some (FAILURE, i).

Definition serialio_retrieveoptions (serial_io : option INSTANCE) : Alloc (option (OPTIONHANDLER_HANDLE_DATA unit INSTANCE)) :=
  OptionHandler_Create (Some serialio_clone_option) (Some serialio_destroy_option) (Some serialio_setoption).

(** ** Creation and destruction *)

Definition serialio_create (io_create_parameters : option SERIALIO_CONFIG) : Serial (option INSTANCE) :=
  match io_create_parameters with
  | None => mret None
  | Some config =>
      result ← on_memory (malloc (MAX_SIZE_OF_INTER_NAME + 1));
      match result with
      | None => mret None
      | Some blk =>
          pending ← on_store list_create;
          match pending with
          | None => on_memory free_struct;; mret None
          | Some pending =>
              name ← lift (strncpy blk (array_text MAX_SIZE_OF_INTER_NAME (c_interfaceName config)) MAX_SIZE_OF_INTER_NAME);
              mret (Some (mkSerial INVALID_SERIAL_FD None None name (c_baudRate config) (c_dataBits config)
                            (c_parity config) (c_stopBits config) (c_timeout config) IO_STATE_CLOSED pending))
          end
      end
  end.

(** The head of the queue: its address and the structure, if they are not NULL. *)
Definition pending_value (first : positive) : Serial (option (positive * PENDING)) :=
  p ← on_store (list_value first);
  match p with
  | None => mret None
  | Some p => v ← on_store (load p); mret (Some (p, v))
  end.

Definition free_pending (p : positive) (v : PENDING) : Serial unit :=
  on_memory (free (Some (bytes v)));; on_store (dispose p).

(** [n]: enough for the items there are. *)
Fixpoint clear_pending (n : nat) (pending : LIST_INSTANCE) : Serial LIST_INSTANCE :=
  match singlylinkedlist_get_head_item (Some pending) with
  | None => mret pending
  | Some first =>
      match n with
      | O => lift None
      | S n =>
          v ← pending_value first;
          match v with Some (p, v) => free_pending p v | None => mret tt end;;
          pending ← on_store (list_remove pending first);
          clear_pending n pending
      end
  end.

Definition serialio_destroy (serial_io : option INSTANCE) : Serial unit :=
  match serial_io with
  | None => mret tt
  | Some i =>
      (if serial_fd i =? INVALID_SERIAL_FD then mret tt else close (serial_fd i));;
      n ← on_store list_fuel;
      pending ← clear_pending n (pending_io_list i);
      on_store (list_destroy pending);;
      on_memory free_struct
  end.

(** ** Opening and closing *)

Definition baud_rate (n : Z) : Z :=
  if bool_decide (n ∈ [110; 300; 600; 1200; 2400; 4800; 9600; 19200; 38400; 57600; 115200]) then n else 9600.

Definition data_bits (n : Z) : Z :=
  if n =? 5 then 5 else if n =? 6 then 6 else if n =? 7 then 7 else 8.

(** The attributes of the line, from those it had. *)
Definition attributes i (t : termios) : termios :=
  let none := parity i =? 78 in
  let even := parity i =? 69 in
  mkTermios (baud_rate (baudRate i))
    true true (data_bits (dataBits i)) (negb (stopBits i =? 1))
    (negb none) (if none then PARODD t else negb even)
    false false false false
    (negb none) false false false false true true
    false
    0 1.

(** The new file descriptor is given up. *)
Definition open_failed i fd : Serial (status * INSTANCE) :=
  close fd;; mret (FAILURE, set_fd INVALID_SERIAL_FD i).

(** The port is opened: the part between the test of the state and the callback. *)
Definition open_line i (a : Opening) received error : Serial (status * INSTANCE) :=
  if negb (serial_fd i =? INVALID_SERIAL_FD) then
    mret (OK, set_state IO_STATE_OPEN (set_callbacks received error i))
  else
    name ← lift (cstr (interfaceName i));
    fd ← open name (o_open a);
    if fd <? INVALID_SERIAL_FD then mret (FAILURE, set_fd fd i)
    else if negb (o_isatty a && (0 <=? fd)) then open_failed i fd
    else if negb (o_fcntl a) then open_failed i fd
    else if negb (o_cfsetspeed a) then open_failed i fd
    else if negb (o_tcsetattr a) then open_failed i fd
    else
      configure fd (attributes i (o_tcgetattr a));;
      mret (OK, set_state IO_STATE_OPEN (set_callbacks received error (set_fd fd i))).

Definition serialio_open (serial_io : option INSTANCE) (a : Opening) (on_io_open_complete : option (IO_OPEN_RESULT → A → option A))
    (received : option (list Z → A → option A)) (error : option (A → option A)) : Serial (status * option INSTANCE) :=
  '(result, serial_io) ←
    match serial_io with
    | None => mret (FAILURE, None)
    | Some i =>
        if bool_decide (io_state i = IO_STATE_CLOSED) then
          '(result, i) ← open_line i a received error; mret (result, Some i)
        else mret (FAILURE, Some i)
    end;
  notify ((λ f, f (match result with OK => IO_OPEN_OK | FAILURE => IO_OPEN_ERROR end)) <$> on_io_open_complete);;
  mret (result, serial_io).

Definition serialio_close (serial_io : option INSTANCE) (on_io_close_complete : option (A → option A))
    : Serial (status * option INSTANCE) :=
  match serial_io with
  | None => mret (FAILURE, None)
  | Some i =>
      i ← (if bool_decide (io_state i = IO_STATE_CLOSED) || bool_decide (io_state i = IO_STATE_CLOSING) then mret i
           else close (serial_fd i);; mret (set_state IO_STATE_CLOSED (set_fd INVALID_SERIAL_FD i)));
      notify on_io_close_complete;;
      mret (OK, Some i)
  end.

(** ** Sending *)

(** [n] bytes of the buffer from [off] on wait in the queue. *)
Definition add_pending_io i (buffer : list Z) (off n : nat) cb : Serial (status * INSTANCE) :=
  pending ← on_memory malloc_struct;
  if (pending : bool) then
    blk ← on_memory (malloc n);
    match blk with
    | None => on_memory free_struct;; mret (FAILURE, i)
    | Some blk =>
        blk ← lift (copy_to (Some blk) 0 (Some (drop off buffer)) n);
        blk ← lift blk;
        p ← on_store (place (mkPending blk n cb));
        '(l, added) ← on_store (list_add (pending_io_list i) p);
        if added : bool then mret (OK, set_pending l i)
        else free_pending p (mkPending blk n cb);; mret (FAILURE, set_pending l i)
    end
  else mret (FAILURE, i).

Definition is_again (w : Written) : bool := match w with WriteError again => again | _ => false end.

Definition send_now i (buffer : list Z) (n : nat) cb (w : Written) : Serial (status * INSTANCE) :=
  send_result ← write (serial_fd i) buffer n w;
  if send_result =? Z.of_nat n then
    notify ((λ f, f IO_SEND_OK) <$> cb);; mret (OK, i)
  else if send_result =? INVALID_SERIAL_FD then mret (if is_again w then OK else FAILURE, i)
  else add_pending_io i buffer (Z.to_nat send_result) (n - Z.to_nat send_result) cb.

Definition serialio_send (serial_io : option INSTANCE) (buffer : option (list Z)) (n : nat) cb (w : Written)
    : Serial (status * option INSTANCE) :=
  match serial_io, buffer with
  | Some i, Some buffer =>
      if (n =? 0)%nat then mret (FAILURE, serial_io)
      else if negb (bool_decide (io_state i = IO_STATE_OPEN)) then mret (FAILURE, serial_io)
      else
        '(result, i) ←
          match singlylinkedlist_get_head_item (Some (pending_io_list i)) with
          | Some _ => add_pending_io i buffer 0 n cb
          | None => send_now i buffer n cb w
          end;
        mret (result, Some i)
  | _, _ => mret (FAILURE, serial_io)
  end.

(** ** Working *)

(** The bytes that were not sent move to the front; the size stays. *)
Definition after_cut (k : nat) (v : PENDING) : PENDING :=
  mkPending (drop k (take (size v) (bytes v)) ++ drop (size v - k) (bytes v)) (size v) (on_send_complete v).

(** A pending structure was sent. *)
Definition complete_pending i (first p : positive) (v : PENDING) : Serial INSTANCE :=
  notify ((λ f, f IO_SEND_OK) <$> on_send_complete v);;
  free_pending p v;;
  '(l, removed) ← on_store (list_unlink (pending_io_list i) first);
  let i := set_pending l i in
  if removed : bool then mret i
  else let i := set_state IO_STATE_ERROR i in indicate_error i;; mret i.

(** The loop over the queue; exhausted answers are [WroteAll]. *)
Fixpoint send_pending (fuel : nat) i (writes : list Written) : Serial INSTANCE :=
  match singlylinkedlist_get_head_item (Some (pending_io_list i)) with
  | None => mret i
  | Some first =>
      match fuel with
      | O => lift None
      | S fuel =>
          pending ← pending_value first;
          match pending with
          | None => let i := set_state IO_STATE_ERROR i in indicate_error i;; mret i
          | Some (p, v) =>
              send_result ← write (serial_fd i) (bytes v) (size v) (hd WroteAll writes);
              if send_result =? Z.of_nat (size v) then
                i ← complete_pending i first p v; send_pending fuel i (tl writes)
              else if send_result <? 0 then
                if send_result <? INVALID_SERIAL_FD then
                  let i := set_state IO_STATE_ERROR i in indicate_error i;; mret i
                else mret i
              else
                on_store (store p (after_cut (Z.to_nat send_result) v));;
                send_pending fuel i (tl writes)
          end
      end
  end.

(** The loop of [read]: [received] is what [recv_bytes] holds.  Each call may fill
    [MAX_RECEIVE_BYTES] bytes, wherever it starts: writing behind the array is
    undefined.  [n]: the bytes that are left. *)
Fixpoint receive (n : nat) i (received : list Z) (reads : list Read) : Serial (list Z) :=
  match reads with
  | [] => mret received
  | ReadError again :: _ => (if again then mret tt else indicate_error i);; mret received
  | ReadSome l :: reads =>
      match take MAX_RECEIVE_BYTES l with
      | [] => mret received
      | l =>
          let received := received ++ l in
          lift (if (length received <=? MAX_RECEIVE_BYTES)%nat then Some tt else None);;
          if (length received =? MAX_RECEIVE_BYTES)%nat then mret received
          else match n with O => lift None | S n => receive n i received reads end
      end
  end.

(** [select] with its result, and what it leaves of the time-out. *)
Definition serialio_dowork (serial_io : option INSTANCE) (writes : list Written) (ret : Z) (left : timeval) (reads : list Read)
    : Serial (option INSTANCE) :=
  match serial_io with
  | None => mret None
  | Some i =>
      if negb (bool_decide (io_state i = IO_STATE_OPEN)) then mret serial_io
      else
        n ← on_store list_fuel;
        i ← send_pending (n + length writes) i writes;
        if negb (bool_decide (io_state i = IO_STATE_OPEN)) then mret (Some i)
        else
          lift (if (0 <=? serial_fd i) && (serial_fd i <? FD_SETSIZE) then Some tt else None);;
          let i := set_timeout left i in
          if ret =? -1 then indicate_error i;; mret (Some i)
          else if 0 <? ret then
            received ← receive MAX_RECEIVE_BYTES i [] reads;
            match received with
            | [] => mret tt
            | _ => notify ((λ f, f received) <$> on_bytes_received i)
            end;;
            mret (Some i)
          else mret (Some i)
  end.
End serial.

#[global] Arguments after_cut {A} _ _.
End Serial.
