(* ===== verification/SerialIoTheory.v ===== *)
(** * SerialIoTheory: the serial port and a queue of texts.

    The port of [SerialIo] against a queue that is a list, with the bytes on the line
    and the state of the application: [flush] is the loop over the queue, [gather] the
    loop of [read], [work] one call of [serialio_dowork], which is defined exactly when
    [work] is ([runs]). *)
From S2P Require Import Prelude.
From S2P Require Import Effects.
From S2P Require Import Alloc.
From S2P Require Import CString.
From S2P Require Import SinglyLinkedList.
From S2P Require Import Registry.
From S2P Require Import SerialIo.
From stdpp Require Import gmap.
#[local] Open Scope Z_scope.

Import Serial.

(** ** Computations that do exactly what a pure function says *)

(** [d] is undefined where [r] is, and otherwise ends with the value of [r]. *)
Definition runs {S X Y} (d : ST S X) (r : option Y) (R : Y → X → S → Prop) (s : S) : Prop :=
  match r with None => d s = None | Some y => wp d (R y) s end.

Section runs.
Context {S : Type}.
Implicit Types s : S.

Lemma runs_ret {X Y} (x : X) (y : Y) (R : Y → X → S → Prop) s : R y x s → runs (mret x) (Some y) R s.
Proof. apply wp_ret. Qed.

Lemma runs_bind {X X' Y Y'} (d : ST S X) (f : X → ST S X') (r : option Y) (g : Y → option Y') R R' s :
  runs d r R s → (∀ y x s', R y x s' → runs (f x) (g y) R' s') → runs (d ≫= f) (r ≫= g) R' s.
Proof.
  unfold runs. destruct r as [y|]; cbn [mbind option_bind].
  - intros (x & s' & E & HR) Hf. specialize (Hf y x s' HR).
    assert ((d ≫= f) s = f x s') as Eb by by rewrite st_bind_eq, E.
    destruct (g y) as [z|].
    + destruct Hf as (x' & s2 & E2 & H2). exists x', s2. by rewrite Eb.
    + by rewrite Eb.
  - intros E _. by rewrite st_bind_eq, E.
Qed.

Lemma bind_some {Y} (r : option Y) : r = r ≫= Some.
Proof. by destruct r. Qed.

(** A first step that is always defined. *)
Lemma runs_step {X X' Y} (d : ST S X) (f : X → ST S X') (r : option Y) R s :
  wp d (λ x s', runs (f x) r R s') s → runs (d ≫= f) r R s.
Proof.
  intros (x & s' & E & H). unfold runs in *. assert ((d ≫= f) s = f x s') as Eb by by rewrite st_bind_eq, E.
  destruct r; [|by rewrite Eb]. destruct H as (x' & s2 & E2 & H2). exists x', s2. by rewrite Eb.
Qed.

Lemma runs_mono {X Y} (d : ST S X) (r : option Y) (R R' : Y → X → S → Prop) s :
  runs d r R s → (∀ y x s', R y x s' → R' y x s') → runs d r R' s.
Proof. unfold runs. destruct r; [|done]. intros H HR. eapply wp_mono; [exact H|]. intros x s'. apply HR. Qed.

Lemma runs_map {X Y Y'} (d : ST S X) (r : option Y) (f : Y → Y') (R : Y → X → S → Prop) R' s :
  runs d r R s → (∀ y x s', R y x s' → R' (f y) x s') → runs d (r ≫= λ y, Some (f y)) R' s.
Proof. unfold runs. destruct r; [|done]. intros H HR. eapply wp_mono; [exact H|]. intros x s'. apply HR. Qed.

Lemma runs_wp {X Y} (d : ST S X) (y : Y) r (R : Y → X → S → Prop) Q s :
  runs d r R s → r = Some y → (∀ x s', R y x s' → Q x s') → wp d Q s.
Proof. intros H -> HQ. by eapply wp_mono. Qed.
End runs.

Section serial.
Context {A : Type} (FD_SETSIZE : Z).
#[warnings="-notation-for-abbreviation"] Notation PENDING := (PENDING_SERIAL_IO A).
#[warnings="-notation-for-abbreviation"] Notation INSTANCE := (SERIAL_IO_INSTANCE A).
#[warnings="-notation-for-abbreviation"] Notation World := ((Store PENDING * Heap) * Outside A)%type.
#[warnings="-notation-for-abbreviation"] Notation Serial := (ST World).
#[warnings="-notation-for-abbreviation"] Notation Callback := (option (IO_SEND_RESULT → A → option A)).
#[warnings="-notation-for-abbreviation"] Notation Entry := (list Z * Callback)%type.
Implicit Types (i : INSTANCE) (o : Outside A) (st : Store PENDING) (h : Heap) (q : list Entry) (a : A).

(** ** What the port does, on a list *)

Definition call (f : option (A → option A)) a : option A := match f with None => Some a | Some f => f a end.
Definition finish (cb : Callback) : A → option A := call ((λ f, f IO_SEND_OK) <$> cb).

(** How many of [n] bytes are written; [None]: an error. *)
Definition written (w : Written) (n : nat) : option nat :=
  match w with WroteAll => Some n | WroteSome k => Some (k `min` n)%nat | WriteError _ => None end.

(** What is written the next time when [k] bytes of [l] were: the last [k] bytes come
    twice. *)
Definition repeated (k : nat) (l : list Z) : list Z := drop k l ++ drop (length l - k) l.

(** Everything that waits is written. *)
Fixpoint drain q (wire : list Z) a : option (list Entry * list Z * A) :=
  match q with
  | [] => Some ([], wire, a)
  | e :: q => a ← finish e.2 a; drain q (wire ++ e.1) a
  end.

(** The queue, the bytes on the line and the application after [writes]. *)
Fixpoint flush (writes : list Written) q (wire : list Z) a : option (list Entry * list Z * A) :=
  match writes with
  | [] => drain q wire a
  | w :: writes =>
      match q with
      | [] => Some ([], wire, a)
      | e :: q =>
          match written w (length e.1) with
          | None => Some (e :: q, wire, a)
          | Some k =>
              if (k =? length e.1)%nat then a ← finish e.2 a; flush writes q (wire ++ e.1) a
              else flush writes ((repeated k e.1, e.2) :: q) (wire ++ take k e.1) a
          end
      end
  end.

(** What is received, and whether an error ended it; [None] if it does not fit. *)
Fixpoint gather (received : list Z) (reads : list Read) : option (list Z * bool) :=
  match reads with
  | [] => Some (received, false)
  | ReadError again :: _ => Some (received, negb again)
  | ReadSome l :: reads =>
      match take MAX_RECEIVE_BYTES l with
      | [] => Some (received, false)
      | l =>
          let received := received ++ l in
          if (length received <? MAX_RECEIVE_BYTES)%nat then gather received reads
          else if (length received =? MAX_RECEIVE_BYTES)%nat then Some (received, false)
          else None
      end
  end.

(** The callbacks of one round. *)
Definition react i (ret : Z) (reads : list Read) a : option A :=
  if ret =? -1 then call (on_io_error i) a
  else if 0 <? ret then
    '(received, error) ← gather [] reads;
    a ← (if error : bool then call (on_io_error i) a else Some a);
    match received with [] => Some a | _ => call ((λ f, f received) <$> on_bytes_received i) a end
  else Some a.

Definition work i (writes : list Written) (ret : Z) (reads : list Read) q wire a : option (list Entry * list Z * A) :=
  '(q, wire, a) ← flush writes q wire a;
  a ← react i ret reads a;
  Some (q, wire, a).

(** ** The port and the queue *)

Definition pend (e : Entry) : PENDING := mkPending e.1 (length e.1) e.2.

(** A text that can wait: its size is an [int] and not 0. *)
Definition sendable (l : list Z) : Prop := l ≠ [] ∧ Z.of_nat (length l) <= 2147483647.

(** [q] waits in the port. *)
Record queued st (lst : LIST_INSTANCE) q : Prop := {
  queued_items : ∃ l, listed st lst l (pend <$> q);
  queued_texts : Forall (λ e : Entry, sendable e.1) q }.

(** Only the queue and the time-out of a port change. *)
Definition same_port i i' : Prop := i' = set_pending (pending_io_list i') (set_timeout (timeout i') i).

Lemma same_port_refl i : same_port i i.
Proof. by destruct i. Qed.

Lemma same_port_trans i i1 i2 : same_port i i1 → same_port i1 i2 → same_port i i2.
Proof. unfold same_port. intros E1 E2. rewrite E2, E1. by destruct i. Qed.

Lemma same_pending i l : same_port i (set_pending l i).
Proof. by destruct i. Qed.

Lemma same_timeout i t : same_port i (set_timeout t i).
Proof. by destruct i. Qed.

Lemma same_port_fields i i' : same_port i i' → serial_fd i' = serial_fd i ∧ io_state i' = io_state i ∧
  on_io_error i' = on_io_error i ∧ on_bytes_received i' = on_bytes_received i.
Proof. intros ->. by destruct i. Qed.

(** Blocks of a waiting text: the structure, its bytes and the item of the list. *)
Definition queue_blocks q : Z := 3 * Z.of_nat (length q).

(** An open port with the queue [q]. *)
Record port_is i (s : World) q : Prop := {
  port_state : io_state i = IO_STATE_OPEN;
  port_fd : 0 <= serial_fd i < FD_SETSIZE;
  port_file : is_Some (files s.2 !! serial_fd i);
  port_queue : queued s.1.1 (pending_io_list i) q }.

(** ** Rules *)

Lemma wp_on_store {X} (d : ST (Store PENDING * Heap) X) (Q : X → World → Prop) s o :
  wp d (λ x s', Q x (s', o)) s → wp (on_store d) Q (s, o).
Proof. intros (x & s' & E & HQ). exists x, (s', o). unfold on_store. by rewrite E. Qed.

Lemma wp_on_memory {X} (d : Alloc X) (Q : X → World → Prop) st h o :
  wp d (λ x h', Q x ((st, h'), o)) h → wp (on_memory d) Q ((st, h), o).
Proof. intros H. by apply wp_on_store, wp_on_heap. Qed.

Lemma runs_notify f (R : A → unit → World → Prop) s o :
  (∀ a, R a tt (s, mkOutside (files o) (wire o) a)) → runs (notify f) (call f (app o)) R (s, o).
Proof.
  intros HR. destruct f as [f|]; cbn [notify call].
  - apply runs_step. exists o, (s, o). split; [done|]. unfold runs. destruct (f (app o)) as [a|] eqn:E.
    + exists tt. eexists. split; [reflexivity|apply HR].
    + reflexivity.
  - apply runs_ret. destruct o. apply HR.
Qed.

Lemma wp_notify f a (Q : unit → World → Prop) s o :
  call f (app o) = Some a → Q tt (s, mkOutside (files o) (wire o) a) → wp (notify f) Q (s, o).
Proof.
  intros E HQ. eapply (runs_wp _ a _ (λ y x s', x = tt ∧ s' = (s, mkOutside (files o) (wire o) y))).
  - by apply runs_notify.
  - done.
  - by intros x s' [-> ->].
Qed.

Lemma wp_write fd l w (Q : Z → World → Prop) s o :
  sendable l → is_Some (files o !! fd) →
  match written w (length l) with
  | None => Q (-1) (s, o)
  | Some k => Q (Z.of_nat k) (s, mkOutside (files o) (wire o ++ take k l) (app o))
  end → wp (write fd l (length l) w) Q (s, o).
Proof.
  intros [_ Hn] [f Ef] HQ. apply wp_bind. eapply wp_lift.
  { by rewrite (proj2 (Nat.leb_le _ _)), (proj2 (Z.leb_le _ _)). }
  apply wp_bind. exists o, (s, o). split; [done|]. rewrite Ef. destruct w as [|k|]; cbn [written] in HQ.
  all: by eexists _, _.
Qed.

Lemma wp_pending_value st lst p b l e q (Q : option (positive * PENDING) → World → Prop) h o :
  listed st lst ((p, b) :: l) (pend <$> (e :: q)) → Q (Some (b, pend e)) ((st, h), o) → wp (pending_value p) Q ((st, h), o).
Proof.
  intros Hl HQ. apply wp_bind, wp_on_store. eapply wp_list_value; [exact Hl|].
  apply wp_bind, wp_on_store. eapply wp_load; [|by apply wp_ret].
  destruct Hl as [_ _ _ Hs]. by apply Forall2_cons_1 in Hs as [Hs _].
Qed.

Lemma wp_free_pending st p v v' (Q : unit → World → Prop) h o :
  structs st !! p = Some v' →
  (∀ h', used (-2) h h' → Q tt ((mkStore (cells st) (delete p (structs st)), h'), o)) →
  wp (free_pending p v) Q ((st, h), o).
Proof.
  intros Ep HQ. apply wp_bind, wp_on_memory, wp_free. intros h1 Hu1. apply wp_on_store. eapply wp_dispose; [exact Ep|].
  intros h2 Hu2. apply HQ. eapply used_trans; [exact Hu1|exact Hu2|done].
Qed.

(** The head of a queue. *)
Lemma queued_nil st lst : queued st lst [] → singlylinkedlist_get_head_item (Some lst) = None.
Proof.
  intros [[l [[Hs _ _] _ _ Hf]] _]. apply Forall2_nil_inv_r in Hf as ->. by destruct lst.
Qed.

Lemma queued_head st lst e q : queued st lst (e :: q) →
  ∃ p b l, singlylinkedlist_get_head_item (Some lst) = Some p ∧ listed st lst ((p, b) :: l) (pend <$> (e :: q)) ∧
    structs st !! b = Some (pend e) ∧ sendable e.1.
Proof.
  intros [[l Hl] Ht]. apply Forall_cons in Ht as [Ht _]. pose proof Hl as [[Hs _ _] _ _ Hf].
  rewrite fmap_cons in Hf. apply Forall2_cons_inv_r in Hf as ([p b] & l' & Hb & _ & ->).
  exists p, b, l'. split; [|by split_and!]. destruct Hs as [E _]. cbn. by rewrite E.
Qed.

(** ** The loop over the queue *)

Lemma runs_complete i st h o p b l e q :
  listed st (pending_io_list i) ((p, b) :: l) (pend <$> (e :: q)) →
  runs (complete_pending i p b (pend e)) (finish e.2 (app o))
    (λ a i' s', ∃ lst' st' h', i' = set_pending lst' i ∧ s' = ((st', h'), mkOutside (files o) (wire o) a) ∧
       listed st' lst' l (pend <$> q) ∧ used (-3) h h') ((st, h), o).
Proof.
  intros Hl. unfold finish. rewrite (bind_some (call _ _)). eapply runs_bind.
  { eapply (runs_notify _ (λ a _ s', s' = ((st, h), mkOutside (files o) (wire o) a))). done. }
  intros a [] s' ->. apply wp_bind. pose proof Hl as [_ _ Hn Hs]. apply Forall2_cons_1 in Hs as [Hb _].
  eapply wp_free_pending; [exact Hb|]. intros h1 Hu1. apply wp_bind, wp_on_store.
  rewrite fmap_cons in Hl. eapply wp_list_unlink; [exact Hl| |].
  - intros b' Hb'. apply lookup_delete_ne. intros <-. by apply NoDup_cons in Hn as [Hn _].
  - intros lst' c h2 Hl' Hu2. apply wp_ret. do 3 eexists. split; [reflexivity|]. split; [reflexivity|].
    split; [exact Hl'|]. eapply used_trans; [exact Hu1|exact Hu2|done].
Qed.

Lemma flush_cons writes e q wire a : flush writes (e :: q) wire a =
  match written (hd WroteAll writes) (length e.1) with
  | None => Some (e :: q, wire, a)
  | Some k =>
      if (k =? length e.1)%nat then a ← finish e.2 a; flush (tl writes) q (wire ++ e.1) a
      else flush (tl writes) ((repeated k e.1, e.2) :: q) (wire ++ take k e.1) a
  end.
Proof. destruct writes; [|done]. cbn [flush hd tl written]. by rewrite Nat.eqb_refl. Qed.

Lemma written_le w n k : written w n = Some k → (k <= n)%nat.
Proof. destruct w; cbn; intros [= <-]; lia. Qed.

Lemma length_repeated k l : (k <= length l)%nat → length (repeated k l) = length l.
Proof. intros Hk. unfold repeated. rewrite length_app, !length_drop. lia. Qed.

Lemma sendable_repeated k l : (k <= length l)%nat → sendable l → sendable (repeated k l).
Proof.
  intros Hk [Hne Hn]. split; [|by rewrite length_repeated].
  intros E. apply (f_equal length) in E. rewrite length_repeated in E by done. by destruct l.
Qed.

Lemma after_cut_pend k e : (k <= length e.1)%nat → after_cut k (pend e) = pend (repeated k e.1, e.2).
Proof.
  intros Hk. unfold after_cut, pend. cbn [bytes size on_send_complete fst snd].
  by rewrite firstn_all, length_repeated.
Qed.

Lemma queued_cut st lst p b l e q k : listed st lst ((p, b) :: l) (pend <$> (e :: q)) → (k <= length e.1)%nat →
  listed (mkStore (cells st) (<[b := after_cut k (pend e)]> (structs st))) lst ((p, b) :: l)
    (pend <$> ((repeated k e.1, e.2) :: q)).
Proof.
  intros [Hl Hd Hn Hs] Hk. split; cbn [cells structs]; [done|done|done|].
  rewrite fmap_cons in Hs. apply Forall2_cons_1 in Hs as [_ Hs]. rewrite after_cut_pend by done. constructor; cbn [snd].
  - by rewrite lookup_insert_eq.
  - apply Forall2_same_length_lookup_2; [by eapply Forall2_length|]. intros j x v Ex Ev.
    pose proof (Forall2_lookup_lr _ _ _ _ _ _ Hs Ex Ev) as E. cbv beta in E. rewrite lookup_insert_ne; [done|].
    intros ->. apply NoDup_cons in Hn as [Hn _]. apply Hn. change (x.2 ∈ l.*2). apply list_elem_of_fmap_2. by eapply list_elem_of_lookup_2.
Qed.

(** The outcome of the loop. *)
Definition flushed i h o q (y : list Entry * list Z * A) i' (s' : World) : Prop :=
  let '(q', w', a') := y in
  same_port i i' ∧ ∃ st' h', s' = ((st', h'), mkOutside (files o) w' a') ∧
    queued st' (pending_io_list i') q' ∧ used (queue_blocks q' - queue_blocks q) h h'.

Lemma runs_send_pending fuel writes q i st h o :
  is_Some (files o !! serial_fd i) → queued st (pending_io_list i) q → (length q + length writes <= fuel)%nat →
  runs (send_pending fuel i writes) (flush writes q (wire o) (app o)) (flushed i h o q) ((st, h), o).
Proof.
  revert writes q i st h o. induction fuel as [|fuel IH]; intros writes q i st h o Hf Hq Hn.
  all: assert (∀ fuel', q = [] → runs (send_pending fuel' i writes) (flush writes q (wire o) (app o)) (flushed i h o q) ((st, h), o)) as Hnil
    by (intros fuel' ->; destruct fuel'; cbn [send_pending]; rewrite (queued_nil _ _ Hq);
        (replace (flush writes [] (wire o) (app o)) with (Some ([] : list Entry, wire o, app o)) by by destruct writes);
        apply runs_ret; (split; [apply same_port_refl|]); exists st, h; (split; [by destruct o|]); (split; [done|]); apply used_refl).
  { destruct q; [by apply Hnil|cbn in Hn; lia]. }
  destruct q as [|e q]; [by apply Hnil|]. clear Hnil. destruct (queued_head _ _ _ _ Hq) as (p & b & l & Ep & Hl & Eb & He).
  cbn [send_pending]. rewrite Ep, flush_cons. apply runs_step. eapply wp_pending_value; [exact Hl|].
  apply runs_step. change (bytes (pend e)) with e.1. change (size (pend e)) with (length e.1).
  apply wp_write; [done|done|]. destruct (written (hd WroteAll writes) (length e.1)) as [k|] eqn:Ew.
  - pose proof (written_le _ _ _ Ew) as Hle. destruct (Nat.eqb_spec k (length e.1)) as [->|Hk].
    + rewrite Z.eqb_refl. rewrite firstn_all.
      eapply runs_bind; [exact (runs_complete i st h (mkOutside (files o) (wire o ++ e.1) (app o)) p b l e q Hl)|]. intros a i' s' (lst' & st' & h1 & -> & -> & Hl' & Hu).
      cbn [app]. eapply runs_mono.
      * apply (IH (tl writes) q (set_pending lst' i) st' h1 (mkOutside (files o) (wire o ++ e.1) a));
          [done| |destruct writes; cbn in *; lia]. split; [by eexists|].
        destruct Hq as [_ Ht]. by apply Forall_cons in Ht as [_ Ht].
      * intros [[q' w'] a'] i' s' (Hi & st2 & h2 & -> & Hq2 & Hu2). split; [by eapply same_port_trans; [apply same_pending|]|].
        exists st2, h2. split; [done|]. split; [done|]. eapply used_trans; [exact Hu|exact Hu2|].
        unfold queue_blocks. cbn [length]. lia.
    + rewrite (proj2 (Z.eqb_neq _ _)), (proj2 (Z.ltb_ge _ _)) by lia. apply runs_step, wp_on_store.
      eapply wp_store; [exact Eb|]. rewrite Nat2Z.id. eapply runs_mono.
      * apply (IH (tl writes) ((repeated k e.1, e.2) :: q) i _ h (mkOutside (files o) (wire o ++ take k e.1) (app o)));
          [done| |destruct writes; cbn in *; [|lia]]. 2: { by injection Ew as <-. }
        split; [eexists; by eapply queued_cut|]. destruct Hq as [_ Ht]. apply Forall_cons in Ht as [_ Ht].
        constructor; [by apply sendable_repeated|done].
      * intros [[q' w'] a'] i' s' (Hi & st2 & h2 & -> & Hq2 & Hu2). split; [done|]. by exists st2, h2.
  - rewrite (proj2 (Z.eqb_neq (-1) _)) by lia. change (-1 <? 0) with true. change (-1 <? INVALID_SERIAL_FD) with false.
    apply runs_ret. split; [apply same_port_refl|]. exists st, h. split; [by destruct o|]. split; [done|].
    rewrite Z.sub_diag. apply used_refl.
Qed.

(** ** Receiving *)

(** The error callback, if there was an error. *)
Definition troubled i (error : bool) a : option A := if error then call (on_io_error i) a else Some a.

Definition heard s o (y : list Z * A) (x : list Z) (s' : World) : Prop :=
  x = y.1 ∧ s' = (s, mkOutside (files o) (wire o) y.2).

Lemma runs_receive reads n i received s o :
  (MAX_RECEIVE_BYTES - length received <= n)%nat →
  runs (receive n i received reads)
    ('(r, error) ← gather received reads; a ← troubled i error (app o); Some (r, a))
    (heard s o) (s, o).
Proof.
  assert (∀ r, runs (mret r : Serial _) (Some (r, app o)) (heard s o) (s, o)) as Hret.
  { intros r. apply runs_ret. by destruct o. }
  revert n received. induction reads as [|[l|again] reads IH]; intros n received Hn; [destruct n; apply Hret| |].
  - assert (receive n i received (ReadSome l :: reads) =
      match take MAX_RECEIVE_BYTES l with
      | [] => mret received
      | l =>
          let received := received ++ l in
          lift (if (length received <=? MAX_RECEIVE_BYTES)%nat then Some tt else None);;
          if (length received =? MAX_RECEIVE_BYTES)%nat then mret received
          else match n with O => lift None | S n => receive n i received reads end
      end) as -> by by destruct n.
    cbn [gather]. destruct (take MAX_RECEIVE_BYTES l) as [|x l'] eqn:El; [apply Hret|]. cbv zeta.
    assert (length (received ++ x :: l') = length received + S (length l'))%nat as El' by by rewrite length_app.
    set (r := received ++ x :: l') in *. destruct (Nat.leb_spec (length r) MAX_RECEIVE_BYTES) as [Hle|Hgt].
    + apply runs_step. eapply wp_lift; [done|]. destruct (Nat.eqb_spec (length r) MAX_RECEIVE_BYTES) as [E|E].
      * rewrite (proj2 (Nat.ltb_ge _ _)) by lia. apply Hret.
      * rewrite (proj2 (Nat.ltb_lt _ _)) by lia. destruct n as [|n]; [lia|]. apply IH. lia.
    + rewrite (proj2 (Nat.ltb_ge _ _)), (proj2 (Nat.eqb_neq _ _)) by lia. reflexivity.
  - assert (receive n i received (ReadError again :: reads) = ((if again then mret tt else indicate_error i);; mret received)) as ->
      by by destruct n.
    cbn [gather mbind option_bind]. unfold troubled. destruct again; cbn [negb].
    + apply runs_step, wp_ret. apply Hret.
    + eapply runs_bind; [eapply (runs_notify _ (λ a _ s', s' = (s, mkOutside (files o) (wire o) a))); done|].
      intros a [] s' ->. by apply runs_ret.
Qed.

(** ** One round of work *)

(** The outcome of a round. *)
Definition worked i h o q (y : list Entry * list Z * A) (x : option INSTANCE) (s' : World) : Prop :=
  ∃ i', x = Some i' ∧ flushed i h o q y i' s'.

Lemma runs_react i i1 ret reads s o :
  same_port i i1 →
  runs (if ret =? -1 then indicate_error i1;; mret (Some i1)
        else if 0 <? ret then
          received ← receive MAX_RECEIVE_BYTES i1 [] reads;
          match received with [] => mret tt | _ => notify ((λ f, f received) <$> on_bytes_received i1) end;;
          mret (Some i1)
        else mret (Some i1))
    (react i ret reads (app o)) (λ a x s', x = Some i1 ∧ s' = (s, mkOutside (files o) (wire o) a)) (s, o).
Proof.
  intros (_ & _ & Ee & Eb)%same_port_fields. unfold react, indicate_error. rewrite <- Ee, <- Eb. destruct (ret =? -1).
  - rewrite (bind_some (call _ _)). eapply runs_bind; [eapply (runs_notify _ (λ a _ s', s' = (s, mkOutside (files o) (wire o) a))); done|].
    intros a [] s' ->. by apply runs_ret.
  - destruct (0 <? ret); [|apply runs_ret; by destruct o].
    pose proof (runs_receive reads MAX_RECEIVE_BYTES i1 [] s o (Nat.le_sub_l _ _)) as Hr.
    replace ('(received, error) ← gather [] reads;
             a ← (if error : bool then call (on_io_error i1) (app o) else Some (app o));
             match received with [] => Some a | _ => call ((λ f, f received) <$> on_bytes_received i1) a end)
      with (('(r, error) ← gather [] reads; a ← troubled i1 error (app o); Some (r, a)) ≫= λ y,
             match y.1 with [] => Some y.2 | _ => call ((λ f, f y.1) <$> on_bytes_received i1) y.2 end).
    2: { destruct (gather [] reads) as [[r error]|]; [|done]. cbn [mbind option_bind]. unfold troubled.
         by destruct (if error then _ else _). }
    eapply runs_bind; [exact Hr|]. intros [r a] x s' [-> ->]. cbn [fst snd].
    rewrite (bind_some (match r with [] => _ | _ => _ end)). eapply (runs_bind _ _ _ Some (λ a' _ s', s' = (s, mkOutside (files o) (wire o) a'))).
    + destruct r as [|b r]; [by apply runs_ret|]. by apply (runs_notify _ _ s (mkOutside (files o) (wire o) a)).
    + intros a' [] s' ->. by apply runs_ret.
Qed.

Lemma runs_dowork i st h o q writes ret left reads :
  port_is i ((st, h), o) q →
  runs (serialio_dowork FD_SETSIZE (Some i) writes ret left reads) (work i writes ret reads q (wire o) (app o))
    (worked i h o q) ((st, h), o).
Proof.
  intros [Hst Hfd Hf Hq]. cbn [fst snd] in *. unfold serialio_dowork, work. rewrite (bool_decide_true _ Hst). cbn [negb].
  apply runs_step, wp_on_store. eexists _, _. split; [reflexivity|]. assert (length q <= fuel (cells st))%nat as Hn.
  { destruct Hq as [[l Hl] _]. pose proof (listed_size _ _ _ _ Hl) as E. destruct Hl as [_ _ _ Hl].
    apply Forall2_length in Hl. rewrite length_fmap in Hl. unfold fuel. lia. }
  eapply runs_bind; [apply runs_send_pending; [done|done|lia]|].
  intros [[q' w'] a'] i1 s' (Hi & st1 & h1 & -> & Hq1 & Hu). destruct (same_port_fields _ _ Hi) as (Efd & Est & _ & _).
  rewrite (bool_decide_true (io_state i1 = _)) by congruence. cbn [negb]. apply runs_step. eapply wp_lift.
  { by rewrite Efd, (proj2 (Z.leb_le _ _)), (proj2 (Z.ltb_lt _ _)) by lia. }
  set (i2 := set_timeout left i1). assert (same_port i i2) as Hi2.
  { eapply same_port_trans; [exact Hi|apply same_timeout]. }
  eapply runs_map; [exact (runs_react i i2 ret reads (st1, h1) (mkOutside (files o) w' a') Hi2)|].
  intros a2 x s' [-> ->]. exists i2. split; [done|]. split; [done|]. by exists st1, h1.
Qed.

(** The port is open as before. *)
Lemma worked_port i st h o q y x s' : port_is i ((st, h), o) q → worked i h o q y x s' →
  ∃ i', x = Some i' ∧ same_port i i' ∧ port_is i' s' y.1.1 ∧ wire s'.2 = y.1.2 ∧ app s'.2 = y.2 ∧
    files s'.2 = files o ∧ used (queue_blocks y.1.1 - queue_blocks q) h s'.1.2.
Proof.
  intros [Hst Hfd Hf Hq] (i' & -> & H). destruct y as [[q' w'] a']. destruct H as (Hi & st' & h' & -> & Hq' & Hu).
  destruct (same_port_fields _ _ Hi) as (E1 & E2 & _ & _).
  exists i'. split_and!; try done. split; cbn [fst snd files] in *; [congruence|by rewrite E1|by rewrite E1|done].
Qed.

(** ** Sending *)

Lemma listed_absent st lst l (vs : list PENDING) b : listed st lst l vs → structs st !! b = None → b ∉ l.*2.
Proof.
  intros [_ _ _ Hs] Hb ([p x] & -> & Hx)%list_elem_of_fmap. apply list_elem_of_lookup in Hx as [j Ej].
  pose proof (Forall2_length _ _ _ Hs) as El. destruct (lookup_lt_is_Some_2 vs j) as [v Ev].
  { rewrite <- El. by eapply lookup_lt_Some. }
  pose proof (Forall2_lookup_lr _ _ _ _ _ _ Hs Ej Ev) as E. cbv beta in E. congruence.
Qed.

Lemma wp_add_pending_io i st h o q buffer off n cb (Q : status * INSTANCE → World → Prop) :
  queued st (pending_io_list i) q → sendable (take n (drop off buffer)) → (off + n <= length buffer)%nat →
  (∀ lst' st' h', queued st' lst' (q ++ [(take n (drop off buffer), cb)]) → used 3 h h' →
     Q (OK, set_pending lst' i) ((st', h'), o)) →
  (∀ lst' st' h', queued st' lst' q → used 0 h h' → ¬ plenty h → Q (FAILURE, set_pending lst' i) ((st', h'), o)) →
  wp (add_pending_io i buffer off n cb) Q ((st, h), o).
Proof.
  intros Hq Ht Hn HS HN. assert (i = set_pending (pending_io_list i) i) as Ei by by destruct i.
  apply wp_bind, wp_on_memory, wp_malloc_struct; intros h1 Hu1; cycle 1.
  { intros Hp. apply wp_ret. rewrite Ei. by apply HN. }
  apply wp_bind, wp_on_memory, wp_malloc; cycle 1.
  { intros h2 Hu2 Hp. apply wp_bind, wp_on_memory, wp_free_struct. intros h3 Hu3. apply wp_ret. rewrite Ei. apply HN; [done| |].
    - eapply used_trans; [exact Hu1|eapply used_trans; [exact Hu2|exact Hu3|done]|done].
    - intros Hpl. by apply Hp, Hu1. }
  intros blk h2 Hb Hu2. apply wp_bind. eapply wp_lift.
  { apply copy_to_spec; [lia|]. rewrite length_drop. lia. }
  apply wp_bind. eapply wp_lift; [done|].
  assert (splice 0 (take n (drop off buffer)) blk = take n (drop off buffer)) as ->.
  { unfold splice. rewrite (drop_ge blk); [by rewrite take_0, app_nil_r|]. rewrite length_take, length_drop. lia. }
  set (text := take n (drop off buffer)) in *. assert (length text = n) as El by (unfold text; rewrite length_take, length_drop; lia).
  replace (mkPending text n cb) with (pend (text, cb)) by (unfold pend; cbn [fst snd]; by rewrite El).
  destruct Hq as [[l Hl] Hq]. apply wp_bind, wp_on_store, wp_place. intros p Hp. set (st1 := mkStore _ _).
  pose proof (listed_absent _ _ _ _ _ Hl Hp) as Hpl. assert (listed st1 (pending_io_list i) l (pend <$> q)) as Hl1.
  { eapply (listed_same st); [done| |exact Hl]. intros b Hb'. unfold st1. cbn [structs]. apply lookup_insert_ne. by intros ->. }
  apply wp_bind, wp_on_store. eapply wp_list_add; [exact Hl1|unfold st1; apply lookup_insert_eq|exact Hpl| |].
  - intros lst' c p' h3 Hl3 Hu3. apply wp_ret, HS.
    + split; [exists (l ++ [(p', p)]); by rewrite fmap_app|]. apply Forall_app. split; [done|]. by constructor.
    + eapply used_trans; [exact Hu1|eapply used_trans; [exact Hu2|exact Hu3|done]|done].
  - intros h3 Hu3 Hp3. apply wp_bind. eapply wp_free_pending; [unfold st1; apply lookup_insert_eq|].
    intros h4 Hu4. apply wp_ret, HN.
    + split; [|done]. exists l. eapply (listed_same st1); [done| |exact Hl1]. intros b Hb'. cbn [structs].
      apply lookup_delete_ne. by intros ->.
    + eapply used_trans; [exact Hu1|eapply used_trans; [exact Hu2|eapply used_trans; [exact Hu3|exact Hu4|done]|done]|done].
    + intros Hpl'. by apply Hp3, Hu2, Hu1.
Qed.

(** What is left of the texts: [now] on the line, [later] in the queue. *)
Record sent_as (q : list Entry) (text : list Z) (cb : Callback) (w : Written) (now : list Z) (later : list Entry) : Prop := {
  sent_waiting : q ≠ [] → now = [] ∧ later = [(text, cb)];
  sent_now : q = [] → ∃ k, written w (length text) = Some k ∧ now = take k text ∧
    later = if (k =? length text)%nat then [] else [(drop k text, cb)] }.

Lemma wp_send i st h o q text cb w (Q : status * option INSTANCE → World → Prop) :
  port_is i ((st, h), o) q → sendable text → is_Some (finish cb (app o)) → w ≠ WriteError true →
  (∀ i' st' h' now later a', same_port i i' → sent_as q text cb w now later →
     port_is i' ((st', h'), mkOutside (files o) (wire o ++ now) a') (q ++ later) →
     used (queue_blocks (q ++ later) - queue_blocks q) h h' →
     Q (OK, Some i') ((st', h'), mkOutside (files o) (wire o ++ now) a')) →
  (∀ i' st' h' now, same_port i i' → (plenty h → now = []) →
     port_is i' ((st', h'), mkOutside (files o) (wire o ++ now) (app o)) q → used 0 h h' →
     Q (FAILURE, Some i') ((st', h'), mkOutside (files o) (wire o ++ now) (app o))) →
  wp (serialio_send (Some i) (Some text) (length text) cb w) Q ((st, h), o).
Proof.
  intros [Hst Hfd Hf Hq] Ht [a Ea] Hw HS HN. cbn [fst snd] in *. unfold serialio_send.
  rewrite (proj2 (Nat.eqb_neq _ _)) by by destruct Ht, text. rewrite (bool_decide_true _ Hst). cbn [negb].
  assert (∀ lst' st' h' q' w' a', queued st' lst' q' →
    port_is (set_pending lst' i) ((st', h'), mkOutside (files o) w' a') q') as Hport by by intros.
  destruct q as [|e q].
  - rewrite (queued_nil _ _ Hq). apply wp_bind, wp_bind, wp_write; [done|done|].
    destruct (written w (length text)) as [k|] eqn:Ew; cycle 1.
    { rewrite (proj2 (Z.eqb_neq (-1) _)) by lia. change (-1 =? INVALID_SERIAL_FD) with true. cbv iota.
      apply wp_ret, wp_ret. destruct w as [| |[]]; try done. cbn [is_again]. destruct o as [fs wr ap]; cbn [files wire app] in *.
      rewrite <- (app_nil_r wr). apply HN; [apply same_port_refl|done| |apply used_refl]. by split. }
    pose proof (written_le _ _ _ Ew) as Hk. destruct (Nat.eqb_spec k (length text)) as [->|Hne].
    + rewrite Z.eqb_refl. apply wp_bind. eapply wp_notify; [exact Ea|]. apply wp_ret, wp_ret. cbn [files wire app].
      apply (HS _ _ _ _ []); [apply same_port_refl| | |].
      * split; [done|]. intros _. exists (length text). by rewrite Nat.eqb_refl.
      * by split.
      * rewrite Z.sub_diag. apply used_refl.
    + rewrite (proj2 (Z.eqb_neq _ _)) by lia. rewrite (proj2 (Z.eqb_neq _ _)) by (unfold INVALID_SERIAL_FD; lia).
      rewrite Nat2Z.id. assert (take (length text - k) (drop k text) = drop k text) as Ed.
      { apply take_ge. rewrite length_drop. lia. }
      eapply wp_add_pending_io; [exact Hq| |lia| |]; rewrite ?Ed.
      * destruct Ht as [Hne' Hlen]. split; [|rewrite length_drop; lia]. intros E. apply (f_equal length) in E.
        rewrite length_drop in E. cbn in E. lia.
      * intros lst' st' h' Hq' Hu. apply wp_ret, (HS _ _ _ _ [(drop k text, cb)]); [apply same_pending| |by apply Hport|done].
        split; [done|]. intros _. exists k. by rewrite (proj2 (Nat.eqb_neq _ _)).
      * intros lst' st' h' Hq' Hu Hp. apply wp_ret, HN; [apply same_pending|done|by apply Hport|done].
  - destruct (queued_head _ _ _ _ Hq) as (p & b & l & -> & _). apply wp_bind. destruct o as [fs wr ap]; cbn [files wire app] in *.
    assert (take (length text) (drop 0 text) = text) as E by apply firstn_all.
    eapply wp_add_pending_io; [exact Hq| |done| |]; rewrite ?E; [done| |].
    + intros lst' st' h' Hq' Hu. apply wp_ret. rewrite <- (app_nil_r wr). apply (HS _ _ _ _ [(text, cb)]); [apply same_pending| |rewrite app_nil_r; by apply Hport|].
      * by split.
      * unfold queue_blocks. rewrite length_app. cbn [length]. replace (_ - _) with 3 by lia. done.
    + intros lst' st' h' Hq' Hu Hp. apply wp_ret. rewrite <- (app_nil_r wr). apply HN; [apply same_pending|done|rewrite app_nil_r; by apply Hport|done].
Qed.

(** ** The life of a port *)

Lemma array_text_cstr arr text n : cstr arr = Some text → array_text n arr = take n text.
Proof.
  revert text n. induction arr as [|c arr IH]; intros text n; cbn [cstr]; [done|].
  destruct (c =? 0) eqn:Ec; [intros [= <-]|].
  - destruct n; cbn [array_text take]; [done|by rewrite Ec].
  - destruct (cstr arr) as [rest|] eqn:E; [|done]. cbn. intros [= <-]. destruct n; cbn [array_text take]; [done|].
    by rewrite Ec, (IH rest).
Qed.

Lemma cstr_cstring arr text : cstr arr = Some text → cstring text.
Proof.
  revert text. induction arr as [|c arr IH]; intros text; cbn [cstr]; [done|].
  destruct (Z.eqb_spec c 0) as [_|Hc]; [by intros [= <-]; constructor|].
  destruct (cstr arr) as [rest|]; [|done]. cbn. intros [= <-]. constructor; [done|]. by apply IH.
Qed.

(** A port as it was created from a configuration, for the device [name]. *)
Record created (config : SERIALIO_CONFIG) (name : list Z) i : Prop := {
  created_fd : serial_fd i = INVALID_SERIAL_FD;
  created_state : io_state i = IO_STATE_CLOSED;
  created_name : cstr (interfaceName i) = Some name;
  created_baud : baudRate i = c_baudRate config;
  created_bits : dataBits i = c_dataBits config;
  created_parity : parity i = c_parity config;
  created_stop : stopBits i = c_stopBits config }.

Lemma wp_serial_create config name st h o (Q : option INSTANCE → World → Prop) :
  cstr (c_interfaceName config) = Some name → (length name < MAX_SIZE_OF_INTER_NAME)%nat → cells st = ∅ →
  (∀ i h', created config name i → queued st (pending_io_list i) [] → used 2 h h' → Q (Some i) ((st, h'), o)) →
  (∀ h', used 0 h h' → ¬ plenty h → Q None ((st, h'), o)) →
  wp (serialio_create (Some config)) Q ((st, h), o).
Proof.
  intros Hname Hlen Hst HS HN. apply wp_bind, wp_on_memory, wp_malloc; cycle 1.
  { intros h1 Hu1 Hp. by apply wp_ret, HN. }
  intros blk h1 Hblk Hu1. apply wp_bind, wp_on_store, wp_list_create; cycle 1.
  { intros h2 Hu2 Hp. apply wp_bind, wp_on_memory, wp_free_struct. intros h3 Hu3. apply wp_ret, HN.
    - eapply used_trans; [exact Hu1|eapply used_trans; [exact Hu2|exact Hu3|done]|done].
    - intros Hpl. by apply Hp, Hu1. }
  intros h2 Hu2. rewrite (array_text_cstr _ _ _ Hname), take_ge by lia.
  destruct (strncpy_short blk name MAX_SIZE_OF_INTER_NAME) as (arr & Earr & Hcstr & _); [by eapply cstr_cstring|lia|].
  apply wp_bind. eapply wp_lift; [exact Earr|]. apply wp_ret, HS.
  - by split.
  - split; [|constructor]. exists []. by apply listed_nil.
  - eapply used_trans; [exact Hu1|exact Hu2|done].
Qed.

(** The line is configured as the port was: raw, with the settings of [config]. *)
Record configured (config : SERIALIO_CONFIG) (t : termios) : Prop := {
  conf_speed : speed t = baud_rate (c_baudRate config);
  conf_bits : CSIZE t = data_bits (c_dataBits config);
  conf_stop : CSTOPB t = negb (c_stopBits config =? 1);
  conf_parity : PARENB t = negb (c_parity config =? 78) ∧ (PARENB t = true → PARODD t = negb (c_parity config =? 69));
  conf_reads : CREAD t = true ∧ CLOCAL t = true ∧ ICANON t = false ∧ ECHO t = false ∧ ISIG t = false ∧ IXON t = false ∧
    IXOFF t = false ∧ ICRNL t = false ∧ OPOST t = false ∧ VMIN t = 0 ∧ VTIME t = 1 }.

Lemma attributes_configured config name i t : created config name i → configured config (attributes i t).
Proof.
  intros [_ _ _ Eb Ed Ep Es]. split; cbn [attributes speed CSIZE CSTOPB PARENB PARODD].
  - by rewrite Eb.
  - by rewrite Ed.
  - by rewrite Es.
  - rewrite Ep. split; [done|]. by destruct (c_parity config =? 78).
  - done.
Qed.

(** The system grants the port: what [open] and the calls after it answer. *)
Definition granted (g : Opening) : bool :=
  (0 <=? o_open g) && o_isatty g && o_fcntl g && o_cfsetspeed g && o_tcsetattr g.

(** A descriptor is -1 or one that is free; none is too large for [select]. *)
Record proper (g : Opening) o : Prop := {
  proper_range : -1 <= o_open g < FD_SETSIZE;
  proper_free : files o !! o_open g = None }.

Lemma wp_open_failed i fd s o o1 ap (on_open : option (IO_OPEN_RESULT → A → option A)) (Q : status * option INSTANCE → World → Prop) :
  mkOutside (delete fd (files o1)) (wire o1) (app o1) = o →
  call ((λ f, f IO_OPEN_ERROR) <$> on_open) (app o) = Some ap →
  Q (FAILURE, Some (set_fd INVALID_SERIAL_FD i)) (s, mkOutside (files o) (wire o) ap) →
  wp (open_failed i fd) (λ x s', wp ((let '(result, i) := x in mret (result, Some i)) : Serial _)
    (λ x s', wp ((let '(result, serial_io) := x in
       notify ((λ f, f (match result with OK => IO_OPEN_OK | FAILURE => IO_OPEN_ERROR end)) <$> on_open);;
       mret (result, serial_io)) : Serial _) Q s') s') (s, o1).
Proof.
  intros Eo Eap HQ. apply wp_bind. exists tt. eexists. split; [reflexivity|]. rewrite Eo.
  apply wp_ret, wp_ret, wp_bind. eapply wp_notify; [exact Eap|]. by apply wp_ret.
Qed.

Lemma wp_open config name i st h o g on_open received error ap (Q : status * option INSTANCE → World → Prop) :
  created config name i → queued st (pending_io_list i) [] → proper g o →
  call ((λ f, f (if granted g then IO_OPEN_OK else IO_OPEN_ERROR)) <$> on_open) (app o) = Some ap →
  (∀ i' t, granted g = true → configured config t → serial_fd i' = o_open g → on_io_error i' = error →
     on_bytes_received i' = received →
     port_is i' ((st, h), mkOutside (<[o_open g := mkFile name (Some t)]> (files o)) (wire o) ap) [] →
     Q (OK, Some i') ((st, h), mkOutside (<[o_open g := mkFile name (Some t)]> (files o)) (wire o) ap)) →
  (∀ i', granted g = false → serial_fd i' = INVALID_SERIAL_FD → queued st (pending_io_list i') [] →
     Q (FAILURE, Some i') ((st, h), mkOutside (files o) (wire o) ap)) →
  wp (serialio_open (Some i) g on_open received error) Q ((st, h), o).
Proof.
  intros Hc Hq [Hm Hfree] Eap HS HN. pose proof (created_fd _ _ _ Hc) as Efd. unfold serialio_open.
  rewrite (bool_decide_true _ (created_state _ _ _ Hc)). unfold open_line. rewrite Efd, Z.eqb_refl. cbn [negb].
  apply wp_bind, wp_bind, wp_bind. eapply wp_lift; [exact (created_name _ _ _ Hc)|]. apply wp_bind, wp_bind.
  exists o. eexists. split; [done|]. apply wp_bind.
  set (o1 := if 0 <=? o_open g then mkOutside (<[o_open g := mkFile name None]> (files o)) (wire o) (app o) else o).
  exists tt, ((st, h), o1). split; [unfold o1; by destruct (0 <=? o_open g)|]. apply wp_ret.
  rewrite (proj2 (Z.ltb_ge (o_open g) _)) by (unfold INVALID_SERIAL_FD; lia).
  assert (mkOutside (delete (o_open g) (files o1)) (wire o1) (app o1) = o) as Eo.
  { destruct o as [fs wr ap0]. unfold o1. cbn [files wire app] in *. destruct (0 <=? o_open g); cbn [files wire app];
      [rewrite delete_insert_eq|]; by rewrite delete_id. }
  destruct (granted g) eqn:Eg; unfold granted in Eg.
  - rewrite !andb_true_iff in Eg. destruct Eg as [[[[E0 E1] E2] E3] E4]. rewrite E1, E0, E2, E3, E4. cbn [andb negb].
    assert (o1 = mkOutside (<[o_open g := mkFile name None]> (files o)) (wire o) (app o)) as Eo1 by (unfold o1; by rewrite E0).
    apply wp_bind, wp_bind. exists o1. eexists. split; [done|]. apply wp_bind. eapply wp_lift.
    { rewrite Eo1. cbn [files]. apply lookup_insert_eq. }
    exists tt. eexists. split; [reflexivity|]. rewrite Eo1. cbn [files wire app path]. rewrite insert_insert_eq.
    apply wp_ret, wp_ret, wp_bind. eapply wp_notify; [exact Eap|]. apply wp_ret. cbn [files wire app].
    apply HS; try done.
    + by eapply attributes_configured.
    + split; cbn [fst snd files]; try done; [|by rewrite lookup_insert_eq]. apply Z.leb_le in E0. cbn. lia.
  - assert (Q (FAILURE, Some (set_fd INVALID_SERIAL_FD i)) ((st, h), mkOutside (files o) (wire o) ap)) as HF by by apply HN.
    destruct (o_isatty g); cbn [andb negb] in *; [|by eapply wp_open_failed].
    destruct (0 <=? o_open g); cbn [andb negb] in *; [|by eapply wp_open_failed].
    destruct (o_fcntl g); cbn [andb negb] in *; [|by eapply wp_open_failed].
    destruct (o_cfsetspeed g); cbn [andb negb] in *; [|by eapply wp_open_failed].
    destruct (o_tcsetattr g); cbn [andb negb] in *; [done|by eapply wp_open_failed].
Qed.

Lemma wp_clear_pending n st lst q h o (Q : LIST_INSTANCE → World → Prop) :
  queued st lst q → (length q <= n)%nat →
  (∀ st' lst' h', queued st' lst' [] → used (- queue_blocks q) h h' → Q lst' ((st', h'), o)) →
  wp (clear_pending n lst) Q ((st, h), o).
Proof.
  revert st lst q h. induction n as [|n IH]; intros st lst q h Hq Hn HQ.
  all: destruct q as [|e q]; [cbn [clear_pending]; rewrite (queued_nil _ _ Hq); apply wp_ret, HQ; [done|apply used_refl]|cbn in Hn].
  { lia. }
  destruct (queued_head _ _ _ _ Hq) as (p & b & l & Ep & Hl & Eb & _). cbn [clear_pending]. rewrite Ep.
  apply wp_bind. eapply wp_pending_value; [exact Hl|]. apply wp_bind. eapply wp_free_pending; [exact Eb|]. intros h1 Hu1.
  apply wp_bind, wp_on_store. rewrite fmap_cons in Hl. eapply wp_list_remove; [exact Hl| |].
  - intros b' Hb'. apply lookup_delete_ne. intros <-. destruct Hl as [_ _ Hnd _]. by apply NoDup_cons in Hnd as [Hnd _].
  - intros lst' c h2 Hl' Hu2. apply (IH _ _ q); [|lia|].
    + split; [by eexists|]. destruct Hq as [_ Ht]. by apply Forall_cons in Ht as [_ Ht].
    + intros st' lst2 h3 Hq3 Hu3. apply HQ; [done|].
      eapply used_trans; [exact Hu1|eapply used_trans; [exact Hu2|exact Hu3|done]|]. unfold queue_blocks. cbn [length]. lia.
Qed.

Lemma wp_serial_destroy i st q h o (Q : unit → World → Prop) :
  queued st (pending_io_list i) q → serial_fd i = INVALID_SERIAL_FD →
  (∀ st' h', cells st' = ∅ → used (- queue_blocks q - 2) h h' → Q tt ((st', h'), o)) →
  wp (serialio_destroy (Some i)) Q ((st, h), o).
Proof.
  intros Hq Efd HQ. unfold serialio_destroy. rewrite Efd, Z.eqb_refl. apply wp_bind, wp_ret, wp_bind, wp_on_store.
  eexists _, _. split; [reflexivity|]. apply wp_bind. eapply wp_clear_pending; [exact Hq| |].
  { destruct Hq as [[l Hl] _]. pose proof (listed_size _ _ _ _ Hl) as E. destruct Hl as [_ _ _ Hl].
    apply Forall2_length in Hl. rewrite length_fmap in Hl. unfold fuel. lia. }
  intros st1 lst1 h1 [[l Hl] _] Hu1. apply wp_bind, wp_on_store. eapply wp_list_destroy; [exact Hl|]. intros h2 Hu2.
  apply wp_on_memory, wp_free_struct. intros h3 Hu3. apply HQ; [done|]. destruct Hl as [_ _ _ Hl].
  apply Forall2_nil_inv_r in Hl as ->. eapply used_trans; [exact Hu1|eapply used_trans; [exact Hu2|exact Hu3|done]|cbn; lia].
Qed.

Lemma wp_close i s o q on_close ap (Q : status * option INSTANCE → World → Prop) :
  port_is i (s, o) q → call on_close (app o) = Some ap →
  Q (OK, Some (set_state IO_STATE_CLOSED (set_fd INVALID_SERIAL_FD i))) (s, mkOutside (delete (serial_fd i) (files o)) (wire o) ap) →
  wp (serialio_close (Some i) on_close) Q (s, o).
Proof.
  intros [Hst _ _ _] Eap HQ. unfold serialio_close. rewrite Hst. apply wp_bind, wp_bind.
  exists tt. eexists. split; [reflexivity|]. apply wp_ret, wp_bind. eapply wp_notify; [exact Eap|]. by apply wp_ret.
Qed.
End serial.
