(* ===== verification/ChannelTheory.v ===== *)
(** * ChannelTheory: what the list of channels holds.

    [described] says what the JSON description of a channel means; a channel
    structure [matches] it.  The list is created exactly when all descriptions have
    a meaning and no allocation fails, and otherwise nothing is kept. *)
From S2P Require Import Prelude.
From S2P Require Import Effects.
From S2P Require Import Alloc.
From S2P Require Import CString.
From S2P Require Import Json.
From S2P Require Import SinglyLinkedList.
From S2P Require Import Registry.
From S2P Require Import ChannelModel.
From stdpp Require Import gmap strings.
#[local] Open Scope Z_scope.

Import Channel.

(** ** Meaning of a description *)

Record ChannelSpec := mkSpec {
  c_timeOut : Z; c_device : list Z; c_protoType : list Z; c_model : list Z;
  c_baudRate : Z; c_stopBit : Z; c_dataBit : Z; c_port : Z; c_host : list Z; c_serialID : list Z;
  c_portType : list Z; c_parity : Z }.

#[warnings="-notation-for-abbreviation"] Notation Object := (option (list (list Z * JSON))).

Definition number_of (o : Object) (name : list Z) : option Z := json_object_dotget_string o name ≫= atoi.
Definition text_of (o : Object) (name : list Z) : option (list Z) := json_object_dotget_string o name.

Definition parity_of (o : Object) : option Z :=
  text ← text_of o (str "parity");
  if bool_decide (text = str "NONE") then Some 78
  else if bool_decide (text = str "EVEN") then Some 69
  else if bool_decide (text = str "ODD") then Some 79 else None.

Definition described (o : Object) : option ChannelSpec :=
  timeOut ← number_of o (str "timeOut");
  device ← text_of o (str "dev");
  protoType ← text_of o (str "protoType");
  model ← text_of o (str "modeltype");
  port ← json_object_dotget_object o (str "port");
  baudRate ← number_of (Some port) (str "baudRate");
  stopBit ← number_of (Some port) (str "stopBit");
  dataBit ← number_of (Some port) (str "dataBit");
  number ← number_of (Some port) (str "port");
  host ← text_of (Some port) (str "ip");
  serialID ← text_of (Some port) (str "serialID");
  portType ← text_of (Some port) (str "portType");
  parity ← parity_of (Some port);
  Some (mkSpec timeOut device protoType model baudRate stopBit dataBit number host serialID portType parity).

(** Reading it is defined: a number is one, a port has a parity. *)
Definition numeric (o : Object) (name : list Z) : Prop :=
  match json_object_dotget_string o name with Some s => is_Some (atoi s) | None => True end.
Definition legible (o : Object) : Prop :=
  numeric o (str "timeOut") ∧
  match json_object_dotget_object o (str "port") with
  | None => True
  | Some port =>
      numeric (Some port) (str "baudRate") ∧ numeric (Some port) (str "stopBit") ∧
      numeric (Some port) (str "dataBit") ∧ numeric (Some port) (str "port") ∧ is_Some (text_of (Some port) (str "parity"))
  end.

(** [arr] has the first [n] characters of [text], filled up with zeroes, and one more
    byte. *)
Definition copied (n : nat) (text arr : list Z) : Prop :=
  length arr = S n ∧ take n arr = take n text ++ replicate (n - length text) 0.

(** A text that is shorter is the string in the array. *)
Lemma copied_cstr n text arr : copied n text arr → cstring text → (length text < n)%nat → cstr arr = Some text.
Proof.
  intros [Hl E] Hs Hn. rewrite <- (take_drop n arr), E, take_ge by lia.
  destruct (n - length text)%nat as [|k] eqn:Ek; [lia|]. cbn [replicate]. rewrite <- app_assoc. cbn [app].
  by apply cstr_terminated.
Qed.

Record matches (s : ChannelSpec) (c : CHANNEL_MODEL_INFO) : Prop := {
  m_timeOut : timeOut c = c_timeOut s;
  m_device : copied MAX_SIZE_OF_DEVICE_NAME (c_device s) (device c);
  m_protoType : copied MAX_SIZE_OF_PROTO_TYPE (c_protoType s) (protoType c);
  m_model : copied MAX_SIZE_OF_MODEL_TYPE (c_model s) (modelNmae c);
  m_numbers : baudRate (portOptions c) = c_baudRate s ∧ stopBit (portOptions c) = c_stopBit s ∧
    dataBit (portOptions c) = c_dataBit s ∧ port (portOptions c) = c_port s ∧ parity (portOptions c) = c_parity s;
  m_host : copied MAX_SIZE_OF_HOST (c_host s) (host (portOptions c));
  m_serialID : copied MAX_SIZE_OF_SERIAL_ID (c_serialID s) (serialID (portOptions c));
  m_portType : copied MAX_SIZE_OF_PORT_TYPE (c_portType s) (portType (portOptions c)) }.

(** ** Reading *)

(** The flag [error] collects what is missing. *)
Definition missing {X} (o : option X) : bool := negb (bool_decide (is_Some o)).

(** The value of a field is that of its description; [error] keeps a missing one. *)
Lemma read_int_spec o name old error :
  numeric o name →
  ∃ n, read_int o name old error = Some (n, error || missing (number_of o name)) ∧
    ∀ z, number_of o name = Some z → n = z.
Proof.
  unfold numeric, read_int, number_of. destruct (json_object_dotget_string o name) as [s|]; cbn [mbind option_bind].
  - intros [z Ez]. rewrite Ez. exists z. cbn. rewrite orb_false_r. split; [done|]. congruence.
  - intros _. exists old. rewrite orb_true_r. by split.
Qed.

Lemma strncpy_copied dst text n : length dst = S n → ∃ d, strncpy dst text n = Some d ∧ copied n text d.
Proof.
  intros Hl. unfold strncpy. rewrite (proj2 (Nat.leb_le _ _)) by lia. eexists. split; [done|].
  assert (length (take n text ++ replicate (n - length text) 0) = n) as Hn.
  { rewrite length_app, length_take, length_replicate. lia. }
  split.
  - rewrite app_assoc, length_app, Hn, length_drop. lia.
  - by rewrite app_assoc, take_app_length' by done.
Qed.

Lemma read_text_spec o name n old error :
  length old = S n →
  ∃ d, read_text o name n old error = Some (d, error || missing (text_of o name)) ∧
    ∀ t, text_of o name = Some t → copied n t d.
Proof.
  intros Hl. unfold read_text, text_of. destruct (json_object_dotget_string o name) as [s|].
  - destruct (strncpy_copied old s n Hl) as (d & -> & Hd). exists d. cbn. rewrite orb_false_r. split; [done|]. by intros t [= <-].
  - exists old. rewrite orb_true_r. by split.
Qed.

Lemma read_parity_spec o old error :
  is_Some (text_of o (str "parity")) →
  ∃ n, read_parity o old error = Some (n, error || missing (parity_of o)) ∧
    ∀ z, parity_of o = Some z → n = z.
Proof.
  intros [t Et]. unfold read_parity, parity_of. unfold text_of in *. rewrite Et, !bind_ret. unfold strequal.
  assert (∀ x, bool_decide (x = t) = bool_decide (t = x)) as Hsym by (intros x; by apply bool_decide_ext).
  rewrite !Hsym. repeat (destruct (bool_decide (t = _)); [eexists; rewrite orb_false_r; split; [done|congruence]|]).
  exists old. rewrite orb_true_r. by split.
Qed.

Definition port_of (o : Object) : option (Z * Z * Z * Z * list Z * list Z * list Z * Z) :=
  baudRate ← number_of o (str "baudRate"); stopBit ← number_of o (str "stopBit");
  dataBit ← number_of o (str "dataBit"); number ← number_of o (str "port");
  host ← text_of o (str "ip"); serialID ← text_of o (str "serialID"); portType ← text_of o (str "portType");
  parity ← parity_of o; Some (baudRate, stopBit, dataBit, number, host, serialID, portType, parity).

Definition port_matches (x : Z * Z * Z * Z * list Z * list Z * list Z * Z) (p : DEVICE_PORT_OPTION) : Prop :=
  let '(b, s, d, n, h, i, t, q) := x in
  (baudRate p = b ∧ stopBit p = s ∧ dataBit p = d ∧ port p = n ∧ parity p = q) ∧
  copied MAX_SIZE_OF_HOST h (host p) ∧ copied MAX_SIZE_OF_SERIAL_ID i (serialID p) ∧
  copied MAX_SIZE_OF_PORT_TYPE t (portType p).

(** One field after the other: its new value and what its absence adds to [error]. *)
Ltac field L :=
  let v := fresh "v" in let E := fresh "E" in let H := fresh "H" in
  destruct L as (v & E & H); rewrite E, bind_ret; clear E.

Lemma read_port_spec o p error :
  numeric o (str "baudRate") → numeric o (str "stopBit") → numeric o (str "dataBit") → numeric o (str "port") →
  is_Some (text_of o (str "parity")) →
  length (host p) = S MAX_SIZE_OF_HOST → length (serialID p) = S MAX_SIZE_OF_SERIAL_ID →
  length (portType p) = S MAX_SIZE_OF_PORT_TYPE →
  ∃ p', read_port o p error = Some (p', error || missing (port_of o)) ∧ ∀ x, port_of o = Some x → port_matches x p'.
Proof.
  intros N1 N2 N3 N4 Hpar L1 L2 L3. unfold read_port.
  field (read_int_spec o (str "baudRate") (baudRate p) error N1).
  field (read_int_spec o (str "stopBit") (stopBit p) (error || missing (number_of o (str "baudRate"))) N2).
  field (read_int_spec o (str "dataBit") (dataBit p)
    (error || missing (number_of o (str "baudRate")) || missing (number_of o (str "stopBit"))) N3).
  set (e3 := error || _ || _ || _).
  field (read_int_spec o (str "port") (port p) e3 N4).
  field (read_text_spec o (str "ip") MAX_SIZE_OF_HOST (host p) (e3 || missing (number_of o (str "port"))) L1).
  set (e5 := e3 || _ || _).
  field (read_text_spec o (str "serialID") MAX_SIZE_OF_SERIAL_ID (serialID p) e5 L2).
  field (read_text_spec o (str "portType") MAX_SIZE_OF_PORT_TYPE (portType p)
    (e5 || missing (text_of o (str "serialID"))) L3).
  set (e7 := e5 || _ || _).
  field (read_parity_spec o (parity p) e7 Hpar).
  eexists. split.
  - do 2 f_equal. unfold e7, e5, e3, missing, port_of. clear.
    destruct error; [by rewrite ?orb_true_l|]. cbn [orb].
    destruct (number_of o (str "baudRate")); [|done]. destruct (number_of o (str "stopBit")); [|done].
    destruct (number_of o (str "dataBit")); [|done]. destruct (number_of o (str "port")); [|done].
    destruct (text_of o (str "ip")); [|done]. destruct (text_of o (str "serialID")); [|done].
    destruct (text_of o (str "portType")); [|done]. by destruct (parity_of o).
  - intros x (b & Eb & (st & Es & (d & Ed & (n & En & (h & Eh & (i & Ei & (t & Et & (q & Eq & [= <-])%bind_Some)%bind_Some
      )%bind_Some)%bind_Some)%bind_Some)%bind_Some)%bind_Some)%bind_Some.
    cbn. split_and!; auto.
Qed.

Lemma read_channel_spec o blk :
  length blk = CHANNEL_SIZE → legible o →
  ∃ c, read_channel o (blank blk) false = Some (c, missing (described o)) ∧ ∀ s, described o = Some s → matches s c.
Proof.
  intros Hl [N1 Hp]. unfold read_channel.
  assert (∀ off n, (off + n < 284)%nat → length (take (n + 1) (drop off blk)) = S n) as Harr.
  { intros off n Hn. rewrite length_take, length_drop, Hl. unfold CHANNEL_SIZE. lia. }
  field (read_int_spec o (str "timeOut") (timeOut (blank blk)) false N1). cbn [orb].
  field (read_text_spec o (str "dev") MAX_SIZE_OF_DEVICE_NAME (device (blank blk)) (missing (number_of o (str "timeOut")))
    ltac:(apply Harr; unfold MAX_SIZE_OF_DEVICE_NAME; lia)).
  set (e2 := _ || _).
  field (read_text_spec o (str "protoType") MAX_SIZE_OF_PROTO_TYPE (protoType (blank blk)) e2
    ltac:(apply Harr; unfold MAX_SIZE_OF_PROTO_TYPE; lia)).
  field (read_text_spec o (str "modeltype") MAX_SIZE_OF_MODEL_TYPE (modelNmae (blank blk))
    (e2 || missing (text_of o (str "protoType"))) ltac:(apply Harr; unfold MAX_SIZE_OF_MODEL_TYPE; lia)).
  set (e4 := e2 || _ || _).
  assert (described o = (timeOut ← number_of o (str "timeOut"); device ← text_of o (str "dev");
    protoType ← text_of o (str "protoType"); model ← text_of o (str "modeltype");
    port ← json_object_dotget_object o (str "port");
    '(b, s, d, n, h, i, t, q) ← port_of (Some port);
    Some (mkSpec timeOut device protoType model b s d n h i t q))) as Ed.
  { unfold described, port_of. destruct (number_of o _), (text_of o (str "dev")), (text_of o (str "protoType")),
      (text_of o (str "modeltype")), (json_object_dotget_object o _) as [port|]; try done.
    rewrite !bind_ret. destruct (number_of (Some port) (str "baudRate")); [|done]. rewrite !bind_ret.
    destruct (number_of (Some port) (str "stopBit")); [|done]. rewrite !bind_ret.
    destruct (number_of (Some port) (str "dataBit")); [|done]. rewrite !bind_ret.
    destruct (number_of (Some port) (str "port")); [|done]. rewrite !bind_ret.
    destruct (text_of (Some port) (str "ip")); [|done]. rewrite !bind_ret.
    destruct (text_of (Some port) (str "serialID")); [|done]. rewrite !bind_ret.
    destruct (text_of (Some port) (str "portType")); [|done]. rewrite !bind_ret. by destruct (parity_of (Some port)). }
  rewrite Ed. destruct (json_object_dotget_object o (str "port")) as [port|].
  - destruct Hp as (Q1 & Q2 & Q3 & Q4 & Q5).
    destruct (read_port_spec (Some port) (portOptions (blank blk)) e4 Q1 Q2 Q3 Q4 Q5) as (p & -> & Hpm).
    1-3: apply Harr; unfold MAX_SIZE_OF_HOST, MAX_SIZE_OF_SERIAL_ID, MAX_SIZE_OF_PORT_TYPE; lia.
    rewrite bind_ret. eexists. split.
    + do 2 f_equal. unfold e4, e2, missing. clear.
      destruct (number_of o _); [|done]. destruct (text_of o (str "dev")); [|done].
      destruct (text_of o (str "protoType")); [|done]. destruct (text_of o (str "modeltype")); [|done].
      rewrite !bind_ret. destruct (port_of (Some port)) as [y|]; [|done]. by destruct y as [[[[[[[? ?] ?] ?] ?] ?] ?] ?].
    + intros s (t & Et & (d & Ede & (pr & Epr & (mo & Emo & (x & [= <-] & (y & Ey & Hs)%bind_Some)%bind_Some
        )%bind_Some)%bind_Some)%bind_Some)%bind_Some.
      specialize (Hpm y Ey). destruct y as [[[[[[[b st] da] n] h] i] ty] q]. injection Hs as <-.
      destruct Hpm as (Hn & Hh & Hi & Ht). split; cbn; auto.
  - rewrite bind_ret. eexists. split.
    + do 2 f_equal. destruct (number_of o _); [|done]. destruct (text_of o (str "dev")); [|done].
      destruct (text_of o (str "protoType")); [|done]. by destruct (text_of o (str "modeltype")).
    + intros s Es. destruct (number_of o _); [|done]. destruct (text_of o (str "dev")); [|done].
      destruct (text_of o (str "protoType")); [|done]. by destruct (text_of o (str "modeltype")).
Qed.

(** ** The list *)

#[warnings="-notation-for-abbreviation"] Notation Channels := (ST (Store CHANNEL_MODEL_INFO * Heap)).

(** The store has the channels [vs] and nothing else. *)
Record keeps_channels (st : Store CHANNEL_MODEL_INFO) lst l vs : Prop := {
  kept_listed : listed st lst l vs;
  kept_structs : dom (structs st) = list_to_set l.*2 }.

Lemma kept_empty st lst : keeps_channels st lst [] [] → st = mkStore ∅ ∅.
Proof.
  intros [[_ Hd _ _] Hs]. destruct st as [c s]. cbn in *. apply dom_empty_inv_L in Hd, Hs. by subst.
Qed.

Lemma wp_destroy_channels n st lst l vs (Q : LIST_INSTANCE → Store CHANNEL_MODEL_INFO * Heap → Prop) h :
  keeps_channels st lst l vs → (length l <= n)%nat →
  (∀ lst' st' h', keeps_channels st' lst' [] [] → used (-2 * Z.of_nat (length l)) h h' → Q lst' (st', h')) →
  wp (destroy_channels n lst) Q (st, h).
Proof.
  revert n st lst vs h. induction l as [|[p a] l IH]; intros n st lst vs h Hk Hn HQ.
  - pose proof (kept_listed _ _ _ _ Hk) as [[Eh _ _] _ _ Hs]. apply Forall2_nil_inv_l in Hs as ->. cbn in Eh.
    assert (destroy_channels n lst = mret lst) as ->.
    { destruct n; cbn [destroy_channels]; unfold singlylinkedlist_get_head_item; by rewrite bind_ret, Eh. }
    apply wp_ret, HQ; [done|apply used_refl].
  - destruct n as [|n]; [cbn in Hn; lia|]. destruct Hk as [Hl Hd].
    destruct (Hl) as [[(Eh & _) _ _] _ Hnd Hs]. cbn [fst snd] in Eh, Hnd. apply Forall2_cons_inv_l in Hs as (v & vs' & Ev & Hs & ->).
    apply NoDup_cons in Hnd as [Ha Hnd].
    cbn [destroy_channels]. unfold singlylinkedlist_get_head_item. rewrite bind_ret, Eh.
    apply wp_bind. eapply wp_list_value; [exact Hl|]. apply wp_bind. eapply wp_dispose; [exact Ev|]. intros h1 Hu1.
    apply wp_bind. eapply wp_list_remove; [exact Hl| |].
    { intros b Hb. apply lookup_delete_ne. by intros ->. }
    intros lst1 c h2 Hl1 Hu2. eapply IH; [split; [exact Hl1|]|cbn in Hn; lia|].
    + cbn. rewrite dom_delete_L, Hd. cbn. apply set_eq. intros b.
      rewrite elem_of_difference, elem_of_union, elem_of_singleton, !elem_of_list_to_set. set_solver.
    + intros lst' st' h' Hk' Hu'. apply HQ; [done|]. eapply used_trans; [exact Hu1| |].
      * eapply used_trans; [exact Hu2|exact Hu'|done].
      * cbn [length]. lia.
Qed.

Lemma wp_channel_info_list_destroy st lst l vs (Q : unit → Store CHANNEL_MODEL_INFO * Heap → Prop) h :
  keeps_channels st lst l vs →
  (∀ h', used (-1 - 2 * Z.of_nat (length l)) h h' → Q tt (mkStore ∅ ∅, h')) →
  wp (channel_info_list_destroy (Some lst)) Q (st, h).
Proof.
  intros Hk HQ. apply wp_bind. eexists _, _. split; [done|].
  apply wp_bind. eapply wp_destroy_channels; [exact Hk| |].
  { pose proof (kept_listed _ _ _ _ Hk) as [[Hs _ Hn] _ _ _]. pose proof (lseg_fuel _ _ _ _ Hs Hn). lia. }
  intros lst' st' h' Hk' Hu. eapply wp_list_destroy; [apply Hk'|]. intros h2 Hu2.
  rewrite (kept_empty _ _ Hk'). apply HQ. eapply used_trans; [exact Hu|exact Hu2|]. cbn. lia.
Qed.

Lemma wp_abandon_list st lst l vs (Q : option LIST_INSTANCE → Store CHANNEL_MODEL_INFO * Heap → Prop) h :
  keeps_channels st lst l vs →
  (∀ h', used (-1 - 2 * Z.of_nat (length l)) h h' → Q None (mkStore ∅ ∅, h')) → wp (abandon_list lst) Q (st, h).
Proof.
  intros Hk HQ. apply wp_bind. eapply wp_channel_info_list_destroy; [exact Hk|]. intros h' Hu. by apply wp_ret, HQ.
Qed.

(** The structure of an element of the body. *)
Definition object_of (j : JSON) : Object := json_value_get_object (Some j).
Definition means (j : JSON) (c : CHANNEL_MODEL_INFO) : Prop := ∃ s, described (object_of j) = Some s ∧ matches s c.

Lemma wp_create_channels n i body st lst l vs (Q : option LIST_INSTANCE → Store CHANNEL_MODEL_INFO * Heap → Prop) h :
  (n + i = length body)%nat → Forall (λ j, legible (object_of j)) body → keeps_channels st lst l vs →
  (∀ st' lst' l' vs' h', keeps_channels st' lst' (l ++ l') (vs ++ vs') → Forall2 means (drop i body) vs' →
     used (2 * Z.of_nat n) h h' → Q (Some lst') (st', h')) →
  (∀ h', used (-1 - 2 * Z.of_nat (length l)) h h' → (plenty h → Exists (λ j, described (object_of j) = None) body) →
     Q None (mkStore ∅ ∅, h')) →
  wp (create_channels n i body lst) Q (st, h).
Proof.
  intros Hn Hleg. revert i Hn st lst l vs h. induction n as [|n IH]; intros i Hn st lst l vs h Hk HS HN; cbn [create_channels].
  { apply wp_ret. apply (HS st lst [] [] h); [by rewrite !app_nil_r| |apply used_refl]. rewrite drop_ge by lia. constructor. }
  destruct (lookup_lt_is_Some_2 body i) as [j Ej]; [lia|].
  assert (json_array_get_object (Some body) i = object_of j) as -> by (unfold json_array_get_object; by rewrite bind_ret, Ej).
  pose proof (Forall_lookup_1 _ _ _ _ Hleg Ej) as Hlj. cbv beta in Hlj.
  apply wp_bind, wp_on_heap, wp_malloc; cycle 1.
  { intros h1 Hu1 Hp. eapply wp_abandon_list; [exact Hk|]. intros h2 Hu2. apply HN; [|done].
    eapply used_trans; [exact Hu1|exact Hu2|lia]. }
  intros blk h1 Hblk Hu1. destruct (read_channel_spec _ _ Hblk Hlj) as (c & Ec & Hc).
  apply wp_bind. eapply wp_lift; [exact Ec|]. unfold missing. destruct (described (object_of j)) as [s|] eqn:Es; cycle 1.
  { cbn. apply wp_bind, wp_on_heap, wp_free_struct. intros h2 Hu2. eapply wp_abandon_list; [exact Hk|]. intros h3 Hu3.
    apply HN; [eapply used_trans; [exact Hu1|eapply used_trans; [exact Hu2|exact Hu3|done]|lia]|].
    intros _. apply Exists_exists. exists j. split; [by eapply list_elem_of_lookup_2|done]. }
  rewrite bool_decide_true by by eexists. cbn [negb]. apply wp_bind, wp_place. intros a Ha.
  destruct Hk as [Hl Hd]. set (st1 := mkStore _ _).
  assert (a ∉ l.*2) as Hal.
  { intros Hin. assert (a ∈ dom (structs st)) as Hin2 by (rewrite Hd; by apply elem_of_list_to_set).
    apply elem_of_dom in Hin2 as [? E]. congruence. }
  assert (listed st1 lst l vs) as Hl1.
  { eapply listed_same; [| |exact Hl]; [done|]. intros b Hb. cbn. apply lookup_insert_ne. by intros ->. }
  assert (structs st1 !! a = Some c) as Ea by apply lookup_insert_eq.
  apply wp_bind. eapply wp_list_add; [exact Hl1|exact Ea|exact Hal| |].
  - intros lst2 cs p h2 Hl2 Hu2. eapply (IH (S i)); [lia| | |].
    + split; [exact Hl2|]. cbn. rewrite dom_insert_L, Hd, fmap_app, list_to_set_app_L. cbn.
      apply set_eq. intros b. set_solver.
    + intros st3 lst3 l3 vs3 h3 Hk3 Hm Hu3. apply (HS st3 lst3 ((p, a) :: l3) (c :: vs3)).
      * by rewrite <- !app_assoc in Hk3.
      * rewrite (drop_S _ _ _ Ej). constructor; [|done]. exists s. auto.
      * eapply used_trans; [exact Hu1|eapply used_trans; [exact Hu2|exact Hu3|done]|lia].
    + intros h3 Hu3 Hp3. apply HN; [|intros Hp; apply Hp3; apply Hu2, Hu1, Hp].
      rewrite length_app in Hu3. cbn in Hu3. eapply used_trans; [exact Hu1|eapply used_trans; [exact Hu2|exact Hu3|done]|lia].
  - intros h2 Hu2 Hp. apply wp_bind. eapply wp_dispose; [exact Ea|]. intros h3 Hu3.
    eapply wp_abandon_list; [split; [eapply listed_same; [| |exact Hl]|]|].
    + done.
    + intros b Hb. cbn. rewrite lookup_delete_ne, lookup_insert_ne by by intros ->. done.
    + cbn. rewrite delete_insert_id by done. exact Hd.
    + intros h4 Hu4. apply HN; [|intros Hp1; destruct Hp; by apply Hu1].
      eapply used_trans; [exact Hu1|eapply used_trans; [exact Hu2|eapply used_trans; [exact Hu3|exact Hu4|done]|done]|lia].
Qed.

(** The body of a message. *)
Definition body_of (json : option JSON) : option (list JSON) :=
  o ← json_value_get_object json; json_object_dotget_array (Some o) (str "body").

Lemma wp_channel_info_list_create json (Q : option LIST_INSTANCE → Store CHANNEL_MODEL_INFO * Heap → Prop) h :
  Forall (λ j, legible (object_of j)) (default [] (body_of json)) →
  (∀ body st' lst' l' vs' h', body_of json = Some body → keeps_channels st' lst' l' vs' → Forall2 means body vs' →
     used (1 + 2 * Z.of_nat (length body)) h h' → Q (Some lst') (st', h')) →
  (∀ h', used 0 h h' →
     (plenty h → match body_of json with None => True | Some body => Exists (λ j, described (object_of j) = None) body end) →
     Q None (mkStore ∅ ∅, h')) →
  wp (channel_info_list_create json) Q (mkStore ∅ ∅, h).
Proof.
  intros Hleg HS HN. unfold channel_info_list_create. unfold body_of in *.
  destruct (json_value_get_object json) as [o|]; [rewrite bind_ret in *|].
  2: { apply wp_ret, HN; [apply used_refl|done]. }
  destruct (json_object_dotget_array (Some o) (str "body")) as [body|].
  2: { apply wp_ret, HN; [apply used_refl|done]. }
  apply wp_bind, wp_list_create.
  - intros h1 Hu1. eapply (wp_create_channels (length body) 0 body (mkStore ∅ ∅) (mkList None None) [] []); [lia|done| | |].
    + split; [by apply listed_nil|]. cbn. by rewrite dom_empty_L.
    + intros st' lst' l' vs' h' Hk Hm Hu. eapply HS; [done|exact Hk|by rewrite drop_0 in Hm|].
      eapply used_trans; [exact Hu1|exact Hu|done].
    + intros h' Hu Hp. apply HN; [eapply used_trans; [exact Hu1|exact Hu|done]|]. intros Hp0. apply Hp. by apply Hu1.
  - intros h1 Hu1 Hp. apply wp_ret, HN; [done|]. by intros ?.
Qed.
