(* ===== verification/IotModbus.v ===== *)
(** * IotModbus: the Modbus driver of the agent.

    [iot_edge_agent/src/modbus.c] and the types of [modbus.h]: from the JSON model
    of a device to the descriptions the manager polls, and from a response to the
    JSON text that is published.  The Modbus master is [ModbusMaster]; the JSON
    library is [Json], its serialiser a parameter.

    A number of the model is an integer; one outside of [int] is undefined
    behaviour in the conversion. *)
From S2P Require Import Prelude.
From S2P Require Import Lightmodbus.
From S2P Require Import ModbusMaster.
From S2P Require Import CString.
From S2P Require Import Json.
From S2P Require Import Utils.
From S2P Require Import Printf.
From S2P Require Import SinglyLinkedList.
From S2P Require Import ProtocolManager.
From S2P Require Import Effects.
From S2P Require Import Driver.
From stdpp Require Import gmap strings.
#[local] Open Scope Z_scope.

Module Modbus.
(** ** Data ([modbus.h]) *)

Definition MAX_SIZE_OF_M : nat := 32.
Definition MAX_SIZE_OF_DF : nat := 8.
Definition MAX_SIZE_OF_MATH : nat := 32.
Definition MAX_SIZE_OF_MODE : nat := 32.
Definition MAX_SIZE_OF_DBTOPIC : nat := 64.

Record REGISTER_TAG := mkRegister {
  id : Z; big : Z; reg_address : Z; reg_m : list Z; df : list Z; math : list Z }.

(** [startTime] and [endTime] of a model. *)
Record Inv := mkInv { InvMons : Z; InvDays : Z; InvHous : Z; InvMins : Z }.

Record MODBUS_MODEL_INFO := mkModel {
  startInv : Inv; endInv : Inv; acqMode : list Z; DBTopic : list Z; acqInt : Z;
  fn : Z; devAddr : Z; regCount : Z; mRegister : list REGISTER_TAG }.

Abbreviation Op := (Driver MODBUS_MODEL_INFO Master.ModbusMaster).

(** ** The model ([parse_modbus_model_by_json]) *)

Abbreviation object := (option (list (list Z * JSON))).

(** [(int)json_object_dotget_number(o, name)] *)
Definition get_int (o : object) (name : list Z) : option Z :=
  let n := json_object_dotget_number o name in
  if (-2147483648 <=? n) && (n <? 2147483648) then Some n else None.

Definition get_inv (o : object) : option Inv :=
  mons ← get_int o (str "InvMons"); days ← get_int o (str "InvDays");
  hous ← get_int o (str "InvHous"); mins ← get_int o (str "InvMins");
  Some (mkInv mons days hous mins).

(** A text copied with [strncpy_s]; a missing one is the argument of [strlen]. *)
Definition get_text (blk : list Z) (size : nat) (o : object) (name : list Z) : option (list Z) :=
  s ← json_object_dotget_string o name;
  '(_, d) ← strncpy_s blk size (Some s);
  Some d.

(** One register; [blk] is its uninitialised memory. *)
Definition parse_register (blk : list Z) (o : object) : option REGISTER_TAG :=
  id ← get_int o (str "id");
  address ← get_int o (str "address");
  big ← get_int o (str "big");
  m ← get_text (take 33 blk) MAX_SIZE_OF_M o (str "m");
  df ← get_text (take 9 (drop 33 blk)) MAX_SIZE_OF_DF o (str "df");
  math ← get_text (take 33 (drop 42 blk)) MAX_SIZE_OF_MATH o (str "math");
  Some (mkRegister (u8 id) (u8 big) (u8 address) m df math).

Definition REGISTER_bytes : nat := 75.
Definition HEADER_bytes : nat := 98.

(** The registers, each in its part of the block. *)
Fixpoint parse_registers (blk : list Z) (l : list JSON) : option (list REGISTER_TAG) :=
  match l with
  | [] => Some []
  | v :: l =>
      r ← parse_register (take REGISTER_bytes blk) (json_value_get_object (Some v));
      rs ← parse_registers (drop REGISTER_bytes blk) l;
      Some (r :: rs)
  end.

Definition parse_modbus_model_by_json (json_object : object) : Op (option MODBUS_MODEL_INFO) :=
  match json_object_dotget_array json_object (str "regGrp") with
  | None | Some [] => mret None
  | Some reg_grp_arr =>
      blk ← malloc (HEADER_bytes + REGISTER_bytes * length reg_grp_arr);
      match blk with
      | None => mret None
      | Some blk =>
          lift (
            acqMode ← json_object_dotget_string json_object (str "acqMode");
            acqMode ← strncpy (take 33 blk) acqMode MAX_SIZE_OF_MODE;
            DBTopic ← json_object_dotget_string json_object (str "DBTopic");
            DBTopic ← strncpy (take 65 (drop 33 blk)) DBTopic MAX_SIZE_OF_DBTOPIC;
            startTime ← get_inv (json_object_dotget_object json_object (str "startTime"));
            endTime ← get_inv (json_object_dotget_object json_object (str "endTime"));
            acqInt ← get_int json_object (str "acqInt");
            fn ← get_int json_object (str "fn");
            devAddr ← get_int json_object (str "devAddr");
            mRegister ← parse_registers (drop HEADER_bytes blk) reg_grp_arr;
            Some (Some (mkModel startTime endTime acqMode DBTopic acqInt (u8 fn) (u8 devAddr)
                          (u16 (Z.of_nat (length reg_grp_arr))) mRegister)))
      end
  end.

(** ** Descriptions ([modbus_data_info_create]) *)

(** [a[i] = 1] *)
Definition set_slot (a : list Z) (i : Z) : option (list Z) :=
  if (0 <=? i) && (i <? Z.of_nat (length a)) then Some (<[Z.to_nat i := 1]> a) else None.

(** Every value, or one. *)
Definition mark (a : list Z) (i : Z) : option (list Z) :=
  if i =? -1 then Some (replicate (length a) 1) else set_slot a i.

(** The calendar in the uninitialised memory [blk]. *)
Definition make_calendar (blk : list Z) (v : Inv) : option Pm.Calendar :=
  mons ← mark (take 12 blk) (InvMons v);
  days ← mark (take 32 (drop 12 blk)) (InvDays v);
  hous ← mark (take 24 (drop 44 blk)) (InvHous v);
  mins ← set_slot (take 60 (drop 68 blk)) (InvMins v);
  Some (Pm.mkCalendar mons days hous mins).

(** The characters of an array, at most [n]. *)
Fixpoint cstrn (n : nat) (a : list Z) : list Z :=
  match n, a with
  | S n, c :: a => if c =? 0 then [] else c :: cstrn n a
  | _, _ => []
  end.

Definition CALENDAR_bytes : nat := 128.
Definition TIME_bytes : nat := 290.

(** The request of a model: only function codes 3 and 4 build one; the result of
    the builder is ignored, and registers are read from index 0 on. *)
Definition build_request_data (model_info : MODBUS_MODEL_INFO) : Op Pm.DATA_REQUEST :=
  ok ← malloc_ok;
  g ← get;
  g ← lift (if (fn model_info =? 3) || (fn model_info =? 4) then
              '(_, g) ← Master.modbusBuildRequest0304 ok g (fn model_info) (devAddr model_info)
                          0 (regCount model_info);
              Some g
            else Some g);
  _ ← put (Master.set_request_frame None g);
  mret (Pm.mkRequest (frame (Master.request g)) (length_ (Master.request g))
          (Master.predictedResponseLength g)).

(** The time record in the uninitialised memory [blk]. *)
Definition make_time (blk acqMode : list Z) (acqInt : Z) (startInv endInv : Inv)
    : option Pm.TIME_TO_SEND :=
  mode ← strncpy (take 33 blk) (cstrn MAX_SIZE_OF_MODE acqMode) MAX_SIZE_OF_MODE;
  startTime ← make_calendar (take CALENDAR_bytes (drop 33 blk)) startInv;
  endTime ← make_calendar (take CALENDAR_bytes (drop 161 blk)) endInv;
  isLastOne ← blk !! 289%nat;
  Some (Pm.mkTime mode 0 acqInt startTime endTime false (negb (isLastOne =? 0))).

(** Without memory for the time record, its [packetSendTime] is written through
    NULL. *)
Definition modbus_data_info_create (model_info : MODBUS_MODEL_INFO) : Op (option positive) :=
  ok ← malloc_ok;
  if negb ok then mret None
  else
  blk ← malloc TIME_bytes;
  match blk with
  | None => lift None
  | Some blk =>
      time_to_send ← lift (make_time blk (acqMode model_info) (acqInt model_info)
                             (startInv model_info) (endInv model_info));
      ok ← malloc_ok;
      if negb ok then mret None
      else
      data_request ← build_request_data model_info;
      a ← new_info (Pm.mkInfo (Some data_request) (Some time_to_send) (Some model_info));
      mret (Some a)
  end.

(** ** Initialisation and destruction *)

(** The loop over the models: [None] for [err = -1]. *)
Fixpoint init_loop (lst : LIST_INSTANCE) (json_array : list JSON) : Op (option LIST_INSTANCE) :=
  match json_array with
  | [] => mret (Some lst)
  | v :: json_array =>
      match json_value_get_object (Some v) with
      | None => init_loop lst json_array
      | Some modbus_object =>
          model_info ← parse_modbus_model_by_json (Some modbus_object);
          match model_info with
          | None => mret None
          | Some model_info =>
              data_info ← modbus_data_info_create model_info;
              match data_info with
              | None => mret None
              | Some data_info => lst ← add_item lst data_info; init_loop lst json_array
              end
          end
      end
  end.

(** After an error [modbus_destroy] is given a description whose list has not been
    set. *)
Definition modbus_init (json_array : list JSON) : Op (option LIST_INSTANCE) :=
  ok ← malloc_ok;
  if negb ok then mret None
  else
  g ← get;
  _ ← put (snd (Master.modbusMasterInit g));
  ok ← malloc_ok;
  match singlylinkedlist_create ok with
  | None => g ← get; _ ← put (snd (Master.modbusMasterEnd g)); mret None
  | Some modbus_list =>
      r ← init_loop modbus_list json_array;
      match r with
      | Some lst => mret (Some lst)
      | None => lift None
      end
  end.

(** The request of a description is freed, then the description. *)
Definition release (i : Pm.PM_DATA_INFO MODBUS_MODEL_INFO)
    : option (option (Pm.PM_DATA_INFO MODBUS_MODEL_INFO)) :=
  _ ← Pm.data_request i; Some None.

Definition modbus_destroy (handle : option LIST_INSTANCE) : Op unit :=
  match handle with
  | None => mret tt
  | Some lst => λ w,
      '(lst, w) ← free_items release (fuel (Pm.items (w_mem w))) lst w;
      h ← singlylinkedlist_destroy (Pm.items (w_mem w)) (Some lst);
      let g := Master.set_request_frame None (w_glob w) in
      Some (tt, mkWorld (Pm.mkMemory h (Pm.infos (w_mem w))) (snd (Master.modbusMasterEnd g)) (w_env w))
  end.

(** ** Responses *)

(** [fix_value_by_model]: the values are in tenths.  For other function codes the
    elements of the array stay uninitialised. *)
Fixpoint fix_value_by_model (ptr : list Z) (fn : Z) (register_group : list REGISTER_TAG)
    : option (list double) :=
  match register_group with
  | [] => Some []
  | r :: register_group =>
      if (fn =? 3) || (fn =? 4) then
        temp_u16 ← load16 ptr;
        let temp_u16 := if big r =? 0 then temp_u16 else reversebytes_uint16 temp_u16 in
        let x := if array_equal (df r) (str "u16") then temp_u16 else int16 temp_u16 in
        xs ← fix_value_by_model (drop 2 ptr) fn register_group;
        Some (double_div x 10 :: xs)
      else if (fn =? 1) || (fn =? 2) then
        temp_int8 ← ptr !! 0%nat;
        xs ← fix_value_by_model (drop 1 ptr) fn register_group;
        Some (double_div temp_int8 10 :: xs)
      else None
  end.

(** An element of the published body. *)
Definition register_json (r : REGISTER_TAG) (x : double) : option JSON :=
  name ← cstr (reg_m r);
  Some (JSONObject [(str "name", JSONString name);
                    (str "val", JSONString (snprintf 10 (format_2lf x)))]).

Fixpoint body_json (rs : list REGISTER_TAG) (xs : list double) : option (list JSON) :=
  match rs, xs with
  | r :: rs, x :: xs => v ← register_json r x; vs ← body_json rs xs; Some (v :: vs)
  | _, _ => Some []
  end.

Section response.
(** [json_serialize_to_string] *)
Context (serialize : JSON → list Z).

Definition payload_json (now : Z) (body : list JSON) : JSON :=
  JSONObject [(str "body", JSONArray body); (str "token", JSONString (str "077de87b3a04"));
              (str "timestamp", JSONString (snprintf 12 (dec now)))].

(** Without memory for the values they are read through NULL. *)
Definition construct_payload_by_model (model : MODBUS_MODEL_INFO) (data : option (list Z))
    : Op (option (list Z)) :=
  current_time ← time;
  ok ← malloc_ok;
  let registers := take (Z.to_nat (regCount model)) (mRegister model) in
  body ← lift (if (regCount model =? 0) then Some []
               else if negb ok then None
               else ptr ← data; xs ← fix_value_by_model ptr (fn model) registers; body_json registers xs);
  let res := serialize (payload_json current_time body) in
  ok ← malloc_ok;
  mret (if ok : bool then Some res else None).

Definition mosbus_response_parse (model : MODBUS_MODEL_INFO)
    (data_info : Pm.PM_DATA_INFO MODBUS_MODEL_INFO) (data_response : Pm.DATA_RESPONSE)
    : Op (option Pm.DATA_PAYLOAD) :=
  data_request ← lift (Pm.data_request data_info);
  g ← get;
  let g := Master.set_request (Pm.data data_request) (Pm.length_ data_request) g in
  let g := Master.set_response (Some (Pm.response_data data_response))
             (Pm.response_length data_response) g in
  ok ← malloc_ok;
  '(rc, g) ← lift (Master.modbusParseResponse ok g);
  _ ← put g;
  if decide (rc = MODBUS_ERROR_OK) then
    res ← lift (match Master.data_type (Master.data g) with
                | Some _ => Some (Master.buffer (Master.data g))
                | None => None
                end);
    blk ← malloc 65;
    match blk with
    | None => mret None
    | Some blk =>
        payload ← construct_payload_by_model model res;
        topic ← lift (strncpy blk (cstrn 64 (DBTopic model)) 64);
        mret (Some (Pm.mkPayload payload topic))
    end
  else mret None.

(** [modbus_interface_description] *)
Definition modbus_interface_description
    : Pm.INTER_DESCRIPTION MODBUS_MODEL_INFO (Master.ModbusMaster * Env) :=
  Pm.mkInterface
    (λ m g json_array, run_driver (modbus_init json_array) m g)
    (λ m g handle, '(m, g, _) ← run_driver (modbus_destroy handle) m g; Some (m, g))
    (λ g model i resp,
       '(_, g, p) ← run_driver (mosbus_response_parse model i resp) (Pm.mkMemory ∅ ∅) g;
       Some (g, p)).
End response.
End Modbus.
