(* ===== verification/IotDlt698.v ===== *)
(** * IotDlt698: the DL/T 698.45 driver of the agent.

    [iot_edge_agent/src/dlt_698.c], the types of [dlt_698.h] and
    [get_current_json_time] of [utils.c].  The protocol is [Dlt698], the
    schedule of a description is made like that of the Modbus driver
    ([Modbus.make_time]: the two C functions have the same text).

    Parameters: the JSON serialiser, and the text of a reading
    ([value_text math temp] is what [sprintf] makes of [temp * pow(10, math)]). *)
From S2P Require Import Prelude.
From S2P Require Import CString.
From S2P Require Import Json.
From S2P Require Import Utils.
From S2P Require Import Printf.
From S2P Require Import Dlt698.
From S2P Require Import SinglyLinkedList.
From S2P Require Import ProtocolManager.
From S2P Require Import Effects.
From S2P Require Import Driver.
From S2P Require Import IotModbus.
From stdpp Require Import gmap strings.
#[local] Open Scope Z_scope.

(** The text of the current time in seconds. *)
Definition get_current_json_time (now : Z) : list Z := snprintf 12 (dec now).

(** ** Scanning *)

Definition hex_value (c : Z) : option Z :=
  if (48 <=? c) && (c <=? 57) then Some (c - 48)
  else if (65 <=? c) && (c <=? 70) then Some (c - 55)
  else if (97 <=? c) && (c <=? 102) then Some (c - 87)
  else None.

(** [%02hhx]: white space, then at most two characters, a sign and a digit or one
    or two digits; [None] when they do not match (also for a prefix [0x] that no
    digit can follow). *)
Definition scan_hex (s : list Z) : option (Z * list Z) :=
  match skip_space s with
  | 43 :: c :: s => v ← hex_value c; Some (v, s)
  | 45 :: c :: s => v ← hex_value c; Some (u8 (- v), s)
  | c :: s =>
      v ← hex_value c;
      match s with
      | d :: s' =>
          if (c =? 48) && ((d =? 120) || (d =? 88)) then None
          else match hex_value d with
               | Some w => Some (16 * v + w, s')
               | None => Some (v, s)
               end
      | [] => Some (v, [])
      end
  | [] => None
  end.

(** [sscanf(s, "%02hhx%02hhx...", &a[0], &a[1], ...)]: the first conversion that
    fails ends it. *)
Fixpoint scan_bytes (a s : list Z) : list Z :=
  match a with
  | [] => []
  | _ :: a' => match scan_hex s with
               | Some (v, s) => v :: scan_bytes a' s
               | None => a
               end
  end.

Module Dlt.
(** ** Data ([dlt_698.h]) *)

Record ACQFILE_TAG := mkAcqFile {
  id : Z; big : Z; oad : list Z; addr : list Z; acq_m : list Z; math : list Z }.

Record DLT698_MODEL_INFO := mkModel {
  startInv : Modbus.Inv; endInv : Modbus.Inv; acqMode : list Z; DBTopic : list Z;
  acqInt : Z; acqFile : ACQFILE_TAG }.

(** The global variable is the static [Buffer] of the protocol library. *)
Abbreviation Op := (Driver DLT698_MODEL_INFO (list Z)).
Abbreviation object := (option (list (list Z * JSON))).

(** ** The model ([parse_dlt698_model_by_json])

    Every part of the model is read, whatever is missing; the inner [None] is
    [error = __FAILURE__]. *)

Definition parse_text (blk : list Z) (s : option (list Z)) (n : nat) : option (option (list Z)) :=
  match s with
  | None => Some None
  | Some s => d ← strncpy blk s n; Some (Some d)
  end.

Definition parse_inv (o : object) : option (option Modbus.Inv) :=
  match o with
  | None => Some None
  | Some _ => v ← Modbus.get_inv o; Some (Some v)
  end.

Definition parse_interval (o : object) : option (option Z) :=
  if json_object_dotget_number o (str "acqInt") =? 0 then Some None
  else v ← Modbus.get_int o (str "acqInt"); Some (Some v).

Definition parse_bytes (a : list Z) (s : option (list Z)) : option (list Z) :=
  s ← s; Some (scan_bytes a s).

(** [blk]: the uninitialised bytes of [m], [math], [oad] and [addr]. *)
Definition parse_acq_file (blk : list Z) (acq_file : object) : option (option ACQFILE_TAG) :=
  match acq_file with
  | None => Some None
  | Some _ =>
      id ← Modbus.get_int acq_file (str "id");
      big ← Modbus.get_int acq_file (str "big");
      m ← parse_text (take 33 blk) (json_object_dotget_string acq_file (str "m")) 32;
      math ← parse_text (take 33 (drop 33 blk)) (json_object_dotget_string acq_file (str "math")) 32;
      let oad := parse_bytes (take 4 (drop 66 blk)) (json_object_dotget_string acq_file (str "oad")) in
      let addr := parse_bytes (take 6 (drop 70 blk)) (json_object_dotget_string acq_file (str "addr")) in
      Some (m ← m; math ← math; oad ← oad; addr ← addr;
            Some (mkAcqFile (u8 id) (u8 big) oad addr m math))
  end.

Definition MODEL_bytes : nat := 174.

Definition parse_dlt698_model_by_json (json_object : object) : Op (option DLT698_MODEL_INFO) :=
  blk ← malloc MODEL_bytes;
  match blk with
  | None => mret None
  | Some blk =>
      lift (
        acqInt ← parse_interval json_object;
        acqMode ← parse_text (take 33 blk) (json_object_dotget_string json_object (str "acqMode")) 32;
        DBTopic ← parse_text (take 65 (drop 33 blk)) (json_object_dotget_string json_object (str "DBTopic")) 64;
        startTime ← parse_inv (json_object_dotget_object json_object (str "startTime"));
        endTime ← parse_inv (json_object_dotget_object json_object (str "endTime"));
        acqFile ← parse_acq_file (drop 98 blk) (json_object_dotget_object json_object (str "AcqFile"));
        Some (acqInt ← acqInt; acqMode ← acqMode; DBTopic ← DBTopic; startTime ← startTime;
              endTime ← endTime; acqFile ← acqFile;
              Some (mkModel startTime endTime acqMode DBTopic acqInt acqFile)))
  end.

(** ** Descriptions ([dlt698_data_create]) *)

(** Without memory for the time record or for the packet, NULL is dereferenced;
    [predictedResponseLength] is never set. *)
Definition dlt698_data_create (model_info : DLT698_MODEL_INFO) : Op (option positive) :=
  ok ← malloc_ok;
  if negb ok then mret None
  else
  blk ← malloc Modbus.TIME_bytes;
  match blk with
  | None => lift None
  | Some blk =>
      time_to_send ← lift (Modbus.make_time blk (acqMode model_info) (acqInt model_info)
                             (startInv model_info) (endInv model_info));
      blk ← malloc 4;
      match blk with
      | None => mret None
      | Some blk =>
          predicted ← lift (load32 blk);
          fresh ← malloc MAX_SIZE_OF_PACKET_DATA;
          Buffer ← get;
          '(Buffer, dlt698_packet) ← lift (dlt698_packet_build fresh Buffer
            (Some (oad (acqFile model_info))) (Some (addr (acqFile model_info))));
          _ ← put Buffer;
          match dlt698_packet with
          | None => lift None
          | Some p =>
              a ← new_info (Pm.mkInfo (Some (Pm.mkRequest (Some (pk_data p)) (pk_length p) predicted))
                              (Some time_to_send) (Some model_info));
              mret (Some a)
          end
      end
  end.

(** ** Initialisation and destruction *)

(** The loop over the models; the boolean is [err == 0].  Without a description,
    the model of the NULL description is written. *)
Fixpoint dlt_init_loop (dlt698_data_list : LIST_INSTANCE) (json_array : list JSON)
    : Op (LIST_INSTANCE * bool) :=
  match json_array with
  | [] => mret (dlt698_data_list, true)
  | v :: json_array =>
      match json_value_get_object (Some v) with
      | None => dlt_init_loop dlt698_data_list json_array
      | Some dlt698_object =>
          model_info ← parse_dlt698_model_by_json (Some dlt698_object);
          match model_info with
          | None => mret (dlt698_data_list, false)
          | Some model_info =>
              dlt698_data ← dlt698_data_create model_info;
              match dlt698_data with
              | None => lift None
              | Some dlt698_data =>
                  lst ← add_item dlt698_data_list dlt698_data; dlt_init_loop lst json_array
              end
          end
      end
  end.

Definition empty_list (lst : LIST_INSTANCE) : Op unit := λ w,
  h ← singlylinkedlist_destroy (Pm.items (w_mem w)) (Some lst);
  Some (tt, mkWorld (Pm.mkMemory h (Pm.infos (w_mem w))) (w_glob w) (w_env w)).

(** Only the models are freed: requests and time records stay allocated. *)
Definition dlt698_model_info_destroy (dlt698_data_list : LIST_INSTANCE) : Op unit := λ w,
  '(lst, w) ← free_items
    (λ i, Some (Some (Pm.mkInfo (Pm.data_request i) (Pm.time_to_send i) None)))
    (fuel (Pm.items (w_mem w))) dlt698_data_list w;
  empty_list lst w.

Definition dlt698_init (json_array : list JSON) : Op (option LIST_INSTANCE) :=
  ok ← malloc_ok;
  if negb ok then mret None
  else
  ok ← malloc_ok;
  match singlylinkedlist_create ok with
  | None => mret None
  | Some dlt698_data_list =>
      '(lst, good) ← dlt_init_loop dlt698_data_list json_array;
      if good : bool then mret (Some lst)
      else _ ← dlt698_model_info_destroy lst; mret None
  end.

Definition dlt_release (i : Pm.PM_DATA_INFO DLT698_MODEL_INFO)
    : option (option (Pm.PM_DATA_INFO DLT698_MODEL_INFO)) :=
  _ ← Pm.data_request i; Some None.

Definition dlt698_destroy (handle : option LIST_INSTANCE) : Op unit :=
  match handle with
  | None => mret tt
  | Some lst => λ w,
      '(lst, w) ← free_items dlt_release (fuel (Pm.items (w_mem w))) lst w; empty_list lst w
  end.

(** ** Responses *)

Section response.
Context (serialize : JSON → list Z) (value_text : Z → Z → list Z).

(** The loop over the data of a response; [res] keeps the text of the last
    array. *)
Fixpoint dlt_body_json (units : list DATA_UNIT) (m res : list Z) (math : Z) : option (list JSON) :=
  match units with
  | [] => Some []
  | u :: units =>
      ptr ← ucPtr u;
      res ← convert_to_string_float (value_text math) ptr res;
      name ← cstr m;
      val ← cstr res;
      vs ← dlt_body_json units m res math;
      Some (JSONObject [(str "name", JSONString name); (str "val", JSONString val)] :: vs)
  end.

Definition dlt_payload_json (now : Z) (realtime : bool) (body : list JSON) : JSON :=
  JSONObject ([(str "timestamp", JSONString (get_current_json_time now));
               (str "token", JSONString (str "077de87b3a04"))] ++
              (if realtime then [(str "data_raw", JSONString (str "single"))] else []) ++
              [(str "body", JSONArray body)]).

Definition dlt698_response_parse (dlt698_model : DLT698_MODEL_INFO)
    (data_info : Pm.PM_DATA_INFO DLT698_MODEL_INFO) (data_response : Pm.DATA_RESPONSE)
    : Op (option Pm.DATA_PAYLOAD) :=
  c ← lift (dlt698_response_analy (Pm.response_data data_response) (Pm.response_length data_response));
  now ← time;
  math ← lift (s ← cstr (math (acqFile dlt698_model)); atoi s);
  body ← lift (dlt_body_json (take (Z.to_nat (ucDataNum c)) (stDataUnit c))
                 (acq_m (acqFile dlt698_model)) (replicate 32 0) math);
  let json_string :=
    serialize (dlt_payload_json now (array_equal (acqMode dlt698_model) (str "realtime")) body) in
  blk ← malloc 65;
  match blk with
  | None => mret None
  | Some blk =>
      ok ← malloc_ok;
      if negb ok then mret None
      else
      topic ← lift (strncpy blk (Modbus.cstrn 64 (DBTopic dlt698_model)) 64);
      mret (Some (Pm.mkPayload (Some json_string) topic))
  end.

(** [dlt698_interface_description] *)
Definition dlt698_interface_description : Pm.INTER_DESCRIPTION DLT698_MODEL_INFO (list Z * Env) :=
  Pm.mkInterface
    (λ m g json_array, run_driver (dlt698_init json_array) m g)
    (λ m g handle, '(m, g, _) ← run_driver (dlt698_destroy handle) m g; Some (m, g))
    (λ g model i resp,
       '(_, g, p) ← run_driver (dlt698_response_parse model i resp) (Pm.mkMemory ∅ ∅) g;
       Some (g, p)).
End response.
End Dlt.
