(* ===== verification/IotMain.v ===== *)
(** * IotMain: the sending thread of a channel.

    [send_resquest_thread] of [iot_edge_agent/src/iot_main.c] with the callbacks
    its [xio_dowork] invokes, one iteration of the loop at a time.  An iteration
    takes what the outside decides: the callbacks that [xio_dowork] runs, the
    tick counter, the clock.  What the thread does to the outside is recorded in
    [trace], the most recent event first.

    Ticks are unsigned integers of an implementation-defined width: [W] is their
    modulus.  [localtime] is the C library's conversion. *)
From S2P Require Import Prelude.
From S2P Require Import CString.
From S2P Require Import SinglyLinkedList.
From S2P Require Import ProtocolManager.
From stdpp Require Import gmap strings.
#[local] Open Scope Z_scope.

(** [struct tm], the fields the thread reads. *)
Record tm := mkTm { tm_min : Z; tm_hour : Z; tm_mday : Z; tm_mon : Z }.

(** What can be seen of the thread from outside. *)
Inductive output :=
  | Sent (tick : Z) (info : positive) (request : Pm.DATA_REQUEST)
  | Got (bytes : list Z)
  | Published (p : Pm.DATA_PAYLOAD).

(** The callbacks of the channel. *)
Inductive io_event :=
  | BytesReceived (malloc_ok : bool) (buffer : list Z)
  | IoError.

(** [PM_CHANNEL_MAP]: the fields the thread and the callbacks use. *)
Record PM_CHANNEL_MAP (M G : Type) := mkMap {
  pm_handle : option (Pm.PM_INSTANCE M G);
  task_stop : bool;
  task_lock : bool;
  time_out_count : Z;
  key_word : list Z }.
#[global] Arguments mkMap {M G} _ _ _ _ _.
#[global] Arguments pm_handle {M G} _.
#[global] Arguments task_stop {M G} _.
#[global] Arguments task_lock {M G} _.
#[global] Arguments time_out_count {M G} _.
#[global] Arguments key_word {M G} _.

(** The thread: the map, the shared memory, the globals of the driver, the local
    variable [last_send_tick] ([None]: uninitialised), the outputs so far. *)
Record Thread (M G : Type) := mkThread {
  map : PM_CHANNEL_MAP M G;
  mem : Pm.Memory M;
  glob : G;
  last_send_tick : option Z;
  trace : list output }.
#[global] Arguments mkThread {M G} _ _ _ _ _.
#[global] Arguments map {M G} _.
#[global] Arguments mem {M G} _.
#[global] Arguments glob {M G} _.
#[global] Arguments last_send_tick {M G} _.
#[global] Arguments trace {M G} _.

Section thread.
Context {M G : Type} (W : Z) (localtime : Z → tm).
Implicit Types (c : PM_CHANNEL_MAP M G) (s : Thread M G).

Definition set_handle h c : PM_CHANNEL_MAP M G :=
  mkMap (Some h) (task_stop c) (task_lock c) (time_out_count c) (key_word c).
Definition set_stop b c : PM_CHANNEL_MAP M G :=
  mkMap (pm_handle c) b (task_lock c) (time_out_count c) (key_word c).
Definition set_lock b c : PM_CHANNEL_MAP M G :=
  mkMap (pm_handle c) (task_stop c) b (time_out_count c) (key_word c).
Definition set_count n c : PM_CHANNEL_MAP M G :=
  mkMap (pm_handle c) (task_stop c) (task_lock c) n (key_word c).

Definition set_map c s : Thread M G :=
  mkThread c (mem s) (glob s) (last_send_tick s) (trace s).
Definition set_mem m s : Thread M G :=
  mkThread (map s) m (glob s) (last_send_tick s) (trace s).
Definition set_glob g s : Thread M G :=
  mkThread (map s) (mem s) g (last_send_tick s) (trace s).
Definition set_last_tick t s : Thread M G :=
  mkThread (map s) (mem s) (glob s) (Some t) (trace s).
Definition emit o s : Thread M G :=
  mkThread (map s) (mem s) (glob s) (last_send_tick s) (o :: trace s).

(** ** The callbacks *)

(** The response is handed to the manager; a payload without text would be
    dereferenced. *)
Definition on_io_bytes_received (malloc_ok : bool) (buffer : list Z) s : option (Thread M G) :=
  match buffer with
  | [] => Some s
  | _ =>
      let s := emit (Got buffer) s in
      let s := set_map (set_count 0 (set_lock false (map s))) s in
      match pm_handle (map s) with
      | None => Some s
      | Some handle =>
          if negb malloc_ok then Some s
          else
          '(g, data_payload) ← Pm.data_response_parse (mem s) (glob s) handle
            (Pm.mkResponse buffer (u8 (Z.of_nat (length buffer))));
          let s := set_glob g s in
          match data_payload with
          | None => Some s
          | Some p => _ ← Pm.payload p; Some (emit (Published p) s)
          end
      end
  end.

Definition on_io_error s : Thread M G := set_map (set_stop true (map s)) s.

Fixpoint xio_dowork (events : list io_event) s : option (Thread M G) :=
  match events with
  | [] => Some s
  | BytesReceived malloc_ok buffer :: events =>
      s ← on_io_bytes_received malloc_ok buffer s; xio_dowork events s
  | IoError :: events => xio_dowork events (on_io_error s)
  end.

(** ** Sending *)

(** [(a - b) / 1000 > n] on ticks; [n] is an [int]. *)
Definition elapsed (a b n : Z) : bool := n mod W <? (a - b) mod W / 1000.

Definition set_sent (tick : Z) (t : Pm.TIME_TO_SEND) : Pm.TIME_TO_SEND :=
  Pm.mkTime (Pm.acqMode t) tick (Pm.acqInt t) (Pm.startTime t) (Pm.endTime t)
    (Pm.freezing t) (Pm.isLastOne t).
Definition set_freezing (b : bool) (t : Pm.TIME_TO_SEND) : Pm.TIME_TO_SEND :=
  Pm.mkTime (Pm.acqMode t) (Pm.packetSendTime t) (Pm.acqInt t) (Pm.startTime t) (Pm.endTime t)
    b (Pm.isLastOne t).

(** [data_resquest = get_request_data(pm_handle); xio_send(...)]; the result of
    [xio_send] is only logged. *)
Definition send_request (current_tick : Z) (a : positive) s : option (Thread M G) :=
  handle ← pm_handle (map s);
  '(handle, data_resquest) ← Pm.get_request_data (mem s) handle;
  r ← data_resquest;
  Some (emit (Sent current_tick a r) (set_map (set_handle handle (map s)) s)).

(** Does the calendar contain the minute of the given time? *)
Definition in_calendar (c : Pm.Calendar) (time_info : tm) : option bool :=
  mi ← Pm.Mins c !! Z.to_nat (tm_min time_info);
  if mi =? 0 then Some false else
  ho ← Pm.Hous c !! Z.to_nat (tm_hour time_info);
  if ho =? 0 then Some false else
  da ← Pm.Days c !! Z.to_nat (tm_mday time_info);
  if da =? 0 then Some false else
  mo ← Pm.Mons c !! Z.to_nat (tm_mon time_info);
  Some (negb (mo =? 0)).

(** [temp_time = current_time - current_time % 60; temp_time >= current_time] *)
Definition whole_minute (current_time : Z) : option Z :=
  let temp_time := current_time - Z.rem current_time 60 in
  if current_time <=? temp_time then Some temp_time else None.

(** Acquisition mode ["realtime"]. *)
Definition realtime (a : positive) (send_time : Pm.TIME_TO_SEND) (current_tick : Z) s
    : option (Thread M G) :=
  if elapsed current_tick (Pm.packetSendTime send_time) (Pm.acqInt send_time) then
    if negb (task_lock (map s)) then
      s ← send_request current_tick a s;
      let s := set_last_tick current_tick (set_map (set_lock true (map s)) s) in
      m ← Pm.store_time a (set_sent current_tick send_time) (mem s);
      Some (set_mem m s)
    else
      last ← last_send_tick s;
      if elapsed current_tick last 2 then
        let c := set_lock false (map s) in
        let c := set_count (time_out_count c + 1) c in
        let c := if 5 <=? time_out_count c then set_stop true c else c in
        Some (set_map c s)
      else Some s
  else Some s.

(** Sets and clears [freezing] at the start and the end times. *)
Definition update_freezing (current_time : Z) (send_time : Pm.TIME_TO_SEND)
    : option Pm.TIME_TO_SEND :=
  match whole_minute current_time with
  | None => Some send_time
  | Some temp_time =>
      start ← in_calendar (Pm.startTime send_time) (localtime temp_time);
      stop ← in_calendar (Pm.endTime send_time) (localtime temp_time);
      let send_time := if start : bool then set_freezing true send_time else send_time in
      Some (if stop : bool then set_freezing false send_time else send_time)
  end.

(** Acquisition mode ["schfrz"]: polling between the start and the end times. *)
Definition schfrz (a : positive) (send_time : Pm.TIME_TO_SEND) (current_tick current_time : Z) s
    : option (Thread M G) :=
  '(s, send_time) ←
    if Pm.freezing send_time &&
       elapsed current_tick (Pm.packetSendTime send_time) (Pm.acqInt send_time)
    then
      s ← send_request current_tick a s;
      let s := set_map (set_lock true (map s)) s in
      Some (s, set_sent current_tick send_time)
    else Some (s, send_time);
  send_time ← update_freezing current_time send_time;
  m ← Pm.store_time a send_time (mem s);
  Some (set_mem m s).

(** Any other mode: once in each minute of the calendar. *)
Definition scheduled (a : positive) (send_time : Pm.TIME_TO_SEND) (current_tick current_time : Z) s
    : option (Thread M G) :=
  if elapsed current_tick (Pm.packetSendTime send_time) 60 then
    match whole_minute current_time with
    | None => Some s
    | Some temp_time =>
        start ← in_calendar (Pm.startTime send_time) (localtime temp_time);
        if start : bool then
          s ← send_request current_tick a s;
          m ← Pm.store_time a (set_sent current_tick send_time) (mem s);
          Some (set_mem m s)
        else Some s
    end
  else Some s.

(** What the outside contributes to an iteration. *)
Record input := mkInput { events : list io_event; current_tick : Z; current_time : Z }.

(** One iteration of the loop; a stopped thread has left it. *)
Definition send_resquest_thread (i : input) s : option (Thread M G) :=
  if task_stop (map s) then Some s
  else
  s ← xio_dowork (events i) s;
  handle ← pm_handle (map s);
  '(m, handle, send_time) ← Pm.get_next_send_time (mem s) handle;
  let s := set_mem m (set_map (set_handle handle (map s)) s) in
  match send_time with
  | None => Some s
  | Some (a, t) =>
      if array_equal (Pm.acqMode t) (str "realtime") then realtime a t (current_tick i) s
      else if array_equal (Pm.acqMode t) (str "schfrz") then schfrz a t (current_tick i) (current_time i) s
      else scheduled a t (current_tick i) (current_time i) s
  end.

(** A run of the thread. *)
Fixpoint run (inputs : list input) s : option (Thread M G) :=
  match inputs with
  | [] => Some s
  | i :: inputs => s ← send_resquest_thread i s; run inputs s
  end.
End thread.
