(* ===== verification/SerialIoProperties.v ===== *)
(** * SerialIoProperties: what the serial port promises.

    The life of a port from [serialio_create] to [serialio_destroy] with any sequence of
    sendings and rounds of work between, and the port below the thread of a channel
    ([IotMain]): what its [xio_dowork] tells the thread. *)
From S2P Require Import Prelude.
From S2P Require Import Effects.
From S2P Require Import Alloc.
From S2P Require Import CString.
From S2P Require Import SinglyLinkedList.
From S2P Require Import Registry.
From S2P Require Import SerialIo.
From S2P Require Import SerialIoTheory.
From S2P Require Import ProtocolManager.
From S2P Require Import IotMain.
From stdpp Require Import gmap strings.
#[local] Open Scope Z_scope.

Import Serial.

Section port.
Context {A : Type} (FD_SETSIZE : Z).
#[warnings="-notation-for-abbreviation"] Notation PENDING := (PENDING_SERIAL_IO A).
#[warnings="-notation-for-abbreviation"] Notation INSTANCE := (SERIAL_IO_INSTANCE A).
#[warnings="-notation-for-abbreviation"] Notation World := ((Store PENDING * Heap) * Outside A)%type.
#[warnings="-notation-for-abbreviation"] Notation Serial := (ST World).
#[warnings="-notation-for-abbreviation"] Notation Callback := (option (IO_SEND_RESULT → A → option A)).
#[warnings="-notation-for-abbreviation"] Notation Entry := (list Z * Callback)%type.
Implicit Types (i : INSTANCE) (o : Outside A) (st : Store PENDING) (h : Heap) (q : list Entry) (a : A).

(** ** The life of a port *)

(** What an application does with an open port. *)
Inductive operation :=
  | Send (text : list Z) (cb : Callback) (w : Written)
  | Work (writes : list Written) (ret : Z) (rest : timeval) (reads : list Read).

(** The results of the sendings. *)
Fixpoint operate (ops : list operation) (serial_io : option INSTANCE) : Serial (list status * option INSTANCE) :=
  match ops with
  | [] => mret ([], serial_io)
  | Send text cb w :: ops =>
      '(r, serial_io) ← serialio_send serial_io (Some text) (length text) cb w;
      '(rs, serial_io) ← operate ops serial_io;
      mret (r :: rs, serial_io)
  | Work writes ret rest reads :: ops =>
      serial_io ← serialio_dowork FD_SETSIZE serial_io writes ret rest reads;
      operate ops serial_io
  end.

(** The port is created, opened, used, closed and destroyed.  The result is the file of
    the line with the results of the sendings, if the port could be opened. *)
Definition session (config : SERIALIO_CONFIG) (g : Opening) (received : option (list Z → A → option A))
    (error : option (A → option A)) (ops : list operation) : Serial (option (option File * list status)) :=
  serial_io ← serialio_create (Some config);
  match serial_io with
  | None => mret None
  | Some _ =>
      '(r, serial_io) ← serialio_open serial_io g None received error;
      match r with
      | FAILURE => serialio_destroy serial_io;; mret None
      | OK =>
          o ← outside;
          let f := files o !! o_open g in
          '(rs, serial_io) ← operate ops serial_io;
          '(_, serial_io) ← serialio_close serial_io None;
          serialio_destroy serial_io;;
          mret (Some (f, rs))
      end
  end.














End port.

(** ** The port below a thread *)

Section thread.
Context {M G : Type} (FD_SETSIZE : Z).
#[warnings="-notation-for-abbreviation"] Notation Thread := (Thread M G).
Implicit Types (i : SERIAL_IO_INSTANCE Thread) (t : Thread).

(** The callbacks of a channel, as [channel_init_by_list] gives them to [xio_open]; [ok]:
    whether there is memory for the response. *)
Definition of_channel (ok : bool) i : Prop :=
  on_bytes_received i = Some (on_io_bytes_received ok) ∧ Serial.on_io_error i = Some (λ t, Some (IotMain.on_io_error t)).

(** [on_send_complete] of the agent does nothing. *)
Definition silent (q : list (list Z * option (IO_SEND_RESULT → Thread → option Thread))) : Prop :=
  Forall (λ e, ∀ t, finish e.2 t = Some t) q.

(** What the thread is told in a round: an error, the bytes, or both. *)
Definition told (ok : bool) (ret : Z) (reads : list Read) : option (list io_event) :=
  if ret =? -1 then Some [IoError]
  else if 0 <? ret then
    '(received, error) ← gather [] reads;
    Some ((if error : bool then [IoError] else []) ++ match received with [] => [] | _ => [BytesReceived ok received] end)
  else Some [].

Lemma react_told ok i ret reads t : of_channel ok i → react i ret reads t = (evs ← told ok ret reads; xio_dowork evs t).
Proof.
  intros [Er Ee]. unfold react, told, call. rewrite Ee, Er. destruct (ret =? -1); [done|]. destruct (0 <? ret); [|done].
  destruct (gather [] reads) as [[l error]|]; [|done]. cbn [mbind option_bind].
  destruct error, l as [|z l]; try done; apply (bind_some (on_io_bytes_received _ _ _)).
Qed.

(** The queue does not concern the thread. *)
Lemma drain_silent q wire t : silent q → ∃ w, drain q wire t = Some ([], w, t).
Proof.
  intros Hq. revert wire. induction Hq as [|e q He Hq IH]; intros wire; cbn [drain]; [by exists wire|].
  rewrite He. cbn [mbind option_bind]. apply IH.
Qed.

Lemma flush_silent writes q wire t : silent q → ∃ q' w, flush writes q wire t = Some (q', w, t) ∧ silent q'.
Proof.
  revert q wire. induction writes as [|x writes IH]; intros q wire Hq; cbn [flush].
  - destruct (drain_silent q wire t Hq) as [w ->]. exists [], w. split; [done|constructor].
  - destruct q as [|e q]; [by exists [], wire|]. destruct (written x (length e.1)) as [k|]; [|by exists (e :: q), wire].
    destruct (k =? length e.1)%nat.
    + apply Forall_cons in Hq as [He Hq]. rewrite He. cbn [mbind option_bind]. by apply IH.
    + apply IH. apply Forall_cons in Hq as [He Hq]. by constructor.
Qed.

(** C40: a round of work of the port is what the thread calls [xio_dowork].  It tells the
    thread of the channel an error, the bytes received, or both, and changes nothing
    else of it; it is undefined exactly when what arrives does not fit in the buffer of
    256 bytes or the thread is undefined on it.  The port stays open and keeps its
    memory. *)
Theorem port_feeds_thread ok i st h o q writes ret rest reads :
  port_is FD_SETSIZE i ((st, h), o) q → of_channel ok i → silent q →
  runs (serialio_dowork FD_SETSIZE (Some i) writes ret rest reads)
    (evs ← told ok ret reads; xio_dowork evs (app o))
    (λ t x s', ∃ i' q', x = Some i' ∧ port_is FD_SETSIZE i' s' q' ∧ of_channel ok i' ∧ silent q' ∧ app s'.2 = t ∧
       files s'.2 = files o ∧ used (queue_blocks q' - queue_blocks q) h s'.1.2) ((st, h), o).
Proof.
  intros Hp Hc Hq. destruct (flush_silent writes q (wire o) (app o) Hq) as (q' & w & Ef & Hq').
  pose proof (runs_dowork _ _ _ _ _ _ writes ret rest reads Hp) as Hr. unfold work in Hr. rewrite Ef in Hr.
  cbn [mbind option_bind] in Hr. rewrite (react_told ok) in Hr by done.
  destruct (evs ← told ok ret reads; xio_dowork evs (app o)) as [t|]; cbn [mbind option_bind] in Hr; [|exact Hr].
  eapply wp_mono; [exact Hr|]. intros x s' Hw. destruct (worked_port _ _ _ _ _ _ _ _ _ Hp Hw) as (i' & -> & Hi & Hp' & _ & Ea & Ef' & Hu).
  exists i', q'. destruct (same_port_fields _ _ Hi) as (_ & _ & E1 & E2). destruct Hc as [Er Ee].
  split_and!; try done. split; congruence.
Qed.
End thread.

(** ** Concrete ports *)

Section example.

(** The application notes what it receives. *)
Definition note (l : list Z) (a : list (list Z)) : option (list (list Z)) := Some (a ++ [l]).

Definition line_config : SERIALIO_CONFIG :=
  mkConfig (str "/dev/ttyS1" ++ replicate 55 0) 9600 8 69 1 (0, 500000).

Definition line_before : termios :=
  mkTermios 38400 true false 8 false false false true true true true false true false false true false false true 1 0.

Definition line_opening : Opening := mkOpening 3 true true line_before true true.

Definition line_world : (Store (PENDING_SERIAL_IO (list (list Z))) * Heap) * Outside (list (list Z)) :=
  ((mkStore ∅ ∅, {| allocs := []; live := 0 |}), mkOutside ∅ [] []).


Definition line_session (ops : list (operation (A:=list (list Z)))) :=
  session 1024 line_config line_opening (Some note) None ops line_world.

(** The results of the sendings, the bytes on the line, and what was received. *)
Definition line_outcome (ops : list (operation (A:=list (list Z)))) : option (option (list status) * list Z * list (list Z)) :=
  '(r, (_, o)) ← line_session ops; Some (snd <$> (r : option (option File * list status)), wire o, app o).


(** When the write of a waiting text is cut short, the end of the text is sent twice. *)
Lemma cut_text_repeated :
  line_outcome [Send [1; 2; 3; 4; 5] None (WroteSome 0); Work [WroteSome 2] 0 (0, 0) []] =
  Some (Some [OK], [1; 2; 3; 4; 5; 4; 5], []).
Proof. vm_compute. reflexivity. Qed.

(** A text that is refused with [EAGAIN] is reported as sent and lost. *)
Lemma again_loses_text :
  line_outcome [Send [1; 2] None (WriteError true); Work [] 0 (0, 0) []] = Some (Some [OK], [], []).
Proof. vm_compute. reflexivity. Qed.

(** The second of two long pieces is written behind the buffer. *)
Lemma overrun_undefined :
  line_outcome [Work [] 1 (0, 0) [ReadSome (replicate 200 0); ReadSome (replicate 200 0)]] = None.
Proof. vm_compute. reflexivity. Qed.

(** What arrives in pieces is received as one if it fits. *)
Lemma gather_pieces received ls :
  Forall (λ l, l ≠ []) ls → (length received + length (concat ls) < MAX_RECEIVE_BYTES)%nat →
  gather received (ReadSome <$> ls) = Some (received ++ concat ls, false).
Proof.
  intros Hl. revert received. induction Hl as [|l ls Hne Hl IH]; intros received Hn; [by rewrite app_nil_r|].
  cbn [concat] in Hn. rewrite length_app in Hn. rewrite fmap_cons. cbn [gather]. rewrite (take_ge l) by lia.
  destruct l as [|b l]; [done|]. cbv zeta. rewrite length_app, (proj2 (Nat.ltb_lt _ _)) by lia.
  rewrite IH by (rewrite length_app; lia). cbn [concat]. by rewrite <- app_assoc.
Qed.

Lemma gather_bounded received reads l error :
  (length received <= MAX_RECEIVE_BYTES)%nat → gather received reads = Some (l, error) → (length l <= MAX_RECEIVE_BYTES)%nat.
Proof.
  revert received. induction reads as [|[p|again] reads IH]; intros received Hr; cbn [gather]; [by intros [= <- _]| |by intros [= <- _]].
  destruct (take MAX_RECEIVE_BYTES p) as [|b p']; [by intros [= <- _]|]. cbv zeta. destruct (Nat.ltb_spec (length (received ++ b :: p')) MAX_RECEIVE_BYTES).
  - apply IH. lia.
  - destruct (Nat.eqb_spec (length (received ++ b :: p')) MAX_RECEIVE_BYTES) as [E|]; [|done]. intros [= <- _]. lia.
Qed.

(** A thread that waits for an answer, on a channel without a manager. *)
Definition waiting_thread : Thread unit unit :=
  mkThread (mkMap None false true 2 (str "line 1")) (Pm.mkMemory ∅ ∅) tt (Some 1000) [].

Definition open_port (ok : bool) : SERIAL_IO_INSTANCE (Thread unit unit) :=
  mkSerial 3 (Some (on_io_bytes_received ok)) (Some (λ t, Some (IotMain.on_io_error t))) (str "/dev/ttyS1" ++ replicate 55 0)
    9600 8 69 1 (0, 500000) IO_STATE_OPEN (mkList None None).

Definition open_outside : Outside (Thread unit unit) :=
  mkOutside {[ 3 := mkFile (str "/dev/ttyS1") None ]} [] waiting_thread.

Lemma port_feeds_thread_witness :
  ∃ i s, serialio_dowork 1024 (Some (open_port true)) [] 1 (0, 0) [ReadSome [17; 3]; ReadSome [4]]
      ((mkStore ∅ ∅, {| allocs := []; live := 0 |}), open_outside) = Some (Some i, s) ∧
    task_lock (IotMain.map (app s.2)) = false ∧ trace (app s.2) = [Got [17; 3; 4]].
Proof.
  pose proof (port_feeds_thread 1024 true (open_port true) (mkStore ∅ ∅) {| allocs := []; live := 0 |} open_outside []
    [] 1 (0, 0) [ReadSome [17; 3]; ReadSome [4]]) as H.
  destruct H as (x & s & E & i & q & Ex & _ & _ & _ & Ea & _ & Hu).
  - split; [done|cbn; lia|by eexists|]. split; [|constructor]. exists []. by apply listed_nil.
  - done.
  - constructor.
  - subst x. exists i, s. split; [exact E|]. rewrite Ea. by split.
Defined.
End example.
