(* ===== verification/IotStart.v ===== *)
(** * IotStart: channels, models and their threads.

    The other half of [iot_edge_agent/src/iot_main.c]: the parsers of the broker's
    messages, which open a port for each channel, bind the models to the channels
    and start and stop the sending threads.  [Agent] is the state of the process:
    its global variables, the structures it allocated, the ports and threads that
    exist.  An iteration of a thread ([IotMain]) is one atomic step. *)
From S2P Require Import Prelude.
From S2P Require Import Effects.
From S2P Require Import Alloc.
From S2P Require Import CString.
From S2P Require Import Json.
From S2P Require Import SinglyLinkedList.
From S2P Require Import Registry.
From S2P Require Import ChannelModel.
From S2P Require Import ProtocolManager.
From S2P Require Import IotMain.
From stdpp Require Import gmap strings.
#[local] Open Scope Z_scope.

Module Start.
(** ** The process *)

Definition MAX_SIZE_OF_KEY : nat := 64.

(** [PM_CHANNEL_MAP]; the pointers are addresses in the process. *)
Record PM_CHANNEL_MAP := mkMap {
  pm_handle : option positive;
  xio_handle : positive;
  task_thread : option positive;
  thread_id : Z;
  task_stop : bool;
  task_lock : bool;
  time_out_count : Z;
  key_word : list Z }.

Definition set_pm_handle v m := mkMap v (xio_handle m) (task_thread m) (thread_id m) (task_stop m) (task_lock m)
  (time_out_count m) (key_word m).
Definition set_thread t i m := mkMap (pm_handle m) (xio_handle m) (Some t) i (task_stop m) (task_lock m)
  (time_out_count m) (key_word m).
Definition set_task_stop v m := mkMap (pm_handle m) (xio_handle m) (task_thread m) (thread_id m) v (task_lock m)
  (time_out_count m) (key_word m).

(** What a port is created with. *)
Inductive IO_CONFIG :=
  | SERIALIO_CONFIG (interfaceName : list Z) (baudRate dataBits parity stopBits timeout : Z)
  | SOCKETIO_CONFIG (hostname : list Z) (port : Z).

(** [creations], [openings], [spawns]: whether the next ports can be created and
    opened, the next threads created; exhausted oracles say yes. *)
Record Outside := mkOutside { creations : list bool; openings : list bool; spawns : list bool }.

(** [threads]: those that were not joined, with their variable [last_send_tick] and
    their outputs. *)
Record Agent (M G : Type) := mkAgent {
  heap : Heap;
  channels : Store Channel.CHANNEL_MODEL_INFO;
  maps : Store PM_CHANNEL_MAP;
  managers : gmap positive (Pm.PM_INSTANCE M G);
  memory : Pm.Memory M;
  globals : G;
  ports : gmap positive IO_CONFIG;
  threads : gmap positive (option Z * list output);
  g_pm_map_list : option LIST_INSTANCE;
  g_thread_count : Z;
  g_channel_parse_error : bool;
  outside : Outside }.
#[global] Arguments mkAgent {M G} _ _ _ _ _ _ _ _ _ _ _ _.
#[global] Arguments heap {M G} _.
#[global] Arguments channels {M G} _.
#[global] Arguments maps {M G} _.
#[global] Arguments managers {M G} _.
#[global] Arguments memory {M G} _.
#[global] Arguments globals {M G} _.
#[global] Arguments ports {M G} _.
#[global] Arguments threads {M G} _.
#[global] Arguments g_pm_map_list {M G} _.
#[global] Arguments g_thread_count {M G} _.
#[global] Arguments g_channel_parse_error {M G} _.
#[global] Arguments outside {M G} _.

Section start.
Context {M G : Type}.
#[warnings="-notation-for-abbreviation"] Notation Agent := (Agent M G).
#[warnings="-notation-for-abbreviation"] Notation Start := (ST Agent).
Implicit Types (s : Agent) (a x t : positive).

Definition set_heap v s : Agent := mkAgent v (channels s) (maps s) (managers s) (memory s) (globals s) (ports s)
  (threads s) (g_pm_map_list s) (g_thread_count s) (g_channel_parse_error s) (outside s).
Definition set_channels v s : Agent := mkAgent (heap s) v (maps s) (managers s) (memory s) (globals s) (ports s)
  (threads s) (g_pm_map_list s) (g_thread_count s) (g_channel_parse_error s) (outside s).
Definition set_maps v s : Agent := mkAgent (heap s) (channels s) v (managers s) (memory s) (globals s) (ports s)
  (threads s) (g_pm_map_list s) (g_thread_count s) (g_channel_parse_error s) (outside s).
Definition set_managers v s : Agent := mkAgent (heap s) (channels s) (maps s) v (memory s) (globals s) (ports s)
  (threads s) (g_pm_map_list s) (g_thread_count s) (g_channel_parse_error s) (outside s).
Definition set_memory v g s : Agent := mkAgent (heap s) (channels s) (maps s) (managers s) v g (ports s)
  (threads s) (g_pm_map_list s) (g_thread_count s) (g_channel_parse_error s) (outside s).
Definition set_ports v s : Agent := mkAgent (heap s) (channels s) (maps s) (managers s) (memory s) (globals s) v
  (threads s) (g_pm_map_list s) (g_thread_count s) (g_channel_parse_error s) (outside s).
Definition set_threads v s : Agent := mkAgent (heap s) (channels s) (maps s) (managers s) (memory s) (globals s)
  (ports s) v (g_pm_map_list s) (g_thread_count s) (g_channel_parse_error s) (outside s).
Definition set_map_list v s : Agent := mkAgent (heap s) (channels s) (maps s) (managers s) (memory s) (globals s)
  (ports s) (threads s) v (g_thread_count s) (g_channel_parse_error s) (outside s).
Definition set_thread_count v s : Agent := mkAgent (heap s) (channels s) (maps s) (managers s) (memory s) (globals s)
  (ports s) (threads s) (g_pm_map_list s) v (g_channel_parse_error s) (outside s).
Definition set_parse_error v s : Agent := mkAgent (heap s) (channels s) (maps s) (managers s) (memory s) (globals s)
  (ports s) (threads s) (g_pm_map_list s) (g_thread_count s) v (outside s).
Definition set_outside v s : Agent := mkAgent (heap s) (channels s) (maps s) (managers s) (memory s) (globals s)
  (ports s) (threads s) (g_pm_map_list s) (g_thread_count s) (g_channel_parse_error s) v.

Definition get : Start Agent := λ s, Some (s, s).
Definition modify (f : Agent → Agent) : Start unit := λ s, Some (tt, f s).

Definition on_alloc {X} (d : Alloc X) : Start X := λ s, '(r, h) ← d (heap s); Some (r, set_heap h s).
Definition on_maps {X} (d : ST (Store PM_CHANNEL_MAP * Heap) X) : Start X := λ s,
  '(r, (st, h)) ← d (maps s, heap s); Some (r, set_heap h (set_maps st s)).
Definition on_channels {X} (d : ST (Store Channel.CHANNEL_MODEL_INFO * Heap) X) : Start X := λ s,
  '(r, (st, h)) ← d (channels s, heap s); Some (r, set_heap h (set_channels st s)).

(** A field of the map at [a]. *)
Definition change_map a (f : PM_CHANNEL_MAP → PM_CHANNEL_MAP) : Start unit :=
  m ← on_maps (load a); on_maps (store a (f m)).

(** ** Ports *)

Definition xio_create (config : IO_CONFIG) : Start (option positive) :=
  s ← get;
  let o := outside s in
  modify (set_outside (mkOutside (tl (creations o)) (openings o) (spawns o)));;
  if hd true (creations o) then
    let x := fresh (dom (ports s)) in
    modify (set_ports (<[x := config]> (ports s)));; mret (Some x)
  else mret None.

(** A destroyed port is not used. *)
Definition use_port x : Start unit := s ← get; _ ← lift (ports s !! x); mret tt.

Definition xio_open x : Start bool :=
  use_port x;;
  s ← get;
  let o := outside s in
  modify (set_outside (mkOutside (creations o) (tl (openings o)) (spawns o)));;
  mret (hd true (openings o)).

Definition xio_close x : Start unit := use_port x.

Definition xio_destroy x : Start unit :=
  use_port x;; modify (λ s, set_ports (delete x (ports s)) s).

(** ** Threads *)

Definition ThreadAPI_Create : Start (option positive) :=
  s ← get;
  let o := outside s in
  modify (set_outside (mkOutside (creations o) (openings o) (tl (spawns o))));;
  if hd true (spawns o) then
    let t := fresh (dom (threads s)) in
    modify (set_threads (<[t := (None, [])]> (threads s)));; mret (Some t)
  else mret None.

(** The thread has been told to stop; it is waited for once. *)
Definition ThreadAPI_Join t : Start unit :=
  s ← get; _ ← lift (threads s !! t); modify (λ s, set_threads (delete t (threads s)) s).

(** ** Managers *)

Variable modbus dlt698 : Pm.INTER_DESCRIPTION M G.

(** The manager in the block [blk], or NULL. *)
Definition manager_in (blk : option (list Z)) (json_object : option (list (list Z * JSON))) : Start (option positive) :=
  s ← get;
  '(m, g, handle) ← lift (Pm.protocol_init modbus dlt698 (bool_decide (is_Some blk)) (default [] blk)
                            (memory s) (globals s) json_object);
  modify (set_memory m g);;
  match handle with
  | None => on_alloc (free blk);; mret None
  | Some h =>
      let p := fresh (dom (managers s)) in
      modify (set_managers (<[p := h]> (managers s)));; mret (Some p)
  end.

Definition protocol_init (json_object : option (list (list Z * JSON))) : Start (option positive) :=
  blk ← match json_object_dotget_string json_object (str "protoType"),
              json_object_dotget_string json_object (str "name") with
        | Some _, Some _ => on_alloc (malloc (Pm.MAX_SIZE_OF_MNAME + 1))
        | _, _ => mret None
        end;
  manager_in blk json_object.

Definition protocol_destroy (handle : option positive) : Start unit :=
  match handle with
  | None => mret tt
  | Some p =>
      s ← get;
      h ← lift (managers s !! p);
      '(m, g) ← lift (Pm.protocol_destroy (memory s) (globals s) (Some h));
      modify (set_memory m g);;
      modify (set_managers (delete p (managers s)));;
      on_alloc free_struct
  end.

(** ** The list of maps *)

Definition stop_thread a t : Start unit := change_map a (set_task_stop true);; ThreadAPI_Join t.

Definition map_destroy a : Start unit :=
  map ← on_maps (load a);
  match task_thread map with Some t => stop_thread a t | None => mret tt end;;
  protocol_destroy (pm_handle map);;
  xio_close (xio_handle map);;
  xio_destroy (xio_handle map);;
  on_maps (dispose a).

Fixpoint destroy_maps (n : nat) (map_list : LIST_INSTANCE) : Start LIST_INSTANCE :=
  match singlylinkedlist_get_head_item (Some map_list) with
  | None => mret map_list
  | Some map_item =>
      match n with
      | O => lift None
      | S n =>
          map ← on_maps (list_value map_item);
          match map with Some a => map_destroy a | None => mret tt end;;
          map_list ← on_maps (list_remove map_list map_item);
          destroy_maps n map_list
      end
  end.

Definition map_list_destroy (map_list : option LIST_INSTANCE) : Start unit :=
  match map_list with
  | None => mret tt
  | Some map_list =>
      n ← on_maps list_fuel;
      map_list ← destroy_maps n map_list;
      on_maps (list_destroy map_list)
  end.

(** ** Channels *)

(** What the port of a channel is created with; [Some None]: its type is unknown. *)
Definition io_config (c : Channel.CHANNEL_MODEL_INFO) : option (option IO_CONFIG) :=
  let p := Channel.portOptions c in
  if array_equal (Channel.portType p) (str "serial") then
    interfaceName ← cstr (Channel.serialID p);
    Some (Some (SERIALIO_CONFIG interfaceName (Channel.baudRate p) (Channel.dataBit p) (Channel.parity p)
                  (Channel.stopBit p) (Channel.timeOut c)))
  else if array_equal (Channel.portType p) (str "socket") then
    hostname ← cstr (Channel.host p);
    Some (Some (SOCKETIO_CONFIG hostname (Channel.port p)))
  else Some None.

Definition channel_failed : Start bool := modify (set_parse_error true);; mret false.

(** The map of a channel whose port is open, in the block [blk]. *)
Definition add_map (c : Channel.CHANNEL_MODEL_INFO) x (blk : list Z) : Start bool :=
  key ← lift (strncpy blk (array_text MAX_SIZE_OF_KEY (Channel.modelNmae c)) MAX_SIZE_OF_KEY);
  map_item ← on_maps (place (mkMap None x None 0 false false 0 key));
  s ← get;
  map_list ← lift (g_pm_map_list s);
  '(map_list, added) ← on_maps (list_add map_list map_item);
  modify (set_map_list (Some map_list));;
  if added : bool then mret true
  else xio_close x;; xio_destroy x;; on_maps (dispose map_item);; channel_failed.

(** The result: whether the next channel follows. *)
Definition channel_init_by_list (item : positive) : Start bool :=
  c ← on_channels (load item);
  config ← lift (io_config c);
  match config with
  | None => channel_failed
  | Some config =>
      xio_handle ← xio_create config;
      match xio_handle with
      | None => channel_failed
      | Some x =>
          map_item ← on_alloc (malloc (MAX_SIZE_OF_KEY + 1));
          match map_item with
          | None => xio_destroy x;; channel_failed
          | Some blk =>
              ok ← xio_open x;
              if ok : bool then add_map c x blk
              else xio_destroy x;; on_alloc free_struct;; channel_failed
          end
      end
  end.

(** [singlylinkedlist_foreach] with an action on the process. *)
Definition for_each (cells : SinglyLinkedList.heap positive) (list : LIST_INSTANCE) (action : positive → Start bool)
    : Start unit := λ s,
  '(s, _) ← singlylinkedlist_foreach (A:=option Agent) cells (Some list)
              (Some (λ item (s : option Agent), match s ≫= action item with
                               | None => (None, false)
                               | Some (continue_processing, s) => (Some s, continue_processing)
                               end)) (Some s);
  s ← s; Some (tt, s).

Variable json_parse_string : list Z → option JSON.

(** The maps of the channels in the list. *)
Definition open_channels (channel_list : LIST_INSTANCE) : Start status :=
  s ← get;
  match g_pm_map_list s with
  | Some l => map_list_destroy (Some l);; modify (set_thread_count 0)
  | None => mret tt
  end;;
  l ← on_maps list_create;
  modify (set_map_list l);;
  match l with
  | None => mret FAILURE
  | Some _ =>
      s ← get;
      for_each (cells (channels s)) channel_list channel_init_by_list;;
      s ← get;
      if g_channel_parse_error s then
        match g_pm_map_list s with Some l => on_maps (list_destroy l) | None => mret tt end;;
        modify (set_map_list None);;
        mret FAILURE
      else mret OK
  end.

Definition channel_instance_construct (json_string : list Z) : Start status :=
  match json_parse_string json_string with
  | Some (JSONObject o) =>
      channel_list ← on_channels (Channel.channel_info_list_create (Some (JSONObject o)));
      result ← match channel_list with
               | None => mret FAILURE
               | Some l => open_channels l
               end;
      on_channels (Channel.channel_info_list_destroy channel_list);;
      mret result
  | _ => mret FAILURE
  end.

(** ** Models *)

(** [strcmp(a, b) == 0] of two arrays; [None]: neither ends where they agree. *)
Fixpoint arrays_equal (a b : list Z) : option bool :=
  match a, b with
  | x :: a, y :: b => if negb (x =? y) then Some false else if x =? 0 then Some true else arrays_equal a b
  | _, _ => None
  end.

(** The new manager takes the place of the old one. *)
Definition bind_model (instance a : positive) (map : PM_CHANNEL_MAP) : Start unit :=
  match pm_handle map with
  | Some old =>
      match task_thread map with
      | Some t => stop_thread a t;; change_map a (set_task_stop false)
      | None => mret tt
      end;;
      protocol_destroy (Some old)
  | None => mret tt
  end;;
  change_map a (set_pm_handle (Some instance));;
  rc ← ThreadAPI_Create;
  match rc with
  | Some t =>
      modify (λ s, set_thread_count (g_thread_count s + 1) s);;
      s ← get;
      change_map a (set_thread t (g_thread_count s))
  | None => mret tt
  end.

Definition map_channel_and_model (instance : positive) (item : positive) : Start bool :=
  s ← get;
  map ← on_maps (load item);
  model_name ← lift (Pm.get_model_name (managers s !! instance));
  equal ← lift (arrays_equal model_name (key_word map));
  (if equal : bool then bind_model instance item map else mret tt);;
  mret true.

(** One object of the body. *)
Definition bind_object (body_object : option (list (list Z * JSON))) : Start unit :=
  match body_object with
  | None => mret tt
  | Some _ =>
      pm_handle ← protocol_init body_object;
      match pm_handle with
      | None => mret tt
      | Some p =>
          modify (set_thread_count 0);;
          s ← get;
          map_list ← lift (g_pm_map_list s);
          for_each (cells (maps s)) map_list (map_channel_and_model p)
      end
  end.

Fixpoint bind_objects (n i : nat) (body_array : list JSON) : Start unit :=
  match n with
  | O => mret tt
  | S n => bind_object (json_array_get_object (Some body_array) i);; bind_objects n (S i) body_array
  end.

Definition thing_instance_construct (json_string : list Z) : Start status :=
  s ← get;
  match g_pm_map_list s with
  | None => mret FAILURE
  | Some _ =>
      match json_parse_string json_string with
      | Some (JSONObject o) =>
          result ← match json_object_dotget_array (Some o) (str "body") with
                   | Some body_array => bind_objects (length body_array) 0 body_array;; mret OK
                   | None => mret FAILURE
                   end;
          s ← get;
          if g_thread_count s =? 0 then
            map_list_destroy (g_pm_map_list s);; modify (set_map_list None);; mret FAILURE
          else mret result
      | _ => mret FAILURE
      end
  end.

(** ** Iterations of the threads *)

Variable W : Z.
Variable localtime : Z → tm.

(** The thread of the map at [a] as [IotMain] has it. *)
Definition thread_of s a : option (positive * positive * Thread M G) :=
  m ← structs (maps s) !! a;
  t ← task_thread m;
  '(last, tr) ← threads s !! t;
  p ← pm_handle m;
  h ← managers s !! p;
  _ ← ports s !! xio_handle m;
  Some (t, p, IotMain.mkThread (IotMain.mkMap (Some h) (task_stop m) (task_lock m) (time_out_count m) (key_word m))
    (memory s) (globals s) last tr).

(** What an iteration has changed. *)
Definition thread_done s a t p (th : Thread M G) : option Agent :=
  m ← structs (maps s) !! a;
  h ← IotMain.pm_handle (IotMain.map th);
  let c := IotMain.map th in
  let m := mkMap (pm_handle m) (xio_handle m) (task_thread m) (thread_id m) (IotMain.task_stop c) (IotMain.task_lock c)
             (IotMain.time_out_count c) (key_word m) in
  Some (set_memory (mem th) (glob th)
    (set_threads (<[t := (last_send_tick th, trace th)]> (threads s))
      (set_managers (<[p := h]> (managers s))
        (set_maps (mkStore (cells (maps s)) (<[a := m]> (structs (maps s)))) s)))).

(** One iteration of the thread of the map at [a]; the outputs are new. *)
Definition thread_step a (i : input) : Start (list output) := λ s,
  '(t, p, th) ← thread_of s a;
  th' ← send_resquest_thread W localtime i th;
  s' ← thread_done s a t p th';
  Some (take (length (trace th') - length (trace th)) (trace th'), s').
End start.
End Start.
