(* ===== verification/IotRun.v ===== *)
(** * IotRun: the whole program.

    [iotea_client_run] and [main] of [iot_edge_agent/src/iot_main.c]: the edge client
    ([IoteaClient]) with the parsers of the agent ([IotStart]), the main loop, the
    threads that take their turns between its rounds and publish what they read, and
    the end of the program.  The process of the agent is the state of the parsers of
    the edge client.  The allocations of the agent and those of the client have
    separate oracles. *)
From S2P Require Import Prelude.
From S2P Require Import Effects.
From S2P Require Import Alloc.
From S2P Require Import CString.
From S2P Require Import Json.
From S2P Require Import ProtocolManager.
From S2P Require Import IotMain.
From S2P Require Import IotStart.
From S2P Require Import MqttCodec.
From S2P Require Import MqttDecoder.
From S2P Require Import MqttClient.
From S2P Require Import IotHubClient.
From S2P Require Import IoteaClient.
From stdpp Require Import gmap strings.
#[local] Open Scope Z_scope.

Module Run.

Definition BROKER := str "tcp://127.0.0.1:1883".
Definition USERNAME := str "test".
Definition PASSWORD := str "hahaha".
Definition PROTO_TYPE := str "DLT698.45".
Definition DEVICE_NAME := str "DLT698_Meter".

(** A turn of the program while it runs: an iteration of the thread of the map at [a],
    or a round of the main loop, after which [interrupt] tells whether SIGINT has
    arrived. *)
Inductive turn :=
  | ThreadTurn (a : positive) (i : input)
  | Round (events : list IoEvent) (interrupt : bool).

(** The arguments of [iotea_client_run]: strings, or NULL. *)
Record Arguments := mkArguments {
  borker : option (list Z);
  username : option (list Z);
  password : option (list Z);
  prototype : option (list Z);
  devicename : option (list Z) }.

Section run.
Context `{Arch} {P M G : Type}.
#[warnings="-notation-for-abbreviation"] Notation Agent := (Start.Agent M G).
#[warnings="-notation-for-abbreviation"] Notation Iotea := (@IOTEA_CLIENT (option Agent)).
#[warnings="-notation-for-abbreviation"] Notation Hub := (@IOTHUB_MQTT_CLIENT Iotea P Empty_set unit).
#[warnings="-notation-for-abbreviation"] Notation Client := (ST (@Peer Hub * Heap)).
#[warnings="-notation-for-abbreviation"] Notation Codec := (MQTTCODEC_INSTANCE (@Peer Hub)).
#[warnings="-notation-for-abbreviation"] Notation Whole := (ST (Codec * Heap)).

Variable persistInterDesc : option (PERSIST_INTERFACE_DESCRIPTION P).
Variable json_parse_string : list Z → option JSON.
Variable modbus dlt698 : Pm.INTER_DESCRIPTION M G.
Variable W : Z.
Variable localtime : Z → tm.

#[warnings="-notation-for-abbreviation"] Notation subCallback := (on_sub_ack_callback persistInterDesc sub_depth).

(** ** The parsers *)

(** A parser as the edge client calls it.  [None] is the state after undefined
    behaviour; a failure is any number but 0. *)
Definition parser (construct : list Z → ST Agent status) (text : list Z) (a : option Agent) : Z * option Agent :=
  match a ≫= construct text with
  | None => (0, None)
  | Some (OK, s) => (0, Some s)
  | Some (FAILURE, s) => (1, Some s)
  end.

Definition thing_parser := parser (Start.thing_instance_construct modbus dlt698 json_parse_string).
Definition channel_parser := parser (Start.channel_instance_construct json_parse_string).

(** A step of the agent inside of the client. *)
Definition on_agent {X} (d : ST Agent X) : Client X :=
  e ← handle;
  s ← lift (parsers e);
  '(x, s) ← lift (d s);
  modify_handle (set_parsers (Some s));;
  mret x.

(** Undefined if a parser went wrong. *)
Definition parsed : Client unit := e ← handle; _ ← lift (parsers e); mret tt.

(** ** The threads *)

(** A payload goes to the broker, with the topic of its device. *)
Definition publish_output (o : output) : Client unit :=
  match o with
  | Published p =>
      text ← lift (Pm.payload p);
      text ← lift (cstr (text ++ [0]));
      topic ← lift (cstr (Pm.DBTopic p));
      publish_mqtt_message persistInterDesc no_callback subCallback (Some topic) DELIVER_AT_LEAST_ONCE (Some text)
        (length text) None;;
      mret tt
  | _ => mret tt
  end.

Fixpoint publish_outputs (os : list output) : Client unit :=
  match os with
  | [] => mret tt
  | o :: os => publish_output o;; publish_outputs os
  end.

Definition thread_turn (a : positive) (i : input) : Client unit :=
  os ← on_agent (Start.thread_step W localtime a i);
  publish_outputs (rev os).

(** ** The main loop *)

(** [iotea_client_dowork(...) >= 0]: [__FAILURE__] is a positive number. *)
Definition goes_on (r : iotea_result) : bool := match r with Ended => false | _ => true end.

(** Whether the loop was left before the turns ran out. *)
Fixpoint main_loop (turns : list turn) : Whole bool :=
  match turns with
  | [] => mret false
  | ThreadTurn a i :: turns => on_client (thread_turn a i);; main_loop turns
  | Round events interrupt :: turns =>
      r ← iotea_client_dowork persistInterDesc json_parse_string events;
      on_client parsed;;
      if goes_on r && negb interrupt then main_loop turns else mret true
  end.

(** [iotea_client_deinit] of a client whose pointer [mqttClient] is NULL. *)
Definition deinit_unconnected : Alloc unit :=
  topics ← malloc (TOPIC_SIZE * 8);
  match topics with None => mret tt | Some _ => lift None end.

(** The client with its parsers, until it is connected: [None] if the program gives
    up.  [iterations]: what the transport does meanwhile. *)
Definition start_run (platform : bool) (args : Arguments) (agent : Agent) (s : @Setting unit P)
    (iterations : list (list IoEvent)) : Alloc (option Codec) :=
  if negb platform then mret None
  else
    g_iotea_handle ← iotea_client_init (borker args) (devicename args) (prototype args) (Some agent);
    match g_iotea_handle with
    | None => mret None
    | Some e =>
        let e := iotea_client_register_thing_model_init (Some thing_parser) e in
        let e := iotea_client_register_channel_model_init (Some channel_parser) e in
        let options := mkIoteaOptions true (devicename args) (username args) (password args) 30 300 in
        '(rc, client) ← iotea_client_connect persistInterDesc json_parse_string e (Some options) s iterations;
        match rc, client with
        | OK, Some c =>
            _ ← lift (parsers (application (user (callContext c))));
            mret (Some c)
        | _, _ => deinit_unconnected;; mret None
        end
    end.

(** The maps and the client are destroyed. *)
Definition end_run : Whole unit :=
  on_client (on_agent (λ s, Start.map_list_destroy (Start.g_pm_map_list s) s));;
  iotea_client_deinit persistInterDesc.

Definition run_client (c : Codec) (turns : list turn) : Alloc (option status * option Codec) := λ h,
  '(over, (c, h)) ← main_loop turns (c, h);
  if over : bool then
    '(_, (c, h)) ← end_run (c, h);
    Some ((Some OK, Some c), h)
  else Some ((None, Some c), h).

(** The result, or [None] while the program still runs, and the client if it was
    connected. *)
Definition iotea_client_run (platform : bool) (args : Arguments) (agent : Agent) (s : @Setting unit P)
    (iterations : list (list IoEvent)) (turns : list turn) : Alloc (option status * option Codec) :=
  client ← start_run platform args agent s iterations;
  match client with
  | None => mret (Some FAILURE, None)
  | Some c => run_client c turns
  end.

(** ** The command line *)

(** [None]: the program ends after it has printed its version or its usage.  The
    options are the results of [getopt_long] with their arguments. *)
Fixpoint read_options (opts : list (Z * option (list Z))) (args : Arguments) : option Arguments :=
  match opts with
  | [] => Some args
  | (opt, optarg) :: opts =>
      if opt =? 118 then None
      else if opt =? 80 then
        read_options opts (mkArguments (borker args) (username args) (password args) optarg (devicename args))
      else if opt =? 100 then
        read_options opts (mkArguments (borker args) (username args) (password args) (prototype args) optarg)
      else if opt =? 117 then
        read_options opts (mkArguments (borker args) optarg (password args) (prototype args) (devicename args))
      else if opt =? 112 then
        read_options opts (mkArguments (borker args) (username args) optarg (prototype args) (devicename args))
      else if opt =? 72 then
        read_options opts (mkArguments optarg (username args) (password args) (prototype args) (devicename args))
      else None
  end.

(** A string that was given, or its default. *)
Definition or_default (s : option (list Z)) (default : list Z) : option (list Z) :=
  match s with Some _ => s | None => Some default end.

Definition with_defaults (args : Arguments) : Arguments :=
  mkArguments (or_default (borker args) BROKER) (or_default (username args) USERNAME)
    (or_default (password args) PASSWORD) (or_default (prototype args) PROTO_TYPE)
    (or_default (devicename args) DEVICE_NAME).

(** [None] while the program runs; it always returns 0. *)
Definition main (opts : list (Z * option (list Z))) (platform : bool) (agent : Agent) (s : @Setting unit P)
    (iterations : list (list IoEvent)) (turns : list turn) : Alloc (option Z) :=
  match read_options opts (mkArguments None None None None None) with
  | None => mret (Some 0)
  | Some args =>
      '(rc, _) ← iotea_client_run platform (with_defaults args) agent s iterations turns;
      mret (match rc with None => None | Some _ => Some 0 end)
  end.
End run.
End Run.
