(* ===== verification/PollTheory.v ===== *)
(** * PollTheory: the manager's circle and the sending thread.

    Section [manager] shows that the manager visits its descriptions in order and
    in a circle; Section [thread] has the invariants of the sending thread that
    the properties of [PollProperties] follow from. *)
From S2P Require Import Prelude.
From S2P Require Import CString.
From S2P Require Import SinglyLinkedList.
From S2P Require Import ProtocolManager.
From stdpp Require Import gmap strings.
From S2P Require Import IotMain.
#[local] Open Scope Z_scope.

Lemma lseg_nth {V} (h : heap V) p l j a v :
  lseg h p None l → l !! j = Some (a, v) →
  h !! a = Some (mkItem v (fst <$> l !! S j)).
Proof.
  revert p j. induction l as [|[b x] l IH]; intros p j; [done|].
  intros (-> & nx & E & Hl). destruct j as [|j]; cbn [lookup list_lookup].
  - intros [= -> ->]. rewrite E. do 2 f_equal. destruct l as [|[c y] l]; [done|].
    by destruct Hl as [-> _].
  - by eapply IH.
Qed.

Lemma lseg_head {V} (h : heap V) p l : lseg h p None l → p = fst <$> l !! 0%nat.
Proof. destruct l as [|[a x] l]; [done|]. by intros (-> & _). Qed.

Section manager.
Context {M G : Type}.
Implicit Types (m : Pm.Memory M) (g : G) (h : Pm.PM_INSTANCE M G).

(** A description with its request and its time record. *)
Definition described m (a : positive) : Prop :=
  ∃ i t r, Pm.infos m !! a = Some i ∧ Pm.time_to_send i = Some t ∧ Pm.data_request i = Some r.

(** The manager [h] walks the list [l] of items and descriptions, and is to
    visit position [j] next. *)
Record manages m h (l : list (positive * positive)) (j : nat) : Prop := {
  man_list : ∃ desc, Pm.data_desc h = Some desc ∧ is_list (Pm.items m) desc l;
  man_infos : ∀ a, a ∈ l.*2 → described m a;
  man_next : Pm.next_data_info h = fst <$> l !! j;
  man_pos : (j < length l)%nat }.

(** The memory after the time record of a description has changed. *)
Definition with_time (a : positive) (t : Pm.TIME_TO_SEND) m : Pm.Memory M :=
  Pm.mkMemory (Pm.items m)
    (alter (Pm.set_time t) a (Pm.infos m)).

Lemma store_time_spec a t m : described m a → Pm.store_time a t m = Some (with_time a t m).
Proof.
  intros (i & t0 & r & E & _). unfold Pm.store_time, with_time. rewrite E, bind_ret.
  do 2 f_equal. apply map_eq. intros b. destruct (decide (b = a)) as [->|].
  - by rewrite lookup_insert_eq, lookup_alter_eq, E.
  - by rewrite lookup_insert_ne, lookup_alter_ne by done.
Qed.

Lemma with_time_infos a t m b i :
  Pm.infos m !! b = Some i →
  Pm.infos (with_time a t m) !! b = Some (if decide (a = b) then Pm.set_time t i else i).
Proof.
  intros E. unfold with_time. cbn [Pm.infos]. destruct (decide (a = b)) as [->|].
  - by rewrite lookup_alter_eq, E.
  - by rewrite lookup_alter_ne by done.
Qed.

Lemma described_with_time a t m b : described m b → described (with_time a t m) b.
Proof.
  intros (i & t0 & r & E & Et & Er). unfold described. rewrite (with_time_infos _ _ _ _ _ E).
  destruct (decide (a = b)); [|eauto 10]. exists (Pm.set_time t i), t, r. by split_and!.
Qed.

Lemma manages_with_time m h l j a t : manages m h l j → manages (with_time a t m) h l j.
Proof.
  intros [Hl Hi Hn Hp]. split; [done| |done|done]. intros b Hb.
  by apply described_with_time, Hi.
Qed.

(** The manager after it has handed out position [j]. *)
Definition advanced h (l : list (positive * positive)) (j : nat) : Pm.PM_INSTANCE M G :=
  Pm.mkPm (Pm.ModelName h) (Pm.data_desc h) (Pm.interface h)
    (fst <$> l !! (S j mod length l)%nat) (fst <$> l !! j) (Pm.curr_data_info h).

Lemma get_next_spec m h l j :
  manages m h l j →
  ∃ p a i t, l !! j = Some (p, a) ∧ Pm.infos m !! a = Some i ∧ Pm.time_to_send i = Some t ∧
    let t' := Pm.set_last (bool_decide (S j = length l)) t in
    Pm.get_next_send_time m h = Some (with_time a t' m, advanced h l j, Some (a, t')) ∧
    manages (with_time a t' m) (advanced h l j) l (S j mod length l).
Proof.
  intros Hman. destruct Hman as [(desc & Hd & Hl) Hinfos Hnext Hpos] eqn:Eman. clear Eman.
  destruct (lookup_lt_is_Some_2 l j Hpos) as [[p a] El].
  assert (a ∈ l.*2) as Ha.
  { apply list_elem_of_fmap. exists (p, a). split; [done|]. by eapply list_elem_of_lookup_2. }
  destruct (Hinfos a Ha) as (i & t & r & Ei & Et & Er).
  exists p, a, i, t. split; [done|]. split; [done|]. split; [done|].
  destruct Hl as [Hseg Htail Hnd] eqn:Ehl. clear Ehl.
  pose proof (lseg_nth _ _ _ _ _ _ Hseg El) as Ep.
  assert ((S j < length l)%nat ∨ S j = length l) as Hcases by lia.
  set (last := bool_decide (S j = length l)). intros t'. split.
  - unfold Pm.get_next_send_time, Pm.item_info. rewrite Hnext, El. cbn [fmap option_fmap option_map fst].
    unfold singlylinkedlist_item_get_value, singlylinkedlist_get_next_item.
    rewrite Ep, !bind_ret. cbn [SinglyLinkedList.item next]. rewrite Ei, bind_ret, Et.
    unfold advanced. rewrite El.
    assert (described m a) as Hda by (exists i, t, r; auto).
    destruct Hcases as [Hlt|Heq].
    + destruct (lookup_lt_is_Some_2 l (S j) Hlt) as [[q b] Eq]. rewrite Nat.mod_small, Eq by lia.
      assert (last = false) as El' by (unfold last; case_bool_decide; [lia|done]).
      unfold t'. rewrite El'. cbn [fmap option_fmap option_map fst]. cbn -[Pm.store_time].
      by rewrite store_time_spec, bind_ret.
    + rewrite (lookup_ge_None_2 l (S j)) by lia. rewrite Heq, Nat.Div0.mod_same, Hd.
      assert (last = true) as El' by (unfold last; case_bool_decide; [done|lia]).
      unfold t'. rewrite El'. cbn -[Pm.store_time lookup].
      rewrite store_time_spec, bind_ret by done. do 4 f_equal. 
      by rewrite (lseg_head (Pm.items m) _ _ Hseg).
  - apply manages_with_time. split; [by exists desc|done|done|].
    cbn [advanced]. apply Nat.mod_upper_bound. lia.
Qed.

(** ** The circle *)

(** [n] calls of [get_next_send_time]: the descriptions handed out, and whether
    each was the last of the list. *)
Fixpoint next_times (n : nat) m h : option (list (positive * bool) * Pm.Memory M * Pm.PM_INSTANCE M G) :=
  match n with
  | O => Some ([], m, h)
  | S n =>
      '(m, h, r) ← Pm.get_next_send_time m h;
      '(a, t) ← r;
      '(rs, m, h) ← next_times n m h;
      Some ((a, Pm.isLastOne t) :: rs, m, h)
  end.

Lemma next_times_spec n m h l j :
  manages m h l j →
  ∃ rs m' h', next_times n m h = Some (rs, m', h') ∧ manages m' h' l ((j + n) mod length l) ∧
    length rs = n ∧
    ∀ k, (k < n)%nat → rs !! k = (λ e, (e.2, bool_decide (S ((j + k) mod length l) = length l)))
                                <$> l !! ((j + k) mod length l)%nat.
Proof.
  revert m h j. induction n as [|n IH]; intros m h j Hman.
  - exists [], m, h. split; [done|]. pose proof (man_pos _ _ _ _ Hman).
    rewrite Nat.add_0_r, Nat.mod_small by done. split; [done|]. split; [done|]. lia.
  - destruct (get_next_spec m h l j Hman) as (p & a & i & t & El & Ei & Et & E & Hman').
    pose proof (man_pos _ _ _ _ Hman) as Hpos.
    destruct (IH _ _ _ Hman') as (rs & m' & h' & En & Hm & Hlen & Hrs).
    cbn [next_times]. rewrite E, bind_ret. cbn [mbind option_bind]. rewrite En, bind_ret.
    do 3 eexists. split; [done|].
    rewrite Nat.Div0.add_mod_idemp_l in Hm. split; [by rewrite Nat.add_succ_r; rewrite Nat.add_succ_l in Hm|].
    split; [by simpl; rewrite Hlen|]. intros [|k] Hk.
    + rewrite Nat.add_0_r, Nat.mod_small by done. cbn [lookup list_lookup]. by rewrite El.
    + cbn [lookup list_lookup]. rewrite Hrs by lia.
      rewrite Nat.Div0.add_mod_idemp_l. by rewrite Nat.add_succ_r, Nat.add_succ_l.
Qed.
End manager.


(** ** The sending thread *)

Section thread.
Context {M G : Type} (W : Z) (localtime : Z → tm).
Implicit Types (m : Pm.Memory M) (h : Pm.PM_INSTANCE M G) (s : Thread M G) (t : Pm.TIME_TO_SEND).

Inductive mode := Realtime | Schfrz | Scheduled.

Definition mode_of t : mode :=
  if array_equal (Pm.acqMode t) (str "realtime") then Realtime
  else if array_equal (Pm.acqMode t) (str "schfrz") then Schfrz else Scheduled.

(** The part of a time record that the thread never changes, and the same of a
    description and of the memory. *)
Definition plan t : list Z * Z * Pm.Calendar * Pm.Calendar :=
  (Pm.acqMode t, Pm.acqInt t, Pm.startTime t, Pm.endTime t).
Definition fixed (i : Pm.PM_DATA_INFO M) := (Pm.data_request i, Pm.model_info i, plan <$> Pm.time_to_send i).
Definition unchanged m m' : Prop := fixed <$> Pm.infos m = fixed <$> Pm.infos m'.

Lemma mode_of_plan t t' : plan t = plan t' → mode_of t = mode_of t'.
Proof. unfold mode_of. by intros [= -> _ _ _]. Qed.

Lemma fixed_eq (i i' : Pm.PM_DATA_INFO M) :
  fixed i = fixed i' → Pm.data_request i = Pm.data_request i' ∧
    Pm.model_info i = Pm.model_info i' ∧ plan <$> Pm.time_to_send i = plan <$> Pm.time_to_send i'.
Proof. unfold fixed. intros. split_and!; congruence. Qed.

Lemma unchanged_lookup m m' a i :
  unchanged m m' → Pm.infos m !! a = Some i → ∃ i', Pm.infos m' !! a = Some i' ∧ fixed i = fixed i'.
Proof.
  intros E Ei. assert ((fixed <$> Pm.infos m) !! a = Some (fixed i)) as H by by rewrite lookup_fmap, Ei.
  rewrite E, lookup_fmap in H. destruct (Pm.infos m' !! a) as [i'|]; [|done].
  exists i'. split; [done|]. cbn in H. congruence.
Qed.

Lemma unchanged_with_time m a i t t' :
  Pm.infos m !! a = Some i → Pm.time_to_send i = Some t → plan t' = plan t →
  unchanged (with_time a t' m) m.
Proof.
  intros Ei Et Ep. apply map_eq. intros b. rewrite !lookup_fmap. unfold with_time. cbn [Pm.infos].
  destruct (decide (b = a)) as [->|]; [|by rewrite lookup_alter_ne by done].
  rewrite lookup_alter_eq, Ei. cbn -[plan]. unfold fixed. cbn -[plan]. rewrite Et. cbn -[plan].
  by rewrite Ep.
Qed.

Lemma with_time_twice m a t t' : with_time a t' (with_time a t m) = with_time a t' m.
Proof.
  unfold with_time. cbn [Pm.infos Pm.items]. f_equal. apply map_eq. intros b.
  destruct (decide (b = a)) as [->|]; [|by rewrite !lookup_alter_ne by done].
  rewrite !lookup_alter_eq. by destruct (Pm.infos m !! a).
Qed.

(** The manager after the request of position [j] has been taken. *)
Definition requested h (l : list (positive * positive)) (j : nat) : Pm.PM_INSTANCE M G :=
  let h := advanced h l j in
  Pm.mkPm (Pm.ModelName h) (Pm.data_desc h) (Pm.interface h) (Pm.next_data_info h)
    (Pm.prev_data_info h) (Pm.prev_data_info h).

(** When a request may be sent. *)
Definition allowed t (i : input) s : Prop :=
  match mode_of t with
  | Realtime => task_lock (map s) = false ∧
      elapsed W (current_tick i) (Pm.packetSendTime t) (Pm.acqInt t) = true
  | Schfrz => Pm.freezing t = true ∧
      elapsed W (current_tick i) (Pm.packetSendTime t) (Pm.acqInt t) = true
  | Scheduled => elapsed W (current_tick i) (Pm.packetSendTime t) 60 = true ∧
      ∃ temp_time, whole_minute (current_time i) = Some temp_time ∧
        in_calendar (Pm.startTime t) (localtime temp_time) = Some true
  end.

(** When nothing is sent. *)
Definition idles t (i : input) s : Prop :=
  match mode_of t with
  | Realtime => elapsed W (current_tick i) (Pm.packetSendTime t) (Pm.acqInt t) = false ∨
      (task_lock (map s) = true ∧ ∃ last, last_send_tick s = Some last ∧
        elapsed W (current_tick i) last 2 = false)
  | Schfrz => Pm.freezing t = false ∨
      elapsed W (current_tick i) (Pm.packetSendTime t) (Pm.acqInt t) = false
  | Scheduled => elapsed W (current_tick i) (Pm.packetSendTime t) 60 = false ∨
      whole_minute (current_time i) = None ∨
      ∃ temp_time, whole_minute (current_time i) = Some temp_time ∧
        in_calendar (Pm.startTime t) (localtime temp_time) = Some false
  end.

(** What an iteration does once the channel has been served: the thread was in
    [s], with the description [a] next, whose time record was [t]. *)
Inductive outcome h l j (a : positive) t (r : Pm.DATA_REQUEST) (i : input) s : Thread M G → Prop :=
  | outcome_idle t' :
      plan t' = plan t → Pm.packetSendTime t' = Pm.packetSendTime t → idles t i s →
      outcome h l j a t r i s
        (mkThread (set_handle (advanced h l j) (map s)) (with_time a t' (mem s)) (glob s)
           (last_send_tick s) (trace s))
  | outcome_sent t' c last :
      plan t' = plan t → Pm.packetSendTime t' = current_tick i → allowed t i s →
      (c, last) = match mode_of t with
                  | Realtime => (set_lock true (map s), Some (current_tick i))
                  | Schfrz => (set_lock true (map s), last_send_tick s)
                  | Scheduled => (map s, last_send_tick s)
                  end →
      outcome h l j a t r i s
        (mkThread (set_handle (requested h l j) c) (with_time a t' (mem s)) (glob s)
           last (Sent (current_tick i) a r :: trace s))
  | outcome_timeout t' last c :
      mode_of t = Realtime → plan t' = plan t → Pm.packetSendTime t' = Pm.packetSendTime t →
      task_lock (map s) = true → last_send_tick s = Some last →
      elapsed W (current_tick i) last 2 = true →
      c = set_count (time_out_count (map s) + 1)
            (set_lock false (set_handle (advanced h l j) (map s))) →
      outcome h l j a t r i s
        (mkThread (if 5 <=? time_out_count c then set_stop true c else c)
           (with_time a t' (mem s)) (glob s) (last_send_tick s) (trace s)).

Lemma item_info_spec m h l j k p a :
  manages m h l k → l !! j = Some (p, a) → Pm.item_info m (Some p) = Some (Some a).
Proof.
  intros [(desc & _ & [Hl _ _]) _ _ _] El. unfold Pm.item_info, singlylinkedlist_item_get_value.
  by rewrite (lseg_nth _ _ _ _ _ _ Hl El).
Qed.

Lemma get_request_spec m h l j k p a i r :
  manages m (advanced h l j) l k → l !! j = Some (p, a) →
  Pm.infos m !! a = Some i → Pm.data_request i = Some r →
  Pm.get_request_data m (advanced h l j) = Some (requested h l j, Some r).
Proof.
  intros Hm El Ei Er. unfold Pm.get_request_data.
  assert (Pm.item_info m (Pm.prev_data_info (advanced h l j)) = Some (Some a)) as ->.
  { unfold advanced. cbn [Pm.prev_data_info]. rewrite El. by eapply item_info_spec. }
  by rewrite bind_ret, Ei, bind_ret, Er.
Qed.

Lemma send_request_spec tick p a i r h l j k s :
  manages (mem s) (advanced h l j) l k → l !! j = Some (p, a) →
  pm_handle (map s) = Some (advanced h l j) →
  Pm.infos (mem s) !! a = Some i → Pm.data_request i = Some r →
  send_request tick a s =
    Some (emit (Sent tick a r) (set_map (set_handle (requested h l j) (map s)) s)).
Proof.
  intros Hm El Eh Ei Er. unfold send_request.
  by rewrite Eh, bind_ret, (get_request_spec _ _ _ _ _ _ _ _ _ Hm El Ei Er).
Qed.

Lemma bind_Some {A B} (o : option A) (f : A → option B) b :
  o ≫= f = Some b → ∃ x, o = Some x ∧ f x = Some b.
Proof. destruct o as [x|]; [|done]. intros. by exists x. Qed.

(** A calendar with an entry for every value of [localtime]'s fields. *)
Definition complete (c : Pm.Calendar) : Prop :=
  length (Pm.Mins c) = 60%nat ∧ length (Pm.Hous c) = 24%nat ∧
  length (Pm.Days c) = 32%nat ∧ length (Pm.Mons c) = 12%nat.
Definition clock_ok (time_info : tm) : Prop :=
  0 <= tm_min time_info < 60 ∧ 0 <= tm_hour time_info < 24 ∧
  0 <= tm_mday time_info < 32 ∧ 0 <= tm_mon time_info < 12.

Lemma in_calendar_total c time_info :
  complete c → clock_ok time_info → ∃ b, in_calendar c time_info = Some b.
Proof.
  intros (H1 & H2 & H3 & H4) (T1 & T2 & T3 & T4). unfold in_calendar.
  destruct (lookup_lt_is_Some_2 (Pm.Mins c) (Z.to_nat (tm_min time_info))) as [mi ->]; [lia|].
  destruct (lookup_lt_is_Some_2 (Pm.Hous c) (Z.to_nat (tm_hour time_info))) as [ho ->]; [lia|].
  destruct (lookup_lt_is_Some_2 (Pm.Days c) (Z.to_nat (tm_mday time_info))) as [da ->]; [lia|].
  destruct (lookup_lt_is_Some_2 (Pm.Mons c) (Z.to_nat (tm_mon time_info))) as [mo ->]; [lia|].
  rewrite !bind_ret. destruct (mi =? 0), (ho =? 0), (da =? 0); eauto.
Qed.

(** One mode at a time: what [realtime], [schfrz] and [scheduled] do with the
    description [a] that the manager has just handed out. *)
Section iteration.
Context (h : Pm.PM_INSTANCE M G) (l : list (positive * positive)) (j : nat)
  (p a : positive) (inf : Pm.PM_DATA_INFO M) (t : Pm.TIME_TO_SEND) (r : Pm.DATA_REQUEST)
  (i : input) (s : Thread M G) (b : bool).
Hypothesis El : l !! j = Some (p, a).
Hypothesis Ei : Pm.infos (mem s) !! a = Some inf.
Hypothesis Et : Pm.time_to_send inf = Some t.
Hypothesis Er : Pm.data_request inf = Some r.

(** The time record and the thread after [get_next_send_time]. *)
Definition handed_time : Pm.TIME_TO_SEND := Pm.set_last b t.
Definition handed : Thread M G :=
  set_mem (with_time a handed_time (mem s)) (set_map (set_handle (advanced h l j) (map s)) s).
Hypothesis Hm : manages (mem handed) (advanced h l j) l (S j mod length l).

Lemma handed_send tick :
  send_request tick a handed =
    Some (emit (Sent tick a r) (set_map (set_handle (requested h l j) (map handed)) handed)).
Proof.
  eapply send_request_spec; [done..| |].
  - apply with_time_infos. done.
  - rewrite decide_True by done. done.
Qed.

Lemma handed_store t' s' :
  mem s' = mem handed → Pm.store_time a t' (mem s') = Some (with_time a t' (mem s)).
Proof.
  intros ->. rewrite store_time_spec.
  - cbn. by rewrite with_time_twice.
  - unfold handed. cbn. apply described_with_time. exists inf, t, r. auto.
Qed.

Lemma handed_idle t' :
  plan t' = plan t → Pm.packetSendTime t' = Pm.packetSendTime t → idles t i s →
  outcome h l j a t r i s (set_mem (with_time a t' (mem s)) handed).
Proof. intros. by apply (outcome_idle h l j a t r i s t'). Qed.

Lemma realtime_outcome s' :
  mode_of t = Realtime →
  realtime W a handed_time (current_tick i) handed = Some s' →
  outcome h l j a t r i s s'.
Proof.
  intros Hmode. unfold realtime.
  destruct (elapsed _ _ _ (Pm.acqInt _)) eqn:Eel.
  2:{ intros [= <-]. apply (handed_idle handed_time); [done..|]. unfold idles. rewrite Hmode. by left. }
  destruct (task_lock (map handed)) eqn:Elock; cbn [negb].
  - intros (last & Elast & H)%bind_Some. revert H. destruct (elapsed _ _ last 2) eqn:Eel2; intros [= <-].
    + by apply (outcome_timeout h l j a t r i s handed_time last
        (set_count (time_out_count (map s) + 1) (set_lock false (map handed)))).
    + apply (handed_idle handed_time); [done..|]. unfold idles. rewrite Hmode. right. split; [done|].
      by exists last.
  - rewrite handed_send, bind_ret, handed_store, bind_ret by done. intros [= <-].
    apply (outcome_sent h l j a t r i s (set_sent (current_tick i) handed_time)
      (set_lock true (map s)) (Some (current_tick i))); [done..| |].
    + unfold allowed. by rewrite Hmode.
    + by rewrite Hmode.
Qed.

Lemma update_freezing_plan now t1 t2 :
  update_freezing localtime now t1 = Some t2 →
  plan t2 = plan t1 ∧ Pm.packetSendTime t2 = Pm.packetSendTime t1.
Proof.
  unfold update_freezing. destruct (whole_minute _) as [tt|]; [|by intros [= <-]].
  intros (start & _ & (stop & _ & [= <-])%bind_Some)%bind_Some. by destruct start, stop.
Qed.

Lemma schfrz_outcome s' :
  mode_of t = Schfrz →
  schfrz W localtime a handed_time (current_tick i) (current_time i) handed = Some s' →
  outcome h l j a t r i s s'.
Proof.
  intros Hmode. unfold schfrz. intros ([s1 t1] & E1 & (t2 & E2 & H)%bind_Some)%bind_Some.
  apply update_freezing_plan in E2 as [Hp2 Hs2].
  revert E1. destruct (Pm.freezing handed_time && _) eqn:Ec.
  - rewrite handed_send, bind_ret. intros [= <- <-]. revert H.
    rewrite handed_store, bind_ret by done. intros [= <-].
    apply (outcome_sent h l j a t r i s t2 (set_lock true (map s)) (last_send_tick s));
      [by rewrite Hp2|by rewrite Hs2| |by rewrite Hmode].
    apply andb_true_iff in Ec. unfold allowed. by rewrite Hmode.
  - intros [= <- <-]. revert H. rewrite handed_store, bind_ret by done. intros [= <-].
    apply handed_idle; [by rewrite Hp2|by rewrite Hs2|].
    apply andb_false_iff in Ec. unfold idles. by rewrite Hmode.
Qed.

Lemma scheduled_outcome s' :
  mode_of t = Scheduled →
  scheduled W localtime a handed_time (current_tick i) (current_time i) handed = Some s' →
  outcome h l j a t r i s s'.
Proof.
  intros Hmode. unfold scheduled.
  destruct (elapsed _ _ _ 60) eqn:Eel.
  2:{ intros [= <-]. apply (handed_idle handed_time); [done..|]. unfold idles. rewrite Hmode. by left. }
  destruct (whole_minute _) as [tt|] eqn:Ett.
  2:{ intros [= <-]. apply (handed_idle handed_time); [done..|]. unfold idles. rewrite Hmode. auto. }
  intros (start & Estart & H)%bind_Some. revert H. destruct start.
  - rewrite handed_send, bind_ret, handed_store, bind_ret by done. intros [= <-].
    apply (outcome_sent h l j a t r i s (set_sent (current_tick i) handed_time)
      (map s) (last_send_tick s)); [done..| |].
    + unfold allowed. rewrite Hmode. split; [done|]. by exists tt.
    + by rewrite Hmode.
  - intros [= <-]. apply (handed_idle handed_time); [done..|]. unfold idles. rewrite Hmode. eauto.
Qed.

(** *** When it is defined *)

Lemma realtime_total :
  (task_lock (map s) = true → is_Some (last_send_tick s)) →
  is_Some (realtime W a handed_time (current_tick i) handed).
Proof.
  intros Hlast. unfold realtime. destruct (elapsed _ _ _ (Pm.acqInt _)); [|done].
  destruct (task_lock (map handed)) eqn:Elock; cbn [negb].
  - destruct (Hlast Elock) as [last E].
    assert (last_send_tick handed = Some last) as -> by done. rewrite bind_ret.
    by destruct (elapsed _ _ _ _).
  - by rewrite handed_send, bind_ret, handed_store, bind_ret by done.
Qed.

Context (time_ok : ∀ z, clock_ok (localtime z)).

Lemma schfrz_total :
  complete (Pm.startTime t) → complete (Pm.endTime t) →
  is_Some (schfrz W localtime a handed_time (current_tick i) (current_time i) handed).
Proof.
  intros Hstart Hend. unfold schfrz.
  assert (∀ t', plan t' = plan t →
    ∃ t2, update_freezing localtime (current_time i) t' = Some t2) as Ht2.
  { intros t' [= _ _ E1 E2]. unfold update_freezing. destruct (whole_minute _) as [tt|]; [|eauto].
    rewrite E1, E2. destruct (in_calendar_total _ _ Hstart (time_ok tt)) as [b1 ->].
    destruct (in_calendar_total _ _ Hend (time_ok tt)) as [b2 ->]. eauto. }
  destruct (Pm.freezing handed_time && _).
  - rewrite handed_send, !bind_ret.
    destruct (Ht2 (set_sent (current_tick i) handed_time)) as [t2 ->]; [done|].
    by rewrite bind_ret, handed_store, bind_ret by done.
  - rewrite bind_ret. destruct (Ht2 handed_time) as [t2 ->]; [done|].
    by rewrite bind_ret, handed_store, bind_ret by done.
Qed.

Lemma scheduled_total :
  complete (Pm.startTime t) →
  is_Some (scheduled W localtime a handed_time (current_tick i) (current_time i) handed).
Proof.
  intros Hstart. unfold scheduled. destruct (elapsed _ _ _ _); [|done].
  destruct (whole_minute _) as [tt|]; [|done].
  destruct (in_calendar_total (Pm.startTime handed_time) _ Hstart (time_ok tt)) as [b1 ->].
  rewrite bind_ret. destruct b1; [|done].
  by rewrite handed_send, bind_ret, handed_store, bind_ret by done.
Qed.
End iteration.

(** ** Invariants *)

Lemma iteration_spec l j h i s s1 s' :
  task_stop (map s) = false → xio_dowork (events i) s = Some s1 →
  pm_handle (map s1) = Some h → manages (mem s1) h l j →
  send_resquest_thread W localtime i s = Some s' →
  ∃ p a inf t r, l !! j = Some (p, a) ∧ Pm.infos (mem s1) !! a = Some inf ∧
    Pm.time_to_send inf = Some t ∧ Pm.data_request inf = Some r ∧ outcome h l j a t r i s1 s'.
Proof.
  intros Hstop E Eh Hman. unfold send_resquest_thread.
  rewrite Hstop, E, bind_ret, Eh, bind_ret.
  destruct (get_next_spec _ _ _ _ Hman) as (p & a & inf & t & El & Ei & Et & En & Hm).
  destruct (man_infos _ _ _ _ Hman a) as (inf' & t'' & r & Ei' & _ & Er).
  { apply list_elem_of_fmap. exists (p, a). split; [done|]. by eapply list_elem_of_lookup_2. }
  assert (inf' = inf) as -> by congruence.
  rewrite En, bind_ret. intros H. exists p, a, inf, t, r. do 4 (split; [done|]). revert H.
  set (b := bool_decide (S j = length l)) in *.
  change (array_equal (Pm.acqMode (Pm.set_last b t))) with (array_equal (Pm.acqMode t)).
  pose proof (realtime_outcome h l j p a inf t r i s1 b El Ei Et Er Hm s') as H1.
  pose proof (schfrz_outcome h l j p a inf t r i s1 b El Ei Et Er Hm s') as H2.
  pose proof (scheduled_outcome h l j p a inf t r i s1 b El Ei Et Er Hm s') as H3.
  unfold mode_of in *.
  destruct (array_equal _ (str "realtime")); [by apply H1|].
  destruct (array_equal _ (str "schfrz")); [by apply H2|by apply H3].
Qed.

(** The description of the most recent request. *)
Fixpoint last_sent (tr : list output) : option positive :=
  match tr with
  | [] => None
  | Sent _ a _ :: _ => Some a
  | _ :: tr => last_sent tr
  end.

(** What a reception does. *)
Inductive received (buffer : list Z) s : Thread M G → Prop :=
  | received_nothing : buffer = [] → received buffer s s
  | received_bytes h g out :
      pm_handle (map s) = Some h →
      g = glob s ∨ (∃ o, Pm.data_response_parse (mem s) (glob s) h
          (Pm.mkResponse buffer (u8 (Z.of_nat (length buffer)))) = Some (g, o)) →
      out = [] ∨ (∃ p, out = [Published p] ∧
        Pm.data_response_parse (mem s) (glob s) h
          (Pm.mkResponse buffer (u8 (Z.of_nat (length buffer)))) = Some (g, Some p)) →
      received buffer s
        (mkThread (set_count 0 (set_lock false (map s))) (mem s) g (last_send_tick s)
           (out ++ Got buffer :: trace s)).

Lemma received_spec malloc_ok buffer h s s' :
  pm_handle (map s) = Some h →
  on_io_bytes_received malloc_ok buffer s = Some s' → received buffer s s'.
Proof.
  intros Eh. destruct buffer as [|b0 buffer]; [intros [= <-]; by constructor|].
  set (buf := b0 :: buffer). unfold on_io_bytes_received, buf. fold buf. cbn [map emit set_map].
  change (pm_handle (set_count 0 (set_lock false (map s)))) with (pm_handle (map s)). rewrite Eh.
  destruct malloc_ok; cbn [negb].
  - intros ([g o] & E & H)%bind_Some. destruct o as [p|].
    + apply bind_Some in H as (x & _ & [= <-]).
      apply (received_bytes buf s h g [Published p]); [done|eauto|]. right. by exists p.
    + injection H as <-. apply (received_bytes buf s h g []); eauto.
  - intros [= <-]. apply (received_bytes buf s h (glob s) []); eauto.
Qed.

(** The invariant every thread keeps: its manager, with the driver [itf], walks
    [l]; the memory is that of [m0] up to what the thread changes; responses go
    to the description of the most recent request. *)
Record polls itf m0 (l : list (positive * positive)) s : Prop := {
  polls_unchanged : unchanged (mem s) m0;
  polls_manages : ∃ h j, pm_handle (map s) = Some h ∧ manages (mem s) h l j ∧
    Pm.interface h = itf ∧
    match last_sent (trace s) with
    | None => Pm.curr_data_info h = None
    | Some a => ∃ k p, l !! k = Some (p, a) ∧ Pm.curr_data_info h = Some p
    end }.

Section polls.
Context (itf : Pm.INTER_DESCRIPTION M G) (m0 : Pm.Memory M) (l : list (positive * positive)).

Lemma polls_received buffer s s' : polls itf m0 l s → received buffer s s' → polls itf m0 l s'.
Proof.
  intros Hp H. destruct H as [|h' g out Eh _ Hout]; [done|]. destruct Hp as [Hu (h & j & E & Hm & Hi & Hc)].
  split; [done|]. exists h, j. split_and!; [done..|].
  by destruct Hout as [->|(p & -> & _)].
Qed.

Lemma polls_error s : polls itf m0 l s → polls itf m0 l (on_io_error s).
Proof. intros []. by split. Qed.

Lemma polls_outcome h j p a inf t r i s s' :
  polls itf m0 l s → pm_handle (map s) = Some h → manages (mem s) h l j →
  l !! j = Some (p, a) → Pm.infos (mem s) !! a = Some inf → Pm.time_to_send inf = Some t →
  outcome h l j a t r i s s' → polls itf m0 l s'.
Proof.
  intros [Hu (h' & j' & Eh' & _ & Hi & Hc)] Eh Hm El Ei Et Ho.
  assert (h' = h) as -> by congruence. clear Eh'.
  assert (∀ t', plan t' = plan t → unchanged (with_time a t' (mem s)) m0) as Hu'.
  { intros t' Ep. etrans; [by eapply unchanged_with_time|done]. }
  assert (∀ t' h', Pm.data_desc h' = Pm.data_desc h →
    Pm.next_data_info h' = fst <$> l !! (S j mod length l)%nat →
    manages (with_time a t' (mem s)) h' l (S j mod length l)) as Hman.
  { intros t' h' Ed En. apply manages_with_time. destruct Hm as [Hl Hin _ Hpos].
    split; [by rewrite Ed|done|done|]. apply Nat.mod_upper_bound. lia. }
  destruct Ho.
  - split; [by apply Hu'|]. exists (advanced h l j), (S j mod length l)%nat. split_and!; [done|by apply Hman|done|done].
  - split; [by apply Hu'|]. exists (requested h l j), (S j mod length l)%nat.
    split_and!; [done|by apply Hman|done|]. exists j, p. split; [done|]. cbn. by rewrite El.
  - split; [by apply Hu'|]. exists (advanced h l j), (S j mod length l)%nat.
    split_and!; [by subst; destruct (5 <=? _)|by apply Hman|done|done].
Qed.

(** Induction over a run. [Q] holds between iterations; [P] within one: it is
    kept by receptions and errors, and the outcome establishes [Q] again. *)
Section run_ind.
Context (P Q : Thread M G → Prop).
Hypothesis Q_P : ∀ s, task_stop (map s) = false → Q s → P s.
Hypothesis P_received : ∀ buffer s s', polls itf m0 l s → received buffer s s' → P s → P s'.
Hypothesis P_error : ∀ s, P s → P (on_io_error s).
Hypothesis P_outcome : ∀ h j p a inf t r i s s',
  polls itf m0 l s → l !! j = Some (p, a) → Pm.infos (mem s) !! a = Some inf →
  Pm.time_to_send inf = Some t → Pm.data_request inf = Some r →
  outcome h l j a t r i s s' → P s → Q s'.

Lemma dowork_ind ev s s' :
  polls itf m0 l s → P s → xio_dowork ev s = Some s' → polls itf m0 l s' ∧ P s'.
Proof.
  revert s. induction ev as [|[ok buf|] ev IH]; intros s Hp HP; cbn [xio_dowork].
  - by intros [= <-].
  - intros (s1 & E & H)%bind_Some. destruct (Hp) as [? (h & j & Eh & Hr)].
    assert (received buf s s1) as Hrec by by eapply received_spec.
    eapply IH; [by eapply polls_received|by eapply P_received|done].
  - intros H. eapply IH; [by apply polls_error|by apply P_error|done].
Qed.

Lemma iteration_ind i s s' :
  polls itf m0 l s → Q s → send_resquest_thread W localtime i s = Some s' →
  polls itf m0 l s' ∧ Q s'.
Proof.
  intros Hp HQ H. destruct (task_stop (map s)) eqn:Hstop.
  { unfold send_resquest_thread in H. rewrite Hstop in H. by injection H as <-. }
  assert (∃ s1, xio_dowork (events i) s = Some s1) as [s1 E1].
  { unfold send_resquest_thread in H. rewrite Hstop in H. apply bind_Some in H as (s1 & ? & _). eauto. }
  destruct (dowork_ind _ _ _ Hp (Q_P _ Hstop HQ) E1) as [Hp1 HP1].
  destruct (Hp1) as [Hu (h & j & Eh & Hm & Hi & Hc)].
  destruct (iteration_spec _ _ _ _ _ _ _ Hstop E1 Eh Hm H) as (p & a & inf & t & r & El & Ei & Et & Er & Ho).
  split; [by eapply polls_outcome|by eapply P_outcome].
Qed.

Lemma run_ind inputs s s' :
  polls itf m0 l s → Q s → run W localtime inputs s = Some s' → polls itf m0 l s' ∧ Q s'.
Proof.
  revert s. induction inputs as [|i inputs IH]; intros s Hp HQ; cbn [run].
  - by intros [= <-].
  - intros (s1 & E & H)%bind_Some. destruct (iteration_ind _ _ _ Hp HQ E). by eapply IH.
Qed.
End run_ind.

(** *** Definedness *)

(** What a run needs of the driver and of the descriptions: the driver parses any
    bytes when its globals satisfy [good], keeps them so, and its payloads have a
    text; every description has a model and complete calendars; ["schfrz"] and
    ["realtime"] are not mixed. *)
Definition described_by a i0 : Prop := a ∈ l.*2 ∧ Pm.infos m0 !! a = Some i0.
Definition in_mode (md : mode) : Prop :=
  ∃ a i t, described_by a i ∧ Pm.time_to_send i = Some t ∧ mode_of t = md.

Record sound (good : G → Prop) : Prop := {
  sound_parse : ∀ a i0 i model g buf, described_by a i0 → fixed i = fixed i0 →
    Pm.model_info i = Some model → good g → bytes buf →
    ∃ g' o, Pm.response_parse itf g model i (Pm.mkResponse buf (u8 (Z.of_nat (length buf)))) = Some (g', o) ∧
      good g' ∧ ∀ p, o = Some p → is_Some (Pm.payload p);
  sound_model : ∀ a i, described_by a i → is_Some (Pm.model_info i);
  sound_plan : ∀ a i t, described_by a i → Pm.time_to_send i = Some t →
    complete (Pm.startTime t) ∧ complete (Pm.endTime t);
  sound_modes : ¬ in_mode Schfrz ∨ ¬ in_mode Realtime }.

(** With no ["schfrz"] description, a locked thread has a tick of its last request. *)
Definition ticked s : Prop :=
  ¬ in_mode Schfrz → task_lock (map s) = true → is_Some (last_send_tick s).

Lemma elem_position (a : positive) : a ∈ l.*2 ↔ ∃ k p, l !! k = Some (p, a).
Proof.
  split.
  - intros ([p a'] & -> & [k E]%list_elem_of_lookup)%list_elem_of_fmap. eauto.
  - intros (k & p & E). apply list_elem_of_fmap. exists (p, a). split; [done|].
    by eapply list_elem_of_lookup_2.
Qed.

Lemma described_plan s j p a inf t :
  polls itf m0 l s → l !! j = Some (p, a) → Pm.infos (mem s) !! a = Some inf →
  Pm.time_to_send inf = Some t →
  ∃ i0 t0, described_by a i0 ∧ fixed inf = fixed i0 ∧ Pm.time_to_send i0 = Some t0 ∧ plan t = plan t0.
Proof.
  intros [Hu _] El Ei Et. destruct (unchanged_lookup _ _ _ _ Hu Ei) as (i0 & E0 & Hf).
  pose proof (fixed_eq _ _ Hf) as (_ & _ & Hp). rewrite Et in Hp.
  destruct (Pm.time_to_send i0) as [t0|] eqn:Et0; [|done].
  exists i0, t0. split; [|split; [done|split; [done|]]].
  - split; [apply elem_position; eauto|done].
  - cbn -[plan] in Hp. congruence.
Qed.

Lemma described_mode s j p a inf t :
  polls itf m0 l s → l !! j = Some (p, a) → Pm.infos (mem s) !! a = Some inf →
  Pm.time_to_send inf = Some t → in_mode (mode_of t).
Proof.
  intros Hp El Ei Et. destruct (described_plan _ _ _ _ _ _ Hp El Ei Et) as (i0 & t0 & Hd & _ & E0 & Ep).
  exists a, i0, t0. split; [done|]. split; [done|]. by apply mode_of_plan.
Qed.

Lemma ticked_received buffer s s' : received buffer s s' → ticked s → ticked s'.
Proof. by intros []. Qed.

Lemma ticked_outcome h j p a inf t r i s s' :
  polls itf m0 l s → l !! j = Some (p, a) → Pm.infos (mem s) !! a = Some inf →
  Pm.time_to_send inf = Some t → outcome h l j a t r i s s' → ticked s → ticked s'.
Proof.
  intros Hp El Ei Et Ho Ht Hno. pose proof (described_mode _ _ _ _ _ _ Hp El Ei Et) as Hmode.
  specialize (Ht Hno). destruct Ho as [|t' c last _ _ _ Hc|t' last c _ _ _ _ Hl _ ->]; [done| |].
  - destruct (mode_of t); injection Hc as -> ->; [by eexists|done|done].
  - cbn. by destruct (5 <=? _).
Qed.

(** A reception has bytes. *)
Definition heard (ev : io_event) : Prop :=
  match ev with BytesReceived _ buffer => bytes buffer | IoError => True end.

(** What the manager makes of a response. *)
Lemma response_parsed s h resp g o :
  polls itf m0 l s → pm_handle (map s) = Some h →
  Pm.data_response_parse (mem s) (glob s) h resp = Some (g, o) →
  ∃ a i0 i model, last_sent (trace s) = Some a ∧ described_by a i0 ∧ fixed i = fixed i0 ∧
    Pm.model_info i = Some model ∧ Pm.response_parse itf (glob s) model i resp = Some (g, o).
Proof.
  intros [Hu (h' & j & Eh' & Hm & Hi & Hc)] Eh Hparse. assert (h' = h) as -> by congruence.
  unfold Pm.data_response_parse in Hparse.
  apply bind_Some in Hparse as (_ & _ & (x & Ex & (a & -> & (i & Ei & (model & Em & Hparse)%bind_Some)%bind_Some)%bind_Some)%bind_Some).
  destruct (last_sent (trace s)) as [a'|] eqn:Els; [|by rewrite Hc in Ex].
  destruct Hc as (k & q & Ek & Ecurr). rewrite Ecurr, (item_info_spec _ _ _ _ _ _ _ Hm Ek) in Ex.
  injection Ex as ->. destruct (unchanged_lookup _ _ _ _ Hu Ei) as (i0 & E0 & Hf).
  exists a, i0, i, model. rewrite <- Hi. split_and!; [done| |done|done|done]. split; [apply elem_position; eauto|done].
Qed.

(** A response to the request of [a] that the driver makes a payload of. *)
Lemma reception_published buffer s a i0 model (Q : Pm.DATA_PAYLOAD → Prop) :
  polls itf m0 l s → last_sent (trace s) = Some a → Pm.infos m0 !! a = Some i0 →
  Pm.model_info i0 = Some model → buffer ≠ [] →
  (∀ i, fixed i = fixed i0 → ∃ g p,
     Pm.response_parse itf (glob s) model i (Pm.mkResponse buffer (u8 (Z.of_nat (length buffer)))) =
       Some (g, Some p) ∧ is_Some (Pm.payload p) ∧ Q p) →
  ∃ s' p, on_io_bytes_received true buffer s = Some s' ∧ Q p ∧
    trace s' = Published p :: Got buffer :: trace s ∧
    task_lock (map s') = false ∧ time_out_count (map s') = 0.
Proof.
  intros [Hu (h & j & Eh & Hm & Hi & Hc)] Els E0 Em Hb Hparse. rewrite Els in Hc.
  destruct Hc as (k & p & Ek & Ecurr). destruct (man_list _ _ _ _ Hm) as (desc & Ed & _).
  assert (described (mem s) a) as (i & t & r & Ei & _).
  { apply (man_infos _ _ _ _ Hm), elem_position. eauto. }
  destruct (unchanged_lookup _ _ _ _ Hu Ei) as (i0' & E0' & Hf).
  assert (i0' = i0) as -> by congruence. destruct (Hparse i Hf) as (g & pay & E & [x Ex] & HQ).
  assert (Pm.model_info i = Some model) as Em' by by destruct (fixed_eq _ _ Hf) as (_ & -> & _).
  unfold on_io_bytes_received. destruct buffer as [|b0 buffer]; [done|]. set (buf := b0 :: buffer) in *.
  cbn [map emit set_map].
  change (pm_handle (set_count 0 (set_lock false (map s)))) with (pm_handle (map s)). rewrite Eh.
  cbn [negb]. unfold Pm.data_response_parse. cbn [mem glob set_map emit].
  rewrite Ed, bind_ret, Ecurr, (item_info_spec _ _ _ _ _ _ _ Hm Ek), !bind_ret, Ei, bind_ret, Em', bind_ret, Hi, E, bind_ret.
  rewrite Ex, bind_ret. by exists (emit (Published pay) (set_glob g (set_map (set_count 0 (set_lock false (map s))) (emit (Got buf) s)))), pay.
Qed.

Section sound.
Context (good : G → Prop) (Hs : sound good).

(** A response that comes before the first request. *)
Definition early (ev : io_event) : Prop :=
  match ev with BytesReceived true (_ :: _) => True | _ => False end.

#[global] Instance early_dec ev : Decision (early ev).
Proof. destruct ev as [[] []|]; apply _. Defined.

Lemma received_good buffer s s' :
  polls itf m0 l s → bytes buffer → received buffer s s' → good (glob s) → good (glob s').
Proof using Hs.
  intros Hp Hb Hr Hg. destruct Hr as [|h g out Eh [->|[o Hparse]] _]; [done|done|].
  destruct (response_parsed _ _ _ _ _ Hp Eh Hparse) as (a & i0 & i & model & _ & Hd & Hf & Em & E).
  destruct (sound_parse _ Hs a i0 i model (glob s) buffer Hd Hf Em Hg Hb) as (g' & o' & E' & Hg' & _).
  cbn. congruence.
Qed.

Lemma received_total malloc_ok buffer s :
  polls itf m0 l s → good (glob s) → bytes buffer →
  last_sent (trace s) ≠ None ∨ ¬ early (BytesReceived malloc_ok buffer) →
  ∃ s', on_io_bytes_received malloc_ok buffer s = Some s'.
Proof using Hs.
  intros [Hu (h & j & Eh & Hm & Hi & Hc)] Hg Hb Hearly. unfold on_io_bytes_received.
  destruct buffer as [|b0 buffer]; [eauto|]. set (buf := b0 :: buffer) in *. cbn [map emit set_map].
  change (pm_handle (set_count 0 (set_lock false (map s)))) with (pm_handle (map s)). rewrite Eh.
  destruct malloc_ok; cbn [negb]; [|eauto].
  destruct (last_sent (trace s)) as [a|] eqn:Els; [|exfalso; destruct Hearly as [H|H]; [done|by apply H]].
  destruct Hc as (k & p & Ek & Ecurr). destruct (man_list _ _ _ _ Hm) as (desc & Ed & _).
  assert (described (mem s) a) as (i & t & r & Ei & Et & Er).
  { apply (man_infos _ _ _ _ Hm), elem_position. eauto. }
  destruct (described_plan s k p a i t) as (i0 & t0 & Hd & Hf & _); [|done..|].
  { split; [done|]. exists h, j. rewrite Els. split_and!; try done. by exists k, p. }
  destruct (sound_model _ Hs _ _ Hd) as [model Emodel].
  assert (Pm.model_info i = Some model) as Em by by destruct (fixed_eq _ _ Hf) as (_ & -> & _).
  destruct (sound_parse _ Hs a i0 i model (glob s) buf Hd Hf Em Hg Hb) as (g' & o & Eparse & _ & Hpay).
  unfold Pm.data_response_parse. cbn [mem glob set_map emit].
  rewrite Ed, bind_ret, Ecurr, (item_info_spec _ _ _ _ _ _ _ Hm Ek), !bind_ret, Ei, bind_ret, Em, bind_ret, Hi, Eparse, bind_ret.
  destruct o as [pl|]; [|eauto]. destruct (Hpay pl eq_refl) as [x ->]. eauto.
Qed.

Lemma received_early malloc_ok buffer s :
  polls itf m0 l s → last_sent (trace s) = None → early (BytesReceived malloc_ok buffer) →
  on_io_bytes_received malloc_ok buffer s = None.
Proof.
  intros [Hu (h & j & Eh & Hm & Hi & Hc)] Hn Hearly. destruct malloc_ok, buffer as [|b0 buffer]; try done.
  unfold on_io_bytes_received. cbn [map emit set_map].
  change (pm_handle (set_count 0 (set_lock false (map s)))) with (pm_handle (map s)). rewrite Eh.
  cbn [negb]. destruct (man_list _ _ _ _ Hm) as (desc & Ed & _). rewrite Hn in Hc.
  unfold Pm.data_response_parse. by rewrite Ed, bind_ret, Hc.
Qed.

Lemma received_last_sent malloc_ok buffer s s' :
  polls itf m0 l s → on_io_bytes_received malloc_ok buffer s = Some s' →
  last_sent (trace s') = last_sent (trace s).
Proof.
  intros [_ (h & j & Eh & _)] H. destruct (received_spec _ _ _ _ _ Eh H) as [|? ? ? ? _ [->|(? & -> & _)]]; done.
Qed.

(** The channel is served unless a response comes before the first request. *)
Lemma dowork_spec ev s :
  polls itf m0 l s → good (glob s) → Forall heard ev →
  (last_sent (trace s) = None ∧ Exists early ev → xio_dowork ev s = None) ∧
  (¬ (last_sent (trace s) = None ∧ Exists early ev) → ∃ s', xio_dowork ev s = Some s').
Proof using Hs.
  revert s. induction ev as [|e ev IH]; intros s Hp Hg Hev.
  - split; [intros [_ H]; by inversion H|eauto].
  - destruct (Hp) as [Hu (h & j & Eh & Hr)]. apply Forall_cons in Hev as [He Hev].
    destruct e as [ok buf|]; cbn [xio_dowork heard] in *.
    + split.
      * intros [Hn H]. destruct (decide (early (BytesReceived ok buf))) as [Hearly|Hearly].
        { by rewrite received_early. }
        destruct (on_io_bytes_received ok buf s) as [s1|] eqn:E; [|done]. rewrite bind_ret.
        assert (received buf s s1) as Hrec by by eapply received_spec.
        apply IH; [by eapply polls_received|by eapply received_good|done|].
        split; [by erewrite received_last_sent|]. by inversion H.
      * intros H. destruct (received_total ok buf s) as [s1 E]; [done..| |].
        { destruct (last_sent (trace s)); [by left|right]. intros Hx. apply H. split; [done|]. by left. }
        rewrite E, bind_ret. assert (received buf s s1) as Hrec by by eapply received_spec.
        apply IH; [by eapply polls_received|by eapply received_good|done|].
        intros [Hn Hx]. apply H. erewrite received_last_sent in Hn by done. split; [done|]. by right.
    + assert (polls itf m0 l (on_io_error s)) as Hp' by by apply polls_error.
      specialize (IH _ Hp' Hg Hev). destruct IH as [IH1 IH2]. split.
      * intros [Hn H]. apply IH1. split; [done|]. by inversion H.
      * intros H. apply IH2. intros [Hn Hx]. apply H. split; [done|]. by right.
Qed.

Lemma dowork_good ev s s' :
  polls itf m0 l s → good (glob s) → Forall heard ev → xio_dowork ev s = Some s' → good (glob s').
Proof using Hs.
  revert s. induction ev as [|e ev IH]; intros s Hp Hg Hev; [by intros [= <-]|].
  apply Forall_cons in Hev as [He Hev]. destruct e as [ok buf|]; cbn [xio_dowork heard] in *.
  - intros (s1 & E & H)%bind_Some. destruct (Hp) as [_ (h & j & Eh & _)].
    assert (received buf s s1) as Hrec by by eapply received_spec.
    eapply IH; [by eapply polls_received|by eapply received_good|done|done].
  - apply IH; [by apply polls_error|done|done].
Qed.

Context (time_ok : ∀ z, clock_ok (localtime z)).

Lemma iteration_total i s s1 :
  polls itf m0 l s1 → ticked s1 → xio_dowork (events i) s = Some s1 →
  ∃ s', send_resquest_thread W localtime i s = Some s'.
Proof using Hs time_ok.
  intros Hp Ht E. unfold send_resquest_thread. destruct (task_stop (map s)); [eauto|].
  rewrite E, bind_ret. destruct (Hp) as [Hu (h & j & Eh & Hm & Hi & Hc)]. rewrite Eh, bind_ret.
  destruct (get_next_spec _ _ _ _ Hm) as (p & a & inf & t & El & Ei & Et & En & Hm').
  destruct (man_infos _ _ _ _ Hm a) as (inf' & t'' & r & Ei' & _ & Er); [apply elem_position; eauto|].
  assert (inf' = inf) as -> by congruence. rewrite En, bind_ret.
  set (b := bool_decide (S j = length l)) in *.
  change (array_equal (Pm.acqMode (Pm.set_last b t))) with (array_equal (Pm.acqMode t)).
  destruct (described_plan _ _ _ _ _ _ Hp El Ei Et) as (i0 & t0 & Hd & Hf & Et0 & Hplan).
  destruct (sound_plan _ Hs _ _ _ Hd Et0) as [Hstart Hend].
  pose proof (described_mode _ _ _ _ _ _ Hp El Ei Et) as Hmode. unfold mode_of in Hmode.
  assert (Pm.startTime t = Pm.startTime t0 ∧ Pm.endTime t = Pm.endTime t0) as [E1 E2] by by injection Hplan.
  destruct (array_equal _ (str "realtime")).
  - eapply realtime_total; [done..|]. apply Ht. by destruct (sound_modes _ Hs).
  - destruct (array_equal _ (str "schfrz")).
    + eapply schfrz_total; [done..| |]; by rewrite ?E1, ?E2.
    + eapply scheduled_total; [done..|]. by rewrite E1.
Qed.

Lemma iteration_good i s s' :
  polls itf m0 l s → good (glob s) → Forall heard (events i) →
  send_resquest_thread W localtime i s = Some s' → good (glob s').
Proof using Hs.
  intros Hp Hg Hev H. destruct (task_stop (map s)) eqn:Hstop.
  { unfold send_resquest_thread in H. rewrite Hstop in H. by injection H as <-. }
  assert (∃ s1, xio_dowork (events i) s = Some s1) as [s1 E1].
  { unfold send_resquest_thread in H. rewrite Hstop in H. apply bind_Some in H as (s1 & ? & _). eauto. }
  pose proof (dowork_good _ _ _ Hp Hg Hev E1) as Hg1.
  destruct (dowork_ind (λ _, True) ltac:(done) ltac:(done) _ _ _ Hp I E1) as [[_ (h & j & Eh & Hm & _)] _].
  destruct (iteration_spec _ _ _ _ _ _ _ Hstop E1 Eh Hm H) as (p & a & inf & t & r & _ & _ & _ & _ & Ho).
  by destruct Ho.
Qed.
End sound.
End polls.
End thread.
