(* ===== verification/IotStartTheory.v ===== *)
(** * IotStartTheory: what the agent owns.

    Ports, threads, managers and their descriptions are resources of the process;
    each predicate below says of one kind which exist.  A driver promises the
    interface [DriverLaws]: what it constructs it can destroy, whatever else is in
    memory. *)
From S2P Require Import Prelude.
From S2P Require Import Effects.
From S2P Require Import Driver.
From S2P Require Import Alloc.
From S2P Require Import CString.
From S2P Require Import Json.
From S2P Require Import SinglyLinkedList.
From S2P Require Import Registry.
From S2P Require Import ChannelModel.
From S2P Require Import ChannelTheory.
From S2P Require Import ProtocolManager.
From S2P Require Import IotMain.
From S2P Require Import PollTheory.
From S2P Require Import IotStart.
From stdpp Require Import gmap strings.
#[local] Open Scope Z_scope.

Import Channel.
Import Start.

(** ** The interface of a driver *)

(** [accepts]: the models it understands; [owns body m desc l]: the list [desc] it made
    from the models [body] has the items and descriptions [l], whatever a thread has
    changed in them since. *)
Class DriverLaws {M G : Type} (good : G → Prop) (itf : Pm.INTER_DESCRIPTION M G) := {
  accepts : list JSON → Prop;
  owns : list JSON → Pm.Memory M → LIST_INSTANCE → list (positive * positive) → Prop;
  owns_frame body m m' desc l :
    owns body m desc l → (∀ p, p ∈ l.*1 → Pm.items m' !! p = Pm.items m !! p) →
    (∀ a, a ∈ l.*2 → fixed <$> Pm.infos m' !! a = fixed <$> Pm.infos m !! a) → owns body m' desc l;
  construct_owns m g body :
    good g → accepts body →
    ∃ m' g' desc l, Pm.Construct itf m g body = Some (m', g', Some desc) ∧ good g' ∧ owns body m' desc l ∧
      without m' l m ∧ (∀ p, p ∈ l.*1 → is_Some (Pm.items m' !! p)) ∧ (∀ a, a ∈ l.*2 → is_Some (Pm.infos m' !! a));
  destroy_owned m g body desc l :
    good g → owns body m desc l →
    ∃ m' g', Pm.Destroy itf m g (Some desc) = Some (m', g') ∧ good g' ∧ without m l m';
  parse_good g model i r g' p : good g → Pm.response_parse itf g model i r = Some (g', p) → good g' }.

Section theory.
Context {M G : Type} (good : G → Prop) (modbus dlt698 : Pm.INTER_DESCRIPTION M G).
Context `{!DriverLaws good modbus, !DriverLaws good dlt698}.
#[warnings="-notation-for-abbreviation"] Notation Agent := (Start.Agent M G).
#[warnings="-notation-for-abbreviation"] Notation Start := (ST Agent).
Implicit Types (s : Agent) (a x t p : positive) (v : PM_CHANNEL_MAP) (vs : list PM_CHANNEL_MAP)
  (lst : LIST_INSTANCE) (l : list (positive * positive)).

(** ** Access *)

Lemma wp_read (Q : Agent → Agent → Prop) s : Q s s → wp get Q s.
Proof. intros HQ. by exists s, s. Qed.
Lemma wp_change f (Q : unit → Agent → Prop) s : Q tt (f s) → wp (modify f) Q s.
Proof. intros HQ. by exists tt, (f s). Qed.
Lemma wp_on_alloc {X} (d : Alloc X) (Q : X → Agent → Prop) s :
  wp d (λ r h, Q r (set_heap h s)) (heap s) → wp (on_alloc d) Q s.
Proof. intros (r & h & E & HQ). exists r, (set_heap h s). unfold on_alloc. by rewrite E. Qed.
Lemma wp_on_maps {X} (d : ST (Store PM_CHANNEL_MAP * Heap) X) (Q : X → Agent → Prop) s :
  wp d (λ r '(st, h), Q r (set_heap h (set_maps st s))) (maps s, heap s) → wp (on_maps d) Q s.
Proof. intros (r & [st h] & E & HQ). exists r, (set_heap h (set_maps st s)). unfold on_maps. by rewrite E. Qed.
Lemma wp_on_channels {X} (d : ST (Store Channel.CHANNEL_MODEL_INFO * Heap) X) (Q : X → Agent → Prop) s :
  wp d (λ r '(st, h), Q r (set_heap h (set_channels st s))) (channels s, heap s) → wp (on_channels d) Q s.
Proof. intros (r & [st h] & E & HQ). exists r, (set_heap h (set_channels st s)). unfold on_channels. by rewrite E. Qed.

Definition with_map a v s : Agent := set_maps (mkStore (cells (maps s)) (<[a := v]> (structs (maps s)))) s.

Lemma wp_change_map a f v (Q : unit → Agent → Prop) s :
  structs (maps s) !! a = Some v → Q tt (with_map a (f v) s) → wp (change_map a f) Q s.
Proof.
  intros E HQ. apply wp_bind, wp_on_maps. eapply wp_load; [exact E|]. apply wp_on_maps. eapply wp_store; [exact E|]. exact HQ.
Qed.

(** ** Resources *)

(** Exactly the keys [ks]. *)
Definition exactly {V} (m : gmap positive V) (ks : list positive) : Prop := NoDup ks ∧ dom m = list_to_set ks.

Lemma exactly_perm {V} (m : gmap positive V) ks ks' : ks ≡ₚ ks' → exactly m ks → exactly m ks'.
Proof. intros Hp [Hn Hd]. split; [by rewrite <- Hp|]. rewrite Hd. apply set_eq. intros b. by rewrite !elem_of_list_to_set, Hp. Qed.

Lemma exactly_lookup {V} (m : gmap positive V) k ks : exactly m (k :: ks) → is_Some (m !! k).
Proof. intros [_ Hd]. apply elem_of_dom. rewrite Hd. set_solver. Qed.

Lemma exactly_delete {V} (m : gmap positive V) k ks : exactly m (k :: ks) → exactly (delete k m) ks.
Proof.
  intros [[Hk Hn]%NoDup_cons Hd]. split; [done|]. rewrite dom_delete_L, Hd. cbn. apply set_eq. intros b.
  rewrite elem_of_difference, elem_of_union, elem_of_singleton, !elem_of_list_to_set. set_solver.
Qed.

Lemma exactly_insert {V} (m : gmap positive V) k (y : V) ks : exactly m ks → m !! k = None → exactly (<[k := y]> m) (k :: ks).
Proof.
  intros [Hn Hd] Hk. split.
  - apply NoDup_cons. split; [|done]. intros Hin. apply not_elem_of_dom in Hk. apply Hk. rewrite Hd. by apply elem_of_list_to_set.
  - rewrite dom_insert_L, Hd. done.
Qed.

(** A model: its name and the description of its devices. *)
#[warnings="-notation-for-abbreviation"] Notation model := (list Z * list JSON)%type.

(** The manager at [p] is the one of the model, and [l] are its descriptions. *)
Definition manages s p (mo : model) l : Prop := ∃ h desc, managers s !! p = Some h ∧
  (cstr (Pm.ModelName h) = Some mo.1 ∧ (length mo.1 < 32)%nat) ∧ Pm.data_desc h = Some desc ∧
  (Pm.interface h = modbus ∧ owns (itf:=modbus) mo.2 (memory s) desc l ∨
   Pm.interface h = dlt698 ∧ owns (itf:=dlt698) mo.2 (memory s) desc l) ∧
  (∀ b, b ∈ l.*1 → is_Some (Pm.items (memory s) !! b)) ∧ (∀ b, b ∈ l.*2 → is_Some (Pm.infos (memory s) !! b)).

(** No item and no description is in both. *)
Definition apart l l' : Prop := (∀ b, b ∈ l.*1 → b ∉ l'.*1) ∧ (∀ b, b ∈ l.*2 → b ∉ l'.*2).

(** The managers with their models, each with descriptions of its own. *)
Record managing s (ms : list (positive * model)) : Prop := {
  managing_exactly : exactly (managers s) ms.*1;
  managing_good : good (globals s);
  managing_owned : ∃ own : positive → list (positive * positive),
    (∀ p mo, (p, mo) ∈ ms → manages s p mo (own p)) ∧
    (∀ p q, p ∈ ms.*1 → q ∈ ms.*1 → p ≠ q → apart (own p) (own q)) }.

Lemma managing_perm s ms ms' : ms ≡ₚ ms' → managing s ms → managing s ms'.
Proof.
  intros Hp [He Hg (own & Ho & Hd)]. split; [apply (exactly_perm _ ms.*1); [by rewrite Hp|done]|done|]. exists own. split.
  - intros p mo Hin. apply Ho. by rewrite Hp.
  - intros p q Hin1 Hin2. apply Hd; by rewrite Hp.
Qed.

(** What of a manager never changes. *)
Definition core (h : Pm.PM_INSTANCE M G) := (Pm.ModelName h, Pm.data_desc h, Pm.interface h).

(** A change that leaves the manager's descriptions alone. *)
Lemma manages_frame s s' p mo l :
  manages s p mo l → core <$> managers s' !! p = core <$> managers s !! p →
  (∀ b, b ∈ l.*1 → Pm.items (memory s') !! b = Pm.items (memory s) !! b) →
  (∀ b, b ∈ l.*2 → fixed <$> Pm.infos (memory s') !! b = fixed <$> Pm.infos (memory s) !! b) → manages s' p mo l.
Proof.
  intros (h & desc & E & Hn & Ed & Hown & H1 & H2) Em Hi Hf.
  assert (core <$> managers s' !! p = Some (core h)) as Ec by by rewrite Em, E.
  destruct (managers s' !! p) as [h'|] eqn:E'; [|done]. injection Ec as En Ed' Ei'. exists h', desc. split; [done|].
  split; [by rewrite En|]. split; [by rewrite Ed'|]. split.
  - destruct Hown as [[Ei Hown]|[Ei Hown]]; [left|right]; (split; [by rewrite Ei'|]); by eapply owns_frame.
  - split; intros b Hb; [rewrite Hi by done; auto|]. apply (fmap_is_Some fixed). rewrite Hf by done. apply fmap_is_Some. auto.
Qed.

(** The rest of the process. *)
Record same_globals s s' : Prop := {
  same_channels : channels s' = channels s;
  same_list : g_pm_map_list s' = g_pm_map_list s;
  same_count : g_thread_count s' = g_thread_count s;
  same_error : g_channel_parse_error s' = g_channel_parse_error s;
  same_outside : outside s' = outside s }.

#[export] Instance same_globals_pre : PreOrder same_globals.
Proof. split; [by split|]. intros s1 s2 s3 [] []. split; congruence. Qed.

(** ** Managers *)

Lemma wp_protocol_destroy p mo ms (Q : unit → Agent → Prop) s :
  managing s ((p, mo) :: ms) →
  (∀ s', managing s' ms → same_globals s s' → maps s' = maps s → ports s' = ports s → threads s' = threads s →
     used (-1) (heap s) (heap s') → Q tt s') →
  wp (protocol_destroy (Some p)) Q s.
Proof.
  intros [He Hg (own & Ho & Hd)] HQ.
  destruct (Ho p mo) as (h & desc & Eh & _ & Ed & Hitf & _); [by left|].
  assert (∃ m' g', Pm.protocol_destroy (memory s) (globals s) (Some h) = Some (m', g') ∧ good g' ∧
    without (memory s) (own p) m') as (m' & g' & E & Hg' & [Hit Hin]).
  { unfold Pm.protocol_destroy. rewrite Ed. destruct Hitf as [[-> Hown]|[-> Hown]]; by eapply destroy_owned. }
  apply wp_bind, wp_read, wp_bind. eapply wp_lift; [exact Eh|]. apply wp_bind. eapply wp_lift; [exact E|].
  apply wp_bind, wp_change, wp_bind, wp_change, wp_on_alloc, wp_free_struct. intros h' Hu.
  pose proof He as [[Hp _]%NoDup_cons _]. apply HQ; [|by split|done|done|done|done].
  split; cbn; [by apply exactly_delete|done|]. exists own. split.
  - intros q mq Hq. assert (q ∈ ms.*1) as Hq1 by (apply list_elem_of_fmap; by exists (q, mq)).
    assert (p ≠ q) as Hpq by by intros ->. destruct (Hd p q) as [D1 D2]; [by left|by right|done|].
    eapply manages_frame; [apply Ho; by right|..]; cbn.
    + by rewrite lookup_delete_ne.
    + intros b Hb. rewrite Hit, decide_False; [done|]. intros Hb2. by apply (D1 b).
    + intros b Hb. rewrite Hin, decide_False; [done|]. intros Hb2. by apply (D2 b).
  - intros q r Hq Hr. apply Hd; by right.
Qed.
(** What a model says; [None]: it is refused. *)
#[warnings="-notation-for-abbreviation"] Notation Object := (option (list (list Z * JSON))).
Definition known (proto : list Z) : Prop := proto = str "MODBUS" ∨ proto = str "DLT698.45".
Definition model_of (o : Object) : option model :=
  proto ← json_object_dotget_string o (str "protoType");
  name ← json_object_dotget_string o (str "name");
  body ← json_object_dotget_array o (str "body");
  if bool_decide (known proto) then Some (name, body) else None.

(** Its driver accepts it, and its name fits. *)
Definition acceptable (o : Object) : Prop := ∀ name body, model_of o = Some (name, body) →
  cstring name ∧ (length name < 32)%nat ∧
  (json_object_dotget_string o (str "protoType") = Some (str "MODBUS") → accepts (itf:=modbus) body) ∧
  (json_object_dotget_string o (str "protoType") = Some (str "DLT698.45") → accepts (itf:=dlt698) body).

(** The driver of a model and what it makes of it. *)
Lemma interface_made o name body m g :
  good g → acceptable o → model_of o = Some (name, body) →
  ∃ proto itf m' g' desc l, json_object_dotget_string o (str "protoType") = Some proto ∧
    (if strequal proto (str "MODBUS") then Some modbus
     else if strequal proto (str "DLT698.45") then Some dlt698 else None) = Some itf ∧
    Pm.Construct itf m g body = Some (m', g', Some desc) ∧ good g' ∧
    (itf = modbus ∧ owns (itf:=modbus) body m' desc l ∨ itf = dlt698 ∧ owns (itf:=dlt698) body m' desc l) ∧
    without m' l m ∧ (∀ p, p ∈ l.*1 → is_Some (Pm.items m' !! p)) ∧ (∀ a, a ∈ l.*2 → is_Some (Pm.infos m' !! a)).
Proof.
  intros Hg Ha Em. destruct (Ha _ _ Em) as (_ & _ & Hm & Hd). unfold model_of in Em.
  destruct (json_object_dotget_string o (str "protoType")) as [proto|]; [|done].
  destruct (json_object_dotget_string o (str "name")); [|done].
  destruct (json_object_dotget_array o (str "body")); [|done]. rewrite !bind_ret in Em.
  case_bool_decide as Hk; [|done]. injection Em as -> ->. destruct Hk as [->| ->].
  - destruct (construct_owns (itf:=modbus) m g body Hg (Hm eq_refl)) as (m' & g' & desc & l & E & Hg' & Ho & H).
    exists (str "MODBUS"), modbus, m', g', desc, l. split; [done|]. split; [done|]. split; [done|].
    split; [done|]. split; [by left|done].
  - destruct (construct_owns (itf:=dlt698) m g body Hg (Hd eq_refl)) as (m' & g' & desc & l & E & Hg' & Ho & H).
    exists (str "DLT698.45"), dlt698, m', g', desc, l. split; [done|]. split; [done|]. split; [done|].
    split; [done|]. split; [by right|done].
Qed.

(** A new manager joins the others. *)
Lemma managing_add s p mo h desc l ms m' g' s' :
  managing s ms → managers s !! p = None → managers s' = <[p := h]> (managers s) → memory s' = m' → globals s' = g' →
  cstr (Pm.ModelName h) = Some mo.1 → (length mo.1 < 32)%nat → Pm.data_desc h = Some desc → good g' →
  (Pm.interface h = modbus ∧ owns (itf:=modbus) mo.2 m' desc l ∨
   Pm.interface h = dlt698 ∧ owns (itf:=dlt698) mo.2 m' desc l) →
  without m' l (memory s) → (∀ b, b ∈ l.*1 → is_Some (Pm.items m' !! b)) → (∀ b, b ∈ l.*2 → is_Some (Pm.infos m' !! b)) →
  managing s' ((p, mo) :: ms).
Proof.
  intros [He Hg (own & Ho & Hd)] Hp Em <- <- Hn Hlen Ed Hg' Hown [Hit Hin] H1 H2.
  assert (p ∉ ms.*1) as Hpm.
  { intros Hx. destruct He as [_ Hdom]. apply not_elem_of_dom in Hp. apply Hp. rewrite Hdom. by apply elem_of_list_to_set. }
  assert (∀ q, q ∈ ms.*1 → apart l (own q)) as Hap.
  { intros q ([q' mq] & -> & Hq)%list_elem_of_fmap. destruct (Ho _ _ Hq) as (_ & _ & _ & _ & _ & _ & S1 & S2).
    split; intros b Hb Hb2.
    - destruct (S1 _ Hb2) as [y Ey]. rewrite Hit, decide_True in Ey by done. done.
    - destruct (S2 _ Hb2) as [y Ey]. rewrite Hin, decide_True in Ey by done. done. }
  split; [rewrite Em; by apply exactly_insert|done|]. exists (λ q, if decide (q = p) then l else own q). split.
  - intros q mq [[= -> ->]|Hq]%elem_of_cons.
    + rewrite decide_True by done. exists h, desc. rewrite Em, lookup_insert_eq. by split_and!.
    + assert (q ∈ ms.*1) as Hq1 by (apply list_elem_of_fmap; by exists (q, mq)).
      rewrite decide_False by by intros ->. destruct (Hap q Hq1) as [A1 A2].
      eapply manages_frame; [by apply Ho|..].
      * rewrite Em, lookup_insert_ne; [done|]. by intros ->.
      * intros b Hb. rewrite Hit, decide_False; [done|]. intros Hb2. by apply (A1 b).
      * intros b Hb. rewrite Hin, decide_False; [done|]. intros Hb2. by apply (A2 b).
  - cbn. intros q r Hq Hr Hqr. apply elem_of_cons in Hq, Hr. destruct (decide (q = p)) as [->|Hqp], (decide (r = p)) as [->|Hrp].
    + done.
    + destruct Hr as [?|Hr]; [done|]. by apply Hap.
    + destruct Hq as [?|Hq]; [done|]. destruct (Hap q Hq) as [A1 A2]. split; intros b Hb Hb2; [by apply (A1 b)|by apply (A2 b)].
    + destruct Hq as [?|Hq], Hr as [?|Hr]; try done. by apply Hd.
Qed.
Lemma refused_model o blk ok m g :
  model_of o = None ∨ ok = false → Pm.protocol_init modbus dlt698 ok blk m g o = Some (m, g, None).
Proof.
  intros Ho. unfold Pm.protocol_init, model_of in *.
  destruct (json_object_dotget_string o (str "protoType")) as [proto|]; [|done].
  destruct (json_object_dotget_string o (str "name")) as [name|]; [|done]. destruct ok; [|done].
  destruct Ho as [Ho|Ho]; [|done]. cbn [negb]. rewrite !bind_ret in Ho. unfold strequal.
  destruct (json_object_dotget_array o (str "body")); [|by repeat case_bool_decide].
  rewrite bind_ret in Ho. case_bool_decide as Hk; [done|]. unfold known in Hk.
  rewrite !bool_decide_false by tauto. done.
Qed.

Lemma wp_refused o blk (Q : option positive → Agent → Prop) s h :
  model_of o = None ∨ blk = None →
  (∀ h', used (if blk is Some _ then -1 else 0) h h' → Q None (set_heap h' s)) →
  wp (manager_in modbus dlt698 blk o) Q (set_heap h s).
Proof.
  intros Ho HQ. apply wp_bind, wp_read, wp_bind. eapply wp_lift.
  { apply refused_model. destruct Ho as [Ho| ->]; [by left|by right]. }
  apply wp_bind, wp_change, wp_bind, wp_on_alloc, wp_free. intros h' Hu. apply wp_ret.
  replace (set_heap h' _) with (set_heap h' s) by by destruct s. by apply HQ.
Qed.

Lemma wp_accepted o blk ms mo (Q : option positive → Agent → Prop) s h :
  managing s ms → acceptable o → model_of o = Some mo → length blk = 33%nat →
  (∀ p s', managing s' ((p, mo) :: ms) → same_globals s s' →
     maps s' = maps s → ports s' = ports s → threads s' = threads s → heap s' = h → Q (Some p) s') →
  wp (manager_in modbus dlt698 (Some blk) o) Q (set_heap h s).
Proof.
  intros Hm Ha Emo Hblk HS. destruct mo as [name body]. apply wp_bind, wp_read, wp_bind.
  destruct (interface_made _ _ _ (memory s) (globals s) (managing_good _ _ Hm) Ha Emo)
    as (proto' & itf & m' & g' & desc & l & Ep & Ei & Ec & Hg & Hown & Hwo & H1 & H2).
  destruct (Ha _ _ Emo) as (Hc & Hlen & _).
  destruct (strncpy_s_short blk Pm.MAX_SIZE_OF_MNAME name Hc) as (d & Ed & Hd & _); [unfold Pm.MAX_SIZE_OF_MNAME in *; lia|].
  unfold model_of in Emo. rewrite Ep, bind_ret in Emo.
  destruct (json_object_dotget_string o (str "name")) as [nm|] eqn:E2; [|done].
  destruct (json_object_dotget_array o (str "body")) as [bd|] eqn:E3; [|done]. rewrite !bind_ret in Emo.
  case_bool_decide; [|done]. injection Emo as -> ->. eapply wp_lift.
  { unfold Pm.protocol_init. rewrite E2, Ep, E3, Ei. cbn [negb default memory globals set_heap id bool_decide].
    rewrite Ed, bind_ret, Ec, bind_ret. reflexivity. }
  apply wp_bind, wp_change, wp_bind, wp_change, wp_ret. eapply HS; [|by split|done|done|done|done].
  eapply (managing_add s); try done. apply not_elem_of_dom, is_fresh.
Qed.

Lemma wp_protocol_init o ms (Q : option positive → Agent → Prop) s :
  managing s ms → acceptable o →
  (∀ p mo s', model_of o = Some mo → managing s' ((p, mo) :: ms) → same_globals s s' →
     maps s' = maps s → ports s' = ports s → threads s' = threads s → used 1 (heap s) (heap s') → Q (Some p) s') →
  (∀ h', used 0 (heap s) h' → (plenty (heap s) → model_of o = None) → Q None (set_heap h' s)) →
  wp (protocol_init modbus dlt698 o) Q s.
Proof.
  intros Hm Ha HS HN. unfold protocol_init. apply wp_bind.
  assert (model_of o = None → wp (manager_in modbus dlt698 None o) Q s) as Hnone.
  { intros E. replace s with (set_heap (heap s) s) at 1 by by destruct s. apply wp_refused; [by left|]. intros h' Hu. by apply HN. }
  destruct (json_object_dotget_string o (str "protoType")) as [proto|] eqn:E1; cycle 1.
  { apply wp_ret, Hnone. unfold model_of. by rewrite E1. }
  destruct (json_object_dotget_string o (str "name")) as [nm|] eqn:E2; cycle 1.
  { apply wp_ret, Hnone. unfold model_of. by rewrite E1, E2. }
  apply wp_on_alloc, wp_malloc.
  - intros blk h Hblk Hu. destruct (model_of o) as [mo|] eqn:Emo.
    + eapply wp_accepted; try done. intros p s' Hm' Hsg E3 E4 E5 Eh. eapply HS; try done. by rewrite Eh.
    + apply wp_refused; [by left|]. intros h' Hu'. apply HN; [|done]. eapply used_trans; [exact Hu|exact Hu'|done].
  - intros h Hu Hp. apply wp_refused; [by right|]. intros h' Hu'. apply HN; [|by intros ?].
    eapply used_trans; [exact Hu|exact Hu'|done].
Qed.
(** ** The maps *)

(** The name of the map's model, as far as it is compared. *)
Definition name_of v : list Z := array_text MAX_SIZE_OF_KEY (key_word v).

(** The process has exactly the ports [xs], the threads [ts] and the managers of [ms]. *)
Record owning s (xs ts : list positive) (ms : list (positive * model)) : Prop := {
  own_ports : exactly (ports s) xs;
  own_threads : exactly (threads s) ts;
  own_managers : managing s ms }.

(** The list has the maps [vs]; each port, each thread and each manager belongs to one
    of them, but for the managers [lost], which no map refers to any more. *)
Record maps_are s lst l vs (ms : list (positive * model)) (lost : list positive) : Prop := {
  maps_listed : listed (maps s) lst l vs;
  maps_structs : dom (structs (maps s)) = list_to_set l.*2;
  maps_own : owning s (xio_handle <$> vs) (omap task_thread vs) ms;
  maps_managers : ms.*1 ≡ₚ omap pm_handle vs ++ lost;
  maps_keys : Forall (λ v, length (key_word v) = S MAX_SIZE_OF_KEY) vs }.

Definition opt_list {X} (o : option X) : list X := match o with Some x => [x] | None => [] end.

Lemma omap_cons_opt {X Y} (f : X → option Y) (y : X) ys : omap f (y :: ys) = opt_list (f y) ++ omap f ys.
Proof. cbn. by destruct (f y). Qed.

(** A manager among others. *)
Lemma model_at (ms : list (positive * model)) p ps :
  ms.*1 ≡ₚ p :: ps → ∃ mo ms', ms ≡ₚ (p, mo) :: ms' ∧ ms'.*1 ≡ₚ ps.
Proof.
  intros Hp. assert (p ∈ ms.*1) as ([q mo] & -> & Hin)%list_elem_of_fmap by (rewrite Hp; by left).
  apply elem_of_Permutation in Hin as (ms' & Hms). exists mo, ms'. split; [done|].
  rewrite Hms in Hp. cbn in Hp. by apply Permutation_cons_inv in Hp.
Qed.

Lemma wp_load_map a v (Q : PM_CHANNEL_MAP → Agent → Prop) s :
  structs (maps s) !! a = Some v → Q v s → wp (on_maps (load a)) Q s.
Proof. intros E HQ. apply wp_on_maps. eapply wp_load; [exact E|]. by destruct s. Qed.

Lemma managing_same s s' ms :
  managers s' = managers s → memory s' = memory s → globals s' = globals s → managing s ms → managing s' ms.
Proof.
  intros E1 E2 E3 [He Hg (own & Ho & Hd)]. split; [by rewrite E1|by rewrite E3|]. exists own. split; [|done].
  intros p mo Hin. eapply manages_frame; [by apply Ho|by rewrite E1|by rewrite E2|by rewrite E2].
Qed.

Lemma wp_stop_thread a v t ts (Q : unit → Agent → Prop) s :
  structs (maps s) !! a = Some v → exactly (threads s) (t :: ts) →
  (exactly (delete t (threads s)) ts → Q tt (set_threads (delete t (threads s)) (with_map a (set_task_stop true v) s))) →
  wp (stop_thread a t) Q s.
Proof.
  intros E Ht HQ. apply wp_bind. eapply wp_change_map; [exact E|]. destruct (exactly_lookup _ _ _ Ht) as [y Ey].
  apply wp_bind, wp_read, wp_bind. eapply wp_lift; [exact Ey|]. apply wp_change, HQ. by apply exactly_delete.
Qed.

Lemma wp_destroy_handle h ms ps (Q : unit → Agent → Prop) s :
  managing s ms → ms.*1 ≡ₚ opt_list h ++ ps →
  (∀ ms' s', managing s' ms' → ms' ⊆+ ms → ms'.*1 ≡ₚ ps → same_globals s s' →
     maps s' = maps s → ports s' = ports s → threads s' = threads s →
     used (- Z.of_nat (length (opt_list h))) (heap s) (heap s') → Q tt s') →
  wp (protocol_destroy h) Q s.
Proof.
  intros Hm Hps HQ. destruct h as [p|]; cycle 1.
  { apply wp_ret. eapply HQ; try done. apply used_refl. }
  destruct (model_at _ _ _ Hps) as (mo & ms' & Hms & Hps').
  eapply wp_protocol_destroy; [by eapply managing_perm; [exact Hms|]|].
  intros s2 Hm2 Hsg2 E1 E2 E3 Hu. eapply HQ; try done. rewrite Hms. by apply submseteq_cons.
Qed.

Lemma wp_xio_close x (Q : unit → Agent → Prop) s : is_Some (ports s !! x) → Q tt s → wp (xio_close x) Q s.
Proof. intros [y Ey] HQ. apply wp_bind, wp_read, wp_bind. eapply wp_lift; [exact Ey|]. by apply wp_ret. Qed.

Lemma wp_xio_destroy x (Q : unit → Agent → Prop) s :
  is_Some (ports s !! x) → Q tt (set_ports (delete x (ports s)) s) → wp (xio_destroy x) Q s.
Proof. intros Hx HQ. apply wp_bind, wp_xio_close; [done|]. by apply wp_change. Qed.

(** The port of a map and the map itself. *)
Lemma wp_close_map a v x xs (Q : unit → Agent → Prop) s :
  structs (maps s) !! a = Some v → exactly (ports s) (x :: xs) →
  (∀ h', exactly (delete x (ports s)) xs → used (-1) (heap s) h' →
     Q tt (set_heap h' (set_maps (mkStore (cells (maps s)) (delete a (structs (maps s)))) (set_ports (delete x (ports s)) s)))) →
  wp (xio_close x;; xio_destroy x;; on_maps (dispose a)) Q s.
Proof.
  intros E Hx HQ. pose proof (exactly_lookup _ _ _ Hx) as Hs.
  apply wp_bind, wp_xio_close; [done|]. apply wp_bind, wp_xio_destroy; [done|]. apply wp_on_maps. eapply wp_dispose; [exact E|]. intros h' Hu. apply HQ; [by apply exactly_delete|done].
Qed.

(** Nothing of a map is left. *)
Lemma wp_map_destroy a v xs ts ms ps (Q : unit → Agent → Prop) s :
  structs (maps s) !! a = Some v → owning s (xio_handle v :: xs) (opt_list (task_thread v) ++ ts) ms →
  ms.*1 ≡ₚ opt_list (pm_handle v) ++ ps →
  (∀ ms' s', owning s' xs ts ms' → ms' ⊆+ ms → ms'.*1 ≡ₚ ps → same_globals s s' →
     maps s' = mkStore (cells (maps s)) (delete a (structs (maps s))) →
     used (-1 - Z.of_nat (length (opt_list (pm_handle v)))) (heap s) (heap s') → Q tt s') →
  wp (map_destroy a) Q s.
Proof.
  intros E [Hx Ht Hm] Hps HQ. apply wp_bind. eapply wp_load_map; [exact E|]. apply wp_bind.
  assert (∀ v' s1, exactly (threads s1) ts → ports s1 = ports s → managing s1 ms → same_globals s s1 →
    maps s1 = mkStore (cells (maps s)) (<[a := v']> (structs (maps s))) → heap s1 = heap s →
    wp (protocol_destroy (pm_handle v);; xio_close (xio_handle v);; xio_destroy (xio_handle v);; on_maps (dispose a)) Q s1)
    as Hrest.
  { clear Ht. intros v' s1 Ht Epo Hm1 Hsg Ema Ehe. apply wp_bind. eapply wp_destroy_handle; [exact Hm1|exact Hps|].
    intros ms' s2 Hm2 Hsub Hp2 Hsg2 Ema2 Epo2 Eth2 Hu2. rewrite <- Epo, <- Epo2 in Hx.
    eapply wp_close_map; [rewrite Ema2, Ema; apply lookup_insert_eq|exact Hx|]. intros h' Hx' Hu'. rewrite Ehe in Hu2.
    apply (HQ ms'); [|done|done| | |].
    - split; cbn; [done|by rewrite Eth2|]. by eapply managing_same; [..|exact Hm2].
    - etrans; [exact Hsg|]. by destruct Hsg2.
    - cbn. rewrite Ema2, Ema. cbn. f_equal. apply delete_insert_eq.
    - eapply used_trans; [exact Hu2|exact Hu'|lia]. }
  destruct (task_thread v) as [t|].
  - eapply wp_stop_thread; [exact E|exact Ht|]. intros Ht'. eapply Hrest; try done. eapply managing_same; [..|exact Hm]; done.
  - apply wp_ret. apply (Hrest v); try done. rewrite insert_id by done. by destruct (maps s).
Qed.
Lemma maps_empty s lst ms lost : maps_are s lst [] [] ms lost → maps s = mkStore ∅ ∅ ∧ ports s = ∅ ∧ threads s = ∅.
Proof.
  intros [[_ Hc _ _] Hd [[_ Hx] [_ Ht] _] _ _]. destruct (maps s) as [c S]. cbn in *.
  apply dom_empty_inv_L in Hc, Hd, Hx, Ht. by subst.
Qed.

(** What is freed with the maps. *)
Definition cost vs : Z := 2 * Z.of_nat (length vs) + Z.of_nat (length (omap pm_handle vs)).

Lemma wp_destroy_maps n lst l vs ms lost (Q : LIST_INSTANCE → Agent → Prop) s :
  maps_are s lst l vs ms lost → (length l <= n)%nat →
  (∀ lst' ms' s', maps_are s' lst' [] [] ms' lost → ms' ⊆+ ms → same_globals s s' →
     used (- cost vs) (heap s) (heap s') → Q lst' s') →
  wp (destroy_maps n lst) Q s.
Proof.
  revert n lst vs ms s. induction l as [|[i a] l IH]; intros n lst vs ms s Hm Hn HQ.
  - pose proof (maps_listed _ _ _ _ _ _ Hm) as [[Eh _ _] _ _ Hs]. apply Forall2_nil_inv_l in Hs as ->. cbn in Eh.
    assert (destroy_maps n lst = mret lst) as ->.
    { destruct n; cbn [destroy_maps]; unfold singlylinkedlist_get_head_item; by rewrite bind_ret, Eh. }
    apply wp_ret. eapply HQ; [exact Hm|done|done|apply used_refl].
  - destruct n as [|n]; [cbn in Hn; lia|]. destruct Hm as [Hl Hd Hown Hps Hk].
    destruct (Hl) as [[(Eh & _) _ _] _ Hnd Hs]. cbn [fst snd] in Eh, Hnd.
    apply Forall2_cons_inv_l in Hs as (v & vs' & Ev & Hs & ->). apply NoDup_cons in Hnd as [Ha Hnd].
    rewrite omap_cons_opt in Hown. rewrite omap_cons_opt, <- app_assoc in Hps. apply Forall_cons in Hk as [_ Hk].
    cbn [destroy_maps]. unfold singlylinkedlist_get_head_item. rewrite bind_ret, Eh.
    apply wp_bind, wp_on_maps. eapply wp_list_value; [exact Hl|]. cbn beta iota.
    replace (set_heap _ _) with s by by destruct s. apply wp_bind.
    eapply wp_map_destroy; [exact Ev|exact Hown|exact Hps|]. intros ms1 s1 Hown1 Hsub1 Hps1 Hsg1 Ema Hu1.
    apply wp_bind, wp_on_maps. rewrite Ema. eapply wp_list_remove; [exact Hl| |].
    { intros b Hb. apply lookup_delete_ne. by intros ->. }
    intros lst1 c h2 Hl1 Hu2. eapply (IH _ _ vs' ms1); [|cbn in Hn; lia|].
    + split; [exact Hl1| |destruct Hown1 as [X1 X2 X3]; split; [done|done|by eapply managing_same; [..|exact X3]]|done|done].
      cbn. rewrite dom_delete_L, Hd. cbn. apply set_eq. intros b.
      rewrite elem_of_difference, elem_of_union, elem_of_singleton, !elem_of_list_to_set. set_solver.
    + intros lst' ms' s' Hm' Hsub' Hsg' Hu'. apply (HQ _ ms'); [done|by etrans| |].
      * etrans; [exact Hsg1|]. by destruct Hsg'.
      * unfold cost in *. rewrite omap_cons_opt, length_app. cbn [length]. eapply used_trans; [exact Hu1| |].
        { eapply used_trans; [exact Hu2|exact Hu'|done]. }
        lia.
Qed.

(** Of all maps, ports and threads nothing is left, nor of the managers in use. *)
Lemma wp_map_list_destroy lst l vs ms lost (Q : unit → Agent → Prop) s :
  maps_are s lst l vs ms lost →
  (∀ ms' s', owning s' [] [] ms' → ms' ⊆+ ms → ms'.*1 ≡ₚ lost → same_globals s s' → maps s' = mkStore ∅ ∅ →
     used (-1 - cost vs) (heap s) (heap s') → Q tt s') →
  wp (map_list_destroy (Some lst)) Q s.
Proof.
  intros Hm HQ. apply wp_bind, wp_on_maps. eexists _, _. split; [reflexivity|]. cbn beta iota.
  replace (set_heap _ _) with s by by destruct s. apply wp_bind. eapply wp_destroy_maps; [exact Hm| |].
  { destruct (maps_listed _ _ _ _ _ _ Hm) as [[Hs _ Hn] _ _ _]. pose proof (lseg_fuel _ _ _ _ Hs Hn). lia. }
  intros lst' ms' s' Hm' Hsub Hsg Hu. apply wp_on_maps. eapply wp_list_destroy; [by apply Hm'|]. intros h' Hu'.
  destruct (maps_empty _ _ _ _ Hm') as (Ema & _ & _). destruct Hm' as [_ _ [X1 X2 X3] Hps _]. apply (HQ ms').
  - split; [done|done|by eapply managing_same; [..|exact X3]].
  - done.
  - by rewrite Hps.
  - etrans; [exact Hsg|]. by split.
  - by rewrite Ema.
  - eapply used_trans; [exact Hu|exact Hu'|cbn; lia].
Qed.
(** ** Loops over a list *)

(** The action on one structure after the other, until it says stop. *)
Fixpoint each (xs : list positive) (action : positive → Start bool) : Start unit :=
  match xs with
  | [] => mret tt
  | x :: xs => continue_processing ← action x; if continue_processing : bool then each xs action else mret tt
  end.

Lemma wp_for_each cs lst l action (Q : unit → Agent → Prop) s :
  is_list cs lst l → wp (each l.*2 action) Q s → wp (for_each cs lst action) Q s.
Proof.
  intros Hl (r & s' & E & HQ). exists tt, s'. split; [|by destruct r]. unfold for_each.
  destruct Hl as [Hs _ Hn]. unfold singlylinkedlist_foreach.
  rewrite (foreach_loop_spec _ _ _ _ l) by (done || by eapply lseg_fuel). rewrite !bind_ret. clear Hs Hn HQ. revert s E. induction l.*2 as [|x xs IH]; intros s E.
  - injection E as <- <-. done.
  - cbn [each foreach_items] in *. rewrite st_bind_eq in E. cbn [mbind option_bind].
    destruct (action x s) as [[[] s1]|]; cbn [mbind option_bind] in E; [by apply IH|by injection E as <- <-|done].
Qed.

(** ** Channels *)

(** What port a channel describes. *)
Definition config_of (c : ChannelSpec) : option IO_CONFIG :=
  if bool_decide (c_portType c = str "serial") then
    Some (SERIALIO_CONFIG (c_serialID c) (c_baudRate c) (c_dataBit c) (c_parity c) (c_stopBit c) (c_timeOut c))
  else if bool_decide (c_portType c = str "socket") then Some (SOCKETIO_CONFIG (c_host c) (c_port c))
  else None.

(** Its texts have an end. *)
Record portable (c : ChannelSpec) : Prop := {
  portable_type : cstring (c_portType c);
  portable_serial : cstring (c_serialID c) ∧ (length (c_serialID c) < MAX_SIZE_OF_SERIAL_ID)%nat;
  portable_host : cstring (c_host c) ∧ (length (c_host c) < MAX_SIZE_OF_HOST)%nat }.

Lemma copied_equal n text arr lit :
  copied n text arr → cstring text → cstring lit → (length lit < n)%nat → array_equal arr lit = bool_decide (text = lit).
Proof.
  intros [Hl E] Ht Hc Hn. unfold array_equal. apply bool_decide_ext.
  replace (take (S (length lit)) arr) with (take (S (length lit)) (take n arr)) by (rewrite take_take; f_equal; lia).
  rewrite E. split.
  - intros Heq. destruct (decide (length text <= length lit)%nat) as [Hle|Hgt].
    + rewrite (take_ge text) in Heq by lia. destruct (n - length text)%nat as [|k] eqn:Ek; [lia|]. cbn [replicate] in Heq.
      rewrite take_app_ge in Heq by lia. replace (S (length lit) - length text)%nat with (S (length lit - length text)) in Heq by lia.
      cbn [take] in Heq. apply (f_equal cstr) in Heq. rewrite !cstr_terminated in Heq by done. by injection Heq.
    + exfalso. rewrite take_app_le, take_take in Heq by (rewrite length_take; lia).
      assert (0 ∈ text) as Hin.
      { rewrite <- (take_drop (S (length lit) `min` n) text), Heq, !elem_of_app. left. right. by left. }
      unfold cstring in Ht. rewrite Forall_forall in Ht. by apply (Ht 0).
  - intros ->. rewrite (take_ge lit n) by lia. destruct (n - length lit)%nat as [|k] eqn:Ek; [lia|]. cbn [replicate].
    rewrite take_app_ge by lia. replace (S (length lit) - length lit)%nat with 1%nat by lia. done.
Qed.

Lemma io_config_spec sp c : matches sp c → portable sp → io_config c = Some (config_of sp).
Proof.
  intros [] [Ht [Hs Hsl] [Hh Hhl]]. destruct m_numbers as (? & ? & ? & ? & ?). unfold io_config, config_of.
  rewrite !(copied_equal MAX_SIZE_OF_PORT_TYPE (c_portType sp)); try done;
    try (unfold cstring; apply (bool_decide_unpack _); by vm_compute); try (unfold MAX_SIZE_OF_PORT_TYPE; cbn; lia).
  case_bool_decide; [|case_bool_decide; [|done]].
  - rewrite (copied_cstr _ _ _ m_serialID) by done. rewrite bind_ret. congruence.
  - rewrite (copied_cstr _ _ _ m_host) by done. rewrite bind_ret. congruence.
Qed.
End theory.
