(* ===== verification/IotChannelTheory.v ===== *)
(** * IotChannelTheory: from the description of the channels to open ports.

    [wp_channel_init] is one round of the loop over the channels,
    [wp_channel_instance_construct] the whole message: with every allocation and every
    port available each channel of the message gets a port and a map, and what was
    there before is gone. *)
From S2P Require Import Prelude.
From S2P Require Import Effects.
From S2P Require Import Driver.
From S2P Require Import Alloc.
From S2P Require Import CString.
From S2P Require Import Json.
From S2P Require Import SinglyLinkedList.
From S2P Require Import Registry.
From S2P Require Import ChannelModel.
From S2P Require Import ChannelTheory.
From S2P Require Import ProtocolManager.
From S2P Require Import IotMain.
From S2P Require Import IotStart.
From S2P Require Import IotStartTheory.
From stdpp Require Import gmap strings.
#[local] Open Scope Z_scope.

Import Channel.
Import Start.

(** ** Names *)

Lemma copied_text n text arr : copied n text arr → array_text n arr = array_text n text.
Proof. intros [_ E]. by rewrite <- array_text_take, E, array_text_pad. Qed.

(** ** What the system grants *)

(** No port and no thread is denied. *)
Record willing (o : Outside) : Prop := {
  willing_creations : Forall (eq true) (creations o);
  willing_openings : Forall (eq true) (openings o);
  willing_spawns : Forall (eq true) (spawns o) }.

Lemma granted bs : Forall (eq true) bs → hd true bs = true ∧ Forall (eq true) (tl bs).
Proof. by intros [|b bs' Hb Hbs]. Qed.

Section theory.
Context {M G : Type} (good : G → Prop) (modbus dlt698 : Pm.INTER_DESCRIPTION M G).
Context `{!DriverLaws good modbus, !DriverLaws good dlt698}.
#[warnings="-notation-for-abbreviation"] Notation Agent := (Start.Agent M G).
#[warnings="-notation-for-abbreviation"] Notation model := (list Z * list JSON)%type.
#[warnings="-notation-for-abbreviation"] Notation maps_are := (maps_are good modbus dlt698).
#[warnings="-notation-for-abbreviation"] Notation owning := (owning good modbus dlt698).
Implicit Types (s : Agent) (a x t p : positive) (v : PM_CHANNEL_MAP) (vs : list PM_CHANNEL_MAP)
  (lst : LIST_INSTANCE) (l : list (positive * positive)) (ms : list (positive * model)) (lost : list positive).

Lemma wp_xio_create cfg (Q : option positive → Agent → Prop) s :
  (∀ x o, ports s !! x = None → (willing (outside s) → willing o) →
     Q (Some x) (set_ports (<[x := cfg]> (ports s)) (set_outside o s))) →
  (∀ o, ¬ willing (outside s) → Q None (set_outside o s)) → wp (xio_create cfg) Q s.
Proof.
  intros HS HN. apply wp_bind, wp_read, wp_bind, wp_change.
  assert (willing (outside s) → hd true (creations (outside s)) = true ∧
    willing (mkOutside (tl (creations (outside s))) (openings (outside s)) (spawns (outside s)))) as Hw.
  { intros [H1 H2 H3]. apply granted in H1 as [? ?]. by split. }
  destruct (hd true (creations (outside s))) eqn:E.
  - apply wp_bind, wp_change, wp_ret, HS; [apply not_elem_of_dom, is_fresh|]. intros H. by apply Hw.
  - apply wp_ret, HN. intros H. by apply Hw in H as [? ?].
Qed.

Lemma wp_xio_open x (Q : bool → Agent → Prop) s :
  is_Some (ports s !! x) → (∀ b o, (willing (outside s) → b = true ∧ willing o) → Q b (set_outside o s)) → wp (xio_open x) Q s.
Proof.
  intros [y Ey] HQ. apply wp_bind, wp_bind, wp_read, wp_bind. eapply wp_lift; [exact Ey|].
  apply wp_ret, wp_bind, wp_read, wp_bind, wp_change, wp_ret, HQ. intros [H1 H2 H3]. apply granted in H2 as [? ?]. by split.
Qed.

Lemma wp_ThreadAPI_Create (Q : option positive → Agent → Prop) s :
  (∀ t o, threads s !! t = None → (willing (outside s) → willing o) →
     Q (Some t) (set_threads (<[t := (None, [])]> (threads s)) (set_outside o s))) →
  (∀ o, ¬ willing (outside s) → Q None (set_outside o s)) → wp ThreadAPI_Create Q s.
Proof.
  intros HS HN. apply wp_bind, wp_read, wp_bind, wp_change.
  assert (willing (outside s) → hd true (spawns (outside s)) = true ∧
    willing (mkOutside (creations (outside s)) (openings (outside s)) (tl (spawns (outside s))))) as Hw.
  { intros [H1 H2 H3]. apply granted in H3 as [? ?]. by split. }
  destruct (hd true (spawns (outside s))) eqn:E.
  - apply wp_bind, wp_change, wp_ret, HS; [apply not_elem_of_dom, is_fresh|]. intros H. by apply Hw.
  - apply wp_ret, HN. intros H. by apply Hw in H as [? ?].
Qed.

(** ** One channel *)

(** What a channel leaves alone. *)
Record opened s s' : Prop := {
  opened_channels : channels s' = channels s;
  opened_threads : threads s' = threads s;
  opened_managers : managers s' = managers s;
  opened_memory : memory s' = memory s;
  opened_globals : globals s' = globals s;
  opened_count : g_thread_count s' = g_thread_count s;
  opened_willing : willing (outside s) → willing (outside s') }.

#[export] Instance opened_pre : PreOrder opened.
Proof. split; [by split|]. intros s1 s2 s3 [] []. split; [congruence..|auto]. Qed.

Definition new_map x (key : list Z) : PM_CHANNEL_MAP := mkMap None x None 0 false false 0 key.

(** The map of a channel. *)
Record serves_channel s (c : ChannelSpec) v : Prop := {
  served_name : name_of v = array_text MAX_SIZE_OF_KEY (c_model c);
  served_port : ∃ cfg, config_of c = Some cfg ∧ ports s !! xio_handle v = Some cfg;
  served_new : v = new_map (xio_handle v) (key_word v) }.

(** The channel could not be served: the list is as before. *)
Record rejected s lst l vs s' : Prop := {
  rejected_opened : opened s s';
  rejected_list : g_pm_map_list s' = Some lst;
  rejected_maps : listed (maps s') lst l vs;
  rejected_error : g_channel_parse_error s' = true }.

Lemma wp_channel_failed (Q : bool → Agent → Prop) s : Q false (set_parse_error true s) → wp channel_failed Q s.
Proof. intros HQ. apply wp_bind, wp_change, wp_ret, HQ. Qed.
(** The process with one more map. *)
Lemma maps_added s s' lst lst' l l' vs ms lost p a x key cfg :
  maps_are s lst l vs ms lost → opened s s' → ports s !! x = None → ports s' = <[x := cfg]> (ports s) →
  listed (maps s') lst' l' (vs ++ [new_map x key]) → l' = l ++ [(p, a)] →
  structs (maps s') = <[a := new_map x key]> (structs (maps s)) → length key = S MAX_SIZE_OF_KEY →
  maps_are s' lst' l' (vs ++ [new_map x key]) ms lost.
Proof.
  intros [Hl Hd [Hx Ht Hm] Hp Hk] Ho Hfx Ex Hl' -> Es Hkey. split; [done| | | |].
  - rewrite Es, dom_insert_L, Hd, fmap_app, list_to_set_app_L. cbn. set_solver.
  - split.
    + rewrite Ex, fmap_app. apply (exactly_perm _ (x :: (xio_handle <$> vs))); [by rewrite Permutation_app_comm|].
      by apply exactly_insert.
    + rewrite (opened_threads _ _ Ho), omap_app. cbn. by rewrite app_nil_r.
    + destruct Ho. by eapply managing_same; [..|exact Hm].
  - rewrite omap_app. cbn. by rewrite app_nil_r.
  - apply Forall_app. by repeat constructor.
Qed.

Lemma wp_add_map sp c x blk cfg lst l vs ms lost (Q : bool → Agent → Prop) s s1 :
  maps_are s lst l vs ms lost → opened s s1 → maps s1 = maps s → g_pm_map_list s1 = Some lst →
  ports s !! x = None → ports s1 = <[x := cfg]> (ports s) →
  config_of sp = Some cfg → matches sp c → length blk = S MAX_SIZE_OF_KEY →
  (∀ lst' l' v s', maps_are s' lst' l' (vs ++ [v]) ms lost → serves_channel s' sp v → ports s ⊆ ports s' → opened s s' →
     g_pm_map_list s' = Some lst' → g_channel_parse_error s' = g_channel_parse_error s1 → used 1 (heap s1) (heap s') → Q true s') →
  (∀ s', rejected s lst l vs s' → ¬ plenty (heap s1) → Q false s') →
  wp (add_map c x blk) Q s1.
Proof.
  intros Hm Ho Ema Elst Hfx Ex Ecfg Hc Hblk HS HN.
  destruct (strncpy_copied blk (array_text MAX_SIZE_OF_KEY (modelNmae c)) MAX_SIZE_OF_KEY Hblk) as (key & Ek & Hkey).
  pose proof (copied_text _ _ _ Hkey) as Hname. rewrite array_text_twice, (copied_text MAX_SIZE_OF_KEY _ _ (m_model _ _ Hc)) in Hname.
  destruct (Hm) as [Hl Hd _ _ _]. apply wp_bind. eapply wp_lift; [exact Ek|].
  apply wp_bind, wp_on_maps, wp_place. intros a Ha. rewrite Ema in *. fold (new_map x key).
  apply wp_bind, wp_read, wp_bind. eapply wp_lift; [exact Elst|]. set (st := mkStore _ _).
  assert (a ∉ l.*2) as Hal.
  { intros Hin. assert (a ∈ dom (structs (maps s))) as Hin2 by (rewrite Hd; by apply elem_of_list_to_set).
    apply elem_of_dom in Hin2 as [? E]. congruence. }
  assert (listed st lst l vs) as Hl1.
  { eapply listed_same; [| |exact Hl]; [done|]. intros b Hb. cbn. apply lookup_insert_ne. by intros ->. }
  assert (structs st !! a = Some (new_map x key)) as Ea by apply lookup_insert_eq.
  apply wp_bind, wp_on_maps. eapply wp_list_add; [exact Hl1|exact Ea|exact Hal| |].
  - intros lst' cs p h' Hl' Hu. apply wp_bind, wp_change, wp_ret. eapply (HS lst' (l ++ [(p, a)]) (new_map x key)).
    + eapply maps_added; [exact Hm| |exact Hfx|exact Ex|exact Hl'|done|done|apply Hkey]. by destruct Ho.
    + split; [exact Hname| |done]. exists cfg. cbn. by rewrite Ex, lookup_insert_eq.
    + cbn. rewrite Ex. by apply insert_subseteq.
    + by destruct Ho.
    + done.
    + done.
    + done.
  - intros h' Hu Hp. apply wp_bind, wp_change.
    assert (is_Some (ports s1 !! x)) as Hs by (rewrite Ex, lookup_insert_eq; by eexists).
    apply wp_bind, wp_xio_close; [exact Hs|]. apply wp_bind, wp_xio_destroy; [exact Hs|]. apply wp_bind, wp_on_maps. eapply wp_dispose; [exact Ea|]. intros h2 Hu2. apply wp_channel_failed, HN; [|done].
    split; [by destruct Ho|done| |done]. eapply listed_same; [| |exact Hl]; [done|].
    intros b Hb. cbn. rewrite lookup_delete_ne, lookup_insert_ne by by intros ->. done.
Qed.

Lemma wp_channel_init item sp c lst l vs ms lost (Q : bool → Agent → Prop) s :
  structs (channels s) !! item = Some c → matches sp c → portable sp →
  maps_are s lst l vs ms lost → g_pm_map_list s = Some lst →
  (∀ lst' l' v s', maps_are s' lst' l' (vs ++ [v]) ms lost → serves_channel s' sp v → ports s ⊆ ports s' → opened s s' →
     g_pm_map_list s' = Some lst' → g_channel_parse_error s' = g_channel_parse_error s →
     used 2 (heap s) (heap s') → Q true s') →
  (∀ s', rejected s lst l vs s' → (plenty (heap s) → willing (outside s) → config_of sp = None) → Q false s') →
  wp (channel_init_by_list item) Q s.
Proof.
  intros Eitem Hc Hpo Hm Elst HS HN. pose proof (maps_listed _ _ _ _ _ _ _ _ _ Hm) as Hl.
  assert (∀ s1, opened s s1 → g_pm_map_list s1 = Some lst → maps s1 = maps s →
    (plenty (heap s) → willing (outside s) → config_of sp = None) → Q false (set_parse_error true s1)) as Hno.
  { intros s1 Ho E1 E2 Hn. apply HN; [|done]. split; [by destruct Ho|done|cbn; by rewrite E2|done]. }
  apply wp_bind, wp_on_channels. eapply wp_load; [exact Eitem|]. cbn beta iota.
  replace (set_heap _ _) with s by by destruct s.
  apply wp_bind. eapply wp_lift; [by eapply io_config_spec|].
  destruct (config_of sp) as [cfg|] eqn:Ecfg; [|by apply wp_channel_failed, Hno].
  apply wp_bind, wp_xio_create; [|by intros o Ho; apply wp_channel_failed, Hno; [split| | |]].
  intros x o Hfx Ho. set (s1 := set_ports _ _). assert (is_Some (ports s1 !! x)) as Hs by (cbn; rewrite lookup_insert_eq; by eexists).
  apply wp_bind, wp_on_alloc, wp_malloc.
  - intros blk h1 Hblk Hu1. apply wp_bind, wp_xio_open; [exact Hs|].
    intros b o2 Ho2. cbn in Ho2. destruct b.
    + eapply (wp_add_map sp); [exact Hm| |done|done|exact Hfx|done|exact Ecfg|exact Hc|exact Hblk| |].
      * split; try done. intros Hw. by apply Ho2, Ho.
      * intros lst' l' v s' H1 H2 H3 H4 H5 H6 Hu. eapply HS; try done. eapply used_trans; [exact Hu1|exact Hu|done].
      * intros s' Hr Hp. apply HN; [done|]. intros Hp0. destruct Hp. by apply Hu1.
    + apply wp_bind, wp_xio_destroy; [exact Hs|]. apply wp_bind, wp_on_alloc, wp_free_struct. intros h2 Hu2. apply wp_channel_failed, Hno; try done.
      * split; try done. intros Hw. by apply Ho2, Ho.
      * intros _ Hw. by apply Ho, Ho2 in Hw as [? _].
  - intros h1 Hu1 Hp. apply wp_bind, wp_xio_destroy; [exact Hs|].
    apply wp_channel_failed, Hno; try done.
Qed.
(** ** All channels *)

Lemma serves_more s s' sp v : ports s ⊆ ports s' → serves_channel s sp v → serves_channel s' sp v.
Proof. intros Hs [Hn (cfg & Ec & Ep) Hv]. split; [done| |done]. exists cfg. split; [done|]. by eapply lookup_weaken. Qed.

Lemma wp_each_channel items cs sps lst l vs ms lost (Q : unit → Agent → Prop) s :
  Forall2 (λ a c, structs (channels s) !! a = Some c) items cs → Forall2 matches sps cs → Forall portable sps →
  maps_are s lst l vs ms lost → g_pm_map_list s = Some lst →
  (∀ lst' l' vs' s', maps_are s' lst' l' (vs ++ vs') ms lost → Forall2 (serves_channel s') sps vs' → ports s ⊆ ports s' →
     opened s s' → g_pm_map_list s' = Some lst' → g_channel_parse_error s' = g_channel_parse_error s →
     used (2 * Z.of_nat (length sps)) (heap s) (heap s') → Q tt s') →
  (∀ lst' l' vs' s', rejected s lst' l' vs' s' →
     (plenty (heap s) → willing (outside s) → Exists (λ sp, config_of sp = None) sps) → Q tt s') →
  wp (each items channel_init_by_list) Q s.
Proof.
  intros Hi Hc Hpo. revert items cs s lst l vs Hi Hc.
  induction Hpo as [|sp sps Hp Hpo IH]; intros items cs s lst l vs Hi Hc Hm Elst HS HN.
  { apply Forall2_nil_inv_l in Hc as ->. apply Forall2_nil_inv_r in Hi as ->. apply wp_ret.
    eapply (HS _ _ [] s); [by rewrite app_nil_r|constructor|done|done|done|done|apply used_refl]. }
  apply Forall2_cons_inv_l in Hc as (c & cs' & Hc & Hcs & ->). apply Forall2_cons_inv_r in Hi as (a & items' & Ha & Hi & ->).
  apply wp_bind. eapply wp_channel_init; [exact Ha|exact Hc|exact Hp|exact Hm|exact Elst| |].
  - intros lst1 l1 v s1 Hm1 Hv Hsub Ho E1 Ee Hu1. eapply (IH items' cs' s1); [|exact Hcs|exact Hm1|exact E1| |].
    + by rewrite (opened_channels _ _ Ho).
    + intros lst' l' vs' s' Hm' Hvs Hsub' Ho' E' Ee' Hu'. eapply (HS lst' l' (v :: vs')).
      * by rewrite <- app_assoc in Hm'.
      * constructor; [by eapply serves_more|done].
      * by etrans.
      * by etrans.
      * done.
      * congruence.
      * eapply used_trans; [exact Hu1|exact Hu'|cbn [length]; lia].
    + intros lst' l' vs' s' [Ho' ? ? ?] Hn. eapply HN; [split; [by etrans|done..]|].
      intros Hpl Hw. apply Exists_cons_tl, Hn; [by apply Hu1|by apply Ho].
  - intros s' Hr Hn. apply wp_ret. eapply HN; [exact Hr|]. intros Hpl Hw. by apply Exists_cons_hd, Hn.
Qed.

(** The agent has the maps [vs], or no list at all. *)
Definition agent_has s vs ms lost : Prop :=
  match g_pm_map_list s with
  | Some lst => ∃ l, maps_are s lst l vs ms lost
  | None => vs = [] ∧ maps s = mkStore ∅ ∅ ∧ owning s [] [] ms ∧ ms.*1 ≡ₚ lost
  end.

(** What it frees with them. *)
Definition held s vs : Z := match g_pm_map_list s with Some _ => 1 + cost vs | None => 0 end.

Lemma maps_none s ms lost :
  maps s = mkStore ∅ ∅ → owning s [] [] ms → ms.*1 ≡ₚ lost → maps_are s (mkList None None) [] [] ms lost.
Proof.
  intros E Ho Hp. split; [|by rewrite E; cbn; rewrite dom_empty_L|done|done|constructor].
  rewrite E. by apply listed_nil.
Qed.

(** The old maps go. *)
Lemma wp_clear vs ms lost (Q : unit → Agent → Prop) s :
  agent_has s vs ms lost →
  (∀ ms' s', owning s' [] [] ms' → ms' ⊆+ ms → ms'.*1 ≡ₚ lost → maps s' = mkStore ∅ ∅ → channels s' = channels s →
     g_channel_parse_error s' = g_channel_parse_error s → outside s' = outside s →
     g_thread_count s' = (if g_pm_map_list s is Some _ then 0 else g_thread_count s) →
     used (- held s vs) (heap s) (heap s') → Q tt s') →
  wp (match g_pm_map_list s with
      | Some l => map_list_destroy (Some l);; modify (set_thread_count 0)
      | None => mret tt
      end) Q s.
Proof.
  unfold agent_has, held. intros Hm HQ. destruct (g_pm_map_list s) as [lst|].
  - destruct Hm as (l & Hm). apply wp_bind. eapply (wp_map_list_destroy good modbus dlt698); [exact Hm|].
    intros ms' s' Ho Hsub Hp [] Ema Hu. apply wp_change. eapply (HQ ms'); try done; [|eapply used_trans; [exact Hu|apply used_refl|lia]].
    destruct Ho as [? ? X]. split; [done|done|]. by eapply managing_same; [..|exact X].
  - destruct Hm as (-> & Ema & Ho & Hp). apply wp_ret. eapply HQ; try done. apply used_refl.
Qed.
(** The meaning of the channels of a message. *)
Definition channel_means (j : JSON) (sp : ChannelSpec) : Prop := described (object_of j) = Some sp.

(** The message was obeyed: the new maps, and what was freed and allocated. *)
Record configured s sps lost s' (n : Z) : Prop := {
  conf_maps : ∃ lst l vs ms, g_pm_map_list s' = Some lst ∧ maps_are s' lst l vs ms lost ∧ Forall2 (serves_channel s') sps vs;
  conf_error : g_channel_parse_error s = false ∧ g_channel_parse_error s' = false;
  conf_count : g_thread_count s' = if g_pm_map_list s is Some _ then 0 else g_thread_count s;
  conf_used : used n (heap s) (heap s');
  conf_willing : willing (outside s) → willing (outside s') }.

Lemma wp_open_channels clst cl cs sps vs ms lost (Q : status → Agent → Prop) s :
  agent_has s vs ms lost → listed (channels s) clst cl cs → Forall2 matches sps cs → Forall portable sps →
  (∀ s', configured s sps lost s' (1 + 2 * Z.of_nat (length sps) - held s vs) → channels s' = channels s → Q OK s') →
  (∀ s', g_pm_map_list s' = None → channels s' = channels s →
     (plenty (heap s) → g_channel_parse_error s' = true) →
     (plenty (heap s) → willing (outside s) → g_channel_parse_error s = false → Exists (λ sp, config_of sp = None) sps) →
     Q FAILURE s') →
  wp (open_channels clst) Q s.
Proof.
  intros Hm Hcl Hc Hpo HS HN. apply wp_bind, wp_read, wp_bind. eapply wp_clear; [exact Hm|].
  intros ms1 s1 Ho1 Hsub Hp1 Ema1 Ech1 Eerr1 Eo1 Ec1 Hu1. apply wp_bind, wp_on_maps, wp_list_create; cycle 1.
  { intros h Hu Hp. apply wp_bind, wp_change, wp_ret, HN; [done|done| |]; intros Hpl; by apply Hu1 in Hpl. }
  intros h2 Hu2. apply wp_bind, wp_change, wp_bind, wp_read, wp_bind. set (s2 := set_map_list _ _).
  pose proof Hcl as [Hlist _ _ Hitems].
  assert (maps_are s2 (mkList None None) [] [] ms1 lost) as Hm2.
  { apply maps_none; [done| |done]. destruct Ho1 as [? ? X]. split; [done|done|by eapply managing_same; [..|exact X]]. }
  apply wp_for_each with cl; [by change (channels s2) with (channels s1); rewrite Ech1|].
  eapply (wp_each_channel cl.*2 cs sps); [|exact Hc|exact Hpo|exact Hm2|done| |].
  - change (channels s2) with (channels s1). rewrite Ech1. by apply Forall2_fmap_l.
  - intros lst' l' vs' s' Hm' Hvs _ Ho' E' Ee' Hu'. apply wp_bind, wp_read. change (g_channel_parse_error s2) with (g_channel_parse_error s1) in Ee'.
    rewrite Ee', Eerr1. destruct (g_channel_parse_error s) eqn:Ee.
    + rewrite E'. apply wp_bind, wp_on_maps. eapply wp_list_destroy; [by apply Hm'|]. intros h3 Hu3.
      apply wp_bind, wp_change, wp_ret, HN; [done| | |done].
      * cbn. by rewrite (opened_channels _ _ Ho').
      * intros _. cbn. congruence.
    + apply wp_ret, HS; [|by rewrite (opened_channels _ _ Ho')]. split.
      * by exists lst', l', vs', ms1.
      * split; congruence.
      * rewrite (opened_count _ _ Ho'). exact Ec1.
      * eapply used_trans; [exact Hu1|eapply used_trans; [exact Hu2|exact Hu'|done]|lia].
      * intros Hw. apply (opened_willing _ _ Ho'). cbn. by rewrite Eo1.
  - intros lst' l' vs' s' [Ho' E' Hl' Ee'] Hn. apply wp_bind, wp_read. rewrite Ee', E'.
    apply wp_bind, wp_on_maps. eapply wp_list_destroy; [exact Hl'|]. intros h3 Hu3. apply wp_bind, wp_change, wp_ret, HN.
    + done.
    + cbn. by rewrite (opened_channels _ _ Ho').
    + done.
    + intros Hpl Hw _. apply Hn; [|by cbn; rewrite Eo1]. apply Hu2. by apply Hu1.
Qed.

Lemma means_specs body cs :
  Forall2 means body cs → ∃ sps, Forall2 channel_means body sps ∧ Forall2 matches sps cs.
Proof.
  induction 1 as [|j c body cs (sp & Ed & Hm) _ (sps & H1 & H2)]; [by exists []|]. exists (sp :: sps). by split; constructor.
Qed.

(** The rest of the process does not matter. *)
Record same_maps s s' : Prop := {
  sm_maps : maps s' = maps s; sm_ports : ports s' = ports s; sm_threads : threads s' = threads s;
  sm_managers : managers s' = managers s; sm_memory : memory s' = memory s; sm_globals : globals s' = globals s }.

Lemma owning_same s s' xs ts ms : same_maps s s' → owning s xs ts ms → owning s' xs ts ms.
Proof. intros [] [? ? X]. split; [congruence..|]. by eapply managing_same; [..|exact X]. Qed.

Lemma maps_are_same s s' lst l vs ms lost : same_maps s s' → maps_are s lst l vs ms lost → maps_are s' lst l vs ms lost.
Proof.
  intros Hs [Hl Hd Ho Hp Hk]. pose proof (owning_same _ _ _ _ _ Hs Ho). destruct Hs. split; [congruence..|done|done|done].
Qed.

Lemma agent_has_same s s' vs ms lost :
  same_maps s s' → g_pm_map_list s' = g_pm_map_list s → agent_has s vs ms lost → agent_has s' vs ms lost.
Proof.
  intros Hs E. unfold agent_has. rewrite E. destruct (g_pm_map_list s) as [lst|].
  - intros (l & Hm). exists l. by eapply maps_are_same.
  - intros (? & ? & Ho & ?). pose proof (owning_same _ _ _ _ _ Hs Ho). destruct Hs. by split_and!; [|congruence|..].
Qed.

Variable json_parse_string : list Z → option JSON.

(** The message was not obeyed: it was not understood and nothing happened, or the
    list of maps is lost. *)
Definition refused (text : list Z) s s' : Prop :=
  (∃ h, s' = set_heap h s ∧ used 0 (heap s) h ∧
     (plenty (heap s) → match body_of (json_parse_string text) with
                        | None => True
                        | Some body => Exists (λ j, described (object_of j) = None) body
                        end)) ∨
  g_pm_map_list s' = None ∧ (plenty (heap s) → g_channel_parse_error s' = true).

Lemma wp_channel_instance_construct text vs ms lost (Q : status → Agent → Prop) s :
  agent_has s vs ms lost → channels s = mkStore ∅ ∅ →
  (∀ j, j ∈ default [] (body_of (json_parse_string text)) →
     legible (object_of j) ∧ ∀ sp, channel_means j sp → portable sp) →
  (∀ body sps s', body_of (json_parse_string text) = Some body → Forall2 channel_means body sps →
     configured s sps lost s' (1 + 2 * Z.of_nat (length body) - held s vs) → channels s' = mkStore ∅ ∅ → Q OK s') →
  (∀ s', refused text s s' → channels s' = mkStore ∅ ∅ →
     (plenty (heap s) → willing (outside s) → g_channel_parse_error s = false →
        match body_of (json_parse_string text) with
        | None => True
        | Some body => Exists (λ j, ∀ sp, channel_means j sp → config_of sp = None) body
        end) → Q FAILURE s') →
  wp (channel_instance_construct json_parse_string text) Q s.
Proof.
  intros Hm Hch Hj HS HN. unfold channel_instance_construct. unfold refused in HN.
  destruct (json_parse_string text) as [json|] eqn:Ej; cycle 1.
  { apply wp_ret, HN; [left; exists (heap s); split; [by destruct s|split; [apply used_refl|done]]|done..]. }
  assert (∀ s', s' = s → json_value_get_object (Some json) = None → wp (mret FAILURE) Q s') as Hno.
  { intros s' -> E. unfold body_of in HN. rewrite E in HN. cbn [mbind option_bind] in HN.
    apply wp_ret, HN; [left; exists (heap s); split; [by destruct s|split; [apply used_refl|done]]|done|done]. }
  destruct json as [| | | | |o]; try by apply Hno. clear Hno. apply wp_bind, wp_on_channels. rewrite Hch.
  eapply wp_channel_info_list_create.
  - apply Forall_forall. intros j Hin. by apply Hj.
  - intros body st' clst cl cs h1 Eb Hk Hms Hu1. rewrite Eb in *. destruct (means_specs _ _ Hms) as (sps & Hsp & Hmt).
    set (s1 := set_heap _ _). assert (length sps = length body) as Hlen by by rewrite (Forall2_length _ _ _ Hsp).
    assert (∀ r s', channels s' = st' → (∀ h, used (-1 - 2 * Z.of_nat (length body)) (heap s') h →
      Q r (set_heap h (set_channels (mkStore ∅ ∅) s'))) →
      wp (on_channels (channel_info_list_destroy (Some clst));; mret r) Q s') as Hend.
    { intros r s' E HQ. apply wp_bind, wp_on_channels. rewrite E. eapply wp_channel_info_list_destroy; [exact Hk|].
      intros h' Hu'. apply wp_ret, HQ. by rewrite (Forall2_length _ _ _ Hms), <- (Forall2_length _ _ _ (listed_structs _ _ _ _ (kept_listed _ _ _ _ Hk))). }
    apply wp_bind. eapply (wp_open_channels clst cl cs sps vs ms lost _ s1); [|by apply Hk|done| | |].
    + eapply agent_has_same; [..|exact Hm]; done.
    + apply Forall_forall. intros sp (k & Ek)%list_elem_of_lookup. destruct (Forall2_lookup_r _ _ _ _ _ Hsp Ek) as (j & Ejk & Hjs).
      eapply Hj; [by eapply list_elem_of_lookup_2|done].
    + intros s' [Hcm Hce Hcc Hcu Hcw] E. apply Hend; [done|]. intros h Hu. eapply HS; [done|exact Hsp| |done]. split.
      * destruct Hcm as (lst & l & vs' & ms' & E1 & H1 & H2). exists lst, l, vs', ms'. split; [done|].
        split; [by eapply maps_are_same; [|exact H1]|].
        eapply Forall2_impl; [exact H2|]. intros sp v. by apply serves_more.
      * done.
      * done.
      * rewrite Hlen in Hcu. eapply used_trans; [exact Hu1|eapply used_trans; [exact Hcu|exact Hu|done]|].
        change (held s1 vs) with (held s vs). lia.
      * done.
    + intros s' E1 E2 He0 Hn. apply Hend; [done|]. intros h Hu. apply HN; [right; split; [done|intros Hpl; by apply He0, Hu1]|done|]. intros Hpl Hw He.
      specialize (Hn (used_plenty _ _ _ Hu1 Hpl) Hw He). apply Exists_exists in Hn as (sp & Hin & Hsp0).
      apply list_elem_of_lookup in Hin as (k & Ek).
      destruct (Forall2_lookup_r _ _ _ _ _ Hsp Ek) as (j & Ejk & Hjs). apply Exists_exists. exists j.
      split; [by eapply list_elem_of_lookup_2|]. intros sp' Hjs'. unfold channel_means in *. congruence.
  - intros h1 Hu1 Hn. apply wp_bind, wp_ret, wp_bind. eexists _, _. split; [reflexivity|]. apply wp_ret, HN.
    + left. exists h1. split; [destruct s; cbn in *; by rewrite Hch|]. split; [done|]. intros Hpl. specialize (Hn Hpl).
      by destruct (body_of _).
    + done.
    + intros Hpl _ _. specialize (Hn Hpl). destruct (body_of _); [|done]. eapply Exists_impl; [exact Hn|].
      intros j E sp Hs. unfold channel_means in Hs. congruence.
Qed.
End theory.
