(* ===== verification/IotBindTheory.v ===== *)
(** * IotBindTheory: from a model to a running thread.

    [wp_bind_model] binds a manager to one map, [wp_bind_object] handles one model of a
    message, [wp_thing_instance_construct] the whole message: a map gets the manager of
    the last model with its name, and the last model decides whether anything is kept. *)
From S2P Require Import Prelude.
From S2P Require Import Effects.
From S2P Require Import Driver.
From S2P Require Import Alloc.
From S2P Require Import CString.
From S2P Require Import Json.
From S2P Require Import SinglyLinkedList.
From S2P Require Import Registry.
From S2P Require Import ProtocolManager.
From S2P Require Import IotMain.
From S2P Require Import IotStart.
From S2P Require Import IotStartTheory.
From S2P Require Import IotChannelTheory.
From stdpp Require Import gmap strings.
#[local] Open Scope Z_scope.

Import Start.

Lemma Forall2_weaken_elem {A B} (P Q : A → B → Prop) l k :
  Forall2 P l k → (∀ x y, x ∈ l → P x y → Q x y) → Forall2 Q l k.
Proof.
  induction 1 as [|x y l k Hxy Hlk IH]; intros HPQ; constructor; [apply HPQ; [by left|done]|].
  apply IH. intros z w Hz. apply HPQ. by right.
Qed.

(** ** Names *)

Lemma arrays_equal_spec a name n b :
  cstr a = Some name → (length name < n)%nat → length b = S n → arrays_equal a b = Some (bool_decide (name = array_text n b)).
Proof.
  revert name n b. induction a as [|x a IH]; intros name n b; [done|]. destruct n as [|n]; [lia|]. destruct b as [|y b]; [done|].
  cbn [cstr arrays_equal array_text]. destruct (Z.eqb_spec x 0) as [->|Hx].
  - intros [= <-] _ _. destruct (Z.eqb_spec 0 y) as [<-|Hy]; [done|]. cbn [negb].
    destruct (Z.eqb_spec y 0) as [->|_]; [done|]. by rewrite bool_decide_false.
  - destruct (cstr a) as [s|] eqn:E; [|done]. intros [= <-] Hn Hl. cbn in Hn, Hl.
    destruct (Z.eqb_spec x y) as [<-|Hxy]; cbn [negb].
    + rewrite (proj2 (Z.eqb_neq x 0)) by done. rewrite (IH s n) by (done || lia). f_equal. apply bool_decide_ext. naive_solver.
    + rewrite bool_decide_false; [done|]. destruct (Z.eqb_spec y 0); [done|]. by intros [=].
Qed.

Section theory.
Context {M G : Type} (good : G → Prop) (modbus dlt698 : Pm.INTER_DESCRIPTION M G).
Context `{!DriverLaws good modbus, !DriverLaws good dlt698}.
#[warnings="-notation-for-abbreviation"] Notation Agent := (Start.Agent M G).
#[warnings="-notation-for-abbreviation"] Notation model := (list Z * list JSON)%type.
#[warnings="-notation-for-abbreviation"] Notation maps_are := (maps_are good modbus dlt698).
#[warnings="-notation-for-abbreviation"] Notation managing := (managing good modbus dlt698).
#[warnings="-notation-for-abbreviation"] Notation acceptable := (acceptable good modbus dlt698).
Implicit Types (s : Agent) (a x t p : positive) (v : PM_CHANNEL_MAP) (vs : list PM_CHANNEL_MAP)
  (lst : LIST_INSTANCE) (l : list (positive * positive)) (ms : list (positive * model)) (lost : list positive).

(** ** One map *)

(** A manager has a thread, and a map without one was not told to stop. *)
Definition paired v : Prop := (is_Some (pm_handle v) ↔ is_Some (task_thread v)) ∧ (pm_handle v = None → task_stop v = false).

(** The map with a new manager and its thread. *)
Definition rebound p t (n : Z) v : PM_CHANNEL_MAP :=
  mkMap (Some p) (xio_handle v) (Some t) n false (task_lock v) (time_out_count v) (key_word v).

(** What binding leaves alone. *)
Record kept s s' : Prop := {
  kept_channels : channels s' = channels s;
  kept_list : g_pm_map_list s' = g_pm_map_list s;
  kept_error : g_channel_parse_error s' = g_channel_parse_error s;
  kept_ports : ports s' = ports s;
  kept_willing : willing (outside s) → willing (outside s');
  kept_plenty : plenty (heap s) → plenty (heap s') }.

#[export] Instance kept_pre : PreOrder kept.
Proof. split; [by split|]. intros s1 s2 s3 [] []. split; [congruence..|auto|auto]. Qed.

Lemma omap_at {Y} (f : PM_CHANNEL_MAP → option Y) vs1 v vs2 :
  omap f (vs1 ++ v :: vs2) ≡ₚ opt_list (f v) ++ omap f (vs1 ++ vs2).
Proof. rewrite <- Permutation_middle. by rewrite omap_cons_opt. Qed.

Lemma listed_update (st : Store PM_CHANNEL_MAP) lst l1 i a l2 vs1 v v' vs2 :
  length l1 = length vs1 → listed st lst (l1 ++ (i, a) :: l2) (vs1 ++ v :: vs2) →
  listed (mkStore (cells st) (<[a := v']> (structs st))) lst (l1 ++ (i, a) :: l2) (vs1 ++ v' :: vs2) ∧ structs st !! a = Some v.
Proof.
  intros Hlen [Hl Hd Hn Hs]. apply Forall2_app_inv in Hs as [H1 H2]; [|done]. apply Forall2_cons in H2 as [Ha H2].
  rewrite fmap_app, fmap_cons in Hn. apply NoDup_app in Hn as (Hn1 & Hn2 & [Hn3 Hn4]%NoDup_cons).
  split; [|done]. split; cbn [cells structs]; [done|done| |].
  - rewrite fmap_app, fmap_cons. apply NoDup_app. split; [done|]. split; [done|by apply NoDup_cons].
  - apply Forall2_app; [|constructor].
    + eapply Forall2_weaken_elem; [exact H1|]. intros e w He Ew. cbn in *. rewrite lookup_insert_ne; [done|].
      intros Ee. apply (Hn2 e.2); [by apply list_elem_of_fmap_2|rewrite <- Ee; by left].
    + apply lookup_insert_eq.
    + eapply Forall2_weaken_elem; [exact H2|]. intros e w He Ew. cbn in *. rewrite lookup_insert_ne; [done|].
      intros Ee. apply Hn3. rewrite Ee. by apply list_elem_of_fmap_2.
Qed.
(** One map is replaced. *)
Lemma maps_replaced s s' lst l1 i a l2 vs1 v v' vs2 ms ms' lost lost' :
  maps_are s lst (l1 ++ (i, a) :: l2) (vs1 ++ v :: vs2) ms lost → length l1 = length vs1 →
  maps s' = mkStore (cells (maps s)) (<[a := v']> (structs (maps s))) →
  xio_handle v' = xio_handle v → key_word v' = key_word v → ports s' = ports s →
  exactly (threads s') (opt_list (task_thread v') ++ omap task_thread (vs1 ++ vs2)) → managing s' ms' →
  ms'.*1 ≡ₚ opt_list (pm_handle v') ++ omap pm_handle (vs1 ++ vs2) ++ lost' →
  maps_are s' lst (l1 ++ (i, a) :: l2) (vs1 ++ v' :: vs2) ms' lost'.
Proof.
  intros [Hl Hd [Hx Ht Hm] Hp Hk] Hlen Ema Exh Ekw Epo Ht' Hm' Hp'.
  destruct (listed_update _ _ _ _ _ _ _ _ v' _ Hlen Hl) as [Hl' Ea]. split.
  - by rewrite Ema.
  - rewrite Ema. cbn. rewrite dom_insert_L, Hd. assert (a ∈ (l1 ++ (i, a) :: l2).*2); [|set_solver].
    rewrite fmap_app, fmap_cons, elem_of_app. right. by left.
  - split; [|by eapply exactly_perm; [symmetry; apply omap_at|]|done].
    rewrite Epo, fmap_app, fmap_cons, Exh. by rewrite fmap_app, fmap_cons in Hx.
  - rewrite omap_at, <- app_assoc. done.
  - apply Forall_app in Hk as [H1 [H2 H3]%Forall_cons]. apply Forall_app. split; [done|]. constructor; [by rewrite Ekw|done].
Qed.

Lemma models_kept ms ms' (gone left : list positive) q mo :
  NoDup ms.*1 → ms' ⊆+ ms → ms.*1 ≡ₚ gone ++ left → ms'.*1 ≡ₚ left → (q, mo) ∈ ms → q ∉ gone → (q, mo) ∈ ms'.
Proof.
  intros Hn Hsub Hp Hp' Hin Hq. assert (q ∈ ms.*1) as Hq1 by (apply list_elem_of_fmap; by exists (q, mo)).
  rewrite Hp, elem_of_app in Hq1. destruct Hq1 as [?|Hq1]; [done|]. rewrite <- Hp' in Hq1.
  apply list_elem_of_fmap in Hq1 as ([q' mo'] & -> & Hin'). cbn in *.
  assert ((q', mo') ∈ ms) as Hin2 by by eapply elem_of_submseteq.
  replace mo with mo'; [done|]. apply list_elem_of_lookup in Hin as [i Ei], Hin2 as [j Ej].
  assert (i = j) as ->; [|congruence].
  eapply NoDup_lookup; [exact Hn|rewrite list_lookup_fmap, Ei; done|rewrite list_lookup_fmap, Ej; done].
Qed.
(** The old manager and its thread. *)
Lemma wp_unbind a v ts ms (rest : list positive) (Q : unit → Agent → Prop) s :
  structs (maps s) !! a = Some v → paired v → exactly (threads s) (opt_list (task_thread v) ++ ts) →
  managing s ms → ms.*1 ≡ₚ opt_list (pm_handle v) ++ rest →
  (∀ ms' s', maps s' = mkStore (cells (maps s)) (<[a := set_task_stop false v]> (structs (maps s))) →
     exactly (threads s') ts → (∀ t, t ∈ ts → threads s' !! t = threads s !! t) → managing s' ms' →
     ms' ⊆+ ms → ms'.*1 ≡ₚ rest → ports s' = ports s → same_globals s s' →
     used (- Z.of_nat (length (opt_list (pm_handle v)))) (heap s) (heap s') → Q tt s') →
  wp (match pm_handle v with
      | Some old =>
          match task_thread v with
          | Some t => stop_thread a t;; change_map a (set_task_stop false)
          | None => mret tt
          end;;
          protocol_destroy (Some old)
      | None => mret tt
      end) Q s.
Proof.
  intros E [Hpair Hstop] Ht Hm Hp HQ. destruct (pm_handle v) as [old|] eqn:Ep.
  - destruct (task_thread v) as [t|]; [|destruct Hpair as [Hx _]; by destruct Hx]. apply wp_bind, wp_bind.
    eapply wp_stop_thread; [exact E|exact Ht|]. intros Ht'. eapply wp_change_map; [cbn; apply lookup_insert_eq|].
    eapply (wp_destroy_handle good modbus dlt698 (Some old)); [|exact Hp|].
    { eapply managing_same; [..|exact Hm]; done. }
    intros ms' s' Hm' Hsub Hp' Hsg Ema Epo Eth Hu. eapply HQ; try done.
    + rewrite Ema. cbn. f_equal. by rewrite insert_insert_eq.
    + by rewrite Eth.
    + intros t' Hin. rewrite Eth. cbn. apply lookup_delete_ne. intros ->. by destruct Ht as [[? _]%NoDup_cons _].
    + by destruct Hsg.
  - destruct (task_thread v) as [t|] eqn:Et; [destruct Hpair as [_ Hx]; destruct Hx as [? [=]]; by eexists|].
    apply wp_ret. eapply HQ; try done; [|apply used_refl]. rewrite insert_id; [by destruct (maps s)|].
    rewrite E. f_equal. destruct v. cbn in *. by rewrite Hstop.
Qed.

Lemma wp_bind_model p lst l1 i a l2 vs1 v vs2 ms lost (Q : unit → Agent → Prop) s :
  maps_are s lst (l1 ++ (i, a) :: l2) (vs1 ++ v :: vs2) ms (p :: lost) → length l1 = length vs1 → paired v → willing (outside s) →
  (∀ t n ms' s', maps_are s' lst (l1 ++ (i, a) :: l2) (vs1 ++ rebound p t n v :: vs2) ms' lost →
     (∀ q mo, (q, mo) ∈ ms → pm_handle v ≠ Some q → (q, mo) ∈ ms') → ms' ⊆+ ms →
     threads s' !! t = Some (None, []) → (∀ t', t' ∈ omap task_thread (vs1 ++ vs2) → threads s' !! t' = threads s !! t') →
     g_thread_count s' = g_thread_count s + 1 → kept s s' →
     used (- Z.of_nat (length (opt_list (pm_handle v)))) (heap s) (heap s') → Q tt s') →
  wp (bind_model p a v) Q s.
Proof.
  intros Hm Hlen Hpair Hw HQ. pose proof Hm as [Hl Hd [Hx Ht Hmg] Hp Hk].
  destruct (listed_update _ _ _ _ _ _ _ _ v _ Hlen Hl) as [_ Ea].
  pose proof (exactly_perm _ _ _ (omap_at _ _ _ _) Ht) as Ht'. rewrite omap_at, <- app_assoc in Hp.
  apply wp_bind. eapply (wp_unbind a v _ ms); [exact Ea|exact Hpair|exact Ht'|exact Hmg|exact Hp|].
  intros ms' s1 Ema1 Ht1 Hold Hm1 Hsub Hp1 Epo1 Hsg Hu1. apply wp_bind. eapply wp_change_map; [rewrite Ema1; apply lookup_insert_eq|].
  apply wp_bind, wp_ThreadAPI_Create; [|intros o []; by rewrite <- (same_outside _ _ Hsg) in Hw].
  intros t o Hft Hwo. cbn [threads with_map set_maps] in *. apply wp_bind, wp_change, wp_bind, wp_read.
  eapply wp_change_map; [cbn; apply lookup_insert_eq|]. set (n := g_thread_count _).
  eapply (HQ t n ms').
  - eapply (maps_replaced s); [exact Hm|exact Hlen| |done|done|exact Epo1| | |].
    + cbn. rewrite Ema1. cbn. by rewrite !insert_insert_eq.
    + cbn. by apply exactly_insert.
    + by eapply managing_same; [..|exact Hm1].
    + rewrite Hp1. cbn. by rewrite <- Permutation_middle.
  - intros q mo Hin Hq. eapply models_kept; [|exact Hsub|exact Hp|exact Hp1|exact Hin|].
    + by destruct Hmg as [[Hn _] _ _].
    + destruct (pm_handle v) as [old|]; [|apply not_elem_of_nil]. intros ->%list_elem_of_singleton. by apply Hq.
  - done.
  - cbn. by rewrite lookup_insert_eq.
  - intros t' Hin. cbn. rewrite lookup_insert_ne; [by apply Hold|]. intros ->.
    destruct Ht1 as [_ Hdom]. apply not_elem_of_dom in Hft. apply Hft. rewrite Hdom. by apply elem_of_list_to_set.
  - subst n. cbn. by rewrite (same_count _ _ Hsg).
  - destruct Hsg. split; cbn; try congruence; [|apply Hu1]. intros _. apply Hwo. cbn. congruence.
  - exact Hu1.
Qed.
(** ** One model *)

Definition names_of vs : list (list Z) := name_of <$> vs.

(** The manager of a model called [name]. *)
Definition called s p (name : list Z) : Prop :=
  ∃ h, managers s !! p = Some h ∧ cstr (Pm.ModelName h) = Some name ∧ (length name < 32)%nat.

Lemma called_model s ms p mo : managing s ms → (p, mo) ∈ ms → called s p mo.1.
Proof. intros [_ _ (own & Ho & _)] Hin. destruct (Ho _ _ Hin) as (h & desc & E & [Hn Hl] & _). by exists h. Qed.

(** The test on one map. *)
Lemma wp_map_channel p name a v (Q : bool → Agent → Prop) s :
  called s p name → structs (maps s) !! a = Some v → length (key_word v) = S MAX_SIZE_OF_KEY →
  wp (if bool_decide (name = name_of v) then bind_model p a v else mret tt) (λ _ s', Q true s') s →
  wp (map_channel_and_model p a) Q s.
Proof.
  intros (h & E & Hn & Hlen) Ea Hk HQ. apply wp_bind, wp_read, wp_bind. eapply wp_load_map; [exact Ea|].
  unfold Pm.get_model_name. rewrite E. apply wp_bind. eapply wp_lift; [reflexivity|]. apply wp_bind. eapply wp_lift.
  { apply (arrays_equal_spec _ name MAX_SIZE_OF_KEY); [done|unfold MAX_SIZE_OF_KEY; lia|done]. }
  fold (name_of v). apply wp_bind. eapply wp_mono; [exact HQ|]. intros [] s' HQ'. by apply wp_ret.
Qed.

(** Maps of other models are passed over. *)
Lemma wp_each_skip p name items vs rest (Q : unit → Agent → Prop) s :
  called s p name → Forall2 (λ a v, structs (maps s) !! a = Some v) items vs →
  Forall (λ v, length (key_word v) = S MAX_SIZE_OF_KEY) vs → name ∉ names_of vs →
  wp (each rest (map_channel_and_model p)) Q s → wp (each (items ++ rest) (map_channel_and_model p)) Q s.
Proof.
  intros Hc Hi. induction Hi as [|a v items vs Ha Hi IH]; [done|]. intros [Hk Hks]%Forall_cons Hn HQ. cbn [app each].
  unfold names_of in *. rewrite fmap_cons, not_elem_of_cons in Hn. destruct Hn as [Hn Hns].
  apply wp_bind. eapply wp_map_channel; [exact Hc|exact Ha|exact Hk|]. rewrite bool_decide_false by done.
  apply wp_ret. by apply IH.
Qed.

(** A map after a model was handled: bound to it, or as before. *)
Definition bound s s' ms ms' (mo : model) v v' : Prop :=
  if decide (name_of v = mo.1) then
    ∃ p t n, v' = rebound p t n v ∧ (p, mo) ∈ ms' ∧ threads s' !! t = Some (None, [])
  else
    v' = v ∧ (∀ q mq, pm_handle v = Some q → (q, mq) ∈ ms → (q, mq) ∈ ms') ∧
    ∀ t, task_thread v = Some t → threads s' !! t = threads s !! t.

Lemma names_split name vs : NoDup (names_of vs) → name ∈ names_of vs →
  ∃ vs1 v vs2, vs = vs1 ++ v :: vs2 ∧ name_of v = name ∧ ¬ name ∈ names_of vs1 ∧ ¬ name ∈ names_of vs2.
Proof.
  unfold names_of. intros Hn (v & -> & Hv)%list_elem_of_fmap. apply list_elem_of_split in Hv as (vs1 & vs2 & ->).
  exists vs1, v, vs2. rewrite fmap_app, fmap_cons in Hn. apply NoDup_app in Hn as (_ & Hd & [Hn _]%NoDup_cons).
  split_and!; [done|done| |done]. intros Hin. apply (Hd _ Hin). by left.
Qed.
(** The other maps keep what they have. *)
Lemma bound_other s s' ms ms' mo vs1 v vs2 w :
  NoDup (omap pm_handle (vs1 ++ v :: vs2)) → w ∈ vs1 ++ vs2 → name_of w ≠ mo.1 →
  (∀ q mq, (q, mq) ∈ ms → pm_handle v ≠ Some q → (q, mq) ∈ ms') →
  (∀ t, t ∈ omap task_thread (vs1 ++ vs2) → threads s' !! t = threads s !! t) → bound s s' ms ms' mo w w.
Proof.
  intros Hn Hw Hne Hms Hth. unfold bound. rewrite decide_False by done. split; [done|]. split.
  - intros q mq Eq Hin. apply Hms; [done|]. intros Ev. rewrite omap_at, Ev in Hn. apply NoDup_cons in Hn as [Hn _].
    apply Hn. apply list_elem_of_omap. by exists w.
  - intros t Et. apply Hth. apply list_elem_of_omap. by exists w.
Qed.

Lemma bound_none s s' ms ms' mo vs :
  mo.1 ∉ names_of vs → ms ⊆ ms' → threads s' = threads s → Forall2 (bound s s' ms ms' mo) vs vs.
Proof.
  intros Hn Hms Hth. apply Forall_Forall2_diag, Forall_forall. intros v Hv. unfold bound. rewrite decide_False.
  - split; [done|]. split; [|by rewrite Hth]. intros q mq _ Hin. by apply Hms.
  - intros E. apply Hn. rewrite <- E. by apply list_elem_of_fmap_2.
Qed.

Lemma wp_each_bind p mo lst l vs ms lost (Q : unit → Agent → Prop) s :
  maps_are s lst l vs ms (p :: lost) → (p, mo) ∈ ms → NoDup (names_of vs) → Forall paired vs → willing (outside s) →
  (∀ vs' ms' lost' s', maps_are s' lst l vs' ms' lost' → Forall2 (bound s s' ms ms' mo) vs vs' → kept s s' →
     g_thread_count s' = (if decide (mo.1 ∈ names_of vs) then g_thread_count s + 1 else g_thread_count s) →
     Q tt s') →
  wp (each l.*2 (map_channel_and_model p)) Q s.
Proof.
  intros Hm Hin Hn Hpair Hw HQ. pose proof Hm as [Hl _ [_ _ Hmg] Hp Hk]. pose proof (called_model _ _ _ _ Hmg Hin) as Hc.
  pose proof (listed_structs _ _ _ _ Hl) as Hs.
  destruct (decide (mo.1 ∈ names_of vs)) as [Hin2|Hno].
  - destruct (names_split _ _ Hn Hin2) as (vs1 & v & vs2 & -> & Hv & Hn1 & Hn2).
    apply Forall2_app_inv_r in Hs as (l1 & l2' & Hs1 & Hs2 & ->). apply Forall2_cons_inv_r in Hs2 as ([i a] & l2 & Ha & Hs2 & ->).
    apply Forall_app in Hk as [Hk1 [Hkv Hk2]%Forall_cons]. apply Forall_app in Hpair as [_ [Hpv _]%Forall_cons].
    rewrite fmap_app, fmap_cons. eapply wp_each_skip; [exact Hc|by apply Forall2_fmap_l|exact Hk1|exact Hn1|].
    cbn [each snd]. apply wp_bind. eapply wp_map_channel; [exact Hc|exact Ha|exact Hkv|]. rewrite bool_decide_true by done.
    pose proof (Forall2_length _ _ _ Hs1) as Hlen.
    eapply wp_bind_model; [exact Hm|exact Hlen|exact Hpv|exact Hw|].
    intros t n ms' s' Hm' Hms Hsub Ht Hth Hcount Hkept _.
    assert ((p, mo) ∈ ms') as Hin'.
    { apply Hms; [done|]. intros Ev. destruct Hmg as [[Hnd _] _ _]. rewrite Hp, omap_at, Ev in Hnd. cbn in Hnd.
      apply NoDup_cons in Hnd as [Hnd _]. apply Hnd, elem_of_app. right. by left. }
    assert (NoDup (omap pm_handle (vs1 ++ v :: vs2))) as Hnd.
    { destruct Hmg as [[Hnd _] _ _]. rewrite Hp in Hnd. by apply NoDup_app in Hnd as [Hnd _]. }
    pose proof (maps_listed _ _ _ _ _ _ _ _ _ Hm') as Hl'. pose proof (listed_structs _ _ _ _ Hl') as Hs'.
    apply Forall2_app_inv in Hs' as [_ Hs2']; [|done]. apply Forall2_cons in Hs2' as [_ Hs2'].
    rewrite <- (app_nil_r l2.*2). eapply wp_each_skip; [|by apply Forall2_fmap_l|exact Hk2|exact Hn2|].
    { pose proof Hm' as [_ _ [_ _ Hmg'] _ _]. by eapply called_model. }
    apply wp_ret. eapply HQ; [exact Hm'| |exact Hkept|exact Hcount].
    assert (∀ w, w ∈ vs1 ++ vs2 → name_of w ≠ mo.1 → bound s s' ms ms' mo w w) as Hother.
    { intros w Hw1 Hw2. by eapply bound_other. }
    apply Forall2_app; [|constructor].
    + apply Forall_Forall2_diag, Forall_forall. intros w Hw1. apply Hother; [by apply elem_of_app; left|].
      intros E. apply Hn1. rewrite <- E. by apply list_elem_of_fmap_2.
    + unfold bound. rewrite decide_True by done. eauto 10.
    + apply Forall_Forall2_diag, Forall_forall. intros w Hw1. apply Hother; [by apply elem_of_app; right|].
      intros E. apply Hn2. rewrite <- E. by apply list_elem_of_fmap_2.
  - rewrite <- (app_nil_r l.*2). eapply wp_each_skip; [exact Hc|by apply Forall2_fmap_l|exact Hk|exact Hno|].
    apply wp_ret. eapply HQ; [exact Hm|by apply bound_none|done|done].
Qed.
(** ** All models *)

(** The last model with the name of the map. *)
Definition chosen (models : list model) v : option model := last (filter (λ mo, mo.1 = name_of v) models).

(** A map after the models were handled. *)
Definition served s s' ms ms' (models : list model) v v' : Prop :=
  match chosen models v with
  | Some mo => ∃ p t n, v' = rebound p t n v ∧ (p, mo) ∈ ms' ∧ threads s' !! t = Some (None, [])
  | None =>
      v' = v ∧ (∀ q mq, pm_handle v = Some q → (q, mq) ∈ ms → (q, mq) ∈ ms') ∧
      ∀ t, task_thread v = Some t → threads s' !! t = threads s !! t
  end.

(** [g_thread_count]: the last model starts it again. *)
Definition count_after (models : list model) (names : list (list Z)) (old : Z) : Z :=
  match last models with
  | None => old
  | Some mo => if decide (mo.1 ∈ names) then 1 else 0
  end.

Lemma chosen_app models models' v :
  chosen (models ++ models') v = match chosen models' v with Some mo => Some mo | None => chosen models v end.
Proof. unfold chosen. by rewrite filter_app, last_app. Qed.

Lemma bound_served s s' ms ms' mo v v' : bound s s' ms ms' mo v v' ↔ served s s' ms ms' [mo] v v'.
Proof.
  unfold bound, served, chosen. destruct (decide (name_of v = mo.1)) as [E|E].
  - by rewrite filter_cons_True by done.
  - by rewrite filter_cons_False by done.
Qed.

Lemma served_nothing s s' ms vs : threads s' = threads s → Forall2 (served s s' ms ms []) vs vs.
Proof.
  intros E. apply Forall_Forall2_diag, Forall_forall. intros v _. split; [done|]. split; [done|]. by rewrite E.
Qed.

(** The name of a map stays. *)
Lemma served_name s s' ms ms' models v v' : served s s' ms ms' models v v' → name_of v' = name_of v ∧ (paired v → paired v').
Proof.
  unfold served. destruct (chosen models v) as [mo|]; [|by intros (-> & _)]. intros (p & t & n & -> & _). split; [done|].
  intros _. unfold paired. cbn. split; [|done]. by split; intros _; eexists.
Qed.

Lemma served_trans s s1 s2 ms ms1 ms2 models models' v v1 v2 :
  served s s1 ms ms1 models v v1 → served s1 s2 ms1 ms2 models' v1 v2 → served s s2 ms ms2 (models ++ models') v v2.
Proof.
  intros H1 H2. destruct (served_name _ _ _ _ _ _ _ H1) as [Hn _]. unfold served in *. rewrite chosen_app.
  assert (chosen models' v1 = chosen models' v) as Ec by (unfold chosen; by rewrite Hn). rewrite Ec in H2.
  destruct (chosen models' v) as [mo|].
  - destruct H2 as (p & t & n & -> & Hin & Ht). exists p, t, n. split; [|done].
    destruct (chosen models v); [destruct H1 as (? & ? & ? & -> & _)|destruct H1 as (-> & _)]; done.
  - destruct H2 as (-> & Hms & Hth). destruct (chosen models v) as [mo|].
    + destruct H1 as (p & t & n & -> & Hin & Ht). exists p, t, n. split; [done|]. split; [by apply Hms|].
      by rewrite (Hth t).
    + destruct H1 as (-> & Hms1 & Hth1). split; [done|]. split; [eauto|]. intros t Et. rewrite Hth by done. by apply Hth1.
Qed.

Lemma served_names s s' ms ms' models vs vs' :
  Forall2 (served s s' ms ms' models) vs vs' → names_of vs' = names_of vs ∧ (Forall paired vs → Forall paired vs').
Proof.
  unfold names_of. induction 1 as [|v v' vs vs' Hv _ [IH1 IH2]]; [done|]. apply served_name in Hv as [E Hp].
  rewrite !fmap_cons, E, IH1. split; [done|]. intros [? ?]%Forall_cons. constructor; auto.
Qed.

Lemma served_all_trans s s1 s2 ms ms1 ms2 models models' vs vs1 vs2 :
  Forall2 (served s s1 ms ms1 models) vs vs1 → Forall2 (served s1 s2 ms1 ms2 models') vs1 vs2 →
  Forall2 (served s s2 ms ms2 (models ++ models')) vs vs2.
Proof.
  intros H. revert vs2. induction H as [|v v1 vs vs1 Hv _ IH]; intros vs2 H2.
  - by apply Forall2_nil_inv_l in H2 as ->.
  - apply Forall2_cons_inv_l in H2 as (v2 & vs2' & Hv2 & H2 & ->). constructor; [by eapply served_trans|by apply IH].
Qed.

Lemma count_after_app models models' names old :
  count_after (models ++ models') names old = count_after models' names (count_after models names old).
Proof. unfold count_after. rewrite last_app. by destruct (last models'). Qed.

(** What a loop over the models starts from. *)
Record bindable s lst l vs ms lost : Prop := {
  bindable_list : g_pm_map_list s = Some lst;
  bindable_maps : maps_are s lst l vs ms lost;
  bindable_names : NoDup (names_of vs);
  bindable_paired : Forall paired vs;
  bindable_willing : willing (outside s);
  bindable_plenty : plenty (heap s) }.

Lemma bindable_after s s' lst l vs vs' ms ms' lost lost' models :
  bindable s lst l vs ms lost → maps_are s' lst l vs' ms' lost' → Forall2 (served s s' ms ms' models) vs vs' → kept s s' →
  bindable s' lst l vs' ms' lost'.
Proof.
  intros [E Hm Hn Hp Hw Hpl] Hm' Hv []. destruct (served_names _ _ _ _ _ _ _ Hv) as [En Hpair].
  split; [congruence|done|by rewrite En|auto|auto|auto].
Qed.
Lemma wp_bind_object o lst l vs ms lost (Q : unit → Agent → Prop) s :
  bindable s lst l vs ms lost → acceptable o →
  (∀ vs' ms' lost' s', maps_are s' lst l vs' ms' lost' → Forall2 (served s s' ms ms' (opt_list (model_of o))) vs vs' →
     kept s s' → g_thread_count s' = count_after (opt_list (model_of o)) (names_of vs) (g_thread_count s) → Q tt s') →
  wp (bind_object modbus dlt698 o) Q s.
Proof.
  intros [Elst Hm Hn Hpair Hw Hpl] Ha HQ.
  assert (∀ h, model_of o = None → used 0 (heap s) h → Q tt (set_heap h s)) as Hnone.
  { intros h E Hu. eapply (HQ vs ms lost); rewrite ?E; [|by apply served_nothing| |done].
    - by eapply maps_are_same; [|exact Hm].
    - split; [done..|apply Hu]. }
  destruct o as [o|]; cycle 1.
  { apply wp_ret. replace s with (set_heap (heap s) s) by by destruct s. apply Hnone; [done|apply used_refl]. }
  pose proof Hm as [Hl Hd [Hx Ht Hmg] Hp Hk].
  apply wp_bind. eapply wp_protocol_init; [exact Hmg|exact Ha| |].
  2: { intros h Hu E. apply wp_ret, Hnone; [by apply E|done]. }
  intros p mo s1 Emo Hm1 Hsg Ema Epo Eth Hu. apply wp_bind, wp_change, wp_bind, wp_read, wp_bind.
  eapply wp_lift; [cbn; by rewrite (same_list _ _ Hsg)|]. set (s2 := set_thread_count 0 s1).
  assert (maps_are s2 lst l vs ((p, mo) :: ms) (p :: lost)) as Hm2.
  { split; [by cbn; rewrite Ema|by cbn; rewrite Ema| |cbn; by rewrite Hp, Permutation_middle|done].
    split; [by cbn; rewrite Epo|by cbn; rewrite Eth|]. by eapply managing_same; [..|exact Hm1]. }
  apply wp_for_each with l; [by apply Hm2|]. eapply wp_each_bind; [exact Hm2|by left|exact Hn|exact Hpair| |].
  { cbn. by rewrite (same_outside _ _ Hsg). }
  intros vs' ms' lost' s' Hm' Hb Hkept Hc. eapply HQ; [exact Hm'| | |].
  - rewrite Emo. eapply (served_all_trans s s2 s' ms ((p, mo) :: ms) ms' [] [mo] vs vs vs').
    + apply Forall_Forall2_diag, Forall_forall. intros v _. split; [done|]. split; [by right|]. intros t _. cbn. by rewrite Eth.
    + eapply Forall2_impl; [exact Hb|]. intros v v'. apply bound_served.
  - etrans; [|exact Hkept]. destruct Hsg. split; cbn; [congruence..|apply Hu].
  - rewrite Emo, Hc. cbn. done.
Qed.

Lemma wp_bind_objects n i body lst l vs ms lost (Q : unit → Agent → Prop) s :
  (n + i = length body)%nat → Forall (λ j, acceptable (json_value_get_object (Some j))) body → bindable s lst l vs ms lost →
  (∀ vs' ms' lost' s', bindable s' lst l vs' ms' lost' →
     Forall2 (served s s' ms ms' (omap (λ j, model_of (json_value_get_object (Some j))) (drop i body))) vs vs' → kept s s' →
     g_thread_count s' =
       count_after (omap (λ j, model_of (json_value_get_object (Some j))) (drop i body)) (names_of vs) (g_thread_count s) →
     Q tt s') →
  wp (bind_objects modbus dlt698 n i body) Q s.
Proof.
  intros Hn Hacc. revert i Hn vs ms lost s. induction n as [|n IH]; intros i Hn vs ms lost s Hb HQ; cbn [bind_objects].
  { apply wp_ret. apply (HQ vs ms lost); rewrite ?drop_ge by lia; [done|by apply served_nothing|done|done]. }
  destruct (lookup_lt_is_Some_2 body i) as [j Ej]; [lia|].
  assert (json_array_get_object (Some body) i = json_value_get_object (Some j)) as ->.
  { unfold json_array_get_object. by rewrite bind_ret, Ej. }
  rewrite Forall_forall in Hacc. rewrite (drop_S _ _ _ Ej), omap_cons_opt in HQ.
  apply wp_bind. eapply wp_bind_object; [exact Hb|by eapply Hacc, list_elem_of_lookup_2|].
  intros vs1 ms1 lost1 s1 Hm1 Hs1 Hk1 Hc1. destruct (served_names _ _ _ _ _ _ _ Hs1) as [En _].
  eapply (IH (S i)); [lia|by eapply bindable_after|].
  intros vs2 ms2 lost2 s2 Hb2 Hs2 Hk2 Hc2. eapply HQ; [exact Hb2|by eapply served_all_trans|by etrans|].
  by rewrite Hc2, En, Hc1, count_after_app.
Qed.

Variable json_parse_string : list Z → option JSON.

(** The models of a message, if it has any. *)
Definition models_in (text : list Z) : option (list JSON) :=
  o ← json_value_get_object (json_parse_string text); json_object_dotget_array (Some o) (str "body").

Definition models_of (body : list JSON) : list model := omap (λ j, model_of (json_value_get_object (Some j))) body.

(** Nothing is left of the maps. *)
Record emptied s s' : Prop := {
  emptied_list : g_pm_map_list s' = None;
  emptied_has : ∃ ms lost, maps s' = mkStore ∅ ∅ ∧ owning good modbus dlt698 s' [] [] ms ∧ ms.*1 ≡ₚ lost;
  emptied_channels : channels s' = channels s;
  emptied_error : g_channel_parse_error s' = g_channel_parse_error s;
  emptied_willing : willing (outside s) → willing (outside s');
  emptied_plenty : plenty (heap s) → plenty (heap s') }.

Lemma wp_give_all_up lst l vs ms lost (Q : status → Agent → Prop) s s1 :
  maps_are s1 lst l vs ms lost → kept s s1 → (∀ s', emptied s s' → Q FAILURE s') →
  wp (map_list_destroy (Some lst);; modify (set_map_list None);; mret FAILURE) Q s1.
Proof.
  intros Hm [] HQ. apply wp_bind. eapply (wp_map_list_destroy good modbus dlt698); [exact Hm|].
  intros ms' s' Ho Hsub Hp [] Ema Hu. apply wp_bind, wp_change, wp_ret, HQ. split; cbn; try congruence.
  - exists ms', lost. split; [done|]. split; [|done]. by eapply owning_same; [|exact Ho].
  - intros Hw. rewrite same_outside. auto.
  - intros Hp1. apply Hu. auto.
Qed.

(** A message without models. *)
Lemma wp_thing_refused text lst l vs ms lost (Q : status → Agent → Prop) s :
  models_in text = None → bindable s lst l vs ms lost → Q FAILURE s → (∀ s', emptied s s' → Q FAILURE s') →
  wp (thing_instance_construct modbus dlt698 json_parse_string text) Q s.
Proof.
  intros Eb Hb HS HN. unfold models_in in Eb. apply wp_bind, wp_read. rewrite (bindable_list _ _ _ _ _ _ Hb).
  destruct (json_parse_string text) as [[| | | | |o]|]; try by apply wp_ret. cbn [json_value_get_object] in Eb.
  rewrite bind_ret in Eb. rewrite Eb. apply wp_bind, wp_ret, wp_bind, wp_read. rewrite (bindable_list _ _ _ _ _ _ Hb).
  destruct (g_thread_count s =? 0); [|by apply wp_ret]. eapply wp_give_all_up; [by apply Hb|done|done].
Qed.

Lemma wp_thing_instance_construct text body lst l vs ms lost (Q : status → Agent → Prop) s :
  models_in text = Some body → Forall (λ j, acceptable (json_value_get_object (Some j))) body → bindable s lst l vs ms lost →
  (∀ vs' ms' lost' s', count_after (models_of body) (names_of vs) (g_thread_count s) ≠ 0 →
     bindable s' lst l vs' ms' lost' → Forall2 (served s s' ms ms' (models_of body)) vs vs' → kept s s' → Q OK s') →
  (∀ s', count_after (models_of body) (names_of vs) (g_thread_count s) = 0 → emptied s s' → Q FAILURE s') →
  wp (thing_instance_construct modbus dlt698 json_parse_string text) Q s.
Proof.
  intros Eb Hacc Hb HS HN. unfold models_in in Eb. unfold thing_instance_construct. apply wp_bind, wp_read.
  rewrite (bindable_list _ _ _ _ _ _ Hb).
  destruct (json_parse_string text) as [[| | | | |o]|]; try done. cbn [json_value_get_object] in Eb. rewrite bind_ret in Eb.
  rewrite Eb. apply wp_bind, wp_bind. eapply wp_bind_objects; [by rewrite Nat.add_0_r|exact Hacc|exact Hb|].
  intros vs1 ms1 lost1 s1 Hb1 Hs1 Hk1 Hc1. rewrite drop_0 in *. apply wp_ret, wp_bind, wp_read. rewrite Hc1.
  fold (models_of body) in *. destruct (Z.eqb_spec (count_after (models_of body) (names_of vs) (g_thread_count s)) 0) as [E|E].
  - rewrite (bindable_list _ _ _ _ _ _ Hb1). eapply wp_give_all_up; [by apply Hb1|exact Hk1|]. intros s' He. by apply HN.
  - apply wp_ret. by eapply HS.
Qed.
End theory.
