(* ===== verification/IotAgentTheory.v ===== *)
(** * IotAgentTheory: the agent in any order of messages and iterations.

    [framed] says what an iteration of a thread leaves alone, for any driver;
    [agent_step] is a message or an iteration of a thread; [sane] is the invariant of
    the process; [latched] is the state that no message leaves. *)
From S2P Require Import Prelude.
From S2P Require Import Effects.
From S2P Require Import Driver.
From S2P Require Import Alloc.
From S2P Require Import CString.
From S2P Require Import Json.
From S2P Require Import SinglyLinkedList.
From S2P Require Import Registry.
From S2P Require Import ChannelModel.
From S2P Require Import ChannelTheory.
From S2P Require Import ProtocolManager.
From S2P Require Import IotMain.
From S2P Require Import PollTheory.
From S2P Require Import IotStart.
From S2P Require Import IotStartTheory.
From S2P Require Import IotChannelTheory.
From S2P Require Import IotBindTheory.
From stdpp Require Import gmap strings.
#[local] Open Scope Z_scope.

(** ** An iteration *)

Section frame.
Context {M G : Type} (good : G → Prop) (modbus dlt698 : Pm.INTER_DESCRIPTION M G).
Context `{!DriverLaws good modbus, !DriverLaws good dlt698}.
Implicit Types (th : Thread M G) (m : Pm.Memory M) (h : Pm.PM_INSTANCE M G) (t : Pm.TIME_TO_SEND).

Definition ours (h : Pm.PM_INSTANCE M G) : Prop := Pm.interface h = modbus ∨ Pm.interface h = dlt698.

(** What an iteration leaves alone. *)
Record framed th th' : Prop := {
  framed_key : IotMain.key_word (IotMain.map th') = IotMain.key_word (IotMain.map th);
  framed_handle : core <$> IotMain.pm_handle (IotMain.map th') = core <$> IotMain.pm_handle (IotMain.map th);
  framed_items : Pm.items (mem th') = Pm.items (mem th);
  framed_infos : unchanged (mem th) (mem th');
  framed_good : (∀ h, IotMain.pm_handle (IotMain.map th) = Some h → ours h) → good (glob th) → good (glob th') }.

#[export] Instance framed_pre : PreOrder framed.
Proof.
  split; [by split|]. intros t1 t2 t3 [K1 H1 I1 F1 G1] [K2 H2 I2 F2 G2]. split; [congruence..| |].
  - unfold unchanged in *. congruence.
  - intros Ho Hg. apply G2; [|by apply G1]. intros h Eh. rewrite Eh in H1.
    destruct (IotMain.pm_handle (IotMain.map t1)) as [h1|]; [|done]. injection H1 as _ _ Ei. unfold ours. rewrite Ei. by apply Ho.
Qed.

(** [t] may replace the time record of [a]. *)
Definition planned m a t : Prop := ∃ i t0, Pm.infos m !! a = Some i ∧ Pm.time_to_send i = Some t0 ∧ plan t = plan t0.

Lemma store_frame a t m m' :
  Pm.store_time a t m = Some m' → planned m a t → Pm.items m' = Pm.items m ∧ unchanged m m' ∧ planned m' a t.
Proof.
  intros E (i & t0 & Ei & Et & Ep). unfold Pm.store_time in E. rewrite Ei, bind_ret in E. injection E as <-.
  split; [done|]. split.
  - apply map_eq. intros b. cbn. rewrite !lookup_fmap. destruct (decide (b = a)) as [->|Hb].
    + rewrite lookup_insert_eq, Ei. cbn -[plan]. unfold fixed. cbn -[plan]. rewrite Et. cbn -[plan]. by rewrite Ep.
    + by rewrite lookup_insert_ne.
  - exists (Pm.set_time t i), t. cbn. by rewrite lookup_insert_eq.
Qed.

Lemma next_frame m h m' h' r :
  Pm.get_next_send_time m h = Some (m', h', r) →
  core h' = core h ∧ Pm.items m' = Pm.items m ∧ unchanged m m' ∧ ∀ a t, r = Some (a, t) → planned m' a t.
Proof.
  unfold Pm.get_next_send_time. intros ([a|] & _ & H)%bind_Some; [|injection H as <- <- <-; by split_and!].
  apply bind_Some in H as (i & Ei & H). destruct (Pm.time_to_send i) as [t|] eqn:Et; [|injection H as <- <- <-; by split_and!].
  apply bind_Some in H as (nx & _ & H). apply bind_Some in H as ([next last] & _ & H).
  apply bind_Some in H as (m1 & E & [= <- <- <-]). apply store_frame in E as (E1 & E2 & E3); [|by exists i, t].
  split_and!; [done..|]. by intros ? ? [= <- <-].
Qed.

Lemma send_frame tick a th th' : send_request tick a th = Some th' → framed th th' ∧ mem th' = mem th.
Proof.
  unfold send_request. intros (h & Eh & ([h' r] & Er & H)%bind_Some)%bind_Some. apply bind_Some in H as (r0 & _ & [= <-]).
  split; [|done]. split; cbn; [done| |done|done|done]. rewrite Eh. cbn. f_equal.
  unfold Pm.get_request_data in Er. apply bind_Some in Er as ([b|] & _ & Er); [|by injection Er as <- <-].
  apply bind_Some in Er as (i & _ & Er). destruct (Pm.data_request i); by injection Er as <- <-.
Qed.

(** A new time record. *)
Lemma stored_frame a t th m :
  Pm.store_time a t (mem th) = Some m → planned (mem th) a t → framed th (set_mem m th).
Proof. intros E Hp. apply store_frame in E as (E1 & E2 & _); [|done]. by split. Qed.

Lemma realtime_frame W a t tick th th' : realtime W a t tick th = Some th' → planned (mem th) a t → framed th th'.
Proof.
  unfold realtime. intros H Hp. destruct (elapsed W _ _ _); [|by injection H as <-].
  destruct (negb (IotMain.task_lock (IotMain.map th))).
  - apply bind_Some in H as (th1 & E1 & H). apply bind_Some in H as (m & E & [= <-]). apply send_frame in E1 as [F1 Em].
    set (th2 := set_last_tick tick _) in *. assert (framed th th2) as F2 by (etrans; [exact F1|by split]).
    etrans; [exact F2|]. eapply stored_frame; [exact E|]. cbn. by rewrite Em.
  - apply bind_Some in H as (last & _ & H). destruct (elapsed W tick last 2); [|by injection H as <-].
    injection H as <-. by destruct (5 <=? _); split.
Qed.

Lemma freezing_plan localtime now t t' : update_freezing localtime now t = Some t' → plan t' = plan t.
Proof.
  unfold update_freezing. destruct (whole_minute now); [|by intros [= <-]].
  intros (b1 & _ & (b2 & _ & [= <-])%bind_Some)%bind_Some. by destruct b1, b2.
Qed.

Lemma schfrz_frame W localtime a t tick now th th' :
  schfrz W localtime a t tick now th = Some th' → planned (mem th) a t → framed th th'.
Proof.
  unfold schfrz. intros ([th1 t1] & E1 & (t2 & E2 & (m & E & [= <-])%bind_Some)%bind_Some)%bind_Some Hp.
  apply freezing_plan in E2. assert (framed th th1 ∧ mem th1 = mem th ∧ plan t1 = plan t) as (F1 & Em & Ep).
  { destruct (_ && _); [|by injection E1 as <- <-]. apply bind_Some in E1 as (th2 & Es & [= <- <-]).
    apply send_frame in Es as [F Em]. split; [|done]. etrans; [exact F|by split]. }
  etrans; [exact F1|]. eapply stored_frame; [exact E|]. rewrite Em. destruct Hp as (i & t0 & ? & ? & ?).
  exists i, t0. split_and!; [done..|congruence].
Qed.

Lemma scheduled_frame W localtime a t tick now th th' :
  scheduled W localtime a t tick now th = Some th' → planned (mem th) a t → framed th th'.
Proof.
  unfold scheduled. intros H Hp. destruct (elapsed W _ _ _); [|by injection H as <-].
  destruct (whole_minute now); [|by injection H as <-]. apply bind_Some in H as (b & _ & H).
  destruct b; [|by injection H as <-]. apply bind_Some in H as (th1 & E1 & (m & E & [= <-])%bind_Some).
  apply send_frame in E1 as [F1 Em]. etrans; [exact F1|]. eapply stored_frame; [exact E|]. by rewrite Em.
Qed.

Lemma received_frame ok buf th th' : on_io_bytes_received ok buf th = Some th' → framed th th'.
Proof.
  unfold on_io_bytes_received. destruct buf as [|b0 buf]; [by intros [= <-]|]. set (bytes := b0 :: buf).
  set (th1 := IotMain.set_map _ _). assert (framed th th1) as F1 by by split.
  change (IotMain.pm_handle (IotMain.map th1)) with (IotMain.pm_handle (IotMain.map th)).
  destruct (IotMain.pm_handle (IotMain.map th)) as [h|] eqn:Eh; [|by intros [= <-]]. destruct ok; [|by intros [= <-]]. cbn [negb].
  intros ([g p] & Ep & H)%bind_Some. assert (framed th (set_glob g th1)) as F2.
  { split; cbn; [done..|]. intros Ho Hg. unfold Pm.data_response_parse in Ep.
    apply bind_Some in Ep as (d & _ & (a & _ & (a2 & _ & (i & _ & (mo & _ & E)%bind_Some)%bind_Some)%bind_Some)%bind_Some).
    destruct (Ho _ Eh) as [Ei|Ei]; rewrite Ei in E; by eapply parse_good in E. }
  destruct p as [p|]; [apply bind_Some in H as (x & _ & [= <-])|injection H as <-]; [|done]. etrans; [exact F2|by split].
Qed.

Lemma iteration_frame W localtime i th th' : send_resquest_thread W localtime i th = Some th' → framed th th'.
Proof.
  unfold send_resquest_thread. destruct (IotMain.task_stop (IotMain.map th)); [by intros [= <-]|].
  intros (th1 & E1 & (h & Eh & ([[m h'] r] & En & H)%bind_Some)%bind_Some)%bind_Some.
  assert (framed th th1) as F1.
  { clear -E1 DriverLaws0 DriverLaws1. revert th E1. induction (events i) as [|[ok buf|] evs IH]; intros th; cbn [xio_dowork].
    - by intros [= <-].
    - intros (th2 & E & H)%bind_Some. etrans; [by eapply received_frame|by apply IH].
    - intros H. etrans; [|by apply IH]. by split. }
  apply next_frame in En as (Ec & Ei & Eu & Hp). set (th2 := set_mem m _) in *.
  assert (framed th th2) as F2.
  { etrans; [exact F1|]. split; cbn; [done| |done|done|done]. rewrite Eh. cbn. by rewrite Ec. }
  etrans; [exact F2|]. destruct r as [[a t]|]; [|by injection H as <-]. specialize (Hp a t eq_refl).
  destruct (array_equal _ _); [by eapply realtime_frame|].
  destruct (array_equal _ _); [by eapply schfrz_frame|by eapply scheduled_frame].
Qed.
End frame.

(** ** The agent *)

Import Channel.
Import Start.

Section agent.
Context {M G : Type} (good : G → Prop) (modbus dlt698 : Pm.INTER_DESCRIPTION M G).
Context `{!DriverLaws good modbus, !DriverLaws good dlt698}.
Context (json_parse_string : list Z → option JSON) (W : Z) (localtime : Z → tm).
#[warnings="-notation-for-abbreviation"] Notation Agent := (Start.Agent M G).
#[warnings="-notation-for-abbreviation"] Notation model := (list Z * list JSON)%type.
#[warnings="-notation-for-abbreviation"] Notation agent_has := (agent_has good modbus dlt698).
Implicit Types (s : Agent) (a p t : positive) (v : PM_CHANNEL_MAP) (vs : list PM_CHANNEL_MAP).

(** What the agent reacts to: a message of the broker, or a thread whose turn it is. *)
Inductive event :=
  | ChannelMessage (text : list Z)
  | ModelMessage (text : list Z)
  | Iteration (a : positive) (i : input).

(** The answer to a message. *)
Definition agent_step (ev : event) : ST Agent (option status) :=
  match ev with
  | ChannelMessage text => r ← channel_instance_construct json_parse_string text; mret (Some r)
  | ModelMessage text => r ← thing_instance_construct modbus dlt698 json_parse_string text; mret (Some r)
  | Iteration a i => thread_step W localtime a i;; mret None
  end.

(** Messages that are as the agent expects them. *)
Definition decent (ev : event) : Prop :=
  match ev with
  | ChannelMessage text =>
      (∀ j, j ∈ default [] (body_of (json_parse_string text)) →
         legible (object_of j) ∧ ∀ sp, channel_means j sp → portable sp) ∧
      (∀ body sps, body_of (json_parse_string text) = Some body → Forall2 channel_means body sps →
         NoDup ((λ sp, array_text MAX_SIZE_OF_KEY (c_model sp)) <$> sps))
  | ModelMessage text =>
      ∀ body, models_in json_parse_string text = Some body →
        Forall (λ j, acceptable good modbus dlt698 (json_value_get_object (Some j))) body
  | Iteration _ _ => True
  end.

(** Every map has a port of its own, every thread a map with a manager, every manager
    the descriptions of its model. *)
Record running s : Prop := {
  running_maps : ∃ vs ms lost, agent_has s vs ms lost ∧ NoDup (names_of vs) ∧ Forall paired vs;
  running_channels : channels s = mkStore ∅ ∅;
  running_willing : willing (outside s);
  running_plenty : plenty (heap s) }.

(** The agent has given up. *)
Definition latched s : Prop := g_channel_parse_error s = true ∧ g_pm_map_list s = None.

Definition sane s : Prop := running s ∨ latched s.

(** ** Iterations *)

(** The thread whose turn it is, in the process. *)
Lemma thread_of_spec s a t p th :
  thread_of s a = Some (t, p, th) →
  ∃ v h last tr, structs (maps s) !! a = Some v ∧ task_thread v = Some t ∧ pm_handle v = Some p ∧
    managers s !! p = Some h ∧ threads s !! t = Some (last, tr) ∧
    th = IotMain.mkThread (IotMain.mkMap (Some h) (task_stop v) (task_lock v) (time_out_count v) (key_word v))
           (memory s) (globals s) last tr.
Proof.
  unfold thread_of. intros (v & Ev & (t' & Et & ([last tr] & El & (p' & Ep & (h & Eh & (cfg & _ & [= <- <- <-])%bind_Some
    )%bind_Some)%bind_Some)%bind_Some)%bind_Some)%bind_Some. by exists v, h, last, tr.
Qed.

(** A thread changes its map, its manager, the time records and its own variable. *)
Lemma thread_step_effect a i s out s' :
  thread_step W localtime a i s = Some (out, s') →
  ∃ v v' p t h h' y y', structs (maps s) !! a = Some v ∧ task_thread v = Some t ∧ pm_handle v = Some p ∧
    managers s !! p = Some h ∧ core h' = core h ∧ threads s !! t = Some y' ∧
    maps s' = mkStore (cells (maps s)) (<[a := v']> (structs (maps s))) ∧
    pm_handle v' = pm_handle v ∧ task_thread v' = task_thread v ∧ xio_handle v' = xio_handle v ∧ key_word v' = key_word v ∧
    managers s' = <[p := h']> (managers s) ∧ threads s' = <[t := y]> (threads s) ∧
    Pm.items (memory s') = Pm.items (memory s) ∧ unchanged (memory s) (memory s') ∧
    ((ours modbus dlt698 h) → good (globals s) → good (globals s')) ∧
    ports s' = ports s ∧ channels s' = channels s ∧ g_pm_map_list s' = g_pm_map_list s ∧
    g_channel_parse_error s' = g_channel_parse_error s ∧ outside s' = outside s ∧ heap s' = heap s.
Proof.
  unfold thread_step. intros ([[t p] th] & Eth & (th' & Es & (s1 & Ed & [= <- <-])%bind_Some)%bind_Some)%bind_Some.
  apply thread_of_spec in Eth as (v & h & last & tr & Ev & Et & Ep & Eh & El & Eth).
  apply (iteration_frame good modbus dlt698) in Es as [_ Hh Hi Hf Hg]. rewrite Eth in *. cbn in Hh, Hi, Hf, Hg.
  unfold thread_done in Ed. rewrite Ev, bind_ret in Ed. apply bind_Some in Ed as (h' & Eh' & [= <-]).
  rewrite Eh' in Hh. injection Hh as H1 H2 H3.
  eexists v, _, p, t, h, h', _, _. do 3 (split; [done|]). split; [done|]. split; [unfold core; congruence|].
  split; [done|]. split; [reflexivity|]. split_and!; try done. intros Ho. apply Hg. by intros ? [= <-].
Qed.

(** The managers after an iteration. *)
Lemma managing_thread s s' ms p h h' :
  managing good modbus dlt698 s ms → managers s !! p = Some h → core h' = core h → managers s' = <[p := h']> (managers s) →
  Pm.items (memory s') = Pm.items (memory s) → unchanged (memory s) (memory s') →
  (ours modbus dlt698 h → good (globals s) → good (globals s')) → managing good modbus dlt698 s' ms.
Proof.
  intros [[Hn Hd] Hg (own & Ho & Hap)] Eh Ec Em Ei Eu Hg'. split.
  - split; [done|]. rewrite Em, dom_insert_L, Hd. assert (p ∈ ms.*1); [|set_solver].
    apply (elem_of_list_to_set (C:=gset positive)). rewrite <- Hd. apply elem_of_dom. by eexists.
  - apply Hg'; [|done]. assert (p ∈ dom (managers s)) as Hp by (apply elem_of_dom; by eexists).
    rewrite Hd, elem_of_list_to_set in Hp. apply list_elem_of_fmap in Hp as ([p' mo] & -> & Hin). cbn in *.
    destruct (Ho _ _ Hin) as (h1 & desc & E1 & _ & _ & Hown & _). assert (h1 = h) as -> by congruence.
    destruct Hown as [[? _]|[? _]]; [by left|by right].
  - exists own. split; [|done]. intros q mo Hin. eapply manages_frame; [by apply Ho|..].
    + rewrite Em. destruct (decide (q = p)) as [->|]; [|by rewrite lookup_insert_ne by done].
      rewrite lookup_insert_eq, Eh. cbn. by rewrite Ec.
    + intros b _. by rewrite Ei.
    + intros b _. apply (f_equal (λ f, f !! b)) in Eu. by rewrite !lookup_fmap in Eu.
Qed.
Lemma split_at (l : list (positive * positive)) vs a :
  a ∈ l.*2 → length l = length vs →
  ∃ l1 i l2 vs1 v vs2, l = l1 ++ (i, a) :: l2 ∧ vs = vs1 ++ v :: vs2 ∧ length l1 = length vs1.
Proof.
  intros ([i a'] & -> & Hin)%list_elem_of_fmap Hlen. apply list_elem_of_split in Hin as (l1 & l2 & ->).
  rewrite length_app in Hlen. cbn in Hlen. destruct (drop (length l1) vs) as [|v vs2] eqn:E.
  { apply (f_equal length) in E. rewrite length_drop in E. cbn in E. lia. }
  exists l1, i, l2, (take (length l1) vs), v, vs2. rewrite <- E, take_drop. split_and!; [done|done|].
  rewrite length_take. lia.
Qed.

(** The names and the pairs survive a change of one map. *)
Lemma replaced_names vs1 v v' vs2 :
  key_word v' = key_word v → names_of (vs1 ++ v' :: vs2) = names_of (vs1 ++ v :: vs2).
Proof. intros E. unfold names_of, name_of. by rewrite !fmap_app, !fmap_cons, E. Qed.

Lemma running_iteration a i s out s' : running s → thread_step W localtime a i s = Some (out, s') → running s'.
Proof.
  intros [(vs & ms & lost & Hh & Hn & Hp) Hch Hw Hpl] E.
  apply thread_step_effect in E as (v & v' & p & t & h & h' & y & y' & Ev & Et & Ep & Eh & Ec & Ey & Ema & Ep' & Et' & Ex' & Ek'
    & Emg & Eth & Ei & Eu & Hg & Epo & Ech & Elst & Eerr & Eo & Ehe).
  split; [|by rewrite Ech|by rewrite Eo|by rewrite Ehe]. unfold IotChannelTheory.agent_has in *. rewrite Elst.
  destruct (g_pm_map_list s) as [lst|]; [|destruct Hh as (_ & E & _); by rewrite E in Ev].
  destruct Hh as (l & Hm). pose proof Hm as [Hl Hd [Hx Ht Hmg] Hps Hk].
  assert (a ∈ l.*2) as Ha.
  { apply (elem_of_list_to_set (C:=gset positive)). rewrite <- Hd. apply elem_of_dom. by eexists. }
  destruct (split_at l vs a Ha (Forall2_length _ _ _ (listed_structs _ _ _ _ Hl))) as (l1 & i0 & l2 & vs1 & v0 & vs2 & -> & -> & Hlen).
  destruct (listed_update _ _ _ _ _ _ _ _ v' _ Hlen Hl) as [_ Ev0]. assert (v0 = v) as -> by congruence.
  pose proof (managing_thread _ _ _ _ _ _ Hmg Eh Ec Emg Ei Eu Hg) as Hmg'.
  exists (vs1 ++ v' :: vs2), ms, lost. split; [|split].
  - exists (l1 ++ (i0, a) :: l2). eapply maps_replaced; try done.
    + eapply exactly_perm; [rewrite Et', <- (omap_at _ _ v); reflexivity|]. destruct Ht as [Hnt Hdt]. split; [done|].
      rewrite Eth, dom_insert_L, Hdt. assert (t ∈ omap task_thread (vs1 ++ v :: vs2)); [|set_solver].
      rewrite omap_at, Et. by left.
    + by rewrite Hps, omap_at, Ep', <- app_assoc.
  - by rewrite (replaced_names _ v).
  - apply Forall_app in Hp as [H1 [[Hpair _] H2]%Forall_cons]. apply Forall_app. split; [done|]. constructor; [|done].
    split; [by rewrite Ep', Et'|]. rewrite Ep', Ep. done.
Qed.
(** ** Messages *)

Lemma running_configured s sps lost s' n :
  running s → configured good modbus dlt698 s sps lost s' n → channels s' = mkStore ∅ ∅ →
  NoDup ((λ sp, array_text MAX_SIZE_OF_KEY (c_model sp)) <$> sps) → running s'.
Proof.
  intros [_ _ Hw Hpl] [(lst & l & vs & ms & El & Hm & Hs) _ _ Hu Hw'] Hch Hn. split; [|done|auto|by apply Hu].
  exists vs, ms, lost. split; [|split].
  - unfold IotChannelTheory.agent_has. rewrite El. by exists l.
  - replace (names_of vs) with ((λ sp, array_text MAX_SIZE_OF_KEY (c_model sp)) <$> sps); [done|]. clear -Hs.
    unfold names_of. induction Hs as [|sp v sps vs Hv _ IH]; [done|]. rewrite !fmap_cons, IH. f_equal. symmetry. apply Hv.
  - clear -Hs. induction Hs as [|sp v sps vs [_ _ E] _ IH]; constructor; [|done]. rewrite E. split; [|done].
    split; by intros [].
Qed.

Lemma sane_channels text s :
  running s → decent (ChannelMessage text) → wp (channel_instance_construct json_parse_string text) (λ _ s', sane s') s.
Proof.
  intros Hr [Hj Hd]. pose proof Hr as [(vs & ms & lost & Hm & Hn & Hp) Hch Hw Hpl].
  eapply (wp_channel_instance_construct good modbus dlt698); [exact Hm|exact Hch|exact Hj| |].
  - intros body sps s' Eb Hs Hc Hch'. left. eapply running_configured; [done|exact Hc|done|by eapply Hd].
  - intros s' [(h & -> & Hu & _)|[El Ee]] Hch' _; [left|right; by split; [apply Ee|]].
    split; [|done|done|by apply Hu]. exists vs, ms, lost. split; [|done]. by eapply agent_has_same; [..|exact Hm].
Qed.

Lemma running_emptied s s' : running s → emptied good modbus dlt698 s s' → running s'.
Proof.
  intros [_ Hch Hw Hpl] [El (ms & lost & Ema & Ho & Hp) Ech Ee Hw' Hpl']. split; [|congruence|auto|auto].
  exists [], ms, lost. split; [|by split; constructor]. unfold IotChannelTheory.agent_has. by rewrite El.
Qed.

Lemma running_models text s :
  running s → decent (ModelMessage text) →
  wp (thing_instance_construct modbus dlt698 json_parse_string text) (λ _ s', running s') s.
Proof.
  intros Hr Hd. pose proof Hr as [(vs & ms & lost & Hm & Hn & Hp) Hch Hw Hpl]. unfold IotChannelTheory.agent_has in Hm.
  destruct (g_pm_map_list s) as [lst|] eqn:El.
  - destruct Hm as (l & Hm). assert (bindable good modbus dlt698 s lst l vs ms lost) as Hb by done.
    destruct (models_in json_parse_string text) as [body|] eqn:Eb.
    + eapply wp_thing_instance_construct; [exact Eb|by apply Hd|exact Hb| |].
      * intros vs' ms' lost' s' _ [El' Hm' Hn' Hp' Hw' Hpl'] _ Hk. split; [|by rewrite (kept_channels _ _ Hk)|done|done].
        exists vs', ms', lost'. split; [|done]. unfold IotChannelTheory.agent_has. rewrite El'. by exists l.
      * intros s' _ He. by eapply running_emptied.
    + eapply wp_thing_refused; [exact Eb|exact Hb|done|]. intros s' He. by eapply running_emptied.
  - apply wp_bind, wp_read. rewrite El. by apply wp_ret.
Qed.

(** ** Giving up *)

(** Nothing but [channel_failed] touches the flag, and it only sets it. *)
Definition flag_kept s s' : Prop := g_channel_parse_error s = true → g_channel_parse_error s' = true.

#[local] Instance flag_kept_pre : PreOrder flag_kept.
Proof. split; [intros s He; exact He|]. intros s1 s2 s3 H1 H2 ?. auto. Qed.

#[warnings="-notation-for-abbreviation"] Notation flagged d := (keeps flag_kept d (λ _, True)).

Lemma flagged_on_maps {X} (d : ST (Store PM_CHANNEL_MAP * Heap) X) : flagged (on_maps d).
Proof. intros s r s'. unfold on_maps. destruct (d _) as [[x [st h]]|]; [|done]. intros [= <- <-]. by split; [intros He|]. Qed.
Lemma flagged_on_channels {X} (d : ST (Store CHANNEL_MODEL_INFO * Heap) X) : flagged (on_channels d).
Proof. intros s r s'. unfold on_channels. destruct (d _) as [[x [st h]]|]; [|done]. intros [= <- <-]. by split; [intros He|]. Qed.
Lemma flagged_on_alloc {X} (d : Alloc X) : flagged (on_alloc d).
Proof. intros s r s'. unfold on_alloc. destruct (d _) as [[x h]|]; [|done]. intros [= <- <-]. by split; [intros He|]. Qed.
Lemma flagged_get : flagged (get : ST Agent Agent).
Proof. intros s r s' [= <- <-]. by split; [intros He|]. Qed.
Lemma flagged_modify (f : Agent → Agent) : (∀ s, flag_kept s (f s)) → flagged (modify f).
Proof. intros Hf s r s' [= <- <-]. by split. Qed.
Lemma flagged_lift {X} (o : option X) : flagged (lift o : ST Agent X).
Proof. apply keeps_lift; [apply _|done]. Qed.
Lemma flagged_ret {X} (x : X) : flagged (mret x : ST Agent X).
Proof. apply keeps_ret; [apply _|done]. Qed.
Lemma flagged_bind {X Y} (d : ST Agent X) (f : X → ST Agent Y) : flagged d → (∀ x, flagged (f x)) → flagged (d ≫= f).
Proof. intros Hd Hf. eapply keeps_then; [apply _|exact Hd|]. intros x _. apply Hf. Qed.
Lemma foreach_loop_keeps {V A} (P : A → Prop) n h (action : V → A → A * bool) current ctx ctx' :
  (∀ x c, P c → P (fst (action x c))) → foreach_loop n h action current ctx = Some ctx' → P ctx → P ctx'.
Proof.
  intros Ha. revert current ctx. induction n as [|n IH]; intros [cur|] ctx; cbn [foreach_loop]; try by intros [= <-].
  intros (c & _ & H)%bind_Some HP. specialize (Ha (item c) ctx HP). destruct (action (item c) ctx) as [ctx1 []]; cbn in Ha.
  - by eapply IH.
  - by injection H as <-.
Qed.

Lemma flagged_for_each cs lst (action : positive → ST Agent bool) :
  (∀ x, flagged (action x)) → flagged (for_each cs lst action).
Proof.
  intros Ha s r s'. unfold for_each. intros ([c b] & E & (s1 & -> & [= <- <-])%bind_Some)%bind_Some. split; [|done].
  unfold singlylinkedlist_foreach in E. apply bind_Some in E as (c & E & [= ->]).
  apply (foreach_loop_keeps (λ c, match c with Some s' => flag_kept s s' | None => True end)) in E; [done| |intros He; exact He].
  intros x [s2|] Hc; cbn; [|done]. destruct (action x s2) as [[go s3]|] eqn:E3; [|done]. cbn.
  apply Ha in E3 as [E3 _]. intros He. by apply E3, Hc.
Qed.

Ltac flagged_step :=
  first [ apply flagged_ret | apply flagged_get | apply flagged_lift | apply flagged_on_maps | apply flagged_on_channels
        | apply flagged_on_alloc | apply flagged_modify; intros ? He; first [exact He|reflexivity]
        | apply flagged_bind; [|intros ?] | case_match ].

Lemma flagged_channel_init item : flagged (channel_init_by_list item : ST Agent bool).
Proof.
  unfold channel_init_by_list, add_map, channel_failed, xio_create, xio_open, xio_destroy, xio_close, use_port.
  repeat flagged_step.
Qed.

(** What happens in the stores does not touch the rest. *)
Lemma on_maps_frame {X} (d : ST (Store PM_CHANNEL_MAP * Heap) X) s r s' :
  on_maps d s = Some (r, s') → g_channel_parse_error s' = g_channel_parse_error s ∧ g_pm_map_list s' = g_pm_map_list s.
Proof. unfold on_maps. destruct (d _) as [[x [st h]]|]; [|done]. by intros [= <- <-]. Qed.
Lemma on_channels_frame {X} (d : ST (Store CHANNEL_MODEL_INFO * Heap) X) s r s' :
  on_channels d s = Some (r, s') → g_channel_parse_error s' = g_channel_parse_error s ∧ g_pm_map_list s' = g_pm_map_list s.
Proof. unfold on_channels. destruct (d _) as [[x [st h]]|]; [|done]. by intros [= <- <-]. Qed.

Lemma st_bind_Some {X Y} (d : ST Agent X) (f : X → ST Agent Y) s r s' :
  (d ≫= f) s = Some (r, s') → ∃ x s1, d s = Some (x, s1) ∧ f x s1 = Some (r, s').
Proof. rewrite st_bind_eq. destruct (d s) as [[x s1]|]; [|done]. intros H. by exists x, s1. Qed.

Lemma latched_open_channels clst s r s' : latched s → open_channels clst s = Some (r, s') → r = FAILURE ∧ latched s'.
Proof.
  intros [He El] H. unfold open_channels in H. apply st_bind_Some in H as (x & s0 & [= <- <-] & H).
  rewrite El in H. apply st_bind_Some in H as (? & s0 & [= _ <-] & H).
  apply st_bind_Some in H as (l & s1 & E1 & H). apply on_maps_frame in E1 as [E1 _].
  apply st_bind_Some in H as (? & s2 & [= _ <-] & H).
  destruct l as [l|]; [|by injection H as <- <-; split; [|split; cbn; [congruence|]]].
  apply st_bind_Some in H as (? & s2 & [= <- <-] & H). apply st_bind_Some in H as (? & s3 & E3 & H).
  assert (g_channel_parse_error s3 = true) as E4.
  { eapply flagged_for_each; [apply flagged_channel_init|exact E3|]. cbn. congruence. }
  apply st_bind_Some in H as (? & s4 & [= <- <-] & H). rewrite E4 in H. apply st_bind_Some in H as (? & s5 & E5 & H).
  apply st_bind_Some in H as (? & s6 & [= _ <-] & [= <- <-]). split; [done|]. split; [|done]. cbn.
  destruct (g_pm_map_list s3); [|by injection E5 as _ <-]. apply on_maps_frame in E5 as [E5 _]. congruence.
Qed.

(** No message is obeyed any more. *)
Lemma latched_step ev s r s' : latched s → agent_step ev s = Some (r, s') → latched s' ∧ (r = None ∨ r = Some FAILURE).
Proof.
  intros Hl H. destruct ev as [text|text|a i]; cbn [agent_step] in H; apply st_bind_Some in H as (x & s1 & E & [= <- <-]).
  - unfold channel_instance_construct in E. destruct (json_parse_string text) as [[| | | | |o]|];
      try (injection E as <- <-; split; [done|by right]).
    apply st_bind_Some in E as (cl & s2 & E2 & E). apply on_channels_frame in E2 as [E21 E22].
    assert (latched s2) as Hl2 by (destruct Hl; split; congruence).
    apply st_bind_Some in E as (r & s3 & E3 & E). apply st_bind_Some in E as (? & s4 & E4 & [= <- <-]).
    apply on_channels_frame in E4 as [E41 E42].
    destruct cl as [cl|]; [|injection E3 as <- <-; split; [|by right]; destruct Hl2; split; congruence].
    apply latched_open_channels in E3 as [-> [? ?]]; [|done]. split; [split; congruence|by right].
  - unfold thing_instance_construct in E. apply st_bind_Some in E as (? & s2 & [= <- <-] & E). destruct Hl as [? El].
    rewrite El in E. injection E as <- <-. split; [done|by right].
  - apply thread_step_effect in E as (v & v' & p & t & h & h' & y & y' & E). split; [|by left].
    decompose [and] E. destruct Hl. split; congruence.
Qed.

(** ** The invariant *)

Lemma sane_step ev s r s' : sane s → decent ev → agent_step ev s = Some (r, s') → sane s'.
Proof.
  intros [Hr|Hl] Hd H; [|right; by eapply latched_step].
  destruct ev as [text|text|a i]; cbn [agent_step] in H; apply st_bind_Some in H as (x & s1 & E & [= <- <-]).
  - destruct (sane_channels text s Hr Hd) as (? & ? & E' & Hs). congruence.
  - destruct (running_models text s Hr Hd) as (? & ? & E' & Hs). left. congruence.
  - left. by eapply running_iteration.
Qed.
(** Any order of events, with the answers. *)
Fixpoint run_agent (evs : list event) : ST Agent (list (option status)) :=
  match evs with
  | [] => mret []
  | ev :: evs => r ← agent_step ev; rs ← run_agent evs; mret (r :: rs)
  end.

Lemma run_agent_cons ev evs s rs s' :
  run_agent (ev :: evs) s = Some (rs, s') →
  ∃ r s1 rs', agent_step ev s = Some (r, s1) ∧ run_agent evs s1 = Some (rs', s') ∧ rs = r :: rs'.
Proof.
  intros H. apply st_bind_Some in H as (r & s1 & E1 & H). apply st_bind_Some in H as (rs' & s2 & E2 & [= <- <-]).
  by exists r, s1, rs'.
Qed.

Lemma sane_run evs s rs s' : sane s → Forall decent evs → run_agent evs s = Some (rs, s') → sane s'.
Proof.
  intros Hs Hd. revert s rs Hs. induction Hd as [|ev evs Hev _ IH]; intros s rs Hs H; [by injection H as _ <-|].
  apply run_agent_cons in H as (r & s1 & rs' & E1 & E2 & ->). eapply IH; [|exact E2]. by eapply sane_step.
Qed.

Lemma latched_run evs s rs s' :
  latched s → run_agent evs s = Some (rs, s') → latched s' ∧ Forall (λ r, r = None ∨ r = Some FAILURE) rs.
Proof.
  revert s rs. induction evs as [|ev evs IH]; intros s rs Hl H; [by injection H as <- <-|].
  apply run_agent_cons in H as (r & s1 & rs' & E1 & E2 & ->). destruct (latched_step _ _ _ _ Hl E1) as [Hl1 Hr].
  destruct (IH _ _ Hl1 E2) as [Hl2 Hrs]. split; [done|]. by constructor.
Qed.

(** A message with a channel whose port is of an unknown type. *)
Lemma wp_unknown_port text body s :
  running s → body_of (json_parse_string text) = Some body →
  (∀ j, j ∈ body → legible (object_of j) ∧ ∃ sp, channel_means j sp ∧ portable sp) →
  Exists (λ j, ∀ sp, channel_means j sp → config_of sp = None) body →
  wp (channel_instance_construct json_parse_string text) (λ r s', r = FAILURE ∧ latched s') s.
Proof.
  intros [(vs & ms & lost & Hm & _) Hch Hw Hpl] Eb Hj Hex.
  eapply (wp_channel_instance_construct good modbus dlt698); [exact Hm|exact Hch| | |].
  - rewrite Eb. intros j Hin. destruct (Hj j Hin) as (Hl & sp & Hs & Hp). split; [done|].
    unfold channel_means in *. intros sp' Hs'. congruence.
  - intros body' sps s' Eb' Hs [Hc _ _ _ _] _. exfalso. assert (body' = body) as -> by congruence.
    destruct Hc as (lst & l & vs' & ms' & _ & _ & Hv). apply Exists_exists in Hex as (j & Hin & Hno).
    apply list_elem_of_lookup in Hin as (k & Ek). destruct (Forall2_lookup_l _ _ _ _ _ Hs Ek) as (sp & Esp & Hm').
    destruct (Forall2_lookup_l _ _ _ _ _ Hv Esp) as (v & _ & [_ (cfg & Ec & _) _]). rewrite Hno in Ec; done.
  - intros s' [(h & -> & _ & Hn)|[El Ee]] _ _; [|by split; [|split; [apply Ee|]]]. exfalso. specialize (Hn Hpl). rewrite Eb in Hn.
    apply Exists_exists in Hn as (j & Hin & Ed). destruct (Hj j Hin) as (_ & sp & Hs & _). unfold channel_means in Hs. congruence.
Qed.

(** The description that the manager hands out next is polled continuously and due. *)
Definition due (th : Thread M G) (tick : Z) : Prop := ∃ h m h' b tm0,
  IotMain.pm_handle (IotMain.map th) = Some h ∧ Pm.get_next_send_time (mem th) h = Some (m, h', Some (b, tm0)) ∧
  array_equal (Pm.acqMode tm0) (str "realtime") = true ∧ elapsed W tick (Pm.packetSendTime tm0) (Pm.acqInt tm0) = true.

(** A locked thread that never sent anything reads its uninitialised variable. *)
Lemma locked_undefined th i :
  events i = [] → IotMain.task_stop (IotMain.map th) = false → IotMain.task_lock (IotMain.map th) = true →
  last_send_tick th = None → due th (current_tick i) → send_resquest_thread W localtime i th = None.
Proof.
  intros Ei Hs Hl Hlast (h & m & h' & b & tm0 & Eh & En & Em & Ee). unfold send_resquest_thread. rewrite Hs, Ei. cbn [xio_dowork].
  rewrite bind_ret, Eh, bind_ret, En, bind_ret, Em. unfold realtime. rewrite Ee. cbn. rewrite Hl. cbn. by rewrite Hlast.
Qed.
(** The map at [a] after a message with a model for it. *)
Lemma bound_map text body s s' lst l vs ms lost a v mo :
  bindable good modbus dlt698 s lst l vs ms lost → models_in json_parse_string text = Some body →
  Forall (λ j, acceptable good modbus dlt698 (json_value_get_object (Some j))) body →
  structs (maps s) !! a = Some v → chosen (models_of body) v = Some mo →
  thing_instance_construct modbus dlt698 json_parse_string text s = Some (OK, s') →
  ∃ p t n, structs (maps s') !! a = Some (rebound p t n v) ∧ threads s' !! t = Some (None, []).
Proof.
  intros Hb Eb Hacc Ev Hmo E.
  assert (wp (thing_instance_construct modbus dlt698 json_parse_string text) (λ r s', r = OK →
    ∃ vs' ms' lost', maps_are good modbus dlt698 s' lst l vs' ms' lost' ∧ Forall2 (served s s' ms ms' (models_of body)) vs vs') s)
    as (r & s1 & E1 & H).
  { eapply wp_thing_instance_construct; [exact Eb|exact Hacc|exact Hb| |done].
    intros vs' ms' lost' s1 _ Hb' Hs _ _. exists vs', ms', lost'. split; [by apply Hb'|done]. }
  rewrite E in E1. injection E1 as <- <-. destruct (H eq_refl) as (vs' & ms' & lost' & Hm' & Hs).
  destruct (bindable_maps _ _ _ _ _ _ _ _ _ Hb) as [[_ _ Hnd Hl] Hd _ _ _].
  assert (a ∈ l.*2) as Ha.
  { apply (elem_of_list_to_set (C:=gset positive)). rewrite <- Hd. apply elem_of_dom. by eexists. }
  apply list_elem_of_fmap in Ha as ([q a'] & -> & Hin). apply list_elem_of_lookup in Hin as (k & Ek). cbn in *.
  destruct (Forall2_lookup_l _ _ _ _ _ Hl Ek) as (w & Ew & Ew'). cbn in Ew'. assert (w = v) as -> by congruence.
  destruct (Forall2_lookup_l _ _ _ _ _ Hs Ew) as (v' & Ev' & Hv'). unfold served in Hv'. rewrite Hmo in Hv'.
  destruct Hv' as (p & t & n & -> & _ & Ht). exists p, t, n. split; [|done].
  pose proof (listed_structs _ _ _ _ (maps_listed _ _ _ _ _ _ _ _ _ Hm')) as Hl'.
  by apply (Forall2_lookup_lr _ _ _ _ _ _ Hl' Ek Ev').
Qed.
End agent.
