(* ===== verification/IotRunTheory.v ===== *)
(** * IotRunTheory: a run of the program is a run of the agent.

    [quiet] and [talked] are relations on edge clients for the frame of
    [IoteaFrame]: what the client does by itself leaves the agent alone, and what the
    broker makes it do is a sequence of messages to the agent.  [main_loop_follows]
    puts them together with the turns of the threads. *)
From S2P Require Import Prelude.
From S2P Require Import Effects.
From S2P Require Import Alloc.
From S2P Require Import CString.
From S2P Require Import Json.
From S2P Require Import SinglyLinkedList.
From S2P Require Import Registry.
From S2P Require Import ChannelModel.
From S2P Require Import ChannelTheory.
From S2P Require Import ProtocolManager.
From S2P Require Import IotMain.
From S2P Require Import IotStart.
From S2P Require Import MqttCodec.
From S2P Require Import MqttDecoder.
From S2P Require Import MqttCodecTheory.
From S2P Require Import MqttMessage.
From S2P Require Import MqttClientTheory.
From S2P Require Import MqttClient.
From S2P Require Import RetryLogic.
From S2P Require Import IotHubClient.
From S2P Require Import IotHubFrame.
From S2P Require Import IotHubTheory.
From S2P Require Import IoteaClient.
From S2P Require Import IoteaFrame.
From S2P Require Import IoteaTheory.
From S2P Require Import IotStartTheory.
From S2P Require Import IotChannelTheory.
From S2P Require Import IotBindTheory.
From S2P Require Import IotAgentTheory.
From S2P Require Import IotRun.
From stdpp Require Import gmap strings.
#[local] Open Scope Z_scope.

Import Run.

(** The iterations among events and turns. *)
Definition iteration_of (ev : event) : option (positive * input) :=
  match ev with Iteration a i => Some (a, i) | _ => None end.
Definition iteration_of_turn (t : turn) : option (positive * input) :=
  match t with ThreadTurn a i => Some (a, i) | Round _ _ => None end.

(** No iterations. *)
Definition messages (evs : list event) : Prop := omap iteration_of evs = [].

Section theory.
Context `{Arch} {P M G : Type}.
#[warnings="-notation-for-abbreviation"] Notation Agent := (Start.Agent M G).
#[warnings="-notation-for-abbreviation"] Notation Iotea := (@IOTEA_CLIENT (option Agent)).
#[warnings="-notation-for-abbreviation"] Notation Hub := (@IOTHUB_MQTT_CLIENT Iotea P Empty_set unit).
#[warnings="-notation-for-abbreviation"] Notation Client := (ST (@Peer Hub * Heap)).
#[warnings="-notation-for-abbreviation"] Notation Codec := (MQTTCODEC_INSTANCE (@Peer Hub)).
#[warnings="-notation-for-abbreviation"] Notation Whole := (ST (Codec * Heap)).
Implicit Types (e : Iotea) (p : @Peer Hub) (c : Codec) (h : Heap) (s : Agent).

Variable persistInterDesc : option (PERSIST_INTERFACE_DESCRIPTION P).
Variable json_parse_string : list Z → option JSON.
Variable modbus dlt698 : Pm.INTER_DESCRIPTION M G.
Variable W : Z.
Variable localtime : Z → tm.

#[warnings="-notation-for-abbreviation"] Notation run_agent := (run_agent modbus dlt698 json_parse_string W localtime).
#[warnings="-notation-for-abbreviation"] Notation thing_parser := (thing_parser json_parse_string modbus dlt698).
#[warnings="-notation-for-abbreviation"] Notation channel_parser := (channel_parser (M:=M) (G:=G) json_parse_string).

(** The agent in the client. *)
Definition agent_in c : option Agent := parsers (application (user (callContext c))).

(** ** Runs of the agent *)

Definition after (evs : list event) (a : option Agent) : option Agent := a ≫= λ s, snd <$> run_agent evs s.

Lemma after_nil a : after [] a = a.
Proof. by destruct a. Qed.

Lemma after_cons ev evs s r s' :
  agent_step modbus dlt698 json_parse_string W localtime ev s = Some (r, s') →
  after (ev :: evs) (Some s) = after evs (Some s').
Proof.
  intros E. unfold after. cbn [run_agent mbind option_bind]. rewrite st_bind_eq, E, bind_ret, st_bind_eq.
  by destruct (run_agent evs s') as [[rs s2]|].
Qed.

Lemma after_app evs1 evs2 a : after (evs1 ++ evs2) a = after evs2 (after evs1 a).
Proof.
  destruct a as [s|]; [|done]. revert s. induction evs1 as [|ev evs1 IH]; intros s; [by rewrite after_nil|].
  cbn [app]. destruct (agent_step modbus dlt698 json_parse_string W localtime ev s) as [[r s']|] eqn:E.
  - by rewrite !(after_cons _ _ _ _ _ E).
  - unfold after. cbn. by rewrite !st_bind_eq, E.
Qed.

Lemma after_Some evs s s' : after evs (Some s) = Some s' → ∃ rs, run_agent evs s = Some (rs, s').
Proof. unfold after. cbn. intros ([rs s2] & E & [= ->])%fmap_Some. by exists rs. Qed.

(** ** Relations on the client *)

(** The agent is left alone. *)
Record quiet e e' : Prop := { quiet_identity : identity e' = identity e; quiet_agent : parsers e' = parsers e }.

#[export] Instance quiet_tolerant : Tolerant quiet.
Proof.
  split; [|by split..]. split; [by split|]. intros e1 e2 e3 [] []. split; congruence.
Qed.

(** The parsers are those of the agent. *)
Definition equipped e : Prop :=
  (∀ f, ThingModelParse e = Some f → f = thing_parser) ∧ (∀ f, ChannelModelParse e = Some f → f = channel_parser).

(** Messages have come. *)
Record talked e e' : Prop := {
  talked_identity : identity e' = identity e;
  talked_events : equipped e → ∃ evs, messages evs ∧ parsers e' = after evs (parsers e) }.

Lemma equipped_identity e e' : identity e' = identity e → equipped e → equipped e'.
Proof. unfold identity, equipped. intros [= _ _ _ _ -> ->]. done. Qed.

Lemma quiet_talked e e' : quiet e e' → talked e e'.
Proof. intros [Hi Ha]. split; [done|]. intros _. exists []. by rewrite after_nil. Qed.

#[export] Instance talked_pre : PreOrder talked.
Proof.
  split; [intros e; by apply quiet_talked|]. intros e1 e2 e3 [Hi1 H1] [Hi2 H2]. split; [congruence|].
  intros He. destruct (H1 He) as (evs1 & Hm1 & E1). destruct H2 as (evs2 & Hm2 & E2); [by eapply equipped_identity|].
  exists (evs1 ++ evs2). split; [unfold messages in *; by rewrite omap_app, Hm1, Hm2|]. by rewrite after_app, <- E1.
Qed.

Lemma parser_after construct text a ev :
  (∀ s, agent_step modbus dlt698 json_parse_string W localtime ev s = '(r, s) ← construct text s; Some (Some r, s)) →
  (parser construct text a).2 = after [ev] a.
Proof.
  intros Hs. destruct a as [s|]; [|done]. unfold parser. cbn [mbind option_bind].
  destruct (construct text s) as [[[] s']|] eqn:E.
  1, 2: erewrite after_cons by (rewrite Hs, E; reflexivity); by rewrite after_nil.
  unfold after. cbn [run_agent mbind option_bind]. by rewrite st_bind_eq, Hs, E.
Qed.

#[export] Instance talked_indifferent : Indifferent talked.
Proof.
  split.
  - split; [apply _|intros; by apply quiet_talked..].
  - intros e parse text E. split; [done|]. intros [Ht _]. exists [ModelMessage text]. split; [done|].
    rewrite (Ht _ E). by apply parser_after.
  - intros e parse text E. split; [done|]. intros [_ Hc]. exists [ChannelMessage text]. split; [done|].
    rewrite (Hc _ E). by apply parser_after.
Qed.

(** ** The turns *)

#[warnings="-notation-for-abbreviation"] Notation thread_turn := (thread_turn (P:=P) (M:=M) (G:=G) persistInterDesc W localtime).
#[warnings="-notation-for-abbreviation"] Notation quietly d := (keeps (by_user (A:=Hub) (by_application quiet)) d (λ _, True)).

Lemma publish_quiet os : quietly (publish_outputs (M:=M) (G:=G) persistInterDesc os).
Proof.
  assert (∀ t q m n cb, quietly (publish_mqtt_message persistInterDesc no_callback
    (on_sub_ack_callback persistInterDesc sub_depth) t q m n cb)).
  { intros. apply keeps_publish_mqtt_message; [apply _|intros ? ?; by apply keeps_no_callback|].
    intros ? ?. by apply (keeps_on_sub_ack _ quiet). }
  induction os as [|o os IH]; cbn [publish_outputs]; [keep|]. unfold publish_output. keep.
Qed.

(** A step of the agent inside of the client. *)
Lemma on_agent_Some {X} (d : ST Agent X) p h x p' h' :
  on_agent d (p, h) = Some (x, (p', h')) →
  ∃ s s', parsers (application (user p)) = Some s ∧ d s = Some (x, s') ∧ h' = h ∧
    p' = mkPeer (client p) (env p) (wire p) (set_application (set_parsers (Some s') (application (user p))) (user p)).
Proof.
  unfold on_agent. rewrite st_bind_eq. change (handle (p, h)) with (Some (application (user p), (p, h))).
  rewrite bind_ret, st_lift_bind. destruct (parsers (application (user p))) as [s|]; [|done]. rewrite bind_ret, st_lift_bind.
  destruct (d s) as [[y s']|] eqn:E; [|done]. rewrite bind_ret. intros [= -> <- <-]. exists s, s'. by destruct p.
Qed.

Lemma thread_turn_follows a i p h x p' h' :
  thread_turn a i (p, h) = Some (x, (p', h')) →
  ∃ s s', parsers (application (user p)) = Some s ∧
    after [Iteration a i] (Some s) = Some s' ∧ parsers (application (user p')) = Some s' ∧
    identity (application (user p')) = identity (application (user p)).
Proof.
  unfold Run.thread_turn. rewrite st_bind_eq. destruct (on_agent _ _) as [[os [p1 h1]]|] eqn:E; [|done]. rewrite bind_ret.
  intros E2. apply on_agent_Some in E as (s & s' & Es & E & -> & ->). apply publish_quiet in E2 as [[Hi Ha] _].
  exists s, s'. split; [done|]. split; [|by split].
  erewrite after_cons; [by rewrite after_nil|]. cbn [agent_step]. by rewrite st_bind_eq, E.
Qed.

(** A client whose decoder can be trusted and whose parsers are those of the agent. *)
Definition whole_client c : Prop :=
  trusted (by_peer (by_application talked)) c ∧ equipped (application (user (callContext c))).

Lemma dowork_follows events c h x c' h' :
  iotea_client_dowork persistInterDesc json_parse_string events (c, h) = Some (x, (c', h')) → whole_client c →
  whole_client c' ∧ ∃ evs, messages evs ∧ agent_in c' = after evs (agent_in c).
Proof.
  intros E [Ht He]. apply (keeps_iotea_client_dowork _ _ talked) in E as [E _]; [|intros; by apply quiet_talked].
  destruct (E Ht) as [[Hi Hev] Ht']. split; [|by apply Hev]. split; [done|]. by eapply equipped_identity.
Qed.

#[warnings="-notation-for-abbreviation"] Notation main_loop :=
  (main_loop (P:=P) (M:=M) (G:=G) persistInterDesc json_parse_string W localtime).

(** The loop is a run of the agent: the messages that come in the rounds, and the
    iterations of the turns in their order. *)
Lemma main_loop_follows turns c h over c' h' s :
  main_loop turns (c, h) = Some (over, (c', h')) → whole_client c → agent_in c = Some s →
  whole_client c' ∧ ∃ evs s', after evs (Some s) = Some s' ∧ agent_in c' = Some s' ∧
    omap iteration_of evs `prefix_of` omap iteration_of_turn turns ∧
    (over = false → omap iteration_of evs = omap iteration_of_turn turns).
Proof.
  revert c h s. induction turns as [|[a i|events interrupt] turns IH]; intros c h s E Hc Ea; cbn [Run.main_loop] in E.
  - injection E as <- <- <-. split; [done|]. exists [], s. by rewrite after_nil.
  - rewrite st_bind_eq in E. unfold on_client in E.
    destruct (thread_turn a i (callContext c, h)) as [[[] [p1 h1]]|] eqn:Et; [|done]. rewrite !bind_ret in E.
    apply thread_turn_follows in Et as (s0 & s1 & Es & E1 & Ea1 & Hi). assert (s0 = s) as -> by (unfold agent_in in Ea; congruence).
    destruct Hc as [Ht He]. assert (whole_client (set_callContext p1 c)) as Hc1 by (split; [done|by eapply equipped_identity]).
    destruct (IH _ _ s1 E Hc1 Ea1) as (Hc' & evs & s' & E2 & Ea' & Hp & Ho). split; [done|].
    exists (Iteration a i :: evs), s'. split; [by rewrite <- E2, <- E1, <- after_app|]. split; [done|].
    cbn. split; [by apply prefix_cons|]. intros Hf. by rewrite Ho.
  - rewrite st_bind_eq in E. destruct (iotea_client_dowork _ _ _ _) as [[r [c1 h1]]|] eqn:Ew; [|done]. rewrite bind_ret in E.
    destruct (dowork_follows _ _ _ _ _ _ Ew Hc) as (Hc1 & evs1 & Hm & Ea1). rewrite Ea in Ea1.
    rewrite st_bind_eq in E. unfold on_client, parsed in E. rewrite st_bind_eq in E.
    change (handle (callContext c1, h1)) with (Some (application (user (callContext c1)), (callContext c1, h1))) in E.
    rewrite bind_ret, st_lift_bind in E. fold (agent_in c1) in E. destruct (agent_in c1) as [s1|] eqn:Es1; [|done].
    rewrite !bind_ret in E. replace (set_callContext (callContext c1) c1) with c1 in E by by destruct c1.
    destruct (goes_on r && negb interrupt).
    + destruct (IH _ _ s1 E Hc1 Es1) as (Hc' & evs & s' & E2 & Ea' & Hp & Ho). split; [done|].
      exists (evs1 ++ evs), s'. rewrite after_app, <- Ea1, omap_app, Hm. by split_and!.
    + injection E as <- <- <-. split; [done|]. exists evs1, s1. unfold messages in Hm. rewrite Hm.
      split_and!; [done..|apply prefix_nil|done].
Qed.

(** ** The beginning and the end *)

#[warnings="-notation-for-abbreviation"] Notation start_run :=
  (start_run (P:=P) (M:=M) (G:=G) persistInterDesc json_parse_string modbus dlt698).
#[warnings="-notation-for-abbreviation"] Notation end_run := (end_run (P:=P) (M:=M) (G:=G) persistInterDesc).

Lemma init_parsers broker name type a h e h' :
  iotea_client_init broker name type a h = Some (Some e, h') → parsers e = a.
Proof.
  intros E. assert (gives (iotea_client_init broker name type a) (λ r, ∀ e, r = Some e → parsers e = a)) as Hg.
  { unfold iotea_client_init. destruct broker, name, type; try by apply gives_ret.
    any. case_match; [|by apply gives_ret]. any. case_match; [|any; by apply gives_ret]. case_match. any.
    case_match; [|any; by apply gives_ret]. apply gives_ret. by intros e0 [= <-]. }
  apply Hg in E as [_ E]. by apply E.
Qed.

Lemma start_run_follows platform args agent w iterations h c h' :
  start_run platform args agent w iterations h = Some (Some c, h') →
  whole_client c ∧ ∃ evs s, messages evs ∧ after evs (Some agent) = Some s ∧ agent_in c = Some s.
Proof.
  unfold Run.start_run. destruct platform; [|done]. cbn [negb]. rewrite st_bind_eq.
  destruct (iotea_client_init _ _ _ _ _) as [[[e|] h1]|] eqn:Ei; [|done|done]. rewrite bind_ret.
  apply init_parsers in Ei. set (e1 := iotea_client_register_channel_model_init _ _). rewrite st_bind_eq.
  destruct (iotea_client_connect _ _ _ _ _ _ _) as [[[rc client] h2]|] eqn:Ec; [|done]. rewrite bind_ret.
  assert (∀ (d : Alloc unit) r, (d;; mret None) h2 = Some (r, h') → r = @None Codec) as Hnone.
  { intros d r. rewrite st_bind_eq. destruct (d h2) as [[[] h3]|]; [|done]. by intros [= <- _]. }
  destruct rc, client as [c0|]; try by intros E%Hnone.
  rewrite st_lift_bind. destruct (parsers (application (user (callContext c0)))) as [s|] eqn:Es; [|done]. rewrite bind_ret. intros [= -> <-].
  apply (connected_trusted _ _ talked) in Ec as [[Hi Hev] Ht].
  assert (equipped e1) as He by by split; intros f [= <-]. split; [split; [done|by eapply equipped_identity]|].
  destruct (Hev He) as (evs & Hm & E). unfold agent_in. rewrite Es in E. exists evs, s. split_and!; [done| |done].
  rewrite E. f_equal. exact (eq_sym Ei).
Qed.

Lemma end_run_follows c h x c' h' :
  end_run (c, h) = Some (x, (c', h')) →
  ∃ s s', agent_in c = Some s ∧ Start.map_list_destroy (Start.g_pm_map_list s) s = Some (tt, s') ∧ agent_in c' = Some s'.
Proof.
  unfold Run.end_run. rewrite st_bind_eq. unfold on_client at 1.
  destruct (on_agent _ _) as [[[] [p1 h1]]|] eqn:E; [|done]. rewrite !bind_ret. intros E2.
  apply on_agent_Some in E as (s & s' & Es & E & -> & ->). exists s, s'. split; [done|]. split; [done|].
  apply (keeps_iotea_client_deinit _ quiet) in E2 as [[_ Ea] _]. exact Ea.
Qed.

(** A run of the program that was connected: the messages and the turns in their order,
    then the end. *)
Lemma run_follows platform args agent w iterations turns h r c h' :
  iotea_client_run persistInterDesc json_parse_string modbus dlt698 W localtime platform args agent w iterations turns h
    = Some ((r, Some c), h') →
  ∃ evs s, after evs (Some agent) = Some s ∧ omap iteration_of evs `prefix_of` omap iteration_of_turn turns ∧
    match r with
    | None => omap iteration_of evs = omap iteration_of_turn turns ∧ agent_in c = Some s
    | Some _ => ∃ s', Start.map_list_destroy (Start.g_pm_map_list s) s = Some (tt, s') ∧ agent_in c = Some s'
    end.
Proof.
  unfold iotea_client_run. rewrite st_bind_eq.
  destruct (start_run platform args agent w iterations h) as [[[c0|] h0]|] eqn:E0; [|done|done]. rewrite bind_ret.
  apply start_run_follows in E0 as (Hc0 & evs0 & s0 & Hm & Ev0 & Ea0). unfold run_client.
  destruct (main_loop turns (c0, h0)) as [[over [c1 h1]]|] eqn:E1; [|done]. rewrite bind_ret.
  destruct (main_loop_follows _ _ _ _ _ _ _ E1 Hc0 Ea0) as (_ & evs1 & s1 & Ev1 & Ea1 & Hp & Ho).
  intros E. exists (evs0 ++ evs1), s1. rewrite after_app, Ev0, omap_app, Hm. split; [done|]. split; [done|]. destruct over.
  - destruct (end_run (c1, h1)) as [[x [c2 h2]]|] eqn:E2; [|done]. injection E as <- <- <-.
    apply end_run_follows in E2 as (s2 & s3 & Es & Ed & Ea). rewrite Ea1 in Es. injection Es as <-. by exists s3.
  - injection E as <- <- <-. by split; [apply Ho|].
Qed.
End theory.

(** ** Publishing *)

(** What a thread has read, as it is published: the topic and the text. *)
Definition reading (o : output) : option (list Z * list Z) :=
  match o with
  | Published p =>
      text ← Pm.payload p;
      text ← cstr (text ++ [0]);
      topic ← cstr (Pm.DBTopic p);
      Some (topic, text)
  | _ => None
  end.

(** A payload with a topic and a text that fit into a packet. *)
Definition publishable (o : output) : Prop :=
  match o with
  | Published _ => ∃ topic text, reading o = Some (topic, text) ∧ zlen topic <= USHRT_MAX ∧
      zlen topic + zlen text + 4 < max_body
  | _ => True
  end.

Section publishing.
Context `{Arch} {P M G : Type}.
#[warnings="-notation-for-abbreviation"] Notation Iotea := (@IOTEA_CLIENT (option (Start.Agent M G))).
#[warnings="-notation-for-abbreviation"] Notation Hub := (@IOTHUB_MQTT_CLIENT Iotea P Empty_set unit).
Implicit Types (p : @Peer Hub) (h : Heap).

Variable persistInterDesc : option (PERSIST_INTERFACE_DESCRIPTION P).

Lemma wp_publish_output o q subs (Q : unit → @Peer Hub * Heap → Prop) p h :
  holds p q subs → plenty h → mqttClientStatus (user p) ≠ MQTT_CLIENT_STATUS_NOT_CONNECTED → publishable o →
  (∀ p' h', answered p q subs (application (user p)) (opt_list (reading o)) p' → used 0 h h' → Q tt (p', h')) →
  wp (publish_output persistInterDesc o) Q (p, h).
Proof.
  intros Hq Hp Hc Ho HQ. destruct o as [tick a r|bytes|pl]; cbn [publish_output publishable] in *.
  1, 2: apply wp_ret, HQ; [by apply answered_same|apply used_refl].
  destruct Ho as (topic & text & E & Ht & Hd). rewrite E in HQ. cbn [reading] in E.
  apply bind_Some in E as (text0 & E0 & (text1 & E1 & (topic1 & E2 & [= -> ->])%bind_Some)%bind_Some).
  apply wp_bind. eapply wp_lift; [exact E0|]. apply wp_bind. eapply wp_lift; [exact E1|].
  apply wp_bind. eapply wp_lift; [exact E2|]. apply wp_bind.
  eapply (wp_publish_request persistInterDesc); [exact Hq|done..|]. intros r p' h' Hposted Hu.
  apply wp_ret, HQ; [by apply posted_answered|done].
Qed.

Lemma wp_publish_outputs os q subs (Q : unit → @Peer Hub * Heap → Prop) p h :
  holds p q subs → plenty h → mqttClientStatus (user p) ≠ MQTT_CLIENT_STATUS_NOT_CONNECTED → Forall publishable os →
  (∀ p' h', answered p q subs (application (user p)) (omap reading os) p' → used 0 h h' → Q tt (p', h')) →
  wp (publish_outputs persistInterDesc os) Q (p, h).
Proof.
  intros Hq Hp Hc Hos. revert p h Hq Hp Hc. induction Hos as [|o os Ho Hos IH]; intros p h Hq Hp Hc HQ; cbn [publish_outputs].
  - apply wp_ret, HQ; [by apply answered_same|apply used_refl].
  - apply wp_bind. eapply wp_publish_output; [exact Hq|done..|]. intros p1 h1 H1 Hu1.
    pose proof (answered_user _ _ _ _ _ _ H1) as Eu. apply IH; [apply H1|by apply Hu1|by rewrite Eu|].
    intros p2 h2 H2 Hu2. apply HQ; [|eapply used_trans; [exact Hu1|exact Hu2|done]].
    rewrite omap_cons_opt. eapply answered_trans; [exact H1|].
    replace (application (user p)) with (application (user p1)); [exact H2|by rewrite Eu].
Qed.

(** A step of the agent inside of the client. *)
Lemma wp_on_agent {X} (d : ST (Start.Agent M G) X) s (Q : X → @Peer Hub * Heap → Prop) p h :
  parsers (application (user p)) = Some s →
  wp d (λ x s', Q x (with_hub (set_application (set_parsers (Some s') (application (user p))) (user p)) p, h)) s →
  wp (on_agent d) Q (p, h).
Proof.
  intros Es (x & s' & E & HQ). apply wp_bind, wp_handle, wp_bind. eapply wp_lift; [exact Es|].
  apply wp_bind. eapply wp_lift; [exact E|]. apply wp_bind, wp_modify_handle. by apply wp_ret.
Qed.
End publishing.

(** ** A clean end *)

Section clean.
Context {M G : Type} (good : G → Prop) (modbus dlt698 : Pm.INTER_DESCRIPTION M G).
Context `{!DriverLaws good modbus, !DriverLaws good dlt698}.
#[warnings="-notation-for-abbreviation"] Notation Agent := (Start.Agent M G).
Implicit Types (s : Agent).

(** Nothing of the channels is left. *)
Record closed s : Prop := {
  closed_maps : Start.maps s = mkStore ∅ ∅;
  closed_ports : Start.ports s = ∅;
  closed_threads : Start.threads s = ∅ }.

Lemma exactly_nil {V} (m : gmap positive V) : exactly m [] → m = ∅.
Proof. intros [_ Hd]. by apply dom_empty_inv_L. Qed.

Lemma wp_map_list_closed s : running good modbus dlt698 s →
  wp (λ s, Start.map_list_destroy (Start.g_pm_map_list s) s) (λ _ s', closed s') s.
Proof.
  intros [(vs & ms & lost & Hm & _ & _) _ _ _]. unfold IotChannelTheory.agent_has in Hm.
  change (wp (Start.map_list_destroy (Start.g_pm_map_list s)) (λ _ s', closed s') s).
  destruct (Start.g_pm_map_list s) as [lst|].
  - destruct Hm as (l & Hm). eapply (wp_map_list_destroy good modbus dlt698); [exact Hm|]. intros ms' s' [Hp Ht _] _ _ _ Ema _.
    split; [done|by apply exactly_nil..].
  - destruct Hm as (_ & Ema & [Hp Ht _] & _). apply wp_ret. split; [done|by apply exactly_nil..].
Qed.

(** ** Starting up *)

#[warnings="-notation-for-abbreviation"] Notation model := (list Z * list JSON)%type.
Context (json_parse_string : list Z → option JSON).

(** The map [v] serves the channel [sp]: its port is open as described, and if there is
    a model with the name of the channel a fresh thread polls it. *)
Record channel_runs s (ms : list (positive * model)) (models : list model) (sp : ChannelSpec) (v : Start.PM_CHANNEL_MAP) : Prop := {
  runs_name : name_of v = array_text Start.MAX_SIZE_OF_KEY (c_model sp);
  runs_port : ∃ cfg, config_of sp = Some cfg ∧ Start.ports s !! Start.xio_handle v = Some cfg;
  runs_thread :
    match chosen models v with
    | Some mo => ∃ p t, Start.pm_handle v = Some p ∧ (p, mo) ∈ ms ∧ Start.task_thread v = Some t ∧
        Start.threads s !! t = Some (None, [])
    | None => Start.pm_handle v = None ∧ Start.task_thread v = None
    end;
  runs_ready : Start.task_stop v = false ∧ Start.task_lock v = false ∧ Start.time_out_count v = 0 }.

(** Every channel is served. *)
Definition started s (sps : list ChannelSpec) (models : list model) : Prop :=
  ∃ lst l vs ms lost, Start.g_pm_map_list s = Some lst ∧ maps_are good modbus dlt698 s lst l vs ms lost ∧
    Forall2 (channel_runs s ms models) sps vs.

(** A message with channels that can be served. *)
Record servable (text : list Z) (sps : list ChannelSpec) : Prop := {
  servable_means : ∃ body, ChannelTheory.body_of (json_parse_string text) = Some body ∧ Forall2 channel_means body sps ∧
    Forall (λ j, legible (object_of j)) body;
  servable_ports : Forall (λ sp, portable sp ∧ is_Some (config_of sp)) sps;
  servable_names : NoDup ((λ sp, array_text Start.MAX_SIZE_OF_KEY (c_model sp)) <$> sps) }.

(** A message with models, the last of which is for one of the channels. *)
Record bindable_models (text : list Z) (sps : list ChannelSpec) (models : list model) : Prop := {
  bm_models : ∃ body, models_in json_parse_string text = Some body ∧ models = models_of body ∧
    Forall (λ j, acceptable good modbus dlt698 (json_value_get_object (Some j))) body;
  bm_last : ∃ mo, last models = Some mo ∧ mo.1 ∈ (λ sp, array_text Start.MAX_SIZE_OF_KEY (c_model sp)) <$> sps }.

Lemma served_runs s s' ms ms' models sp v v' :
  Start.ports s' = Start.ports s → serves_channel s sp v → served s s' ms ms' models v v' →
  channel_runs s' ms' models sp v'.
Proof.
  intros Ep [Hn (cfg & Ec & Ex) Ev] Hs. unfold served in Hs.
  assert (∀ w, name_of w = name_of v → chosen models w = chosen models v) as Hcho by (intros w E; unfold chosen; by rewrite E).
  destruct (chosen models v) as [mo|] eqn:Em.
  - destruct Hs as (p & t & n & -> & Hin & Ht). split; cbn [Start.xio_handle rebound].
    + exact Hn.
    + exists cfg. by rewrite Ep.
    + rewrite Hcho by done. by exists p, t.
    + rewrite Ev. done.
  - destruct Hs as (-> & _ & _). split; [done| | |by rewrite Ev].
    + exists cfg. by rewrite Ep.
    + rewrite Em. by rewrite Ev.
Qed.

Lemma channels_open text sps s :
  running good modbus dlt698 s → Start.g_channel_parse_error s = false → servable text sps →
  ∃ s', Start.channel_instance_construct json_parse_string text s = Some (OK, s') ∧
    running good modbus dlt698 s' ∧ ∃ lst l vs ms lost, Start.g_pm_map_list s' = Some lst ∧
      maps_are good modbus dlt698 s' lst l vs ms lost ∧ Forall2 (serves_channel s') sps vs.
Proof.
  intros Hr He [(body & Eb & Hm & Hl) Hp Hn]. pose proof Hr as [(vs & ms & lost & Ha & _) Hch Hw Hpl].
  assert (∀ sps', Forall2 channel_means body sps' → sps' = sps) as Huniq.
  { clear -Hm. induction Hm as [|j sp body sps Hj Hm IH]; intros sps' H'; [by apply Forall2_nil_inv_l in H'|].
    apply Forall2_cons_inv_l in H' as (sp' & k & Hj' & H' & ->). unfold channel_means in *. f_equal; [congruence|auto]. }
  assert (∀ j, j ∈ body → ∃ sp, channel_means j sp ∧ portable sp ∧ is_Some (config_of sp)) as Hj.
  { intros j Hin. apply list_elem_of_lookup in Hin as (k & Ek). destruct (Forall2_lookup_l _ _ _ _ _ Hm Ek) as (sp & Esp & Hsp).
    exists sp. split; [done|]. exact (proj1 (Forall_lookup _ _) Hp _ _ Esp). }
  enough (wp (Start.channel_instance_construct json_parse_string text) (λ r s', r = OK ∧ running good modbus dlt698 s' ∧
    ∃ lst l vs ms lost, Start.g_pm_map_list s' = Some lst ∧ maps_are good modbus dlt698 s' lst l vs ms lost ∧
      Forall2 (serves_channel s') sps vs) s) as (r & s' & E & -> & Hs) by by exists s'.
  eapply (wp_channel_instance_construct good modbus dlt698); [exact Ha|exact Hch| | |].
  - rewrite Eb. intros j Hin. split; [by apply (proj1 (Forall_forall _ _) Hl)|]. intros sp Hsp.
    destruct (Hj j Hin) as (sp' & Hsp' & Hpo & _). unfold channel_means in *. by replace sp with sp' by congruence.
  - intros body' sps' s' [= <-]%(eq_trans (eq_sym Eb)) Hm' Hc Hch'. apply Huniq in Hm' as ->. split; [done|].
    split; [by eapply running_configured|]. destruct Hc as [(lst & l & vs' & ms' & El & Hma & Hs) _ _ _ _].
    by exists lst, l, vs', ms', lost.
  - intros s' _ _ Hno. rewrite Eb in Hno. specialize (Hno Hpl Hw He). exfalso.
    apply Exists_exists in Hno as (j & Hin & Hno). destruct (Hj j Hin) as (sp & Hsp & _ & [cfg Ec]). by rewrite Hno in Ec.
Qed.

Lemma models_start text sps models s lst l vs ms lost :
  running good modbus dlt698 s → Start.g_pm_map_list s = Some lst → maps_are good modbus dlt698 s lst l vs ms lost →
  Forall2 (serves_channel s) sps vs → NoDup (names_of vs) → Forall paired vs → bindable_models text sps models →
  ∃ s', Start.thing_instance_construct modbus dlt698 json_parse_string text s = Some (OK, s') ∧ started s' sps models.
Proof.
  intros [_ _ Hw Hpl] El Hm Hs Hn Hp [(body & Eb & -> & Hacc) (mo & Elast & Hin)].
  assert (names_of vs = (λ sp, array_text Start.MAX_SIZE_OF_KEY (c_model sp)) <$> sps) as Enames.
  { clear -Hs. unfold names_of. induction Hs as [|sp v sps vs Hv _ IH]; [done|]. rewrite !fmap_cons, IH. f_equal. apply Hv. }
  enough (wp (Start.thing_instance_construct modbus dlt698 json_parse_string text)
    (λ r s', r = OK ∧ started s' sps (models_of body)) s) as (r & s' & E & -> & Hst) by by exists s'.
  eapply wp_thing_instance_construct; [exact Eb|exact Hacc|by split| |].
  - intros vs' ms' lost' s' _ [El' Hm' _ _ _ _] Hsv Hk. split; [done|]. exists lst, l, vs', ms', lost'. split_and!; [done..|].
    clear -Hs Hsv Hk. revert vs' Hsv. induction Hs as [|sp v sps vs Hv _ IH]; intros vs' Hsv.
    + by apply Forall2_nil_inv_l in Hsv as ->.
    + apply Forall2_cons_inv_l in Hsv as (v' & vs2 & Hv' & Hsv & ->). constructor; [|by apply IH].
      eapply served_runs; [by apply kept_ports|exact Hv|exact Hv'].
  - intros s' Hc _. unfold count_after in Hc. rewrite Elast in Hc. rewrite Enames in Hc. by destruct (decide _).
Qed.

(** The two messages one after the other. *)
Lemma set_up text1 text2 sps models s :
  running good modbus dlt698 s → Start.g_channel_parse_error s = false → servable text1 sps →
  bindable_models text2 sps models →
  ∃ s1 s2, Start.channel_instance_construct json_parse_string text1 s = Some (OK, s1) ∧
    Start.thing_instance_construct modbus dlt698 json_parse_string text2 s1 = Some (OK, s2) ∧ started s2 sps models.
Proof.
  intros Hr He Hs Hb. destruct (channels_open _ _ _ Hr He Hs) as (s1 & E1 & Hr1 & lst & l & vs & ms & lost & El & Hm & Hsv).
  assert (names_of vs = (λ sp, array_text Start.MAX_SIZE_OF_KEY (c_model sp)) <$> sps) as Enames.
  { clear -Hsv. unfold names_of. induction Hsv as [|sp v sps vs Hv _ IH]; [done|]. rewrite !fmap_cons, IH. f_equal. apply Hv. }
  destruct (models_start text2 sps models s1 lst l vs ms lost) as (s2 & E2 & Hst); [done..| | |exact Hb|by exists s1, s2].
  - rewrite Enames. apply Hs.
  - clear -Hsv. induction Hsv as [|sp v sps vs [_ _ E] _ IH]; constructor; [|done]. rewrite E. split; [|done].
    split; by intros [].
Qed.
End clean.
