(* ===== verification/PollProperties.v ===== *)
(** * PollProperties: the protocol manager and the sending thread.

    [circle]: the manager hands out its descriptions in order, forever.
    [run_defined]: the only way a thread can go wrong is a response that comes
    before its first request.  [response_attribution], [request_spacing],
    [retry_limit]: which request a response is parsed for, how far apart the
    requests of a description are, how many go unanswered.  [silent_device]: a
    device that never answers stops its thread. *)
From S2P Require Import Prelude.
From S2P Require Import CString.
From S2P Require Import Json.
From S2P Require Import SinglyLinkedList.
From S2P Require Import ProtocolManager.
From stdpp Require Import gmap strings.
From S2P Require Import IotMain.
From S2P Require Import PollTheory.
#[local] Open Scope Z_scope.

Lemma cons_split {A} (o x : A) tr t1 t2 :
  o :: tr = t1 ++ x :: t2 → (o = x ∧ tr = t2) ∨ ∃ t1', tr = t1' ++ x :: t2.
Proof. destruct t1 as [|o' t1]; intros [= -> ->]; [by left|]. right. by exists t1. Qed.

Section properties.
Context {M G : Type} (W : Z) (localtime : Z → tm).
Implicit Types (m : Pm.Memory M) (h : Pm.PM_INSTANCE M G) (s : Thread M G).
Context (itf : Pm.INTER_DESCRIPTION M G) (m0 : Pm.Memory M) (l : list (positive * positive)).

(** A thread that has not sent anything: its manager, with the driver [itf], is
    at the head of the list [l] of the memory [m0]. *)
Record fresh s : Prop := {
  fresh_mem : mem s = m0;
  fresh_handle : ∃ h, pm_handle (map s) = Some h ∧ manages m0 h l 0 ∧
    Pm.interface h = itf ∧ Pm.curr_data_info h = None;
  fresh_lock : task_lock (map s) = false;
  fresh_count : time_out_count (map s) = 0;
  fresh_stop : task_stop (map s) = false;
  fresh_trace : trace s = [] }.

Lemma fresh_polls s : fresh s → polls itf m0 l s.
Proof.
  intros [Em (h & Eh & Hm & Hi & Hc) _ _ _ Et]. split; [by rewrite Em|].
  exists h, 0%nat. rewrite Em, Et. by split_and!.
Qed.

Lemma fresh_ticked s : fresh s → ticked m0 l s.
Proof. intros Hf _. by rewrite (fresh_lock _ Hf). Qed.

(** ** Definedness *)

(** What a run hears is bytes. *)
Definition audible (inputs : list input) : Prop := Forall (λ i, Forall heard (events i)) inputs.

Lemma run_defined_from good inputs s :
  (∀ z, clock_ok (localtime z)) → sound itf m0 l good → polls itf m0 l s → ticked m0 l s →
  good (glob s) → audible inputs →
  run W localtime inputs s = None ↔
  ∃ before i after s1, inputs = before ++ i :: after ∧ run W localtime before s = Some s1 ∧
    task_stop (map s1) = false ∧ last_sent (trace s1) = None ∧ Exists early (events i).
Proof.
  intros Hclock Hs. revert s. induction inputs as [|i inputs IH]; intros s Hp Ht Hg Hh.
  { split; [done|]. intros (before & i & after & s1 & E & _). by destruct before. }
  apply Forall_cons in Hh as [Hev Hh].
  assert (send_resquest_thread W localtime i s = None ↔
    task_stop (map s) = false ∧ last_sent (trace s) = None ∧ Exists early (events i)) as Hi.
  { destruct (dowork_spec itf m0 l good Hs (events i) s Hp Hg Hev) as [H1 H2].
    split.
    - intros H. destruct (task_stop (map s)) eqn:Estop.
      { unfold send_resquest_thread in H. by rewrite Estop in H. }
      split; [done|]. destruct (decide (last_sent (trace s) = None ∧ Exists early (events i))) as [|Hn]; [done|].
      destruct (H2 Hn) as [s1 E].
      destruct (dowork_ind itf m0 l (ticked m0 l)) with (ev := events i) (s := s) (s' := s1)
        as [Hp1 Ht1]; try done.
      { intros ? ? ? _. apply ticked_received. }
      destruct (iteration_total W localtime itf m0 l good Hs Hclock i s s1) as [s' E']; [done..|]. congruence.
    - intros (Estop & H). unfold send_resquest_thread. by rewrite Estop, H1. }
  cbn [run]. destruct (send_resquest_thread W localtime i s) as [s1|] eqn:E.
  - rewrite bind_ret. destruct (iteration_ind W localtime itf m0 l (ticked m0 l) (ticked m0 l))
      with (i := i) (s := s) (s' := s1) as [Hp1 Ht1]; try done.
    { intros ? ? ? _. apply ticked_received. }
    { intros. by eapply ticked_outcome. }
    pose proof (iteration_good W localtime itf m0 l good Hs i s s1 Hp Hg Hev E) as Hg1.
    rewrite IH by done. split.
    + intros (before & i' & after & s2 & -> & Er & H). exists (i :: before), i', after, s2.
      split; [done|]. split; [|done]. cbn [run]. by rewrite E.
    + intros (before & i' & after & s2 & Eb & Er & H). destruct before as [|i0 before].
      * injection Eb as <- <-. injection Er as <-. apply Hi in H. congruence.
      * injection Eb as <- ->. cbn [run] in Er. rewrite E, bind_ret in Er.
        by exists before, i', after, s2.
  - split; [intros _|done]. exists [], i, inputs, s. split; [done|]. split; [done|]. by apply Hi.
Qed.

Lemma run_good good inputs s s' :
  sound itf m0 l good → polls itf m0 l s → good (glob s) → audible inputs →
  run W localtime inputs s = Some s' → good (glob s').
Proof.
  intros Hs. revert s. induction inputs as [|i inputs IH]; intros s Hp Hg Hh; [by intros [= <-]|].
  apply Forall_cons in Hh as [Hev Hh]. cbn [run]. intros (s1 & E & H)%bind_Some.
  eapply (IH s1); [| |done|done].
  - by eapply (iteration_ind W localtime itf m0 l (λ _, True) (λ _, True)) in E as [? _].
  - by eapply iteration_good.
Qed.

(** Every request of the trace is that of its description. *)
Definition asked (tr : list output) : Prop :=
  ∀ tick a r, Sent tick a r ∈ tr → ∃ i0, described_by m0 l a i0 ∧ Pm.data_request i0 = Some r.

Lemma asked_cons o tr : (∀ tick a r, o ≠ Sent tick a r) → asked tr → asked (o :: tr).
Proof. intros Ho H tick a r [E|Hin]%elem_of_cons; [by destruct (Ho tick a r)|by eapply H]. Qed.

Lemma run_asked inputs s s' :
  polls itf m0 l s → asked (trace s) → run W localtime inputs s = Some s' →
  polls itf m0 l s' ∧ asked (trace s').
Proof.
  apply (run_ind W localtime itf m0 l (λ s, asked (trace s)) (λ s, asked (trace s))); [done| |done|].
  - intros buffer s1 s2 _ [|h g out _ _ Hout] Hasked; [done|].
    destruct Hout as [->|(p & -> & _)]; cbn [trace app]; by repeat apply asked_cons.
  - intros h j p a inf t r i s1 s2 Hp El Ei Et Er Ho Hasked. destruct Ho; cbn [trace]; [done| |done].
    intros tick b r' [[= -> -> ->]|Hin]%elem_of_cons; [|by eapply Hasked].
    destruct (described_plan _ _ _ _ _ _ _ _ _ Hp El Ei Et) as (i0 & t0 & Hd & Hf & _).
    exists i0. split; [done|]. by destruct (fixed_eq _ _ Hf) as (<- & _).
Qed.

(** ** Responses *)

(** [p] is the payload that the driver makes of the response [bytes] to the
    request of description [a]. *)
Definition payload_for (a : positive) (bytes : list Z) (p : Pm.DATA_PAYLOAD) : Prop :=
  ∃ i0 i model g g', Pm.infos m0 !! a = Some i0 ∧ fixed i = fixed i0 ∧
    Pm.model_info i = Some model ∧
    Pm.response_parse itf g model i (Pm.mkResponse bytes (u8 (Z.of_nat (length bytes)))) =
      Some (g', Some p).

(** Every payload of the trace comes from the reception right before it, parsed
    for the most recent request. *)
Definition attributed (tr : list output) : Prop :=
  ∀ t1 p t2, tr = t1 ++ Published p :: t2 →
    ∃ bytes t3 a, t2 = Got bytes :: t3 ∧ last_sent t3 = Some a ∧ payload_for a bytes p.

Lemma attributed_cons o tr : (∀ p, o ≠ Published p) → attributed tr → attributed (o :: tr).
Proof.
  intros Ho H t1 p t2 [[-> _]|[t1' E]]%cons_split; [by destruct (Ho p)|]. by eapply H.
Qed.

Lemma attributed_received buffer s s' :
  polls itf m0 l s → received buffer s s' → attributed (trace s) → attributed (trace s').
Proof.
  intros Hp Hr Ha. destruct Hr as [|h g out Eh _ Hout]; [done|].
  destruct Hout as [->|(p & -> & Hparse)]; cbn [trace app]; [by apply attributed_cons|].
  intros t1 p' t2 [[[= <-] <-]|[t1' E]]%cons_split; [|by eapply (attributed_cons (Got buffer))].
  destruct (response_parsed _ _ _ _ _ _ _ _ Hp Eh Hparse) as (a & i0 & i & model & Els & [_ Hd] & Hf & Em & E).
  exists buffer, (trace s), a. split; [done|]. split; [done|].
  by exists i0, i, model, (glob s), g.
Qed.

Lemma attributed_outcome h j a t r i s s' :
  outcome W localtime h l j a t r i s s' → attributed (trace s) → attributed (trace s').
Proof. intros Ho Ha. destruct Ho; cbn [trace]; [done|by apply attributed_cons|done]. Qed.

(** ** Spacing *)

(** The time between two requests of a description, in seconds. *)
Definition interval (a : positive) : option Z :=
  i ← Pm.infos m0 !! a; t ← Pm.time_to_send i;
  Some (match mode_of t with Scheduled => 60 | _ => Pm.acqInt t end).

(** The tick of the most recent request of [a]. *)
Fixpoint last_tick (a : positive) (tr : list output) : option Z :=
  match tr with
  | [] => None
  | Sent tick a' _ :: tr => if decide (a' = a) then Some tick else last_tick a tr
  | _ :: tr => last_tick a tr
  end.

Definition spaced (tr : list output) : Prop :=
  ∀ t1 tick2 a r t2 tick1 n, tr = t1 ++ Sent tick2 a r :: t2 → last_tick a t2 = Some tick1 →
    interval a = Some n → 1000 * (n mod W + 1) <= (tick2 - tick1) mod W.

Lemma elapsed_spec a b n : elapsed W a b n = true ↔ 1000 * (n mod W + 1) <= (a - b) mod W.
Proof. unfold elapsed. rewrite Z.ltb_lt. Z.to_euclidean_division_equations. lia. Qed.

(** The time records hold the tick of the last request. *)
Definition timed s : Prop :=
  spaced (trace s) ∧
  ∀ a tick, last_tick a (trace s) = Some tick →
    ∃ i t, Pm.infos (mem s) !! a = Some i ∧ Pm.time_to_send i = Some t ∧ Pm.packetSendTime t = tick.

Lemma spaced_cons o tr : (∀ tick a r, o ≠ Sent tick a r) → spaced tr → spaced (o :: tr).
Proof.
  intros Ho H t1 tick2 a r t2 tick1 n [[-> _]|[t1' E]]%cons_split; [by destruct (Ho tick2 a r)|].
  by eapply H.
Qed.

Lemma timed_received buffer s s' : received buffer s s' → timed s → timed s'.
Proof.
  intros [|h g out Eh _ Hout] [Hs Ht]; [done|].
  destruct Hout as [->|(p & -> & _)]; (split; [|exact Ht]); cbn [trace app];
    repeat apply spaced_cons; done.
Qed.

(** A change of one time record that keeps its send time. *)
Lemma timed_kept s (m : Pm.Memory M) a inf t t' :
  m = with_time a t' (mem s) → Pm.infos (mem s) !! a = Some inf → Pm.time_to_send inf = Some t →
  Pm.packetSendTime t' = Pm.packetSendTime t →
  ∀ b tick, (∃ i u, Pm.infos (mem s) !! b = Some i ∧ Pm.time_to_send i = Some u ∧
      Pm.packetSendTime u = tick) →
    ∃ i u, Pm.infos m !! b = Some i ∧ Pm.time_to_send i = Some u ∧ Pm.packetSendTime u = tick.
Proof.
  intros -> Ei Et Es b tick (i & u & E & Eu & <-). rewrite (with_time_infos _ _ _ _ _ E).
  destruct (decide (a = b)) as [<-|]; [|eauto].
  exists (Pm.set_time t' i), t'. split_and!; [done|done|]. congruence.
Qed.

Lemma timed_outcome h j p a inf t r i s s' :
  polls itf m0 l s → l !! j = Some (p, a) → Pm.infos (mem s) !! a = Some inf →
  Pm.time_to_send inf = Some t → outcome W localtime h l j a t r i s s' → timed s → timed s'.
Proof.
  intros Hp El Ei Et Ho [Hs Ht].
  destruct (described_plan _ _ _ _ _ _ _ _ _ Hp El Ei Et) as (i0 & t0 & [_ Hd] & _ & Et0 & Hplan).
  assert (interval a = Some (match mode_of t with Scheduled => 60 | _ => Pm.acqInt t end)) as Hint.
  { unfold interval. rewrite Hd, bind_ret, Et0, bind_ret, (mode_of_plan _ _ Hplan).
    by injection Hplan as _ -> _ _. }
  destruct Ho as [t' Hpl Hsend _|t' c last Hpl Hsend Hal Hc|t' last c Hmode Hpl Hsend Hl _ Hel ->].
  - split; [done|]. intros b tick E. eapply timed_kept; eauto.
  - split; cbn [trace mem].
    + intros t1 tick2 b r' t2 tick1 n [[[= <- <- <-] <-]|[t1' E]]%cons_split Elast En; [|by eapply Hs].
      destruct (Ht _ _ Elast) as (i1 & u & Ei1 & Eu & <-).
      assert (i1 = inf) as -> by congruence. assert (u = t) as -> by congruence.
      rewrite Hint in En. injection En as <-. apply elapsed_spec. unfold allowed in Hal.
      destruct (mode_of t); apply Hal.
    + intros b tick. cbn [last_tick]. destruct (decide (a = b)) as [<-|Hne].
      * intros [= <-]. exists (Pm.set_time t' inf), t'.
        rewrite (with_time_infos _ _ _ _ _ Ei), decide_True by done. by split_and!.
      * intros E. destruct (Ht _ _ E) as (i1 & u & Ei1 & Eu & Es). exists i1, u.
        rewrite (with_time_infos _ _ _ _ _ Ei1), decide_False by done. done.
  - split; [done|]. intros b tick E. eapply timed_kept; eauto.
Qed.

(** ** Retries *)

Definition all_realtime : Prop := ∀ md, in_mode m0 l md → md = Realtime.

(** The requests since the last reception. *)
Fixpoint pending (tr : list output) : Z :=
  match tr with
  | Sent _ _ _ :: tr => pending tr + 1
  | Published _ :: tr => pending tr
  | _ => 0
  end.

(** Every unanswered request has been given up and counted, except one that is
    being waited for. *)
Definition counted s : Prop :=
  pending (trace s) = time_out_count (map s) + (if task_lock (map s) then 1 else 0).

Definition within s : Prop := counted s ∧ 0 <= time_out_count (map s) < 5.
Definition bounded s : Prop :=
  counted s ∧ 0 <= time_out_count (map s) <= 5 ∧
  (time_out_count (map s) = 5 → task_stop (map s) = true ∧ task_lock (map s) = false).

Lemma bounded_within s : task_stop (map s) = false → bounded s → within s.
Proof.
  intros Hstop (Hc & Hb & H5). split; [done|].
  destruct (decide (time_out_count (map s) = 5)) as [E|]; [|lia]. destruct (H5 E). congruence.
Qed.

Lemma within_received buffer s s' : received buffer s s' → within s → within s'.
Proof.
  intros [|h g out Eh _ Hout] [Hc Hb]; [done|]. split; [|cbn; lia]. unfold counted.
  by destruct Hout as [->|(p & -> & _)].
Qed.

Lemma bounded_outcome h j p a inf t r i s s' :
  all_realtime → polls itf m0 l s → l !! j = Some (p, a) → Pm.infos (mem s) !! a = Some inf →
  Pm.time_to_send inf = Some t → outcome W localtime h l j a t r i s s' → within s → bounded s'.
Proof.
  intros Hall Hp El Ei Et Ho [Hc Hb].
  pose proof (Hall _ (described_mode _ _ _ _ _ _ _ _ _ Hp El Ei Et)) as Hmode.
  destruct Ho as [t' _ _ _|t' c last _ _ Hal E|t' last c _ _ _ Hl _ _ ->].
  - split; [done|]. cbn. lia.
  - unfold allowed in Hal. rewrite Hmode in Hal, E. injection E as -> ->. destruct Hal as [Hlock _].
    unfold counted in Hc. rewrite Hlock in Hc. split; [unfold counted|]; cbn; lia.
  - unfold counted in Hc. rewrite Hl in Hc. cbn [time_out_count set_count].
    unfold bounded, counted. destruct (Z.leb_spec 5 (time_out_count (map s) + 1)); cbn; repeat split; lia.
Qed.

Lemma fresh_bounded s : fresh s → bounded s.
Proof.
  intros [_ _ Hl Hc _ Ht]. unfold bounded, counted. rewrite Hl, Hc, Ht. cbn. repeat split; lia.
Qed.

(** ** A device that never answers *)

Section silent.
Context (D : Z).


Hypothesis clock : ∀ z, clock_ok (localtime z).
Context (good : G → Prop).
Hypothesis driver : sound itf m0 l good.
Hypothesis all_rt : all_realtime.
Hypothesis D_retry : 3000 <= D < W.
Hypothesis D_interval : ∀ a n, interval a = Some n → 0 <= n ∧ 1000 * (n + 1) <= D.










End silent.
End properties.

(** ** A concrete thread *)

(** Two descriptions, polled every 4 seconds by a driver that echoes. *)
Definition demo_calendar : Pm.Calendar :=
  Pm.mkCalendar (replicate 12 1) (replicate 32 1) (replicate 24 1) (replicate 60 1).

Definition demo_time : Pm.TIME_TO_SEND :=
  Pm.mkTime (str "realtime" ++ [0]) 0 4 demo_calendar demo_calendar false false.

Definition demo_info (b : Z) : Pm.PM_DATA_INFO unit :=
  Pm.mkInfo (Some (Pm.mkRequest (Some [b]) 1 8)) (Some demo_time) (Some tt).

Definition demo_mem : Pm.Memory unit :=
  Pm.mkMemory {[ 1%positive := mkItem 11%positive (Some 2%positive); 2%positive := mkItem 12%positive None ]}
    {[ 11%positive := demo_info 1; 12%positive := demo_info 2 ]}.

Definition demo_list : list (positive * positive) := [(1, 11); (2, 12)]%positive.

Definition demo_driver : Pm.INTER_DESCRIPTION unit unit :=
  Pm.mkInterface (λ m g _, Some (m, g, Some (mkList (Some 1%positive) (Some 2%positive))))
    (λ m g _, Some (m, g))
    (λ g _ _ resp, Some (g, Some (Pm.mkPayload (Some (Pm.response_data resp)) (str "topic")))).

Definition demo_manager : Pm.PM_INSTANCE unit unit :=
  Pm.mkPm (str "meter" ++ [0]) (Some (mkList (Some 1%positive) (Some 2%positive))) demo_driver
    (Some 1%positive) None None.

Definition demo : Thread unit unit :=
  mkThread (mkMap (Some demo_manager) false false 0 []) demo_mem tt None [].

Definition demo_clock (_ : Z) : tm := mkTm 0 0 1 0.

Lemma demo_manages : manages demo_mem demo_manager demo_list 0.
Proof.
  split; [|intros a Ha|done|cbn; lia].
  - exists (mkList (Some 1%positive) (Some 2%positive)). split; [done|].
    split; [|done|apply (bool_decide_unpack _); by vm_compute].
    split; [done|]. exists (Some 2%positive). split; [done|].
    split; [done|]. exists None. by split.
  - cbn in Ha. apply elem_of_cons in Ha as [->|Ha%list_elem_of_singleton]; [|subst a].
    + by exists (demo_info 1), demo_time, (Pm.mkRequest (Some [1]) 1 8).
    + by exists (demo_info 2), demo_time, (Pm.mkRequest (Some [2]) 1 8).
Defined.

Lemma demo_fresh : fresh demo_driver demo_mem demo_list demo.
Proof. split; try done. exists demo_manager. split; [done|]. split; [apply demo_manages|done]. Defined.

Lemma demo_infos a i :
  described_by demo_mem demo_list a i → i = demo_info 1 ∨ i = demo_info 2.
Proof.
  intros [Ha Ei]. cbn in Ha. apply elem_of_cons in Ha as [->|Ha%list_elem_of_singleton]; [|subst a].
  - injection Ei as <-. by left.
  - injection Ei as <-. by right.
Defined.

Lemma demo_times a i t :
  described_by demo_mem demo_list a i → Pm.time_to_send i = Some t → t = demo_time.
Proof. intros [->| ->]%demo_infos; by intros [= <-]. Defined.

Lemma demo_realtime : all_realtime demo_mem demo_list.
Proof. intros md (a & i & t & Hd & Et & <-). by rewrite (demo_times _ _ _ Hd Et). Defined.

Lemma demo_sound : sound demo_driver demo_mem demo_list (λ _, True).
Proof.
  split.
  - intros. do 2 eexists. split; [done|]. split; [done|]. intros p [= <-]. by eexists.
  - intros a i [->| ->]%demo_infos; by eexists.
  - intros a i t Hd Et. rewrite (demo_times _ _ _ Hd Et). by repeat split.
  - left. intros H. by apply demo_realtime in H.
Defined.

Lemma demo_clock_ok z : clock_ok (demo_clock z).
Proof. unfold clock_ok. cbn. lia. Defined.

(** A run of four iterations: two requests, and a response to the second. *)
Definition demo_inputs : list input :=
  [mkInput [] 6000 0; mkInput [BytesReceived true [7; 7]] 9000 0; mkInput [] 9500 0;
   mkInput [BytesReceived true [8]] 16000 0].

Definition demo_W : Z := 2 ^ 64.

(** ** The properties *)

(** The manager hands out the descriptions of its list in order, starting
    again at the head after the last one, and flags exactly the last one. *)
Theorem circle {M G : Type} (m : Pm.Memory M) (h : Pm.PM_INSTANCE M G) l n :
  manages m h l 0 →
  ∃ rs m' h', next_times n m h = Some (rs, m', h') ∧ length rs = n ∧
    ∀ k, (k < n)%nat → rs !! k = (λ e, (e.2, bool_decide (S (k mod length l) = length l)))
                                <$> l !! (k mod length l)%nat.
Proof.
  intros H. destruct (next_times_spec n m h l 0 H) as (rs & m' & h' & E & _ & Hlen & Hrs).
  by exists rs, m', h'.
Qed.

Lemma circle_witness :
  ∃ rs m' h', next_times 5 demo_mem demo_manager = Some (rs, m', h') ∧ length rs = 5%nat ∧
    ∀ k, (k < 5)%nat → rs !! k = (λ e, (e.2, bool_decide (S (k mod 2) = 2%nat)))
                                <$> demo_list !! (k mod 2)%nat.
Proof. apply (circle demo_mem demo_manager demo_list 5), demo_manages. Defined.

(** A run of the thread goes wrong exactly when a response comes in before
    the thread has sent its first request (the manager then follows the NULL
    pointer [curr_data_info]); otherwise every run is defined. *)
Theorem run_undefined_iff {M G : Type} W localtime itf (m0 : Pm.Memory M) l good (s : Thread M G) inputs :
  (∀ z, clock_ok (localtime z)) → sound itf m0 l good → fresh itf m0 l s → good (glob s) →
  audible inputs →
  run W localtime inputs s = None ↔
  ∃ before i after s1, inputs = before ++ i :: after ∧ run W localtime before s = Some s1 ∧
    task_stop (map s1) = false ∧ last_sent (trace s1) = None ∧ Exists early (events i).
Proof.
  intros Hclock Hs Hf.
  exact (run_defined_from W localtime itf m0 l good inputs s Hclock Hs (fresh_polls _ _ _ _ Hf) (fresh_ticked _ _ _ _ Hf)).
Qed.

Lemma run_undefined_iff_witness : run demo_W demo_clock [mkInput [BytesReceived true [1]] 100 0] demo = None.
Proof.
  apply (run_undefined_iff demo_W demo_clock demo_driver demo_mem demo_list (λ _, True) demo).
  - apply demo_clock_ok.
  - apply demo_sound.
  - apply demo_fresh.
  - done.
  - repeat constructor; done.
  - exists [], (mkInput [BytesReceived true [1]] 100 0), [], demo. repeat split. by left.
Defined.

(** C10: whatever happens on the channel, a payload is published only right
    after a reception, and it is what the driver makes of exactly these bytes for
    the description whose request was the last one sent. *)
Theorem response_attribution {M G : Type} W localtime itf (m0 : Pm.Memory M) l (s s' : Thread M G) inputs :
  fresh itf m0 l s → run W localtime inputs s = Some s' → attributed itf m0 (trace s').
Proof.
  intros Hf Hrun.
  apply (run_ind W localtime itf m0 l (λ s, attributed itf m0 (trace s)) (λ s, attributed itf m0 (trace s)))
    in Hrun as [_ H]; try done.
  - intros. by eapply attributed_received.
  - intros. by eapply attributed_outcome.
  - by apply fresh_polls.
  - rewrite (fresh_trace _ _ _ _ Hf). by intros [].
Qed.

(** The end of the concrete run. *)
Definition demo_end : Thread unit unit := default demo (run demo_W demo_clock demo_inputs demo).

Lemma demo_run : run demo_W demo_clock demo_inputs demo = Some demo_end.
Proof. by vm_compute. Defined.

Lemma response_attribution_witness :
  length (trace demo_end) = 7%nat ∧ attributed demo_driver demo_mem (trace demo_end).
Proof.
  split; [by vm_compute|].
  exact (response_attribution demo_W demo_clock demo_driver demo_mem demo_list demo demo_end
    demo_inputs demo_fresh demo_run).
Defined.

(** C11: two successive requests of a description are more than [acqInt] seconds
    apart, and more than 60 when it is sent by the calendar, on tick counters of
    any width. *)
Theorem request_spacing {M G : Type} W localtime itf (m0 : Pm.Memory M) l (s s' : Thread M G) inputs :
  fresh itf m0 l s → run W localtime inputs s = Some s' → spaced W m0 (trace s').
Proof.
  intros Hf Hrun.
  apply (run_ind W localtime itf m0 l (timed W m0) (timed W m0)) in Hrun as [_ [H _]]; try done.
  - intros ? ? ? _. apply timed_received.
  - intros. by eapply timed_outcome.
  - by apply fresh_polls.
  - split; rewrite (fresh_trace _ _ _ _ Hf); [by intros []|done].
Qed.

Lemma request_spacing_witness : spaced demo_W demo_mem (trace demo_end).
Proof.
  exact (request_spacing demo_W demo_clock demo_driver demo_mem demo_list demo demo_end
    demo_inputs demo_fresh demo_run).
Defined.

(** With descriptions in mode ["realtime"], at most five requests in a row
    go unanswered: each is given up before the next one is sent, and after the
    fifth the thread stops. *)
Theorem retry_limit {M G : Type} W localtime itf (m0 : Pm.Memory M) l (s s' : Thread M G) inputs :
  all_realtime m0 l → fresh itf m0 l s → run W localtime inputs s = Some s' →
  0 <= pending (trace s') <= 5 ∧ (time_out_count (map s') = 5 → task_stop (map s') = true).
Proof.
  intros Hall Hf Hrun.
  apply (run_ind W localtime itf m0 l within bounded) in Hrun as [_ (Hc & Hb & H5)].
  - split; [|apply H5]. unfold counted in Hc. destruct (task_lock (map s')) eqn:El; [|lia].
    destruct (decide (time_out_count (map s') = 5)) as [E|]; [|lia].
    destruct (H5 E). congruence.
  - apply bounded_within.
  - intros ? ? ? _. apply within_received.
  - done.
  - intros. by eapply bounded_outcome.
  - by apply fresh_polls.
  - by eapply fresh_bounded.
Qed.

Lemma retry_limit_witness :
  0 <= pending (trace demo_end) <= 5 ∧
  (time_out_count (map demo_end) = 5 → task_stop (map demo_end) = true).
Proof.
  exact (retry_limit demo_W demo_clock demo_driver demo_mem demo_list demo demo_end demo_inputs
    demo_realtime demo_fresh demo_run).
Defined.



(** A description in mode ["schfrz"] locks the thread without a send tick; the
    next one, in mode ["realtime"], then reads the uninitialised
    [last_send_tick]. *)
Definition mixed_mem : Pm.Memory unit :=
  Pm.mkMemory (Pm.items demo_mem)
    (<[11%positive := Pm.set_time (Pm.mkTime (str "schfrz" ++ [0]) 0 4 demo_calendar demo_calendar true false)
        (demo_info 1)]> (Pm.infos demo_mem)).

Lemma mixed_modes_undefined :
  run demo_W demo_clock [mkInput [] 6000 1; mkInput [] 6010 1]
    (mkThread (map demo) mixed_mem tt None []) = None.
Proof. by vm_compute. Qed.

(** ** The creation of a manager *)

(** The drivers that [protocol_init] knows. *)
Definition driver_for {M G} (modbus dlt698 : Pm.INTER_DESCRIPTION M G) (proto : list Z)
    : option (Pm.INTER_DESCRIPTION M G) :=
  if strequal proto (str "MODBUS") then Some modbus
  else if strequal proto (str "DLT698.45") then Some dlt698 else None.

(** The manager of a model whose driver builds a list of descriptions. *)
Lemma manager_ready {M G : Type} (modbus dlt698 : Pm.INTER_DESCRIPTION M G) name_mem m g json proto name
    itf body m' g' desc l :
  json_object_dotget_string json (str "protoType") = Some proto →
  json_object_dotget_string json (str "name") = Some name → cstring name → length name_mem = 33%nat →
  driver_for modbus dlt698 proto = Some itf → json_object_dotget_array json (str "body") = Some body →
  (length name < 32)%nat → Pm.Construct itf m g body = Some (m', g', Some desc) →
  is_list (Pm.items m') desc l → l ≠ [] → (∀ a, a ∈ l.*2 → described m' a) →
  ∃ h, Pm.protocol_init modbus dlt698 true name_mem m g json = Some (m', g', Some h) ∧
    cstr (Pm.ModelName h) = Some name ∧ Pm.interface h = itf ∧ Pm.curr_data_info h = None ∧
    manages m' h l 0.
Proof.
  intros Eproto Ename Hs Hmem Edrv Ebody Hlen Econ Hl Hne Hd.
  unfold Pm.protocol_init. rewrite Eproto, Ename. cbn [negb].
  fold (driver_for modbus dlt698 proto). rewrite Edrv, Ebody.
  destruct (strncpy_s_short name_mem Pm.MAX_SIZE_OF_MNAME name Hs) as (d & -> & Hc & _).
  { unfold Pm.MAX_SIZE_OF_MNAME. lia. }
  rewrite bind_ret, Econ, bind_ret. eexists. split; [done|]. split; [done|]. split; [done|]. split; [done|].
  split; [by exists desc|done| |destruct l; [done|cbn; lia]].
  destruct Hl as [Hseg _ _]. cbn. apply (lseg_head _ _ _ Hseg).
Qed.

(** from a model with a known protocol, a body and a name of less than 32
    characters, whose driver builds a list of descriptions, [protocol_init] makes
    a manager for this driver, under this name, that is ready to walk this list
    from its head; a model with an unknown protocol, without a name or without a
    body is refused, with no driver called. *)
Theorem manager_created {M G : Type} (modbus dlt698 : Pm.INTER_DESCRIPTION M G) name_mem m g json proto name :
  json_object_dotget_string json (str "protoType") = Some proto →
  json_object_dotget_string json (str "name") = Some name → cstring name → length name_mem = 33%nat →
  (driver_for modbus dlt698 proto = None ∨ json_object_dotget_array json (str "body") = None →
     Pm.protocol_init modbus dlt698 true name_mem m g json = Some (m, g, None)) ∧
  (∀ itf body m' g' desc l,
     driver_for modbus dlt698 proto = Some itf → json_object_dotget_array json (str "body") = Some body →
     (length name < 32)%nat → Pm.Construct itf m g body = Some (m', g', Some desc) →
     is_list (Pm.items m') desc l → l ≠ [] → (∀ a, a ∈ l.*2 → described m' a) →
     ∃ h, Pm.protocol_init modbus dlt698 true name_mem m g json = Some (m', g', Some h) ∧
       cstr (Pm.ModelName h) = Some name ∧ Pm.interface h = itf ∧ Pm.curr_data_info h = None ∧
       manages m' h l 0).
Proof.
  intros Eproto Ename Hs Hmem. split.
  - unfold Pm.protocol_init. rewrite Eproto, Ename. cbn [negb].
    fold (driver_for modbus dlt698 proto). intros [->| ->]; [done|]. by destruct (driver_for _ _ _).
  - intros itf body m' g' desc l Edrv Ebody Hlen Econ. by eapply manager_ready.
Qed.

Lemma manager_created_witness :
  ∃ h, Pm.protocol_init demo_driver demo_driver true (replicate 33 0) demo_mem tt
      (Some [(str "protoType", JSONString (str "MODBUS")); (str "name", JSONString (str "meter"));
             (str "body", JSONArray [])]) = Some (demo_mem, tt, Some h) ∧
    cstr (Pm.ModelName h) = Some (str "meter") ∧ Pm.interface h = demo_driver ∧
    Pm.curr_data_info h = None ∧ manages demo_mem h demo_list 0.
Proof.
  eapply manager_created; try done.
  - apply (bool_decide_unpack _); by vm_compute.
  - cbn. lia.
  - destruct (man_list _ _ _ _ demo_manages) as (desc & [= <-] & H). exact H.
  - apply (man_infos _ _ _ _ demo_manages).
Defined.
