(* ===== verification/IotModbusTheory.v ===== *)
(** * IotModbusTheory: what the Modbus driver makes of models and responses.

    [point] and [device] are the models of the devices without their texts;
    [readings_json] is the body that should be published for the registers of a
    device.  The driver builds the request of a device ([built]) and publishes
    the readings of its reply. *)
From S2P Require Import Prelude.
From S2P Require Import Lightmodbus.
From S2P Require Import ModbusSlave.
From S2P Require Import ModbusSlaveSafety.
From S2P Require Import ModbusPdu.
From S2P Require Import ModbusRefinement.
From S2P Require Import ModbusMaster.
From S2P Require Import ModbusMasterTheory.
From S2P Require Import CString.
From S2P Require Import Json.
From S2P Require Import Utils.
From S2P Require Import Printf.
From S2P Require Import SinglyLinkedList.
From S2P Require Import ProtocolManager.
From S2P Require Import Effects.
From S2P Require Import Driver.
From S2P Require Import IotModbus.
From stdpp Require Import gmap strings.
From S2P Require Import IotMain.
From S2P Require Import PollTheory.
#[local] Open Scope Z_scope.

(** ** Devices and readings *)

Record point := mkPoint { p_name : list Z; p_unsigned : bool; p_swapped : bool }.

(** The value of a register, in tenths. *)
Definition reading (p : point) (v : Z) : Z :=
  let v := if p_swapped p then 256 * (v mod 256) + v / 256 else v in
  if p_unsigned p then v else int16 v.

(** A number of tenths with two decimals. *)
Definition tenth_text (z : Z) : list Z :=
  (if z <? 0 then [45] else []) ++ dec (Z.abs z / 10) ++ [46; 48 + Z.abs z mod 10; 48].

Definition reading_json (p : point) (v : Z) : JSON :=
  JSONObject [(str "name", JSONString (p_name p)); (str "val", JSONString (tenth_text (reading p v)))].

Definition readings_json (ps : list point) (vs : list Z) : list JSON := zip_with reading_json ps vs.

Lemma reading_range p v : is_u16 v → Z.abs (reading p v) < 2 ^ 16.
Proof.
  intros Hv. unfold reading, int16. destruct (p_swapped p), (p_unsigned p); ulia.
Qed.

(** The ten-byte text buffer is long enough. *)
Lemma printed_tenth z : Z.abs z < 2 ^ 16 → snprintf 10 (format_2lf (double_div z 10)) = tenth_text z.
Proof.
  intros Hz. rewrite format_tenth by done. fold (tenth_text z). unfold snprintf.
  apply take_ge. unfold tenth_text. rewrite !length_app.
  assert (length (dec (Z.abs z / 10)) <= 4)%nat.
  { apply dec_length; [|lia]. change (10 ^ Z.of_nat 4) with 10000.
    Z.to_euclidean_division_equations; lia. }
  destruct (z <? 0); cbn [length]; lia.
Qed.

(** A register of the driver's model for a point. *)
Record register_for (r : Modbus.REGISTER_TAG) (p : point) : Prop := {
  register_name : cstr (Modbus.reg_m r) = Some (p_name p);
  register_format : array_equal (Modbus.df r) (str "u16") = p_unsigned p;
  register_order : (Modbus.big r =? 0) = negb (p_swapped p) }.

Lemma load16_le16 v rest : load16 (le16 v ++ rest) = Some v.
Proof. unfold load16, le16. cbn. f_equal. Z.to_euclidean_division_equations; lia. Qed.

Lemma fix_values_spec fn rs ps vs rest :
  fn = 3 ∨ fn = 4 → Forall2 register_for rs ps → length vs = length ps → words vs →
  Modbus.fix_value_by_model ((vs ≫= le16) ++ rest) fn rs =
    Some (zip_with (λ p v, double_div (reading p v) 10) ps vs).
Proof.
  intros Hfn Hrs. revert vs. induction Hrs as [|r p rs ps Hr Hrs IH]; intros [|v vs] Hl Hw; try done.
  apply Forall_cons in Hw as [Hv Hw]. cbn [Modbus.fix_value_by_model mbind list_bind].
  assert ((fn =? 3) || (fn =? 4) = true) as -> by (destruct Hfn as [->| ->]; done).
  rewrite <- app_assoc, load16_le16, bind_ret.
  change (drop 2 (le16 v ++ _)) with ((vs ≫= le16) ++ rest).
  rewrite IH, bind_ret by (done || (cbn in Hl; lia)). cbn [zip_with]. do 3 f_equal.
  unfold reading. rewrite (register_order _ _ Hr), (register_format _ _ Hr).
  destruct (p_swapped p); cbn [negb]; [|done].
  rewrite <- (reversebytes_uint16_spec (v mod 256) (v / 256)) by ulia.
  by replace (v mod 256 + 256 * (v / 256)) with v by (Z.to_euclidean_division_equations; lia).
Qed.

Lemma body_spec rs ps vs :
  Forall2 register_for rs ps → length vs = length ps → words vs →
  Modbus.body_json rs (zip_with (λ p v, double_div (reading p v) 10) ps vs) =
    Some (readings_json ps vs).
Proof.
  intros Hrs. revert vs. induction Hrs as [|r p rs ps Hr Hrs IH]; intros [|v vs] Hl Hw; try done.
  apply Forall_cons in Hw as [Hv Hw]. cbn [Modbus.body_json zip_with].
  unfold Modbus.register_json. rewrite (register_name _ _ Hr), bind_ret, bind_ret.
  rewrite IH, bind_ret by (done || (cbn in Hl; lia)).
  rewrite printed_tenth by by apply reading_range. done.
Qed.

(** ** Responses *)

Lemma cstrn_cstr n a s : cstr a = Some s → (length s <= n)%nat → Modbus.cstrn n a = s.
Proof.
  revert n s. induction a as [|c a IH]; intros n s E Hn; [done|]. cbn [cstr] in E.
  destruct n as [|n].
  { destruct (c =? 0); [by injection E as <-|]. destruct (cstr a); [|done].
    injection E as <-. cbn in Hn. lia. }
  cbn [Modbus.cstrn]. destruct (c =? 0); [by injection E as <-|].
  destruct (cstr a) as [s'|]; [|done]. injection E as <-. f_equal. apply IH; [done|]. cbn in Hn. lia.
Qed.

(** A device: [d_input] tells input registers from holding registers. *)
Record device := mkDevice {
  d_input : bool; d_addr : Z; d_points : list point; d_topic : list Z; d_mode : list Z;
  d_interval : Z; d_start : Modbus.Inv; d_end : Modbus.Inv }.

Definition d_count (d : device) : Z := Z.of_nat (length (d_points d)).
Definition d_request (d : device) : Request := ReadRegisters (d_input d) 0 (d_count d).

(** A unicast address, a number of registers that fits a response, and texts that
    fit the driver's arrays. *)
Record wf_device (d : device) : Prop := {
  wf_addr : is_u8 (d_addr d) ∧ d_addr d ≠ 0;
  wf_count : (0 < length (d_points d) <= 125)%nat;
  wf_topic : cstring (d_topic d) ∧ (length (d_topic d) < 64)%nat;
  wf_mode : cstring (d_mode d) ∧ (length (d_mode d) < 32)%nat }.

(** The driver's model of a device. *)
Record models (mo : Modbus.MODBUS_MODEL_INFO) (d : device) : Prop := {
  models_fn : Modbus.fn mo = function_code (d_request d);
  models_addr : Modbus.devAddr mo = d_addr d;
  models_count : Modbus.regCount mo = d_count d;
  models_registers : Forall2 register_for (Modbus.mRegister mo) (d_points d);
  models_topic : cstr (Modbus.DBTopic mo) = Some (d_topic d);
  models_mode : cstr (Modbus.acqMode mo) = Some (d_mode d) ∧ length (Modbus.acqMode mo) = 33%nat;
  models_interval : Modbus.acqInt mo = d_interval d;
  models_start : Modbus.startInv mo = d_start d;
  models_end : Modbus.endInv mo = d_end d }.

Lemma d_request_wf d : wf_device d → wf_request (d_request d).
Proof. intros [_ Hc _ _]. cbn. unfold d_count, is_u16. lia. Qed.

(** The reply of the device with the register values [vs]. *)
Definition reading_reply (d : device) (vs : list Z) : list Z :=
  with_crc (d_addr d :: function_code (d_request d) :: 2 * d_count d :: (vs ≫= be16)).

Section response.
Context (serialize : JSON → list Z).

(** The text published for the values [vs] at time [now]. *)
Definition published_text (now : Z) (d : device) (vs : list Z) : list Z :=
  serialize (Modbus.payload_json now (readings_json (d_points d) vs)).

(** A payload with the readings [vs] of a device. *)
Definition reports (now : Z) (d : device) (vs : list Z) (p : option Pm.DATA_PAYLOAD) : Prop :=
  ∃ topic, p = Some (Pm.mkPayload (Some (published_text now d vs)) topic) ∧ cstr topic = Some (d_topic d).

(** The master with a request and a response. *)
Definition loaded (g : Master.ModbusMaster) (d : device) (buf : list Z) : Master.ModbusMaster :=
  Master.set_response (Some buf) (u8 (Z.of_nat (length buf)))
    (Master.set_request (Some (encode_request (d_addr d) (d_request d))) 8 g).

Section parse.
Context (mo : Modbus.MODBUS_MODEL_INFO) (d : device).
Context (info : Pm.PM_DATA_INFO Modbus.MODBUS_MODEL_INFO) (pl : Z).
Hypothesis Hd : wf_device d.
Hypothesis Hmo : models mo d.
Hypothesis Ereq : Pm.data_request info =
  Some (Pm.mkRequest (Some (encode_request (d_addr d) (d_request d))) 8 pl).
Implicit Types (w : World Modbus.MODBUS_MODEL_INFO Master.ModbusMaster).

Abbreviation parse buf :=
  (Modbus.mosbus_response_parse serialize mo info (Pm.mkResponse buf (u8 (Z.of_nat (length buf))))).

(** Once the master has accepted a response, its values are published. *)
Lemma response_parse_accepted buf vs g1 w :
  words vs → length vs = length (d_points d) → plenty (w_env w) →
  Master.modbusParseResponse true (loaded (w_glob w) d buf) = Some (MODBUS_ERROR_OK, g1) →
  is_Some (Master.data_type (Master.data g1)) →
  Master.buffer (Master.data g1) = Some (vs ≫= le16) →
  wp (parse buf)
    (λ p w', reports (hd 0 (times (w_env w))) d vs p ∧ plenty (w_env w') ∧
       times (w_env w') = tl (times (w_env w))) w.
Proof using Hd Hmo Ereq.
  intros Hw Hvs Hp Eparse [ty Ety] Ebuf.
  destruct Hd as [[Ha Hne] Hc [Htop Htopl] _].
  unfold Modbus.mosbus_response_parse.
  apply wp_bind. eapply wp_lift; [done|]. apply wp_bind, wp_global.
  apply wp_bind, wp_malloc_ok; [done|]. intros e1 Hp1 Ht1.
  apply wp_bind. eapply wp_lift; [exact Eparse|].
  apply wp_bind, wp_put. rewrite decide_True by done. rewrite Ety, Ebuf.
  apply wp_bind. eapply wp_lift; [done|].
  apply wp_bind, wp_block; [done|]. intros blk e2 Hblk Hp2 Ht2. cbn in Ht2. rewrite Ht1 in Ht2.
  apply wp_bind. unfold Modbus.construct_payload_by_model.
  apply wp_bind, wp_time. cbn [w_env put_env]. rewrite ?Ht2.
  apply wp_bind, wp_malloc_ok; [exact Hp2|]. intros e3 Hp3 Ht3. cbn in Ht3.
  rewrite (models_count _ _ Hmo). rewrite take_ge.
  2:{ rewrite (Forall2_length _ _ _ (models_registers _ _ Hmo)). unfold d_count. lia. }
  apply wp_bind. eapply wp_lift.
  { rewrite (proj2 (Z.eqb_neq _ _)) by (unfold d_count; lia). cbn [negb]. rewrite bind_ret.
    rewrite <- (app_nil_r (vs ≫= le16)).
    rewrite (fix_values_spec _ _ (d_points d)), bind_ret; [|rewrite (models_fn _ _ Hmo); cbn; destruct (d_input d); auto|by apply models_registers|done|done].
    apply body_spec; [by apply models_registers|done|done]. }
  apply wp_bind, wp_malloc_ok; [done|]. intros e4 Hp4 Ht4. cbn in Ht4. apply wp_ret.
  destruct (strncpy_short blk (d_topic d) 64 Htop) as (topic & Etopic & Hctopic & _); [lia|].
  apply wp_bind. eapply wp_lift.
  { rewrite (cstrn_cstr 64 _ (d_topic d)) by (by apply models_topic || lia). exact Etopic. }
  apply wp_ret. cbn. rewrite Ht4, Ht3. split; [by exists topic|done].
Qed.

(** The reply of the device. *)
Lemma response_parse_reply vs w :
  words vs → length vs = length (d_points d) → plenty (w_env w) →
  wp (parse (reading_reply d vs))
    (λ p w', reports (hd 0 (times (w_env w))) d vs p ∧ plenty (w_env w') ∧
       times (w_env w') = tl (times (w_env w))) w.
Proof using Hd Hmo Ereq.
  intros Hw Hvs Hp. pose proof (d_request_wf d Hd) as Hwf.
  destruct (wf_addr _ Hd) as [Ha Hne]. pose proof (wf_count _ Hd) as Hc.
  assert (Z.of_nat (length (reading_reply d vs)) = 5 + 2 * d_count d) as Hlen.
  { unfold reading_reply. rewrite length_with_crc. cbn [length]. rewrite length_be16_list, Hvs.
    unfold d_count. lia. }
  pose proof (reply_registers (d_addr d) (d_input d) 0 (d_count d) vs) as Hreply.
  eapply response_parse_accepted; [done|done|done| | |].
  - eapply (modbusParseResponse_accepts _ (d_addr d) (d_request d) (2 * d_count d :: (vs ≫= be16)));
      [done|done|done| |done|].
    + apply Hreply; [unfold d_count; lia|unfold d_count; lia|done].
    + unfold loaded. cbn [Master.response Master.set_response]. unfold reading_reply, whole.
      fold (reading_reply d vs). rewrite u8_id by (unfold is_u8, d_count in *; lia). done.
  - done.
  - done.
Qed.

Lemma words_of_bytes b n :
  bytes b → Z.of_nat (length b) = 2 * Z.of_nat n →
  ∃ vs, words vs ∧ length vs = n ∧ b = vs ≫= le16.
Proof using.
  revert b. induction n as [|n IH]; intros b Hb Hl.
  { exists []. destruct b; [|cbn in Hl; lia]. split; [constructor|done]. }
  destruct b as [|lo [|hi b]]; [cbn in Hl; lia|cbn in Hl; lia|].
  apply Forall_cons in Hb as [Hlo [Hhi Hb]%Forall_cons].
  destruct (IH b Hb) as (vs & Hw & Hlv & ->); [cbn in Hl; lia|].
  exists (lo + 256 * hi :: vs). split; [|split; [by cbn; rewrite Hlv|]].
  - constructor; [|done]. unfold is_u8, is_u16 in *. lia.
  - rewrite bind_cons. unfold le16. unfold is_u8 in *.
    replace ((lo + 256 * hi) mod 256) with lo by (Z.to_euclidean_division_equations; lia).
    by replace ((lo + 256 * hi) / 256) with hi by (Z.to_euclidean_division_equations; lia).
Qed.

(** Any bytes at all: nothing is published, or some values of all registers. *)
Lemma response_parse_total buf w :
  bytes buf → plenty (w_env w) →
  wp (parse buf)
    (λ p w', plenty (w_env w') ∧
       (p = None ∨ ∃ vs, words vs ∧ length vs = length (d_points d) ∧
          reports (hd 0 (times (w_env w))) d vs p)) w.
Proof using Hd Hmo Ereq.
  intros Hb Hp. pose proof (d_request_wf d Hd) as Hwf. destruct (wf_addr _ Hd) as [Ha _].
  assert (wf_master (loaded (w_glob w) d buf)) as Hm.
  { split; (split; [|intros f [= <-]; split]); cbn.
    - done.
    - apply with_crc_bytes, encode_request_bytes; [done|done].
    - done.
    - unfold u8, is_u8. Z.to_euclidean_division_equations. lia.
    - done.
    - unfold u8. Z.to_euclidean_division_equations. lia. }
  destruct (modbusParseResponse_parsed true _ Hm) as (e & g1 & E & _).
  destruct (decide (e = MODBUS_ERROR_OK)) as [->|Hne].
  - destruct Hwf as [Hi Hn].
    destruct (parsed_registers true _ g1 (d_addr d) (d_input d) 0 (d_count d) Hm Ha Hi Hn eq_refl E)
      as (Hty & b & Eb & Hbb & Hbl).
    destruct (words_of_bytes b (length (d_points d)) Hbb) as (vs & Hw & Hl & ->); [exact Hbl|].
    eapply wp_mono; [by eapply response_parse_accepted|]. intros p w' (Hr & Hp' & _).
    split; [done|]. right. by exists vs.
  - unfold Modbus.mosbus_response_parse.
    apply wp_bind. eapply wp_lift; [done|]. apply wp_bind, wp_global.
    apply wp_bind, wp_malloc_ok; [done|]. intros e1 Hp1 _.
    apply wp_bind. eapply wp_lift; [exact E|].
    apply wp_bind, wp_put. rewrite decide_False by done. apply wp_ret. split; [done|]. by left.
Qed.
End parse.
End response.

(** ** Models *)

(** A terminated array compares like its string. *)
Lemma array_equal_cstr a s lit :
  cstr a = Some s → cstring lit → array_equal a lit = bool_decide (s = lit).
Proof.
  intros E Hlit. unfold array_equal. apply bool_decide_ext.
  revert a s E. induction Hlit as [|c lit Hc Hlit IH]; intros a s E.
  - destruct a as [|x a]; [done|]. cbn [cstr] in E. cbn.
    destruct (Z.eqb_spec x 0) as [->|Hx]; [by injection E as <-|].
    destruct (cstr a); [|done]. injection E as <-. split; [by intros [=]|done].
  - destruct a as [|x a]; [done|]. cbn [cstr] in E. cbn [length app].
    rewrite firstn_cons. destruct (Z.eqb_spec x 0) as [->|Hx].
    + injection E as <-. split; [by intros [= <-]|done].
    + destruct (cstr a) as [s'|] eqn:Ea; [|done]. injection E as <-. specialize (IH a s' Ea).
      split; intros [= -> E]; f_equal; by apply IH.
Qed.

(** A JSON register with the name, the format and the byte order of a point. *)
Record register_json_for (o : list (list Z * JSON)) (p : point) : Prop := {
  rj_id : is_Some (Modbus.get_int (Some o) (str "id"));
  rj_address : is_Some (Modbus.get_int (Some o) (str "address"));
  rj_big : ∃ b, Modbus.get_int (Some o) (str "big") = Some b ∧ (u8 b =? 0) = negb (p_swapped p);
  rj_name : json_object_dotget_string (Some o) (str "m") = Some (p_name p) ∧
    cstring (p_name p) ∧ (length (p_name p) < 32)%nat;
  rj_format : ∃ f, json_object_dotget_string (Some o) (str "df") = Some f ∧
    cstring f ∧ (length f < 8)%nat ∧ p_unsigned p = bool_decide (f = str "u16");
  rj_math : ∃ f, json_object_dotget_string (Some o) (str "math") = Some f ∧
    cstring f ∧ (length f < 32)%nat }.

(** A time of the schedule: -1 for every month, day or hour; a minute. *)
Definition wf_inv (v : Modbus.Inv) : Prop :=
  -1 <= Modbus.InvMons v < 12 ∧ -1 <= Modbus.InvDays v < 32 ∧
  -1 <= Modbus.InvHous v < 24 ∧ 0 <= Modbus.InvMins v < 60.

(** A JSON model of a device. *)
Record model_json_for (o : list (list Z * JSON)) (d : device) : Prop := {
  mj_mode : json_object_dotget_string (Some o) (str "acqMode") = Some (d_mode d);
  mj_topic : json_object_dotget_string (Some o) (str "DBTopic") = Some (d_topic d);
  mj_start : Modbus.get_inv (json_object_dotget_object (Some o) (str "startTime")) = Some (d_start d) ∧
    wf_inv (d_start d);
  mj_end : Modbus.get_inv (json_object_dotget_object (Some o) (str "endTime")) = Some (d_end d) ∧
    wf_inv (d_end d);
  mj_interval : Modbus.get_int (Some o) (str "acqInt") = Some (d_interval d);
  mj_fn : Modbus.get_int (Some o) (str "fn") = Some (function_code (d_request d));
  mj_addr : Modbus.get_int (Some o) (str "devAddr") = Some (d_addr d);
  mj_registers : ∃ arr, json_object_dotget_array (Some o) (str "regGrp") = Some arr ∧
    Forall2 (λ v p, ∃ r, v = JSONObject r ∧ register_json_for r p) arr (d_points d) }.

Lemma get_text_spec blk size o name s :
  json_object_dotget_string o name = Some s → cstring s → (length s < size <= length blk)%nat →
  ∃ d, Modbus.get_text blk size o name = Some d ∧ cstr d = Some s.
Proof.
  intros E Hs Hl. unfold Modbus.get_text. rewrite E, bind_ret.
  destruct (strncpy_s_short blk size s Hs Hl) as (d & -> & Hd & _). by exists d.
Qed.

Lemma parse_register_spec blk o p :
  register_json_for o p → length blk = Modbus.REGISTER_bytes →
  ∃ r, Modbus.parse_register blk (Some o) = Some r ∧ register_for r p.
Proof.
  intros [[i Ei] [ad Ead] (b & Eb & Hb) (Em & Hm & Hml) (f & Ef & Hf & Hfl & Hu) (mt & Emt & Hmt & Hmtl)] Hblk.
  unfold Modbus.REGISTER_bytes in Hblk. unfold Modbus.parse_register.
  rewrite Ei, bind_ret, Ead, bind_ret, Eb, bind_ret.
  destruct (get_text_spec (take 33 blk) Modbus.MAX_SIZE_OF_M (Some o) (str "m") (p_name p)) as (d1 & -> & E1);
    [done|done|unfold Modbus.MAX_SIZE_OF_M; rewrite length_take; lia|].
  destruct (get_text_spec (take 9 (drop 33 blk)) Modbus.MAX_SIZE_OF_DF (Some o) (str "df") f) as (d2 & -> & E2);
    [done|done|unfold Modbus.MAX_SIZE_OF_DF; rewrite length_take, length_drop; lia|].
  destruct (get_text_spec (take 33 (drop 42 blk)) Modbus.MAX_SIZE_OF_MATH (Some o) (str "math") mt) as (d3 & -> & E3);
    [done|done|unfold Modbus.MAX_SIZE_OF_MATH; rewrite length_take, length_drop; lia|].
  rewrite !bind_ret. eexists. split; [done|]. split; cbn; [done| |done].
  rewrite (array_equal_cstr _ f); [done|done|]. apply (bool_decide_unpack _); by vm_compute.
Qed.

Lemma parse_registers_spec blk arr ps :
  Forall2 (λ v p, ∃ r, v = JSONObject r ∧ register_json_for r p) arr ps →
  length blk = (Modbus.REGISTER_bytes * length arr)%nat →
  ∃ rs, Modbus.parse_registers blk arr = Some rs ∧ Forall2 register_for rs ps.
Proof.
  intros Hrs. revert blk. induction Hrs as [|v p arr ps (o & -> & Ho) Hrs IH]; intros blk Hl.
  { exists []. by split. }
  cbn [length] in Hl. cbn [Modbus.parse_registers json_value_get_object].
  destruct (parse_register_spec (take Modbus.REGISTER_bytes blk) o p Ho) as (r & -> & Hr).
  { rewrite length_take. lia. }
  destruct (IH (drop Modbus.REGISTER_bytes blk)) as (rs & -> & Hrs').
  { rewrite length_drop. lia. }
  rewrite !bind_ret. exists (r :: rs). split; [done|]. by constructor.
Qed.

Section models.
Context {G : Type}.

Lemma parse_model_spec o d w :
  wf_device d → model_json_for o d → plenty (w_env w) →
  wp (Modbus.parse_modbus_model_by_json (Some o))
    (λ r w', ∃ mo e, r = Some mo ∧ models mo d ∧ w' = put_env e w ∧ plenty e ∧ times e = times (w_env w)) w.
Proof.
  intros [[Ha Hne] Hc [Htop Htopl] [Hmode Hmodel]] Hj Hp.
  destruct (mj_registers _ _ Hj) as (arr & Earr & Hrs). pose proof (Forall2_length _ _ _ Hrs) as Hlen.
  unfold Modbus.parse_modbus_model_by_json. rewrite Earr.
  destruct arr as [|v arr]; [cbn in Hlen; lia|]. set (vs := v :: arr) in *.
  apply wp_bind, wp_block; [done|]. intros blk e Hblk He Ht.
  unfold Modbus.HEADER_bytes, Modbus.REGISTER_bytes in Hblk.
  destruct (strncpy_short (take 33 blk) (d_mode d) Modbus.MAX_SIZE_OF_MODE Hmode) as (m & Em & Hm & Hml).
  { unfold Modbus.MAX_SIZE_OF_MODE. rewrite length_take. lia. }
  destruct (strncpy_short (take 65 (drop 33 blk)) (d_topic d) Modbus.MAX_SIZE_OF_DBTOPIC Htop) as (t & Et & Htp & _).
  { unfold Modbus.MAX_SIZE_OF_DBTOPIC. rewrite length_take, length_drop. lia. }
  destruct (parse_registers_spec (drop Modbus.HEADER_bytes blk) vs (d_points d) Hrs) as (rs & Ers & Hregs).
  { unfold Modbus.HEADER_bytes, Modbus.REGISTER_bytes. rewrite length_drop. lia. }
  eapply wp_lift.
  { rewrite (mj_mode _ _ Hj), bind_ret, Em, bind_ret, (mj_topic _ _ Hj), bind_ret, Et, bind_ret.
    rewrite (proj1 (mj_start _ _ Hj)), bind_ret, (proj1 (mj_end _ _ Hj)), bind_ret.
    rewrite (mj_interval _ _ Hj), bind_ret, (mj_fn _ _ Hj), bind_ret, (mj_addr _ _ Hj), bind_ret.
    rewrite Ers, bind_ret. done. }
  eexists _, e. split; [done|]. split; [|by split_and!]. split; cbn; try done.
  - rewrite u8_id; [done|]. destruct (d_input d); done.
  - by apply u8_id.
  - change (S (length arr)) with (length vs). rewrite Hlen. unfold d_count, u16. rewrite Z.mod_small; [done|]. lia.
  - split; [done|]. rewrite Hml, length_take. lia.
Qed.
End models.

(** ** Descriptions *)

(** A minute that the schedule names; -1 names every month, day or hour. *)
Definition names (v : Modbus.Inv) (time_info : tm) : Prop :=
  (Modbus.InvMons v = -1 ∨ Modbus.InvMons v = tm_mon time_info) ∧
  (Modbus.InvDays v = -1 ∨ Modbus.InvDays v = tm_mday time_info) ∧
  (Modbus.InvHous v = -1 ∨ Modbus.InvHous v = tm_hour time_info) ∧
  Modbus.InvMins v = tm_min time_info.

(** A calendar with the minutes of a schedule.  It may have others: the arrays
    are not cleared before they are marked. *)
Definition calendar_for (v : Modbus.Inv) (c : Pm.Calendar) : Prop :=
  complete c ∧ ∀ time_info, clock_ok time_info → names v time_info → in_calendar c time_info = Some true.

Lemma set_slot_spec a i :
  0 <= i < Z.of_nat (length a) →
  ∃ b, Modbus.set_slot a i = Some b ∧ length b = length a ∧ b !! Z.to_nat i = Some 1.
Proof.
  intros Hi. unfold Modbus.set_slot. eexists. split.
  { rewrite (proj2 (andb_true_iff _ _)); [done|]. rewrite Z.leb_le, Z.ltb_lt. lia. }
  rewrite length_insert. split; [done|]. apply list_lookup_insert_eq. lia.
Qed.

Lemma mark_spec a i :
  -1 <= i < Z.of_nat (length a) →
  ∃ b, Modbus.mark a i = Some b ∧ length b = length a ∧
    ∀ k, 0 <= k < Z.of_nat (length a) → i = -1 ∨ i = k → b !! Z.to_nat k = Some 1.
Proof.
  intros Hi. unfold Modbus.mark. destruct (Z.eqb_spec i (-1)) as [->|Hne].
  - eexists. split; [done|]. rewrite length_replicate. split; [done|]. intros k Hk _.
    apply lookup_replicate. split; [done|]. lia.
  - destruct (set_slot_spec a i) as (b & -> & Hl & Hb); [lia|]. exists b. split; [done|]. split; [done|].
    intros k _ [->|<-]; [done|done].
Qed.

Lemma make_calendar_spec blk v :
  wf_inv v → length blk = Modbus.CALENDAR_bytes →
  ∃ c, Modbus.make_calendar blk v = Some c ∧ calendar_for v c.
Proof.
  intros (H1 & H2 & H3 & H4) Hl. unfold Modbus.CALENDAR_bytes in Hl. unfold Modbus.make_calendar.
  assert (∀ n k, (k + n <= 128)%nat → length (take n (drop k blk)) = n) as Hpart.
  { intros n k Hk. rewrite length_take, length_drop. lia. }
  pose proof (Hpart 12%nat 0%nat ltac:(lia)) as L1. pose proof (Hpart 32%nat 12%nat ltac:(lia)) as L2.
  pose proof (Hpart 24%nat 44%nat ltac:(lia)) as L3. pose proof (Hpart 60%nat 68%nat ltac:(lia)) as L4.
  rewrite drop_0 in L1.
  destruct (mark_spec _ (Modbus.InvMons v) ltac:(by rewrite L1)) as (mo & -> & Lmo & Emo).
  destruct (mark_spec _ (Modbus.InvDays v) ltac:(by rewrite L2)) as (da & -> & Lda & Eda).
  destruct (mark_spec _ (Modbus.InvHous v) ltac:(by rewrite L3)) as (ho & -> & Lho & Eho).
  destruct (set_slot_spec _ (Modbus.InvMins v) ltac:(by rewrite L4)) as (mi & -> & Lmi & Emi).
  rewrite L1 in Emo. rewrite L2 in Eda. rewrite L3 in Eho.
  rewrite !bind_ret. eexists. split; [done|]. split.
  { unfold complete. cbn [Pm.Mins Pm.Hous Pm.Days Pm.Mons]. split_and!; congruence. }
  intros time_info (T1 & T2 & T3 & T4) (N1 & N2 & N3 & N4). unfold in_calendar.
  cbn [Pm.Mins Pm.Hous Pm.Days Pm.Mons].
  rewrite <- N4, Emi, bind_ret, Eho, bind_ret, Eda, bind_ret, Emo, bind_ret by (done || lia). done.
Qed.

(** The description of a device. *)
Record built (info : Pm.PM_DATA_INFO Modbus.MODBUS_MODEL_INFO) (d : device) : Prop := {
  built_request : Pm.data_request info =
    Some (Pm.mkRequest (Some (encode_request (d_addr d) (d_request d))) 8 (reply_length (d_request d)));
  built_time : ∃ t, Pm.time_to_send info = Some t ∧
    cstr (Pm.acqMode t) = Some (d_mode d) ∧ Pm.packetSendTime t = 0 ∧
    Pm.acqInt t = d_interval d ∧ Pm.freezing t = false ∧
    calendar_for (d_start d) (Pm.startTime t) ∧ calendar_for (d_end d) (Pm.endTime t);
  built_model : ∃ mo, Pm.model_info info = Some mo ∧ models mo d }.

(** A device whose schedule is one. *)
Definition scheduled_device (d : device) : Prop := wf_device d ∧ wf_inv (d_start d) ∧ wf_inv (d_end d).

Lemma build_request_spec mo d (w : World Modbus.MODBUS_MODEL_INFO Master.ModbusMaster) :
  wf_device d → models mo d → plenty (w_env w) →
  wp (Modbus.build_request_data mo)
    (λ r w', r = Pm.mkRequest (Some (encode_request (d_addr d) (d_request d))) 8 (reply_length (d_request d)) ∧
       w_mem w' = w_mem w ∧ plenty (w_env w')) w.
Proof.
  intros Hd Hmo Hp. pose proof (d_request_wf d Hd) as Hwf. destruct Hd as [[Ha Hne] Hc _ _].
  unfold Modbus.build_request_data. apply wp_bind, wp_malloc_ok; [done|]. intros e He _.
  apply wp_bind, wp_global. apply wp_bind. rewrite (models_fn _ _ Hmo), (models_addr _ _ Hmo), (models_count _ _ Hmo).
  assert (count_ok (d_request d) = true) as Hok.
  { cbn. unfold d_count. rewrite andb_true_iff, !Z.leb_le. lia. }
  eapply wp_lift.
  { assert ((function_code (d_request d) =? 3) || (function_code (d_request d) =? 4) = true) as ->
      by (cbn; by destruct (d_input d)).
    unfold d_request at 1. rewrite (build_read_registers true _ (d_addr d)); [|done|by apply wf_typed].
    rewrite bind_ret. fold (d_request d). unfold build_outcome.
    rewrite (proj2 (Z.eqb_neq _ 0) Hne), andb_false_r, Hok. cbn [negb]. done. }
  apply wp_bind, wp_put. apply wp_ret. split; [done|]. by split.
Qed.

Lemma make_time_spec blk mode acqMode n v1 v2 :
  cstr acqMode = Some mode → cstring mode → (length mode < 32)%nat → wf_inv v1 → wf_inv v2 →
  length blk = Modbus.TIME_bytes →
  ∃ t, Modbus.make_time blk acqMode n v1 v2 = Some t ∧
    cstr (Pm.acqMode t) = Some mode ∧ Pm.packetSendTime t = 0 ∧ Pm.acqInt t = n ∧ Pm.freezing t = false ∧
    calendar_for v1 (Pm.startTime t) ∧ calendar_for v2 (Pm.endTime t).
Proof.
  intros Emode Hm Hml H1 H2 Hblk. unfold Modbus.TIME_bytes in Hblk. unfold Modbus.make_time.
  destruct (strncpy_short (take 33 blk) mode 32 Hm) as (m & Em & Hcm & _).
  { rewrite length_take. lia. }
  rewrite (cstrn_cstr _ _ _ Emode) by (unfold Modbus.MAX_SIZE_OF_MODE; lia).
  unfold Modbus.MAX_SIZE_OF_MODE. rewrite Em, bind_ret.
  destruct (make_calendar_spec (take Modbus.CALENDAR_bytes (drop 33 blk)) v1 H1) as (c1 & -> & Hc1).
  { unfold Modbus.CALENDAR_bytes. rewrite length_take, length_drop. lia. }
  destruct (make_calendar_spec (take Modbus.CALENDAR_bytes (drop 161 blk)) v2 H2) as (c2 & -> & Hc2).
  { unfold Modbus.CALENDAR_bytes. rewrite length_take, length_drop. lia. }
  destruct (lookup_lt_is_Some_2 blk 289) as [b ->]; [lia|]. rewrite !bind_ret.
  eexists. split; [done|]. by split_and!.
Qed.

Lemma data_info_create_spec mo d (w : World Modbus.MODBUS_MODEL_INFO Master.ModbusMaster) :
  scheduled_device d → models mo d → plenty (w_env w) →
  wp (Modbus.modbus_data_info_create mo)
    (λ r w', ∃ a info, r = Some a ∧ Pm.infos (w_mem w) !! a = None ∧
       Pm.infos (w_mem w') !! a = Some info ∧ built info d ∧
       (∀ b, b ≠ a → Pm.infos (w_mem w') !! b = Pm.infos (w_mem w) !! b) ∧
       Pm.items (w_mem w') = Pm.items (w_mem w) ∧ plenty (w_env w')) w.
Proof.
  intros (Hd & Hs & He) Hmo Hp. destruct (wf_mode _ Hd) as [Hm Hml].
  destruct (models_mode _ _ Hmo) as [Emode Lmode].
  unfold Modbus.modbus_data_info_create. apply wp_bind, wp_malloc_ok; [done|]. intros e1 Hp1 _.
  cbn [negb]. apply wp_bind, wp_block; [done|]. intros blk e2 Hblk Hp2 _.
  destruct (make_time_spec blk _ _ (Modbus.acqInt mo) _ _ Emode Hm Hml Hs He Hblk) as (t & Etime & Ht).
  apply wp_bind. eapply wp_lift; [by rewrite (models_start _ _ Hmo), (models_end _ _ Hmo)|].
  apply wp_bind, wp_malloc_ok; [done|]. intros e3 Hp3 _. cbn [negb].
  apply wp_bind. eapply wp_mono; [by apply build_request_spec|].
  intros r w' (-> & Ew & Hp4). apply wp_bind. set (info := Pm.mkInfo _ _ _).
  pose proof (is_fresh (dom (Pm.infos (w_mem w')))) as Hf. rewrite not_elem_of_dom in Hf.
  do 2 eexists. split; [done|]. apply wp_ret. cbn in Ew. rewrite Ew in Hf.
  do 2 eexists. split; [done|]. cbn [w_mem Pm.infos Pm.items w_env]. rewrite Ew.
  split; [done|]. split; [apply lookup_insert_eq|]. split; [|split; [|done]].
  - split; [done| |by exists mo]. exists t. split; [done|].
    rewrite (models_interval _ _ Hmo) in Ht. exact Ht.
  - intros b Hb. by apply lookup_insert_ne.
Qed.

(** ** The list of descriptions *)

(** The devices of a JSON array; what is not an object is skipped. *)
Inductive devices : list JSON → list device → Prop :=
  | devices_nil : devices [] []
  | devices_skip v vs ds : json_value_get_object (Some v) = None → devices vs ds → devices (v :: vs) ds
  | devices_cons o vs d ds :
      model_json_for o d → scheduled_device d → devices vs ds → devices (JSONObject o :: vs) (d :: ds).

Lemma init_loop_spec m0 vs ds lst l ds0 (w : World Modbus.MODBUS_MODEL_INFO Master.ModbusMaster) :
  devices vs ds → made built (w_mem w) lst l ds0 → without (w_mem w) l m0 → plenty (w_env w) →
  wp (Modbus.init_loop lst vs)
    (λ r w', ∃ lst' l', r = Some lst' ∧ made built (w_mem w') lst' l' (ds0 ++ ds) ∧
       without (w_mem w') l' m0 ∧ plenty (w_env w')) w.
Proof.
  intros Hds. revert lst l ds0 w.
  induction Hds as [|v vs ds Ev _ IH|o vs d ds Hj Hd _ IH]; intros lst l ds0 w Hm Hwo Hp; cbn [Modbus.init_loop].
  - apply wp_ret. rewrite app_nil_r. by exists lst, l.
  - rewrite Ev. by eapply IH.
  - cbn [json_value_get_object]. apply wp_bind. eapply wp_mono; [apply parse_model_spec; [by apply Hd|done|done]|].
    intros r w1 (mo & e & -> & Hmo & -> & He & _).
    apply wp_bind. eapply wp_mono; [by apply (data_info_create_spec mo d)|].
    intros r w2 (a & info & -> & Hfresh & Ea & Hb & Hext & Eit & Hp2). cbn [w_mem put_env] in *.
    apply wp_bind. eapply wp_mono; [by eapply add_item_made|]. intros lst' w3 (l' & Hm' & Hwo' & _ & Hp3).
    eapply wp_mono; [by eapply IH|]. intros r w4 (lst4 & l4 & -> & Hm4 & Hwo4 & Hp4).
    exists lst4, l4. rewrite <- app_assoc in Hm4. by split_and!.
Qed.

Lemma modbus_init_spec vs ds (w : World Modbus.MODBUS_MODEL_INFO Master.ModbusMaster) :
  devices vs ds → plenty (w_env w) →
  wp (Modbus.modbus_init vs)
    (λ r w', ∃ lst l, r = Some lst ∧ made built (w_mem w') lst l ds ∧
       without (w_mem w') l (w_mem w) ∧ plenty (w_env w')) w.
Proof.
  intros Hds Hp. unfold Modbus.modbus_init. apply wp_bind, wp_malloc_ok; [done|]. intros e1 Hp1 _.
  cbn [negb]. apply wp_bind, wp_global. apply wp_bind, wp_put. apply wp_bind, wp_malloc_ok; [done|].
  intros e2 Hp2 _. unfold singlylinkedlist_create. apply wp_bind.
  eapply wp_mono; [apply (init_loop_spec (w_mem w) vs ds _ [] []); [done| | |done]|].
  - apply made_nil.
  - apply without_nil.
  - intros r w' (lst & l & -> & Hm & Hx & Hp'). apply wp_ret. exists lst, l. by split_and!.
Qed.

(** The clean-up after initialisation. *)
Lemma modbus_destroy_spec m desc l ds (w : World Modbus.MODBUS_MODEL_INFO Master.ModbusMaster) :
  made built m desc l ds → w_mem w = m →
  ∃ w', Modbus.modbus_destroy (Some desc) w = Some (tt, w') ∧ without m l (w_mem w') ∧
    w_env w' = w_env w.
Proof.
  intros Hm Ew. destruct (free_made _ Modbus.release m desc l ds w Hm Ew) as (lst & m' & E & Hl & Hwo).
  { intros i d [Hr _ _]. unfold Modbus.release. by rewrite Hr. }
  unfold Modbus.modbus_destroy. rewrite Ew, E, bind_ret. cbn [w_mem].
  assert (SinglyLinkedList.head lst = None) as Eh by apply Hl.
  unfold singlylinkedlist_destroy, fuel. cbn [destroy_loop]. rewrite Eh, bind_ret.
  eexists. split; [done|]. split; [|done]. by destruct m'.
Qed.
