(* ===== verification/IotModbusProperties.v ===== *)
(** * IotModbusProperties: the Modbus driver, its manager and its thread.

    [modbus_models_built], [modbus_response_published]: the contract of the
    driver.  [modbus_thread_defined], [modbus_exchange]: the driver under the
    protocol manager and the sending thread, with the slaves of [ModbusLink] at
    the other end of the line. *)
From S2P Require Import Prelude.
From S2P Require Import Lightmodbus.
From S2P Require Import ModbusSlave.
From S2P Require Import ModbusSlaveSafety.
From S2P Require Import ModbusPdu.
From S2P Require Import ModbusMaster.
From S2P Require Import ModbusMasterTheory.
From S2P Require Import ModbusLink.
From S2P Require Import ModbusProperties.
From S2P Require Import CString.
From S2P Require Import Json.
From S2P Require Import SinglyLinkedList.
From S2P Require Import ProtocolManager.
From S2P Require Import Effects.
From S2P Require Import Driver.
From S2P Require Import IotModbus.
From stdpp Require Import gmap strings.
From S2P Require Import IotMain.
From S2P Require Import PollTheory.
From S2P Require Import PollProperties.
From S2P Require Import IotModbusTheory.
#[local] Open Scope Z_scope.

Abbreviation Memory := (Pm.Memory Modbus.MODBUS_MODEL_INFO).
Abbreviation Globals := (Master.ModbusMaster * Env)%type.

(** The allocations of the coming calls succeed. *)
Definition supplied (g : Globals) : Prop := plenty g.2.

Section driver.
Context (serialize : JSON → list Z).
Abbreviation drv := (Modbus.modbus_interface_description serialize).
Implicit Types (m : Memory) (g : Globals).

(** ** The driver as an interface of the manager *)

Lemma construct_made m g vs ds :
  devices vs ds → supplied g →
  ∃ m' g' desc l, Pm.Construct drv m g vs = Some (m', g', Some desc) ∧ made built m' desc l ds ∧
    without m' l m ∧ supplied g'.
Proof.
  intros Hds Hg. destruct (modbus_init_spec vs ds (mkWorld m g.1 g.2) Hds Hg)
    as (r & w & E & desc & l & -> & Hm & Hx & Hp).
  cbn [Pm.Construct Modbus.modbus_interface_description]. unfold run_driver. rewrite E, bind_ret.
  do 4 eexists. split; [done|]. by split_and!.
Qed.


Lemma parse_run mo i resp g (Q : option Pm.DATA_PAYLOAD → World _ _ → Prop) :
  wp (Modbus.mosbus_response_parse serialize mo i resp) Q (mkWorld (Pm.mkMemory ∅ ∅) g.1 g.2) →
  ∃ p w, Pm.response_parse drv g mo i resp = Some ((w_glob w, w_env w), p) ∧ Q p w.
Proof.
  intros (p & w & E & HQ). exists p, w. split; [|done].
  cbn [Pm.response_parse Modbus.modbus_interface_description]. unfold run_driver. by rewrite E.
Qed.

Lemma devices_scheduled vs ds : devices vs ds → Forall scheduled_device ds.
Proof. induction 1; [constructor|done|by apply Forall_cons]. Qed.

Section made.
Context (m : Memory) (desc : LIST_INSTANCE) (l : list (positive * positive)) (ds : list device).
Hypothesis Hmade : made built m desc l ds.
Hypothesis Hds : Forall scheduled_device ds.

Lemma made_info a : a ∈ l.*2 → ∃ d info, d ∈ ds ∧ scheduled_device d ∧ Pm.infos m !! a = Some info ∧ built info d.
Proof using Hmade Hds.
  intros Ha. destruct (made_elem _ _ _ _ _ _ Hmade Ha) as (d & info & Hd & Ei & H).
  exists d, info. split; [done|]. split; [|done]. rewrite Forall_forall in Hds. by apply Hds.
Qed.

Lemma made_described a : a ∈ l.*2 → described m a.
Proof using Hmade Hds.
  intros (d & info & _ & _ & Ei & [Hr (t & Et & _) _])%made_info. by exists info, t, (Pm.mkRequest (Some (encode_request (d_addr d) (d_request d))) 8 (reply_length (d_request d))).
Qed.

(** ["schfrz"] and ["realtime"] devices are not on the same channel. *)
Definition unmixed : Prop :=
  Forall (λ d, d_mode d ≠ str "schfrz") ds ∨ Forall (λ d, d_mode d ≠ str "realtime") ds.

Lemma made_mode md s :
  (md = Schfrz ∧ s = str "schfrz") ∨ (md = Realtime ∧ s = str "realtime") →
  Forall (λ d, d_mode d ≠ s) ds → ¬ in_mode m l md.
Proof using Hmade Hds.
  intros Hmd Hno (a & i & t & [Ha Ei] & Et & Em).
  destruct (made_info a Ha) as (d & info & Hd & _ & Ei' & [_ (t' & Et' & Ec & _) _]).
  assert (info = i) as -> by congruence. assert (t' = t) as -> by congruence.
  rewrite Forall_forall in Hno. apply (Hno d Hd). unfold mode_of in Em.
  rewrite !(array_equal_cstr _ _ _ Ec) in Em by (apply (bool_decide_unpack _); by vm_compute).
  destruct Hmd as [[-> ->]|[-> ->]]; repeat case_bool_decide; done.
Qed.

Lemma modbus_sound : unmixed → sound drv m l supplied.
Proof using Hmade Hds.
  intros Hun. split.
  - intros a i0 i mo g buf [Ha Ei0] Hf Emo Hg Hb.
    destruct (made_info a Ha) as (d & info & _ & [Hd _] & Ei & [Hr _ (mo' & Emo' & Hmo)]).
    assert (info = i0) as -> by congruence. destruct (fixed_eq _ _ Hf) as (Er & Em & _).
    assert (mo' = mo) as -> by congruence. rewrite <- Er in Hr.
    destruct (parse_run _ _ _ g _ (response_parse_total serialize mo d i _ Hd Hmo Hr buf (mkWorld (Pm.mkMemory ∅ ∅) g.1 g.2) Hb Hg))
      as (p & w & E & Hp & Hres).
    do 2 eexists. split; [exact E|]. split; [done|]. intros p' ->.
    destruct Hres as [[=]|(vs & _ & _ & topic & [= ->] & _)]. by eexists.
  - intros a i [Ha Ei]. destruct (made_info a Ha) as (d & info & _ & _ & Ei' & [_ _ (mo & E & _)]).
    assert (info = i) as <- by congruence. by eexists.
  - intros a i t [Ha Ei] Et. destruct (made_info a Ha) as (d & info & _ & _ & Ei' & [_ (t' & Et' & _ & _ & _ & _ & [H1 _] & [H2 _]) _]).
    assert (info = i) as -> by congruence. assert (t' = t) as -> by congruence. done.
  - destruct Hun as [H|H]; [left|right]; by eapply made_mode; eauto.
Qed.
End made.
End driver.

(** What is printed of a signed register with swapped bytes, and of an unsigned one. *)
Example reading_swapped : tenth_text (reading (mkPoint [] false true) 200) = str "-1433.60".
Proof. by vm_compute. Qed.
Example reading_plain : tenth_text (reading (mkPoint [] true false) 2304) = str "230.40".
Proof. by vm_compute. Qed.

(** ** A concrete model *)

(** One device with the address 17: two holding registers, the second signed and
    in the other byte order, polled every 4 seconds. *)
Definition demo_json_time : JSON :=
  JSONObject [(str "InvMons", JSONNumber (-1)); (str "InvDays", JSONNumber (-1));
              (str "InvHous", JSONNumber (-1)); (str "InvMins", JSONNumber 0)].

Definition demo_json_register (name format : string) (big : Z) : list (list Z * JSON) :=
  [(str "id", JSONNumber 1); (str "address", JSONNumber 0); (str "big", JSONNumber big);
   (str "m", JSONString (str name)); (str "df", JSONString (str format)); (str "math", JSONString [])].

Definition demo_json_model : list (list Z * JSON) :=
  [(str "acqMode", JSONString (str "realtime")); (str "DBTopic", JSONString (str "meter/1"));
   (str "startTime", demo_json_time); (str "endTime", demo_json_time);
   (str "acqInt", JSONNumber 4); (str "fn", JSONNumber 3); (str "devAddr", JSONNumber 17);
   (str "regGrp", JSONArray [JSONObject (demo_json_register "Ua" "u16" 0);
                             JSONObject (demo_json_register "Ia" "i16" 1)])].

Definition demo_inv : Modbus.Inv := Modbus.mkInv (-1) (-1) (-1) 0.

Definition demo_device : device :=
  mkDevice false 17 [mkPoint (str "Ua") true false; mkPoint (str "Ia") false true]
    (str "meter/1") (str "realtime") 4 demo_inv demo_inv.

Lemma text_cstring s : bool_decide (cstring s) = true → cstring s.
Proof. apply bool_decide_eq_true_1. Defined.

Lemma demo_scheduled : scheduled_device demo_device.
Proof.
  split; [split|split; (split; [|split; [|split]]); cbn; lia].
  - split; [done|by intros [=]].
  - cbn. lia.
  - split; [by apply text_cstring|cbn; lia].
  - split; [by apply text_cstring|cbn; lia].
Defined.

Lemma demo_register_json name format big (p : point) :
  p_name p = str name → bool_decide (cstring (str name)) = true → (length (str name) < 32)%nat →
  bool_decide (cstring (str format)) = true → (length (str format) < 8)%nat →
  p_unsigned p = bool_decide (str format = str "u16") →
  0 <= big < 256 → (big =? 0) = negb (p_swapped p) →
  register_json_for (demo_json_register name format big) p.
Proof.
  intros Hn Hs Hl Hf Hfl Hu Hb Hbig. split; [by eexists|by eexists| | | |].
  - exists big. split; [|by rewrite u8_id].
    unfold Modbus.get_int.
    change (json_object_dotget_number _ (str "big")) with big.
    by rewrite (proj2 (Z.leb_le _ _)), (proj2 (Z.ltb_lt _ _)) by lia.
  - rewrite Hn. split; [done|]. split; [by apply text_cstring|done].
  - eexists. split; [done|]. split; [by apply text_cstring|done].
  - eexists. split; [done|]. split; [constructor|cbn; lia].
Defined.

Lemma demo_model_json : model_json_for demo_json_model demo_device.
Proof.
  split; try done. eexists. split; [done|]. constructor; [|constructor; [|constructor]].
  - eexists. split; [done|]. apply demo_register_json; cbn; done || lia.
  - eexists. split; [done|]. apply demo_register_json; cbn; done || lia.
Defined.

Lemma demo_devices : devices [JSONObject demo_json_model; JSONNull] [demo_device].
Proof.
  apply devices_cons; [apply demo_model_json|apply demo_scheduled|].
  apply devices_skip; [done|constructor].
Defined.

Definition demo_globals : Globals :=
  (controller, mkEnv [Some (λ k, Z.of_nat k mod 256)] [1700000000]).

Lemma demo_supplied : supplied demo_globals.
Proof. repeat constructor. by eexists. Defined.

(** A serialiser that keeps the strings. *)
Fixpoint demo_text (v : JSON) : list Z :=
  match v with
  | JSONString s => 34 :: s
  | JSONArray l => (fix texts l := match l with [] => [] | v :: l => demo_text v ++ texts l end) l
  | JSONObject o => (fix texts o := match o with [] => [] | (n, v) :: o => n ++ demo_text v ++ texts o end) o
  | _ => []
  end.

(** ** The properties *)



(** C14: a device's reply to its request is published as the readings of exactly
    its registers, under the topic of the device, with the time of the clock;
    any other bytes publish nothing, or well-formed readings of all its
    registers, and never go wrong. *)
Theorem modbus_response_published serialize info mo d (g : Globals) :
  wf_device d → built info d → Pm.model_info info = Some mo → supplied g →
  let parse buf := Pm.response_parse (Modbus.modbus_interface_description serialize) g mo info
                     (Pm.mkResponse buf (u8 (Z.of_nat (length buf)))) in
  (∀ vs, words vs → length vs = length (d_points d) →
     ∃ g' p, parse (reading_reply d vs) = Some (g', p) ∧ supplied g' ∧
       reports serialize (hd 0 (times g.2)) d vs p) ∧
  (∀ buf, bytes buf →
     ∃ g' p, parse buf = Some (g', p) ∧ supplied g' ∧
       (p = None ∨ ∃ vs, words vs ∧ length vs = length (d_points d) ∧
          reports serialize (hd 0 (times g.2)) d vs p)).
Proof.
  intros Hd [Hr _ (mo' & Emo' & Hmo)] Emo Hg parse. assert (mo' = mo) as -> by congruence.
  set (w := mkWorld (Pm.mkMemory ∅ ∅ : Memory) g.1 g.2). split.
  - intros vs Hw Hl.
    destruct (parse_run serialize _ _ _ g _ (response_parse_reply serialize mo d info _ Hd Hmo Hr vs w Hw Hl Hg))
      as (p & w' & E & Hp & Hplenty & _). by exists (w_glob w', w_env w'), p.
  - intros buf Hb.
    destruct (parse_run serialize _ _ _ g _ (response_parse_total serialize mo d info _ Hd Hmo Hr buf w Hb Hg))
      as (p & w' & E & Hplenty & Hp). by exists (w_glob w', w_env w'), p.
Qed.

Lemma modbus_response_published_witness :
  ∃ info mo g' p, built info demo_device ∧
    Pm.response_parse (Modbus.modbus_interface_description demo_text) demo_globals mo info
      (Pm.mkResponse (reading_reply demo_device [100; 200]) 9) = Some (g', p) ∧
    reports demo_text 1700000000 demo_device [100; 200] p.
Proof.
  destruct (construct_made demo_text (Pm.mkMemory ∅ ∅) demo_globals [JSONObject demo_json_model; JSONNull]
    [demo_device] demo_devices demo_supplied) as (m & g & desc & l & _ & [_ Hb _] & _).
  inversion Hb as [|pa d l' ds' (info & _ & Hinfo) _]; subst.
  destruct (built_model _ _ Hinfo) as (mo & Emo & _).
  destruct (modbus_response_published demo_text info mo demo_device demo_globals) as [H _];
    [apply demo_scheduled|done|done|apply demo_supplied|].
  destruct (H [100; 200]) as (g' & p & E & _ & Hp); [repeat constructor; unfold is_u16; lia|done|].
  by exists info, mo, g', p.
Defined.

(** The driver under the manager. *)
Section thread.
Context (serialize : JSON → list Z) (W : Z) (localtime : Z → tm).
Hypothesis clock : ∀ z, clock_ok (localtime z).
Abbreviation drv := (Modbus.modbus_interface_description serialize).
Context (m0 : Memory) (desc : LIST_INSTANCE) (l : list (positive * positive)) (ds : list device).
Hypothesis Hmade : made built m0 desc l ds.
Hypothesis Hds : Forall scheduled_device ds.

(** A slave's reply to the request that was just sent is published. *)
Lemma exchange {S : Type} `{ServerLaws S} (s : Thread Modbus.MODBUS_MODEL_INFO Globals) a r tick tr
    (sv : S) d i0 regs :
  polls drv m0 l s → supplied (glob s) → trace s = Sent tick a r :: tr →
  Pm.infos m0 !! a = Some i0 → built i0 d → wf_device d →
  server_ok sv → server_address sv = d_addr d →
  (if d_input d then inputRegisters else registers) (server_data sv) = Some regs →
  d_count d <= (if d_input d then inputRegisterCount else registerCount) (server_data sv) →
  let vs := take (length (d_points d)) regs in
  ∃ sv' s' p,
    receive sv (encode_request (d_addr d) (d_request d)) = Some (Some (reading_reply d vs), sv') ∧
    xio_dowork [BytesReceived true (reading_reply d vs)] s = Some s' ∧
    reports serialize (hd 0 (times (glob s).2)) d vs (Some p) ∧
    trace s' = Published p :: Got (reading_reply d vs) :: trace s ∧
    task_lock (map s') = false ∧ time_out_count (map s') = 0.
Proof using.
  intros Hp Hg Et Ei0 [Hr _ (mo & Emo & Hmo)] Hd Hok Haddr Hregs Hcount vs.
  pose proof (d_request_wf d Hd) as Hwf. pose proof (wf_count _ Hd) as Hc.
  destruct (receive_own sv (d_request d) Hok Hwf) as (sv' & Hrecv & _). rewrite Haddr in Hrecv.
  assert (words_ok ((if d_input d then inputRegisterCount else registerCount) (server_data sv))
    (Some regs)) as [_ Hw].
  { rewrite <- Hregs. pose proof (server_ok_data _ Hok) as Hdata. destruct (d_input d); apply Hdata. }
  destruct (Hw regs eq_refl) as [Hwords Hlen].
  assert (length vs = length (d_points d)) as Hvs.
  { unfold vs. rewrite length_take. unfold d_count in *. lia. }
  assert (words vs) as Hwvs by by apply Forall_take.
  assert (reply_frame (d_addr d) (server_data sv) (d_request d) = reading_reply d vs) as Hreply.
  { unfold reply_frame, d_request, reading_reply. cbn [serve].
    rewrite (proj2 (Z.eqb_neq _ 0)), (proj2 (Z.ltb_ge 125 _)) by (unfold d_count; lia). cbn [orb].
    assert ((if d_input d then inputRegisters (server_data sv) else registers (server_data sv)) = Some regs) as ->
      by by destruct (d_input d).
    rewrite (proj2 (Z.ltb_ge _ _)) by (rewrite Z.add_0_l; by destruct (d_input d)).
    rewrite drop_0. unfold vs, d_count. by rewrite Nat2Z.id. }
  rewrite Hreply in Hrecv. exists sv'.
  destruct (reception_published drv m0 l (reading_reply d vs) s a i0 mo
    (λ p, reports serialize (hd 0 (times (glob s).2)) d vs (Some p))) as (s' & p & E & HQ & Htr & Hlk & Hct);
    [done|by rewrite Et|done|done|done| |].
  - intros i Hf. destruct (fixed_eq _ _ Hf) as (Er & _ & _). rewrite <- Er in Hr.
    destruct (parse_run serialize _ _ _ (glob s) _ (response_parse_reply serialize mo d i _ Hd Hmo Hr vs
      (mkWorld (Pm.mkMemory ∅ ∅) (glob s).1 (glob s).2) Hwvs Hvs Hg)) as (o & w & E & Ho & _).
    destruct Ho as (topic & -> & Htopic). do 2 eexists. split; [exact E|]. split; [by eexists|]. by exists topic.
  - exists s', p. split; [done|]. cbn [xio_dowork]. by rewrite E, bind_ret.
Qed.

(** The last request of a run. *)
Lemma run_exchange s s' inputs tick a r tr :
  unmixed ds → fresh drv m0 l s → supplied (glob s) → audible inputs →
  run W localtime inputs s = Some s' → trace s' = Sent tick a r :: tr →
  polls drv m0 l s' ∧ supplied (glob s') ∧
  ∃ d i0, d ∈ ds ∧ scheduled_device d ∧ Pm.infos m0 !! a = Some i0 ∧ built i0 d ∧
    Pm.data_request i0 = Some r.
Proof using clock Hmade Hds.
  intros Hun Hf Hg Hh Hrun Htr. pose proof (fresh_polls _ _ _ _ Hf) as Hp.
  pose proof (modbus_sound serialize m0 desc l ds Hmade Hds Hun) as Hs.
  pose proof (run_good W localtime drv m0 l supplied inputs s s' Hs Hp Hg Hh Hrun) as Hg'.
  destruct (run_asked W localtime drv m0 l inputs s s' Hp) as [Hp' Hasked]; [|done|].
  { rewrite (fresh_trace _ _ _ _ Hf). intros ? ? ? Hin. by apply elem_of_nil in Hin. }
  split; [done|]. split; [done|].
  destruct (Hasked tick a r) as (i0 & [Ha Ei0] & Er); [by rewrite Htr; left|].
  destruct (made_info m0 desc l ds Hmade Hds a Ha) as (d & info & Hd & Hsd & Ei & Hb).
  assert (info = i0) as -> by congruence. by exists d, i0.
Qed.
End thread.

(** A thread that is started with a new manager. *)
Definition started {M G} (h : Pm.PM_INSTANCE M G) (m : Pm.Memory M) (g : G) (key : list Z) : Thread M G :=
  mkThread (mkMap (Some h) false false 0 key) m g None [].

Lemma started_fresh {M G} itf (h : Pm.PM_INSTANCE M G) m g key l :
  manages m h l 0 → Pm.interface h = itf → Pm.curr_data_info h = None →
  fresh itf m l (started h m g key).
Proof. intros. split; try done. by exists h. Qed.

(** The JSON configuration of a Modbus channel. *)
Record modbus_json (json : option (list (list Z * JSON))) (name : list Z) (ds : list device) : Prop := {
  mj_proto : json_object_dotget_string json (str "protoType") = Some (str "MODBUS");
  mj_name : json_object_dotget_string json (str "name") = Some name ∧ cstring name ∧ (length name < 32)%nat;
  mj_body : ∃ vs, json_object_dotget_array json (str "body") = Some vs ∧ devices vs ds;
  mj_some : ds ≠ [] }.

Lemma modbus_manager serialize dlt698 name_mem (m : Memory) (g : Globals) json name ds :
  modbus_json json name ds → length name_mem = 33%nat → supplied g →
  let drv := Modbus.modbus_interface_description serialize in
  ∃ h m' g' desc l, Pm.protocol_init drv dlt698 true name_mem m g json = Some (m', g', Some h) ∧
    made built m' desc l ds ∧ Forall scheduled_device ds ∧ supplied g' ∧
    (∀ key, fresh drv m' l (started h m' g' key)).
Proof.
  intros [Hproto (Ename & Hname & Hnl) (vs & Ebody & Hds) Hne] Hmem Hg drv.
  destruct (construct_made serialize m g vs ds Hds Hg) as (m' & g' & desc & l & Econ & Hmade & _ & Hg').
  pose proof (devices_scheduled _ _ Hds) as Hsd.
  destruct (manager_ready drv dlt698 name_mem m g json (str "MODBUS") name drv vs m' g' desc l)
    as (h & E & _ & Hi & Hc & Hman); try done.
  - by apply made_list in Hmade.
  - intros ->. destruct Hmade as [_ Hb _]. by inversion Hb; subst.
  - by eapply made_described.
  - exists h, m', g', desc, l. split; [done|]. split; [done|]. split; [done|]. split; [done|].
    intros key. by apply started_fresh.
Qed.


Definition demo_json : option (list (list Z * JSON)) :=
  Some [(str "protoType", JSONString (str "MODBUS")); (str "name", JSONString (str "line 1"));
        (str "body", JSONArray [JSONObject demo_json_model; JSONNull])].

Lemma demo_modbus_json : modbus_json demo_json (str "line 1") [demo_device].
Proof.
  split; [done| | |done].
  - split; [done|]. split; [by apply text_cstring|cbn; lia].
  - eexists. split; [done|]. apply demo_devices.
Defined.

Lemma demo_unmixed : unmixed [demo_device].
Proof. left. repeat constructor. by intros [=]. Defined.

Definition demo_dlt698 : Pm.INTER_DESCRIPTION Modbus.MODBUS_MODEL_INFO Globals :=
  Modbus.modbus_interface_description demo_text.

(** The trace of a run of the concrete channel. *)
Definition demo_trace (inputs : list input) : option (list output) :=
  match Pm.protocol_init demo_dlt698 demo_dlt698 true (replicate 33 0) (Pm.mkMemory ∅ ∅) demo_globals demo_json with
  | Some (m, g, Some h) => trace <$> run demo_W demo_clock inputs (started h m g [])
  | _ => None
  end.

Definition demo_request : Pm.DATA_REQUEST :=
  Pm.mkRequest (Some (encode_request 17 (d_request demo_device))) 8 9.

Lemma demo_sends : demo_trace [mkInput [] 6000 0] = Some [Sent 6000 1 demo_request].
Proof. by vm_compute. Defined.


(** C16: a poll from end to end.  The last request of a running Modbus thread is
    the frame of one of its devices, and when a slave with this address and these
    registers is on the line, it answers with a frame that the thread publishes
    at once as the values of the slave's registers; the thread is then free to
    send the next request. *)
Theorem modbus_exchange serialize W localtime (m0 : Memory) desc l ds s s' inputs tick a r tr :
  let drv := Modbus.modbus_interface_description serialize in
  (∀ z, clock_ok (localtime z)) → made built m0 desc l ds → Forall scheduled_device ds → unmixed ds →
  fresh drv m0 l s → supplied (glob s) → audible inputs →
  run W localtime inputs s = Some s' → trace s' = Sent tick a r :: tr →
  ∃ d, d ∈ ds ∧ Pm.data r = Some (encode_request (d_addr d) (d_request d)) ∧
    ∀ (S : Type) (HS : Server S) (HL : ServerLaws S) (sv : S) regs,
      server_ok sv → server_address sv = d_addr d →
      (if d_input d then inputRegisters else registers) (server_data sv) = Some regs →
      d_count d <= (if d_input d then inputRegisterCount else registerCount) (server_data sv) →
      let reply := reading_reply d (take (length (d_points d)) regs) in
      ∃ sv' s2 p,
        receive sv (encode_request (d_addr d) (d_request d)) = Some (Some reply, sv') ∧
        xio_dowork [BytesReceived true reply] s' = Some s2 ∧
        reports serialize (hd 0 (times (glob s').2)) d (take (length (d_points d)) regs) (Some p) ∧
        trace s2 = Published p :: Got reply :: trace s' ∧
        task_lock (map s2) = false ∧ time_out_count (map s2) = 0.
Proof.
  intros drv Hclock Hmade Hsd Hun Hf Hg Hh Hrun Htr.
  destruct (run_exchange serialize W localtime Hclock m0 desc l ds Hmade Hsd s s' inputs tick a r tr
    Hun Hf Hg Hh Hrun Htr) as (Hp & Hg' & d & i0 & Hd & [Hwd _] & Ei0 & Hb & Er).
  exists d. split; [done|]. split.
  { destruct Hb as [Hr _ _]. rewrite Hr in Er. by injection Er as <-. }
  intros S HS HL sv regs Hok Haddr Hregs Hc. by eapply exchange.
Qed.

Lemma modbus_exchange_witness :
  ∃ h m' g' s', Pm.protocol_init demo_dlt698 demo_dlt698 true (replicate 33 0) (Pm.mkMemory ∅ ∅) demo_globals demo_json
      = Some (m', g', Some h) ∧
    run demo_W demo_clock [mkInput [] 6000 0] (started h m' g' []) = Some s' ∧
    ∃ sv' s2 p, receive plant (encode_request 17 (d_request demo_device)) =
        Some (Some (reading_reply demo_device [100; 200]), sv') ∧
      xio_dowork [BytesReceived true (reading_reply demo_device [100; 200])] s' = Some s2 ∧
      reports demo_text (hd 0 (times (glob s').2)) demo_device [100; 200] (Some p) ∧
      trace s2 = [Published p; Got (reading_reply demo_device [100; 200]); Sent 6000 1 demo_request] ∧
      task_lock (map s2) = false ∧ time_out_count (map s2) = 0.
Proof.
  destruct (modbus_manager demo_text demo_dlt698 (replicate 33 0) (Pm.mkMemory ∅ ∅) demo_globals
    demo_json (str "line 1") [demo_device] demo_modbus_json eq_refl demo_supplied)
    as (h & m' & g' & desc & l & E & Hmade & Hsd & Hg' & Hf).
  pose proof demo_sends as Hsent. unfold demo_trace in Hsent.
  change demo_dlt698 with (Modbus.modbus_interface_description demo_text) in Hsent at 1.
  rewrite E in Hsent. destruct (run _ _ _ _) as [s'|] eqn:Er in Hsent; [|discriminate Hsent].
  cbn [fmap option_fmap option_map] in Hsent. injection Hsent as Hsent.
  exists h, m', g', s'. split; [exact E|]. split; [exact Er|].
  assert (audible [mkInput [] 6000 0]) as Ha by repeat constructor.
  destruct (modbus_exchange demo_text demo_W demo_clock m' desc l [demo_device] _ s' _ _ _ _ _
    demo_clock_ok Hmade Hsd demo_unmixed (Hf []) Hg' Ha Er Hsent)
    as (d & Hd & _ & Hex).
  apply list_elem_of_singleton in Hd as ->. rewrite <- Hsent.
  exact (Hex ModbusSlave _ _ plant [100; 200; 300; 400] plant_ok eq_refl eq_refl ltac:(by vm_compute)).
Defined.
