(* ===== verification/IotDlt698Theory.v ===== *)
(** * IotDlt698Theory: what the DL/T 698.45 driver makes of models and responses.

    [meter] is the model of a meter without its texts.  The driver builds the
    request frame of a meter ([built]) and publishes the readings of a response. *)
From S2P Require Import Prelude.
From S2P Require Import Utils.
From S2P Require Import Dlt698.
From S2P Require Import Dlt698Spec.
From S2P Require Import Dlt698Theory.
From S2P Require Import Dlt698Properties.
From S2P Require Import CString.
From S2P Require Import Json.
From S2P Require Import Printf.
From S2P Require Import SinglyLinkedList.
From S2P Require Import ProtocolManager.
From S2P Require Import Effects.
From S2P Require Import Driver.
From S2P Require Import IotModbus.
From S2P Require Import IotDlt698.
From stdpp Require Import gmap strings.
From S2P Require Import IotMain.
From S2P Require Import PollTheory.
From S2P Require Import IotModbusTheory.
#[local] Open Scope Z_scope.

(** ** Scanning *)

(** A text of hexadecimal digits, two for each byte. *)
Inductive spells : list Z → list Z → Prop :=
  | spells_nil s : spells s []
  | spells_cons c d s v w bs :
      hex_value c = Some v → hex_value d = Some w → spells s bs →
      spells (c :: d :: s) (16 * v + w :: bs).

Lemma hex_value_digit c v :
  hex_value c = Some v → 48 <= c <= 57 ∨ 65 <= c <= 70 ∨ 97 <= c <= 102.
Proof. unfold hex_value. repeat case_match; intros; lia || done. Qed.

Lemma scan_hex_digits c d s v w :
  hex_value c = Some v → hex_value d = Some w → scan_hex (c :: d :: s) = Some (16 * v + w, s).
Proof.
  intros Hc Hd. pose proof (hex_value_digit _ _ Hc) as Rc. pose proof (hex_value_digit _ _ Hd) as Rd.
  unfold scan_hex. cbn [skip_space].
  assert (is_space c = false) as ->.
  { unfold is_space. apply orb_false_iff. split; [by apply Z.eqb_neq; lia|].
    apply andb_false_iff. right. by apply Z.leb_gt; lia. }
  transitivity (v0 ← hex_value c; (if (c =? 48) && ((d =? 120) || (d =? 88)) then None
    else match hex_value d with Some w0 => Some (16 * v0 + w0, s) | None => Some (v0, d :: s) end)).
  { destruct c as [|p|p]; try done. do 6 (destruct p as [p|p|]; try done); lia. }
  rewrite Hc, bind_ret, Hd.
  assert ((d =? 120) || (d =? 88) = false) as -> by (apply orb_false_iff; split; apply Z.eqb_neq; lia).
  by rewrite andb_false_r.
Qed.

Lemma scan_bytes_spells a s bs : spells s bs → length a = length bs → scan_bytes a s = bs.
Proof.
  intros Hs. revert a. induction Hs as [s|c d s v w bs Hc Hd Hs IH]; intros a Hl; [by destruct a|].
  destruct a as [|x a]; [done|]. cbn [scan_bytes]. rewrite (scan_hex_digits _ _ _ _ _ Hc Hd).
  f_equal. apply IH. by injection Hl.
Qed.

(** ** Meters *)

(** [mt_math]: the power of ten of the readings. *)
Record meter := mkMeter {
  mt_oad : list Z; mt_addr : list Z; mt_name : list Z; mt_math : Z; mt_topic : list Z;
  mt_mode : list Z; mt_interval : Z; mt_start : Modbus.Inv; mt_end : Modbus.Inv }.

(** The object and the address have their length, the texts fit the driver's
    arrays, the schedule is one, and the interval is not 0. *)
Record wf_meter (mt : meter) : Prop := {
  wm_oad : bytes (mt_oad mt) ∧ length (mt_oad mt) = 4%nat;
  wm_addr : bytes (mt_addr mt) ∧ length (mt_addr mt) = 6%nat;
  wm_name : cstring (mt_name mt) ∧ (length (mt_name mt) < 32)%nat;
  wm_topic : cstring (mt_topic mt) ∧ (length (mt_topic mt) < 64)%nat;
  wm_mode : cstring (mt_mode mt) ∧ (length (mt_mode mt) < 32)%nat;
  wm_start : wf_inv (mt_start mt);
  wm_end : wf_inv (mt_end mt) }.

(** The driver's model of a meter. *)
Record meter_model (mo : Dlt.DLT698_MODEL_INFO) (mt : meter) : Prop := {
  mm_oad : Dlt.oad (Dlt.acqFile mo) = mt_oad mt;
  mm_addr : Dlt.addr (Dlt.acqFile mo) = mt_addr mt;
  mm_name : cstr (Dlt.acq_m (Dlt.acqFile mo)) = Some (mt_name mt);
  mm_math : (s ← cstr (Dlt.math (Dlt.acqFile mo)); atoi s) = Some (mt_math mt);
  mm_topic : cstr (Dlt.DBTopic mo) = Some (mt_topic mt);
  mm_mode : cstr (Dlt.acqMode mo) = Some (mt_mode mt);
  mm_interval : Dlt.acqInt mo = mt_interval mt;
  mm_start : Dlt.startInv mo = mt_start mt;
  mm_end : Dlt.endInv mo = mt_end mt }.

(** A JSON model of a meter. *)
Record meter_json_for (o : list (list Z * JSON)) (mt : meter) : Prop := {
  me_interval : Modbus.get_int (Some o) (str "acqInt") = Some (mt_interval mt) ∧ mt_interval mt ≠ 0;
  me_mode : json_object_dotget_string (Some o) (str "acqMode") = Some (mt_mode mt);
  me_topic : json_object_dotget_string (Some o) (str "DBTopic") = Some (mt_topic mt);
  me_start : ∃ v, json_object_dotget_object (Some o) (str "startTime") = Some v ∧
    Modbus.get_inv (Some v) = Some (mt_start mt);
  me_end : ∃ v, json_object_dotget_object (Some o) (str "endTime") = Some v ∧
    Modbus.get_inv (Some v) = Some (mt_end mt);
  me_file : ∃ f, json_object_dotget_object (Some o) (str "AcqFile") = Some f ∧
    is_Some (Modbus.get_int (Some f) (str "id")) ∧ is_Some (Modbus.get_int (Some f) (str "big")) ∧
    json_object_dotget_string (Some f) (str "m") = Some (mt_name mt) ∧
    (∃ t, json_object_dotget_string (Some f) (str "math") = Some t ∧ cstring t ∧
       (length t < 32)%nat ∧ atoi t = Some (mt_math mt)) ∧
    (∃ t, json_object_dotget_string (Some f) (str "oad") = Some t ∧ spells t (mt_oad mt)) ∧
    (∃ t, json_object_dotget_string (Some f) (str "addr") = Some t ∧ spells t (mt_addr mt)) }.

Lemma parse_text_spec blk s n :
  cstring s → (length s < n <= length blk)%nat →
  ∃ d, Dlt.parse_text blk (Some s) n = Some (Some d) ∧ cstr d = Some s.
Proof.
  intros Hs Hn. destruct (strncpy_short blk s n Hs Hn) as (d & E & Hd & _).
  exists d. unfold Dlt.parse_text. by rewrite E.
Qed.

Lemma parse_inv_spec v i : Modbus.get_inv (Some v) = Some i → Dlt.parse_inv (Some v) = Some (Some i).
Proof. intros E. unfold Dlt.parse_inv. by rewrite E. Qed.

Lemma get_int_number o n v : Modbus.get_int o n = Some v → json_object_dotget_number o n = v.
Proof. unfold Modbus.get_int. destruct (_ && _); [|done]. by intros [= ->]. Qed.

Lemma parse_acq_file_spec blk o mt :
  wf_meter mt → meter_json_for o mt → length blk = 76%nat →
  ∃ f, Dlt.parse_acq_file blk (json_object_dotget_object (Some o) (str "AcqFile")) = Some (Some f) ∧
    Dlt.oad f = mt_oad mt ∧ Dlt.addr f = mt_addr mt ∧ cstr (Dlt.acq_m f) = Some (mt_name mt) ∧
    (s ← cstr (Dlt.math f); atoi s) = Some (mt_math mt).
Proof.
  intros [[_ Ho] [_ Ha] [Hn Hnl] _ _ _ _] Hj Hblk.
  destruct (me_file _ _ Hj) as (f & -> & [i Ei] & [b Eb] & Em & (t & Et & Ht & Htl & Hmath)
    & (to & Eo & Hto) & (ta & Ea & Hta)).
  unfold Dlt.parse_acq_file. rewrite Ei, bind_ret, Eb, bind_ret, Em, Et, Eo, Ea.
  destruct (parse_text_spec (take 33 blk) (mt_name mt) 32 Hn) as (d1 & -> & E1); [rewrite length_take; lia|].
  destruct (parse_text_spec (take 33 (drop 33 blk)) t 32 Ht) as (d2 & -> & E2);
    [rewrite length_take, length_drop; lia|].
  rewrite !bind_ret. eexists. split; [done|]. cbn [Dlt.oad Dlt.addr Dlt.acq_m Dlt.math].
  rewrite E2, bind_ret. split_and!; [| |done|done].
  - apply scan_bytes_spells; [done|]. rewrite length_take, length_drop. lia.
  - apply scan_bytes_spells; [done|]. rewrite length_take, length_drop. lia.
Qed.

Abbreviation DltWorld := (World Dlt.DLT698_MODEL_INFO (list Z)).

Lemma parse_meter_spec o mt (w : DltWorld) :
  wf_meter mt → meter_json_for o mt → plenty (w_env w) →
  wp (Dlt.parse_dlt698_model_by_json (Some o))
    (λ r w', ∃ mo, r = Some mo ∧ meter_model mo mt ∧ w_mem w' = w_mem w ∧ w_glob w' = w_glob w ∧
       plenty (w_env w')) w.
Proof.
  intros Hw Hj Hp. unfold Dlt.parse_dlt698_model_by_json.
  apply wp_bind, wp_block; [done|]. intros blk e Hblk He Ht. unfold Dlt.MODEL_bytes in Hblk.
  destruct (wm_mode _ Hw) as [Hm Hml]. destruct (wm_topic _ Hw) as [Htp Htpl].
  destruct (parse_text_spec (take 33 blk) (mt_mode mt) 32 Hm) as (d1 & E1 & C1); [rewrite length_take; lia|].
  destruct (parse_text_spec (take 65 (drop 33 blk)) (mt_topic mt) 64 Htp) as (d2 & E2 & C2);
    [rewrite length_take, length_drop; lia|].
  destruct (parse_acq_file_spec (drop 98 blk) o mt Hw Hj) as (f & Ef & F1 & F2 & F3 & F4);
    [rewrite length_drop; lia|].
  destruct (me_start _ _ Hj) as (vs & Es & Hs). destruct (me_end _ _ Hj) as (ve & Ee & Hen).
  destruct (me_interval _ _ Hj) as [Ei Hi].
  eapply wp_lift.
  { unfold Dlt.parse_interval. rewrite (get_int_number _ _ _ Ei), (proj2 (Z.eqb_neq _ 0) Hi), Ei, !bind_ret.
    rewrite (me_mode _ _ Hj), E1, bind_ret, (me_topic _ _ Hj), E2, bind_ret.
    rewrite Es, (parse_inv_spec _ _ Hs), bind_ret, Ee, (parse_inv_spec _ _ Hen), bind_ret.
    rewrite Ef, !bind_ret. done. }
  eexists. split; [done|]. split; [|by split_and!]. by split.
Qed.

(** ** Descriptions *)

(** The request frame of a meter. *)
Definition meter_frame (mt : meter) : list Z :=
  replicate 4 0xFE ++ encode_frame 0x43 0 (reverse (mt_addr mt)) 0 (get_request 1 (mt_oad mt)).

Record meter_built (info : Pm.PM_DATA_INFO Dlt.DLT698_MODEL_INFO) (mt : meter) : Prop := {
  mb_request : ∃ data predicted, Pm.data_request info = Some (Pm.mkRequest (Some data) 29 predicted) ∧
    take 29 data = meter_frame mt;
  mb_time : ∃ t, Pm.time_to_send info = Some t ∧
    cstr (Pm.acqMode t) = Some (mt_mode mt) ∧ Pm.packetSendTime t = 0 ∧
    Pm.acqInt t = mt_interval mt ∧ Pm.freezing t = false ∧
    calendar_for (mt_start mt) (Pm.startTime t) ∧ calendar_for (mt_end mt) (Pm.endTime t);
  mb_model : ∃ mo, Pm.model_info info = Some mo ∧ meter_model mo mt }.

(** The static buffer has room for a request. *)
Definition roomy (Buffer : list Z) : Prop := (29 <= length Buffer)%nat.

Lemma length_meter_frame mt : wf_meter mt → length (meter_frame mt) = 29%nat.
Proof.
  intros [[_ Ho] [_ Ha] _ _ _ _ _]. unfold meter_frame. rewrite length_app, length_encode_frame.
  unfold get_request. rewrite !length_app, length_reverse, Ho, Ha. done.
Qed.

Lemma data_create_spec mo mt (w : DltWorld) :
  wf_meter mt → meter_model mo mt → roomy (w_glob w) → plenty (w_env w) →
  wp (Dlt.dlt698_data_create mo)
    (λ r w', ∃ a info, r = Some a ∧ Pm.infos (w_mem w) !! a = None ∧
       Pm.infos (w_mem w') !! a = Some info ∧ meter_built info mt ∧
       (∀ b, b ≠ a → Pm.infos (w_mem w') !! b = Pm.infos (w_mem w) !! b) ∧
       Pm.items (w_mem w') = Pm.items (w_mem w) ∧ roomy (w_glob w') ∧ plenty (w_env w')) w.
Proof.
  intros Hw Hmo Hroom Hp. unfold Dlt.dlt698_data_create.
  apply wp_bind, wp_malloc_ok; [done|]. intros e1 Hp1 _. cbn [negb].
  apply wp_bind, wp_block; [done|]. intros blk e2 Hblk Hp2 _.
  destruct (wm_mode _ Hw) as [Hm Hml].
  destruct (make_time_spec blk _ _ (Dlt.acqInt mo) _ _ (mm_mode _ _ Hmo) Hm Hml (wm_start _ Hw) (wm_end _ Hw) Hblk)
    as (t & Etime & Ht).
  apply wp_bind. eapply wp_lift; [by rewrite (mm_start _ _ Hmo), (mm_end _ _ Hmo)|].
  apply wp_bind, wp_block; [done|]. intros blk4 e3 Hblk4 Hp3 _.
  destruct blk4 as [|x0 [|x1 [|x2 [|x3 [|]]]]]; try done.
  apply wp_bind. eapply wp_lift; [done|]. apply wp_bind, wp_block; [done|]. intros fr e4 Hfr Hp4 _.
  apply wp_bind, wp_global. cbn [w_glob put_env].
  destruct (wm_oad _ Hw) as [Ho Hol]. destruct (wm_addr _ Hw) as [Ha Hal].
  destruct (packet_build_frame fr (w_glob w) (mt_oad mt) (mt_addr mt)) as (B & EB & HB);
    [done..|unfold MAX_SIZE_OF_PACKET_DATA in Hfr; lia|].
  apply wp_bind. eapply wp_lift; [by rewrite (mm_oad _ _ Hmo), (mm_addr _ _ Hmo)|].
  apply wp_bind, wp_put. apply wp_bind. set (info := Pm.mkInfo _ _ _).
  pose proof (is_fresh (dom (Pm.infos (w_mem w)))) as Hf. rewrite not_elem_of_dom in Hf.
  do 2 eexists. split; [done|]. apply wp_ret.
  do 2 eexists. split; [done|]. cbn [w_mem Pm.infos Pm.items w_env w_glob put_env].
  split; [done|]. split; [apply lookup_insert_eq|]. split; [|split; [|split; [done|split; [|done]]]].
  - split; [| |by exists mo].
    + do 2 eexists. split; [done|]. rewrite app_assoc. apply take_app_length'.
      by rewrite (length_meter_frame mt).
    + exists t. split; [done|]. rewrite (mm_interval _ _ Hmo) in Ht. exact Ht.
  - intros b Hb. by apply lookup_insert_ne.
  - unfold roomy in *. lia.
Qed.

(** The meters of a JSON array; what is not an object is skipped. *)
Inductive meters : list JSON → list meter → Prop :=
  | meters_nil : meters [] []
  | meters_skip v vs ms : json_value_get_object (Some v) = None → meters vs ms → meters (v :: vs) ms
  | meters_cons o vs mt ms :
      meter_json_for o mt → wf_meter mt → meters vs ms → meters (JSONObject o :: vs) (mt :: ms).

Lemma dlt_init_loop_spec m0 vs ms lst l ms0 (w : DltWorld) :
  meters vs ms → made meter_built (w_mem w) lst l ms0 → without (w_mem w) l m0 →
  roomy (w_glob w) → plenty (w_env w) →
  wp (Dlt.dlt_init_loop lst vs)
    (λ r w', ∃ lst' l', r = (lst', true) ∧ made meter_built (w_mem w') lst' l' (ms0 ++ ms) ∧
       without (w_mem w') l' m0 ∧ roomy (w_glob w') ∧ plenty (w_env w')) w.
Proof.
  intros Hms. revert lst l ms0 w.
  induction Hms as [|v vs ms Ev _ IH|o vs mt ms Hj Hd _ IH]; intros lst l ms0 w Hm Hwo Hr Hp;
    cbn [Dlt.dlt_init_loop].
  - apply wp_ret. rewrite app_nil_r. by exists lst, l.
  - rewrite Ev. by eapply IH.
  - cbn [json_value_get_object]. apply wp_bind. eapply wp_mono; [by apply parse_meter_spec|].
    intros r w1 (mo & -> & Hmo & E1 & E2 & Hp1). rewrite <- E1 in Hm, Hwo. rewrite <- E2 in Hr.
    apply wp_bind. eapply wp_mono; [by apply (data_create_spec mo mt)|].
    intros r w2 (a & info & -> & Hfresh & Ea & Hb & Hother & Eit & Hr2 & Hp2).
    apply wp_bind. eapply wp_mono; [by eapply add_item_made|].
    intros lst' w3 (l' & Hm' & Hwo' & Eg & Hp3). rewrite <- Eg in Hr2.
    eapply wp_mono; [by eapply IH|]. intros r w4 (lst4 & l4 & -> & Hm4 & Hwo4 & Hr4 & Hp4).
    exists lst4, l4. rewrite <- app_assoc in Hm4. by split_and!.
Qed.

Lemma dlt_init_spec vs ms (w : DltWorld) :
  meters vs ms → roomy (w_glob w) → plenty (w_env w) →
  wp (Dlt.dlt698_init vs)
    (λ r w', ∃ lst l, r = Some lst ∧ made meter_built (w_mem w') lst l ms ∧
       without (w_mem w') l (w_mem w) ∧ roomy (w_glob w') ∧ plenty (w_env w')) w.
Proof.
  intros Hms Hr Hp. unfold Dlt.dlt698_init. apply wp_bind, wp_malloc_ok; [done|]. intros e1 Hp1 _.
  cbn [negb]. apply wp_bind, wp_malloc_ok; [done|]. intros e2 Hp2 _. unfold singlylinkedlist_create.
  apply wp_bind. eapply wp_mono; [apply (dlt_init_loop_spec (w_mem w) vs ms _ [] []); [done| | |done|done]|].
  - apply made_nil.
  - apply without_nil.
  - intros r w' (lst & l & -> & Hm & Hwo & Hr' & Hp'). apply wp_ret. exists lst, l. by split_and!.
Qed.

Lemma dlt_destroy_spec m desc l ms (w : DltWorld) :
  made meter_built m desc l ms → w_mem w = m →
  ∃ w', Dlt.dlt698_destroy (Some desc) w = Some (tt, w') ∧ without m l (w_mem w').
Proof.
  intros Hm Ew. destruct (free_made _ Dlt.dlt_release m desc l ms w Hm Ew) as (lst & m' & E & Hl & Hwo).
  { intros i mt [(data & pl & Hr & _) _ _]. unfold Dlt.dlt_release. by rewrite Hr. }
  unfold Dlt.dlt698_destroy. rewrite Ew, E, bind_ret. unfold Dlt.empty_list. cbn [w_mem].
  assert (SinglyLinkedList.head lst = None) as Eh by apply Hl.
  unfold singlylinkedlist_destroy, fuel. cbn [destroy_loop]. rewrite Eh, bind_ret.
  eexists. split; [done|]. by destruct m'.
Qed.

(** ** Responses *)

Section response.
Context (serialize : JSON → list Z) (value_text : Z → Z → list Z).
(** The text of a number has no 0. *)
Hypothesis text_ok : ∀ math v, cstring (value_text math v).

(** The readings of a response: arrays of double-longs whose texts fit the
    driver's array of 32 bytes. *)
Definition readable (math : Z) (vs : list (Z * Z)) : Prop :=
  vs ≠ [] ∧ Forall is_long vs ∧ (length vs < 256)%nat ∧
  (length (joined_text (value_text math) vs) < 32)%nat.

(** What is published of them. *)
Definition meter_text (now : Z) (mt : meter) (arrays : list (list (Z * Z))) : list Z :=
  serialize (Dlt.dlt_payload_json now (bool_decide (mt_mode mt = str "realtime"))
    ((λ vs, JSONObject [(str "name", JSONString (mt_name mt));
                        (str "val", JSONString (joined_text (value_text (mt_math mt)) vs))]) <$> arrays)).

Lemma joined_cstring math vs : cstring (joined_text (value_text math) vs).
Proof using text_ok.
  induction vs as [|v vs IH]; [constructor|]. cbn [joined_text]. apply Forall_app. split; [apply text_ok|].
  apply Forall_app. split; [|done]. destruct (length vs =? 0)%nat; repeat constructor. done.
Qed.

Lemma array_in_memory (d : list Z) n ptr :
  take n (default [] ptr) = d → d ≠ [] → ∃ p, ptr = Some p ∧ p = d ++ drop n p.
Proof using.
  destruct ptr as [p|]; cbn [default from_option id].
  - intros <- _. exists p. split; [done|]. by rewrite take_drop.
  - intros <- H. destruct n; done.
Qed.

Lemma dlt_body_spec m name math units arrays res :
  Forall (readable math) arrays → cstr m = Some name → length res = 32%nat →
  (unit_value <$> units).*2 = long_array <$> arrays →
  Dlt.dlt_body_json value_text units m res math =
    Some ((λ vs, JSONObject [(str "name", JSONString name);
                             (str "val", JSONString (joined_text (value_text math) vs))]) <$> arrays).
Proof using text_ok.
  intros Ha Em. revert units res. induction Ha as [|vs arrays (Hne & Hlong & Hlen & Hfit) Ha IH];
    intros [|u units] res Hres Eu; try done.
  injection Eu as Eu Erest. cbn [Dlt.dlt_body_json].
  destruct (array_in_memory (long_array vs) (Z.to_nat (uwLen u)) (ucPtr u)) as (p & -> & Ep); [done|done|].
  rewrite bind_ret, Ep, (convert_array _ vs _ res Hne Hlong Hlen) by lia. cbv zeta.
  set (T := joined_text (value_text math) vs) in *. rewrite Hres, (proj2 (Nat.ltb_lt _ _) Hfit), bind_ret.
  rewrite Em, bind_ret. cbn [app]. rewrite cstr_terminated, bind_ret by apply joined_cstring.
  rewrite IH; [by rewrite bind_ret| |done].
  rewrite length_app. cbn [length]. rewrite length_drop, Hres. lia.
Qed.

(** A payload with the readings of a meter. *)
Definition meter_reports (now : Z) (mt : meter) (arrays : list (list (Z * Z)))
    (p : option Pm.DATA_PAYLOAD) : Prop :=
  ∃ topic, p = Some (Pm.mkPayload (Some (meter_text now mt arrays)) topic) ∧
    cstr topic = Some (mt_topic mt).

Lemma dlt_response_spec mo mt info k c lg sa ca rs apdu rest len arrays (w : DltWorld) :
  wf_meter mt → meter_model mo mt → wf_link c lg sa ca apdu →
  preamble_ok k (9 + Z.of_nat (length sa) + Z.of_nat (length apdu)) c →
  get_response rs apdu → Forall wf_result rs →
  (report rs).*2 = long_array <$> arrays → Forall (readable (mt_math mt)) arrays →
  plenty (w_env w) →
  wp (Dlt.dlt698_response_parse serialize value_text mo info
        (Pm.mkResponse (replicate k 0xFE ++ encode_frame c lg sa ca apdu ++ rest) len))
    (λ p w', meter_reports (hd 0 (times (w_env w))) mt arrays p ∧ w_glob w' = w_glob w ∧
       plenty (w_env w')) w.
Proof using text_ok.
  intros Hw Hmo Hlink Hpre Hresp Hrs Harr Hread Hp.
  destruct (analysis_reported k c lg sa ca rs apdu rest len Hlink Hpre Hresp Hrs) as (coll & Ecoll & Hrep).
  unfold Dlt.dlt698_response_parse. apply wp_bind. eapply wp_lift; [exact Ecoll|].
  apply wp_bind, wp_time. apply wp_bind. eapply wp_lift; [apply (mm_math _ _ Hmo)|].
  apply wp_bind. eapply wp_lift.
  { eapply (dlt_body_spec _ _ _ _ arrays); [exact Hread|apply (mm_name _ _ Hmo)|done|].
    fold (reported coll). by rewrite Hrep, Harr. }
  rewrite (array_equal_cstr _ (mt_mode mt)) by (apply (mm_mode _ _ Hmo) || (apply (bool_decide_unpack _); by vm_compute)).
  apply wp_bind, wp_block; [done|]. intros blk e Hblk He _.
  apply wp_bind, wp_malloc_ok; [done|]. intros e2 He2 _. cbn [negb].
  destruct (wm_topic _ Hw) as [Htp Htpl].
  destruct (strncpy_short blk (mt_topic mt) 64 Htp) as (topic & Etopic & Ctopic & _); [lia|].
  apply wp_bind. eapply wp_lift.
  { rewrite (cstrn_cstr 64 _ (mt_topic mt)) by (apply (mm_topic _ _ Hmo) || lia). exact Etopic. }
  apply wp_ret. split; [by exists topic|]. by split.
Qed.
End response.
