(* ===== verification/IotDlt698Properties.v ===== *)
(** * IotDlt698Properties: the contract of the DL/T 698.45 driver.

    [meter_models_built]: from JSON models to descriptions and back;
    [meter_response_published]: from a response frame to the published text. *)
From S2P Require Import Prelude.
From S2P Require Import Utils.
From S2P Require Import Dlt698.
From S2P Require Import Dlt698Spec.
From S2P Require Import Dlt698Theory.
From S2P Require Import Dlt698Properties.
From S2P Require Import CString.
From S2P Require Import Json.
From S2P Require Import Printf.
From S2P Require Import SinglyLinkedList.
From S2P Require Import ProtocolManager.
From S2P Require Import Effects.
From S2P Require Import Driver.
From S2P Require Import IotModbus.
From S2P Require Import IotDlt698.
From stdpp Require Import gmap strings.
From S2P Require Import IotMain.
From S2P Require Import PollTheory.
From S2P Require Import IotModbusTheory.
From S2P Require Import IotModbusProperties.
From S2P Require Import IotDlt698Theory.
#[local] Open Scope Z_scope.

Abbreviation MeterMemory := (Pm.Memory Dlt.DLT698_MODEL_INFO).
Abbreviation MeterGlobals := (list Z * Env)%type.

(** The buffer has room and the allocations of the coming calls succeed. *)
Definition equipped (g : MeterGlobals) : Prop := roomy g.1 ∧ plenty g.2.

(** ** A concrete meter *)

(** The energy of the meter 112233445566, in hundredths, every 60 seconds. *)
Definition demo_meter : meter :=
  mkMeter energy_oad meter_addr (str "energy") (-2) (str "meter/7") (str "realtime") 60 demo_inv demo_inv.

Definition demo_meter_json : list (list Z * JSON) :=
  [(str "acqMode", JSONString (str "realtime")); (str "DBTopic", JSONString (str "meter/7"));
   (str "startTime", demo_json_time); (str "endTime", demo_json_time); (str "acqInt", JSONNumber 60);
   (str "AcqFile", JSONObject [(str "id", JSONNumber 1); (str "big", JSONNumber 0);
      (str "m", JSONString (str "energy")); (str "math", JSONString (str "-2"));
      (str "oad", JSONString (str "00100200")); (str "addr", JSONString (str "112233445566"))])].

Lemma demo_wf_meter : wf_meter demo_meter.
Proof.
  split; try (split; [by apply text_cstring|cbn; lia]).
  - split; [apply (bool_decide_unpack _); by vm_compute|done].
  - split; [apply (bool_decide_unpack _); by vm_compute|done].
  - split; [|split; [|split]]; cbn; lia.
  - split; [|split; [|split]]; cbn; lia.
Defined.

(** A text of one byte, computed. *)
Lemma spells_byte c d s v w b bs :
  hex_value c = Some v → hex_value d = Some w → b = 16 * v + w → spells s bs → spells (c :: d :: s) (b :: bs).
Proof. intros Hc Hd -> Hs. by constructor. Defined.

Lemma demo_meter_for : meter_json_for demo_meter_json demo_meter.
Proof.
  split; try done; try (eexists; by split).
  eexists. split; [done|]. split; [by eexists|]. split; [by eexists|]. split; [done|].
  split; [|split].
  - eexists. split; [done|]. split; [by apply text_cstring|]. split; [cbn; lia|done].
  - eexists. split; [done|]. repeat (eapply spells_byte; [done|done|done|]). constructor.
  - eexists. split; [done|]. repeat (eapply spells_byte; [done|done|done|]). constructor.
Defined.

Lemma demo_meters : meters [JSONObject demo_meter_json; JSONNull] [demo_meter].
Proof.
  apply meters_cons; [apply demo_meter_for|apply demo_wf_meter|]. apply meters_skip; [done|constructor].
Defined.

Definition demo_meter_globals : MeterGlobals := (replicate 1024 0, mkEnv [Some (λ k, Z.of_nat k)] [1700000000]).

Lemma demo_equipped : equipped demo_meter_globals.
Proof. split; [unfold roomy; cbn; lia|]. repeat constructor. by eexists. Defined.


(** A stand-in for a number that is always printed the same way. *)
Definition demo_fixed (math v : Z) : list Z := str "12.34".

(** ** The properties *)



(** C18: from a meter's response frame (leading bytes included, whatever follows
    it in memory) whose results are arrays of readings that fit the driver's
    array, the driver publishes exactly the texts of these readings, in order,
    under the name, topic and mode of the meter; objects the meter refused are
    left out. *)
Theorem meter_response_published serialize value_text info mo mt (g : MeterGlobals)
    k c lg sa ca rs apdu rest arrays :
  (∀ math v, cstring (value_text math v)) →
  wf_meter mt → meter_built info mt → Pm.model_info info = Some mo → plenty g.2 →
  wf_link c lg sa ca apdu → preamble_ok k (9 + Z.of_nat (length sa) + Z.of_nat (length apdu)) c →
  get_response rs apdu → Forall wf_result rs →
  (report rs).*2 = long_array <$> arrays → Forall (readable value_text (mt_math mt)) arrays →
  let buf := replicate k 0xFE ++ encode_frame c lg sa ca apdu ++ rest in
  ∃ g' p, Pm.response_parse (Dlt.dlt698_interface_description serialize value_text) g mo info
      (Pm.mkResponse buf (u8 (Z.of_nat (length buf)))) = Some (g', p) ∧ g'.1 = g.1 ∧ plenty g'.2 ∧
    meter_reports serialize value_text (hd 0 (times g.2)) mt arrays p.
Proof.
  intros Htext Hw [_ _ (mo' & Emo' & Hmo)] Emo Hp Hlink Hpre Hresp Hrs Harr Hread buf.
  assert (mo' = mo) as -> by congruence.
  destruct (dlt_response_spec serialize value_text Htext mo mt info k c lg sa ca rs apdu rest
    (u8 (Z.of_nat (length buf))) arrays (mkWorld (Pm.mkMemory ∅ ∅) g.1 g.2)
    Hw Hmo Hlink Hpre Hresp Hrs Harr Hread Hp) as (p & w & E & Hrep & Eg & Hp').
  exists (w_glob w, w_env w), p. cbn [Pm.response_parse Dlt.dlt698_interface_description].
  unfold run_driver. fold buf in E. rewrite E. by split_and!.
Qed.

(** Two readings of the meter; it refuses a second object. *)
Lemma meter_response_published_witness :
  let buf := replicate 4 0xFE ++ encode_frame 0xC3 0 (reverse meter_addr) 0 answer_apdu ++ [] in
  ∃ info mo g' p, meter_built info demo_meter ∧
    Pm.response_parse (Dlt.dlt698_interface_description demo_text demo_fixed) demo_meter_globals mo info
      (Pm.mkResponse buf (u8 (Z.of_nat (length buf)))) = Some (g', p) ∧
    g'.1 = demo_meter_globals.1 ∧ plenty g'.2 ∧
    meter_reports demo_text demo_fixed 1700000000 demo_meter [[(6, 1234); (6, 7)]] p.
Proof.
  intros buf. destruct (dlt_init_spec _ _ (mkWorld (Pm.mkMemory ∅ ∅) demo_meter_globals.1 demo_meter_globals.2)
    demo_meters (proj1 demo_equipped) (proj2 demo_equipped)) as (r & w & _ & desc & l & _ & [_ Hb _] & _).
  inversion Hb as [|pa mt l' ms' (info & _ & Hinfo) _]; subst.
  destruct (mb_model _ _ Hinfo) as (mo & Emo & _).
  destruct (meter_response_published demo_text demo_fixed info mo demo_meter demo_meter_globals
    4 0xC3 0 (reverse meter_addr) 0 answers answer_apdu [] [[(6, 1234); (6, 7)]]) as (g' & p & E & H).
  - intros math v. by apply text_cstring.
  - apply demo_wf_meter.
  - done.
  - done.
  - apply demo_equipped.
  - apply answer_link.
  - vm_compute. split_and!; try discriminate; lia.
  - apply answer_apdu_ok.
  - apply answers_ok.
  - done.
  - constructor; [|constructor]. split; [done|]. split; [|split; [cbn; lia|cbn; lia]].
    assert (is_long (6, 1234) ∧ is_long (6, 7)) as [H1 H2] by (split; (split; [simpl; auto|simpl; lia])).
    by repeat apply Forall_cons_2.
  - exists info, mo, g', p. split; [exact Hinfo|]. split; [exact E|exact H].
Defined.

(** A response of one byte is read behind its end: the driver does not tell the
    library how much it received. *)
Example short_response_undefined :
  Pm.response_parse (Dlt.dlt698_interface_description demo_text demo_fixed) demo_meter_globals
    (Dlt.mkModel demo_inv demo_inv [0] [0] 60 (Dlt.mkAcqFile 1 0 energy_oad meter_addr [0] [0]))
    (Pm.mkInfo None None None) (Pm.mkResponse [0x68] 1) = None.
Proof. by vm_compute. Qed.
