(* ===== verification/IotDriverLaws.v ===== *)
(** * IotDriverLaws: both drivers keep the promise of a driver.

    [DriverLaws] is what the agent relies on; [modbus_laws] and [dlt698_laws] show that
    the Modbus and the DL/T 698.45 driver promise it, for the models whose devices
    [devices] and [meters] describe. *)
From S2P Require Import Prelude.
From S2P Require Import CString.
From S2P Require Import Json.
From S2P Require Import SinglyLinkedList.
From S2P Require Import ProtocolManager.
From S2P Require Import Effects.
From S2P Require Import Driver.
From S2P Require Import ModbusMaster.
From S2P Require Import IotModbus.
From S2P Require Import IotDlt698.
From stdpp Require Import gmap strings.
From S2P Require Import IotMain.
From S2P Require Import PollTheory.
From S2P Require Import IotStartTheory.
From S2P Require Import IotModbusTheory.
From S2P Require Import IotModbusProperties.
From S2P Require Import IotDlt698Theory.
From S2P Require Import IotDlt698Properties.
#[local] Open Scope Z_scope.

(** ** A list of descriptions and its owner *)

Section owned.
Context {M G D : Type} (built : Pm.PM_DATA_INFO M → D → Prop) (describes : list JSON → list D → Prop).
Implicit Types (m : Pm.Memory M) (l : list (positive * positive)) (w : World M G).

(** As it was made, up to what a thread changes. *)
Definition owned (body : list JSON) m (desc : LIST_INSTANCE) l : Prop := ∃ m1 ds,
  describes body ds ∧ made built m1 desc l ds ∧
  (∀ p, p ∈ l.*1 → Pm.items m !! p = Pm.items m1 !! p) ∧
  (∀ a, a ∈ l.*2 → fixed <$> Pm.infos m !! a = fixed <$> Pm.infos m1 !! a).

Lemma owned_frame body m m' desc l :
  owned body m desc l → (∀ p, p ∈ l.*1 → Pm.items m' !! p = Pm.items m !! p) →
  (∀ a, a ∈ l.*2 → fixed <$> Pm.infos m' !! a = fixed <$> Pm.infos m !! a) → owned body m' desc l.
Proof.
  intros (m1 & ds & Hd & Hm & Hi & Hf) Hi' Hf'. exists m1, ds. split; [done|]. split; [done|]. split.
  - intros p Hp. rewrite Hi' by done. by apply Hi.
  - intros a Ha. rewrite Hf' by done. by apply Hf.
Qed.

Lemma made_owned body ds m desc l :
  describes body ds → made built m desc l ds →
  owned body m desc l ∧ (∀ p, p ∈ l.*1 → is_Some (Pm.items m !! p)) ∧ (∀ a, a ∈ l.*2 → is_Some (Pm.infos m !! a)).
Proof.
  intros Hd Hm. split; [by exists m, ds|]. split.
  - intros p Hp. destruct Hm as [[Hs _ _] _ _]. by eapply lseg_lookup.
  - intros a Ha. destruct (made_elem _ _ _ _ _ _ Hm Ha) as (d & i & _ & Ei & _). by eexists.
Qed.

(** It can be released. *)
Lemma owned_freed release body desc l w :
  owned body (w_mem w) desc l → (∀ i d i', built i d → fixed i' = fixed i → release i' = Some None) →
  ∃ lst m', free_items release (fuel (Pm.items (w_mem w))) desc w = Some (lst, mkWorld m' (w_glob w) (w_env w)) ∧
    is_list (Pm.items m') lst [] ∧ without (w_mem w) l m'.
Proof.
  intros (m1 & ds & Hd & Hm & Hi & Hf) Hrel. pose proof Hm as [[Hs Ht Hn] _ Hnd].
  assert (is_list (Pm.items (w_mem w)) desc l) as Hl.
  { split; [|done|done]. eapply lseg_frame; [|exact Hs]. done. }
  apply free_items_spec; [|done|done|].
  - intros a Ha. destruct (made_elem _ _ _ _ _ _ Hm Ha) as (d & i & _ & Ei & Hb). specialize (Hf a Ha). rewrite Ei in Hf.
    destruct (Pm.infos (w_mem w) !! a) as [i'|]; [|done]. exists i'. split; [done|]. eapply Hrel; [exact Hb|].
    by apply (inj Some) in Hf.
  - destruct Hl as [Hs' _ _]. pose proof (lseg_fuel _ _ _ _ Hs' Hn). lia.
Qed.

End owned.

(** ** What a computation of a driver leaves alone *)

(** A relation on the worlds that allocations and the clock do not leave, as long as
    the supply of memory lasts. *)
Class EnvRelation {M G : Type} (R : World M G → World M G → Prop) := {
  env_relation_pre : PreOrder R;
  env_relation_step w e : (plenty (w_env w) → plenty e) → R w (put_env e w) }.
#[export] Existing Instance env_relation_pre.

Section env.
Context {M G : Type}.
Implicit Types (w : World M G).

Definition lasting w w' : Prop := plenty (w_env w) → plenty (w_env w').
Definition steady w w' : Prop := w_glob w' = w_glob w ∧ lasting w w'.

#[export] Instance lasting_env : EnvRelation lasting.
Proof.
  split; [|by intros w e He]. split; [intros w Hp; exact Hp|]. intros w1 w2 w3 H1 H2 ?. auto.
Qed.

#[export] Instance steady_env : EnvRelation steady.
Proof.
  split; [|intros w e He; by split]. split; [intros w; by split|]. intros w1 w2 w3 [? ?] [? ?]. split; [congruence|by etrans].
Qed.

Context (R : World M G → World M G → Prop) `{!EnvRelation R}.

Lemma keeps_malloc n : keeps R (malloc n) (λ _, True).
Proof.
  intros w x w'. unfold malloc. destruct (allocs (w_env w)) as [|c cs] eqn:E; intros [= <- <-]; (split; [|done]); [reflexivity|].
  apply env_relation_step. unfold plenty. rewrite E. by intros [_ ?]%Forall_cons.
Qed.

Lemma keeps_time : keeps R time (λ _, True).
Proof.
  intros w x w'. unfold time. destruct (times (w_env w)); intros [= <- <-]; (split; [|done]); [reflexivity|].
  by apply env_relation_step.
Qed.

Lemma keeps_read_global : keeps R get (λ _, True).
Proof. intros w x w' [= <- <-]. by split. Qed.

Lemma stays_seq {A B} (d : ST (World M G) A) (f : A → ST (World M G) B) :
  keeps R d (λ _, True) → (∀ x, keeps R (f x) (λ _, True)) → keeps R (d ≫= f) (λ _, True).
Proof. intros Hd Hf. eapply keeps_then; [apply _|exact Hd|]. intros x _. apply Hf. Qed.

Lemma keeps_malloc_ok : keeps R malloc_ok (λ _, True).
Proof. apply stays_seq; [apply keeps_malloc|]. intros x. apply keeps_ret; [apply _|done]. Qed.
End env.

Lemma keeps_put {M G} (g : G) : keeps lasting (put g : ST (World M G) _) (λ _, True).
Proof. intros w x w' [= <- <-]. split; [intros Hp; exact Hp|done]. Qed.

(** One effect after the other. *)
Ltac env_step :=
  first [ apply keeps_malloc; apply _ | apply keeps_malloc_ok; apply _ | apply keeps_time; apply _
        | apply keeps_read_global; apply _ | apply keeps_put
        | apply keeps_ret; [apply _|done] | apply keeps_lift; [apply _|done]
        | apply stays_seq; [apply _| |intros ?] | case_match ].

(** ** Modbus *)

Lemma modbus_lasting serialize mo i r : keeps lasting (Modbus.mosbus_response_parse serialize mo i r) (λ _, True).
Proof. unfold Modbus.mosbus_response_parse, Modbus.construct_payload_by_model. repeat env_step. Qed.

Lemma modbus_destroys serialize m g body desc l :
  owned built devices body m desc l →
  ∃ m' g', Pm.Destroy (Modbus.modbus_interface_description serialize) m g (Some desc) = Some (m', g') ∧
    g'.2 = g.2 ∧ without m l m'.
Proof.
  intros Ho. destruct (owned_freed built devices Modbus.release body desc l (mkWorld m g.1 g.2) Ho) as (lst & m' & E & Hl & Hwo).
  { intros i d i' [Hr _ _] Hf. apply fixed_eq in Hf as (Er & _). unfold Modbus.release. by rewrite Er, Hr. }
  cbn [Pm.Destroy Modbus.modbus_interface_description]. unfold run_driver, Modbus.modbus_destroy. cbn [w_mem] in E.
  cbn [w_mem]. rewrite E, bind_ret. cbn [w_mem].
  assert (SinglyLinkedList.head lst = None) as Eh by apply Hl.
  unfold singlylinkedlist_destroy, fuel. cbn [destroy_loop]. rewrite Eh, !bind_ret.
  do 2 eexists. split; [reflexivity|]. by destruct m'.
Qed.

#[export] Instance modbus_laws serialize : DriverLaws supplied (Modbus.modbus_interface_description serialize) .
Proof.
  apply (Build_DriverLaws _ _ _ _ (λ vs, ∃ ds, devices vs ds) (owned built devices)).
  - apply owned_frame.
  - intros m g body Hg (ds & Hds). destruct (construct_made serialize m g body ds Hds Hg) as (m' & g' & desc & l & E & Hm & Hwo & Hg').
    exists m', g', desc, l. split; [done|]. split; [done|]. destruct (made_owned _ _ _ _ _ _ _ Hds Hm) as (? & ? & ?). done.
  - intros m g body desc l Hg Ho. destruct (modbus_destroys serialize m g body desc l Ho) as (m' & g' & E & E2 & Hwo).
    exists m', g'. split; [done|]. split; [|done]. unfold supplied in *. by rewrite E2.
  - intros g mo i r g' p Hg E. cbn [Pm.response_parse Modbus.modbus_interface_description] in E.
    apply bind_Some in E as ([[m' g1] p'] & E & [= <- <-]). unfold run_driver in E.
    apply bind_Some in E as ([x w] & E & [= _ <- _]). by apply modbus_lasting in E as [E _]; apply E.
Defined.

(** ** DL/T 698.45 *)

Lemma dlt_steady serialize value_text mo i r : keeps steady (Dlt.dlt698_response_parse serialize value_text mo i r) (λ _, True).
Proof. unfold Dlt.dlt698_response_parse. repeat env_step. Qed.

Lemma dlt_destroys serialize value_text m g body desc l :
  owned meter_built meters body m desc l →
  ∃ m', Pm.Destroy (Dlt.dlt698_interface_description serialize value_text) m g (Some desc) = Some (m', g) ∧ without m l m'.
Proof.
  intros Ho. destruct (owned_freed meter_built meters Dlt.dlt_release body desc l (mkWorld m g.1 g.2) Ho) as (lst & m' & E & Hl & Hwo).
  { intros i mt i' [(data & pl & Hr & _) _ _] Hf. apply fixed_eq in Hf as (Er & _). unfold Dlt.dlt_release. by rewrite Er, Hr. }
  cbn [Pm.Destroy Dlt.dlt698_interface_description]. unfold run_driver, Dlt.dlt698_destroy. cbn [w_mem] in *.
  rewrite E, bind_ret. unfold Dlt.empty_list. cbn [w_mem].
  assert (SinglyLinkedList.head lst = None) as Eh by apply Hl.
  unfold singlylinkedlist_destroy, fuel. cbn [destroy_loop]. rewrite Eh, !bind_ret.
  eexists. split; [by destruct g|]. by destruct m'.
Qed.

#[export] Instance dlt698_laws serialize value_text : DriverLaws equipped (Dlt.dlt698_interface_description serialize value_text).
Proof.
  apply (Build_DriverLaws _ _ _ _ (λ vs, ∃ ms, meters vs ms) (owned meter_built meters)).
  - apply owned_frame.
  - intros m g body [Hr Hp] (ms & Hms).
    destruct (dlt_init_spec body ms (mkWorld m g.1 g.2) Hms Hr Hp) as (r & w & E & desc & l & -> & Hm & Hwo & Hr' & Hp').
    exists (w_mem w), (w_glob w, w_env w), desc, l. cbn [Pm.Construct Dlt.dlt698_interface_description]. unfold run_driver.
    rewrite E, bind_ret. split; [done|]. split; [done|]. destruct (made_owned _ _ _ _ _ _ _ Hms Hm) as (? & ? & ?). done.
  - intros m g body desc l Hg Ho. destruct (dlt_destroys serialize value_text m g body desc l Ho) as (m' & E & Hwo). by exists m', g.
  - intros g mo i r g' p [Hr Hp] E. cbn [Pm.response_parse Dlt.dlt698_interface_description] in E.
    apply bind_Some in E as ([[m' g1] p'] & E & [= <- <-]). unfold run_driver in E.
    apply bind_Some in E as ([x w] & E & [= _ <- _]). apply dlt_steady in E as [[E1 E2] _]. split; cbn in *; [by rewrite E1|by apply E2].
Defined.
