(* ===== verification/IotStartProperties.v ===== *)
(** * IotStartProperties: channels, models and the life of the agent.

    [channels_configured] and [models_bound]: what the two messages of the broker do;
    [agent_invariant]: what holds of the process after any sequence of messages and
    iterations; [agent_latched]: after one channel of an unknown port type the agent
    obeys nothing any more; [rebound_thread_undefined]: binding a model again while the
    line is locked.  The examples run the agent with the Modbus driver. *)
From S2P Require Import Prelude.
From S2P Require Import Effects.
From S2P Require Import Driver.
From S2P Require Import Alloc.
From S2P Require Import CString.
From S2P Require Import Json.
From S2P Require Import SinglyLinkedList.
From S2P Require Import Registry.
From S2P Require Import ChannelModel.
From S2P Require Import ChannelTheory.
From S2P Require Import ProtocolManager.
From S2P Require Import IotModbus.
From S2P Require Import IotMain.
From S2P Require Import PollTheory.
From S2P Require Import PollProperties.
From S2P Require Import IotModbusProperties.
From S2P Require Import IotDriverLaws.
From S2P Require Import IotStart.
From S2P Require Import IotStartTheory.
From S2P Require Import IotChannelTheory.
From S2P Require Import IotBindTheory.
From S2P Require Import IotAgentTheory.
From stdpp Require Import gmap strings.
#[local] Open Scope Z_scope.

Import Channel.
Import Start.

(** ** A concrete agent *)

Definition text_field (name value : string) : list Z * JSON := (str name, JSONString (str value)).

(** A channel on a serial line, for the model ["line 1"]. *)
Definition demo_channel (portType : string) : JSON := JSONObject
  [text_field "timeOut" "500"; text_field "dev" "meter"; text_field "protoType" "MODBUS"; text_field "modeltype" "line 1";
   (str "port", JSONObject
      [text_field "baudRate" "9600"; text_field "stopBit" "1"; text_field "dataBit" "8"; text_field "port" "502";
       text_field "ip" "10.0.0.1"; text_field "serialID" "COM1"; text_field "portType" portType; text_field "parity" "EVEN"])].

Definition with_body (l : list JSON) : JSON := JSONObject [(str "body", JSONArray l)].

(** The messages by their first character. *)
Definition demo_parse (text : list Z) : option JSON :=
  match text with
  | 67 :: _ => Some (with_body [demo_channel "serial"])
  | 77 :: _ => JSONObject <$> (o ← demo_json; Some [(str "body", JSONArray [JSONObject o])])
  | 85 :: _ => Some (with_body [demo_channel "serial"; demo_channel "radio"])
  | _ => None
  end.

Definition demo_drv : Pm.INTER_DESCRIPTION Modbus.MODBUS_MODEL_INFO Globals := Modbus.modbus_interface_description demo_text.

#[warnings="-notation-for-abbreviation"] Notation DemoAgent := (Agent Modbus.MODBUS_MODEL_INFO Globals).

Definition demo_agent : DemoAgent :=
  mkAgent (mkHeap [] 0) (mkStore ∅ ∅) (mkStore ∅ ∅) ∅ (Pm.mkMemory ∅ ∅) demo_globals ∅ ∅ None 0 false (mkOutside [] [] []).

Definition demo_run (evs : list event) : ST DemoAgent (list (option status)) :=
  run_agent demo_drv demo_drv demo_parse demo_W demo_clock evs.

(** The state after some events. *)
Definition demo_after (evs : list event) : DemoAgent :=
  match demo_run evs demo_agent with Some (_, s) => s | None => demo_agent end.

Lemma demo_agent_run evs rs : fst <$> demo_run evs demo_agent = Some rs → demo_run evs demo_agent = Some (rs, demo_after evs).
Proof. unfold demo_after. destruct (demo_run evs demo_agent) as [[rs' s]|]; [|done]. by intros [= ->]. Qed.

(** Channels, models, a request, the models again. *)
Definition demo_events : list event :=
  [ChannelMessage (str "C"); ModelMessage (str "M"); Iteration 1 (mkInput [] 6000 0)].

Lemma demo_first : fst <$> demo_run demo_events demo_agent = Some [Some OK; Some OK; None].
Proof. by vm_compute. Defined.

Definition demo_spec (portType : string) : ChannelSpec :=
  mkSpec 500 (str "meter") (str "MODBUS") (str "line 1") 9600 1 8 502 (str "10.0.0.1") (str "COM1") (str portType) 69.

Lemma demo_described portType : portType = "serial"%string ∨ portType = "radio"%string →
  ChannelTheory.described (object_of (demo_channel portType)) = Some (demo_spec portType).
Proof. intros [->| ->]; by vm_compute. Defined.

Lemma demo_legible portType : portType = "serial"%string ∨ portType = "radio"%string →
  legible (object_of (demo_channel portType)).
Proof. intros [->| ->]; vm_compute; split_and!; by eexists. Defined.

Lemma demo_portable portType : portType = "serial"%string ∨ portType = "radio"%string → portable (demo_spec portType).
Proof.
  intros Ht. split; cbn [demo_spec c_portType c_serialID c_host].
  - destruct Ht as [->| ->]; by apply text_cstring.
  - split; [by apply text_cstring|unfold MAX_SIZE_OF_SERIAL_ID; cbn; lia].
  - split; [by apply text_cstring|unfold MAX_SIZE_OF_HOST; cbn; lia].
Defined.

Lemma demo_running : running supplied demo_drv demo_drv demo_agent.
Proof.
  split; [|done|split; constructor|constructor]. exists [], [], []. split; [|by split; constructor].
  split; [done|]. split; [done|]. split; [|done]. split; [split; [constructor|done]..|]. split.
  - by split; [constructor|].
  - apply demo_supplied.
  - exists (λ _, []). by split; intros ? ? []%elem_of_nil.
Defined.

Lemma demo_channel_decent : decent supplied demo_drv demo_drv demo_parse (ChannelMessage (str "C")).
Proof.
  split.
  - intros j Hj. change (j ∈ [demo_channel "serial"]) in Hj. apply list_elem_of_singleton in Hj as ->.
    split; [apply demo_legible; by left|]. intros sp Hsp. unfold channel_means in Hsp.
    rewrite demo_described in Hsp by by left. injection Hsp as <-. apply demo_portable. by left.
  - intros body sps [= <-] H. apply Forall2_length in H. destruct sps as [|? [|? ?]]; try done.
    repeat constructor. apply not_elem_of_nil.
Defined.

Lemma demo_models_decent : decent supplied demo_drv demo_drv demo_parse (ModelMessage (str "M")).
Proof.
  intros body [= <-]. constructor; [|constructor]. intros name body E. vm_compute in E. injection E as <- <-.
  assert (accepts (itf:=demo_drv) [JSONObject demo_json_model; JSONNull]) as Hacc by (eexists; apply demo_devices).
  split; [by apply text_cstring|]. split; [cbn; lia|]. split; intros _; exact Hacc.
Defined.

Lemma demo_running_after evs rs :
  Forall (decent supplied demo_drv demo_drv demo_parse) evs → fst <$> demo_run evs demo_agent = Some rs →
  is_Some (g_pm_map_list (demo_after evs)) → running supplied demo_drv demo_drv (demo_after evs).
Proof.
  intros Hd E [lst El]. apply demo_agent_run in E.
  destruct (sane_run supplied demo_drv demo_drv demo_parse demo_W demo_clock evs demo_agent rs (demo_after evs)) as [Hr|[_ El']];
    [by left; apply demo_running|done|exact E|done|congruence].
Defined.

(** ** The properties *)



(** C32: a message with models binds to each map the last model with its name: a
    manager of this model made by its driver, and a new thread that has not sent
    anything; the map keeps its port, its lock and its counter of time-outs, and a map
    without a model keeps its manager and its thread.  The message is obeyed when the
    last model has a map; otherwise all maps, ports, threads and their managers are
    destroyed, also those the message has just bound. *)
Theorem models_bound {M G} (good : G → Prop) (modbus dlt698 : Pm.INTER_DESCRIPTION M G)
    `{!DriverLaws good modbus, !DriverLaws good dlt698} json_parse_string text body (s : Agent M G) lst l vs ms lost :
  bindable good modbus dlt698 s lst l vs ms lost → models_in json_parse_string text = Some body →
  Forall (λ j, acceptable good modbus dlt698 (json_value_get_object (Some j))) body →
  wp (thing_instance_construct modbus dlt698 json_parse_string text) (λ r s',
    let count := count_after (models_of body) (names_of vs) (g_thread_count s) in
    match r with
    | OK => count ≠ 0 ∧ kept s s' ∧ ∃ vs' ms' lost',
        bindable good modbus dlt698 s' lst l vs' ms' lost' ∧ Forall2 (served s s' ms ms' (models_of body)) vs vs'
    | FAILURE => count = 0 ∧ emptied good modbus dlt698 s s'
    end) s.
Proof.
  intros Hb Eb Hacc. eapply wp_thing_instance_construct; [exact Eb|exact Hacc|exact Hb| |].
  - intros vs' ms' lost' s' Hc Hb' Hs Hk. split; [done|]. split; [done|]. by exists vs', ms', lost'.
  - intros s' Hc He. by split.
Qed.

(** After [demo_channel], the model ["line 1"] gets its manager and its thread. *)
Lemma models_bound_witness :
  let s := demo_after [ChannelMessage (str "C")] in
  ∃ s', thing_instance_construct demo_drv demo_drv demo_parse (str "M") s = Some (OK, s') ∧
    ∃ lst l vs ms lost v p t, bindable supplied demo_drv demo_drv s' lst l vs ms lost ∧ v ∈ vs ∧ name_of v = str "line 1" ∧
      pm_handle v = Some p ∧ (p, (str "line 1", [JSONObject demo_json_model; JSONNull])) ∈ ms ∧
      task_thread v = Some t ∧ threads s' !! t = Some (None, []).
Proof.
  intros s. assert (is_Some (g_pm_map_list s)) as [lst El] by (vm_compute; by eexists).
  assert (running supplied demo_drv demo_drv s) as [(vs & ms & lost & Hm & Hn & Hp) _ Hw Hpl].
  { eapply (demo_running_after [_] [Some OK]); [|by vm_compute|by eexists].
    constructor; [apply demo_channel_decent|constructor]. }
  assert (fst <$> thing_instance_construct demo_drv demo_drv demo_parse (str "M") s = Some OK) as EO by by vm_compute.
  clearbody s. unfold IotChannelTheory.agent_has in Hm. rewrite El in Hm. destruct Hm as (l & Hm).
  assert (models_in demo_parse (str "M") = Some [JSONObject (default [] demo_json)]) as Eb by by vm_compute.
  assert (models_of [JSONObject (default [] demo_json)] = [(str "line 1", [JSONObject demo_json_model; JSONNull])]) as Emo
    by by vm_compute.
  destruct (models_bound supplied demo_drv demo_drv demo_parse (str "M") _ s lst l vs ms lost
    ltac:(by split) Eb (demo_models_decent _ Eb)) as (r & s' & E & Hr).
  rewrite E in EO. injection EO as ->. exists s'. split; [exact E|].
  destruct Hr as (Hc & _ & vs' & ms' & lost' & Hb & Hs). rewrite Emo in Hc, Hs.
  unfold count_after in Hc. cbn [last fst] in Hc. destruct (decide _) as [Hin|]; [|done].
  apply list_elem_of_fmap in Hin as (v & Hv & Hin). apply list_elem_of_lookup in Hin as (k & Ek).
  destruct (Forall2_lookup_l _ _ _ _ _ Hs Ek) as (v' & Ev' & Hv'). apply bound_served in Hv'. unfold bound in Hv'.
  rewrite decide_True in Hv' by done. destruct Hv' as (p & t & n & -> & Hin & Ht).
  exists lst, l, vs', ms', lost', (rebound p t n v), p, t. split; [exact Hb|]. split; [by eapply list_elem_of_lookup_2|]. by split_and!.
Defined.



(** After a message in which every channel has a meaning but one has a port of an
    unknown type, the message is refused and the agent has no maps, and from then on
    it refuses every message, in any order, however correct. *)
Theorem agent_latched {M G} (good : G → Prop) (modbus dlt698 : Pm.INTER_DESCRIPTION M G)
    `{!DriverLaws good modbus, !DriverLaws good dlt698} json_parse_string W localtime text body (s : Agent M G) :
  running good modbus dlt698 s → body_of (json_parse_string text) = Some body →
  (∀ j, j ∈ body → legible (object_of j) ∧ ∃ sp, channel_means j sp ∧ portable sp) →
  Exists (λ j, ∀ sp, channel_means j sp → config_of sp = None) body →
  wp (channel_instance_construct json_parse_string text) (λ r s', r = FAILURE ∧ g_pm_map_list s' = None ∧
    ∀ evs rs s'', run_agent modbus dlt698 json_parse_string W localtime evs s' = Some (rs, s'') →
      Forall (λ r, r = None ∨ r = Some FAILURE) rs) s.
Proof.
  intros Hr Eb Hj Hex. eapply wp_mono; [by eapply (wp_unknown_port good modbus dlt698)|].
  intros r s' [-> Hl]. split; [done|]. split; [apply Hl|]. intros evs rs s'' E.
  by eapply (latched_run good modbus dlt698) in E as [_ E].
Qed.

(** Later the channel of the first example is refused. *)
Lemma agent_latched_witness :
  ∃ s', channel_instance_construct demo_parse (str "U") demo_agent = Some (FAILURE, s') ∧
    ∀ rs s'', demo_run [ChannelMessage (str "C"); ModelMessage (str "M")] s' = Some (rs, s'') →
      Forall (λ r, r = None ∨ r = Some FAILURE) rs.
Proof.
  destruct (agent_latched supplied demo_drv demo_drv demo_parse demo_W demo_clock (str "U")
    [demo_channel "serial"; demo_channel "radio"] demo_agent demo_running eq_refl) as (r & s' & E & -> & _ & H).
  - intros j Hj. apply elem_of_cons in Hj as [->|Hj]; [|apply list_elem_of_singleton in Hj as ->].
    + split; [apply demo_legible; by left|]. eexists. split; [apply demo_described; by left|apply demo_portable; by left].
    + split; [apply demo_legible; by right|]. eexists. split; [apply demo_described; by right|apply demo_portable; by right].
  - apply Exists_cons_tl, Exists_cons_hd. intros sp Hsp. unfold channel_means in Hsp.
    rewrite demo_described in Hsp by by right. by injection Hsp as <-.
  - exists s'. split; [exact E|]. intros rs s''. apply H.
Defined.

(** A map that gets a new manager while its line is locked (a request is still
    unanswered) keeps the lock, but its new thread has never sent anything: as soon as
    the first description is due in mode ["realtime"], with no bytes in between, the
    thread reads its uninitialised variable. *)
Theorem rebound_thread_undefined {M G} (good : G → Prop) (modbus dlt698 : Pm.INTER_DESCRIPTION M G)
    `{!DriverLaws good modbus, !DriverLaws good dlt698} json_parse_string W localtime text body
    (s s' : Agent M G) a v mo i t p th :
  running good modbus dlt698 s → models_in json_parse_string text = Some body →
  Forall (λ j, acceptable good modbus dlt698 (json_value_get_object (Some j))) body →
  structs (maps s) !! a = Some v → chosen (models_of body) v = Some mo → task_lock v = true →
  thing_instance_construct modbus dlt698 json_parse_string text s = Some (OK, s') →
  events i = [] → thread_of s' a = Some (t, p, th) → due W th (current_tick i) →
  thread_step W localtime a i s' = None.
Proof.
  intros [(vs & ms & lost & Hm & Hn & Hp) _ Hw Hpl] Eb Hacc Ev Hmo Hlock E Ei Eth Hdue.
  unfold IotChannelTheory.agent_has in Hm. destruct (g_pm_map_list s) as [lst|] eqn:El;
    [|destruct Hm as (_ & Ema & _); by rewrite Ema in Ev].
  destruct Hm as (l & Hm). assert (bindable good modbus dlt698 s lst l vs ms lost) as Hb by by split.
  destruct (bound_map good modbus dlt698 json_parse_string text body s s' lst l vs ms lost a v mo Hb Eb Hacc Ev Hmo E)
    as (p' & t' & n & Ev' & Et').
  pose proof (thread_of_spec _ _ _ _ _ Eth) as (v2 & h & last & tr & Ev2 & Et2 & Ep2 & Eh2 & El2 & ->).
  rewrite Ev' in Ev2. injection Ev2 as <-. cbn in Et2. injection Et2 as ->. rewrite Et' in El2. injection El2 as <- <-.
  unfold thread_step. rewrite Eth, bind_ret. by rewrite (locked_undefined W localtime _ i Ei).
Qed.

Definition dueb (th : Thread Modbus.MODBUS_MODEL_INFO Globals) (tick : Z) : bool :=
  match IotMain.pm_handle (IotMain.map th) with
  | Some h =>
      match Pm.get_next_send_time (mem th) h with
      | Some (_, _, Some (_, t)) =>
          array_equal (Pm.acqMode t) (str "realtime") && elapsed demo_W tick (Pm.packetSendTime t) (Pm.acqInt t)
      | _ => false
      end
  | None => false
  end.

Lemma dueb_due th tick : dueb th tick = true → due demo_W th tick.
Proof.
  unfold dueb, due. destruct (IotMain.pm_handle (IotMain.map th)) as [h|] eqn:Eh; [|done].
  destruct (Pm.get_next_send_time (mem th) h) as [[[m h'] [[b t]|]]|] eqn:En; [|done..].
  intros [Hm He]%andb_true_iff. by exists h, m, h', b, t.
Defined.

(** The state of the example after the models came a second time. *)
Definition demo_rebound : DemoAgent :=
  match thing_instance_construct demo_drv demo_drv demo_parse (str "M") (demo_after demo_events) with
  | Some (_, s) => s
  | None => demo_agent
  end.

Lemma demo_rebinds :
  thing_instance_construct demo_drv demo_drv demo_parse (str "M") (demo_after demo_events) = Some (OK, demo_rebound).
Proof.
  assert (fst <$> thing_instance_construct demo_drv demo_drv demo_parse (str "M") (demo_after demo_events) = Some OK) as E
    by by vm_compute.
  unfold demo_rebound. destruct (thing_instance_construct _ _ _ _ _) as [[r s']|]; [|done]. by injection E as ->.
Defined.

Lemma demo_due : (λ x, dueb x.2 12000) <$> thread_of demo_rebound 1 = Some true.
Proof. by vm_compute. Defined.

Lemma demo_locked :
  (λ v, (task_lock v, chosen (models_of [JSONObject (default [] demo_json)]) v)) <$>
    structs (maps (demo_after demo_events)) !! 1%positive =
  Some (true, Some (str "line 1", [JSONObject demo_json_model; JSONNull])).
Proof. by vm_compute. Defined.

Lemma rebound_thread_undefined_witness :
  thread_step demo_W demo_clock 1 (mkInput [] 12000 0) demo_rebound = None.
Proof.
  assert (running supplied demo_drv demo_drv (demo_after demo_events)) as Hr.
  { eapply demo_running_after; [|apply demo_first|vm_compute; by eexists].
    constructor; [apply demo_channel_decent|]. constructor; [apply demo_models_decent|]. by repeat constructor. }
  assert (models_in demo_parse (str "M") = Some [JSONObject (default [] demo_json)]) as Eb by by vm_compute.
  pose proof demo_locked as Hl. destruct (structs _ !! _) as [v|] eqn:Ev; [|done].
  pose proof demo_due as Hd. destruct (thread_of demo_rebound 1) as [[[t p] th]|] eqn:Eth; [|done].
  apply (inj Some) in Hl. apply (f_equal fst) in Hl as Hl1. apply (f_equal snd) in Hl as Hl2.
  apply (inj Some) in Hd.
  exact (rebound_thread_undefined supplied demo_drv demo_drv demo_parse demo_W demo_clock (str "M") _ (demo_after demo_events)
    demo_rebound 1 v _ (mkInput [] 12000 0) t p th Hr Eb (demo_models_decent _ Eb) Ev Hl2 Hl1 demo_rebinds eq_refl Eth
    (dueb_due th 12000 Hd)).
Defined.
