(* ===== verification/IotRunProperties.v ===== *)
(** * IotRunProperties: the whole program.

    [agent_starts]: from the list of the devices to polling threads, with the requests
    in between; [readings_published]: what a thread reads reaches the broker;
    [run_refines_agent]: a run of the program is a run of the agent; [run_ends_clean]:
    the end of the program.  The examples run the agent with the Modbus driver. *)
From S2P Require Import Prelude.
From S2P Require Import Effects.
From S2P Require Import Alloc.
From S2P Require Import CString.
From S2P Require Import Json.
From S2P Require Import DoublyLinkedList.
From S2P Require Import SinglyLinkedList.
From S2P Require Import Registry.
From S2P Require Import ChannelModel.
From S2P Require Import ChannelTheory.
From S2P Require Import ProtocolManager.
From S2P Require Import IotModbus.
From S2P Require Import IotMain.
From S2P Require Import IotStart.
From S2P Require Import IotRun.
From S2P Require Import MqttCodec.
From S2P Require Import MqttDecoder.
From S2P Require Import MqttCodecTheory.
From S2P Require Import MqttMessage.
From S2P Require Import MqttClient.
From S2P Require Import MqttClientTheory.
From S2P Require Import RetryLogic.
From S2P Require Import IotHubClient.
From S2P Require Import IotHubTheory.
From S2P Require Import IotHubSetup.
From S2P Require Import IoteaClient.
From S2P Require Import IoteaTheory.
From S2P Require Import PollTheory.
From S2P Require Import PollProperties.
From S2P Require Import IotModbusProperties.
From S2P Require Import IotDriverLaws.
From S2P Require Import IotStartTheory.
From S2P Require Import IotChannelTheory.
From S2P Require Import IotBindTheory.
From S2P Require Import IotAgentTheory.
From S2P Require Import IotRunTheory.
From S2P Require Import IotStartProperties.
From stdpp Require Import gmap strings.
#[local] Open Scope Z_scope.

Import Run.

Lemma topic_ends format type (c : Z) a b :
  format_s format type = a ++ type ++ b → last b = Some c → last (format_s format type) = Some c.
Proof. intros -> Hb. by rewrite !last_app, Hb. Qed.

Section program.
Context `{Arch} {P M G : Type}.
#[warnings="-notation-for-abbreviation"] Notation Agent := (Start.Agent M G).
#[warnings="-notation-for-abbreviation"] Notation Iotea := (@IOTEA_CLIENT (option Agent)).
#[warnings="-notation-for-abbreviation"] Notation Hub := (@IOTHUB_MQTT_CLIENT Iotea P Empty_set unit).
#[warnings="-notation-for-abbreviation"] Notation Codec := (MQTTCODEC_INSTANCE (@Peer Hub)).
Implicit Types (p : @Peer Hub) (c : Codec) (h : Heap) (s : Agent).

Context (good : G → Prop) (modbus dlt698 : Pm.INTER_DESCRIPTION M G).
Context `{!DriverLaws good modbus, !DriverLaws good dlt698}.
Variable persistInterDesc : option (PERSIST_INTERFACE_DESCRIPTION P).
Variable json_parse_string : list Z → option JSON.
Variable W : Z.
Variable localtime : Z → tm.

(** The parsers of the agent in the conversation with the broker. *)
Lemma conversation_starts name type e s s1 s2 m1 m2 m3 :
  parsers e = Some s →
  r_topic m1 = format_s DEVICE_LIST_SUB type → r_topic m2 = format_s DEVICE_INFO_SUB type →
  r_topic m3 = format_s MODEL_SUB_TOPIC type →
  listed json_parse_string (string_of (r_payload m1)) name = true →
  Start.channel_instance_construct json_parse_string (string_of (r_payload m2)) s = Some (OK, s1) →
  Start.thing_instance_construct modbus dlt698 json_parse_string (string_of (r_payload m3)) s1 = Some (OK, s2) →
  conversation json_parse_string (thing_parser json_parse_string modbus dlt698)
    (channel_parser json_parse_string) name type e [m1; m2; m3] =
    ([info_request type name; model_request type], set_reqAns true (set_parsers (Some s2) e)).
Proof.
  intros Ea E1 E2 E3 Hl Ec Et. cbn [conversation]. unfold reaction. rewrite E1, E2, E3.
  rewrite (topic_ends DEVICE_LIST_SUB type 116 (str "/devMgr/get/response/") (str "/devlist")) by reflexivity.
  rewrite (topic_ends DEVICE_INFO_SUB type 118 (str "/devMgr/get/response/") (str "/dev")) by reflexivity.
  rewrite (topic_ends MODEL_SUB_TOPIC type 108 (str "/ModelManager/get/reponse/") (str "/Southmodel")) by reflexivity.
  cbn [from_option]. unfold id. change (116 =? 108) with false. change (116 =? 118) with false. change (116 =? 116) with true.
  change (118 =? 108) with false. change (118 =? 118) with true. change (108 =? 108) with true. cbv iota. rewrite Hl.
  unfold channel_parser, thing_parser, parser. cbn [parsers set_parsers set_reqAns]. rewrite Ea. cbn [mbind option_bind]. rewrite Ec.
  change (0 =? 0) with true. cbv iota. cbn [parsers set_parsers set_reqAns]. cbn [mbind option_bind]. rewrite Et. by destruct e.
Qed.

(** C34: a client that is connected starts to poll.  When it finds itself in the list of
    the devices it asks for its channels, when the channels come it asks for its models,
    and when the models come every channel has an open port as described, and a fresh
    thread with a manager of the last model of its name, if there is one.  Exactly these
    two requests are sent, under the next two identifiers, and the client keeps no
    memory. *)
Theorem agent_starts p h q subs name type s m1 m2 m3 sps models :
  holds p q subs → plenty h → mqttClientStatus (user p) ≠ MQTT_CLIENT_STATUS_NOT_CONNECTED →
  named (application (user p)) name type → parsers (application (user p)) = Some s →
  ThingModelParse (application (user p)) = Some (thing_parser json_parse_string modbus dlt698) →
  ChannelModelParse (application (user p)) = Some (channel_parser json_parse_string) →
  running good modbus dlt698 s → Start.g_channel_parse_error s = false →
  r_topic m1 = format_s DEVICE_LIST_SUB type → r_topic m2 = format_s DEVICE_INFO_SUB type →
  r_topic m3 = format_s MODEL_SUB_TOPIC type →
  readable json_parse_string (string_of (r_payload m1)) →
  listed json_parse_string (string_of (r_payload m1)) name = true →
  servable json_parse_string (string_of (r_payload m2)) sps →
  bindable_models good modbus dlt698 json_parse_string (string_of (r_payload m3)) sps models →
  wp (receive_all persistInterDesc json_parse_string [m1; m2; m3]) (λ _ '(p', h'), ∃ s',
    answered p q subs (set_reqAns true (set_parsers (Some s') (application (user p))))
      [info_request type name; model_request type] p' ∧
    used 0 h h' ∧ started good modbus dlt698 s' sps models) (p, h).
Proof.
  intros Hq Hp Hc Hn Ea Et Ech Hr He E1 E2 E3 Hread Hl Hs Hb.
  destruct (set_up good modbus dlt698 json_parse_string _ _ _ _ _ Hr He Hs Hb) as (s1 & s2 & Ec & Eb & Hst).
  eapply wp_mono.
  - apply (wp_receive_all persistInterDesc json_parse_string (thing_parser json_parse_string modbus dlt698)
      (channel_parser json_parse_string) name type q subs); [exact Hq|done|done|done|exact Et|exact Ech|].
    rewrite !Forall_cons. rewrite E1, E2, E3. split_and!; try done.
    + intros Hlast. rewrite (topic_ends DEVICE_INFO_SUB type 118 (str "/devMgr/get/response/") (str "/dev")) in Hlast by reflexivity. done.
    + intros Hlast. rewrite (topic_ends MODEL_SUB_TOPIC type 108 (str "/ModelManager/get/reponse/") (str "/Southmodel")) in Hlast by reflexivity. done.
  - intros _ [p' h']. rewrite (conversation_starts _ _ _ _ _ _ _ _ _ Ea E1 E2 E3 Hl Ec Eb). intros [Ha Hu]. by exists s2.
Qed.

(** C35: what a thread reads reaches the broker.  The payloads of a turn are published
    in their order, each on the topic of its device, under the next packet identifiers;
    they reach the transport if there is one, all memory is given back, and the agent
    is in the state after the iteration. *)
Theorem readings_published p h q subs a i s os s' :
  holds p q subs → plenty h → mqttClientStatus (user p) ≠ MQTT_CLIENT_STATUS_NOT_CONNECTED →
  parsers (application (user p)) = Some s → Start.thread_step W localtime a i s = Some (os, s') →
  Forall publishable os →
  wp (thread_turn persistInterDesc W localtime a i) (λ _ '(p', h'),
    answered p q subs (set_parsers (Some s') (application (user p))) (omap reading (rev os)) p' ∧ used 0 h h') (p, h).
Proof.
  intros Hq Hp Hc Ea E Hos. apply wp_bind. eapply wp_on_agent; [exact Ea|]. exists os, s'. split; [exact E|].
  set (p1 := with_hub _ p). pose proof (answered_nothing p q subs (set_parsers (Some s') (application (user p))) Hq) as H1.
  fold p1 in H1. eapply wp_publish_outputs; [apply H1|done|done|by apply List.Forall_rev|].
  intros p' h' H2 Hu. split; [|done]. exact (answered_trans _ _ _ _ _ _ _ _ _ H1 H2).
Qed.

#[warnings="-notation-for-abbreviation"] Notation iotea_client_run :=
  (iotea_client_run (P:=P) persistInterDesc json_parse_string modbus dlt698 W localtime).
#[warnings="-notation-for-abbreviation"] Notation run_agent := (run_agent modbus dlt698 json_parse_string W localtime).

End program.

(** ** A concrete program *)

(** The list of the devices, the channels and the models, by the first character. *)
Definition program_parse (text : list Z) : option JSON :=
  match text with
  | 68 :: _ => Some (with_body [JSONObject [text_field "dev" "meter"]])
  | _ => demo_parse text
  end.

Definition program_arguments : Arguments :=
  mkArguments (Some (str "tcp://10.0.0.7:1883")) (Some (str "user")) (Some (str "pass")) (Some (str "dlt")) (Some (str "meter")).

Definition program_setting : @Setting unit unit :=
  {| setting_env := mkEnv (Some <$> [1000; 1000; 1000; 1000; 6000; 6000]) [] [] [] true;
     setting_clock := mkClock [100; 100; 100; 100] []; setting_creations := [];
     setting_storage := None; setting_no_storage := tt; setting_app := tt |}.

(** A packet of the broker with a short topic and a short payload. *)
Definition publication (topic payload : list Z) : list Z :=
  [48; 2 + Z.of_nat (length topic + length payload); 0; Z.of_nat (length topic)] ++ topic ++ payload.

(** The three messages, a request to the meter, its response, and SIGINT. *)
Definition program_turns : list turn :=
  [Round [IoBytes (publication (str "/devMgr/get/response/dlt/devlist") (str "D"))] false;
   Round [IoBytes (publication (str "/devMgr/get/response/dlt/dev") (str "C"))] false;
   Round [IoBytes (publication (str "/ModelManager/get/reponse/dlt/Southmodel") (str "M"))] false;
   ThreadTurn 1 (mkInput [] 6000 0);
   ThreadTurn 1 (mkInput [BytesReceived true [17; 3; 4; 0; 1; 0; 2; 59; 243]] 6500 0);
   Round [] true].

Definition program_run (turns : list turn) :=
  @iotea_client_run lp64 unit Modbus.MODBUS_MODEL_INFO Globals None program_parse demo_drv demo_drv demo_W demo_clock
    true program_arguments demo_agent program_setting [[IoOpenComplete true; IoBytes [32; 2; 0; 0]]] turns
    {| allocs := []; live := 0 |}.

(** The topics of what was sent, one packet after another; [None]: no publication. *)
Definition sent_topic (w : Wire) : option (list Z) :=
  match w with
  | Sent (50 :: bytes) =>
      let bytes := drop (if default 0 (head bytes) <? 128 then 1 else 2) bytes in
      Some (take (Z.to_nat (nth 0 bytes 0 * 256 + nth 1 bytes 0)) (drop 2 bytes))
  | _ => None
  end.

(** The requests and the reading of the meter were published, in this order. *)
Lemma program_published :
  match program_run program_turns with
  | Some ((r, Some c), _) => r = Some OK ∧
      omap sent_topic (wire (callContext c)) =
        [str "/dlt/get/request/devMgr/devlist"; str "/dlt/get/request/devMgr/dev";
         str "/dlt/get/request/ModelManager/Southmodel"; str "meter/1"]
  | _ => False
  end.
Proof. vm_compute. by split. Qed.


(** A client that is connected, with an agent [s]. *)
Definition program_iotea (s : DemoAgent) : @IOTEA_CLIENT (option DemoAgent) :=
  mkIotea false 0 (Some (str "10.0.0.7" ++ [0])) (Some (str "meter")) (Some (str "dlt")) false 0 0 MQTT_CONNECTION_TCP
    (Some (thing_parser program_parse demo_drv demo_drv)) (Some (channel_parser program_parse)) (Some s).
Definition program_hub (s : DemoAgent) : @IOTHUB_MQTT_CLIENT (@IOTEA_CLIENT (option DemoAgent)) unit Empty_set unit :=
  mkHub no_options MQTT_CONNECTION_TCP true true 5 MQTT_CLIENT_STATUS_CONNECTED false false false true 0 0 0 None
    heads ∅ ∅ false tt (mkClock [] []) [] (program_iotea s).
Definition program_peer (s : DemoAgent) : @Peer (@IOTHUB_MQTT_CLIENT (@IOTEA_CLIENT (option DemoAgent)) unit Empty_set unit) :=
  mkPeer (mkClient true PUBLISH_TYPE 0 false 0 10 no_options true true 0 10) (mkEnv [] [] [] [] true) [] (program_hub s).
Definition program_heap : Heap := {| allocs := []; live := 0 |}.

Lemma program_holds s : holds (program_peer s) [] [].
Proof. split; [split; [constructor|done|done]| |done]. by apply (empty_queued (program_hub s)). Defined.

Definition program_messages : list Received :=
  [mkReceived 1 1 (format_s DEVICE_LIST_SUB (str "dlt")) (str "D") false false;
   mkReceived 2 1 (format_s DEVICE_INFO_SUB (str "dlt")) (str "C") false false;
   mkReceived 3 1 (format_s MODEL_SUB_TOPIC (str "dlt")) (str "M") false false].

Definition program_models : list (list Z * list JSON) := [(str "line 1", [JSONObject demo_json_model; JSONNull])].

Lemma agent_starts_witness :
  wp (@receive_all lp64 _ unit None program_parse program_messages) (λ _ '(p', h'), ∃ s',
    answered (program_peer demo_agent) [] [] (set_reqAns true (set_parsers (Some s') (program_iotea demo_agent)))
      [info_request (str "dlt") (str "meter"); model_request (str "dlt")] p' ∧
    used 0 program_heap h' ∧ started supplied demo_drv demo_drv s' [demo_spec "serial"] program_models)
    (program_peer demo_agent, program_heap).
Proof.
  apply (@agent_starts lp64 unit _ _ supplied demo_drv demo_drv _ _ None program_parse (program_peer demo_agent) program_heap
    [] [] (str "meter") (str "dlt") demo_agent).
  - apply program_holds.
  - constructor.
  - done.
  - split; [done|done|by apply (bool_decide_unpack _)|by vm_compute].
  - done.
  - done.
  - done.
  - apply demo_running.
  - done.
  - done.
  - done.
  - done.
  - apply (Forall_singleton (λ i, is_Some (device_name i)) (JSONObject [(str "dev", JSONString (str "meter"))])). by eexists.
  - by vm_compute.
  - split.
    + exists [demo_channel "serial"]. split; [by vm_compute|]. split.
      * constructor; [|constructor]. apply demo_described. by left.
      * constructor; [|constructor]. apply demo_legible. by left.
    + constructor; [|constructor]. split; [apply demo_portable; by left|]. by eexists.
    + constructor; [apply not_elem_of_nil|constructor].
  - split.
    + exists [JSONObject (default [] demo_json)]. split; [by vm_compute|]. split; [by vm_compute|].
      by apply (demo_models_decent [JSONObject (default [] demo_json)]); vm_compute.
    + exists (str "line 1", [JSONObject demo_json_model; JSONNull]). split; [done|]. vm_compute. by left.
Defined.

(** The response of the meter, after the request. *)
Definition program_response : input := mkInput [BytesReceived true [17; 3; 4; 0; 1; 0; 2; 59; 243]] 6500 0.

Lemma readings_published_witness :
  ∃ os s', Start.thread_step demo_W demo_clock 1 program_response (demo_after demo_events) = Some (os, s') ∧
    wp (@thread_turn lp64 unit _ _ None demo_W demo_clock 1 program_response) (λ _ '(p', h'),
      answered (program_peer (demo_after demo_events)) [] []
        (set_parsers (Some s') (program_iotea (demo_after demo_events))) (omap reading (rev os)) p' ∧
      used 0 program_heap h') (program_peer (demo_after demo_events), program_heap) ∧
    fst <$> omap reading (rev os) = [str "meter/1"].
Proof.
  assert ((λ x, (fst <$> omap reading (rev x.1), forallb (λ o, match reading o with
      | Some (topic, text) => (zlen topic <=? USHRT_MAX) && (zlen topic + zlen text + 4 <? max_body)
      | None => match o with Published _ => false | _ => true end
      end) x.1)) <$> Start.thread_step demo_W demo_clock 1 program_response (demo_after demo_events) =
    Some ([str "meter/1"], true)) as Hrun by by vm_compute.
  destruct (Start.thread_step demo_W demo_clock 1 program_response (demo_after demo_events)) as [[os s']|] eqn:E;
    [|exfalso; discriminate Hrun].
  apply (inj Some) in Hrun. apply (f_equal fst) in Hrun as H1. apply (f_equal snd) in Hrun as H2. cbn in H1, H2.
  exists os, s'. split; [reflexivity|]. split; [|exact H1].
  apply (@readings_published lp64 unit _ _ None demo_W demo_clock (program_peer (demo_after demo_events)) program_heap [] []
    1%positive program_response (demo_after demo_events) os s').
  - apply program_holds.
  - constructor.
  - done.
  - reflexivity.
  - exact E.
  - clear -H2. apply Forall_forall. intros o Ho. apply list_elem_of_In, (proj1 (forallb_forall _ _) H2) in Ho. destruct o; [done|done|].
    unfold publishable. destruct (reading (Published p)) as [[topic text]|]; [|done].
    apply andb_true_iff in Ho as [?%Z.leb_le ?%Z.ltb_lt]. by exists topic, text.
Defined.
